(* ===== verification/_CoqProject ===== *)
-Q . S2P
Prelude.v
Bytes.v
Rbtree.v
MemTree.v
Gpuaddr.v
SharedMem.v
State.v
Timestamp.v
Hsync.v
Context.v
Events.v
Isync.v
Drawobj.v
Frames.v
Ring.v
Parcel.v
Hyp.v
HypPool.v
HypCalls.v
HypReply.v
Ipcq.v
Mmu.v
MemIoctl.v
CtxtCreate.v
Forward.v
Dispatch.v
Doorbell.v
Irq.v
CtxtIoctl.v
Process.v
Release.v
Submission.v
Ioctl.v
IoctlTable.v
