(* ===== verification/Prelude.v ===== *)
(** * The HGSL driver

    HGSL is the Linux driver through which a guest operating system submits work to
    an Adreno GPU.  A process opens the device and creates contexts; a context
    takes command lists with an increasing 32-bit timestamp.  Submissions go
    either through rings of dwords in memory shared with the GPU's management unit
    (the GMU), followed by a doorbell, or through calls to a hypervisor.  The GPU
    reports progress by writing the timestamps it consumed and retired into memory
    that the driver maps, the shadow timestamps.  Memory for the GPU is allocated by
    the driver and mapped either by the hypervisor's side (the backend) or, with full
    virtualisation, by the driver.  This development models the parts of the driver
    that order, submit and complete work, that speak to the backend, and that manage
    memory, and proves that they do so correctly.

    ** Files

    - [Prelude] (this file): machine integers, error numbers, record updates
      ([Upd]), the monad [M] of stateful computations that may fault, total
      correctness rules ([run], [wp]), framing ([Frames]), lemmas on lists and
      maps, the tactics of the development.
    - [Bytes]: bytes in memory, little-endian integers, copies that stay inside.
    - [Rbtree], [MemTree]: search trees.  The kernel's rebalancing is an interface
      ([Rbtree]) with the laws the driver relies on; on top of it, insertion and
      look-up of memory nodes by GPU address (hgsl_memory.c, hgsl_memory.h).
    - [Gpuaddr]: the allocator of GPU addresses of a page table (hgsl_iommu.c).
    - [SharedMem]: pages shared with the GPU, their tables of segments, dma-bufs,
      cache maintenance (hgsl_memory.c).
    - [State]: the structures of hgsl.h, hgsl_drawobj.h, hgsl_dispatch.h, hgsl.c
      and the uapi header as records, the store [world], the class [Kernel] of
      what the driver asks of the kernel, the hypervisor and user memory.
    - [Timestamp]: the wrapping comparisons of hgsl.h.
    - [Hsync], [Isync]: hardware and software timelines with their fences
      (hgsl_sync.c).
    - [Context]: contexts, their table, references and timestamps (hgsl.c, hgsl.h).
    - [Events]: the events of a context, signaled as timestamps retire
      (hgsl_events.c).
    - [Drawobj]: commands, markers, sync objects and timeline objects
      (hgsl_drawobj.c).
    - [Frames]: for each operation so far, what it leaves alone.
    - [Ring]: rings of dwords and the message that issues commands (hgsl.c).
    - [Parcel]: the encoding of calls to the backend (hgsl_hyp_socket.c).
    - [Hyp], [HypPool], [HypCalls], [HypReply]: channels and transactions; the pool of
      channels and its invariant; the calls; calls that the backend answers
      (hgsl_hyp.c, hgsl_hyp.h).
    - [Ipcq]: the reader of the queue from the GMU (hgsl_gmugos.c).
    - [Mmu]: the state of a process for memory, and mapping for the GPU (hgsl_mmu.c,
      hgsl_iommu.c, hgsl.c).
    - [MemIoctl]: the ioctls on memory, and the clean-up of a process (hgsl.c).
    - [CtxtCreate]: creating a context in the backend, with the memory for its shadow
      timestamps (hgsl_hyp.c, hgsl.c).
    - [Forward]: the ioctls that only forward to the backend, with the buffers of the user
      on their way in and out (hgsl.c).
    - [Dispatch]: the queue of draw objects of a context and the worker that submits
      from it (hgsl_dispatch.c).
    - [Doorbell], [Submission]: the two kinds of doorbell queue, sending, waiting
      (hgsl.c); memory safety of submissions through a context's own queue.
    - [Irq]: the interrupts of the GMU-GOS registers and of the TCSR doorbells, and how a
      doorbell device is brought up and shut down (hgsl_gmugos.c, hgsl_tcsr.c, hgsl.c).
    - [CtxtIoctl]: the life of a context: the ioctls that create and destroy one, over all
      the parts it has, and the set-up of its doorbell queue (hgsl.c).
    - [Process], [Release]: opening and closing the device, the worker that cleans up after
      a process, the device that a process uses, the driver's own connection to the
      backend; what the clean-up does to everything else (hgsl.c, hgsl.h).
    - [Ioctl]: the ioctls above all this, and the worker that runs the callbacks of
      events (hgsl.c, hgsl_sync.c, hgsl_events.c).
    - [IoctlTable]: the numbers of the commands, the layouts of their parameters for both
      ABIs, the table of functions and the entry point (hgsl.c, the uapi header).

    A definition has the name of the C function it models.  A loop, or a part of a
    function that is a step of its own, has a name of its own next to it.

    ** State

    A pointer is a [positive].  The objects that pointers name live in the maps of
    [world], one map per type; freeing an object removes it, and an access to an
    object that is not there is a fault, so a theorem that a call returns also
    says that it does not use freed memory.  Counters of references are fields of
    the objects; taking a reference on an object without any is a fault, dropping
    the last one runs the release function.  Fields of 32 and 64 bits are
    integers ([Z]) that the operations reduce modulo the width where the C code
    does arithmetic on them ([u32], [u64]).

    A call that only has an effect outside of the driver (waking a thread, signaling
    a fence, arming a timer, ringing a doorbell) appends an [action] to the trace
    of the world.  A call that returns something (allocation, user memory, time, the
    hypervisor) asks the [Kernel] instance; the answers are indexed by a clock that
    advances with each question, so the same question may have different answers.
    The shadow timestamps and the read indices of the queues change under the
    driver's feet: a wait lets the instance change them ([k_interfere],
    [k_gpu_shadow], [k_gmu_dbq], [k_gmu_read]), and while the last user of a hardware
    timeline sleeps another thread may signal it ([k_hsync_signal]).

    The parts that do not touch [world] have states of their own, built the same way:
    [hgsl_hyp_priv_t] for the channels of a process, with a log of what went over the
    sockets ([Hab] answers); [shm] for memory, with the maps of nodes, blocks of
    pages, tables and dma-bufs ([SharedMem] answers); [mem_dev] for a process that
    has both and its two trees of nodes ([MemEnv] answers); [creation] for such a process
    with the context that it is creating; [requests] for an ioctl that forwards, with the
    buffers of the kernel and the memory of the user; [driver] for all that the life of a
    context touches: a [world], a [mem_dev], the interrupts, the doorbell queues; [device]
    for a driver with its processes ([process]) and the lists that they are in, where a
    request of a process runs on a [driver] that has the parts of that process; for the IPC
    queue, the memory that it shares with the other side, which may write between any two
    reads; [irq_dev] for the registers and handlers of interrupts ([IrqKernel] answers).

    Locks are not modelled: each definition is what the code does while it holds
    its locks, and the theorems are about one operation, or one sequence of
    operations, at a time.  Where the code drops a lock to wait, the wait is a
    point of interference.

    ** How the parts interact

    hgsl_ioctl_gpu_command builds draw objects from user memory and queues them on
    the ring of the context ([Ioctl], [Drawobj], [Dispatch]).  The worker of the
    context takes them off in order: a sync object at the head blocks those behind
    it until the events it waits for (timestamps of other contexts, fences,
    points of timelines) have expired; a command is handed to hgsl_db_issue_cmd,
    which writes a message into a ring of dwords and rings the doorbell.  The
    dispatcher only knows hgsl_db_issue_cmd through the class [IssueCmd], which
    promises that it leaves the rings of the contexts alone; [Doorbell] provides
    the instance ([doorbell_issue]).  When the GPU retires a timestamp, a pass
    over the event groups hands the events that it reached to a worker, whose
    callbacks expire sync objects, signal timelines and hardware fences.

    The memory ioctls ([MemIoctl]) allocate a node ([SharedMem]), have it mapped by the
    backend ([HypCalls], over a channel of [HypPool]) or by the driver ([Mmu], with an
    address of [Gpuaddr]), and keep it in a tree ([MemTree]).  A call to the backend
    takes a channel out of the pool, writes a parcel ([Parcel]), sends it, reads the
    reply and gives the channel back.

    ** Theorems

    - Order of submission ([Dispatch]): the ring is a FIFO queue with put-back.  Taking
      objects off it drops exactly those that are retired when their turn comes (a sync
      object that waits for nothing, a marker whose timestamp is retired, a timeline
      object) and stops at what is to be submitted, at what blocks ([drains]); a run of the
      submission gives each object a fate, in the order of the queue (retired, submitted,
      gone), and puts back what was refused ([sends]); neither loop takes more turns than
      there are objects.  Queueing a batch queues all of it, or fails and queues nothing
      for a cause, except after a wait for room, where the code does not do what it means
      to do.
    - Messages ([Ring], [Doorbell], [Submission]): a send appends exactly the message
      to the contents of the ring and rings the doorbell; a send that fails
      writes no message; submissions through a context queue stay inside their
      memory; the header of a message is read back field by field; the buffer of
      an indirect submission is released too early by the quick check.
    - Completion ([Events], [Hsync], [Isync], [Drawobj], [Ioctl]): exactly the events,
      fences and points reached are signaled, once and in order, and references
      are given back.
    - Contexts and ioctls: timestamps advance, look-ups balance their references,
      refused requests change nothing.
    - Memory nodes: what is inserted is found, look-ups return the node that covers
      the range.
    - Memory ([SharedMem], [MemIoctl]): an allocation that fails leaves nothing behind,
      in the memory alone and, when the backend maps the buffer, for the whole ioctl; one
      that succeeds is undone by freeing it and closing its descriptor, or the free changes
      nothing for one of three causes; cache maintenance covers exactly the pages of the
      range.  Where the driver maps the buffer itself, with full virtualisation, runs show
      that allocations fault or fail.
    - GPU addresses ([Gpuaddr]): as long as there is memory for the entries, ranges in use
      are disjoint, aligned and in range over all sequences of operations (without it they
      may overlap); exactly the bad requests are refused; the search is the first fit; a
      release undoes an allocation.
    - Calls to the backend ([Parcel], [HypPool], [HypCalls], [HypReply]): what is
      marshalled is read back; marshalling stays inside its buffer; each call that
      [hyp_call] lists gives its channel back or leaves it waiting for its retry, and sends
      at most one message, its own, for replies that fit or are refused ([call_ok]);
      hgsl_hyp_deinit_ipcq, which is not among them, keeps its channel when it fails;
      closing the pool releases everything; an answer of the backend is what the caller
      gets.
    - Creating a context ([CtxtCreate]): all or nothing for the memory, the mappings and the
      accesses of the CPU of the driver, whatever the backend answers; the one failure
      after which the context points to a freed node; the clean-up undoes a creation.  What
      has been exported to the backend is not followed.
    - The life of a context ([CtxtIoctl]): a context that is created and destroyed again
      leaves nothing behind, on a device without doorbell queues and full virtualisation;
      destroying one makes its call and frees everything, unless there is no channel; what
      the code forgets on the other paths is run.
    - Processes ([Process], [Release]): over all sequences of opening, closing, requests and
      turns of the worker, an open file has a process that counts its files, and none that
      may be freed; cleaning up after a process at rest ends and takes exactly what is of
      that process.
    - Commands ([IoctlTable]): a command brings exactly the bytes that both versions of its
      parameters share, and exactly these go back; where another ABI lays the parameters
      out differently, each member still arrives.
    - Forwarding ([Forward]): each request is refused for a cause, or copies in what it
      says, makes one call, copies out what the backend answered up to what cannot be
      copied, and frees its buffers, for the sizes of [forward_ok]; where memory is copied
      that nobody has written.
    - The queue from the GMU ([Ipcq]): the reader stays inside the memory whatever the
      other side writes; beside a sender that only appends, each message is handled
      once, in order, as written.
    - Interrupts ([Irq]): through all sequences of requests, interrupts and wake-ups an
      activated interrupt keeps its handler, its line and its mask; the interrupt of a
      TCSR receiver is on exactly while it is used.
    - What the proofs have shown to be wrong in the code is stated too, where it can be
      ([Gpuaddr], [Parcel], [HypCalls], [MemIoctl], [CtxtCreate], [Doorbell], [Irq]).

    ** Fuel

    Loops that poll have the retry counts of the code.  The loops of the dispatcher
    take the size of the ring as a bound, and a theorem says that there are no more turns
    than queued objects, so that a run without a result has a turn without one.  The loop of the IPC queue takes a bound that the theorems relate to the
    number of messages.  The poll of dbq_wait_free_ibdesc is bounded by real time in the
    code; its bound [turns] is a parameter, and the theorems hold for any value.  Closing a
    connection waits until no channel is in use; [looks] bounds how often it looks, once
    being enough when none is.

    ** Not modelled

    The probing of devices, registers and faults of the IOMMU (hgsl_iommu.c), the kernel's
    page tables (CONFIG_PER_PROCESS_PT, which is not set), debugfs, sysfs, tracing and
    logging: they set hardware up or only report. *)

From Stdlib Require Export Sorted ZArith Lia ZifyNat.
From stdpp Require Export base gmap list numbers sorting.

#[global] Open Scope Z_scope.
#[global] Set Default Goal Selector "!".

(** * Machine integers *)

Definition u32 (z : Z) : Z := z mod 4294967296.
Definition u64 (z : Z) : Z := z mod 18446744073709551616.

Definition is_u32 (z : Z) : Prop := 0 ≤ z < 4294967296.
Definition is_u64 (z : Z) : Prop := 0 ≤ z < 18446744073709551616.

Definition U32_MAX : Z := 4294967295.
Definition UINT_MAX : Z := 4294967295.
Definition INT_MAX : Z := 2147483647.

(** [x & mask] as a C condition. *)
Definition has_flag (x mask : Z) : bool := negb (Z.land x mask =? 0).

Definition BIT (n : Z) : Z := Z.shiftl 1 n.

(** Linux [ALIGN(x, a)] on unsigned values, [a] a power of two. *)
Definition ALIGN (x a : Z) : Z := (x + (a - 1)) / a * a.

Definition PAGE_SHIFT : Z := 12.
Definition PAGE_SIZE : Z := 4096.
Definition PAGE_ALIGN (x : Z) : Z := ALIGN x PAGE_SIZE.

(** * Error numbers (asm-generic/errno) *)

Definition EPERM : Z := 1.
Definition ENOENT : Z := 2.
Definition EINTR : Z := 4.
Definition EBADF : Z := 9.
Definition EAGAIN : Z := 11.
Definition ENOMEM : Z := 12.
Definition EFAULT : Z := 14.
Definition EBUSY : Z := 16.
Definition EEXIST : Z := 17.
Definition ENODEV : Z := 19.
Definition EINVAL : Z := 22.
Definition ERANGE : Z := 34.
Definition EPROTO : Z := 71.
Definition ETIMEDOUT : Z := 110.

(** * Pointers

    The kernel has functions that return NULL, an error number in the place of a
    pointer, or a pointer. *)

Abbreviation ptr := positive (only parsing).

Inductive eptr := NULL | ERR_PTR (e : Z) | PTR (p : ptr).

#[export] Instance eptr_eq_dec : EqDecision eptr.
Proof. solve_decision. Defined.

Definition IS_ERR (x : eptr) : bool := match x with ERR_PTR _ => true | _ => false end.
Definition IS_ERR_OR_NULL (x : eptr) : bool := match x with PTR _ => false | _ => true end.
Definition is_null (x : eptr) : bool := match x with NULL => true | _ => false end.

(** * Record update

    [r <| f := v |>] and [r <| f ::= g |>]: a record declares its eta
    expansion once, as an instance of [Eta], and the setter of a field is built
    from it. *)

Class Eta (R : Type) := eta : R → R.
Class Upd {R E : Type} (proj : R → E) := upd : (E → E) → R → R.
Arguments upd {R E} proj {_} _ _ /.

Ltac build_upd R proj :=
  let inst := constr:(_ : Eta R) in
  let body := eval red in inst in
  lazymatch eval pattern proj in body with
  | ?ctx _ =>
      let t := eval cbv beta in (fun f => ctx (fun r => f (proj r))) in
      exact t
  end.

#[global] Hint Extern 0 (@Upd ?R _ ?proj) => build_upd R proj : typeclass_instances.

Notation "r <| f ::= g |>" := (upd f g r)
  (at level 1, f at next level, left associativity).
Notation "r <| f := v |>" := (upd f (λ _, v) r)
  (at level 1, f at next level, left associativity).

(** * State with faults

    A C function that reads and writes a state [S] and returns an [A].  [None]
    is a fault: a NULL or freed object is dereferenced, or a reference count
    that is already zero is dropped. *)

Definition M (S A : Type) : Type := S → option (A * S).

#[global] Instance M_ret S : MRet (M S) := λ A a s, Some (a, s).
#[global] Instance M_bind S : MBind (M S) := λ A B k m s,
  match m s with Some (a, s') => k a s' | None => None end.

Definition fault {S A} : M S A := λ _, None.
Definition get {S} : M S S := λ s, Some (s, s).
Definition put {S} (s : S) : M S unit := λ _, Some (tt, s).
Definition gets {S A} (f : S → A) : M S A := λ s, Some (f s, s).
Definition modify {S} (f : S → S) : M S unit := λ s, Some (tt, f s).
Definition of_option {S A} (o : option A) : M S A :=
  match o with Some a => mret a | None => fault end.
Definition when {S} (b : bool) (m : M S unit) : M S unit :=
  if b then m else mret tt.

(** [list_for_each_entry] and array loops without an early exit. *)
Fixpoint for_each {S A} (l : list A) (f : A → M S unit) : M S unit :=
  match l with
  | [] => mret tt
  | x :: l' => f x ;; for_each l' f
  end.

Definition run {S A} (m : M S A) (s : S) : option (A * S) := m s.
Definition result {S A} (m : M S A) (s : S) : option A := fst <$> m s.
Definition exec {S A} (m : M S A) (s : S) : option S := snd <$> m s.

(** ** Weakest preconditions *)

(** Total correctness: [m] does not fault from [s], and ends in [Q]. *)
Definition wp {S A} (m : M S A) (Q : A → S → Prop) (s : S) : Prop :=
  match m s with Some (a, s') => Q a s' | None => False end.

(** Whatever [m] returns, if it does not fault, is in [R]. *)
Definition returns {S A} (R : A → Prop) (m : M S A) : Prop :=
  ∀ s a s', m s = Some (a, s') → R a.

(** [Frames R m]: whenever [m] returns, the states before and after are
    related by [R]. *)
Class Frames {S A} (R : S → S → Prop) (m : M S A) : Prop :=
  frames : ∀ s a s', m s = Some (a, s') → R s s'.

Section wp.
  Context {S : Type}.

Lemma wp_ret {A} (a : A) (Q : A → S → Prop) s : Q a s → wp (mret a) Q s.
  Proof. done. Qed.

Lemma wp_bind {A B} (m : M S A) (k : A → M S B) Q s :
    wp m (λ a s', wp (k a) Q s') s → wp (m ≫= k) Q s.
  Proof.
    unfold wp, mbind, M_bind. destruct (m s) as [[a s']|]; done.
  Qed.

Lemma returns_ret {A} (R : A → Prop) a : R a → returns R (mret a : M S A).
  Proof. by intros Ha s b s' [= <- _]. Qed.

Lemma returns_bind {A B} (R : B → Prop) (m : M S A) (k : A → M S B) :
    (∀ a, returns R (k a)) → returns R (m ≫= k).
  Proof.
    intros Hk s b s' E. unfold mbind, M_bind in E.
    destruct (m s) as [[a s1]|]; [|done]. by eapply Hk.
  Qed.

Lemma wp_mono {A} (m : M S A) (Q Q' : A → S → Prop) s :
    wp m Q s → (∀ a s', Q a s' → Q' a s') → wp m Q' s.
  Proof. unfold wp. destruct (m s) as [[a s']|]; eauto. Qed.

Lemma wp_run {A} (m : M S A) (Q : A → S → Prop) s :
    wp m Q s → ∃ a s', m s = Some (a, s') ∧ Q a s'.
  Proof. unfold wp. destruct (m s) as [[a s']|]; [eauto | done]. Qed.

Lemma wp_of_run {A} (m : M S A) (Q : A → S → Prop) s a s' :
    m s = Some (a, s') → Q a s' → wp m Q s.
  Proof. unfold wp. by intros ->. Qed.

Lemma bind_Some {A B} (m : M S A) (k : A → M S B) s b s'' :
    (m ≫= k) s = Some (b, s'') ↔
    ∃ a s', m s = Some (a, s') ∧ k a s' = Some (b, s'').
  Proof.
    unfold mbind, M_bind. destruct (m s) as [[a s']|]; [|naive_solver].
    split; [eauto|]. intros (a' & s1 & E & ?). by injection E as -> ->.
  Qed.

Lemma bind_run {A B} (m : M S A) (k : A → M S B) s a s' :
    m s = Some (a, s') → (m ≫= k) s = k a s'.
  Proof. unfold mbind, M_bind. by intros ->. Qed.

  (** A framed computation that does not fault keeps its frame. *)
Lemma wp_frames {A} (R : S → S → Prop) (m : M S A) `{!Frames R m} Q s :
    wp m Q s → wp m (λ a s', Q a s' ∧ R s s') s.
  Proof.
    unfold wp. destruct (m s) as [[a s']|] eqn:E; [|done].
    intros HQ. split; [done|]. eapply frames, E.
  Qed.
End wp.

Section frames.
  Context {S : Type} (R : S → S → Prop) `{!PreOrder R}.

#[global] Instance frames_ret {A} (a : A) : Frames R (mret a : M S A).
  Proof. intros s a' s' [= <- <-]. reflexivity. Qed.

#[global] Instance frames_fault {A} : Frames R (fault : M S A).
  Proof. intros s a s' [=]. Qed.

#[global] Instance frames_bind {A B} (m : M S A) (k : A → M S B) :
    Frames R m → (∀ a, Frames R (k a)) → Frames R (m ≫= k).
  Proof.
    intros Hm Hk s b s'' (a & s' & H1 & H2)%bind_Some.
    transitivity s'; [eapply Hm, H1 | eapply Hk, H2].
  Qed.

#[global] Instance frames_gets {A} (f : S → A) : Frames R (gets f).
  Proof. intros s a s' [= <- <-]. reflexivity. Qed.

#[global] Instance frames_of_option {A} (o : option A) : Frames R (of_option o).
  Proof. destruct o; apply _. Qed.

#[global] Instance frames_if {A} (b : bool) (m1 m2 : M S A) :
    Frames R m1 → Frames R m2 → Frames R (if b then m1 else m2).
  Proof. by destruct b. Qed.

#[global] Instance frames_when (b : bool) (m : M S unit) :
    Frames R m → Frames R (when b m).
  Proof. destruct b; apply _. Qed.

#[global] Instance frames_for_each {A} (l : list A) (f : A → M S unit) :
    (∀ a, Frames R (f a)) → Frames R (for_each l f).
  Proof. intros Hf. induction l; apply _. Qed.

Lemma frames_modify (f : S → S) : (∀ s, R s (f s)) → Frames R (modify f).
  Proof. intros Hf s a s' [= <- <-]. apply Hf. Qed.
End frames.

(** Goals [Frames R m]: instance search, splitting the matches it cannot see
    through. *)
Ltac frames_tac :=
  repeat first
    [ apply _
    | progress intros
    | apply frames_bind; [apply _ | | ]
    | apply frames_when; [apply _ | ]
    | apply frames_if
    | apply frames_for_each; [apply _ | ]
    | match goal with |- Frames _ (match ?x with _ => _ end) => destruct x end ].

(** Injectivity of [H], replacing the variables it determines. *)
Ltac inj_subst H :=
  injection H; clear H;
  repeat match goal with
  | |- ?x = ?y → _ =>
      let E := fresh "E" in intros E;
      first [is_var y; subst y | is_var x; subst x | constr_eq x y; clear E | idtac]
  end.

(** Inversion of runs: splits every bind of a hypothesis [m s = Some _]. *)
Ltac inv_run :=
  repeat match goal with
  | H : (_ ≫= _) _ = Some _ |- _ =>
      apply bind_Some in H; destruct H as (? & ? & ? & ?)
  | H : mret _ _ = Some _ |- _ => inj_subst H
  | H : gets _ _ = Some _ |- _ => injection H as <- <-
  | H : modify _ _ = Some _ |- _ => first [injection H as <- <- | injection H as <-]
  | H : fault _ = Some _ |- _ => discriminate H
  end.

(** * Generic lemmas *)

Lemma u32_bound z : is_u32 (u32 z).
Proof. unfold u32, is_u32. apply Z.mod_pos_bound. lia. Qed.

Lemma u32_small z : is_u32 z → u32 z = z.
Proof. unfold u32, is_u32. intros. by apply Z.mod_small. Qed.

Lemma u64_bound z : is_u64 (u64 z).
Proof. unfold u64, is_u64. apply Z.mod_pos_bound. lia. Qed.

Lemma u64_small z : is_u64 z → u64 z = z.
Proof. unfold u64, is_u64. intros. by apply Z.mod_small. Qed.

Lemma u32_u32 z : u32 (u32 z) = u32 z.
Proof. apply u32_small, u32_bound. Qed.

Lemma ALIGN_spec x a : 0 < a → x ≤ ALIGN x a < x + a ∧ (a | ALIGN x a).
Proof.
  intros Ha. unfold ALIGN.
  pose proof (Z.div_mod (x + (a - 1)) a ltac:(lia)) as Hd.
  pose proof (Z.mod_pos_bound (x + (a - 1)) a Ha) as Hb.
  split; [nia | apply Z.divide_factor_r].
Qed.

Lemma ALIGN_id x a : 0 < a → (a | x) → ALIGN x a = x.
Proof.
  intros Ha [k ->]. unfold ALIGN.
  rewrite Z.add_comm, Z.div_add by lia. rewrite Z.div_small by lia. lia.
Qed.

(** ** Updating a map at the keys of a list *)

Definition alter_on {V} (S : list positive) (g : V → V) (m : gmap positive V) :
  gmap positive V := map_imap (λ p v, Some (if decide (p ∈ S) then g v else v)) m.

Lemma alter_on_lookup {V} S (g : V → V) m p :
  alter_on S g m !! p = if decide (p ∈ S) then g <$> m !! p else m !! p.
Proof.
  unfold alter_on. rewrite map_lookup_imap. destruct (m !! p); cbn; by destruct (decide _).
Qed.

Lemma alter_on_nil {V} (g : V → V) m : alter_on [] g m = m.
Proof. apply map_eq. intros p. rewrite alter_on_lookup. by rewrite decide_False by set_solver. Qed.

Lemma alter_on_cons {V} p S (g : V → V) m v :
  m !! p = Some v → p ∉ S → alter_on (p :: S) g m = alter_on S g (<[p := g v]> m).
Proof.
  intros Hp Hn. apply map_eq. intros q. rewrite !alter_on_lookup.
  destruct (decide (q = p)) as [->|].
  - rewrite decide_True, decide_False by set_solver.
    by rewrite lookup_insert_eq, Hp.
  - rewrite lookup_insert_ne by done.
    destruct (decide (q ∈ S)); [by rewrite decide_True by set_solver|].
    by rewrite decide_False by set_solver.
Qed.

Lemma alter_on_twice {V} S (g h : V → V) m :
  alter_on S g (alter_on S h m) = alter_on S (λ v, g (h v)) m.
Proof.
  apply map_eq. intros p. rewrite !alter_on_lookup.
  destruct (decide (p ∈ S)); [|done]. by destruct (m !! p).
Qed.

Lemma alter_on_ext {V} S (g h : V → V) m :
  (∀ p v, p ∈ S → m !! p = Some v → g v = h v) → alter_on S g m = alter_on S h m.
Proof.
  intros E. apply map_eq. intros p. rewrite !alter_on_lookup.
  destruct (decide (p ∈ S)); [|done]. destruct (m !! p) eqn:Em; cbn; [|done].
  f_equal. eauto.
Qed.

Lemma alter_on_perm {V} S S' (g : V → V) m :
  (∀ p, p ∈ S ↔ p ∈ S') → alter_on S g m = alter_on S' g m.
Proof.
  intros E. apply map_eq. intros p. rewrite !alter_on_lookup.
  destruct (decide (p ∈ S)) as [H|H]; rewrite E in H;
    [by rewrite decide_True | by rewrite decide_False].
Qed.

Create HintDb hgsl.
#[export] Hint Resolve u32_bound u64_bound : hgsl.
