(* ===== verification/Bytes.v ===== *)
(** Bytes in memory: little-endian integers and the copies of memcpy, which are a
    fault when they leave the memory. *)

From S2P Require Import Prelude.

(** * Definitions *)

(** memcpy of [src] to [mem + i]; None when it runs over the end.  The elements are
    the bytes or the dwords of the memory. *)
Definition memcpy (mem : list Z) (i : nat) (src : list Z) : option (list Z) :=
  if (i + length src <=? length mem)%nat
  then Some (take i mem ++ src ++ drop (i + length src) mem) else None.

(** A read of [n] elements at [mem + i]. *)
Definition peek (mem : list Z) (i n : nat) : option (list Z) :=
  if (i + n <=? length mem)%nat then Some (take n (drop i mem)) else None.

(** The [n] bytes of an integer, and the integer of some bytes. *)
Fixpoint le_bytes (n : nat) (z : Z) : list Z :=
  match n with
  | O => []
  | S n => z mod 256 :: le_bytes n (z / 256)
  end.

Fixpoint le_value (bytes : list Z) : Z :=
  match bytes with
  | [] => 0
  | b :: bytes => b + 256 * le_value bytes
  end.

(** The signed integers of these widths. *)
Definition s32 (z : Z) : Z := if u32 z <? 2147483648 then u32 z else u32 z - 4294967296.
Definition s64 (z : Z) : Z :=
  if u64 z <? 9223372036854775808 then u64 z else u64 z - 18446744073709551616.

(** * Lemmas *)

Lemma memcpy_split mem i src :
  (i + length src ≤ length mem)%nat →
  memcpy mem i src = Some (take i mem ++ src ++ drop (i + length src) mem).
Proof. intros H. unfold memcpy. by rewrite (proj2 (Nat.leb_le _ _) H). Qed.

Lemma memcpy_length mem i src mem' :
  memcpy mem i src = Some mem' → length mem' = length mem.
Proof.
  unfold memcpy. destruct (Nat.leb_spec (i + length src) (length mem)); [|done].
  intros [= <-]. rewrite !length_app, length_take, length_drop. lia.
Qed.

(** The copy over the middle of a memory. *)
Lemma memcpy_app a b c src :
  length src = length b → memcpy (a ++ b ++ c) (length a) src = Some (a ++ src ++ c).
Proof.
  intros H. rewrite memcpy_split by (rewrite !length_app; lia).
  rewrite take_app_length, H, drop_app_add', drop_app_length by done. done.
Qed.

Lemma peek_app a b c : peek (a ++ b ++ c) (length a) (length b) = Some b.
Proof.
  unfold peek. rewrite (proj2 (Nat.leb_le _ _)) by (rewrite !length_app; lia).
  by rewrite drop_app_length, take_app_length.
Qed.

Lemma peek_Some mem i n :
  (i + n ≤ length mem)%nat → ∃ l, peek mem i n = Some l ∧ length l = n.
Proof.
  intros H. unfold peek. rewrite (proj2 (Nat.leb_le _ _) H). eexists. split; [done|].
  rewrite length_take, length_drop. lia.
Qed.

Lemma le_bytes_length n z : length (le_bytes n z) = n.
Proof. revert z. induction n; intros z; cbn; auto. Qed.

Lemma le_value_bytes n z : le_value (le_bytes n z) = z mod 256 ^ Z.of_nat n.
Proof.
  revert z. induction n as [|n IH]; intros z.
  { cbn. by rewrite Z.mod_1_r. }
  cbn [le_bytes le_value]. rewrite IH.
  replace (Z.of_nat (S n)) with (Z.of_nat n + 1) by lia.
  rewrite Z.pow_add_r, Z.pow_1_r, (Z.mul_comm _ 256) by lia.
  rewrite Z.rem_mul_r by lia. lia.
Qed.

Lemma le_value_u32 z : is_u32 z → le_value (le_bytes 4 z) = z.
Proof. intros H. rewrite le_value_bytes. by apply Z.mod_small. Qed.

Lemma le_value_u64 z : is_u64 z → le_value (le_bytes 8 z) = z.
Proof. intros H. rewrite le_value_bytes. by apply Z.mod_small. Qed.

Lemma s32_u32 z : -2147483648 ≤ z < 2147483648 → s32 (le_value (le_bytes 4 z)) = z.
Proof.
  intros H. rewrite le_value_bytes. unfold s32, u32. change (256 ^ Z.of_nat 4) with 4294967296.
  rewrite Z.mod_mod by lia.
  destruct (Z.ltb_spec (z mod 4294967296) 2147483648); Z.to_euclidean_division_equations; lia.
Qed.

Lemma s64_u64 z :
  -9223372036854775808 ≤ z < 9223372036854775808 → s64 (le_value (le_bytes 8 z)) = z.
Proof.
  intros H. rewrite le_value_bytes. unfold s64, u64.
  change (256 ^ Z.of_nat 8) with 18446744073709551616. rewrite Z.mod_mod by lia.
  destruct (Z.ltb_spec (z mod 18446744073709551616) 9223372036854775808);
    Z.to_euclidean_division_equations; lia.
Qed.
