(* ===== verification/Rbtree.v ===== *)
(** Search trees: the shape of the kernel's rb-trees and what the driver relies
    on.  Rebalancing and erasure belong to the kernel (lib/rbtree.c); the driver
    only relies on what they do to the in-order sequence. *)

From S2P Require Import Prelude.

(** * Definitions *)

Inductive tree (A : Type) : Type :=
| Leaf : tree A
| Node : tree A → A → tree A → tree A.
Arguments Leaf {A}.
Arguments Node {A} _ _ _.

Fixpoint inorder {A} (t : tree A) : list A :=
  match t with
  | Leaf => []
  | Node l x r => inorder l ++ x :: inorder r
  end.

(** rb_insert_color and rb_erase, by their effect on the sequence of nodes.
    [rb_erase i] removes the node at in-order position [i]. *)
Class Rbtree := {
  rb_insert_color : ∀ {A}, tree A → tree A;
  rb_erase : ∀ {A}, nat → tree A → tree A;
  rb_insert_color_inorder : ∀ A (t : tree A),
    inorder (rb_insert_color t) = inorder t;
  rb_erase_inorder : ∀ A i (t : tree A),
    inorder (rb_erase i t) = take i (inorder t) ++ drop (S i) (inorder t) }.

(** The descent to a free slot by [key] followed by rb_link_node; None when the
    key is taken. *)
Fixpoint rb_link {A} (key : A → Z) (new : A) (t : tree A) : option (tree A) :=
  match t with
  | Leaf => Some (Node Leaf new Leaf)
  | Node l x r =>
      if key x <? key new then (λ r', Node l x r') <$> rb_link key new r
      else if key new <? key x then (λ l', Node l' x r) <$> rb_link key new l
      else None
  end.

(** ** An instance: no rebalancing, erasure through a list *)

Fixpoint vine {A} (l : list A) : tree A :=
  match l with
  | [] => Leaf
  | x :: l' => Node Leaf x (vine l')
  end.

Definition erase_vine {A} (i : nat) (t : tree A) : tree A :=
  vine (take i (inorder t) ++ drop (S i) (inorder t)).

(** * Lemmas *)

Lemma inorder_vine {A} (l : list A) : inorder (vine l) = l.
Proof. induction l; simpl; congruence. Qed.

#[export] Instance vine_rbtree : Rbtree.
Proof.
  refine {| rb_insert_color A t := t; rb_erase A i t := erase_vine i t |}.
  - done.
  - intros. apply inorder_vine.
Defined.

Section bst.
Context {A : Type} (key : A → Z).

Definition key_lt (x y : A) : Prop := key x < key y.

(** The in-order keys increase strictly. *)
Definition bst (t : tree A) : Prop := StronglySorted key_lt (inorder t).

Lemma StronglySorted_mid (R : A → A → Prop) l1 x l2 :
  StronglySorted R (l1 ++ x :: l2) ↔
  StronglySorted R l1 ∧ StronglySorted R l2 ∧
  Forall (λ y, R y x) l1 ∧ Forall (R x) l2 ∧
  (∀ y z, y ∈ l1 → z ∈ l2 → R y z).
Proof.
  induction l1 as [|a l1 IH]; simpl.
  - split.
    + intros H. inversion H; subst. repeat split; try done; try constructor.
      intros y z Hy. set_solver.
    + intros (_ & ? & _ & ? & _). by constructor.
  - split.
    + intros H. inversion H as [|? ? Hs Ha]; subst.
      apply IH in Hs as (? & ? & ? & ? & Hx).
      apply Forall_app in Ha as [Ha1 Ha2]. apply Forall_cons in Ha2 as [? Ha2].
      repeat split; try done; try by constructor.
      intros y z [->|Hy]%elem_of_cons Hz; [|by apply Hx].
      rewrite Forall_forall in Ha2. by apply Ha2.
    + intros (H1 & H2 & H3 & H4 & H5). inversion H1; subst.
      apply Forall_cons in H3 as [? ?].
      constructor.
      * apply IH. repeat split; try done. intros y z ? ?. apply H5; [by right|done].
      * apply Forall_app. split; [done|]. constructor; [done|].
        apply Forall_forall. intros z Hz. apply H5; [by left|done].
Qed.

Lemma rb_link_None new t :
  bst t → rb_link key new t = None ↔ ∃ x, x ∈ inorder t ∧ key x = key new.
Proof.
  induction t as [|l IHl x r IHr]; simpl; unfold bst; simpl.
  { intros _. split; [done|]. set_solver. }
  intros (Hl & Hr & Hlx & Hrx & _)%StronglySorted_mid.
  rewrite Forall_forall in Hlx, Hrx. unfold key_lt in *.
  destruct (Z.ltb_spec (key x) (key new)) as [H1|H1];
    [|destruct (Z.ltb_spec (key new) (key x)) as [H2|H2]].
  - rewrite fmap_None, (IHr Hr). split; intros (y & Hy & E); exists y; split; auto; [set_solver|].
    apply elem_of_app in Hy as [Hy|[->|Hy]%elem_of_cons]; [|lia|done].
    specialize (Hlx y Hy). lia.
  - rewrite fmap_None, (IHl Hl). split; intros (y & Hy & E); exists y; split; auto; [set_solver|].
    apply elem_of_app in Hy as [Hy|[->|Hy]%elem_of_cons]; [done|lia|].
    specialize (Hrx y Hy). lia.
  - split; [|done]. intros _. exists x. split; [set_solver|lia].
Qed.

(** A successful link inserts the new node at its place in the order. *)
Lemma rb_link_Some new t t' :
  bst t → rb_link key new t = Some t' →
  bst t' ∧ ∃ l1 l2, inorder t = l1 ++ l2 ∧ inorder t' = l1 ++ new :: l2.
Proof.
  revert t'. induction t as [|l IHl x r IHr]; simpl; unfold bst; simpl; intros t' Hs E.
  { injection E as <-. simpl. split; [repeat constructor|]. by exists [], []. }
  apply StronglySorted_mid in Hs as (Hl & Hr & Hlx & Hrx & Hlr).
  rewrite Forall_forall in Hlx, Hrx. unfold key_lt in *.
  destruct (Z.ltb_spec (key x) (key new)) as [H1|H1];
    [|destruct (Z.ltb_spec (key new) (key x)) as [H2|H2]; [|done]].
  - apply fmap_Some in E as (r' & E & ->).
    destruct (IHr r' Hr E) as (Hr' & l1 & l2 & E1 & E2). unfold bst in Hr'.
    assert (∀ z, z ∈ inorder r' → z = new ∨ z ∈ inorder r) as Hin.
    { rewrite E1, E2. set_solver. }
    simpl. split.
    + apply StronglySorted_mid. repeat split; try done.
      * by apply Forall_forall.
      * apply Forall_forall. intros z [->|Hz]%Hin; [done|by apply Hrx].
      * intros y z Hy [->|Hz]%Hin; [|by apply Hlr]. specialize (Hlx y Hy). lia.
    + exists (inorder l ++ x :: l1), l2. rewrite E1, E2, <-!(assoc_L app). done.
  - apply fmap_Some in E as (l' & E & ->).
    destruct (IHl l' Hl E) as (Hl' & l1 & l2 & E1 & E2). unfold bst in Hl'.
    assert (∀ z, z ∈ inorder l' → z = new ∨ z ∈ inorder l) as Hin.
    { rewrite E1, E2. set_solver. }
    simpl. split.
    + apply StronglySorted_mid. repeat split; try done.
      * apply Forall_forall. intros z [->|Hz]%Hin; [lia|by apply Hlx].
      * by apply Forall_forall.
      * intros y z [->|Hy]%Hin Hz; [|by apply Hlr]. specialize (Hrx z Hz). lia.
    + exists l1, (l2 ++ x :: inorder r). rewrite E1, E2, <-!(assoc_L app). done.
Qed.
End bst.
