(* ===== verification/MemTree.v ===== *)
(** The memory nodes of a process (hgsl_memory.h, hgsl_memory.c): a search tree
    by GPU address, with the look-ups by address range. *)

From S2P Require Import Prelude.
From S2P Require Import Rbtree.

(** * Definitions *)

(** A page is one of the pages of a block that alloc_pages handed out. *)
Abbreviation page := (ptr * nat)%type (only parsing).

(** struct hgsl_mem_node.  First its memdesc, whose last members are bytes, then its
    own members, the last ones those of its mem_node_iommu_info, of whose pagetable
    only whether it is set.  [mn_pages] is the array of pages. *)
Record hgsl_mem_node := {
  mn_hostptr64 : Z;
  mn_gpuaddr : Z;
  mn_size64 : Z;
  mn_desc_flags : Z;
  mn_priv64 : Z;
  mn_placed : list Z;
  mn_fd : Z;
  mn_export_id : Z;
  mn_memtype : Z;
  mn_dma_buf : eptr;
  mn_pages : option (list page);
  mn_page_count : Z;
  mn_attach : eptr;
  mn_sgt : eptr;
  mn_sgt_ext : eptr;
  mn_sgt_refcount : Z;
  mn_sg_nents : Z;
  mn_vmapping : eptr;
  mn_vmap_count : Z;
  mn_flags : Z;
  mn_iocoherency : bool;
  mn_writecombine : bool;
  mn_metainfo : list Z;
  mn_sgt_iommu : eptr;
  mn_sgt_iommu_refcount : Z;
  mn_priv : Z;
  mn_pagetable : bool;
  mn_dma_buf_iommu : eptr;
  mn_attach_iommu : eptr }.

#[export] Instance mem_node_eta : Eta hgsl_mem_node := λ r,
  {| mn_hostptr64 := mn_hostptr64 r; mn_gpuaddr := mn_gpuaddr r; mn_size64 := mn_size64 r;
     mn_desc_flags := mn_desc_flags r; mn_priv64 := mn_priv64 r; mn_placed := mn_placed r;
     mn_fd := mn_fd r; mn_export_id := mn_export_id r; mn_memtype := mn_memtype r;
     mn_dma_buf := mn_dma_buf r; mn_pages := mn_pages r; mn_page_count := mn_page_count r;
     mn_attach := mn_attach r; mn_sgt := mn_sgt r; mn_sgt_ext := mn_sgt_ext r;
     mn_sgt_refcount := mn_sgt_refcount r; mn_sg_nents := mn_sg_nents r;
     mn_vmapping := mn_vmapping r; mn_vmap_count := mn_vmap_count r; mn_flags := mn_flags r;
     mn_iocoherency := mn_iocoherency r; mn_writecombine := mn_writecombine r;
     mn_metainfo := mn_metainfo r; mn_sgt_iommu := mn_sgt_iommu r;
     mn_sgt_iommu_refcount := mn_sgt_iommu_refcount r; mn_priv := mn_priv r;
     mn_pagetable := mn_pagetable r; mn_dma_buf_iommu := mn_dma_buf_iommu r;
     mn_attach_iommu := mn_attach_iommu r |}.

(** hgsl_mem_node_zalloc: all zero but the cache flags. *)
Definition zeroed_node (iocoherency writecombine : bool) : hgsl_mem_node :=
  {| mn_hostptr64 := 0; mn_gpuaddr := 0; mn_size64 := 0; mn_desc_flags := 0; mn_priv64 := 0;
     mn_placed := replicate 16 0; mn_fd := 0; mn_export_id := 0; mn_memtype := 0;
     mn_dma_buf := NULL; mn_pages := None; mn_page_count := 0; mn_attach := NULL;
     mn_sgt := NULL; mn_sgt_ext := NULL; mn_sgt_refcount := 0; mn_sg_nents := 0;
     mn_vmapping := NULL; mn_vmap_count := 0; mn_flags := 0; mn_iocoherency := iocoherency;
     mn_writecombine := writecombine; mn_metainfo := replicate 128 0; mn_sgt_iommu := NULL;
     mn_sgt_iommu_refcount := 0; mn_priv := 0; mn_pagetable := false;
     mn_dma_buf_iommu := NULL; mn_attach_iommu := NULL |}.

(** A node of some size that no page table knows of yet. *)
Definition mk_mem_node (gpuaddr size : Z) : hgsl_mem_node :=
  (zeroed_node false false) <| mn_gpuaddr := gpuaddr |> <| mn_size64 := size |>.

(** The trees hold nodes, or pointers to nodes of a store: what the code reads of an
    element. *)
Class MemNode (A : Type) := { node_gpuaddr : A → Z; node_size64 : A → Z }.
#[export] Instance mem_node_self : MemNode hgsl_mem_node :=
  {| node_gpuaddr := mn_gpuaddr; node_size64 := mn_size64 |}.

Definition hgsl_mem_range_inspect (da1 da2 size1 size2 : Z) (accurate : bool) : bool :=
  if accurate then (da1 =? da2) && (size1 =? size2)
  else (da1 <=? da2) && (u64 (da2 + size2) <=? u64 (da1 + size1)).

Arguments hgsl_mem_range_inspect : simpl never.

(** The return code and the tree after the call. *)
Definition hgsl_mem_add_node `{Rbtree} `{MemNode A} (rb_root : tree A)
    (mem_node : A) : Z * tree A :=
  match rb_link node_gpuaddr mem_node rb_root with
  | None => (- EEXIST, rb_root)
  | Some t => (0, rb_insert_color t)
  end.

Fixpoint hgsl_mem_find_node_locked `{MemNode A} (rb_root : tree A)
    (gpuaddr size : Z) (accurate : bool) : option A :=
  match rb_root with
  | Leaf => None
  | Node rb_left node rb_right =>
      if hgsl_mem_range_inspect (node_gpuaddr node) gpuaddr (node_size64 node) size accurate
      then Some node
      else if node_gpuaddr node <? gpuaddr
      then hgsl_mem_find_node_locked rb_right gpuaddr size accurate
      else if gpuaddr <? node_gpuaddr node
      then hgsl_mem_find_node_locked rb_left gpuaddr size accurate
      else None
  end.

(** * Specification *)

Section nodes.
Context `{MemNode A}.

Definition covers (n : A) (gpuaddr size : Z) : Prop :=
  node_gpuaddr n ≤ gpuaddr ∧ gpuaddr + size ≤ node_gpuaddr n + node_size64 n.

(** A node's range does not wrap around. *)
Definition mem_node_ok (n : A) : Prop :=
  0 ≤ node_gpuaddr n ∧ 0 ≤ node_size64 n ∧ is_u64 (node_gpuaddr n + node_size64 n).

(** [x]'s range ends before [y]'s begins. *)
Definition before (x y : A) : Prop :=
  node_gpuaddr x < node_gpuaddr y ∧ node_gpuaddr x + node_size64 x ≤ node_gpuaddr y.

(** * Lemmas *)

Lemma range_inspect_covers n gpuaddr size :
  mem_node_ok n → is_u64 (gpuaddr + size) →
  hgsl_mem_range_inspect (node_gpuaddr n) gpuaddr (node_size64 n) size false = true ↔
  covers n gpuaddr size.
Proof.
  intros (? & ? & ?) ?. unfold hgsl_mem_range_inspect, covers.
  rewrite !u64_small by done. rewrite andb_true_iff, !Z.leb_le. done.
Qed.

Lemma find_node_sound t gpuaddr size accurate n :
  hgsl_mem_find_node_locked t gpuaddr size accurate = Some n →
  n ∈ inorder t ∧
  hgsl_mem_range_inspect (node_gpuaddr n) gpuaddr (node_size64 n) size accurate = true.
Proof.
  induction t as [|l IHl x r IHr]; simpl; [done|].
  destruct (hgsl_mem_range_inspect (node_gpuaddr x) _ _ _ _) eqn:E.
  { intros [= <-]. split; [set_solver|done]. }
  repeat case_match; try done; intros Hf.
  - destruct (IHr Hf). set_solver.
  - destruct (IHl Hf). set_solver.
Qed.

(** * Properties *)

(** The range look-up is complete and exact: in a tree of nodes with disjoint
    ranges, it returns the node whose range contains the one asked for, and
    nothing when no node does. *)
Theorem hgsl_mem_find_node_covering t gpuaddr size n :
  StronglySorted before (inorder t) → Forall mem_node_ok (inorder t) →
  0 ≤ gpuaddr → 0 < size → is_u64 (gpuaddr + size) →
  hgsl_mem_find_node_locked t gpuaddr size false = Some n ↔
  n ∈ inorder t ∧ covers n gpuaddr size.
Proof.
  intros Hs Hok Ha Hsz Hu. split.
  { intros [Hin Hc]%find_node_sound. split; [done|].
    rewrite Forall_forall in Hok. apply range_inspect_covers in Hc; auto. }
  intros [Hin Hc]. induction t as [|l IHl x r IHr]; simpl in *.
  { set_solver. }
  apply StronglySorted_mid in Hs as (Hl & Hr & Hlx & Hrx & _).
  rewrite Forall_app, Forall_cons in Hok. destruct Hok as (Hokl & Hokx & Hokr).
  rewrite Forall_forall in Hlx, Hrx.
  pose proof (range_inspect_covers x gpuaddr size Hokx Hu) as Hx.
  unfold covers, before in *.
  apply elem_of_app in Hin as [Hin|[->|Hin]%elem_of_cons].
  - specialize (Hlx n Hin). destruct (hgsl_mem_range_inspect _ _ _ _ _).
    { destruct Hx as [Hx _]. specialize (Hx eq_refl). lia. }
    rewrite (proj2 (Z.ltb_ge _ _)), (proj2 (Z.ltb_lt _ _)) by lia. by apply IHl.
  - destruct Hx as [_ Hx]. rewrite Hx; [done|lia].
  - specialize (Hrx n Hin). destruct (hgsl_mem_range_inspect _ _ _ _ _).
    { destruct Hx as [Hx _]. specialize (Hx eq_refl). lia. }
    rewrite (proj2 (Z.ltb_lt _ _)) by lia. by apply IHr.
Qed.

Lemma find_node_accurate t gpuaddr size n :
  bst node_gpuaddr t →
  hgsl_mem_find_node_locked t gpuaddr size true = Some n ↔
  n ∈ inorder t ∧ node_gpuaddr n = gpuaddr ∧ node_size64 n = size.
Proof.
  intros Hs. split.
  { intros [Hin Hc]%find_node_sound. split; [done|].
    unfold hgsl_mem_range_inspect in Hc. apply andb_true_iff in Hc. lia. }
  intros (Hin & Ha & Hsz). unfold bst in Hs. induction t as [|l IHl x r IHr]; simpl in *.
  { set_solver. }
  apply StronglySorted_mid in Hs as (Hl & Hr & Hlx & Hrx & _).
  rewrite Forall_forall in Hlx, Hrx. unfold key_lt in *.
  apply elem_of_app in Hin as [Hin|[->|Hin]%elem_of_cons].
  - specialize (Hlx n Hin).
    unfold hgsl_mem_range_inspect.
    rewrite (proj2 (Z.eqb_neq (node_gpuaddr x) _)) by lia. simpl.
    rewrite (proj2 (Z.ltb_ge _ _)), (proj2 (Z.ltb_lt _ _)) by lia. by apply IHl.
  - unfold hgsl_mem_range_inspect. by rewrite Ha, Hsz, !Z.eqb_refl.
  - specialize (Hrx n Hin).
    unfold hgsl_mem_range_inspect.
    rewrite (proj2 (Z.eqb_neq (node_gpuaddr x) _)) by lia. simpl.
    rewrite (proj2 (Z.ltb_lt _ _)) by lia. by apply IHr.
Qed.

(** Adding a node keeps the tree ordered; it is refused exactly when the GPU
    address is taken, and otherwise the exact look-up finds the new node and every
    node that was there. *)
Theorem hgsl_mem_add_node_find `{Rbtree} t node ret t' :
  bst node_gpuaddr t → hgsl_mem_add_node t node = (ret, t') →
  bst node_gpuaddr t' ∧
  (ret = - EEXIST ↔ ∃ x, x ∈ inorder t ∧ node_gpuaddr x = node_gpuaddr node) ∧
  (ret = 0 → ∀ n,
     hgsl_mem_find_node_locked t' (node_gpuaddr n) (node_size64 n) true = Some n ↔
     n = node ∨ n ∈ inorder t).
Proof.
  intros Hs E. unfold hgsl_mem_add_node in E.
  pose proof (rb_link_None node_gpuaddr node t Hs) as HN.
  destruct (rb_link _ node t) as [t1|] eqn:El; injection E as <- <-.
  - destruct (rb_link_Some _ _ _ _ Hs El) as (Hs1 & l1 & l2 & E1 & E2).
    assert (bst node_gpuaddr (rb_insert_color t1)) as Hs2.
    { unfold bst. by rewrite rb_insert_color_inorder. }
    split; [done|]. split; [by rewrite <-HN|].
    intros _ n. rewrite find_node_accurate by done.
    rewrite rb_insert_color_inorder, E1, E2. set_solver.
  - split; [done|]. split; [by rewrite <-HN|]. by intros.
Qed.

End nodes.

(** ** Witnesses *)

Definition mem_tree3 : tree hgsl_mem_node :=
  Node (Node Leaf (mk_mem_node 4096 4096) Leaf) (mk_mem_node 16384 8192)
       (Node Leaf (mk_mem_node 65536 4096) Leaf).

Lemma mem_tree3_ok :
  StronglySorted before (inorder mem_tree3) ∧ Forall mem_node_ok (inorder mem_tree3) ∧
  bst node_gpuaddr mem_tree3.
Proof.
  unfold bst, key_lt, before, mem_node_ok, is_u64. simpl.
  repeat split; repeat constructor; simpl; lia.
Qed.

Lemma hgsl_mem_find_node_covering_witness :
  hgsl_mem_find_node_locked mem_tree3 20000 100 false = Some (mk_mem_node 16384 8192) ↔
  mk_mem_node 16384 8192 ∈ inorder mem_tree3 ∧ covers (mk_mem_node 16384 8192) 20000 100.
Proof.
  destruct mem_tree3_ok as (H1 & H2 & _).
  apply (hgsl_mem_find_node_covering mem_tree3 20000 100 (mk_mem_node 16384 8192));
    [done|done|lia|lia|unfold is_u64; lia].
Defined.

Lemma hgsl_mem_add_node_find_witness :
  bst node_gpuaddr (hgsl_mem_add_node mem_tree3 (mk_mem_node 32768 4096)).2.
Proof.
  apply (hgsl_mem_add_node_find mem_tree3 (mk_mem_node 32768 4096) 0
    (hgsl_mem_add_node mem_tree3 (mk_mem_node 32768 4096)).2);
    [apply mem_tree3_ok | reflexivity].
Defined.
