(* ===== verification/Gpuaddr.v ===== *)
(** The allocator of GPU addresses of a page table (hgsl_iommu.c): the ranges in
    use, ordered by address, with a hint past the last of them. *)

From S2P Require Import Prelude.
From S2P Require Import Rbtree.
From S2P Require Import MemTree.

(** * Definitions *)

Definition HGSL_MEMNODE_GUARD_PAGE : Z := BIT 0.
Definition HGSL_MEMNODE_MAPPED : Z := BIT 1.
Definition HGSL_MEMALIGN_MASK : Z := 0x00FF0000.
Definition HGSL_MEMALIGN_SHIFT : Z := 16.
Definition GSL_MEMFLAGS_PROTECTED : Z := 0x00000008.
Definition SZ_64 : Z := 0x40.
Definition SZ_64K : Z := 0x10000.
Definition SZ_1M : Z := 0x100000.
Definition SZ_2M : Z := 0x200000.

Record hgsl_iommu_addr_entry := mk_entry { ae_base : Z; ae_size : Z }.

Record hgsl_pagetable := {
  pt_rbtree : tree hgsl_iommu_addr_entry;
  pt_va_start : Z;
  pt_va_end : Z;
  pt_va_hint : Z }.

#[export] Instance pagetable_eta : Eta hgsl_pagetable :=
  λ r, {| pt_rbtree := pt_rbtree r; pt_va_start := pt_va_start r;
          pt_va_end := pt_va_end r; pt_va_hint := pt_va_hint r |}.

(** Linux ALIGN and PAGE_ALIGN on 64 bits; [1 << n] for an int, whose width
    bounds [n]. *)
Definition ALIGN64 (x a : Z) : Z := Z.land (u64 (x + (a - 1))) (u64 (Z.lnot (a - 1))).
Definition int_bit (n : Z) : option Z :=
  if n <? 31 then Some (2 ^ n) else if n =? 31 then Some (- 2 ^ 31) else None.

(** IS_ERR_VALUE: the last page of addresses are error numbers. *)
Definition IS_ERR_VALUE (x : Z) : bool := u64 (-4095) <=? x.
Definition upper_32_bits (x : Z) : Z := Z.shiftr x 32.

Definition hgsl_memnode_footprint (mem_node : hgsl_mem_node) : Z :=
  if negb (has_flag (mn_priv mem_node) HGSL_MEMNODE_GUARD_PAGE)
  then u32 (mn_size64 mem_node)
  else ALIGN64 (u64 (u32 (mn_size64 mem_node) + PAGE_SIZE)) PAGE_SIZE.

Definition hgsl_memnode_get_align (mem_node : hgsl_mem_node) : Z :=
  Z.shiftr (Z.land (mn_flags mem_node) HGSL_MEMALIGN_MASK) HGSL_MEMALIGN_SHIFT.

Definition hgsl_memnode_set_align (memnode : hgsl_mem_node) (align : Z) : hgsl_mem_node :=
  let align := if 32 <? align then 32 else align in
  memnode <| mn_flags ::= λ f,
    Z.lor (Z.land f (u32 (Z.lnot HGSL_MEMALIGN_MASK)))
          (Z.land (Z.shiftl align HGSL_MEMALIGN_SHIFT) HGSL_MEMALIGN_MASK) |>.

(** ** Searching *)

Definition _get_unmapped_area_hint (pagetable : hgsl_pagetable)
    (bottom top size align : Z) : Z * hgsl_pagetable :=
  if (pt_va_hint pagetable =? 0) || (upper_32_bits top =? 0)
  then (u64 (- EINVAL), pagetable)
  else
    let hint := ALIGN64 (pt_va_hint pagetable) align in
    if top <? u64 (hint + size) then (u64 (- ENOMEM), pagetable)
    else (hint, pagetable <| pt_va_hint := u64 (hint + size) |>).

(** The loop over the entries in order and the check after it. *)
Fixpoint unmapped_area_loop (bottom top size align start : Z)
    (nodes : list hgsl_iommu_addr_entry) : Z :=
  match nodes with
  | [] => if u64 (start + size) <=? top then start else u64 (- ENOMEM)
  | entry :: nodes =>
      let entry_end := u64 (ae_base entry + ae_size entry) in
      if ae_base entry <? bottom then
        unmapped_area_loop bottom top size align
          (if bottom <? entry_end then ALIGN64 entry_end align else start) nodes
      else if top <=? ae_base entry then
        (if u64 (start + size) <=? top then start else u64 (- ENOMEM))
      else if (start <? ae_base entry) && (size <=? ae_base entry - start) then start
      else if top <=? entry_end then u64 (- ENOMEM)
      else unmapped_area_loop bottom top size align (ALIGN64 entry_end align) nodes
  end.

Definition _get_unmapped_area (pagetable : hgsl_pagetable)
    (bottom top size align : Z) : Z * hgsl_pagetable :=
  let '(start, pagetable) := _get_unmapped_area_hint pagetable bottom top size align in
  if negb (IS_ERR_VALUE start) then (start, pagetable)
  else
    let bottom := ALIGN64 bottom align in
    (unmapped_area_loop bottom top size align bottom (inorder (pt_rbtree pagetable)),
     pagetable).

(** ** Insertion and removal *)

(** [allocated]: kmem_cache_alloc returned an entry. *)
Definition _insert_gpuaddr `{Rbtree} (allocated : bool) (pagetable : hgsl_pagetable)
    (gpuaddr size : Z) : Z * hgsl_pagetable :=
  if negb allocated then (- ENOMEM, pagetable)
  else
    match rb_link ae_base (mk_entry gpuaddr size) (pt_rbtree pagetable) with
    | None => (- EEXIST, pagetable)
    | Some t => (0, pagetable <| pt_rbtree := rb_insert_color t |>)
    end.

Definition get_gpuaddr `{Rbtree} (allocated : bool) (pagetable : hgsl_pagetable)
    (mem_node : hgsl_mem_node) (start end_ size align : Z)
    : Z * hgsl_pagetable * hgsl_mem_node :=
  let '(addr, pagetable) := _get_unmapped_area pagetable start end_ size align in
  if addr =? u64 (- ENOMEM) then (- ENOMEM, pagetable, mem_node)
  else
    let '(ret, pagetable) := _insert_gpuaddr allocated pagetable addr size in
    (ret, pagetable,
     if ret =? 0 then mem_node <| mn_gpuaddr := addr |> <| mn_pagetable := true |>
     else mem_node).

(** The alignment of a request: at least that of the flags and a page, more for the
    large sizes. *)
Definition set_align_for (size : Z) (mem_node : hgsl_mem_node) : hgsl_mem_node :=
  if SZ_2M <=? size then hgsl_memnode_set_align mem_node (Z.log2 SZ_2M)
  else if SZ_1M <=? size then hgsl_memnode_set_align mem_node (Z.log2 SZ_1M)
  else if SZ_64K <=? size then hgsl_memnode_set_align mem_node (Z.log2 SZ_64)
  else mem_node.

(** [alloc1] and [alloc2] are the answers of kmem_cache_alloc to the attempt and the
    retry.  None: the shift count of the flags exceeds the width of int. *)
Definition hgsl_iommu_get_gpuaddr `{Rbtree} (alloc1 alloc2 : bool)
    (pagetable : hgsl_pagetable) (mem_node : hgsl_mem_node)
    : option (Z * hgsl_pagetable * hgsl_mem_node) :=
  if has_flag (mn_flags mem_node) GSL_MEMFLAGS_PROTECTED
  then Some (- EINVAL, pagetable, mem_node)
  else
    let size := hgsl_memnode_footprint mem_node in
    if (size =? 0) || (UINT_MAX <? size) then Some (- EINVAL, pagetable, mem_node)
    else
      let mem_node := set_align_for size mem_node in
      bit ← int_bit (hgsl_memnode_get_align mem_node);
      let align := Z.max (u64 bit) PAGE_SIZE in
      let start := pt_va_start pagetable in
      let end_ := pt_va_end pagetable in
      let '(ret, pagetable, mem_node) :=
        get_gpuaddr alloc1 pagetable mem_node start end_ size align in
      Some (if ret =? - ENOMEM
            then get_gpuaddr alloc2 pagetable mem_node start end_ size align
            else (ret, pagetable, mem_node)).

(** The entry at an address, with its position in the order. *)
Fixpoint _find_gpuaddr (node : tree hgsl_iommu_addr_entry) (gpuaddr : Z)
    : option (nat * hgsl_iommu_addr_entry) :=
  match node with
  | Leaf => None
  | Node rb_left entry rb_right =>
      if gpuaddr <? ae_base entry then _find_gpuaddr rb_left gpuaddr
      else if ae_base entry <? gpuaddr
      then prod_map (λ i, (length (inorder rb_left) + S i)%nat) id <$>
             _find_gpuaddr rb_right gpuaddr
      else Some (length (inorder rb_left), entry)
  end.

(** rb_prev of the entry at position [i]. *)
Definition rb_prev {A} (i : nat) (t : tree A) : option A :=
  match i with O => None | S i => inorder t !! i end.

Definition _remove_gpuaddr `{Rbtree} (pagetable : hgsl_pagetable) (gpuaddr : Z)
    : Z * hgsl_pagetable :=
  match _find_gpuaddr (pt_rbtree pagetable) gpuaddr with
  | None => (- ENOMEM, pagetable)
  | Some (i, entry) =>
      let pagetable :=
        if pt_va_hint pagetable =? u64 (ae_base entry + ae_size entry) then
          pagetable <| pt_va_hint :=
            match rb_prev i (pt_rbtree pagetable) with
            | Some prev => Z.max (u64 (ae_base prev + ae_size prev)) (pt_va_start pagetable)
            | None => pt_va_start pagetable
            end |>
        else pagetable in
      (0, pagetable <| pt_rbtree ::= rb_erase i |>)
  end.

Definition hgsl_iommu_put_gpuaddr `{Rbtree} (pagetable : hgsl_pagetable)
    (mem_node : hgsl_mem_node) : hgsl_pagetable :=
  if negb (mn_pagetable mem_node) then pagetable
  else (_remove_gpuaddr pagetable (mn_gpuaddr mem_node)).2.

Definition hgsl_iommu_addr_in_range (pagetable : option hgsl_pagetable)
    (gpuaddr size : Z) : bool :=
  match pagetable with
  | None => false
  | Some pt =>
      if gpuaddr =? 0 then false
      else (pt_va_start pt <=? gpuaddr) && (u64 (gpuaddr + size) <? pt_va_end pt)
  end.

(** ** The wrappers of hgsl_mmu.h and hgsl_mmu.c

    The operations of a page table are those of iopgtbl_pt_ops; [None] stands for a
    null page table. *)

Definition hgsl_mmu_get_gpuaddr `{Rbtree} (alloc1 alloc2 : bool)
    (pagetable : option hgsl_pagetable) (memnode : option hgsl_mem_node)
    (use_single_pt : bool)
    : option (Z * option hgsl_pagetable * option hgsl_mem_node) :=
  if use_single_pt then Some (0, pagetable, memnode)
  else
    match pagetable, memnode with
    | Some pt, Some node =>
        '(ret, pt, node) ← hgsl_iommu_get_gpuaddr alloc1 alloc2 pt node;
        Some (ret, Some pt, Some node)
    | _, _ => Some (- EINVAL, pagetable, memnode)
    end.

Definition hgsl_mmu_put_gpuaddr `{Rbtree} (pagetable : option hgsl_pagetable)
    (memnode : option hgsl_mem_node) (use_single_pt : bool)
    : Z * option hgsl_pagetable :=
  if use_single_pt then (0, pagetable)
  else
    match pagetable, memnode with
    | Some pt, Some node => (0, Some (hgsl_iommu_put_gpuaddr pt node))
    | _, _ => (- EINVAL, pagetable)
    end.

Definition hgsl_mmu_gpuaddr_in_range (pagetable : option hgsl_pagetable)
    (gpuaddr size : Z) : bool :=
  match pagetable with
  | Some _ => hgsl_iommu_addr_in_range pagetable gpuaddr size
  | None => false
  end.

(** * Specification *)

Definition ae_end (e : hgsl_iommu_addr_entry) : Z := ae_base e + ae_size e.

(** [x]'s range ends before [y]'s begins. *)
Definition range_before (x y : hgsl_iommu_addr_entry) : Prop := ae_end x ≤ ae_base y.

Definition entry_in (lo hi : Z) (e : hgsl_iommu_addr_entry) : Prop :=
  0 < ae_size e ∧ lo ≤ ae_base e ∧ ae_end e ≤ hi.

(** The range of [size] bytes at [a] meets no entry of [l]. *)
Definition unused (l : list hgsl_iommu_addr_entry) (size a : Z) : Prop :=
  Forall (λ e, ae_end e ≤ a ∨ a + size ≤ ae_base e) l.

Definition fits (l : list hgsl_iommu_addr_entry) (bottom top size align a : Z) : Prop :=
  (align | a) ∧ bottom ≤ a ∧ a + size ≤ top ∧ unused l size a.

(** The reference search: every aligned address in turn. *)
Fixpoint scan (l : list hgsl_iommu_addr_entry) (top size align : Z) (fuel : nat)
    (a : Z) : option Z :=
  match fuel with
  | O => None
  | S fuel =>
      if top <? a + size then None
      else if forallb (λ e, (ae_end e <=? a) || (a + size <=? ae_base e)) l then Some a
      else scan l top size align fuel (a + align)
  end.

Definition first_fit (l : list hgsl_iommu_addr_entry) (bottom top size align : Z)
    : option Z :=
  let a := ALIGN bottom align in
  scan l top size align (Z.to_nat ((top - a) / align + 2)) a.

(** The end of the last entry. *)
Definition last_end (lo : Z) (l : list hgsl_iommu_addr_entry) : Z :=
  match last l with Some e => ae_end e | None => lo end.

Definition entries (pt : hgsl_pagetable) := inorder (pt_rbtree pt).

(** The entries are disjoint and inside the range of the page table; the hint is the
    end of the last one, where it is used: in a range that exceeds 32 bits. *)
Record pt_ok (pt : hgsl_pagetable) : Prop := {
  pt_range_ok : 0 < pt_va_start pt ≤ pt_va_end pt ∧ pt_va_end pt ≤ 2 ^ 62;
  pt_sorted : StronglySorted range_before (entries pt);
  pt_inside : Forall (entry_in (pt_va_start pt) (pt_va_end pt)) (entries pt);
  pt_hint_ok : 2 ^ 32 ≤ pt_va_end pt →
    pt_va_hint pt = last_end (pt_va_start pt) (entries pt) }.

(** A page table as hgsl_iopgtbl_pagetable makes it. *)
Definition hgsl_iopgtbl_pagetable (va_start va_end : Z) : hgsl_pagetable :=
  {| pt_rbtree := Leaf; pt_va_start := va_start; pt_va_end := va_end;
     pt_va_hint := va_start |}.

(** The alignment of the flags of a node is one that an int can hold. *)
Definition align_ok (node : hgsl_mem_node) : Prop :=
  is_u32 (mn_flags node) ∧ hgsl_memnode_get_align node ≤ 30.

(** The alignment that a request ends up with. *)
Definition align_of (node : hgsl_mem_node) : Z :=
  Z.max (2 ^ hgsl_memnode_get_align (set_align_for (hgsl_memnode_footprint node) node))
        PAGE_SIZE.

(** A request that no address is looked for. *)
Definition bad_request (node : hgsl_mem_node) : Prop :=
  has_flag (mn_flags node) GSL_MEMFLAGS_PROTECTED = true ∨
  hgsl_memnode_footprint node = 0 ∨ UINT_MAX < hgsl_memnode_footprint node.


(** * Lemmas *)

Lemma ALIGN64_ALIGN x k :
  0 ≤ x → 0 ≤ k → x + 2 ^ k ≤ 2 ^ 64 → ALIGN64 x (2 ^ k) = ALIGN x (2 ^ k).
Proof.
  intros Hx Hk Hu. unfold ALIGN64, ALIGN. pose proof (Z.pow_pos_nonneg 2 k ltac:(lia) Hk).
  rewrite u64_small by (unfold is_u64; lia).
  unfold u64. change 18446744073709551616 with (2 ^ 64).
  rewrite <-Z.land_ones by lia.
  rewrite (Z.land_comm (Z.lnot _)), Z.land_assoc, Z.land_ones by lia.
  rewrite Z.mod_small by lia.
  replace (2 ^ k - 1) with (Z.ones k) by (rewrite Z.ones_equiv; lia).
  rewrite <-Z.ldiff_land, Z.ldiff_ones_r by lia.
  by rewrite Z.shiftl_mul_pow2, Z.shiftr_div_pow2 by lia.
Qed.

Lemma ALIGN_least x a y : 0 < a → (a | y) → x ≤ y → ALIGN x a ≤ y.
Proof.
  intros Ha [k ->] Hx. destruct (ALIGN_spec x a Ha) as [[_ H] [m E]]. rewrite E in *.
  apply Z.mul_le_mono_nonneg_r; [lia|]. enough (m < k + 1) by lia.
  apply (Z.mul_lt_mono_pos_r a); lia.
Qed.

Lemma ALIGN_mono x y a : 0 < a → x ≤ y → ALIGN x a ≤ ALIGN y a.
Proof.
  intros Ha Hx. destruct (ALIGN_spec y a Ha) as [? ?]. apply ALIGN_least; [done..|lia].
Qed.

Lemma SS_before_app l1 e l2 :
  StronglySorted range_before (l1 ++ e :: l2) →
  Forall (λ x, ae_end x ≤ ae_base e) l1 ∧ Forall (λ x, ae_end e ≤ ae_base x) l2.
Proof. by intros (_ & _ & ? & ? & _)%StronglySorted_mid. Qed.

(** ** The search *)

Section search.
Context (l : list hgsl_iommu_addr_entry) (lo bottom top size align k : Z).
Hypothesis align_pow : align = 2 ^ k.
Hypothesis k_bound : 0 ≤ k ≤ 32.
Hypothesis size_bound : 0 < size < 2 ^ 33.
Hypothesis top_bound : 0 ≤ lo ∧ top ≤ 2 ^ 62.

Lemma align_bound : 0 < align ≤ 2 ^ 32.
Proof.
  rewrite align_pow. split; [apply Z.pow_pos_nonneg; lia|]. apply Z.pow_le_mono_r; lia.
Qed.

Lemma align_end e :
  entry_in lo top e → ALIGN64 (u64 (ae_base e + ae_size e)) align = ALIGN (ae_end e) align.
Proof.
  intros (? & ? & ?). unfold ae_end in *. pose proof align_bound.
  rewrite u64_small by (unfold is_u64; lia).
  rewrite align_pow, ALIGN64_ALIGN; lia.
Qed.

(** The least aligned address from [start] on where the range is unused. *)
Definition least_fit (nodes : list hgsl_iommu_addr_entry) (start r : Z) : Prop :=
  r = u64 (- ENOMEM) ∧ (∀ a, ¬ fits nodes start top size align a) ∨
  fits nodes start top size align r ∧ ∀ a, fits nodes start top size align a → r ≤ a.

Lemma least_fit_unique nodes start r r' :
  least_fit nodes start r → least_fit nodes start r' → r = r'.
Proof.
  intros [[-> H]|[H1 H2]] [[-> H']|[H1' H2']]; [done| | |].
  - by apply H in H1'.
  - by apply H' in H1.
  - specialize (H2 _ H1'). specialize (H2' _ H1). lia.
Qed.

Lemma fits_cons e nodes start a :
  fits (e :: nodes) start top size align a ↔
  (ae_end e ≤ a ∨ a + size ≤ ae_base e) ∧ fits nodes start top size align a.
Proof. unfold fits, unused. rewrite Forall_cons. naive_solver. Qed.

Lemma fits_from nodes start start' a :
  start' ≤ a → fits nodes start top size align a → fits nodes start' top size align a.
Proof. unfold fits. naive_solver. Qed.

(** Nothing fits before the end of the first node: the search moves on. *)
Lemma least_fit_skip e nodes start start' r :
  start ≤ start' → ae_end e ≤ start' →
  (∀ a, fits (e :: nodes) start top size align a → start' ≤ a) →
  least_fit nodes start' r → least_fit (e :: nodes) start r.
Proof.
  intros Hs He Hf [[-> H]|[H1 H2]]; [left|right]; split; try done.
  - intros a Ha. apply (H a). pose proof (Hf a Ha).
    apply fits_cons in Ha as [_ Ha]. eapply fits_from; [|done]. lia.
  - apply fits_cons. split; [left; unfold fits in H1; lia|].
    eapply fits_from, H1. unfold fits in H1; lia.
  - intros a Ha. apply H2. pose proof (Hf a Ha).
    apply fits_cons in Ha as [_ Ha]. eapply fits_from; [|done]. lia.
Qed.

Lemma least_fit_here nodes start :
  (align | start) → start + size ≤ top → unused nodes size start →
  least_fit nodes start start.
Proof. intros. right. unfold fits. split; [split_and!; done || lia|]. naive_solver. Qed.

(** The check past the last entry that matters. *)
Lemma least_fit_tail nodes start :
  0 ≤ start ≤ top + align → (align | start) →
  (∀ e, e ∈ nodes → top ≤ ae_base e) →
  least_fit nodes start (if u64 (start + size) <=? top then start else u64 (- ENOMEM)).
Proof.
  intros Hb Hd Hn. pose proof align_bound. rewrite u64_small by (unfold is_u64; lia).
  destruct (Z.leb_spec (start + size) top).
  - apply least_fit_here; [done..|]. apply Forall_forall. intros e He. specialize (Hn e He). lia.
  - left. split; [done|]. intros a (_ & ? & ? & _). lia.
Qed.

Lemma unmapped_area_loop_least nodes start :
  StronglySorted range_before nodes → Forall (entry_in lo top) nodes →
  0 ≤ bottom ≤ start → start ≤ top + align → (align | start) →
  (∀ e, e ∈ nodes → bottom < ae_end e → start ≤ ALIGN (ae_end e) align) →
  least_fit nodes start (unmapped_area_loop bottom top size align start nodes).
Proof.
  pose proof align_bound as Hal.
  revert start. induction nodes as [|e nodes IH]; intros start Hs Hin Hb Ht Hd Hm.
  { apply least_fit_tail; [lia|done|set_solver]. }
  inversion Hs as [|? ? Hs' Hlt]; subst. rewrite Forall_forall in Hlt.
  apply Forall_cons in Hin as [He Hin].
  destruct He as (Hsz & Hlo & Hhi). pose proof (ALIGN_spec (ae_end e) align ltac:(lia)) as [Ha1 Ha2].
  assert (∀ e', e' ∈ nodes → bottom < ae_end e' →
                ALIGN (ae_end e) align ≤ ALIGN (ae_end e') align) as Hm'.
  { intros e' He' _. apply ALIGN_mono; [lia|]. specialize (Hlt e' He').
    rewrite Forall_forall in Hin. specialize (Hin e' He').
    unfold range_before, entry_in, ae_end in *. lia. }
  cbn [unmapped_area_loop]. rewrite align_end by done.
  rewrite (u64_small (ae_base e + ae_size e)) by (unfold is_u64, ae_end in *; lia).
  fold (ae_end e).
  destruct (Z.ltb_spec (ae_base e) bottom).
  { destruct (Z.ltb_spec bottom (ae_end e)).
    - apply (least_fit_skip _ _ _ (ALIGN (ae_end e) align)); [by apply Hm; [left|]|lia| |].
      + intros a (Hda & ? & ? & Hu)%fits_cons. apply ALIGN_least; [lia|done|].
        unfold fits in Hu. lia.
      + apply IH; try done; lia.
    - apply (least_fit_skip _ _ _ start); [lia|lia| |].
      + by intros a (_ & ? & _).
      + apply IH; try done. intros e' ? ?. apply Hm; [by right|done]. }
  destruct (Z.leb_spec top (ae_base e)).
  { apply least_fit_tail; [lia|done|]. intros e' [->|He']%elem_of_cons; [done|].
    specialize (Hlt e' He'). unfold range_before, ae_end in *. lia. }
  destruct (Z.ltb_spec start (ae_base e)) as [Hgap|Hgap];
    [destruct (Z.leb_spec size (ae_base e - start)) as [Hg|Hg]|]; cbn [andb].
  { apply least_fit_here; [done|lia|]. constructor; [lia|]. apply Forall_forall.
    intros e' He'. specialize (Hlt e' He'). unfold range_before, ae_end in *. lia. }
  all: assert (∀ a, fits (e :: nodes) start top size align a → ae_end e ≤ a) as Hf
    by (intros a [? (_ & ? & ? & _)]%fits_cons; lia).
  all: assert (ae_base e < ae_end e) by (unfold ae_end; lia).
  all: destruct (Z.leb_spec top (ae_end e)) as [Htop|Htop];
    [left; split; [done|]; intros a Ha; specialize (Hf a Ha); unfold fits in Ha; lia|].
  all: apply (least_fit_skip _ _ _ (ALIGN (ae_end e) align));
    [apply Hm; [by left|lia]|lia| |apply IH; try done; lia].
  all: intros a Ha; specialize (Hf a Ha); apply ALIGN_least; [lia|by apply Ha|done].
Qed.

Lemma least_fit_aligned nodes start r :
  least_fit nodes (ALIGN start align) r → least_fit nodes start r.
Proof.
  pose proof align_bound as Hal. pose proof (ALIGN_spec start align ltac:(lia)) as [Hb _].
  assert (∀ a, fits nodes start top size align a → fits nodes (ALIGN start align) top size align a)
    as Hf.
  { intros a Ha. eapply fits_from; [|done]. apply ALIGN_least; [lia|by apply Ha|].
    unfold fits in Ha. lia. }
  intros [[-> H]|[H1 H2]]; [left|right]; split; try done.
  - intros a Ha. by apply (H a), Hf.
  - eapply fits_from, H1. unfold fits in H1. lia.
  - intros a Ha. by apply H2, Hf.
Qed.

Lemma forallb_unused nodes a :
  forallb (λ e, (ae_end e <=? a) || (a + size <=? ae_base e)) nodes = true ↔
  unused nodes size a.
Proof.
  unfold unused. induction nodes as [|e nodes IH]; cbn; [done|].
  by rewrite Forall_cons, andb_true_iff, orb_true_iff, !Z.leb_le, IH.
Qed.

Lemma scan_least nodes fuel a :
  (align | a) → top - a < Z.of_nat fuel * align →
  least_fit nodes a (default (u64 (- ENOMEM)) (scan nodes top size align fuel a)).
Proof.
  pose proof align_bound as Hal.
  revert a. induction fuel as [|fuel IH]; intros a Hd Hf.
  { left. split; [done|]. intros a' (_ & ? & ? & _). lia. }
  cbn [scan]. destruct (Z.ltb_spec top (a + size)).
  { left. split; [done|]. intros a' (_ & ? & ? & _). lia. }
  destruct (forallb _ nodes) eqn:E.
  { apply forallb_unused in E. by apply least_fit_here. }
  assert (∀ a', fits nodes a top size align a' → a + align ≤ a') as Hn.
  { intros a' (Hd' & Ha' & _ & Hu). destruct (decide (a' = a)) as [->|].
    - apply forallb_unused in Hu. congruence.
    - pose proof (Z.divide_pos_le align (a' - a) ltac:(lia) (Z.divide_sub_r _ _ _ Hd' Hd)). lia. }
  destruct (IH (a + align)) as [[-> H1]|[H1 H2]].
  - by apply Z.divide_add_r.
  - lia.
  - left. split; [done|]. intros a' Ha'. apply (H1 a'). eapply fits_from; [|done]. eauto.
  - right. split; [eapply fits_from, H1; unfold fits in H1; lia|].
    intros a' Ha'. apply H2. eapply fits_from; [|done]. eauto.
Qed.

Lemma first_fit_least nodes :
  least_fit nodes bottom (default (u64 (- ENOMEM)) (first_fit nodes bottom top size align)).
Proof.
  pose proof align_bound as Hal. apply least_fit_aligned, scan_least.
  - by apply ALIGN_spec; lia.
  - set (a := ALIGN bottom align).
    pose proof (Z.div_mod (top - a) align ltac:(lia)).
    pose proof (Z.mod_pos_bound (top - a) align ltac:(lia)).
    destruct (Z.le_gt_cases 0 ((top - a) / align + 2)); nia.
Qed.
End search.

Section search_from.
Context (bottom top size align k : Z) (nodes : list hgsl_iommu_addr_entry).

(** The search of the code from the aligned bottom. *)
Lemma unmapped_area_least :
  align = 2 ^ k → 0 ≤ k ≤ 32 → 0 < size < 2 ^ 33 → 0 ≤ bottom ≤ top → top ≤ 2 ^ 62 →
  StronglySorted range_before nodes → Forall (entry_in bottom top) nodes →
  least_fit top size align nodes bottom
    (unmapped_area_loop (ALIGN64 bottom align) top size align (ALIGN64 bottom align) nodes).
Proof.
  intros Ek Hk Hsz Hb Ht Hs Hin. pose proof (align_bound align k Ek Hk) as Hal.
  assert (ALIGN64 bottom align = ALIGN bottom align) as ->.
  { rewrite Ek. apply ALIGN64_ALIGN; [lia..|]. rewrite <-Ek. lia. }
  pose proof (ALIGN_spec bottom align ltac:(lia)) as [Hb1 Hb2].
  apply (least_fit_aligned) with (lo := bottom) (k := k); try done; [lia|].
  apply (unmapped_area_loop_least) with (lo := bottom) (k := k); try done; try lia.
  intros e _ He. pose proof (ALIGN_spec (ae_end e) align ltac:(lia)). lia.
Qed.
End search_from.

(** ** The last entry *)

Lemma last_end_le lo l x :
  lo ≤ x → Forall (λ e, ae_end e ≤ x) l → last_end lo l ≤ x.
Proof.
  intros Hlo Hl. unfold last_end. destruct (last l) as [e|] eqn:E; [|done].
  apply last_Some in E as [l' ->]. apply Forall_app in Hl as [_ Hl].
  by apply Forall_cons in Hl as [? _].
Qed.

Lemma last_end_ge lo hi l e :
  StronglySorted range_before l → Forall (entry_in lo hi) l → e ∈ l →
  ae_end e ≤ last_end lo l.
Proof.
  intros Hs Hin He. unfold last_end. destruct (last l) as [e'|] eqn:E.
  - apply last_Some in E as [l' ->]. apply SS_before_app in Hs as [Hs _].
    apply elem_of_app in He as [He| ->%list_elem_of_singleton]; [|done].
    rewrite Forall_forall in Hs. specialize (Hs e He).
    apply Forall_app in Hin as [_ [(? & ? & ?) _]%Forall_cons].
    unfold ae_end in *. lia.
  - apply last_None in E. subst. set_solver.
Qed.

Lemma last_end_bounds lo hi l :
  lo ≤ hi → Forall (entry_in lo hi) l → lo ≤ last_end lo l ≤ hi.
Proof.
  intros Hlo Hin. unfold last_end. destruct (last l) as [e'|] eqn:E; [|lia].
  apply last_Some in E as [l' ->].
  apply Forall_app in Hin as [_ [(? & ? & ?) _]%Forall_cons]. unfold ae_end in *. lia.
Qed.

Lemma last_end_cons_snoc lo l1 e l2 :
  last_end lo (l1 ++ e :: l2) = if l2 is [] then ae_end e else last_end lo l2.
Proof.
  unfold last_end. rewrite last_app_cons. destruct l2; [done|].
  by rewrite last_cons_cons.
Qed.

Lemma range_before_bst l lo hi :
  Forall (entry_in lo hi) l → StronglySorted range_before l →
  StronglySorted (key_lt ae_base) l.
Proof.
  intros Hin. induction 1 as [|e l Hs IH He]; constructor.
  - apply IH. by apply Forall_cons in Hin as [_ ?].
  - apply Forall_cons in Hin as [(? & ? & ?) _].
    eapply Forall_impl; [exact He|]. unfold range_before, key_lt, ae_end. intros. lia.
Qed.

(** A new entry in an unused range keeps the entries disjoint and in order. *)
Lemma sorted_insert lo hi l1 l2 base size :
  Forall (entry_in lo hi) (l1 ++ l2) → StronglySorted range_before (l1 ++ l2) →
  StronglySorted (key_lt ae_base) (l1 ++ mk_entry base size :: l2) →
  0 < size → unused (l1 ++ l2) size base →
  StronglySorted range_before (l1 ++ mk_entry base size :: l2).
Proof.
  intros Hin Hs (Hs1 & Hs2 & Hl1 & Hl2 & Hl12)%StronglySorted_mid Hsz Hu.
  apply StronglySorted_app in Hs as (H12 & Hr1 & Hr2).
  unfold unused in Hu. apply Forall_app in Hu as [Hu1 Hu2], Hin as [Hin1 Hin2].
  rewrite !Forall_forall in *. unfold key_lt, range_before, entry_in, ae_end in *. cbn in *.
  apply StronglySorted_mid. rewrite !Forall_forall. split_and!; try done.
  - intros y Hy. specialize (Hl1 y Hy). specialize (Hu1 y Hy). specialize (Hin1 y Hy).
    unfold range_before, ae_end. cbn. lia.
  - intros y Hy. specialize (Hl2 y Hy). specialize (Hu2 y Hy). specialize (Hin2 y Hy).
    unfold range_before, ae_end. cbn. lia.
Qed.

(** ** Allocation *)

Section allocation.
Context `{Rbtree} (pt : hgsl_pagetable) (size align k : Z).
Hypothesis Hok : pt_ok pt.
Hypothesis align_eq : align = 2 ^ k.
Hypothesis Hk : 0 ≤ k ≤ 32.
Hypothesis Hsize : 0 < size < 2 ^ 33.

Let lo := pt_va_start pt.
Let hi := pt_va_end pt.

Definition fits_pt (pt : hgsl_pagetable) (size align a : Z) : Prop :=
  fits (entries pt) (pt_va_start pt) (pt_va_end pt) size align a.

(** An address below the error numbers. *)
Lemma fits_not_error a : fits_pt pt size align a → IS_ERR_VALUE a = false ∧ a ≠ u64 (- ENOMEM).
Proof.
  destruct Hok as [[? ?] _ _ _]. intros (_ & ? & ? & _).
  unfold IS_ERR_VALUE, u64, ENOMEM. change (-4095 mod 18446744073709551616) with 18446744073709547521.
  change (- (12) mod 18446744073709551616) with 18446744073709551604.
  split; [apply Z.leb_gt|]; lia.
Qed.

Lemma align_hint h :
  lo ≤ h ≤ hi → ALIGN64 h align = ALIGN h align ∧ h ≤ ALIGN h align < h + 2 ^ 32 ∧
  (align | ALIGN h align).
Proof.
  intros Hh. destruct Hok as [[? ?] _ _ _]. pose proof (align_bound align k align_eq Hk) as Hal.
  subst lo hi. pose proof (ALIGN_spec h align ltac:(lia)) as [? ?]. split_and!; [|lia..|done].
  rewrite align_eq. apply ALIGN64_ALIGN; [lia..|]. rewrite <-align_eq. lia.
Qed.

(** The hint moves past the last entry, or is of no use. *)
Lemma unmapped_area_hint_spec :
  let '(addr, pt') := _get_unmapped_area_hint pt lo hi size align in
  if IS_ERR_VALUE addr
  then pt' = pt ∧
       (2 ^ 32 ≤ hi → ∀ a, (align | a) → last_end lo (entries pt) ≤ a → hi < a + size)
  else pt' = pt <| pt_va_hint := addr + size |> ∧ fits_pt pt size align addr ∧
       2 ^ 32 ≤ hi ∧ last_end lo (entries pt) ≤ addr.
Proof.
  destruct Hok as [[? ?] Hs Hin Hh]. unfold _get_unmapped_area_hint.
  destruct (orb _ _) eqn:Ec.
  { change (IS_ERR_VALUE (u64 (- EINVAL))) with true. split; [done|]. intros Ht.
    pose proof (last_end_bounds lo hi (entries pt) ltac:(subst lo hi; lia) Hin).
    apply orb_true_iff in Ec as [Ec|Ec]; [rewrite Hh in Ec by done; subst lo; lia|].
    unfold upper_32_bits in Ec. rewrite Z.shiftr_div_pow2 in Ec by lia.
    pose proof (Z.div_le_lower_bound hi (2 ^ 32) 1 ltac:(lia) ltac:(lia)). lia. }
  apply orb_false_iff in Ec as [_ Ec].
  assert (2 ^ 32 ≤ hi) as Ht.
  { unfold upper_32_bits in Ec. rewrite Z.shiftr_div_pow2 in Ec by lia.
    destruct (Z.lt_ge_cases hi (2 ^ 32)); [|done]. rewrite Z.div_small in Ec; subst lo hi; lia. }
  rewrite (Hh Ht). fold lo. set (h := last_end lo (entries pt)).
  assert (lo ≤ h ≤ hi) as Hb by (apply last_end_bounds; [subst lo hi; lia|done]).
  destruct (align_hint h Hb) as (-> & Ha & Hd).
  rewrite u64_small by (unfold is_u64; subst lo hi; lia).
  destruct (Z.ltb_spec hi (ALIGN h align + size)).
  { change (IS_ERR_VALUE (u64 (- ENOMEM))) with true. split; [done|]. intros _ a Hda Hla.
    pose proof (align_bound align k align_eq Hk).
    pose proof (ALIGN_least h align a ltac:(lia) Hda Hla). lia. }
  assert (fits_pt pt size align (ALIGN h align)) as Hf.
  { split_and!; [done|subst lo; lia|subst hi; lia|]. apply Forall_forall. intros e He.
    pose proof (last_end_ge lo hi _ _ Hs Hin He). subst h. lia. }
  destruct (fits_not_error _ Hf) as [-> _]. split_and!; done || lia.
Qed.

Lemma get_unmapped_area_spec :
  let '(addr, pt') := _get_unmapped_area pt lo hi size align in
  entries pt' = entries pt ∧ pt_va_start pt' = lo ∧ pt_va_end pt' = hi ∧
  (addr = u64 (- ENOMEM) ∧ pt' = pt ∧ (∀ a, ¬ fits_pt pt size align a) ∨
   fits_pt pt size align addr ∧
   (pt' = pt <| pt_va_hint := addr + size |> ∧ last_end lo (entries pt) ≤ addr ∨
    pt' = pt ∧ (2 ^ 32 ≤ hi → ∃ e, e ∈ entries pt ∧ addr + size ≤ ae_base e))).
Proof.
  pose proof unmapped_area_hint_spec as Hint. unfold _get_unmapped_area.
  destruct (_get_unmapped_area_hint _ _ _ _ _) as [addr pt'] eqn:Eh.
  destruct (IS_ERR_VALUE addr) eqn:Ee; cbn [negb].
  - destruct Hint as [-> Hint]. destruct Hok as [[? ?] Hs Hin Hh].
    split_and!; [done..|].
    pose proof (unmapped_area_least lo hi size align k (entries pt) align_eq Hk Hsize
      ltac:(subst lo hi; lia) ltac:(done) Hs Hin) as Hl.
    change (inorder (pt_rbtree pt)) with (entries pt). revert Hl.
    generalize (unmapped_area_loop (ALIGN64 lo align) hi size align
      (ALIGN64 lo align) (entries pt)). intros r [[-> Hn]|[Hf _]]; [by left|right].
    split; [done|]. right. split; [done|]. intros Ht.
    destruct (decide (Exists (λ e, r + size ≤ ae_base e) (entries pt))) as [Hx|Hx];
      [by apply Exists_exists in Hx as (e & ? & ?); exists e|].
    destruct Hf as (Hd & Hlo & Hhi & Hu).
    assert (last_end lo (entries pt) ≤ r) as Hle.
    { apply last_end_le; [done|]. apply Forall_forall. intros e He.
      unfold unused in Hu. rewrite Forall_forall in Hu. destruct (Hu e He); [done|].
      exfalso. apply Hx, Exists_exists. eauto. }
    specialize (Hint Ht _ Hd Hle). lia.
  - destruct Hint as (-> & Hf & Ht & Hle). split_and!; [done..|]. right. eauto.
Qed.

(** What an attempt to allocate does to the page table and the node. *)
Lemma get_gpuaddr_spec node ret pt' node' :
  get_gpuaddr true pt node lo hi size align = (ret, pt', node') →
  pt_ok pt' ∧ pt_va_start pt' = lo ∧ pt_va_end pt' = hi ∧
  (ret = - ENOMEM ∧ pt' = pt ∧ node' = node ∧ (∀ a, ¬ fits_pt pt size align a) ∨
   ret = 0 ∧ fits_pt pt size align (mn_gpuaddr node') ∧
   node' = node <| mn_gpuaddr := mn_gpuaddr node' |> <| mn_pagetable := true |> ∧
   (∃ l1 l2, entries pt = l1 ++ l2 ∧
      entries pt' = l1 ++ mk_entry (mn_gpuaddr node') size :: l2)).
Proof.
  unfold get_gpuaddr. pose proof get_unmapped_area_spec as Hspec.
  destruct (_get_unmapped_area _ _ _ _ _) as [addr pt1] eqn:Ea.
  destruct Hspec as (Een & Elo & Ehi & [(-> & -> & Hn)|[Hf Hh]]).
  { rewrite Z.eqb_refl. intros [= <- <- <-]. split_and!; [done..|]. left. done. }
  destruct (fits_not_error _ Hf) as [_ Hne]. rewrite (proj2 (Z.eqb_neq _ _) Hne).
  unfold _insert_gpuaddr. cbn [negb].
  destruct Hok as [Hr Hs Hin Hhint].
  assert (bst ae_base (pt_rbtree pt1)) as Hbst.
  { unfold bst. change (StronglySorted (key_lt ae_base) (entries pt1)). rewrite Een.
    by eapply range_before_bst. }
  destruct (rb_link _ _ _) as [t|] eqn:El.
  2:{ exfalso. apply (rb_link_None _ _ _ Hbst) in El as (e & He & Eb). cbn in Eb.
      change (e ∈ entries pt1) in He. rewrite Een in He. destruct Hf as (_ & _ & _ & Hu).
      unfold unused in Hu. rewrite Forall_forall in Hu, Hin.
      specialize (Hu e He). specialize (Hin e He). unfold entry_in, ae_end in *. lia. }
  cbn. intros [= <- <- <-].
  destruct (rb_link_Some _ _ _ _ Hbst El) as (Hbst' & l1 & l2 & E1 & E2).
  change (entries pt1 = l1 ++ l2) in E1. rewrite Een in E1.
  assert (inorder (rb_insert_color t) = l1 ++ mk_entry addr size :: l2) as E3
    by (by rewrite rb_insert_color_inorder).
  unfold bst in Hbst'. rewrite E2 in Hbst'.
  destruct Hf as (Hd & Hlo & Hhi & Hu).
  split; [|split_and!; [done..|right]; split_and!; [done..|]; eauto].
  constructor; unfold entries; cbn; rewrite ?E3, ?Elo, ?Ehi.
  - done.
  - rewrite E1 in *. eapply (sorted_insert lo hi); done || lia.
  - rewrite E1 in Hin. apply Forall_app in Hin as [? ?].
    apply Forall_app. split; [done|]. constructor; [|done]. unfold entry_in, ae_end. cbn. lia.
  - intros Ht. rewrite last_end_cons_snoc.
    destruct Hh as [[-> Hle]|[-> Hx]].
    + cbn. destruct l2 as [|e l2]; [done|]. exfalso.
      rewrite E1 in *. pose proof (last_end_ge lo hi _ e Hs Hin ltac:(set_solver)).
      apply StronglySorted_mid in Hbst' as (_ & _ & _ & [Hlt _]%Forall_cons & _).
      rewrite Forall_forall in Hin. specialize (Hin e ltac:(set_solver)).
      unfold key_lt, entry_in, ae_end in *. cbn in *. lia.
    + rewrite (Hhint Ht), E1. destruct l2 as [|e l2].
      * exfalso. destruct (Hx Ht) as (e & He & Hlt). rewrite E1, app_nil_r in He.
        apply StronglySorted_mid in Hbst' as (_ & _ & Hl & _).
        rewrite Forall_forall in Hl. specialize (Hl e He). unfold key_lt in Hl. cbn in Hl. lia.
      * by rewrite last_end_cons_snoc, (last_end_cons_snoc _ [] e l2 : last_end _ (e :: l2) = _).
Qed.
End allocation.

(** ** Release *)

Lemma find_gpuaddr_Some t a i e :
  bst ae_base t →
  _find_gpuaddr t a = Some (i, e) ↔ inorder t !! i = Some e ∧ ae_base e = a.
Proof.
  unfold bst. revert i. induction t as [|l IHl x r IHr]; intros i; simpl; [naive_solver|].
  intros (Hl & Hr & Hlx & Hrx & _)%StronglySorted_mid.
  rewrite Forall_forall in Hlx, Hrx. unfold key_lt in Hlx, Hrx.
  rewrite lookup_app.
  assert (∀ y j, inorder l !! j = Some y → ae_base y < ae_base x) as Hlx'
    by (intros y j Hy; eapply Hlx, list_elem_of_lookup_2, Hy).
  assert (∀ y j, inorder r !! j = Some y → ae_base x < ae_base y) as Hrx'
    by (intros y j Hy; eapply Hrx, list_elem_of_lookup_2, Hy).
  destruct (inorder l !! i) as [y|] eqn:Ei.
  - apply lookup_lt_Some in Ei as Hi. specialize (Hlx' _ _ Ei).
    destruct (Z.ltb_spec a (ae_base x)).
    { by rewrite (IHl i Hl), Ei. }
    destruct (Z.ltb_spec (ae_base x) a).
    + split; [|intros [[= ->] ?]; lia]. intros ([j z] & _ & Eq)%fmap_Some.
      injection Eq as -> _. cbn in Hi. lia.
    + split; [|intros [[= ->] ?]; lia]. intros [= <- <-]. lia.
  - apply lookup_ge_None in Ei as Hi.
    destruct (Z.ltb_spec a (ae_base x)).
    { rewrite (IHl i Hl), Ei. split; [naive_solver|]. intros [E ?].
      destruct (i - length (inorder l))%nat; cbn in E; [injection E as ->; lia|].
      specialize (Hrx' _ _ E). lia. }
    destruct (Z.ltb_spec (ae_base x) a).
    + split.
      * intros ([j z] & E & Eq)%fmap_Some. cbn in Eq. injection Eq as -> ->.
        apply (IHr j Hr) in E as [E ?].
        replace (length (inorder l) + S j - length (inorder l))%nat with (S j) by lia. done.
      * intros [E ?]. destruct (i - length (inorder l))%nat as [|j] eqn:Ej; cbn in E;
          [injection E as ->; lia|].
        rewrite (proj2 (IHr j Hr) ltac:(done)). cbn. do 2 f_equal. lia.
    + split.
      * intros [= <- <-]. rewrite Nat.sub_diag. split; [done|lia].
      * intros [E ?]. destruct (i - length (inorder l))%nat as [|j] eqn:Ej; cbn in E.
        -- injection E as ->. do 2 f_equal. lia.
        -- specialize (Hrx' _ _ E). lia.
Qed.

Lemma pt_ok_bst pt : pt_ok pt → bst ae_base (pt_rbtree pt).
Proof. intros [_ ? ? _]. by eapply range_before_bst. Qed.


(** Removing an entry leaves the others, and the hint at the end of the last. *)
Lemma remove_gpuaddr_spec `{Rbtree} pt l1 e l2 :
  pt_ok pt → entries pt = l1 ++ e :: l2 →
  ∃ pt', _remove_gpuaddr pt (ae_base e) = (0, pt') ∧ pt_ok pt' ∧ entries pt' = l1 ++ l2 ∧
         pt_va_start pt' = pt_va_start pt ∧ pt_va_end pt' = pt_va_end pt.
Proof.
  intros Hok E. unfold _remove_gpuaddr.
  rewrite (proj2 (find_gpuaddr_Some _ _ (length l1) e (pt_ok_bst pt Hok))).
  2:{ split; [|done]. change (inorder _) with (entries pt). rewrite E.
      by rewrite list_lookup_middle. }
  eexists. split; [reflexivity|].
  destruct Hok as [Hr Hs Hin Hh]. rewrite E in Hs, Hin, Hh.
  assert (entry_in (pt_va_start pt) (pt_va_end pt) e) as (He1 & He2 & He3)
    by (by apply Forall_app in Hin as [_ [? _]%Forall_cons]).
  rewrite (u64_small (ae_base e + _)) by (unfold is_u64, ae_end in *; lia).
  fold (ae_end e).
  set (pt1 := if pt_va_hint pt =? ae_end e then _ else pt).
  assert (pt_rbtree pt1 = pt_rbtree pt ∧ pt_va_start pt1 = pt_va_start pt ∧
          pt_va_end pt1 = pt_va_end pt) as (Et & Elo & Ehi)
    by (subst pt1; by case_match).
  assert (Hrest : inorder (rb_erase (length l1) (pt_rbtree pt)) = l1 ++ l2).
  { rewrite rb_erase_inorder. change (inorder _) with (entries pt). rewrite E.
    rewrite take_app_length. f_equal.
    replace (S (length l1)) with (length (l1 ++ [e])) by (rewrite length_app; cbn; lia).
    by rewrite (app_assoc l1 [e] l2 : l1 ++ e :: l2 = _), drop_app_length. }
  split_and!; [|unfold entries; cbn; by rewrite Et|done|done].
  constructor; unfold entries; cbn; rewrite ?Et, ?Elo, ?Ehi, ?Hrest.
  - done.
  - apply StronglySorted_app in Hs as (H12 & ? & [_ ?]%StronglySorted_cons).
    apply StronglySorted_app. split_and!; try done. intros x y ? ?. apply H12; [done|by right].
  - apply Forall_app in Hin as [? [_ ?]%Forall_cons]. by apply Forall_app.
  - intros Ht. specialize (Hh Ht). subst pt1. rewrite Hh, last_end_cons_snoc.
    destruct l2 as [|e2 l2].
    + rewrite Z.eqb_refl. cbn. rewrite app_nil_r. unfold last_end.
      destruct l1 as [|e1 l1 _] using rev_ind; [done|].
      rewrite length_app, Nat.add_comm, last_snoc. cbn.
      change (inorder _) with (entries pt). rewrite E, <-(assoc_L app).
      cbn [app]. rewrite list_lookup_middle by done.
      apply Forall_app in Hin as [[_ [(? & ? & ?) _]%Forall_cons]%Forall_app _].
      unfold ae_end in *. rewrite u64_small by (unfold is_u64; lia). lia.
    + rewrite last_end_cons_snoc.
      assert (ae_end e < last_end (pt_va_start pt) (e2 :: l2)) as Hlt.
      { apply SS_before_app in Hs as Hs'. destruct Hs' as [_ [Hlt _]%Forall_cons].
        apply StronglySorted_app in Hs as (_ & _ & [_ Hs]%StronglySorted_cons).
        apply Forall_app in Hin as [_ [_ Hin]%Forall_cons].
        pose proof (last_end_ge _ _ _ e2 Hs Hin ltac:(by left)).
        apply Forall_cons in Hin as [(? & ? & ?) _]. unfold ae_end in *. lia. }
      rewrite (proj2 (Z.eqb_neq _ _)) by lia. rewrite Hh, last_end_cons_snoc.
      by rewrite (last_end_cons_snoc _ [] e2 l2 : last_end _ (e2 :: l2) = _).
Qed.

(** ** Requests *)

Lemma set_align_get node a :
  0 ≤ a ≤ 32 → hgsl_memnode_get_align (hgsl_memnode_set_align node a) = a.
Proof.
  intros Ha. unfold hgsl_memnode_get_align, hgsl_memnode_set_align.
  rewrite (proj2 (Z.ltb_ge 32 a)) by lia. cbn [mn_flags upd].
  rewrite Z.land_lor_distr_l, <-!Z.land_assoc.
  change (Z.land (u32 (Z.lnot HGSL_MEMALIGN_MASK)) HGSL_MEMALIGN_MASK) with 0.
  rewrite Z.land_0_r, Z.lor_0_l, Z.land_diag. unfold HGSL_MEMALIGN_MASK, HGSL_MEMALIGN_SHIFT.
  change 0x00FF0000 with (Z.shiftl (Z.ones 8) 16).
  rewrite <-Z.shiftl_land, Z.shiftr_shiftl_l, Z.sub_diag, Z.shiftl_0_r by lia.
  rewrite Z.land_ones by lia. apply Z.mod_small. lia.
Qed.

Lemma set_align_for_ok size node :
  align_ok node → 0 ≤ hgsl_memnode_get_align (set_align_for size node) ≤ 30.
Proof.
  intros [Hf Ha]. unfold set_align_for.
  change (Z.log2 SZ_2M) with 21. change (Z.log2 SZ_1M) with 20. change (Z.log2 SZ_64) with 6.
  destruct (SZ_2M <=? size); [rewrite set_align_get; lia|].
  destruct (SZ_1M <=? size); [rewrite set_align_get; lia|].
  destruct (SZ_64K <=? size); [rewrite set_align_get; lia|].
  split; [|done]. unfold hgsl_memnode_get_align. apply Z.shiftr_nonneg, Z.land_nonneg.
  right. done.
Qed.

Lemma set_align_for_fields size node :
  set_align_for size node = node <| mn_flags := mn_flags (set_align_for size node) |>.
Proof. unfold set_align_for. repeat case_match; by destruct node. Qed.

Lemma align_of_pow node : align_ok node → ∃ k, align_of node = 2 ^ k ∧ 12 ≤ k ≤ 30.
Proof.
  intros [Hk Hk']%(set_align_for_ok (hgsl_memnode_footprint node)). unfold align_of.
  set (k := hgsl_memnode_get_align _) in *. exists (Z.max k 12). split; [|lia].
  change PAGE_SIZE with (2 ^ 12). destruct (Z.max_spec k 12) as [[? ->]|[? ->]].
  - apply Z.max_r, Z.pow_le_mono_r; lia.
  - apply Z.max_l, Z.pow_le_mono_r; lia.
Qed.

(** A request is refused for its node, or goes through one or two attempts. *)
Lemma iommu_get_gpuaddr_unfold `{Rbtree} a1 a2 pt node :
  align_ok node → has_flag (mn_flags node) GSL_MEMFLAGS_PROTECTED = false →
  0 < hgsl_memnode_footprint node ≤ UINT_MAX →
  let size := hgsl_memnode_footprint node in
  let node1 := set_align_for size node in
  let first := get_gpuaddr a1 pt node1 (pt_va_start pt) (pt_va_end pt) size (align_of node) in
  hgsl_iommu_get_gpuaddr a1 a2 pt node =
  Some (if first.1.1 =? - ENOMEM
        then get_gpuaddr a2 first.1.2 first.2 (pt_va_start pt) (pt_va_end pt) size (align_of node)
        else first).
Proof.
  intros Hal Hp [Hs1 Hs2] size node1 first. unfold hgsl_iommu_get_gpuaddr. rewrite Hp.
  fold size. rewrite (proj2 (Z.eqb_neq size 0)), (proj2 (Z.ltb_ge UINT_MAX size)) by (subst size; lia).
  cbn [orb]. fold node1. pose proof (set_align_for_ok size node Hal) as Hk. fold node1 in Hk.
  unfold int_bit. rewrite (proj2 (Z.ltb_lt _ 31)) by lia. cbn [mbind option_bind].
  assert (Z.max (u64 (2 ^ hgsl_memnode_get_align node1)) PAGE_SIZE = align_of node) as ->.
  { unfold align_of. fold size node1. rewrite u64_small; [done|].
    pose proof (Z.pow_pos_nonneg 2 (hgsl_memnode_get_align node1)).
    pose proof (Z.pow_le_mono_r 2 (hgsl_memnode_get_align node1) 30).
    unfold is_u64. lia. }
  fold first. by destruct first as [[ret pt1] node2].
Qed.

Lemma footprint_nonneg node : 0 ≤ hgsl_memnode_footprint node.
Proof.
  unfold hgsl_memnode_footprint. destruct (negb _); [apply u32_bound|].
  apply Z.land_nonneg. left. apply u64_bound.
Qed.

(** A request that there is memory for, in a page table that is in order. *)
Lemma iommu_get_gpuaddr_spec `{Rbtree} pt node :
  pt_ok pt → align_ok node →
  let size := hgsl_memnode_footprint node in
  ∃ ret pt' node',
    hgsl_iommu_get_gpuaddr true true pt node = Some (ret, pt', node') ∧ pt_ok pt' ∧
    pt_va_start pt' = pt_va_start pt ∧ pt_va_end pt' = pt_va_end pt ∧
    (bad_request node ∧ ret = - EINVAL ∧ pt' = pt ∧ node' = node ∨
     ¬ bad_request node ∧ ret = - ENOMEM ∧ pt' = pt ∧ mn_pagetable node' = mn_pagetable node ∧
       mn_gpuaddr node' = mn_gpuaddr node ∧ (∀ a, ¬ fits_pt pt size (align_of node) a) ∨
     ¬ bad_request node ∧ ret = 0 ∧ fits_pt pt size (align_of node) (mn_gpuaddr node') ∧ mn_pagetable node' = true ∧
       ∃ l1 l2, entries pt = l1 ++ l2 ∧
         entries pt' = l1 ++ mk_entry (mn_gpuaddr node') size :: l2).
Proof.
  intros Hok Hal size. pose proof (footprint_nonneg node) as Hnn. fold size in Hnn.
  destruct (has_flag (mn_flags node) GSL_MEMFLAGS_PROTECTED) eqn:Hp.
  { eexists _, _, _. unfold hgsl_iommu_get_gpuaddr. rewrite Hp. split; [done|].
    split_and!; [done..|left]. split; [by left|done]. }
  destruct ((size =? 0) || (UINT_MAX <? size)) eqn:Hs.
  { eexists _, _, _. unfold hgsl_iommu_get_gpuaddr. rewrite Hp. fold size. rewrite Hs.
    split; [done|]. split_and!; [done..|left]. split; [|done].
    right. apply orb_true_iff in Hs. rewrite Z.eqb_eq, Z.ltb_lt in Hs. done. }
  apply orb_false_iff in Hs as [Hs1%Z.eqb_neq Hs2%Z.ltb_ge].
  assert (¬ bad_request node) as Hgood by (unfold bad_request; rewrite Hp; fold size; lia).
  rewrite (iommu_get_gpuaddr_unfold true true pt node Hal Hp ltac:(subst size; lia)).
  fold size. destruct (align_of_pow node Hal) as (k & Hk & Hkb).
  pose proof (get_gpuaddr_spec pt size (align_of node) k Hok Hk ltac:(lia)
    ltac:(unfold UINT_MAX in *; lia)) as Hget.
  pose proof (set_align_for_fields size node) as Hfields.
  destruct (get_gpuaddr true pt (set_align_for size node) _ _ _ _) as [[ret pt1] node1] eqn:Eg.
  cbn [fst snd].
  destruct (Hget _ _ _ _ Eg) as (Hok1 & Elo & Ehi & [(-> & -> & -> & Hn)|(-> & Hf & Hn1 & Hl)]).
  - rewrite Z.eqb_refl, Eg. eexists _, _, _. split; [reflexivity|].
    split_and!; [done..|right; left]. rewrite Hfields. split_and!; done.
  - change (0 =? - ENOMEM) with false. eexists _, _, _. split; [reflexivity|].
    split_and!; [done..|right; right]. split_and!; [done|done|done|by rewrite Hn1|done].
Qed.


(** * Properties *)



(** C32. Where the hint is of no use, the search over the gaps between the entries
    gives what a search through every aligned address gives: the lowest address
    where the size fits, or no memory. *)
Theorem gpuaddr_search_first_fit pt size align k :
  pt_ok pt → align = 2 ^ k → 0 ≤ k ≤ 32 → 0 < size < 2 ^ 33 →
  IS_ERR_VALUE
    (_get_unmapped_area_hint pt (pt_va_start pt) (pt_va_end pt) size align).1 = true →
  (_get_unmapped_area pt (pt_va_start pt) (pt_va_end pt) size align).1 =
  default (u64 (- ENOMEM))
    (first_fit (entries pt) (pt_va_start pt) (pt_va_end pt) size align).
Proof.
  intros Hok Ek Hk Hsz Hh. unfold _get_unmapped_area.
  pose proof (unmapped_area_hint_spec pt size align k Hok Ek Hk Hsz) as Hspec.
  destruct (_get_unmapped_area_hint _ _ _ _ _) as [addr pt']. cbn in Hh. rewrite Hh in *.
  cbn [negb fst]. destruct Hspec as [-> _]. destruct Hok as [[? ?] Hs Hin _].
  eapply least_fit_unique with (top := pt_va_end pt) (size := size) (align := align)
    (nodes := entries pt) (start := pt_va_start pt); try done.
  - eapply (unmapped_area_least _ _ _ _ k); try done; lia.
  - apply first_fit_least with (lo := pt_va_start pt) (k := k); try done; lia.
Qed.

(** A release undoes an allocation: the entries are those from before, and the
    page table is in order. *)
Theorem gpuaddr_put_after_get `{Rbtree} pt node pt' node' :
  pt_ok pt → align_ok node →
  hgsl_iommu_get_gpuaddr true true pt node = Some (0, pt', node') →
  entries (hgsl_iommu_put_gpuaddr pt' node') = entries pt ∧
  pt_ok (hgsl_iommu_put_gpuaddr pt' node') ∧
  (2 ^ 32 ≤ pt_va_end pt →
   pt_va_hint (hgsl_iommu_put_gpuaddr pt' node') = pt_va_hint pt).
Proof.
  intros Hok Hal E.
  destruct (iommu_get_gpuaddr_spec pt node Hok Hal) as
    (ret & pt1 & node1 & E' & Hok' & Elo & Ehi & Hc).
  rewrite E in E'. injection E' as <- <- <-.
  destruct Hc as [(_ & ? & _)|[(_ & ? & _)|(_ & _ & _ & Hpt & l1 & l2 & E1 & E2)]]; [done..|].
  unfold hgsl_iommu_put_gpuaddr. rewrite Hpt. cbn [negb].
  destruct (remove_gpuaddr_spec pt' l1 _ l2 Hok' E2) as (pt2 & Er & Hok2 & E3 & Elo2 & Ehi2).
  cbn [ae_base] in Er. rewrite Er. cbn [snd]. rewrite E3. split_and!; [done..|].
  intros Ht. destruct Hok as [_ _ _ Hh], Hok2 as [_ _ _ Hh2].
  rewrite Hh, Hh2, E1, E3 by congruence. congruence.
Qed.

(** When no memory is left for an entry the hint has moved all the same, and
    ranges handed out later overlap: after an allocation, one that fails for lack
    of memory, one that the search places between the last entry and the hint, and
    one at the hint, two of the ranges in use share an address. *)
Theorem gpuaddr_overlap_after_enomem :
  let lo := 2 ^ 32 in
  let pages n := mk_mem_node 0 (n * PAGE_SIZE) in
  ∃ pt1 pt2 pt3 pt4 n1 n2 n3 n4,
    hgsl_iommu_get_gpuaddr true true
      (hgsl_iopgtbl_pagetable lo (lo + 25 * PAGE_SIZE)) (pages 4) = Some (0, pt1, n1) ∧
    hgsl_iommu_get_gpuaddr false false pt1 (pages 16) = Some (- ENOMEM, pt2, n2) ∧
    hgsl_iommu_get_gpuaddr true true pt2 (pages 20) = Some (0, pt3, n3) ∧
    hgsl_iommu_get_gpuaddr true true pt3 (pages 1) = Some (0, pt4, n4) ∧
    mn_gpuaddr n3 ≤ mn_gpuaddr n4 < mn_gpuaddr n3 + 20 * PAGE_SIZE ∧
    ¬ pt_ok pt4.
Proof.
  do 8 eexists. do 4 (split; [vm_compute; reflexivity|]).
  split; [vm_compute; split; congruence|].
  intros [_ Hs _ _]. cbv [entries inorder pt_rbtree app] in Hs.
  apply StronglySorted_cons in Hs as [_ [Hs _]%StronglySorted_cons].
  apply Forall_cons in Hs as [Hs _]. unfold range_before, ae_end in Hs. cbn in Hs. lia.
Qed.

(** ** Witnesses *)

(** A page table with two ranges in use and a gap of four pages between them. *)
Definition pt_gap : hgsl_pagetable :=
  {| pt_rbtree := Node Leaf (mk_entry 4294967296 16384)
                    (Node Leaf (mk_entry 4295000064 8192) Leaf);
     pt_va_start := 4294967296; pt_va_end := 4295069696; pt_va_hint := 4295008256 |}.

Definition node_pages (n : Z) : hgsl_mem_node := mk_mem_node 0 (n * PAGE_SIZE).

Lemma pt_gap_ok : pt_ok pt_gap.
Proof.
  constructor; unfold entries, range_before, entry_in, ae_end, last_end; cbn.
  - lia.
  - repeat constructor; cbn; lia.
  - repeat constructor; cbn; lia.
  - done.
Qed.

Lemma node_pages_ok n : align_ok (node_pages n).
Proof. split; [unfold is_u32; cbn; lia|vm_compute; congruence]. Qed.



Lemma gpuaddr_search_first_fit_witness :
  (_get_unmapped_area pt_gap 4294967296 4295069696 (16 * 4096) 65536).1 =
  default (u64 (- ENOMEM))
    (first_fit (entries pt_gap) 4294967296 4295069696 (16 * 4096) 65536).
Proof.
  apply (gpuaddr_search_first_fit pt_gap (16 * 4096) 65536 16 pt_gap_ok);
    [reflexivity|lia|lia|vm_compute; reflexivity].
Defined.

Lemma gpuaddr_put_after_get_witness :
  ∃ pt' node',
    hgsl_iommu_get_gpuaddr true true pt_gap (node_pages 4) = Some (0, pt', node') ∧
    entries (hgsl_iommu_put_gpuaddr pt' node') = entries pt_gap.
Proof.
  eexists _, _. split; [vm_compute; reflexivity|].
  eapply (gpuaddr_put_after_get pt_gap (node_pages 4) _ _ pt_gap_ok (node_pages_ok 4)).
  vm_compute; reflexivity.
Defined.
