(* ===== verification/SharedMem.v ===== *)
(** Memory shared with the GPU (hgsl_memory.c): the pages of a node, their tables of
    segments, the dma-buf through which they are handed out, cache maintenance. *)

From S2P Require Import Prelude.
From S2P Require Import Rbtree.
From S2P Require Import MemTree.
From S2P Require Import Gpuaddr.

(** * State *)

Definition GSL_MEMFLAGS_CACHEMODE_MASK : Z := 0x0C000000.
Definition GSL_MEMFLAGS_WRITECOMBINE : Z := 0x00000000.
Definition GSL_MEMFLAGS_UNCACHED : Z := 0x04000000.
Definition GSL_MEMFLAGS_WRITETHROUGH : Z := 0x08000000.
Definition GSL_MEMFLAGS_WRITEBACK : Z := 0x0C000000.
Definition GSL_CACHEFLAGS_CLEAN : Z := 0x00000001.
Definition GSL_CACHEFLAGS_INVALIDATE : Z := 0x00000002.
Definition GSL_CACHEFLAGS_FLUSH : Z := 0x00000003.
Definition GSL_USER_MEM_TYPE_ASHMEM : Z := 1.

(** struct dma_buf: its references, and for a buffer of this driver the node that its
    priv names. *)
Record dma_buf := { db_refs : Z; db_priv : option ptr }.

#[export] Instance dma_buf_eta : Eta dma_buf := λ r,
  {| db_refs := db_refs r; db_priv := db_priv r |}.

(** struct dma_buf_attachment: its buffer, and the table once it is mapped. *)
Record attachment := { at_buf : ptr; at_sgt : option ptr }.

#[export] Instance attachment_eta : Eta attachment := λ r,
  {| at_buf := at_buf r; at_sgt := at_sgt r |}.

(** The two directions of cache maintenance. *)
Inductive cache_event :=
| SyncForDevice (pages : list page)
| SyncForCpu (pages : list page).

(** The memory of the nodes, and what the kernel holds for them: blocks of pages with
    their order, which of them the hypervisor has taken from this system, dma-bufs,
    tables of segments (of the driver and of other exporters), attachments, mappings
    into the kernel; NR_KERNEL_MISC_RECLAIMABLE, cache maintenance so far, the next
    free address and the count of questions. *)
Record shm := {
  sm_nodes : gmap ptr hgsl_mem_node;
  sm_blocks : gmap ptr nat;
  sm_protected : gset ptr;
  sm_bufs : gmap ptr dma_buf;
  sm_sgts : gmap ptr (list (list page));
  sm_attached : gmap ptr attachment;
  sm_vmaps : gset ptr;
  sm_reclaimable : Z;
  sm_cache_log : list cache_event;
  sm_next : ptr;
  sm_clock : nat }.

#[export] Instance shm_eta : Eta shm := λ r,
  {| sm_nodes := sm_nodes r; sm_blocks := sm_blocks r; sm_protected := sm_protected r;
     sm_bufs := sm_bufs r; sm_sgts := sm_sgts r; sm_attached := sm_attached r;
     sm_vmaps := sm_vmaps r; sm_reclaimable := sm_reclaimable r;
     sm_cache_log := sm_cache_log r; sm_next := sm_next r; sm_clock := sm_clock r |}.

(** What the kernel answers, by the number of the question. *)
Class SharedMem := {
  shm_malloc : nat → bool;                      (* hgsl_malloc, hgsl_zalloc *)
  shm_alloc_pages : nat → nat → bool;           (* alloc_pages of an order *)
  shm_sg_alloc : nat → Z;                       (* sg_alloc_table_from_pages *)
  shm_segments : nat → list page → list (list page);
  shm_dma_buf_export : nat → bool;
  shm_dma_buf_get : nat → Z → option ptr;       (* the buffer of a descriptor *)
  shm_dma_buf_attach : nat → bool;
  shm_map_attachment : nat → option (list (list page));  (* by another exporter *)
  shm_hyp_assign : nat → Z;
  shm_vmap : nat → bool;
  shm_segments_concat : ∀ t pages, concat (shm_segments t pages) = pages }.

Section shm.
Context `{SharedMem}.

Abbreviation SM := (M shm).

Definition ask {A} (q : nat → A) : SM A :=
  a ← gets (λ s, q (sm_clock s)); modify (λ s, s <| sm_clock ::= S |>) ;; mret a.

Definition fresh : SM ptr :=
  p ← gets sm_next; modify (λ s, s <| sm_next ::= Pos.succ |>) ;; mret p.

Definition node (p : ptr) : SM hgsl_mem_node :=
  o ← gets (λ s, sm_nodes s !! p); of_option o.

Definition set_node (p : ptr) (f : hgsl_mem_node → hgsl_mem_node) : SM unit :=
  n ← node p; modify (λ s, s <| sm_nodes ::= <[p := f n]> |>).

(** ** Tables of segments *)

(** sg_page of a segment is its first page, and sg_free_table frees a table. *)
Definition sg_table (p : ptr) : SM (list (list page)) :=
  o ← gets (λ s, sm_sgts s !! p); of_option o.

Definition free_sgt (p : ptr) : SM unit :=
  sg_table p ;; modify (λ s, s <| sm_sgts ::= delete p |>).

Definition get_dma_buf (b : ptr) : SM unit :=
  o ← gets (λ s, sm_bufs s !! b);
  buf ← of_option o;
  modify (λ s, s <| sm_bufs ::= <[b := buf <| db_refs ::= Z.succ |>]> |>).

Definition hgsl_get_sgt_internal (p : ptr) : SM eptr :=
  n ← node p;
  match mn_pages n with
  | None => mret (ERR_PTR (- EINVAL))
  | Some pages =>
      if mn_page_count n =? 0 then mret (ERR_PTR (- EINVAL))
      else match mn_sgt n with
      | PTR _ => set_node p (λ n, n <| mn_sgt_refcount ::= λ c, u32 (c + 1) |>) ;; mret (mn_sgt n)
      | _ =>
          zalloc ← ask shm_malloc;
          if negb zalloc then mret (ERR_PTR (- ENOMEM))
          else
            ret ← ask shm_sg_alloc;
            if negb (ret =? 0) then mret (ERR_PTR ret)
            else
              segments ← ask (λ t, shm_segments t (take (Z.to_nat (mn_page_count n)) pages));
              sgt ← fresh;
              modify (λ s, s <| sm_sgts ::= <[sgt := segments]> |>) ;;
              set_node p (λ n, n <| mn_sgt := PTR sgt |> <| mn_sgt_refcount := 1 |>) ;;
              match mn_dma_buf n with
              | NULL => mret tt
              | PTR b => get_dma_buf b
              | ERR_PTR _ => fault
              end ;;
              mret (PTR sgt)
      end
  end.

(** ** Freeing *)

(** A block goes back to the kernel by its first page; one that the hypervisor has
    taken can be freed all the same. *)
Definition __free_pages (p : page) (order : nat) : SM unit :=
  if negb (p.2 =? 0)%nat then fault
  else
    o ← gets (λ s, sm_blocks s !! p.1);
    match o with
    | Some order' =>
        if (order =? order')%nat then modify (λ s, s <| sm_blocks ::= delete p.1 |>) else fault
    | None => fault
    end.

Definition compound_order (p : page) : SM nat :=
  o ← gets (λ s, sm_blocks s !! p.1); of_option o.

(** The loop of hgsl_free_pages; [n] bounds its turns. *)
Fixpoint free_pages_loop (n : nat) (pages : list page) (i pcount : nat) : SM unit :=
  if (pcount <=? i)%nat then mret tt
  else match n with
  | O => fault
  | S n =>
      p ← of_option (pages !! i);
      page_order ← compound_order p;
      modify (λ s, s <| sm_reclaimable ::= λ r, r - 2 ^ Z.of_nat page_order |>) ;;
      __free_pages p page_order ;;
      free_pages_loop n pages (i + 2 ^ page_order) pcount
  end.

Definition hgsl_free_pages (p : ptr) : SM unit :=
  n ← node p;
  let pcount := Z.to_nat (mn_page_count n) in
  free_pages_loop pcount (default [] (mn_pages n)) 0 pcount ;;
  set_node p (λ n, n <| mn_page_count := 0 |>).

(** hyp_assign_table, for all the pages of a table. *)
Definition hyp_assign (segments : list (list page)) (take : bool) : SM Z :=
  ret ← ask shm_hyp_assign;
  (if ret =? 0 then
     let blocks := list_to_set ((concat segments).*1) in
     modify (λ s, s <| sm_protected ::= λ b, if take then b ∪ blocks else b ∖ blocks |>)
   else mret tt) ;;
  mret ret.

(** hgsl_put_sgt_internal on a node whose dma_buf is not set, so that no reference on
    the buffer is given back. *)
Definition put_sgt_table (p : ptr) (last : SM unit) : SM unit :=
  n ← node p;
  match mn_sgt n with
  | NULL => mret tt
  | ERR_PTR _ => if mn_sgt_refcount n =? 0 then mret tt else fault
  | PTR sgt =>
      if mn_sgt_refcount n =? 0 then mret tt
      else
        set_node p (λ n, n <| mn_sgt_refcount ::= Z.pred |>) ;;
        if mn_sgt_refcount n - 1 =? 0 then
          free_sgt sgt ;; set_node p (λ n, n <| mn_sgt := NULL |>) ;; last
        else mret tt
  end.

Definition hgsl_unlock_pages (p : ptr) : SM Z :=
  n ← node p;
  match mn_sgt n with
  | NULL => mret (- EINVAL)
  | ERR_PTR _ => fault
  | PTR sgt =>
      segments ← sg_table sgt;
      ret ← hyp_assign segments false;
      set_node p (λ n, n <| mn_dma_buf := NULL |>) ;;
      put_sgt_table p (mret tt) ;;
      mret ret
  end.

Definition hgsl_mem_free_actual (p : ptr) : SM unit :=
  n ← node p;
  (if has_flag (mn_flags n) GSL_MEMFLAGS_PROTECTED then hgsl_unlock_pages p ;; mret tt
   else mret tt) ;;
  hgsl_free_pages p ;;
  modify (λ s, s <| sm_nodes ::= delete p |>).

(** The last reference runs the release function of the exporter, which for this
    driver is hgsl_mem_dma_buf_release. *)
Definition dma_buf_put (b : ptr) : SM unit :=
  o ← gets (λ s, sm_bufs s !! b);
  buf ← of_option o;
  if db_refs buf =? 1 then
    modify (λ s, s <| sm_bufs ::= delete b |>) ;;
    match db_priv buf with Some p => hgsl_mem_free_actual p | None => mret tt end
  else modify (λ s, s <| sm_bufs ::= <[b := buf <| db_refs ::= Z.pred |>]> |>).

Definition hgsl_put_sgt_internal (p : ptr) : SM unit :=
  n ← node p;
  put_sgt_table p
    match mn_dma_buf n with
    | NULL => mret tt
    | PTR b => dma_buf_put b
    | ERR_PTR _ => fault
    end.

Definition hgsl_lock_pages (p : ptr) : SM Z :=
  sgt ← hgsl_get_sgt_internal p;
  match sgt with
  | NULL => fault
  | ERR_PTR e => mret e
  | PTR sgt =>
      segments ← sg_table sgt;
      ret ← hyp_assign segments true;
      if negb (ret =? 0) then hgsl_put_sgt_internal p ;; mret ret else mret 0
  end.

(** ** Cache maintenance *)

(** On the [page_count] pages from [page] on, which lie in one segment. *)
Definition _dma_cache_op (pages : list page) (op : Z) : SM unit :=
  let log l := modify (λ s, s <| sm_cache_log ::= λ c, c ++ l |>) in
  if bool_decide (pages = []) then mret tt
  else if op =? GSL_CACHEFLAGS_FLUSH then log [SyncForDevice pages; SyncForCpu pages]
  else if op =? GSL_CACHEFLAGS_CLEAN then log [SyncForDevice pages]
  else if op =? GSL_CACHEFLAGS_INVALIDATE then log [SyncForCpu pages]
  else mret tt.

(** ** Allocation *)

(** The order of the smallest block with that many pages. *)
Definition get_order (pages : Z) : nat := Z.to_nat (Z.log2_up pages).

Definition alloc_pages (order : nat) : SM (option ptr) :=
  ok ← ask (λ t, shm_alloc_pages t order);
  if ok : bool then
    b ← fresh; modify (λ s, s <| sm_blocks ::= <[b := order]> |>) ;; mret (Some b)
  else mret None.

(** The while loop of hgsl_alloc_pages: smaller and smaller orders. *)
Fixpoint alloc_pages_loop (order : nat) : SM (option (ptr * nat)) :=
  page ← alloc_pages order;
  match page, order with
  | Some b, _ => mret (Some (b, order))
  | None, O => mret None
  | None, S order => alloc_pages_loop order
  end.

Definition pages_of (b : ptr) (pcount : nat) : list page := (λ i, (b, i)) <$> seq 0 pcount.

(** The pages that it writes to the array. *)
Definition hgsl_alloc_pages (requested_pcount : Z) : SM (list page) :=
  page ← alloc_pages_loop (get_order requested_pcount);
  match page with
  | None => mret []
  | Some (b, order) =>
      let pcount := 2 ^ Z.of_nat order in
      let pcount := if requested_pcount <? pcount then requested_pcount else pcount in
      let pages := pages_of b (Z.to_nat pcount) in
      _dma_cache_op pages GSL_CACHEFLAGS_FLUSH ;;
      modify (λ s, s <| sm_reclaimable ::= λ r, r + 2 ^ Z.of_nat order |>) ;;
      mret pages
  end.

(** The loop of hgsl_sharedmem_alloc: the pages got, the number of blocks, and the
    pages still missing; [n] bounds its turns. *)
Fixpoint sharedmem_loop (n : nat) (requested_pcount : Z) (pages : list page) (nents : Z)
    : SM (list page * Z * Z) :=
  if requested_pcount <=? 0 then mret (pages, nents, requested_pcount)
  else match n with
  | O => fault
  | S n =>
      new ← hgsl_alloc_pages requested_pcount;
      if bool_decide (new = []) then mret (pages, nents, requested_pcount)
      else sharedmem_loop n (requested_pcount - Z.of_nat (length new)) (pages ++ new) (nents + 1)
  end.

Definition hgsl_export_dma_buf (p : ptr) : SM Z :=
  ok ← ask shm_dma_buf_export;
  if negb ok then mret (- ENOMEM)
  else
    b ← fresh;
    modify (λ s, s <| sm_bufs ::= <[b := {| db_refs := 1; db_priv := Some p |}]> |>) ;;
    set_node p (λ n, n <| mn_dma_buf := PTR b |>) ;; mret 0.

(** The low half of memdesc.size64. *)
Definition set_size (size : Z) (n : hgsl_mem_node) : hgsl_mem_node :=
  n <| mn_size64 ::= λ z, z - u32 z + size |>.

Definition hgsl_sharedmem_alloc (sizebytes flags : Z) (p : ptr) : SM Z :=
  if (sizebytes =? 0) || (U32_MAX - PAGE_SIZE <? sizebytes) then mret (- EINVAL)
  else
    let requested_size := u32 (PAGE_ALIGN sizebytes) in
    let requested_pcount := Z.shiftr requested_size PAGE_SHIFT in
    if requested_size <? sizebytes then mret (- EINVAL)
    else
      ok ← ask shm_malloc;
      if negb ok then set_node p (λ n, n <| mn_pages := None |>) ;; mret (- ENOMEM)
      else
        '(pages, nents, missing) ←
          sharedmem_loop (Z.to_nat requested_pcount) requested_pcount [] 0;
        set_node p (λ n, set_size requested_size
          (n <| mn_pages := Some pages |> <| mn_page_count := Z.of_nat (length pages) |>
             <| mn_sg_nents := nents |> <| mn_memtype := GSL_USER_MEM_TYPE_ASHMEM |>
             <| mn_fd := -1 |>)) ;;
        if negb (missing =? 0) then mret (- ENOMEM)
        else
          ret ← (if has_flag flags GSL_MEMFLAGS_PROTECTED then hgsl_lock_pages p else mret 0);
          if negb (ret =? 0) then mret ret else hgsl_export_dma_buf p.

Definition hgsl_mem_node_zalloc (iocoherency writecombine : bool) : SM (option ptr) :=
  ok ← ask shm_malloc;
  if negb ok then mret None
  else
    p ← fresh;
    modify (λ s, s <| sm_nodes ::= <[p := zeroed_node iocoherency writecombine]> |>) ;;
    mret (Some p).

(** ** The operations of the dma-buf *)

Definition hgsl_mem_map_dma_buf (p : ptr) : SM eptr := hgsl_get_sgt_internal p.

Definition hgsl_mem_unmap_dma_buf (p : ptr) (sgt : eptr) : SM unit :=
  n ← node p;
  if bool_decide (sgt = mn_sgt n) then hgsl_put_sgt_internal p else mret tt.

(** The pages that hgsl_mem_mmap hands to vm_insert_page, for [vma_pages] pages from
    [vm_pgoff] on; the error of a refusal, or of a page that cannot be inserted
    ([insert]). *)
Fixpoint mmap_loop (pages : list page) (vm_pgoff i n : nat) (insert : nat → Z)
    (inserted : list page) : option (Z * list page) :=
  match n with
  | O => Some (0, inserted)
  | S n =>
      page ← pages !! (i + vm_pgoff)%nat;
      let ret := insert i in
      if negb (ret =? 0) then Some (ret, inserted)
      else mmap_loop pages vm_pgoff (S i) n insert (inserted ++ [page])
  end.

Definition hgsl_mem_mmap (p : ptr) (vm_pgoff vma_pages : Z) (insert : nat → Z)
    : SM (Z * list page) :=
  n ← node p;
  if has_flag (mn_flags n) GSL_MEMFLAGS_PROTECTED then mret (- EINVAL, [])
  else if (mn_page_count n <? vm_pgoff) || (mn_page_count n <? u64 (vma_pages + vm_pgoff))
  then mret (- EINVAL, [])
  else
    let cache_mode := Z.land (mn_flags n) GSL_MEMFLAGS_CACHEMODE_MASK in
    if negb (mn_iocoherency n) &&
       negb (bool_decide (cache_mode ∈ [GSL_MEMFLAGS_WRITECOMBINE; GSL_MEMFLAGS_UNCACHED;
                                        GSL_MEMFLAGS_WRITETHROUGH; GSL_MEMFLAGS_WRITEBACK]))
    then mret (- EINVAL, [])
    else of_option (mmap_loop (default [] (mn_pages n)) (Z.to_nat vm_pgoff) 0
                      (Z.to_nat vma_pages) insert []).

(** The mapping on success. *)
Definition hgsl_mem_dma_buf_vmap (p : ptr) : SM (Z * eptr) :=
  n ← node p;
  if has_flag (mn_flags n) GSL_MEMFLAGS_PROTECTED then mret (- EINVAL, NULL)
  else
    (if IS_ERR_OR_NULL (mn_vmapping n) then
       ok ← ask shm_vmap;
       if ok : bool then
         v ← fresh;
         modify (λ s, s <| sm_vmaps ::= λ vs, {[v]} ∪ vs |>) ;;
         set_node p (λ n, n <| mn_vmapping := PTR v |>)
       else set_node p (λ n, n <| mn_vmapping := NULL |>)
     else mret tt) ;;
    n ← node p;
    (if negb (IS_ERR_OR_NULL (mn_vmapping n))
     then set_node p (λ n, n <| mn_vmap_count ::= λ c, u32 (c + 1) |>) else mret tt) ;;
    if is_null (mn_vmapping n) then mret (- ENOMEM, NULL) else mret (0, mn_vmapping n).

Definition hgsl_mem_dma_buf_vunmap (p : ptr) : SM unit :=
  n ← node p;
  if has_flag (mn_flags n) GSL_MEMFLAGS_PROTECTED then mret tt
  else if mn_vmap_count n =? 0 then mret tt
  else
    set_node p (λ n, n <| mn_vmap_count ::= Z.pred |>) ;;
    if mn_vmap_count n - 1 =? 0 then
      match mn_vmapping n with
      | PTR v =>
          modify (λ s, s <| sm_vmaps ::= λ vs, vs ∖ {[v]} |>) ;;
          set_node p (λ n, n <| mn_vmapping := NULL |>)
      | _ => mret tt
      end
    else mret tt.

(** ** Attachments

    dma_buf_attach, dma_buf_map_attachment and their opposites call the exporter,
    which may be this driver.  A pointer that is an error number is a fault. *)

(** A reference on the buffer of a descriptor of the process. *)
Definition dma_buf_get (fd : Z) : SM eptr :=
  o ← ask (λ t, shm_dma_buf_get t fd);
  match o with
  | None => mret (ERR_PTR (- EBADF))
  | Some b => get_dma_buf b ;; mret (PTR b)
  end.

Definition dma_buf_attach (b : eptr) : SM eptr :=
  match b with
  | PTR b =>
      ok ← ask shm_dma_buf_attach;
      if negb ok then mret (ERR_PTR (- ENOMEM))
      else
        a ← fresh;
        modify (λ s, s <| sm_attached ::= <[a := {| at_buf := b; at_sgt := None |}]> |>) ;;
        mret (PTR a)
  | _ => fault
  end.

Definition attached (a : ptr) : SM attachment :=
  o ← gets (λ s, sm_attached s !! a); of_option o.

Definition dma_buf_detach (b a : eptr) : SM unit :=
  match b, a with
  | PTR b, PTR a =>
      at_ ← attached a;
      if bool_decide (at_buf at_ = b) && bool_decide (at_sgt at_ = None)
      then modify (λ s, s <| sm_attached ::= delete a |>) else fault
  | _, _ => fault
  end.

Definition exporter (b : ptr) : SM (option ptr) :=
  o ← gets (λ s, sm_bufs s !! b); buf ← of_option o; mret (db_priv buf).

Definition dma_buf_map_attachment (a : ptr) : SM eptr :=
  at_ ← attached a;
  priv ← exporter (at_buf at_);
  sgt ← match priv with
        | Some p => hgsl_mem_map_dma_buf p
        | None =>
            o ← ask shm_map_attachment;
            match o with
            | None => mret (ERR_PTR (- ENOMEM))
            | Some segments =>
                sgt ← fresh;
                modify (λ s, s <| sm_sgts ::= <[sgt := segments]> |>) ;; mret (PTR sgt)
            end
        end;
  match sgt with
  | PTR sgt =>
      modify (λ s, s <| sm_attached ::= <[a := at_ <| at_sgt := Some sgt |>]> |>) ;;
      mret (PTR sgt)
  | _ => mret sgt
  end.

Definition dma_buf_unmap_attachment (a sgt : ptr) : SM unit :=
  at_ ← attached a;
  if negb (bool_decide (at_sgt at_ = Some sgt)) then fault
  else
    modify (λ s, s <| sm_attached ::= <[a := at_ <| at_sgt := None |>]> |>) ;;
    priv ← exporter (at_buf at_);
    match priv with
    | Some p => hgsl_mem_unmap_dma_buf p (PTR sgt)
    | None => free_sgt sgt
    end.

(** *** For the IOMMU *)

(** What is put back when no table was got. *)
Definition get_sgt_iommu_out (p : ptr) (sgt : eptr) : SM eptr :=
  (if IS_ERR_OR_NULL sgt then
     n ← node p;
     (if negb (is_null (mn_attach_iommu n)) then
        if negb (IS_ERR_OR_NULL (mn_dma_buf_iommu n)) then
          dma_buf_detach (mn_dma_buf_iommu n) (mn_attach_iommu n) ;;
          set_node p (λ n, n <| mn_attach_iommu := NULL |>)
        else mret tt
      else mret tt) ;;
     match mn_dma_buf_iommu n with
     | PTR b => dma_buf_put b ;; set_node p (λ n, n <| mn_dma_buf_iommu := NULL |>)
     | _ => mret tt
     end
   else mret tt) ;;
  mret sgt.

Definition hgsl_get_sgt_iommu (p : ptr) : SM eptr :=
  n ← node p;
  match mn_sgt_iommu n with
  | PTR sgt =>
      set_node p (λ n, n <| mn_sgt_iommu_refcount ::= Z.succ |>) ;;
      get_sgt_iommu_out p (PTR sgt)
  | _ =>
      let attach :=
        n ← node p;
        (if IS_ERR_OR_NULL (mn_attach_iommu n) then
           a ← dma_buf_attach (mn_dma_buf_iommu n);
           set_node p (λ n, n <| mn_attach_iommu := a |>)
         else mret tt) ;;
        n ← node p;
        match mn_attach_iommu n with
        | PTR a =>
            sgt ← dma_buf_map_attachment a;
            match sgt with
            | PTR sgt =>
                set_node p (λ n, n <| mn_sgt_iommu_refcount := 1 |> <| mn_sgt_iommu := PTR sgt |>) ;;
                get_sgt_iommu_out p (PTR sgt)
            | _ => get_sgt_iommu_out p (ERR_PTR (- EINVAL))
            end
        | _ => get_sgt_iommu_out p (ERR_PTR (- EINVAL))
        end in
      match mn_dma_buf n with
      | PTR b => get_dma_buf b ;; set_node p (λ n, n <| mn_dma_buf_iommu := PTR b |>) ;; attach
      | ERR_PTR _ => fault
      | NULL =>
          if mn_fd n <? 0 then mret NULL
          else
            b ← dma_buf_get (mn_fd n);
            set_node p (λ n, n <| mn_dma_buf_iommu := b |>) ;; attach
      end
  end.

Definition hgsl_put_sgt_iommu (p : ptr) : SM unit :=
  n ← node p;
  match mn_sgt_iommu n with
  | NULL => mret tt
  | ERR_PTR _ => fault
  | PTR sgt =>
      set_node p (λ n, n <| mn_sgt_iommu_refcount ::= Z.pred |>) ;;
      if negb (mn_sgt_iommu_refcount n - 1 =? 0) then mret tt
      else
        match mn_attach_iommu n with
        | PTR a =>
            dma_buf_unmap_attachment a sgt ;;
            set_node p (λ n, n <| mn_sgt_iommu := NULL |>) ;;
            if negb (IS_ERR_OR_NULL (mn_dma_buf_iommu n)) then
              dma_buf_detach (mn_dma_buf_iommu n) (PTR a) ;;
              set_node p (λ n, n <| mn_attach_iommu := NULL |>)
            else mret tt
        | _ => mret tt
        end ;;
        match mn_dma_buf_iommu n with
        | PTR b => dma_buf_put b ;; set_node p (λ n, n <| mn_dma_buf_iommu := NULL |>)
        | _ => mret tt
        end
  end.

(** *** For cache maintenance *)

Definition hgsl_get_sgt (p : ptr) (internal : bool) : SM unit :=
  n ← node p;
  if negb (IS_ERR_OR_NULL (mn_sgt_ext n)) then mret tt
  else if internal then
    sgt ← hgsl_get_sgt_internal p; set_node p (λ n, n <| mn_sgt_ext := sgt |>)
  else
    (if IS_ERR_OR_NULL (mn_attach n) then
       (if IS_ERR_OR_NULL (mn_dma_buf n) then
          b ← dma_buf_get (mn_fd n); set_node p (λ n, n <| mn_dma_buf := b |>)
        else mret tt) ;;
       n ← node p;
       if IS_ERR_OR_NULL (mn_dma_buf n) then mret tt
       else a ← dma_buf_attach (mn_dma_buf n); set_node p (λ n, n <| mn_attach := a |>)
     else mret tt) ;;
    n ← node p;
    match mn_attach n with
    | PTR a => sgt ← dma_buf_map_attachment a; set_node p (λ n, n <| mn_sgt_ext := sgt |>)
    | _ => mret tt
    end.

Definition hgsl_put_sgt (p : ptr) (internal : bool) : SM unit :=
  n ← node p;
  match mn_sgt_ext n with
  | PTR sgt =>
      if internal then
        hgsl_put_sgt_internal p ;; set_node p (λ n, n <| mn_sgt_ext := NULL |>)
      else
        match mn_attach n with
        | PTR a =>
            dma_buf_unmap_attachment a sgt ;;
            set_node p (λ n, n <| mn_sgt_ext := NULL |>) ;;
            if negb (IS_ERR_OR_NULL (mn_dma_buf n)) then
              dma_buf_detach (mn_dma_buf n) (PTR a) ;;
              set_node p (λ n, n <| mn_attach := NULL |>)
            else mret tt
        | _ => mret tt
        end ;;
        match mn_dma_buf n with
        | PTR b => dma_buf_put b ;; set_node p (λ n, n <| mn_dma_buf := NULL |>)
        | _ => mret tt
        end
  | _ => mret tt
  end.

(** The loop over the segments of hgsl_mem_cache_op. *)
Fixpoint cache_op_loop (segments : list (list page)) (pg_offset pg_size : Z) (op : Z)
    : SM unit :=
  match segments with
  | [] => mret tt
  | s :: segments =>
      let sg_size := Z.of_nat (length s) in
      if pg_offset <? sg_size then
        let sg_size := Z.min (sg_size - pg_offset) pg_size in
        _dma_cache_op (take (Z.to_nat sg_size) (drop (Z.to_nat pg_offset) s)) op ;;
        if pg_size - sg_size =? 0 then mret tt
        else cache_op_loop segments 0 (pg_size - sg_size) op
      else cache_op_loop segments (pg_offset - sg_size) pg_size op
  end.

Definition hgsl_mem_cache_op (p : ptr) (internal : bool) (offsetbytes sizebytes op : Z)
    : SM Z :=
  n ← node p;
  if has_flag (mn_flags n) GSL_MEMFLAGS_PROTECTED then mret (- EINVAL)
  else
    let cache_mode := Z.land (mn_flags n) GSL_MEMFLAGS_CACHEMODE_MASK in
    if negb (bool_decide (cache_mode ∈ [GSL_MEMFLAGS_WRITETHROUGH; GSL_MEMFLAGS_WRITEBACK]))
    then mret 0
    else if (sizebytes =? 0) || (UINT_MAX <? sizebytes) || (UINT_MAX <? offsetbytes)
    then mret (- ERANGE)
    else if u32 (mn_size64 n) <? u64 (sizebytes + offsetbytes) then mret (- ERANGE)
    else
      let sizebytes := u64 (sizebytes + offsetbytes mod PAGE_SIZE) in
      let pg_size := u32 (Z.shiftr (u64 (PAGE_ALIGN sizebytes)) PAGE_SHIFT) in
      let pg_offset := u32 (Z.shiftr offsetbytes PAGE_SHIFT) in
      (if IS_ERR_OR_NULL (mn_sgt_ext n) then hgsl_get_sgt p internal else mret tt) ;;
      n ← node p;
      match mn_sgt_ext n with
      | PTR sgt =>
          segments ← sg_table sgt;
          cache_op_loop segments pg_offset pg_size op ;; mret 0
      | _ => mret (- EINVAL)
      end.

(** ** The end of a node *)

Definition hgsl_sharedmem_free (p : option ptr) : SM unit :=
  match p with
  | None => mret tt
  | Some p =>
      hgsl_put_sgt p true ;;
      n ← node p;
      match mn_dma_buf n with
      | PTR b => dma_buf_put b
      | NULL => hgsl_mem_free_actual p
      | ERR_PTR _ => fault
      end
  end.
End shm.

(** * Specification *)

(** A block, its order, and how many of its pages are used. *)
Record chunk := { ck_block : ptr; ck_order : nat; ck_count : nat }.

Definition chunk_pages (cs : list chunk) : list page :=
  cs ≫= λ c, pages_of (ck_block c) (ck_count c).

Definition chunk_total (cs : list chunk) : Z :=
  foldr (λ c z, 2 ^ Z.of_nat (ck_order c) + z) 0 cs.

Definition full (c : chunk) : Prop := ck_count c = (2 ^ ck_order c)%nat.

(** Every block but the last is used up. *)
Fixpoint full_but_last (cs : list chunk) : Prop :=
  match cs with
  | [] => True
  | c :: cs => (0 < ck_count c ≤ 2 ^ ck_order c)%nat ∧ (cs = [] ∨ full c) ∧ full_but_last cs
  end.

(** No address from [sm_next] on is in use. *)
Record shm_ok (s : shm) : Prop := {
  so_nodes : ∀ q, is_Some (sm_nodes s !! q) → (q < sm_next s)%positive;
  so_blocks : ∀ q, is_Some (sm_blocks s !! q) → (q < sm_next s)%positive;
  so_bufs : ∀ q, is_Some (sm_bufs s !! q) → (q < sm_next s)%positive;
  so_sgts : ∀ q, is_Some (sm_sgts s !! q) → (q < sm_next s)%positive;
  so_protected : ∀ q, q ∈ sm_protected s → (q < sm_next s)%positive }.

(** [s] has everything of [s0], and the node [n] at [p] with its blocks [cs]. *)
Record holding (s0 s : shm) (p : ptr) (n : hgsl_mem_node) (cs : list chunk) : Prop := {
  ho_nodes : sm_nodes s = <[p := n]> (sm_nodes s0);
  ho_blocks : ∀ c, c ∈ cs →
    sm_blocks s !! ck_block c = Some (ck_order c) ∧ sm_blocks s0 !! ck_block c = None;
  ho_others : ∀ b, b ∉ ck_block <$> cs → sm_blocks s !! b = sm_blocks s0 !! b;
  ho_nodup : NoDup (ck_block <$> cs);
  ho_full : full_but_last cs;
  ho_reclaimable : sm_reclaimable s = sm_reclaimable s0 + chunk_total cs;
  ho_pages : default [] (mn_pages n) = chunk_pages cs;
  ho_count : mn_page_count n = Z.of_nat (length (chunk_pages cs));
  ho_fresh : ∀ c, c ∈ cs → ck_block c ∉ sm_protected s0;
  ho_sgt_ext : mn_sgt_ext n = NULL;
  ho_attached : sm_attached s = sm_attached s0;
  ho_vmaps : sm_vmaps s = sm_vmaps s0 }.

(** [s] has everything of [s0], and the blocks [cs]. *)
Record grown (s0 s : shm) (cs : list chunk) : Prop := {
  gr_ok : shm_ok s;
  gr_next : (sm_next s0 ≤ sm_next s)%positive;
  gr_nodes : sm_nodes s = sm_nodes s0;
  gr_blocks : ∀ c, c ∈ cs →
    sm_blocks s !! ck_block c = Some (ck_order c) ∧ sm_blocks s0 !! ck_block c = None;
  gr_others : ∀ b, b ∉ ck_block <$> cs → sm_blocks s !! b = sm_blocks s0 !! b;
  gr_nodup : NoDup (ck_block <$> cs);
  gr_fresh : ∀ c, c ∈ cs → ck_block c ∉ sm_protected s0;
  gr_reclaimable : sm_reclaimable s = sm_reclaimable s0 + chunk_total cs;
  gr_protected : sm_protected s = sm_protected s0;
  gr_bufs : sm_bufs s = sm_bufs s0;
  gr_sgts : sm_sgts s = sm_sgts s0;
  gr_attached : sm_attached s = sm_attached s0;
  gr_vmaps : sm_vmaps s = sm_vmaps s0 }.

(** Its table of segments if its pages have been taken from this system. *)
Definition locked (s0 s : shm) (n : hgsl_mem_node) (cs : list chunk) : Prop :=
  match mn_sgt n with
  | NULL => sm_sgts s = sm_sgts s0 ∧ sm_protected s = sm_protected s0
  | PTR g => ∃ segments, sm_sgts s = <[g := segments]> (sm_sgts s0) ∧ sm_sgts s0 !! g = None ∧
      mn_sgt_refcount n = 1 ∧ has_flag (mn_flags n) GSL_MEMFLAGS_PROTECTED = true ∧
      concat segments = chunk_pages cs ∧
      sm_protected s = sm_protected s0 ∪ list_to_set ((chunk_pages cs).*1)
  | ERR_PTR _ => False
  end.

(** Its dma-buf if it has been exported, with the one reference of the node. *)
Definition exported (s0 s : shm) (p : ptr) (n : hgsl_mem_node) : Prop :=
  match mn_dma_buf n with
  | NULL => sm_bufs s = sm_bufs s0
  | PTR b => sm_bufs s = <[b := {| db_refs := 1; db_priv := Some p |}]> (sm_bufs s0) ∧
      sm_bufs s0 !! b = None
  | ERR_PTR _ => False
  end.

(** A node that hgsl_sharedmem_alloc has not seen. *)
Record untouched (n : hgsl_mem_node) : Prop := {
  un_pages : mn_pages n = None;
  un_count : mn_page_count n = 0;
  un_sgt : mn_sgt n = NULL;
  un_sgt_ext : mn_sgt_ext n = NULL;
  un_dma_buf : mn_dma_buf n = NULL }.

(** All that is left of [s0] when the node at [p] is gone. *)
Record restored (s0 s : shm) (p : ptr) : Prop := {
  re_nodes : sm_nodes s = delete p (sm_nodes s0);
  re_blocks : sm_blocks s = sm_blocks s0;
  re_bufs : sm_bufs s = sm_bufs s0;
  re_sgts : sm_sgts s = sm_sgts s0;
  re_reclaimable : sm_reclaimable s = sm_reclaimable s0;
  re_attached : sm_attached s = sm_attached s0;
  re_vmaps : sm_vmaps s = sm_vmaps s0 }.

(** The pages that the bytes from [offset] to [offset + size] lie on. *)
Definition pages_touched (pages : list page) (offset size : Z) : list page :=
  let first := offset / PAGE_SIZE in
  let last := (offset + size - 1) / PAGE_SIZE in
  take (Z.to_nat (last - first + 1)) (drop (Z.to_nat first) pages).

(** What a cache operation does to a run of pages. *)
Definition cache_events (op : Z) (pages : list page) : list cache_event :=
  if op =? GSL_CACHEFLAGS_FLUSH then [SyncForDevice pages; SyncForCpu pages]
  else if op =? GSL_CACHEFLAGS_CLEAN then [SyncForDevice pages]
  else if op =? GSL_CACHEFLAGS_INVALIDATE then [SyncForCpu pages]
  else [].

(** * Lemmas *)

(** ** Loops over blocks *)

Lemma chunk_total_cons c cs :
  chunk_total (c :: cs) = 2 ^ Z.of_nat (ck_order c) + chunk_total cs.
Proof. done. Qed.

Lemma chunk_pages_cons c cs :
  chunk_pages (c :: cs) = pages_of (ck_block c) (ck_count c) ++ chunk_pages cs.
Proof. done. Qed.

Lemma chunk_pages_app cs cs' : chunk_pages (cs ++ cs') = chunk_pages cs ++ chunk_pages cs'.
Proof. apply bind_app. Qed.

Lemma pages_of_length b k : length (pages_of b k) = k.
Proof. unfold pages_of. by rewrite length_fmap, length_seq. Qed.

Lemma full_but_last_app cs c :
  Forall full cs → (0 < ck_count c ≤ 2 ^ ck_order c)%nat → full_but_last (cs ++ [c]).
Proof.
  intros Hf Hc. induction Hf as [|c' cs Hc' Hf IH]; cbn; [by repeat split; try lia; auto|].
  split_and!; auto; unfold full in Hc'; [|lia]. rewrite Hc'.
  pose proof (Nat.pow_nonzero 2 (ck_order c')). lia.
Qed.

Lemma full_but_last_full cs : Forall full cs → full_but_last cs.
Proof.
  induction 1 as [|c cs Hc _ IH]; cbn; [done|]. unfold full in Hc.
  pose proof (Nat.pow_nonzero 2 (ck_order c)). split_and!; auto; lia.
Qed.

Lemma chunk_total_app cs cs' : chunk_total (cs ++ cs') = chunk_total cs + chunk_total cs'.
Proof.
  unfold chunk_total. induction cs as [|c cs IH]; cbn [app foldr]; [lia|]. rewrite IH. lia.
Qed.

Lemma chunk_pages_elem p cs :
  p ∈ chunk_pages cs ↔ ∃ c, c ∈ cs ∧ p.1 = ck_block c ∧ (p.2 < ck_count c)%nat.
Proof.
  unfold chunk_pages. rewrite list_elem_of_bind. split.
  - intros (c & Hp & Hc). apply list_elem_of_fmap in Hp as (i & -> & Hi%elem_of_seq).
    exists c. cbn. split_and!; [done|done|lia].
  - intros (c & Hc & E1 & E2). exists c. split; [|done].
    apply list_elem_of_fmap. exists p.2. rewrite <- E1. split; [by destruct p|].
    apply elem_of_seq. lia.
Qed.

Lemma chunk_pages_NoDup cs : NoDup (ck_block <$> cs) → NoDup (chunk_pages cs).
Proof.
  induction cs as [|c cs IH]; cbn [fmap list_fmap]; [intros; constructor|].
  intros [Hn Hd]%NoDup_cons. rewrite chunk_pages_cons. apply NoDup_app. split_and!.
  - apply NoDup_fmap; [intros ?? [=]; done|apply NoDup_seq].
  - intros q Hq (c' & Hc' & E & _)%chunk_pages_elem.
    apply list_elem_of_fmap in Hq as (i & -> & _). cbn in E. apply Hn. rewrite E.
    by apply list_elem_of_fmap_2.
  - auto.
Qed.

Section run.
Context `{SharedMem}.

Lemma set_node_run p f s n :
  sm_nodes s !! p = Some n → set_node p f s = Some (tt, s <| sm_nodes ::= <[p := f n]> |>).
Proof. intros Hn. unfold set_node, node, mbind, M_bind, gets. cbn. by rewrite Hn. Qed.

Lemma node_run p s n : sm_nodes s !! p = Some n → node p s = Some (n, s).
Proof. intros Hn. unfold node, mbind, M_bind, gets. by rewrite Hn. Qed.

Lemma free_pages_step (b : ptr) (o : nat) s :
  sm_blocks s !! b = Some o → __free_pages (b, O) o s = Some (tt, s <| sm_blocks ::= delete b |>).
Proof.
  intros Hb. unfold __free_pages, mbind, M_bind, gets. cbn. rewrite Hb. by rewrite Nat.eqb_refl.
Qed.

Lemma no_more_blocks s :
  s = s <| sm_blocks ::= λ bs, foldr (λ c, delete (ck_block c)) bs (reverse []) |>
        <| sm_reclaimable ::= λ r, r - chunk_total [] |>.
Proof. destruct s; cbn. by rewrite Z.sub_0_r. Qed.

Lemma free_pages_loop_run cs : ∀ m pre s,
  full_but_last cs → NoDup (ck_block <$> cs) → (length (chunk_pages cs) ≤ m)%nat →
  (∀ c, c ∈ cs → sm_blocks s !! ck_block c = Some (ck_order c)) →
  free_pages_loop m (pre ++ chunk_pages cs) (length pre) (length (pre ++ chunk_pages cs)) s =
    Some (tt, s <| sm_blocks ::= λ bs, foldr (λ c, delete (ck_block c)) bs (reverse cs) |>
                <| sm_reclaimable ::= λ r, r - chunk_total cs |>).
Proof.
  induction cs as [|c cs IH]; intros m pre s Hf Hn Hm Hb.
  - rewrite app_nil_r. destruct m; cbn; rewrite Nat.leb_refl; unfold mret, M_ret;
      do 2 f_equal; destruct s; cbn; f_equal; lia.
  - destruct Hf as (Hc & Hfull & Hf). apply NoDup_cons in Hn as [Hn Hnd].
    destruct (Hb c ltac:(by left)).
    rewrite chunk_pages_cons in Hm |- *. rewrite length_app, pages_of_length in Hm.
    destruct m as [|m]; [lia|]. cbn [free_pages_loop].
    rewrite (proj2 (Nat.leb_gt _ _)) by (rewrite !length_app, pages_of_length; lia).
    assert ((pre ++ pages_of (ck_block c) (ck_count c) ++ chunk_pages cs) !! length pre
              = Some (ck_block c, O)) as ->.
    { rewrite lookup_app_r, Nat.sub_diag by lia. unfold pages_of.
      destruct (ck_count c); [lia|]. done. }
    rewrite (bind_run _ _ s (ck_block c, O) s) by done.
    rewrite (bind_run _ _ s (ck_order c) s).
    2:{ unfold compound_order, mbind, M_bind, gets. cbn. by rewrite (Hb c ltac:(by left)). }
    set (s1 := s <| sm_reclaimable ::= λ r, r - 2 ^ Z.of_nat (ck_order c) |>).
    rewrite (bind_run _ _ s tt s1) by done.
    rewrite (bind_run _ _ _ _ _ (free_pages_step _ _ s1 (Hb c ltac:(by left)))).
    set (s2 := s1 <| sm_blocks ::= delete (ck_block c) |>).
    assert (∀ s', s' = s2 <| sm_blocks ::= λ bs, foldr (λ c, delete (ck_block c)) bs (reverse cs) |>
                          <| sm_reclaimable ::= λ r, r - chunk_total cs |> →
      s' = s <| sm_blocks ::= λ bs, foldr (λ c, delete (ck_block c)) bs (reverse (c :: cs)) |>
             <| sm_reclaimable ::= λ r, r - chunk_total (c :: cs) |>) as Hs.
    { intros ? ->. rewrite reverse_cons, chunk_total_cons. subst s1 s2.
      destruct s; cbn -[Z.pow chunk_total]. f_equal; [|lia]. by rewrite foldr_app. }
    rewrite (assoc_L app pre). destruct Hfull as [->|Hfull].
    + rewrite app_nil_r. destruct m as [|m]; cbn [free_pages_loop];
        rewrite (proj2 (Nat.leb_le _ _)) by (rewrite length_app, pages_of_length; lia);
        unfold mret, M_ret; do 2 f_equal; apply Hs, no_more_blocks.
    + replace (length pre + 2 ^ ck_order c)%nat with (length (pre ++ pages_of (ck_block c) (ck_count c)))
        by (rewrite length_app, pages_of_length; by rewrite Hfull).
      rewrite (IH m); [do 2 f_equal; by apply Hs|done|done|lia|].
      intros c' Hc'. subst s2. cbn. rewrite lookup_delete_ne; [by apply Hb; right|].
      intros E. apply Hn. rewrite E. by apply list_elem_of_fmap_2.
Qed.

Lemma foldr_delete_lookup (cs : list chunk) (m : gmap ptr nat) b :
  foldr (λ c, delete (ck_block c)) m cs !! b =
    if decide (b ∈ ck_block <$> cs) then None else m !! b.
Proof.
  induction cs as [|c cs IH]; cbn [foldr fmap list_fmap].
  { by rewrite decide_False by set_solver. }
  destruct (decide (b = ck_block c)) as [->|Hb].
  - rewrite lookup_delete_eq. by rewrite decide_True by set_solver.
  - rewrite lookup_delete_ne, IH by done.
    destruct (decide (b ∈ ck_block <$> cs)); [by rewrite decide_True by set_solver|].
    by rewrite decide_False by set_solver.
Qed.

Lemma blocks_given_back s0 s p n cs :
  holding s0 s p n cs →
  foldr (λ c, delete (ck_block c)) (sm_blocks s) (reverse cs) = sm_blocks s0.
Proof.
  intros Hh. apply map_eq. intros b. rewrite foldr_delete_lookup, fmap_reverse.
  destruct (decide _) as [Hb|Hb]; rewrite elem_of_reverse in Hb.
  - apply list_elem_of_fmap in Hb as (c & -> & Hc). symmetry. by apply (ho_blocks _ _ _ _ _ Hh).
  - by apply (ho_others _ _ _ _ _ Hh).
Qed.

Lemma holding_node s0 s p n cs : holding s0 s p n cs → sm_nodes s !! p = Some n.
Proof. intros Hh. by rewrite (ho_nodes _ _ _ _ _ Hh), lookup_insert_eq. Qed.

Lemma hgsl_free_pages_run s0 s p n cs :
  holding s0 s p n cs →
  hgsl_free_pages p s = Some (tt,
    s <| sm_blocks := sm_blocks s0 |> <| sm_reclaimable := sm_reclaimable s0 |>
      <| sm_nodes := <[p := n <| mn_page_count := 0 |>]> (sm_nodes s0) |>).
Proof.
  intros Hh. pose proof (holding_node _ _ _ _ _ Hh) as Hn. unfold hgsl_free_pages.
  rewrite (bind_run _ _ _ _ _ (node_run _ _ _ Hn)).
  rewrite (ho_pages _ _ _ _ _ Hh), (ho_count _ _ _ _ _ Hh), Nat2Z.id.
  rewrite (bind_run _ _ _ _ _ (free_pages_loop_run cs _ [] s (ho_full _ _ _ _ _ Hh)
    (ho_nodup _ _ _ _ _ Hh) (le_n _) (λ c Hc, proj1 (ho_blocks _ _ _ _ _ Hh c Hc)))).
  erewrite set_node_run by exact Hn. do 2 f_equal.
  pose proof (blocks_given_back _ _ _ _ _ Hh) as Hb. pose proof (ho_reclaimable _ _ _ _ _ Hh) as Hr.
  pose proof (ho_nodes _ _ _ _ _ Hh) as Hns.
  destruct s; cbn in *. f_equal; [|done|lia]. by rewrite Hns, insert_insert_eq.
Qed.

(** The pages and the node of a holding that has no table any more. *)
Lemma free_tail_run s0 s p n cs :
  holding s0 s p n cs → sm_sgts s = sm_sgts s0 → sm_bufs s = sm_bufs s0 →
  ∃ s2, (hgsl_free_pages p ;; modify (λ s, s <| sm_nodes ::= delete p |>)) s = Some (tt, s2) ∧
    restored s0 s2 p ∧ sm_protected s2 = sm_protected s.
Proof.
  intros Hh Hg Hb. rewrite (bind_run _ _ _ _ _ (hgsl_free_pages_run _ _ _ _ _ Hh)).
  eexists. split; [done|]. split; [|done]. split; cbn; try done.
  - apply delete_insert_eq.
  - apply (ho_attached _ _ _ _ _ Hh).
  - apply (ho_vmaps _ _ _ _ _ Hh).
Qed.

(** The hypervisor has refused to take or give back pages. *)
Definition refused : Prop := ∃ t, shm_hyp_assign t ≠ 0.

Lemma holding_update s0 s p n cs n' s' :
  holding s0 s p n cs →
  sm_nodes s' = <[p := n']> (sm_nodes s0) → sm_blocks s' = sm_blocks s →
  sm_reclaimable s' = sm_reclaimable s → sm_attached s' = sm_attached s →
  sm_vmaps s' = sm_vmaps s → mn_pages n' = mn_pages n → mn_page_count n' = mn_page_count n →
  mn_sgt_ext n' = mn_sgt_ext n → holding s0 s' p n' cs.
Proof.
  intros [] E1 E2 E3 E4 E5 E6 E7 E8.
  split; rewrite ?E1, ?E2, ?E3, ?E4, ?E5, ?E6, ?E7, ?E8; done.
Qed.

Lemma hyp_assign_run segments take s :
  ∃ ret b, hyp_assign segments take s =
    Some (ret, s <| sm_clock ::= S |> <| sm_protected := b |>) ∧
    (ret = 0 ∧ b = (let blocks := list_to_set ((concat segments).*1) in
                    if take then sm_protected s ∪ blocks else sm_protected s ∖ blocks)
     ∨ ret ≠ 0 ∧ refused ∧ b = sm_protected s).
Proof.
  unfold hyp_assign, ask, mbind, M_bind, gets, modify. cbn.
  destruct (Z.eqb_spec (shm_hyp_assign (sm_clock s)) 0) as [E|E].
  - eexists _, (let blocks := list_to_set ((concat segments).*1) in
                if take then sm_protected s ∪ blocks else sm_protected s ∖ blocks).
    split; [done|]. by left.
  - eexists _, (sm_protected s). split; [by destruct s|]. right. split; [done|]. split; [by eexists|done].
Qed.

Lemma put_last_sgt_run p n g segments s (last : M shm unit) :
  sm_nodes s !! p = Some n → mn_sgt n = PTR g → mn_sgt_refcount n = 1 →
  sm_sgts s !! g = Some segments →
  put_sgt_table p last s =
    last (s <| sm_sgts ::= delete g |>
            <| sm_nodes ::= <[p := n <| mn_sgt_refcount := 0 |> <| mn_sgt := NULL |>]> |>).
Proof.
  intros Hn Eg Er Hg. unfold put_sgt_table.
  rewrite (bind_run _ _ _ _ _ (node_run _ _ _ Hn)), Eg, Er. change (1 =? 0) with false. cbv iota.
  rewrite (bind_run _ _ _ _ _ (set_node_run _ _ _ _ Hn)). change (1 - 1 =? 0) with true. cbv iota.
  set (n1 := n <| mn_sgt_refcount ::= Z.pred |>).
  erewrite bind_run. 2:{ unfold free_sgt, sg_table, mbind, M_bind, gets. cbn. by rewrite Hg. }
  rewrite (bind_run _ _ _ _ _ (set_node_run _ _ _ n1 (lookup_insert_eq _ _ _))).
  f_equal. subst n1. destruct s; cbn. f_equal. rewrite insert_insert_eq. do 2 f_equal.
  destruct n; cbn in *. by rewrite Er.
Qed.

(** Taking back the pages of a node whose references are gone. *)
Lemma unlock_run s0 s p n cs :
  holding s0 s p n cs → locked s0 s n cs →
  has_flag (mn_flags n) GSL_MEMFLAGS_PROTECTED = true →
  ∃ ret s' n', hgsl_unlock_pages p s = Some (ret, s') ∧ holding s0 s' p n' cs ∧
    sm_sgts s' = sm_sgts s0 ∧ sm_bufs s' = sm_bufs s ∧
    (sm_protected s' = sm_protected s0 ∨ refused).
Proof.
  intros Hh Hl Hp. pose proof (holding_node _ _ _ _ _ Hh) as Hn. unfold hgsl_unlock_pages.
  rewrite (bind_run _ _ _ _ _ (node_run _ _ _ Hn)). unfold locked in Hl.
  destruct (mn_sgt n) as [| |g] eqn:Eg; [|done|].
  { destruct Hl as [? ?]. eexists _, s, n. split_and!; auto. }
  destruct Hl as (segments & Esg & Eg0 & Er & _ & Ec & Epr).
  rewrite (bind_run _ _ s segments s).
  2:{ unfold sg_table, mbind, M_bind, gets. cbn. by rewrite Esg, lookup_insert_eq. }
  destruct (hyp_assign_run segments false s) as (ret & b & E & Hb).
  rewrite (bind_run _ _ _ _ _ E). set (s1 := s <| sm_clock ::= S |> <| sm_protected := b |>).
  assert (sm_nodes s1 !! p = Some n) as Hn1 by done.
  rewrite (bind_run _ _ _ _ _ (set_node_run _ _ _ _ Hn1)).
  set (n1 := n <| mn_dma_buf := NULL |>). set (s2 := s1 <| sm_nodes ::= <[p := n1]> |>).
  rewrite (bind_run _ _ _ _ _ (put_last_sgt_run p n1 g segments s2 (mret tt) (lookup_insert_eq _ _ _)
    Eg Er ltac:(by cbn; rewrite Esg, lookup_insert_eq))).
  eexists _, _, _. split; [done|]. split_and!.
  - eapply holding_update; [exact Hh|cbn; by rewrite insert_insert_eq, (ho_nodes _ _ _ _ _ Hh), insert_insert_eq|done..].
  - cbn. rewrite Esg. by apply delete_insert_id.
  - done.
  - cbn. destruct Hb as [[_ ->]|(_ & ? & _)]; [left|by right]. rewrite Epr, Ec.
    assert (sm_protected s0 ## list_to_set ((chunk_pages cs).*1)) as Hd.
    { intros b' Hb' Hin%elem_of_list_to_set. apply list_elem_of_fmap in Hin as (q & -> & Hq).
      apply chunk_pages_elem in Hq as (c & Hc & E' & _). rewrite E' in Hb'.
      by apply (ho_fresh _ _ _ _ _ Hh c Hc). }
    apply set_eq. intros x. specialize (Hd x). rewrite elem_of_difference, elem_of_union.
    naive_solver.
Qed.

Lemma free_actual_run s0 s p n cs :
  holding s0 s p n cs → locked s0 s n cs → sm_bufs s = sm_bufs s0 →
  ∃ s2, hgsl_mem_free_actual p s = Some (tt, s2) ∧ restored s0 s2 p ∧
    (sm_protected s2 = sm_protected s0 ∨ refused).
Proof.
  intros Hh Hl Hb. pose proof (holding_node _ _ _ _ _ Hh) as Hn. unfold hgsl_mem_free_actual.
  rewrite (bind_run _ _ _ _ _ (node_run _ _ _ Hn)).
  destruct (has_flag (mn_flags n) GSL_MEMFLAGS_PROTECTED) eqn:Hp.
  - destruct (unlock_run _ _ _ _ _ Hh Hl Hp) as (ret & s1 & n1 & E & Hh1 & Hg & Hb1 & Hpr).
    rewrite (bind_run _ _ s tt s1) by (by rewrite (bind_run _ _ _ _ _ E)).
    destruct (free_tail_run _ _ _ _ _ Hh1 Hg ltac:(congruence)) as (s2 & E2 & Hr & Hpr2).
    exists s2. split; [done|]. split; [done|]. destruct Hpr; [left; congruence|by right].
  - rewrite (bind_run _ _ s tt s) by done. unfold locked in Hl.
    destruct (mn_sgt n) as [| |g]; [|done|destruct Hl as (? & _ & _ & _ & ? & _); congruence].
    destruct Hl as [Hg Hpr].
    destruct (free_tail_run _ _ _ _ _ Hh Hg Hb) as (s2 & E2 & Hr & Hpr2).
    exists s2. split; [done|]. split; [done|]. left. congruence.
Qed.

Lemma sharedmem_free_run s0 s p n cs :
  holding s0 s p n cs → locked s0 s n cs → exported s0 s p n →
  ∃ s2, hgsl_sharedmem_free (Some p) s = Some (tt, s2) ∧ restored s0 s2 p ∧
    (sm_protected s2 = sm_protected s0 ∨ refused).
Proof.
  intros Hh Hl Hx. pose proof (holding_node _ _ _ _ _ Hh) as Hn. unfold hgsl_sharedmem_free.
  assert (hgsl_put_sgt p true s = Some (tt, s)) as E.
  { unfold hgsl_put_sgt. rewrite (bind_run _ _ _ _ _ (node_run _ _ _ Hn)).
    by rewrite (ho_sgt_ext _ _ _ _ _ Hh). }
  rewrite (bind_run _ _ _ _ _ E), (bind_run _ _ _ _ _ (node_run _ _ _ Hn)). unfold exported in Hx.
  destruct (mn_dma_buf n) as [| |b]; [|done|]; [by eapply free_actual_run|].
  destruct Hx as [Eb Eb0]. unfold dma_buf_put.
  rewrite (bind_run _ _ s (Some {| db_refs := 1; db_priv := Some p |}) s)
    by (unfold gets; by rewrite Eb, lookup_insert_eq).
  rewrite (bind_run _ _ s {| db_refs := 1; db_priv := Some p |} s) by done.
  cbn [db_refs db_priv]. change (1 =? 1) with true. cbv iota.
  rewrite (bind_run _ _ s tt (s <| sm_bufs ::= delete b |>)) by done.
  eapply free_actual_run; [|exact Hl|cbn; rewrite Eb; by apply delete_insert_id].
  eapply holding_update; [exact Hh|exact (ho_nodes _ _ _ _ _ Hh)|done..].
Qed.

(** ** Allocation *)

Lemma alloc_pages_loop_run o : ∀ s,
  ∃ r t, alloc_pages_loop o s = Some (r,
    match r with
    | None => s <| sm_clock := t |>
    | Some (b, o') => s <| sm_next ::= Pos.succ |> <| sm_blocks ::= <[sm_next s := o']> |>
                        <| sm_clock := t |>
    end) ∧ ∀ b o', r = Some (b, o') → b = sm_next s.
Proof.
  induction o as [|o IH]; intros s; cbn [alloc_pages_loop];
    unfold alloc_pages, ask, fresh, mbind, M_bind, gets, modify; cbn;
    destruct (shm_alloc_pages (sm_clock s) _); cbn.
  - eexists (Some (_, _)), _. split; [done|]. by intros ?? [= <- <-].
  - by eexists None, _.
  - eexists (Some (_, _)), _. split; [done|]. by intros ?? [= <- <-].
  - destruct (IH (s <| sm_clock ::= S |>)) as (r & t & E & Hr). exists r, t.
    split; [|done]. etransitivity; [exact E|]. by destruct r as [[]|].
Qed.

Lemma grown_clock s0 s cs t l : grown s0 s cs → grown s0 (s <| sm_clock := t |> <| sm_cache_log := l |>) cs.
Proof.
  intros [[] ].
  split; [split|..]; try done.
Qed.

Lemma shm_ok_new (A : Type) (m : gmap ptr A) (p : ptr) x :
  (∀ q, is_Some (m !! q) → (q < p)%positive) →
  ∀ q, is_Some (<[p := x]> m !! q) → (q < Pos.succ p)%positive.
Proof.
  intros Hm q Hq. destruct (decide (q = p)) as [->|]; [lia|].
  rewrite lookup_insert_ne in Hq by done. specialize (Hm q Hq). lia.
Qed.

Lemma shm_ok_old (A : Type) (m : gmap ptr A) (p : ptr) :
  (∀ q, is_Some (m !! q) → (q < p)%positive) →
  (∀ q, is_Some (m !! q) → (q < Pos.succ p)%positive) ∧ m !! p = None.
Proof.
  intros Hm. split; [intros q Hq; specialize (Hm q Hq); lia|].
  destruct (m !! p) eqn:E; [|done]. specialize (Hm p ltac:(eauto)). lia.
Qed.

Lemma grown_block s0 s cs o k t l :
  shm_ok s0 → grown s0 s cs →
  grown s0 (s <| sm_next ::= Pos.succ |> <| sm_blocks ::= <[sm_next s := o]> |>
              <| sm_reclaimable ::= λ r, r + 2 ^ Z.of_nat o |>
              <| sm_clock := t |> <| sm_cache_log := l |>)
    (cs ++ [{| ck_block := sm_next s; ck_order := o; ck_count := k |}]).
Proof.
  intros H0 [[] ].
  destruct (shm_ok_old _ _ _ so_blocks0) as [_ Hnew].
  assert (sm_next s ∉ ck_block <$> cs) as Hn.
  { intros (c & E & Hc)%list_elem_of_fmap. destruct (gr_blocks0 c Hc) as [Hb _]. congruence. }
  split; try done.
  - split; cbn; [by apply shm_ok_old|by apply shm_ok_new|by apply shm_ok_old|by apply shm_ok_old|].
    intros q Hq. specialize (so_protected0 q Hq). lia.
  - cbn. lia.
  - intros c [Hc| ->%list_elem_of_singleton]%elem_of_app; cbn.
    + destruct (gr_blocks0 c Hc). rewrite lookup_insert_ne; [done|]. congruence.
    + rewrite lookup_insert_eq. split; [done|]. by rewrite <- gr_others0.
  - intros b Hb. rewrite fmap_app, elem_of_app in Hb. cbn in *.
    rewrite lookup_insert_ne by set_solver. apply gr_others0. tauto.
  - rewrite fmap_app. apply NoDup_app. split_and!; [done| |apply NoDup_singleton]. set_solver.
  - intros c [Hc| ->%list_elem_of_singleton]%elem_of_app; [by apply gr_fresh0|]. cbn.
    intros Hp. rewrite <- gr_protected0 in Hp. specialize (so_protected0 _ Hp). lia.
  - cbn -[Z.pow]. rewrite chunk_total_app. cbn -[Z.pow]. lia.
Qed.

Lemma hgsl_alloc_pages_run s0 s cs req :
  shm_ok s0 → grown s0 s cs → 0 < req →
  ∃ pages s', hgsl_alloc_pages req s = Some (pages, s') ∧
    (pages = [] ∧ grown s0 s' cs ∨
     ∃ c, pages = chunk_pages [c] ∧ grown s0 s' (cs ++ [c]) ∧
       (0 < ck_count c ≤ 2 ^ ck_order c)%nat ∧ Z.of_nat (ck_count c) ≤ req ∧
       (full c ∨ Z.of_nat (ck_count c) = req)).
Proof.
  intros H0 Hg Hreq. unfold hgsl_alloc_pages.
  destruct (alloc_pages_loop_run (get_order req) s) as (r & t & E & Hr).
  rewrite (bind_run _ _ _ _ _ E). destruct r as [[b o]|].
  2:{ eexists _, _. split; [done|]. left. split; [done|].
      by apply (grown_clock _ _ _ t (sm_cache_log s)) in Hg. }
  rewrite (Hr b o eq_refl). set (k := if req <? 2 ^ Z.of_nat o then req else 2 ^ Z.of_nat o).
  assert (2 ^ Z.of_nat o = Z.of_nat (2 ^ o)) as Ep by (by rewrite Nat2Z.inj_pow).
  assert (0 < k ≤ req ∧ k ≤ Z.of_nat (2 ^ o) ∧ (k = Z.of_nat (2 ^ o) ∨ k = req)) as (Hk & Hk2 & Hk3).
  { pose proof (Nat.pow_nonzero 2 o). subst k. destruct (Z.ltb_spec req (2 ^ Z.of_nat o)); lia. }
  set (c := {| ck_block := sm_next s; ck_order := o; ck_count := Z.to_nat k |}).
  assert (pages_of (sm_next s) (Z.to_nat k) ≠ []) as Hne.
  { intros E'. apply (f_equal length) in E'. rewrite pages_of_length in E'. cbn in E'. lia. }
  unfold _dma_cache_op. rewrite bool_decide_eq_false_2 by exact Hne.
  change (GSL_CACHEFLAGS_FLUSH =? GSL_CACHEFLAGS_FLUSH) with true. cbv iota zeta.
  set (l := [SyncForDevice (pages_of (sm_next s) (Z.to_nat k)); SyncForCpu (pages_of (sm_next s) (Z.to_nat k))]).
  eexists _, _. split; [reflexivity|]. right. exists c.
  unfold chunk_pages. cbn [mbind list_bind c ck_block ck_order ck_count]. rewrite app_nil_r.
  split; [done|]. split.
  - exact (grown_block s0 s cs o (Z.to_nat k) t (sm_cache_log s ++ l) H0 Hg).
  - unfold full, c; cbn. lia.
Qed.

(** Pages and missing pages add up; when some are missing every block is used up. *)
Lemma sharedmem_loop_run s0 m : ∀ req cs s nents,
  shm_ok s0 → grown s0 s cs → Forall full cs → 0 ≤ req ≤ Z.of_nat m →
  ∃ cs' nents' missing s',
    sharedmem_loop m req (chunk_pages cs) nents s =
      Some ((chunk_pages cs', nents', missing), s') ∧
    grown s0 s' cs' ∧ full_but_last cs' ∧ 0 ≤ missing ∧
    missing + Z.of_nat (length (chunk_pages cs')) = req + Z.of_nat (length (chunk_pages cs)).
Proof.
  induction m as [|m IH]; intros req cs s nents H0 Hg Hf Hreq; cbn [sharedmem_loop].
  { rewrite (proj2 (Z.leb_le _ _)) by lia. exists cs, nents, req, s.
    split_and!; try done; [by apply full_but_last_full|lia]. }
  destruct (Z.leb_spec req 0).
  { exists cs, nents, req, s. split_and!; try done; [by apply full_but_last_full|lia]. }
  destruct (hgsl_alloc_pages_run s0 s cs req H0 Hg ltac:(lia)) as (pages & s1 & E & Hcase).
  rewrite (bind_run _ _ _ _ _ E). destruct Hcase as [[-> Hg1]|(c & -> & Hg1 & Hc & Hle & Hfull)].
  { exists cs, nents, req, s1. split_and!; try done; [by apply full_but_last_full|lia]. }
  assert (length (chunk_pages [c]) = ck_count c) as El.
  { unfold chunk_pages. cbn. by rewrite app_nil_r, pages_of_length. }
  rewrite bool_decide_eq_false_2 by (intros E'; rewrite E' in El; cbn in El; lia).
  rewrite El, <- chunk_pages_app. destruct Hfull as [Hfull|Hall].
  - destruct (IH (req - Z.of_nat (ck_count c)) (cs ++ [c]) s1 (nents + 1) H0 Hg1
      ltac:(by apply Forall_app; split; [|apply Forall_singleton]) ltac:(lia))
      as (cs' & nents' & missing & s' & E' & ? & ? & ? & Hsum).
    exists cs', nents', missing, s'. split_and!; try done.
    rewrite chunk_pages_app, length_app, El in Hsum. lia.
  - exists (cs ++ [c]), (nents + 1), 0, s1. split_and!; try done; [|by apply full_but_last_app|].
    + replace (req - Z.of_nat (ck_count c)) with 0 by lia. by destruct m.
    + rewrite chunk_pages_app, length_app, El. lia.
Qed.

Lemma holding_nothing s s' p n n' :
  sm_nodes s !! p = Some n → untouched n → mn_pages n' = None → mn_page_count n' = 0 →
  mn_sgt_ext n' = NULL →
  sm_nodes s' = <[p := n']> (sm_nodes s) → sm_blocks s' = sm_blocks s →
  sm_reclaimable s' = sm_reclaimable s → sm_attached s' = sm_attached s →
  sm_vmaps s' = sm_vmaps s → holding s s' p n' [].
Proof.
  intros Hn Hu E1 E2 E3 Es Eb Er Ea Ev. split; rewrite ?E1, ?E2, ?Es, ?Eb, ?Er; try done.
  - intros c Hc. by apply elem_of_nil in Hc.
  - constructor.
  - cbn. lia.
  - intros c Hc. by apply elem_of_nil in Hc.
Qed.

Lemma holding_grown s0 s p n cs s' n' :
  grown s0 s cs → full_but_last cs → mn_pages n' = Some (chunk_pages cs) →
  mn_page_count n' = Z.of_nat (length (chunk_pages cs)) → mn_sgt_ext n' = NULL →
  sm_nodes s0 !! p = Some n → s' = s <| sm_nodes ::= <[p := n']> |> → holding s0 s' p n' cs.
Proof.
  intros [] Hf Hp Hc He Hn ->. split; cbn; rewrite ?Hp; try done. by rewrite gr_nodes0.
Qed.

(** The first table of a node that is not exported. *)
Lemma get_sgt_run s p n :
  sm_nodes s !! p = Some n → mn_sgt n = NULL → mn_dma_buf n = NULL →
  mn_page_count n = Z.of_nat (length (default [] (mn_pages n))) →
  ∃ t, (∃ e, e ≠ 0 ∧ hgsl_get_sgt_internal p s = Some (ERR_PTR e, s <| sm_clock := t |>)) ∨
    ∃ segments, concat segments = default [] (mn_pages n) ∧
      hgsl_get_sgt_internal p s = Some (PTR (sm_next s),
        s <| sm_clock := t |> <| sm_next ::= Pos.succ |>
          <| sm_sgts ::= <[sm_next s := segments]> |>
          <| sm_nodes ::= <[p := n <| mn_sgt := PTR (sm_next s) |> <| mn_sgt_refcount := 1 |>]> |>).
Proof.
  intros Hn Hg Hd Hc. unfold hgsl_get_sgt_internal. rewrite (bind_run _ _ _ _ _ (node_run _ _ _ Hn)).
  assert (s = s <| sm_clock := sm_clock s |>) as Hs by (by destruct s).
  destruct (mn_pages n) as [pages|].
  2:{ eexists. left. eexists. split; [|by rewrite Hs at 1]. done. }
  destruct (Z.eqb_spec (mn_page_count n) 0).
  { eexists. left. eexists. split; [|by rewrite Hs at 1]. done. }
  rewrite Hg, Hd. unfold ask.
  rewrite (bind_run _ _ s (shm_malloc (sm_clock s)) (s <| sm_clock ::= S |>)) by done.
  destruct (shm_malloc (sm_clock s)).
  2:{ eexists. left. eexists. split; [|reflexivity]. done. }
  cbn [negb]. set (s1 := s <| sm_clock ::= S |>).
  rewrite (bind_run _ _ s1 (shm_sg_alloc (sm_clock s1)) (s1 <| sm_clock ::= S |>)) by done.
  destruct (Z.eqb_spec (shm_sg_alloc (sm_clock s1)) 0) as [_|Hne].
  2:{ eexists. left. eexists. split; [exact Hne|reflexivity]. }
  cbn [negb]. set (s2 := s1 <| sm_clock ::= S |>).
  cbn [default from_option id] in Hc. rewrite Hc, Nat2Z.id, take_ge by lia.
  eexists. right. exists (shm_segments (sm_clock s2) pages). split; [apply shm_segments_concat|].
  set (segments := shm_segments (sm_clock s2) pages). set (s3 := s2 <| sm_clock ::= S |>).
  rewrite (bind_run _ _ s2 segments s3) by done.
  set (s4 := s3 <| sm_next ::= Pos.succ |>). rewrite (bind_run _ _ s3 (sm_next s) s4) by done.
  set (s5 := s4 <| sm_sgts ::= <[sm_next s := segments]> |>).
  rewrite (bind_run _ _ s4 tt s5) by done.
  rewrite (bind_run _ _ s5 _ _ (set_node_run p _ s5 n Hn)). reflexivity.
Qed.

(** Taking pages away from this system, before the node is exported. *)
Lemma lock_run s0 s p n cs :
  holding s0 s p n cs → mn_sgt n = NULL → mn_dma_buf n = NULL → shm_ok s0 →
  (sm_next s0 ≤ sm_next s)%positive →
  sm_sgts s = sm_sgts s0 → sm_protected s = sm_protected s0 →
  has_flag (mn_flags n) GSL_MEMFLAGS_PROTECTED = true →
  ∃ ret s' n', hgsl_lock_pages p s = Some (ret, s') ∧ holding s0 s' p n' cs ∧
    locked s0 s' n' cs ∧ sm_bufs s' = sm_bufs s ∧ (sm_next s ≤ sm_next s')%positive ∧
    n' = n <| mn_sgt := mn_sgt n' |> <| mn_sgt_refcount := mn_sgt_refcount n' |> ∧
    (ret = 0 → mn_sgt n' ≠ NULL).
Proof.
  intros Hh Hg Hd H0 Hle Esg Epr Hp. pose proof (holding_node _ _ _ _ _ Hh) as Hn.
  assert (∀ s', sm_nodes s' = sm_nodes s → sm_blocks s' = sm_blocks s →
    sm_reclaimable s' = sm_reclaimable s → sm_attached s' = sm_attached s →
    sm_vmaps s' = sm_vmaps s → sm_sgts s' = sm_sgts s → sm_protected s' = sm_protected s →
    holding s0 s' p n cs ∧ locked s0 s' n cs) as Hsame.
  { intros s' E1 E2 E3 E4 E5 E6 E7. split.
    - eapply holding_update; [exact Hh|by rewrite E1, (ho_nodes _ _ _ _ _ Hh)|done..].
    - unfold locked. rewrite Hg. split; congruence. }
  assert (n = n <| mn_sgt := mn_sgt n |> <| mn_sgt_refcount := mn_sgt_refcount n |>) as Hnn
    by (by destruct n).
  unfold hgsl_lock_pages.
  destruct (get_sgt_run s p n Hn Hg Hd ltac:(by rewrite (ho_pages _ _ _ _ _ Hh), (ho_count _ _ _ _ _ Hh)))
    as (t & [(e & He & E)|(segments & Ec & E)]); rewrite (bind_run _ _ _ _ _ E).
  { destruct (Hsame (s <| sm_clock := t |>)) as [Hh' Hl']; try done.
    eexists _, _, n. split; [done|]. split_and!; done. }
  set (g := sm_next s) in *. set (n1 := n <| mn_sgt := PTR g |> <| mn_sgt_refcount := 1 |>) in *.
  set (s1 := s <| sm_clock := t |> <| sm_next ::= Pos.succ |> <| sm_sgts ::= <[g := segments]> |>
               <| sm_nodes ::= <[p := n1]> |>) in *.
  assert (sm_sgts s1 !! g = Some segments) as Eg1 by apply lookup_insert_eq.
  assert (sm_nodes s1 !! p = Some n1) as Hn1 by apply lookup_insert_eq.
  assert (sm_sgts s0 !! g = None) as Eg0.
  { destruct (sm_sgts s0 !! g) eqn:Eq; [|done].
    pose proof (so_sgts _ H0 g ltac:(eauto)). unfold g in *. lia. }
  rewrite (bind_run _ _ s1 segments s1) by (unfold sg_table, mbind, M_bind, gets; cbn; by rewrite lookup_insert_eq).
  destruct (hyp_assign_run segments true s1) as (ret & b & E2 & Hb). rewrite (bind_run _ _ _ _ _ E2).
  set (s2 := s1 <| sm_clock ::= S |> <| sm_protected := b |>).
  destruct Hb as [[-> Hb]|(Hret & _ & Hb)].
  - exists 0, s2, n1. split; [done|]. split_and!; try done.
    + eapply holding_update; [exact Hh| |done..]. cbn. by rewrite (ho_nodes _ _ _ _ _ Hh), insert_insert_eq.
    + exists segments. cbn. rewrite Esg. split_and!; try done.
      * rewrite Ec. apply (ho_pages _ _ _ _ _ Hh).
      * rewrite Hb, Ec, (ho_pages _ _ _ _ _ Hh). cbn. by rewrite Epr.
    + cbn. lia.
  - rewrite (proj2 (Z.eqb_neq _ _)) by done. cbn [negb].
    set (n2 := n1 <| mn_sgt_refcount := 0 |> <| mn_sgt := NULL |>).
    set (s3 := s2 <| sm_sgts ::= delete g |> <| sm_nodes ::= <[p := n2]> |>).
    exists ret, s3, n2.
    rewrite (bind_run _ _ s2 tt s3).
    2:{ unfold hgsl_put_sgt_internal.
        rewrite (bind_run _ _ s2 n1 s2) by exact (node_run p s2 n1 Hn1).
        rewrite (put_last_sgt_run p n1 g segments s2 _ Hn1 eq_refl eq_refl Eg1).
        change (mn_dma_buf n1) with (mn_dma_buf n). rewrite Hd. reflexivity. }
    split; [done|]. split_and!; try done.
    + eapply holding_update; [exact Hh| |done..]. cbn.
      by rewrite (ho_nodes _ _ _ _ _ Hh), !insert_insert_eq.
    + unfold locked. cbn. rewrite Esg, Hb. split; [by apply delete_insert_id|by rewrite <- Epr].
    + cbn. lia.
Qed.

Lemma export_run s0 s p n cs :
  holding s0 s p n cs → locked s0 s n cs → mn_dma_buf n = NULL → shm_ok s0 →
  (sm_next s0 ≤ sm_next s)%positive → sm_bufs s = sm_bufs s0 →
  ∃ ret s' n', hgsl_export_dma_buf p s = Some (ret, s') ∧ holding s0 s' p n' cs ∧
    locked s0 s' n' cs ∧ exported s0 s' p n' ∧ n' = n <| mn_dma_buf := mn_dma_buf n' |> ∧
    (ret = 0 → mn_dma_buf n' ≠ NULL).
Proof.
  intros Hh Hl Hd H0 Hle Hb. pose proof (holding_node _ _ _ _ _ Hh) as Hn.
  unfold hgsl_export_dma_buf, ask.
  rewrite (bind_run _ _ s (shm_dma_buf_export (sm_clock s)) (s <| sm_clock ::= S |>)) by done.
  set (s1 := s <| sm_clock ::= S |>). destruct (shm_dma_buf_export (sm_clock s)); cbn [negb].
  - set (b := sm_next s). set (s2 := s1 <| sm_next ::= Pos.succ |>).
    rewrite (bind_run _ _ s1 b s2) by done.
    set (s3 := s2 <| sm_bufs ::= <[b := {| db_refs := 1; db_priv := Some p |}]> |>).
    rewrite (bind_run _ _ s2 tt s3) by done.
    rewrite (bind_run _ _ _ _ _ (set_node_run p _ s3 n Hn)).
    eexists 0, _, (n <| mn_dma_buf := PTR b |>). split; [reflexivity|]. split_and!; try done.
    + eapply holding_update; [exact Hh| |done..].
      cbn. by rewrite (ho_nodes _ _ _ _ _ Hh), insert_insert_eq.
    + cbn. rewrite Hb. split; [done|]. destruct (sm_bufs s0 !! b) eqn:E; [|done].
      pose proof (so_bufs _ H0 b ltac:(eauto)). subst b. lia.
  - exists (- ENOMEM), s1, n. split; [done|]. split_and!; try done.
    + eapply holding_update; [exact Hh|exact (ho_nodes _ _ _ _ _ Hh)|done..].
    + unfold exported. by rewrite Hd.
    + by destruct n.
Qed.

Lemma u32_set_low z size : is_u32 size → u32 (z - u32 z + size) = size.
Proof.
  intros Hs. unfold u32.
  replace (z - z mod 4294967296 + size) with (size + z / 4294967296 * 4294967296)
    by (rewrite (Z_div_mod_eq_full z 4294967296) at 2; lia).
  rewrite Z_mod_plus_full. by apply Z.mod_small.
Qed.

(** What an allocation leaves, whether it succeeds or not. *)
Lemma sharedmem_alloc_run s p n sizebytes flags :
  shm_ok s → sm_nodes s !! p = Some n → untouched n → is_u32 sizebytes →
  has_flag (mn_flags n) GSL_MEMFLAGS_PROTECTED = has_flag flags GSL_MEMFLAGS_PROTECTED →
  ∃ ret s' n' cs, hgsl_sharedmem_alloc sizebytes flags p s = Some (ret, s') ∧
    holding s s' p n' cs ∧ locked s s' n' cs ∧ exported s s' p n' ∧
    (ret = 0 → mn_dma_buf n' ≠ NULL ∧ mn_flags n' = mn_flags n ∧
      mn_pages n' = Some (chunk_pages cs) ∧
      Z.of_nat (length (chunk_pages cs)) = PAGE_ALIGN sizebytes / PAGE_SIZE ∧
      u32 (mn_size64 n') = PAGE_ALIGN sizebytes ∧
      mn_vmapping n' = mn_vmapping n ∧ mn_vmap_count n' = mn_vmap_count n).
Proof.
  intros Hok Hn Hu Hsz Hf. unfold hgsl_sharedmem_alloc.
  assert (∀ s' n', sm_nodes s' = <[p := n']> (sm_nodes s) → sm_blocks s' = sm_blocks s →
    sm_reclaimable s' = sm_reclaimable s → sm_attached s' = sm_attached s →
    sm_vmaps s' = sm_vmaps s → sm_sgts s' = sm_sgts s → sm_protected s' = sm_protected s →
    sm_bufs s' = sm_bufs s → mn_pages n' = None → mn_page_count n' = 0 → mn_sgt_ext n' = NULL →
    mn_sgt n' = NULL → mn_dma_buf n' = NULL →
    holding s s' p n' [] ∧ locked s s' n' [] ∧ exported s s' p n') as Hnothing.
  { intros. unfold locked, exported. split; [by eapply holding_nothing|].
    by repeat match goal with E : _ = NULL |- _ => rewrite E; clear E end. }
  destruct Hu.
  destruct ((sizebytes =? 0) || (U32_MAX - PAGE_SIZE <? sizebytes)) eqn:Eb.
  { exists (- EINVAL), s, n, []. destruct (Hnothing s n) as (? & ? & ?); try done.
    by rewrite insert_id. }
  apply orb_false_iff in Eb as [Eb1%Z.eqb_neq Eb2%Z.ltb_ge]. unfold U32_MAX, PAGE_SIZE in Eb2.
  destruct (ALIGN_spec sizebytes PAGE_SIZE ltac:(done)) as [HA HA2]. fold (PAGE_ALIGN sizebytes) in HA, HA2.
  unfold is_u32, PAGE_SIZE in *. set (A := PAGE_ALIGN sizebytes) in *.
  rewrite (u32_small A) by (unfold is_u32; lia). rewrite (proj2 (Z.ltb_ge _ _)) by lia.
  unfold PAGE_SHIFT. rewrite Z.shiftr_div_pow2 by lia. change (2 ^ 12) with 4096.
  destruct HA2 as [k HA2]. rewrite HA2, Z.div_mul in * by done.
  unfold ask. rewrite (bind_run _ _ s (shm_malloc (sm_clock s)) (s <| sm_clock ::= S |>)) by done.
  set (s1 := s <| sm_clock ::= S |>). assert (sm_nodes s1 !! p = Some n) as Hn1 by done.
  destruct (shm_malloc (sm_clock s)); cbn [negb].
  2:{ rewrite (bind_run _ _ _ _ _ (set_node_run p _ s1 n Hn1)).
      eexists (- ENOMEM), _, _, []. split; [reflexivity|].
      edestruct Hnothing as (H1 & H2 & H3); [..|split; [exact H1|]]; try done. }
  assert (grown s s1 []) as Hg.
  { destruct Hok. split; try done; cbn; try lia; [intros c Hc; by apply elem_of_nil in Hc|constructor|].
    intros c Hc. by apply elem_of_nil in Hc. }
  destruct (sharedmem_loop_run s (Z.to_nat k) k [] s1 0 Hok Hg ltac:(by constructor) ltac:(lia))
    as (cs & nents & missing & s2 & E & Hg2 & Hfull & Hmiss & Hsum).
  cbn [length chunk_pages mbind list_bind] in Hsum.
  rewrite (bind_run _ _ s1 (chunk_pages cs, nents, missing) s2) by exact E.
  assert (sm_nodes s2 !! p = Some n) as Hn2 by (by rewrite (gr_nodes _ _ _ Hg2)).
  rewrite (bind_run _ _ _ _ _ (set_node_run p _ s2 n Hn2)).
  set (n3 := set_size _ _). set (s3 := s2 <| sm_nodes ::= <[p := n3]> |>).
  assert (holding s s3 p n3 cs) as Hh by (by eapply holding_grown).
  assert (mn_sgt n3 = NULL ∧ mn_dma_buf n3 = NULL ∧ mn_flags n3 = mn_flags n) as (Eg3 & Ed3 & Ef3) by done.
  assert (locked s s3 n3 cs) as Hl.
  { unfold locked. rewrite Eg3. split; [apply (gr_sgts _ _ _ Hg2)|apply (gr_protected _ _ _ Hg2)]. }
  assert (sm_bufs s3 = sm_bufs s) as Hbufs by apply (gr_bufs _ _ _ Hg2).
  assert (sm_next s ≤ sm_next s3)%positive as Hnext by apply (gr_next _ _ _ Hg2).
  destruct (Z.eqb_spec missing 0) as [->|Hm0]; cbn [negb].
  2:{ exists (- ENOMEM), s3, n3, cs. split_and!; try done. unfold exported. by rewrite Ed3. }
  assert (Z.of_nat (length (chunk_pages cs)) = k) as Hlen by lia.
  assert (u32 (mn_size64 n3) = k * 4096) as Hsize.
  { unfold n3, set_size. apply u32_set_low. unfold is_u32. lia. }
  assert (∃ ret s4 n4, (if has_flag flags GSL_MEMFLAGS_PROTECTED then hgsl_lock_pages p else mret 0) s3 =
      Some (ret, s4) ∧ holding s s4 p n4 cs ∧ locked s s4 n4 cs ∧ sm_bufs s4 = sm_bufs s ∧
      (sm_next s ≤ sm_next s4)%positive ∧
      n4 = n3 <| mn_sgt := mn_sgt n4 |> <| mn_sgt_refcount := mn_sgt_refcount n4 |>)
    as (ret & s4 & n4 & E4 & Hh4 & Hl4 & Hb4 & Hx4 & En4).
  { destruct (has_flag flags GSL_MEMFLAGS_PROTECTED) eqn:Ep.
    - unfold locked in Hl. rewrite Eg3 in Hl.
      destruct (lock_run s s3 p n3 cs Hh Eg3 Ed3 Hok Hnext (proj1 Hl) (proj2 Hl)) as
        (ret & s4 & n4 & E4 & ? & ? & Eb & ? & En4 & _); [congruence|].
      exists ret, s4, n4. split_and!; try done; [congruence|lia].
    - exists 0, s3, n3. split_and!; try done. }
  rewrite (bind_run _ _ _ _ _ E4).
  assert (mn_dma_buf n4 = NULL) as Ed4 by (by rewrite En4).
  destruct (Z.eqb_spec ret 0) as [->|Hret]; cbn [negb].
  2:{ exists ret, s4, n4, cs. split_and!; try done. unfold exported. by rewrite Ed4. }
  destruct (export_run s s4 p n4 cs Hh4 Hl4 Ed4 Hok Hx4 Hb4) as
    (ret & s5 & n5 & E5 & Hh5 & Hl5 & Hexp & En5 & Hd5).
  exists ret, s5, n5, cs. split_and!; try done. intros Hret.
  split_and!; try done; [by apply Hd5|..]; by rewrite En5, En4.
Qed.
(** ** Cache maintenance *)

Lemma dma_cache_op_run pages op s :
  pages ≠ [] →
  _dma_cache_op pages op s = Some (tt, s <| sm_cache_log ::= λ l, l ++ cache_events op pages |>).
Proof.
  intros Hp. unfold _dma_cache_op, cache_events. rewrite bool_decide_eq_false_2 by done.
  repeat case_match; try done. destruct s; cbn. by rewrite app_nil_r.
Qed.

Lemma cache_op_loop_run op segments : ∀ pg_offset pg_size s,
  0 ≤ pg_offset → 0 < pg_size → pg_offset + pg_size ≤ Z.of_nat (length (concat segments)) →
  ∃ runs, cache_op_loop segments pg_offset pg_size op s =
      Some (tt, s <| sm_cache_log ::= λ l, l ++ (runs ≫= cache_events op) |>) ∧
    concat runs = take (Z.to_nat pg_size) (drop (Z.to_nat pg_offset) (concat segments)).
Proof.
  induction segments as [|seg segments IH]; intros off size s Hoff Hsize Hle; cbn [concat] in *.
  { cbn in Hle. lia. }
  rewrite length_app in Hle. cbn [cache_op_loop].
  destruct (Z.ltb_spec off (Z.of_nat (length seg))) as [Hin|Hout].
  - set (k := Z.min (Z.of_nat (length seg) - off) size).
    set (run := take (Z.to_nat k) (drop (Z.to_nat off) seg)).
    assert (length run = Z.to_nat k) as Hrun.
    { unfold run. rewrite length_take, length_drop. lia. }
    assert (run ≠ []) as Hne by (intros E; rewrite E in Hrun; cbn in Hrun; lia).
    rewrite (bind_run _ _ _ _ _ (dma_cache_op_run run op s Hne)).
    rewrite drop_app_le by lia.
    destruct (Z.eqb_spec (size - k) 0) as [Hz|Hz].
    + exists [run]. split; [cbn [mbind list_bind]; by rewrite app_nil_r|]. cbn [concat].
      rewrite app_nil_r. unfold run. replace size with k by lia. rewrite take_app_le; [done|].
      rewrite length_drop. lia.
    + destruct (IH 0 (size - k) (s <| sm_cache_log ::= λ l, l ++ cache_events op run |>))
        as (runs & E & Hruns); [lia|lia|lia|].
      exists (run :: runs). split.
      * rewrite E. do 2 f_equal. destruct s; cbn. by rewrite <- (assoc_L app).
      * cbn [concat]. rewrite Hruns. change (Z.to_nat 0) with O. rewrite drop_0.
        unfold run. assert (k = Z.of_nat (length (drop (Z.to_nat off) seg))) as Ek
          by (rewrite length_drop; lia).
        rewrite Ek, Nat2Z.id, firstn_all. rewrite take_app_ge by lia. f_equal. f_equal. lia.
  - destruct (IH (off - Z.of_nat (length seg)) size s) as (runs & E & Hruns); [lia..|].
    exists runs. split; [done|]. rewrite Hruns. rewrite drop_app_ge by lia. do 2 f_equal. lia.
Qed.
End run.

(** * Properties *)

(** C6. Nothing is lost on any path: an allocation of any size ends, whatever the kernel
    and the hypervisor answer, and freeing the node afterwards gives back all that it
    had taken - blocks of pages, table, dma-buf, the node itself; its pages are with
    this system again unless the hypervisor has refused to give them back.  When the
    allocation succeeds, the node has the number of pages that cover the size, all
    different, each in a block of its own allocation, and one reference on its dma-buf. *)
Theorem sharedmem_lifecycle `{SharedMem} s p n sizebytes flags :
  shm_ok s → sm_nodes s !! p = Some n → untouched n → is_u32 sizebytes →
  has_flag (mn_flags n) GSL_MEMFLAGS_PROTECTED = has_flag flags GSL_MEMFLAGS_PROTECTED →
  ∃ ret s1 s2, hgsl_sharedmem_alloc sizebytes flags p s = Some (ret, s1) ∧
    hgsl_sharedmem_free (Some p) s1 = Some (tt, s2) ∧ restored s s2 p ∧
    (sm_protected s2 = sm_protected s ∨ refused) ∧
    (ret = 0 → ∃ n1 pages b, sm_nodes s1 !! p = Some n1 ∧ mn_pages n1 = Some pages ∧
      Z.of_nat (length pages) = PAGE_ALIGN sizebytes / PAGE_SIZE ∧ NoDup pages ∧
      (∀ q, q ∈ pages → sm_blocks s !! q.1 = None ∧
         ∃ order, sm_blocks s1 !! q.1 = Some order ∧ (q.2 < 2 ^ order)%nat) ∧
      u32 (mn_size64 n1) = PAGE_ALIGN sizebytes ∧ mn_dma_buf n1 = PTR b ∧
      sm_bufs s1 !! b = Some {| db_refs := 1; db_priv := Some p |}).
Proof.
  intros Hok Hn Hu Hsz Hf.
  destruct (sharedmem_alloc_run s p n sizebytes flags Hok Hn Hu Hsz Hf) as
    (ret & s1 & n1 & cs & E1 & Hh & Hl & Hx & Hret).
  destruct (sharedmem_free_run _ _ _ _ _ Hh Hl Hx) as (s2 & E2 & Hr & Hp).
  exists ret, s1, s2. split_and!; try done. intros ->.
  destruct (Hret eq_refl) as (Hd & _ & Hpg & Hlen & Hsize & _). unfold exported in Hx.
  destruct (mn_dma_buf n1) as [| |b] eqn:Ed; [done|done|].
  exists n1, (chunk_pages cs), b. split_and!; try done.
  - exact (holding_node _ _ _ _ _ Hh).
  - apply chunk_pages_NoDup, (ho_nodup _ _ _ _ _ Hh).
  - intros q (c & Hc & -> & Hq)%chunk_pages_elem. destruct (ho_blocks _ _ _ _ _ Hh c Hc) as [? ?].
    split; [done|]. exists (ck_order c). split; [done|].
    assert (∀ cs, full_but_last cs → c ∈ cs → (ck_count c ≤ 2 ^ ck_order c)%nat) as Hle.
    { clear. intros cs Hf Hc. induction Hc as [|? cs' ? IH]; cbn in Hf; naive_solver lia. }
    pose proof (Hle cs (ho_full _ _ _ _ _ Hh) Hc). lia.
  - by rewrite (proj1 Hx), lookup_insert_eq.
Qed.

(** C28. Cache maintenance covers exactly the range: an operation on a range of bytes of a
    cached buffer is done on the pages that the range touches, each of them once and in
    order, however the kernel has laid the pages out in segments. *)
Theorem cache_op_exact `{SharedMem} s p n sgt segments internal offset size op :
  sm_nodes s !! p = Some n → mn_sgt_ext n = PTR sgt → sm_sgts s !! sgt = Some segments →
  has_flag (mn_flags n) GSL_MEMFLAGS_PROTECTED = false →
  Z.land (mn_flags n) GSL_MEMFLAGS_CACHEMODE_MASK ∈ [GSL_MEMFLAGS_WRITETHROUGH; GSL_MEMFLAGS_WRITEBACK] →
  0 ≤ offset → 0 < size → offset + size ≤ u32 (mn_size64 n) →
  u32 (mn_size64 n) ≤ Z.of_nat (length (concat segments)) * PAGE_SIZE →
  ∃ runs, hgsl_mem_cache_op p internal offset size op s =
      Some (0, s <| sm_cache_log ::= λ l, l ++ (runs ≫= cache_events op) |>) ∧
    concat runs = pages_touched (concat segments) offset size.
Proof.
  intros Hn Hg Hsg Hp Hm Hoff Hsize Hle Hlen. unfold hgsl_mem_cache_op.
  rewrite (bind_run _ _ _ _ _ (node_run _ _ _ Hn)), Hp, bool_decide_eq_true_2 by done.
  cbn [negb]. pose proof (u32_bound (mn_size64 n)) as Hb. unfold is_u32, UINT_MAX in *.
  rewrite (proj2 (Z.eqb_neq size 0)), !(proj2 (Z.ltb_ge UINT_MAX _)) by (unfold UINT_MAX; lia).
  cbn [orb]. rewrite (u64_small (size + offset)) by (unfold is_u64; lia).
  rewrite (proj2 (Z.ltb_ge _ _)) by lia. rewrite Hg. cbn [IS_ERR_OR_NULL].
  rewrite (bind_run _ _ s tt s) by done. rewrite (bind_run _ _ _ _ _ (node_run _ _ _ Hn)), Hg.
  rewrite (bind_run _ _ s segments s) by (unfold sg_table, mbind, M_bind, gets; by rewrite Hsg).
  set (r := offset mod PAGE_SIZE). set (q := offset / PAGE_SIZE).
  assert (offset = PAGE_SIZE * q + r ∧ 0 ≤ r < PAGE_SIZE) as [Eo Hr].
  { split; [by apply Z.div_mod|by apply Z.mod_pos_bound]. }
  set (t := (offset + size - 1) / PAGE_SIZE).
  assert (PAGE_SIZE * t ≤ offset + size - 1 < PAGE_SIZE * t + PAGE_SIZE) as Ht.
  { pose proof (Z.div_mod (offset + size - 1) PAGE_SIZE ltac:(done)) as E.
    pose proof (Z.mod_pos_bound (offset + size - 1) PAGE_SIZE eq_refl). fold t in E. lia. }
  unfold pages_touched. fold q t.
  rewrite (u64_small (size + r)) by (unfold is_u64, UINT_MAX, PAGE_SIZE in *; lia).
  destruct (ALIGN_spec (size + r) PAGE_SIZE ltac:(done)) as [HA [k HA2]].
  fold (PAGE_ALIGN (size + r)) in HA, HA2. rewrite HA2 in *.
  assert (u32 (Z.shiftr offset PAGE_SHIFT) = q) as ->.
  { unfold PAGE_SHIFT. rewrite Z.shiftr_div_pow2 by lia. change (2 ^ 12) with PAGE_SIZE.
    fold q. clearbody q r. apply u32_small. unfold is_u32, PAGE_SIZE, UINT_MAX in *. lia. }
  clearbody q r t. unfold PAGE_SIZE, UINT_MAX in *.
  assert (k = t - q + 1) as -> by lia.
  rewrite (u64_small (_ * _)) by (unfold is_u64; lia).
  unfold PAGE_SHIFT. rewrite Z.shiftr_div_pow2 by lia. change (2 ^ 12) with 4096.
  rewrite Z.div_mul, u32_small by (try done; unfold is_u32; lia).
  destruct (cache_op_loop_run op segments q (t - q + 1) s) as (runs & E & Hruns); [lia..|].
  exists runs. split; [by rewrite (bind_run _ _ _ _ _ E)|]. exact Hruns.
Qed.

(** A descriptor that is not a dma-buf stops the kernel: the error that dma_buf_get
    returns for it is handed to dma_buf_attach. *)
Theorem bad_descriptor_faults `{SharedMem} s p n :
  sm_nodes s !! p = Some n → mn_sgt_iommu n = NULL → mn_dma_buf n = NULL → 0 ≤ mn_fd n →
  mn_attach_iommu n = NULL → shm_dma_buf_get (sm_clock s) (mn_fd n) = None →
  hgsl_get_sgt_iommu p s = None.
Proof.
  intros Hn Hs Hd Hfd Ha Hg. unfold hgsl_get_sgt_iommu.
  rewrite (bind_run _ _ _ _ _ (node_run _ _ _ Hn)), Hs, Hd, (proj2 (Z.ltb_ge _ _)) by done.
  set (s1 := s <| sm_clock ::= S |>).
  rewrite (bind_run _ _ s (ERR_PTR (- EBADF)) s1).
  2: { unfold dma_buf_get, ask. rewrite (bind_run _ _ s None s1); [done|].
       unfold gets, mbind, M_bind. by rewrite Hg. }
  set (n1 := n <| mn_dma_buf_iommu := ERR_PTR (- EBADF) |>).
  set (s2 := s1 <| sm_nodes ::= <[p := n1]> |>).
  rewrite (bind_run _ _ s1 tt s2).
  2: exact (set_node_run _ _ s1 _ Hn).
  assert (sm_nodes s2 !! p = Some n1) as Hn1 by apply lookup_insert_eq.
  rewrite (bind_run _ _ _ _ _ (node_run _ _ _ Hn1)).
  change (mn_attach_iommu n1) with (mn_attach_iommu n). by rewrite Ha.
Qed.

(** So does a buffer to which the device cannot be attached: on the way out the error
    that dma_buf_attach returned is handed to dma_buf_detach. *)
Theorem failed_attach_faults `{SharedMem} s p n b buf :
  sm_nodes s !! p = Some n → mn_sgt_iommu n = NULL → mn_dma_buf n = PTR b →
  sm_bufs s !! b = Some buf → mn_attach_iommu n = NULL →
  shm_dma_buf_attach (sm_clock s) = false →
  hgsl_get_sgt_iommu p s = None.
Proof.
  intros Hn Hs Hd Hb Ha Hg. unfold hgsl_get_sgt_iommu.
  rewrite (bind_run _ _ _ _ _ (node_run _ _ _ Hn)), Hs, Hd.
  set (s1 := s <| sm_bufs ::= <[b := buf <| db_refs ::= Z.succ |>]> |>).
  rewrite (bind_run _ _ s tt s1).
  2: { unfold get_dma_buf, gets, mbind, M_bind. by rewrite Hb. }
  set (n1 := n <| mn_dma_buf_iommu := PTR b |>).
  set (s2 := s1 <| sm_nodes ::= <[p := n1]> |>).
  rewrite (bind_run _ _ s1 tt s2).
  2: exact (set_node_run _ _ s1 _ Hn).
  assert (sm_nodes s2 !! p = Some n1) as Hn1 by apply lookup_insert_eq.
  rewrite (bind_run _ _ _ _ _ (node_run _ _ _ Hn1)).
  change (mn_attach_iommu n1) with (mn_attach_iommu n). rewrite Ha. cbn [IS_ERR_OR_NULL].
  change (mn_dma_buf_iommu n1) with (PTR b).
  set (s3 := s2 <| sm_clock ::= S |>). set (n2 := n1 <| mn_attach_iommu := ERR_PTR (- ENOMEM) |>).
  set (s4 := s3 <| sm_nodes ::= <[p := n2]> |>).
  rewrite (bind_run _ _ s2 tt s4).
  2: { rewrite (bind_run _ _ s2 (ERR_PTR (- ENOMEM)) s3).
       - exact (set_node_run _ _ s3 _ Hn1).
       - unfold dma_buf_attach, ask. rewrite (bind_run _ _ s2 false s3); [done|].
         unfold gets, mbind, M_bind. change (sm_clock s2) with (sm_clock s). by rewrite Hg. }
  assert (sm_nodes s4 !! p = Some n2) as Hn2 by apply lookup_insert_eq.
  rewrite (bind_run _ _ _ _ _ (node_run _ _ _ Hn2)).
  change (mn_attach_iommu n2) with (ERR_PTR (- ENOMEM)). unfold get_sgt_iommu_out.
  cbn [IS_ERR_OR_NULL]. unfold mbind at 1. unfold M_bind at 1.
  rewrite (bind_run _ _ _ _ _ (node_run _ _ _ Hn2)).
  change (mn_attach_iommu n2) with (ERR_PTR (- ENOMEM)).
  by change (mn_dma_buf_iommu n2) with (PTR b).
Qed.

(** * Concrete runs *)

(** A kernel that has blocks of one page and of two pages, and lays each page out in a
    segment of its own. *)
Definition demo_shm : SharedMem := {|
  shm_malloc := λ _, true; shm_alloc_pages := λ _ order, (order <=? 1)%nat;
  shm_sg_alloc := λ _, 0; shm_segments := λ _ pages, (λ q, [q]) <$> pages;
  shm_dma_buf_export := λ _, true; shm_dma_buf_get := λ _ _, None;
  shm_dma_buf_attach := λ _, true; shm_map_attachment := λ _, None;
  shm_hyp_assign := λ _, 0; shm_vmap := λ _, true;
  shm_segments_concat := λ _ pages, ltac:(induction pages; [done|cbn; by f_equal]) |}.

Definition demo_shm_state (n : hgsl_mem_node) : shm := {|
  sm_nodes := {[1%positive := n]}; sm_blocks := ∅; sm_protected := ∅; sm_bufs := ∅;
  sm_sgts := {[2%positive := [[(5%positive, 0%nat); (5%positive, 1%nat)];
                              [(6%positive, 0%nat); (6%positive, 1%nat)]]]};
  sm_attached := ∅; sm_vmaps := ∅; sm_reclaimable := 0; sm_cache_log := [];
  sm_next := 10; sm_clock := 0 |}.

Lemma demo_shm_ok n : shm_ok (demo_shm_state n).
Proof. by split; cbn; intros q; rewrite ?lookup_empty, ?lookup_singleton_Some; try (intros [? E];
  apply lookup_singleton_Some in E as [<- _]; lia); set_solver. Qed.

Lemma sharedmem_lifecycle_witness : let _ := demo_shm in
  ∃ s1 s2, hgsl_sharedmem_alloc 10000 GSL_MEMFLAGS_PROTECTED 1
      (demo_shm_state ((mk_mem_node 0 0) <| mn_flags := GSL_MEMFLAGS_PROTECTED |>)) = Some (0, s1) ∧
    hgsl_sharedmem_free (Some 1%positive) s1 = Some (tt, s2) ∧
    sm_nodes s2 = ∅ ∧ sm_blocks s2 = ∅.
Proof.
  intros D. set (n := (mk_mem_node 0 0) <| mn_flags := GSL_MEMFLAGS_PROTECTED |>).
  destruct (sharedmem_lifecycle (demo_shm_state n) 1 n 10000 GSL_MEMFLAGS_PROTECTED)
    as (ret & s1 & s2 & E1 & E2 & Hr & _);
    [apply demo_shm_ok|done|by split|unfold is_u32; lia|done|].
  exists s1, s2. split; [|split; [done|split]].
  - rewrite E1. do 2 f_equal. vm_compute in E1. by injection E1.
  - rewrite (re_nodes _ _ _ Hr). apply delete_singleton_eq.
  - exact (re_blocks _ _ _ Hr).
Defined.

Lemma cache_op_exact_witness : let _ := demo_shm in
  let n := (mk_mem_node 0 16384) <| mn_flags := GSL_MEMFLAGS_WRITEBACK |>
             <| mn_sgt_ext := PTR 2%positive |> in
  ∃ runs, hgsl_mem_cache_op 1 true 5000 8000 GSL_CACHEFLAGS_FLUSH (demo_shm_state n) =
      Some (0, (demo_shm_state n) <| sm_cache_log := runs ≫= cache_events GSL_CACHEFLAGS_FLUSH |>) ∧
    concat runs = [(5%positive, 1%nat); (6%positive, 0%nat); (6%positive, 1%nat)].
Proof.
  intros D n.
  apply (cache_op_exact (demo_shm_state n) 1 n 2 [[(5%positive, 0%nat); (5%positive, 1%nat)];
     [(6%positive, 0%nat); (6%positive, 1%nat)]] true 5000 8000 GSL_CACHEFLAGS_FLUSH);
    try done; try (vm_compute; congruence). vm_compute. set_solver.
Defined.
