(* ===== verification/State.v ===== *)
(** The driver's data: the structures of hgsl.h, hgsl_drawobj.h and
    hgsl_dispatch.h, the store that holds them, and the kernel services the
    driver calls.

    A pointer is a [positive]; the objects a pointer can name live in the maps
    of [world].  Freeing an object deletes it, so a later dereference faults.
    Calls into the kernel that only have an effect (waking a queue, arming a
    timer, ...) are appended to [w_trace]; calls that return something ask the
    [Kernel] instance, indexed by the number of such calls made so far. *)

From S2P Require Import Prelude.
From S2P Require Import Rbtree.
From S2P Require Import MemTree.

(** * Constants *)

Definition GSL_TIMESTAMP_CONSUMED : Z := 1.
Definition GSL_TIMESTAMP_RETIRED : Z := 2.
Definition GSL_TIMESTAMP_QUEUED : Z := 3.

Definition GSL_CONTEXT_FLAG_USER_GENERATED_TS : Z := 0x80.
Definition GSL_CONTEXT_FLAG_CLIENT_GENERATED_TS : Z := 0x80000000.

Definition GSL_HANDLE_NULL : Z := 0.
Definition GSL_HANDLE_DEV0 : Z := 1.
Definition GSL_HANDLE_DEV1 : Z := 2.

Definition HGSL_DEVICE_NUM : Z := 2.
Definition HGSL_CONTEXT_NUM : Z := 256.
Definition CONTEXT_DRAWQUEUE_SIZE : nat := 128.
Definition ECP_MAX_NUM_IB1 : Z := 2000.
Definition HGSL_MAX_SYNCPOINTS : Z := 32.

Definition CMDOBJ_TYPE : Z := 1.
Definition MARKEROBJ_TYPE : Z := 2.
Definition SYNCOBJ_TYPE : Z := 4.
Definition BINDOBJ_TYPE : Z := 8.
Definition TIMELINEOBJ_TYPE : Z := 16.

(** enum hgsl_drawobj_cmd_priv *)
Definition CMDOBJ_SKIP : Z := 0.
Definition CMDOBJ_MARKER_EXPIRED : Z := 1.

Definition HGSL_DRAWOBJ_MARKER : Z := 0x2.
Definition HGSL_DRAWOBJ_PROFILING : Z := 0x10.
Definition HGSL_DRAWOBJ_SYNC : Z := 0x400.

Definition HGSL_OBJLIST_MEMOBJ : Z := 0x8.
Definition HGSL_OBJLIST_PROFILE : Z := 0x10.
(** HGSL_CMDLIST_IB | HGSL_CMDLIST_CTXTSWITCH_PREAMBLE | HGSL_CMDLIST_IB_PREAMBLE *)
Definition CMDLIST_FLAGS : Z := 0x7.

Definition HGSL_CMD_SYNCPOINT_TYPE_TIMESTAMP : Z := 0.
Definition HGSL_CMD_SYNCPOINT_TYPE_FENCE : Z := 1.
Definition HGSL_CMD_SYNCPOINT_TYPE_TIMELINE : Z := 2.

Definition HGSL_GPU_AUX_COMMAND_TIMELINE : Z := 2.
Definition HGSL_GPU_AUX_COMMAND_SYNC : Z := 0x400.

Definition HGSL_EVENT_RETIRED : Z := 1.
Definition HGSL_EVENT_CANCELLED : Z := 2.

(** * User-space structures *)

Record hgsl_timeline_val := mk_timeline_val {
  tv_timepoint : Z; tv_timeline_id : Z; tv_padding : Z }.

Record hgsl_command_object := mk_command_object {
  co_offset : Z; co_gpuaddr : Z; co_size : Z; co_flags : Z; co_id : Z }.

Record hgsl_command_syncpoint := mk_command_syncpoint {
  cs_priv : Z; cs_size : Z; cs_type : Z }.

Record hgsl_cmd_syncpoint_timestamp := mk_sp_timestamp {
  spts_devhandle : Z; spts_context_id : Z; spts_timestamp : Z }.

Record hgsl_cmd_syncpoint_timeline := mk_sp_timeline {
  sptl_timelines : Z; sptl_count : Z; sptl_size : Z }.

Record hgsl_gpu_aux_command_generic := mk_aux_generic {
  ag_priv : Z; ag_size : Z; ag_type : Z }.

(** struct hgsl_ibdesc; sizes are in dwords. *)
Record hgsl_ibdesc := mk_ibdesc { id_gpuaddr : Z; id_sizedwords : Z }.

(** struct gsl_command_buffer_object_t and struct gsl_memory_object_t, the fields the
    driver reads. *)
Record gsl_command_buffer_object_t := mk_cb_object { cb_sizedwords : Z; cb_offset : Z }.
Record gsl_memory_object_t := mk_memory_object { gm_offset : Z; gm_flags : Z }.

(** * Kernel-side structures *)

(** struct shadow_ts: the part of it the driver reads and writes. *)
Record shadow_ts := mk_shadow { sop : Z; eop : Z }.
#[export] Instance eta_shadow : Eta shadow_ts := λ x, mk_shadow (sop x) (eop x).

(** A callback of an event together with its [priv] argument. *)
Inductive event_func :=
| Fn_timestamp_signaled (obj : ptr) (id : nat)
| Fn_timeline_signaled (obj : ptr)
| Fn_hsync_fence_event_cb (ctxt : ptr) (ts : Z).

#[export] Instance event_func_eq_dec : EqDecision event_func.
Proof. solve_decision. Defined.

Record hgsl_event := mk_event {
  he_context : ptr;
  he_timestamp : Z;
  he_func : event_func;
  he_result : Z }.
#[export] Instance eta_event : Eta hgsl_event := λ x,
  mk_event (he_context x) (he_timestamp x) (he_func x) (he_result x).

Record hgsl_event_group := mk_group {
  eg_events : list hgsl_event;
  eg_processed : Z }.
#[export] Instance eta_group : Eta hgsl_event_group := λ x,
  mk_group (eg_events x) (eg_processed x).

(** The mapped memory of a context queue: the header's indices, the ring and the
    buffer for indirect submissions, in dwords. *)
Record ctx_queue := mk_ctx_queue {
  h_dwSize : Z; h_readIdx : Z; h_writeIdx : Z;
  h_body : list Z; h_indirect : list Z }.
#[export] Instance eta_ctx_queue : Eta ctx_queue := λ x,
  mk_ctx_queue (h_dwSize x) (h_readIdx x) (h_writeIdx x) (h_body x) (h_indirect x).

Record doorbell_context_queue := mk_dbcq {
  cq_db_signal : Z;
  cq_seq_num : Z;
  cq_header_gmuaddr : Z;
  cq_irq_bit_idx : Z;
  cq_indirect_ib_ts : Z;
  cq_queue : option ctx_queue }.     (* None: queue_header is NULL *)
#[export] Instance eta_dbcq : Eta doorbell_context_queue := λ x,
  mk_dbcq (cq_db_signal x) (cq_seq_num x) (cq_header_gmuaddr x) (cq_irq_bit_idx x)
    (cq_indirect_ib_ts x) (cq_queue x).

Record doorbell_queue := mk_dbq {
  q_mem : list Z;                    (* the dwords at vbase *)
  q_data : nat;                      (* data.vaddr - vbase, in dwords *)
  q_dwords : Z;                      (* data.dwords *)
  q_gmuaddr : Z;
  q_dbq_idx : Z;
  q_buf_inuse : bool;
  q_ib_context_id : Z;
  q_ib_timestamp : Z;
  q_ibdesc_max_size : Z;
  q_seq_num : Z }.
#[export] Instance eta_dbq : Eta doorbell_queue := λ x,
  mk_dbq (q_mem x) (q_data x) (q_dwords x) (q_gmuaddr x) (q_dbq_idx x) (q_buf_inuse x)
    (q_ib_context_id x) (q_ib_timestamp x) (q_ibdesc_max_size x) (q_seq_num x).

Record hgsl_dispatch_context := mk_dispatch {
  d_count : Z;                 (* atomic_t count *)
  d_list : list ptr;           (* drawobj_list, the drawobj of each cmd_obj *)
  d_work : bool }.             (* the kthread work is queued on the worker *)
#[export] Instance eta_dispatch : Eta hgsl_dispatch_context := λ x,
  mk_dispatch (d_count x) (d_list x) (d_work x).

Record hgsl_context := mk_context {
  c_priv : ptr;
  c_context_id : Z;
  c_devhandle : Z;
  c_flags : Z;
  c_shadow_ts : option shadow_ts;
  c_in_destroy : bool;
  c_destroyed : bool;
  c_kref : Z;
  c_last_ts : Z;
  c_timeline : option ptr;     (* struct hgsl_hsync_timeline * *)
  c_dbq : option ptr;          (* struct doorbell_queue *, in hgsl->dbq *)
  c_queued_ts : Z;
  c_drawq : list (option ptr);
  c_drawq_head : nat;
  c_drawq_tail : nat;
  c_queued : Z;
  c_dispatch : option hgsl_dispatch_context;
  c_event_group : hgsl_event_group;
  c_is_killed : bool;
  c_tcsr_idx : Z;
  c_db_signal : Z;
  c_dbcq : option doorbell_context_queue;
  c_dbcq_export_id : Z }.
#[export] Instance eta_context : Eta hgsl_context := λ x,
  mk_context (c_priv x) (c_context_id x) (c_devhandle x) (c_flags x)
    (c_shadow_ts x) (c_in_destroy x) (c_destroyed x) (c_kref x) (c_last_ts x)
    (c_timeline x) (c_dbq x) (c_queued_ts x) (c_drawq x) (c_drawq_head x)
    (c_drawq_tail x) (c_queued x) (c_dispatch x) (c_event_group x)
    (c_is_killed x) (c_tcsr_idx x) (c_db_signal x) (c_dbcq x) (c_dbcq_export_id x).

(** A struct dma_fence: one embedded in an isync or hsync fence of the driver, or
    one that belongs to the kernel or to another driver. *)
Inductive dma_fence :=
| Isync_fence (f : ptr)
| Hsync_fence (f : ptr)
| Foreign_fence (f : ptr).

#[export] Instance dma_fence_eq_dec : EqDecision dma_fence.
Proof. solve_decision. Defined.

(** struct hgsl_drawobj_sync_event: [id] is the index in [synclist]. *)
Record hgsl_drawobj_sync_event := mk_sync_event {
  se_type : Z;
  se_context : option ptr;
  se_timestamp : Z;
  se_handle : option dma_fence;      (* the fence of the hgsl_sync_fence_cb *)
  se_fence : option dma_fence }.
#[export] Instance eta_sync_event : Eta hgsl_drawobj_sync_event := λ x,
  mk_sync_event (se_type x) (se_context x) (se_timestamp x) (se_handle x)
    (se_fence x).
Definition zero_sync_event : hgsl_drawobj_sync_event :=
  mk_sync_event 0 None 0 None None.

Record hgsl_drawobj_sync := mk_sync {
  s_synclist : list hgsl_drawobj_sync_event;
  s_numsyncs : nat;
  s_pending : Z;
  s_timeout_jiffies : Z }.
#[export] Instance eta_sync : Eta hgsl_drawobj_sync := λ x,
  mk_sync (s_synclist x) (s_numsyncs x) (s_pending x) (s_timeout_jiffies x).

Record hgsl_memobj_node := mk_memobj {
  mo_id : Z; mo_offset : Z; mo_gpuaddr : Z; mo_size : Z; mo_flags : Z }.

Record hgsl_drawobj_cmd := mk_cmd {
  cmd_priv : Z;
  cmd_cmdlist : list hgsl_memobj_node;
  cmd_memlist : list hgsl_memobj_node;
  cmd_marker_timestamp : Z;
  cmd_profiling : option Z;    (* profiling_mem_gpuaddr, once a node is found *)
  cmd_numibs : Z }.
#[export] Instance eta_cmd : Eta hgsl_drawobj_cmd := λ x,
  mk_cmd (cmd_priv x) (cmd_cmdlist x) (cmd_memlist x) (cmd_marker_timestamp x)
    (cmd_profiling x) (cmd_numibs x).

Record hgsl_timeline_event := mk_timeline_event {
  te_timeline : option ptr;    (* struct hgsl_isync_timeline * *)
  te_seqno : Z;
  te_context : option ptr;
  te_timestamp : Z }.
#[export] Instance eta_timeline_event : Eta hgsl_timeline_event := λ x,
  mk_timeline_event (te_timeline x) (te_seqno x) (te_context x) (te_timestamp x).
Definition zero_timeline_event : hgsl_timeline_event :=
  mk_timeline_event None 0 None 0.

Record hgsl_drawobj_timeline := mk_timelineobj {
  tl_sig_refcount : Z;
  tl_timelines : option (list hgsl_timeline_event);   (* None is NULL *)
  tl_count : nat }.
#[export] Instance eta_timelineobj : Eta hgsl_drawobj_timeline := λ x,
  mk_timelineobj (tl_sig_refcount x) (tl_timelines x) (tl_count x).

(** The object a struct hgsl_drawobj is embedded in. *)
Inductive drawobj_body :=
| Sync (s : hgsl_drawobj_sync)
| Cmd (c : hgsl_drawobj_cmd)
| Timeline (t : hgsl_drawobj_timeline).

Record hgsl_drawobj := mk_drawobj {
  o_priv : ptr;
  o_context : ptr;
  o_type : Z;
  o_timestamp : Z;
  o_flags : Z;
  o_refcount : Z;
  o_body : drawobj_body }.
#[export] Instance eta_drawobj : Eta hgsl_drawobj := λ x,
  mk_drawobj (o_priv x) (o_context x) (o_type x) (o_timestamp x) (o_flags x)
    (o_refcount x) (o_body x).

Record hgsl_hsync_timeline := mk_hsync_timeline {
  ht_kref : Z;
  ht_fence_list : list ptr;
  ht_last_ts : Z }.
#[export] Instance eta_hsync_timeline : Eta hgsl_hsync_timeline := λ x,
  mk_hsync_timeline (ht_kref x) (ht_fence_list x) (ht_last_ts x).

Record hgsl_hsync_fence := mk_hsync_fence {
  hf_refcount : Z;             (* of the embedded dma_fence *)
  hf_signaled : bool;          (* DMA_FENCE_FLAG_SIGNALED_BIT *)
  hf_timeline : option ptr;
  hf_ts : Z }.
#[export] Instance eta_hsync_fence : Eta hgsl_hsync_fence := λ x,
  mk_hsync_fence (hf_refcount x) (hf_signaled x) (hf_timeline x) (hf_ts x).

Record hgsl_isync_timeline := mk_isync_timeline {
  it_kref : Z;
  it_id : Z;
  it_priv : ptr;
  it_fence_list : list ptr;
  it_last_ts : Z;
  it_flags : Z;
  it_is64bits : bool }.
#[export] Instance eta_isync_timeline : Eta hgsl_isync_timeline := λ x,
  mk_isync_timeline (it_kref x) (it_id x) (it_priv x) (it_fence_list x)
    (it_last_ts x) (it_flags x) (it_is64bits x).

Record hgsl_isync_fence := mk_isync_fence {
  if_refcount : Z;
  if_signaled : bool;
  if_timeline : option ptr;
  if_ts : Z }.
#[export] Instance eta_isync_fence : Eta hgsl_isync_fence := λ x,
  mk_isync_fence (if_refcount x) (if_signaled x) (if_timeline x) (if_ts x).

(** * Calls into the kernel that return nothing *)

Inductive action :=
| A_wake_up_drawq (ctxt : ptr)
| A_mod_timer (obj : ptr) (expires : Z)
| A_del_timer (obj : ptr)
| A_dbq_context_destroy (dbq : ptr) (context_id : Z)
| A_wake_up_waiters (ctxt : ptr)
| A_fence_signal (f : dma_fence)   (* the fence becomes signaled *)
| A_fence_get (f : ptr)            (* reference operations on a foreign fence *)
| A_fence_put (f : ptr)
| A_fence_remove_callback (f : dma_fence)
| A_fd_install (fd : Z) (f : dma_fence)
| A_put_unused_fd (fd : Z)
| A_fput (f : dma_fence)
| A_copy_timeline_val (uptr : Z) (val : hgsl_timeline_val)   (* copy_to_user *)
| A_irq_gmugos (dev_id : Z) (id : Z) (bit : Z)     (* the three doorbells *)
| A_ring_global_db (tcsr_idx : Z) (bit : Z)
| A_ring_local_db (bit : Z).

(** A work item of [lockless_wq]: drawobj_sync_timeline_fence_work of an event. *)
Record lockless_work := mk_lockless { lw_obj : ptr; lw_event : nat }.

(** * The store *)

Record world := mk_world {
  w_contexts : gmap ptr hgsl_context;
  w_table : gmap (Z * Z) ptr;          (* hgsl->contexts[dev_id][context_id] *)
  w_event_groups : list ptr;           (* hgsl->event_groups, by context *)
  w_drawobjs : gmap ptr hgsl_drawobj;
  w_hsync : gmap ptr hgsl_hsync_timeline;
  w_hfences : gmap ptr hgsl_hsync_fence;
  w_isync : gmap ptr hgsl_isync_timeline;
  w_isync_idr : gmap Z ptr;
  w_ifences : gmap ptr hgsl_isync_fence;
  w_mem : gmap ptr (tree hgsl_mem_node * tree hgsl_mem_node);
                             (* mem_allocated and mem_mapped of a hgsl_priv *)
  w_dbq : gmap ptr doorbell_queue;     (* hgsl->dbq *)
  w_events : list hgsl_event;          (* events_worker, oldest first *)
  w_lockless : list lockless_work;
  w_active_wait : list (ptr * Z);      (* active_wait_list *)
  w_next : ptr;                        (* next free address *)
  w_clock : nat;
  w_trace : list action }.
#[export] Instance eta_world : Eta world := λ x,
  mk_world (w_contexts x) (w_table x) (w_event_groups x) (w_drawobjs x)
    (w_hsync x) (w_hfences x) (w_isync x) (w_isync_idr x) (w_ifences x)
    (w_mem x) (w_dbq x) (w_events x) (w_lockless x) (w_active_wait x) (w_next x) (w_clock x) (w_trace x).

Definition empty_world : world :=
  mk_world ∅ ∅ [] ∅ ∅ ∅ ∅ ∅ ∅ ∅ ∅ [] [] [] 1 0 [].

(** The kernel, the hypervisor and user memory, as the driver sees them. *)
Class Kernel := {
  k_alloc : nat → bool;                        (* the allocation succeeds *)
  k_uninit : nat → Z;           (* an uninitialised u32 local *)
  k_jiffies : nat → Z;
  k_msecs_to_jiffies : Z → Z;
  k_wait : nat → Z;             (* jiffies left of a wait, or a signal (< 0) *)
  k_interfere : nat → world → world;           (* other threads, while one waits *)
  k_hsync_signal : nat → option Z;  (* another thread signals a timeline while one sleeps *)
  k_gpu_shadow : nat → ptr → shadow_ts → shadow_ts;  (* the GPU, while one sleeps *)
  k_gmu_dbq : nat → ptr → list Z → list Z;     (* the GMU, on a doorbell queue *)
  k_gmu_read : nat → ptr → Z → Z;              (* ... on a context queue's readIdx *)
  k_sleep_interrupted : nat → bool;            (* msleep_interruptible *)
  k_hyp_channel_get : nat → Z;                 (* hgsl_hyp_channel_pool_get *)
  k_queue_mem : nat → Z;                       (* the memory of a context queue *)
  k_vmap : nat → Z;                            (* dma_buf_vmap_unlocked *)
  k_register_dbcq : nat → Z * option Z;        (* hgsl_hyp_context_register_dbcq, the id *)
  k_hyp_wait : nat → Z;                        (* hgsl_hyp_wait_timestamp *)
  k_create_worker : nat → Z;                   (* 0 or an error of kthread_create_worker *)
  k_hyp_read_ts : nat → Z → Z → Z → Z * Z;     (* hgsl_hyp_read_timestamp *)
  k_idr_alloc : nat → gmap Z ptr → Z;
  k_unused_fd : nat → Z;
  k_sync_file_get_fence : nat → Z → option dma_fence;
  k_add_callback : nat → dma_fence → Z;        (* dma_fence_add_callback *)
  k_fence_signaled : nat → ptr → bool;         (* of a foreign fence *)
  k_fence_array : nat → list ptr → option ptr; (* dma_fence_array_create *)
  k_fence_wait : nat → dma_fence → Z → Z;      (* dma_fence_wait_timeout *)
  k_timespec64_to_jiffies : Z → Z → Z;
  k_copy_timeline_val : nat → Z → Z → option hgsl_timeline_val;
  k_copy_command_object : nat → Z → Z → option hgsl_command_object;
  k_copy_command_syncpoint : nat → Z → Z → option hgsl_command_syncpoint;
  k_copy_sp_timestamp : nat → Z → Z → option hgsl_cmd_syncpoint_timestamp;
  k_copy_sp_fence : nat → Z → Z → option Z;
  k_copy_sp_timeline : nat → Z → Z → option hgsl_cmd_syncpoint_timeline;
  k_copy_aux_generic : nat → Z → Z → option hgsl_gpu_aux_command_generic;
  k_copy_ibs : nat → Z → nat → option (list hgsl_ibdesc);
  k_copy_cb_objects : nat → Z → nat → option (list gsl_command_buffer_object_t);
  k_copy_memory_objects : nat → Z → nat → option (list gsl_memory_object_t);
  k_copy_be_data : nat → Z → nat → option (list Z * list Z);  (* gpuaddr's, offsets *)
  k_hyp_issueib : nat → Z;                     (* hgsl_hyp_issueib... *)
  k_hyp_check_ts : nat → Z → Z * Z;            (* hgsl_hyp_check_timestamp: param->rval *)
  k_db_off : bool                              (* hgsl->db_off *)
}.

(** A quiet kernel: allocations succeed, no fence of others ever signals, nothing
    is interrupted, user memory holds command objects only.  It instantiates the theorems in their examples. *)
Definition quiet_kernel_with (interfere : nat → world → world) : Kernel := {|
  k_alloc _ := true; k_uninit _ := 0; k_jiffies _ := 100;
  k_msecs_to_jiffies x := x / 4; k_wait _ := 5; k_interfere := interfere;
  k_hsync_signal _ := None; k_gpu_shadow _ _ s := s; k_gmu_dbq _ _ m := m; k_gmu_read _ _ r := r;
  k_sleep_interrupted _ := false; k_hyp_channel_get _ := 0; k_queue_mem _ := 0;
  k_vmap _ := 0; k_register_dbcq _ := (0, Some 7); k_hyp_wait _ := 0;
  k_create_worker _ := 0;
  k_hyp_read_ts _ _ _ _ := (- EINVAL, 0);
  k_idr_alloc _ table := 1 + Z.of_nat (size table); k_unused_fd _ := 3;
  k_sync_file_get_fence _ _ := None; k_add_callback _ _ := 0;
  k_fence_signaled _ _ := false; k_fence_array _ _ := None; k_fence_wait _ _ _ := 0;
  k_timespec64_to_jiffies s _ := s * 250;
  k_copy_timeline_val _ _ _ := None;
  k_copy_command_object _ _ _ := Some (mk_command_object 0 4096 64 1 0);
  k_copy_command_syncpoint _ _ _ := None; k_copy_sp_timestamp _ _ _ := None;
  k_copy_sp_fence _ _ _ := None; k_copy_sp_timeline _ _ _ := None;
  k_copy_aux_generic _ _ _ := None;
  k_copy_ibs _ _ n := Some (replicate n (mk_ibdesc 4096 16));
  k_copy_cb_objects _ _ _ := None; k_copy_memory_objects _ _ _ := None;
  k_copy_be_data _ _ _ := None; k_hyp_issueib _ := - EINVAL; k_hyp_check_ts _ rval := (- EINVAL, rval);
  k_db_off := false |}.

Definition quiet_kernel : Kernel := quiet_kernel_with (λ _ w, w).

(** * Access to the store *)

Definition tick : M world nat := λ w,
  Some (w_clock w, w <| w_clock := S (w_clock w) |>).

Definition ask {A} (f : nat → A) : M world A := n ← tick; mret (f n).

Definition emit (a : action) : M world unit :=
  modify (λ w, w <| w_trace ::= (λ t, t ++ [a]) |>).

Definition fresh_ptr : M world ptr := λ w,
  Some (w_next w, w <| w_next := Pos.succ (w_next w) |>).

Definition load {V} (proj : world → gmap ptr V) (p : ptr) : M world V :=
  w ← get; of_option (proj w !! p).

Definition store {V} (proj : world → gmap ptr V) `{!Upd proj} (p : ptr) (v : V) :
  M world unit := modify (upd proj (<[p := v]>)).

(** Dereference [p], fault when it is not allocated, and write it back. *)
Definition update {V} (proj : world → gmap ptr V) `{!Upd proj} (p : ptr) (f : V → V) :
  M world unit := v ← load proj p; store proj p (f v).

Definition free {V} (proj : world → gmap ptr V) `{!Upd proj} (p : ptr) :
  M world unit := modify (upd proj (delete p)).

(** kref_get_unless_zero, on the counter [cnt] of the object at [p]. *)
Definition kref_get_unless_zero {V} (proj : world → gmap ptr V) `{!Upd proj}
    (cnt : V → Z) `{!Upd cnt} (p : ptr) : M world bool :=
  v ← load proj p;
  if cnt v =? 0 then mret false
  else store proj p (v <| cnt := cnt v + 1 |>) ;; mret true.

(** kref_get: taking a reference on a dead object is a fault. *)
Definition kref_get {V} (proj : world → gmap ptr V) `{!Upd proj}
    (cnt : V → Z) `{!Upd cnt} (p : ptr) : M world unit :=
  v ← load proj p;
  if cnt v =? 0 then fault else store proj p (v <| cnt := cnt v + 1 |>).

(** kref_put: drops one reference, runs [release] when it was the last. *)
Definition kref_put {V} (proj : world → gmap ptr V) `{!Upd proj}
    (cnt : V → Z) `{!Upd cnt} (p : ptr) (release : M world unit) : M world unit :=
  v ← load proj p;
  if cnt v =? 0 then fault
  else store proj p (v <| cnt := cnt v - 1 |>) ;;
       when (cnt v - 1 =? 0) release.

(** ** Sleeping *)

Definition ERESTARTSYS : Z := 512.

(** usleep_range, msleep: the GPU moves the shadow timestamps on and takes messages
    out of the queues. *)
Definition gpu_context `{K : Kernel} (n : nat) (p : ptr) (c : hgsl_context) : hgsl_context :=
  c <| c_shadow_ts ::= fmap (k_gpu_shadow n p) |>
    <| c_dbcq ::= fmap (λ q, q <| cq_queue ::=
         fmap (λ h, h <| h_readIdx ::= k_gmu_read n p |>) |>) |>.

Definition gpu_step `{K : Kernel} : M world unit :=
  n ← tick;
  modify (λ w, w
    <| w_contexts ::= map_imap (λ p c, Some (gpu_context n p c)) |>
    <| w_dbq ::= map_imap (λ i q, Some (q <| q_mem ::= k_gmu_dbq n i |>)) |>).

(** msleep_interruptible: true when a signal ended it. *)
Definition msleep_interruptible `{K : Kernel} : M world bool :=
  gpu_step ;; ask k_sleep_interrupted.

(** wait_event_interruptible_timeout: other threads run; the result is positive
    when the condition holds at the end, -ERESTARTSYS on a signal, 0 on timeout. *)
Definition wait_event_interruptible_timeout `{K : Kernel} (condition : M world bool) : M world Z :=
  n ← tick;
  modify (k_interfere n) ;;
  c ← condition;
  left ← ask k_wait;
  mret (if c : bool then Z.max 1 left else if left <? 0 then - ERESTARTSYS else 0).

(** ** A context with an empty ring *)

Definition fresh_context (priv : ptr) (id flags : Z) (shadow : option shadow_ts) :
  hgsl_context :=
  mk_context priv id GSL_HANDLE_DEV0 flags shadow false false 1 0 None None 0
    (replicate CONTEXT_DRAWQUEUE_SIZE None) 0 0 0 None (mk_group [] 0)
    false (-1) 0 None 0.

(** * Lemmas *)

Lemma load_Some {V} (proj : world → gmap ptr V) p w v w' :
  load proj p w = Some (v, w') ↔ proj w !! p = Some v ∧ w' = w.
Proof.
  unfold load, get, mbind, M_bind, of_option.
  destruct (proj w !! p); [|naive_solver]. split.
  - by intros [= -> ->].
  - by intros [[= ->] ->].
Qed.

Lemma load_run {V} (proj : world → gmap ptr V) p w v :
  proj w !! p = Some v → load proj p w = Some (v, w).
Proof. intros Hv. by apply load_Some. Qed.

Lemma update_run {V} (proj : world → gmap ptr V) `{!Upd proj} p f w v :
  proj w !! p = Some v → update proj p f w = Some (tt, upd proj (<[p := f v]>) w).
Proof. intros Hv. unfold update. by rewrite (bind_run _ _ _ _ _ (load_run _ _ _ _ Hv)). Qed.

Lemma update_Some {V} (proj : world → gmap ptr V) `{!Upd proj} p f w u w' :
  update proj p f w = Some (u, w') ↔
  ∃ v, proj w !! p = Some v ∧ w' = upd proj (<[p := f v]>) w.
Proof.
  unfold update. rewrite bind_Some. setoid_rewrite load_Some. split.
  - intros (v & ? & [Hv ->] & [= <- <-]). eauto.
  - intros (v & Hv & ->). destruct u. eauto.
Qed.

Lemma of_option_Some {S A} (o : option A) (s : S) a s' :
  of_option o s = Some (a, s') ↔ o = Some a ∧ s' = s.
Proof.
  destruct o; cbn; [|naive_solver]. split; [by intros [= -> ->] | by intros [[= ->] ->]].
Qed.

Lemma ask_Some {A} (f : nat → A) w a w' :
  ask f w = Some (a, w') ↔ a = f (w_clock w) ∧ w' = w <| w_clock := S (w_clock w) |>.
Proof. split; [by intros [= <- <-] | by intros [-> ->]]. Qed.

(** Inversion of runs in the store. *)
Ltac inv_st :=
  repeat first
    [ progress inv_run
    | match goal with
      | H : load _ _ _ = Some _ |- _ => apply load_Some in H as [? ->]
      | H : update _ _ _ _ = Some _ |- _ =>
          let v := fresh "v" in apply update_Some in H as (v & ? & ->)
      | H : of_option _ _ = Some _ |- _ => apply of_option_Some in H as [? ->]
      | H : ask _ _ = Some _ |- _ => apply ask_Some in H as [-> ->]
      | H : store _ _ _ _ = Some _ |- _ => injection H as <- <-
      | H : emit _ _ = Some _ |- _ => injection H as <- <-
      | H : fresh_ptr _ = Some _ |- _ => injection H as <- <-
      end ].

(** Runs forward: the first bind of the goal's run is a load of [E]'s object. *)
Ltac run_load E := rewrite (bind_run _ _ _ _ _ (load_run _ _ _ _ E)).
