(* ===== verification/Timestamp.v ===== *)
(** Wrapping timestamps: the comparisons of hgsl.h. *)

From S2P Require Import Prelude.

(** * Definitions *)

Definition hgsl_ts32_ge (a b : Z) : bool := u32 (a - b) <? 0x80000000.

Definition hgsl_ts64_ge (a b : Z) : bool := u64 (a - b) <? 0x8000000000000000.

Definition hgsl_ts_ge (a b : Z) (is64 : bool) : bool :=
  if is64 then hgsl_ts64_ge a b else hgsl_ts32_ge (u32 a) (u32 b).

(** * Lemmas *)

Lemma hgsl_ts32_ge_refl a : hgsl_ts32_ge a a = true.
Proof. unfold hgsl_ts32_ge. by rewrite Z.sub_diag. Qed.

Lemma hgsl_ts64_ge_refl a : hgsl_ts64_ge a a = true.
Proof. unfold hgsl_ts64_ge. by rewrite Z.sub_diag. Qed.

Lemma hgsl_ts_ge_refl a is64 : hgsl_ts_ge a a is64 = true.
Proof. destruct is64; [apply hgsl_ts64_ge_refl | apply hgsl_ts32_ge_refl]. Qed.

(** [a] is at or after [b] iff it is reached from [b] by a forward step of less
    than half the range. *)
Lemma hgsl_ts32_ge_iff a b :
  is_u32 a → is_u32 b →
  hgsl_ts32_ge a b = true ↔ ∃ d, 0 ≤ d < 0x80000000 ∧ a = u32 (b + d).
Proof.
  unfold is_u32, hgsl_ts32_ge, u32. intros Ha Hb. rewrite Z.ltb_lt. split.
  - intros Hd. exists ((a - b) mod 4294967296).
    split; [pose proof (Z.mod_pos_bound (a - b) 4294967296); lia|].
    rewrite Z.add_mod_idemp_r by lia.
    replace (b + (a - b)) with a by lia. rewrite Z.mod_small; lia.
  - intros (d & Hd & ->).
    rewrite Zminus_mod_idemp_l. replace (b + d - b) with d by lia.
    rewrite Z.mod_small; lia.
Qed.

(** Two distinct timestamps are strictly ordered one way round, except at the
    distance of exactly half the range, where neither is at or after the other. *)
Lemma hgsl_ts32_ge_trichotomy a b :
  is_u32 a → is_u32 b → a ≠ b →
  hgsl_ts32_ge a b = true ∧ hgsl_ts32_ge b a = false ∨
  hgsl_ts32_ge a b = false ∧ hgsl_ts32_ge b a = true ∨
  u32 (a - b) = 0x80000000.
Proof.
  unfold is_u32, hgsl_ts32_ge, u32. intros Ha Hb Hab.
  rewrite !Z.ltb_lt, !Z.ltb_ge.
  destruct (decide (b ≤ a)).
  - rewrite (Z.mod_small (a - b)) by lia.
    replace ((b - a) mod 4294967296) with (4294967296 - (a - b)); [lia|].
    rewrite <-(Z_mod_plus_full (b - a) 1). rewrite Z.mod_small; lia.
  - rewrite (Z.mod_small (b - a)) by lia.
    replace ((a - b) mod 4294967296) with (4294967296 - (b - a)); [lia|].
    rewrite <-(Z_mod_plus_full (a - b) 1). rewrite Z.mod_small; lia.
Qed.

Lemma hgsl_ts32_ge_antisym a b :
  is_u32 a → is_u32 b →
  hgsl_ts32_ge a b = true → hgsl_ts32_ge b a = true → a = b.
Proof.
  intros Ha Hb H1 H2. destruct (decide (a = b)); [done|].
  pose proof (hgsl_ts32_ge_trichotomy a b Ha Hb n) as [[? ?]|[[? ?]|E]]; [congruence..|].
  unfold hgsl_ts32_ge in H1. rewrite E in H1. done.
Qed.

(** Transitivity, as far as the two steps together stay in the window. *)
Lemma hgsl_ts32_ge_trans a b c :
  hgsl_ts32_ge a b = true → hgsl_ts32_ge b c = true →
  u32 (a - b) + u32 (b - c) < 0x80000000 → hgsl_ts32_ge a c = true.
Proof.
  unfold hgsl_ts32_ge, u32. rewrite !Z.ltb_lt. intros H1 H2 H3.
  replace (a - c) with ((a - b) + (b - c)) by lia.
  rewrite Z.add_mod by lia.
  pose proof (Z.mod_pos_bound (a - b) 4294967296).
  pose proof (Z.mod_pos_bound (b - c) 4294967296).
  rewrite Z.mod_small; lia.
Qed.

(** Without wrap-around the comparison is the usual one. *)
Lemma hgsl_ts32_ge_small a b :
  0 ≤ a < 0x80000000 → 0 ≤ b < 0x80000000 → hgsl_ts32_ge a b = (b <=? a).
Proof.
  unfold hgsl_ts32_ge, u32. intros Ha Hb. apply eq_true_iff_eq.
  rewrite Z.ltb_lt, Z.leb_le. split; intros H.
  - destruct (decide (b ≤ a)); [done|].
    rewrite <-(Z_mod_plus_full (a - b) 1) in H. rewrite Z.mod_small in H; lia.
  - rewrite Z.mod_small; lia.
Qed.

#[export] Hint Resolve hgsl_ts32_ge_refl hgsl_ts64_ge_refl hgsl_ts_ge_refl : hgsl.
