(* ===== verification/Hsync.v ===== *)
(** Hardware-sync timelines (hgsl_sync.c): a timeline per context, and the
    fences that signal as the retired timestamp of the context advances. *)

From S2P Require Import Prelude.
From S2P Require Import State.
From S2P Require Import Timestamp.

Section hsync.
Context `{K : Kernel}.

(** * Definitions *)

Definition HGSL_HSYNC_FINI_RETRY_COUNT : nat := 50.

(** static void hgsl_hsync_timeline_destroy *)
Definition hgsl_hsync_timeline_destroy (timeline : ptr) : M world unit :=
  free w_hsync timeline.

Definition hgsl_hsync_timeline_put (timeline : option ptr) : M world unit :=
  match timeline with
  | Some t => kref_put w_hsync ht_kref t (hgsl_hsync_timeline_destroy t)
  | None => mret tt
  end.

(** int hgsl_hsync_timeline_create: [context->timeline] is set by the caller's
    store; the new timeline is returned with the error code. *)
Definition hgsl_hsync_timeline_create (context : ptr) : M world Z :=
  ok ← ask k_alloc;
  if negb ok then mret (- ENOMEM)
  else
    t ← fresh_ptr;
    store w_hsync t (mk_hsync_timeline 1 [] 0) ;;
    update w_contexts context (λ c, c <| c_timeline := Some t |>) ;;
    mret 0.

Definition hgsl_hsync_has_signaled (fence : ptr) : M world bool :=
  f ← load w_hfences fence;
  t ← of_option (hf_timeline f);
  timeline ← load w_hsync t;
  mret (hgsl_ts32_ge (ht_last_ts timeline) (hf_ts f)).

(** The kernel's dma_fence_is_signaled_locked on a fence with these operations:
    a fence whose [signaled] operation answers true becomes signaled. *)
Definition hsync_fence_is_signaled_locked (fence : ptr) : M world bool :=
  f ← load w_hfences fence;
  if hf_signaled f then mret true
  else
    s ← hgsl_hsync_has_signaled fence;
    when s (store w_hfences fence (f <| hf_signaled := true |>) ;;
            emit (A_fence_signal (Hsync_fence fence))) ;;
    mret s.

Definition hgsl_hsync_fence_release (fence : ptr) : M world unit :=
  f ← load w_hfences fence;
  hgsl_hsync_timeline_put (hf_timeline f) ;;
  free w_hfences fence.

(** dma_fence_put on one of these fences. *)
Definition hsync_fence_put (fence : ptr) : M world unit :=
  kref_put w_hfences hf_refcount fence (hgsl_hsync_fence_release fence).

(** The loop that moves the signaled fences of [l] to [flist]; the rest stays on
    the timeline's list. *)
Fixpoint hsync_split_signaled (l : list ptr) : M world (list ptr * list ptr) :=
  match l with
  | [] => mret ([], [])
  | cur :: next =>
      s ← hsync_fence_is_signaled_locked cur;
      '(flist, rest) ← hsync_split_signaled next;
      mret (if s : bool then (cur :: flist, rest) else (flist, cur :: rest))
  end.

Definition hgsl_hsync_timeline_signal (timeline : option ptr) (ts : Z) : M world unit :=
  match timeline with
  | None => mret tt
  | Some t =>
      got ← kref_get_unless_zero w_hsync ht_kref t;
      if negb got then mret tt
      else
        tl ← load w_hsync t;
        when (negb (hgsl_ts32_ge (ht_last_ts tl) ts))
          (update w_hsync t (λ x, x <| ht_last_ts := ts |>) ;;
           '(flist, rest) ← hsync_split_signaled (ht_fence_list tl);
           update w_hsync t (λ x, x <| ht_fence_list := rest |>) ;;
           for_each flist hsync_fence_put) ;;
        hgsl_hsync_timeline_put (Some t)
  end.

(** msleep without the lock of the timeline: another thread may signal it meanwhile. *)
Definition hsync_fini_sleep (timeline : ptr) : M world unit :=
  ts ← ask k_hsync_signal;
  match ts with
  | Some ts => hgsl_hsync_timeline_signal (Some timeline) ts
  | None => mret tt
  end.

(** The wait loop of hgsl_hsync_timeline_fini: until its fences have signaled. *)
Fixpoint hsync_fini_wait (retry_count : nat) (timeline : ptr) : M world unit :=
  tl ← load w_hsync timeline;
  match retry_count, ht_fence_list tl with
  | S n, _ :: _ => hsync_fini_sleep timeline ;; hsync_fini_wait n timeline
  | _, _ => mret tt
  end.

(** [list_for_each_entry] computing the largest [ts] as an unsigned number. *)
Fixpoint hsync_max_ts (max_ts : Z) (l : list ptr) : M world Z :=
  match l with
  | [] => mret max_ts
  | p :: l' =>
      f ← load w_hfences p;
      hsync_max_ts (if max_ts <? hf_ts f then hf_ts f else max_ts) l'
  end.

Definition hgsl_hsync_timeline_fini (context : ptr) : M world unit :=
  c ← load w_contexts context;
  t ← of_option (c_timeline c);
  got ← kref_get_unless_zero w_hsync ht_kref t;
  if negb got then mret tt
  else
    hsync_fini_wait (S HGSL_HSYNC_FINI_RETRY_COUNT) t ;;
    tl ← load w_hsync t;
    max_ts ← hsync_max_ts 0 (ht_fence_list tl);
    hgsl_hsync_timeline_signal (Some t) max_ts ;;
    update w_contexts context (λ c, c <| c_last_ts := max_ts |>) ;;
    hgsl_hsync_timeline_put (Some t).

(** The fence on success; the sync_file holds the second reference. *)
Definition hgsl_hsync_fence_create (context : ptr) (ts : Z) : M world (option ptr) :=
  c ← load w_contexts context;
  match c_timeline c with
  | None => mret None
  | Some t =>
      got ← kref_get_unless_zero w_hsync ht_kref t;
      if negb got then mret None
      else
        ok ← ask k_alloc;
        if negb ok then hgsl_hsync_timeline_put (Some t) ;; mret None
        else
          fence ← fresh_ptr;
          store w_hfences fence (mk_hsync_fence 1 false None ts) ;;
          sync_file ← ask k_alloc;
          if negb sync_file
          then hgsl_hsync_timeline_put (Some t) ;; mret None
          else
            update w_hfences fence (λ f, f <| hf_refcount ::= Z.succ |>) ;;
            update w_hfences fence (λ f, f <| hf_timeline := Some t |>) ;;
            s ← hsync_fence_is_signaled_locked fence;
            when (negb s)
              (update w_hsync t (λ x, x <| ht_fence_list ::= (λ l, l ++ [fence]) |>)) ;;
            mret (Some fence)
  end.

End hsync.

(** ** The specification of signaling a timeline *)

(** Whether the fence at [p] is reached by [ts]. *)
Definition hreached (ts : Z) (m : gmap ptr hgsl_hsync_fence) (p : ptr) : bool :=
  from_option (λ f, hgsl_ts32_ge ts (hf_ts f)) false (m !! p).

(** Every fence of [l] is there once, waits on [t], and somebody besides the list
    holds it. *)
Definition hfences_waiting (t : ptr) (m : gmap ptr hgsl_hsync_fence) (l : list ptr) : Prop :=
  NoDup l ∧ ∀ p, p ∈ l → ∃ f, m !! p = Some f ∧ hf_timeline f = Some t ∧
    hf_signaled f = false ∧ 1 < hf_refcount f.

Definition hsignal (f : hgsl_hsync_fence) : hgsl_hsync_fence := f <| hf_signaled := true |>.

Definition hdrop (f : hgsl_hsync_fence) : hgsl_hsync_fence :=
  f <| hf_refcount := hf_refcount f - 1 |>.

(** [w] with other hsync fences and a longer trace. *)
Definition with_hfences (w : world) (m : gmap ptr hgsl_hsync_fence) (tr : list action) : world :=
  w <| w_hfences := m |> <| w_trace ::= (λ x, x ++ tr) |>.

Definition with_hsync (w : world) (t : ptr) (tl : hgsl_hsync_timeline) : world :=
  w <| w_hsync ::= <[t := tl]> |>.

(** [w] after the fences of [tl] that [ts] reaches have been signaled. *)
Definition hsync_signaled (w : world) (t : ptr) (tl : hgsl_hsync_timeline) (ts : Z) : world :=
  let m := w_hfences w in
  let reached := filter (λ p, hreached ts m p = true) (ht_fence_list tl) in
  with_hsync
    (with_hfences w (alter_on reached (λ f, hdrop (hsignal f)) m)
       (map (λ p, A_fence_signal (Hsync_fence p)) reached))
    t (tl <| ht_last_ts := ts |>
          <| ht_fence_list := filter (λ p, hreached ts m p = false) (ht_fence_list tl) |>).

(** * Lemmas *)

Lemma with_hfences_id w : with_hfences w (w_hfences w) [] = w.
Proof. destruct w. unfold with_hfences. cbn. by rewrite app_nil_r. Qed.

Lemma with_hsync_id w t tl : w_hsync w !! t = Some tl → with_hsync w t tl = w.
Proof. intros Ht. destruct w. cbn in *. unfold with_hsync. cbn. by rewrite insert_id. Qed.

Lemma with_hsync_twice w t a b : with_hsync (with_hsync w t a) t b = with_hsync w t b.
Proof. unfold with_hsync. cbn. by rewrite insert_insert_eq. Qed.

Lemma hfences_waiting_cons t m p l :
  hfences_waiting t m (p :: l) →
  ∃ f, m !! p = Some f ∧ hf_timeline f = Some t ∧ hf_signaled f = false ∧ 1 < hf_refcount f ∧
    (p ∉ l) ∧ hfences_waiting t m l ∧ (∀ v, hfences_waiting t (<[p := v]> m) l).
Proof.
  intros [[Hp Hn]%NoDup_cons Ha]. destruct (Ha p) as (f & Hf & Ht & Hs & Hr); [set_solver|].
  exists f. do 5 (split; [done|]). split.
  - split; [done|]. intros q Hq. apply Ha. set_solver.
  - intros v. split; [done|]. intros q Hq.
    rewrite lookup_insert_ne by (intros ->; done). apply Ha. set_solver.
Qed.

Lemma hreached_insert ts m p v q : p ≠ q → hreached ts (<[p := v]> m) q = hreached ts m q.
Proof. intros Hn. unfold hreached. by rewrite lookup_insert_ne. Qed.

Lemma filter_hreached_insert ts m p v b (l : list ptr) :
  p ∉ l → filter (λ q, hreached ts (<[p := v]> m) q = b) l =
          filter (λ q, hreached ts m q = b) l.
Proof.
  intros Hp. induction l as [|q l IH]; [done|].
  rewrite !filter_cons, hreached_insert by set_solver.
  by rewrite IH by set_solver.
Qed.

Lemma is_signaled_run w p f t tl :
  w_hfences w !! p = Some f → hf_timeline f = Some t → hf_signaled f = false →
  w_hsync w !! t = Some tl →
  hsync_fence_is_signaled_locked p w =
    Some (hreached (ht_last_ts tl) (w_hfences w) p,
      if hreached (ht_last_ts tl) (w_hfences w) p
      then with_hfences w (<[p := hsignal f]> (w_hfences w)) [A_fence_signal (Hsync_fence p)]
      else w).
Proof.
  intros Hf Ht Hs Hl. unfold hsync_fence_is_signaled_locked. run_load Hf. rewrite Hs.
  unfold hreached. rewrite Hf. cbn [from_option].
  set (b := hgsl_ts32_ge (ht_last_ts tl) (hf_ts f)).
  rewrite (bind_run _ _ w b w); [by destruct b|].
  unfold hgsl_hsync_has_signaled. run_load Hf. rewrite Ht.
  rewrite (bind_run _ _ w t w) by done. by run_load Hl.
Qed.

Lemma hsync_split_run l w t tl :
  hfences_waiting t (w_hfences w) l → w_hsync w !! t = Some tl →
  let m := w_hfences w in
  let sel := filter (λ p, hreached (ht_last_ts tl) m p = true) l in
  hsync_split_signaled l w =
    Some ((sel, filter (λ p, hreached (ht_last_ts tl) m p = false) l),
      with_hfences w (alter_on sel hsignal m) (map (λ p, A_fence_signal (Hsync_fence p)) sel)).
Proof.
  revert w. induction l as [|p l IH]; intros w Ha Hl; cbn [hsync_split_signaled].
  { cbn. by rewrite alter_on_nil, with_hfences_id. }
  apply hfences_waiting_cons in Ha as (f & Hf & Ht & Hs & _ & Hn & Ha & Hi).
  cbv zeta. rewrite (bind_run _ _ _ _ _ (is_signaled_run w p f t tl Hf Ht Hs Hl)).
  rewrite !filter_cons.
  destruct (hreached (ht_last_ts tl) (w_hfences w) p) eqn:Eb.
  - rewrite decide_True, decide_False by done.
    set (w1 := with_hfences w _ _).
    rewrite (bind_run _ _ _ _ _ (IH w1 (Hi _) Hl)). unfold mret, M_ret.
    change (w_hfences w1) with (<[p := hsignal f]> (w_hfences w)).
    rewrite !filter_hreached_insert by done.
    rewrite <-(alter_on_cons p _ hsignal (w_hfences w) f).
    + do 2 f_equal. unfold with_hfences, w1. cbn -[filter]. by rewrite <-app_assoc.
    + done.
    + rewrite list_elem_of_filter. naive_solver.
  - rewrite decide_False, decide_True by done.
    by rewrite (bind_run _ _ _ _ _ (IH w Ha Hl)).
Qed.

Lemma hsync_puts_run l w :
  NoDup l → (∀ p, p ∈ l → ∃ f, w_hfences w !! p = Some f ∧ 1 < hf_refcount f) →
  for_each l hsync_fence_put w =
    Some (tt, with_hfences w (alter_on l hdrop (w_hfences w)) []).
Proof.
  revert w. induction l as [|p l IH]; intros w Hn Ha; cbn [for_each].
  { by rewrite alter_on_nil, with_hfences_id. }
  apply NoDup_cons in Hn as [Hp Hn]. destruct (Ha p) as (f & Hf & Hr); [set_solver|].
  set (w1 := with_hfences w (<[p := hdrop f]> (w_hfences w)) []).
  rewrite (bind_run _ _ _ tt w1).
  2:{ unfold hsync_fence_put, kref_put. run_load Hf.
      destruct (Z.eqb_spec (hf_refcount f) 0); [lia|].
      rewrite (bind_run _ _ w tt w1).
      - by destruct (Z.eqb_spec (hf_refcount f - 1) 0); [lia|].
      - unfold store, modify, w1, with_hfences. do 2 f_equal. destruct w; cbn.
        by rewrite app_nil_r. }
  rewrite IH; [|done|].
  - do 2 f_equal. unfold with_hfences, w1. cbn. rewrite <-app_assoc. cbn.
    by rewrite (alter_on_cons p l hdrop (w_hfences w) f).
  - intros q Hq. unfold w1. cbn. rewrite lookup_insert_ne by (intros ->; done).
    apply Ha. set_solver.
Qed.

Lemma hsync_signal_run t ts w tl :
  w_hsync w !! t = Some tl → 0 < ht_kref tl →
  hfences_waiting t (w_hfences w) (ht_fence_list tl) →
  hgsl_hsync_timeline_signal (Some t) ts w =
    Some (tt, if hgsl_ts32_ge (ht_last_ts tl) ts then w else hsync_signaled w t tl ts).
Proof.
  intros Ht Hk Ha. unfold hgsl_hsync_timeline_signal.
  set (tl1 := tl <| ht_kref := ht_kref tl + 1 |>). set (w1 := with_hsync w t tl1).
  rewrite (bind_run _ _ w true w1).
  2:{ unfold kref_get_unless_zero. run_load Ht. by destruct (Z.eqb_spec (ht_kref tl) 0); [lia|]. }
  assert (Ht1 : w_hsync w1 !! t = Some tl1) by apply lookup_insert_eq.
  cbn [negb]. run_load Ht1. change (ht_last_ts tl1) with (ht_last_ts tl).
  assert (Put : ∀ w2 tl2, w_hsync w2 !! t = Some tl2 → 1 < ht_kref tl2 →
    hgsl_hsync_timeline_put (Some t) w2 =
      Some (tt, with_hsync w2 t (tl2 <| ht_kref := ht_kref tl2 - 1 |>))).
  { intros w2 tl2 H2 Hk2. unfold hgsl_hsync_timeline_put, kref_put. run_load H2.
    destruct (Z.eqb_spec (ht_kref tl2) 0); [lia|].
    rewrite (bind_run _ _ w2 tt (with_hsync w2 t (tl2 <| ht_kref := ht_kref tl2 - 1 |>))) by done.
    by destruct (Z.eqb_spec (ht_kref tl2 - 1) 0); [lia|]. }
  destruct (hgsl_ts32_ge (ht_last_ts tl) ts); cbn [negb when].
  { rewrite (bind_run _ _ w1 tt w1) by done.
    rewrite (Put w1 tl1) by (done || (cbn; lia)). unfold w1.
    rewrite with_hsync_twice.
    replace (tl1 <| ht_kref := ht_kref tl1 - 1 |>) with tl
      by (unfold tl1; destruct tl; cbn; f_equal; lia).
    by rewrite with_hsync_id. }
  set (tl2 := tl1 <| ht_last_ts := ts |>). set (w2 := with_hsync w1 t tl2).
  assert (Ht2 : w_hsync w2 !! t = Some tl2) by apply lookup_insert_eq.
  change (ht_fence_list tl1) with (ht_fence_list tl).
  set (reached := filter (λ p, hreached ts (w_hfences w) p = true) (ht_fence_list tl)).
  set (rest := filter (λ p, hreached ts (w_hfences w) p = false) (ht_fence_list tl)).
  set (w3 := with_hfences w2 (alter_on reached hsignal (w_hfences w))
               (map (λ p, A_fence_signal (Hsync_fence p)) reached)).
  set (tl3 := tl2 <| ht_fence_list := rest |>). set (w4 := with_hsync w3 t tl3).
  set (w5 := with_hfences w4 (alter_on reached hdrop (w_hfences w4)) []).
  assert (Ht5 : w_hsync w5 !! t = Some tl3) by apply lookup_insert_eq.
  rewrite (bind_run _ _ w1 tt w5).
  - rewrite (Put w5 tl3) by (done || (cbn; lia)). do 2 f_equal.
    unfold hsync_signaled, w5, w4, w3, w2, w1, with_hsync, with_hfences.
    cbn -[filter hreached alter_on]. rewrite !insert_insert_eq, app_nil_r.
    rewrite alter_on_twice. fold reached rest. do 2 f_equal.
    unfold tl3, tl2, tl1. destruct tl; cbn -[filter hreached]. f_equal. lia.
  - rewrite (bind_run _ _ w1 tt w2) by by apply (update_run _ _ _ _ _ Ht1).
    rewrite (bind_run _ _ _ _ _ (hsync_split_run (ht_fence_list tl) w2 t tl2 Ha Ht2)).
    rewrite (bind_run _ _ _ tt w4)
      by by apply (update_run w_hsync t (λ x, x <| ht_fence_list := rest |>) w3 tl2).
    apply hsync_puts_run; [by apply NoDup_filter, Ha|].
    intros p Hp. assert (Hp' := Hp). apply list_elem_of_filter in Hp' as [_ Hp'].
    apply Ha in Hp' as (f & Hf & _ & _ & Hr). exists (hsignal f).
    change (w_hfences w4) with (alter_on reached hsignal (w_hfences w)).
    rewrite alter_on_lookup, decide_True by exact Hp. by rewrite Hf.
Qed.

(** * Properties *)

(** C38. A retired timestamp reaches a hardware timeline: unless the timeline is
    already there, its last timestamp becomes [ts], exactly the waiting fences at
    or before [ts] (in the wrapping order) become signaled, leave the list and
    lose the list's reference, the others keep their places, and the timeline's
    own reference count is what it was.  Otherwise nothing changes. *)
Theorem hsync_signal_exact t ts w tl :
  w_hsync w !! t = Some tl → 0 < ht_kref tl →
  hfences_waiting t (w_hfences w) (ht_fence_list tl) →
  ∃ w', hgsl_hsync_timeline_signal (Some t) ts w = Some (tt, w') ∧
  if hgsl_ts32_ge (ht_last_ts tl) ts then w' = w
  else
    let m := w_hfences w in
    let reached := filter (λ p, hreached ts m p = true) (ht_fence_list tl) in
    w_hfences w' = alter_on reached (λ f, hdrop (hsignal f)) m ∧
    w_hsync w' = <[t := tl <| ht_last_ts := ts |>
        <| ht_fence_list := filter (λ p, hreached ts m p = false) (ht_fence_list tl) |>]> (w_hsync w) ∧
    w_trace w' = w_trace w ++ map (λ p, A_fence_signal (Hsync_fence p)) reached.
Proof.
  intros Ht Hk Ha. eexists. split; [by apply hsync_signal_run|].
  destruct (hgsl_ts32_ge (ht_last_ts tl) ts); [done|]. by split_and!.
Qed.

(** A timeline (2) at 4 with fences for 7, 20 and 9. *)
#[local] Definition small_hsync : hgsl_hsync_timeline :=
  mk_hsync_timeline 1 [11; 12; 13]%positive 4.
#[local] Definition small_hfence (ts : Z) : hgsl_hsync_fence :=
  mk_hsync_fence 2 false (Some 2%positive) ts.
#[local] Definition hsync_world : world :=
  empty_world
    <| w_hsync := {[2%positive := small_hsync]} |>
    <| w_hfences := {[11%positive := small_hfence 7; 12%positive := small_hfence 20;
                      13%positive := small_hfence 9]} |>.

Lemma hsync_signal_exact_witness :
  ∃ w', hgsl_hsync_timeline_signal (Some 2%positive) 9 hsync_world = Some (tt, w') ∧
    w_hsync w' = {[2%positive := small_hsync <| ht_last_ts := 9 |>
                                   <| ht_fence_list := [12%positive] |>]} ∧
    w_trace w' = [A_fence_signal (Hsync_fence 11); A_fence_signal (Hsync_fence 13)].
Proof.
  destruct (hsync_signal_exact 2 9 hsync_world small_hsync) as (w' & H & E); [done|done| |].
  { split; [repeat constructor; set_solver|]. intros p Hp. cbn in Hp.
    rewrite !elem_of_cons, elem_of_nil in Hp.
    destruct Hp as [->|[->|[->|[]]]]; eexists; done. }
  exists w'. split; [exact H|]. destruct E as (_ & E1 & E2). rewrite E1, E2. done.
Defined.
