(* ===== verification/Context.v ===== *)
(** GPU contexts (hgsl.h, hgsl.c): reference counting, the table of contexts,
    the shadow timestamps and the choice of the next timestamp. *)

From S2P Require Import Prelude.
From S2P Require Import State.
From S2P Require Import Timestamp.
From S2P Require Import Hsync.

Section context.
Context `{K : Kernel}.

(** * Definitions *)

Definition hgsl_hnd2id (dev_hnd : Z) : Z :=
  if dev_hnd =? GSL_HANDLE_NULL then U32_MAX
  else if dev_hnd =? GSL_HANDLE_DEV1 then 1 else 0.

(** false stands for the NULL result. *)
Definition hgsl_context_get (ctxt : option ptr) : M world bool :=
  match ctxt with
  | Some p => kref_get_unless_zero w_contexts c_kref p
  | None => mret false
  end.

Definition _destroy_context (ctxt : ptr) : M world unit :=
  c ← load w_contexts ctxt;
  match c_timeline c with
  | Some t => hgsl_hsync_timeline_fini ctxt ;; hgsl_hsync_timeline_put (Some t)
  | None => mret tt
  end ;;
  match c_dbq c with
  | Some dbq => emit (A_dbq_context_destroy dbq (c_context_id c))
  | None => mret tt
  end ;;
  update w_contexts ctxt (λ c, c <| c_destroyed := true |>).

Definition hgsl_put_context (ctxt : option ptr) : M world unit :=
  match ctxt with
  | Some p => kref_put w_contexts c_kref p (_destroy_context p)
  | None => mret tt
  end.

Definition hgsl_get_context (dev_hnd context_id : Z) : M world (option ptr) :=
  let dev_id := hgsl_hnd2id dev_hnd in
  if HGSL_DEVICE_NUM <=? dev_id then mret None
  else if context_id <? HGSL_CONTEXT_NUM then
    table ← gets w_table;
    match table !! (dev_id, context_id) with
    | Some p => kref_get w_contexts c_kref p ;; mret (Some p)
    | None => mret None
    end
  else mret None.

Definition hgsl_get_context_owner (priv : ptr) (dev_hnd context_id : Z) :
  M world (option ptr) :=
  ctxt ← hgsl_get_context dev_hnd context_id;
  match ctxt with
  | Some p =>
      c ← load w_contexts p;
      if bool_decide (c_priv c = priv) then mret (Some p)
      else hgsl_put_context (Some p) ;; mret None
  | None => mret None
  end.

(** The table has HGSL_CONTEXT_NUM entries; an index outside it is a fault. *)
Definition hgsl_remove_context (priv : ptr) (dev_hnd context_id : Z) :
  M world (option ptr) :=
  let dev_id := hgsl_hnd2id dev_hnd in
  if HGSL_DEVICE_NUM <=? dev_id then mret None
  else if negb ((0 <=? context_id) && (context_id <? HGSL_CONTEXT_NUM)) then fault
  else
    table ← gets w_table;
    match table !! (dev_id, context_id) with
    | Some p =>
        c ← load w_contexts p;
        if bool_decide (c_priv c = priv)
        then modify (λ w, w <| w_table ::= delete (dev_id, context_id) |>) ;;
             mret (Some p)
        else mret None
    | None => mret None
    end.

(** The pair is the return code and [*timestamp]. *)
Definition get_context_shadow_ts (ctxt : ptr) (type : Z) : M world (Z * Z) :=
  c ← load w_contexts ctxt;
  mret match c_shadow_ts c with
       | None => (- EINVAL, 0)
       | Some s =>
           if type =? GSL_TIMESTAMP_RETIRED then (0, eop s)
           else if type =? GSL_TIMESTAMP_CONSUMED then (0, sop s)
           else if type =? GSL_TIMESTAMP_QUEUED then (0, c_queued_ts c)
           else (- EINVAL, 0)
       end.

Definition set_context_shadow_ts (ctxt : ptr) (type ts : Z) : M world unit :=
  c ← load w_contexts ctxt;
  match c_shadow_ts c with
  | None => mret tt
  | Some s =>
      if type =? GSL_TIMESTAMP_RETIRED
      then store w_contexts ctxt (c <| c_shadow_ts := Some (s <| eop := ts |>) |>)
      else if type =? GSL_TIMESTAMP_CONSUMED
      then store w_contexts ctxt (c <| c_shadow_ts := Some (s <| sop := ts |>) |>)
      else mret tt
  end.

(** [*expired] is only written on success: None leaves it alone. *)
Definition hgsl_check_shadow_timestamp (ctxt : ptr) (type timestamp : Z) :
  M world (Z * option bool) :=
  '(ret, ts_read) ← get_context_shadow_ts ctxt type;
  mret (ret, if ret =? 0 then Some (hgsl_ts32_ge ts_read timestamp) else None).

(** [old] is the value of [*timestamp] before the call. *)
Definition hgsl_read_timestamp (ctxt : ptr) (type old : Z) : M world (Z * Z) :=
  got ← hgsl_context_get (Some ctxt);
  if negb got then mret (- ENOENT, old)
  else
    '(ret, timestamp) ← get_context_shadow_ts ctxt type;
    hgsl_put_context (Some ctxt) ;;
    if ret =? 0 then mret (ret, timestamp)
    else
      c ← load w_contexts ctxt;
      ask (λ n, k_hyp_read_ts n (c_devhandle c) (c_context_id c) type).

Definition hgsl_check_timestamp (ctxt : ptr) (timestamp : Z) : M world bool :=
  u ← ask k_uninit;
  '(ret, retired) ← hgsl_read_timestamp ctxt GSL_TIMESTAMP_RETIRED u;
  mret (if ret =? 0 then hgsl_ts32_ge retired timestamp else false).

(** The return code and the new [*timestamp]. *)
Definition hgsl_db_next_timestamp (c : hgsl_context) (timestamp : Z) : Z * Z :=
  if negb (has_flag (c_flags c) GSL_CONTEXT_FLAG_USER_GENERATED_TS)
  then (0, timestamp)
  else if has_flag (c_flags c) GSL_CONTEXT_FLAG_CLIENT_GENERATED_TS
  then if hgsl_ts32_ge (c_queued_ts c) timestamp
       then (- ERANGE, timestamp) else (0, timestamp)
  else
    let ts := u32 (c_queued_ts c + 1) in
    (0, if ts =? UINT_MAX then 1 else ts).

End context.

(** Which look-ups of a context succeed for process [priv]. *)
Definition owns (priv : ptr) (dev_hnd id : Z) (c : hgsl_context) : bool :=
  (hgsl_hnd2id dev_hnd <? HGSL_DEVICE_NUM) && (id <? HGSL_CONTEXT_NUM) &&
    bool_decide (c_priv c = priv).

(** [w] with [c] as the context at [p]. *)
Definition with_context (w : world) (p : ptr) (c : hgsl_context) : world :=
  w <| w_contexts ::= <[p := c]> |>.

(** * Lemmas *)

Lemma with_context_lookup w p c : w_contexts (with_context w p c) !! p = Some c.
Proof. apply lookup_insert_eq. Qed.

Lemma with_context_twice w p c c' :
  with_context (with_context w p c) p c' = with_context w p c'.
Proof. unfold with_context. cbn. by rewrite insert_insert_eq. Qed.

Lemma with_context_id w p c : w_contexts w !! p = Some c → with_context w p c = w.
Proof. intros Hc. destruct w. cbn in *. unfold with_context. cbn. by rewrite insert_id. Qed.

Lemma kref_id c : c <| c_kref := c_kref c |> = c.
Proof. by destruct c. Qed.

Section references.
Context `{K : Kernel}.

Lemma context_get_run w p c :
  w_contexts w !! p = Some c → c_kref c ≠ 0 →
  hgsl_context_get (Some p) w =
    Some (true, with_context w p (c <| c_kref := c_kref c + 1 |>)).
Proof.
  intros Hc Hk. unfold hgsl_context_get, kref_get_unless_zero. run_load Hc.
  by destruct (Z.eqb_spec (c_kref c) 0).
Qed.

Lemma context_get_dead w p c :
  w_contexts w !! p = Some c → c_kref c = 0 →
  hgsl_context_get (Some p) w = Some (false, w).
Proof.
  intros Hc Hk. unfold hgsl_context_get, kref_get_unless_zero. run_load Hc. by rewrite Hk.
Qed.

(** Dropping a reference that is not the last. *)
Lemma put_context_run w p c :
  w_contexts w !! p = Some c → 1 < c_kref c →
  hgsl_put_context (Some p) w =
    Some (tt, with_context w p (c <| c_kref := c_kref c - 1 |>)).
Proof.
  intros Hc Hk. unfold hgsl_put_context, kref_put. run_load Hc.
  destruct (Z.eqb_spec (c_kref c) 0); [lia|].
  rewrite (bind_run _ _ w tt (with_context w p (c <| c_kref := c_kref c - 1 |>))) by done.
  by destruct (Z.eqb_spec (c_kref c - 1) 0); [lia|].
Qed.

(** A reference taken and given back leaves no trace. *)
Lemma get_put_id w p c :
  w_contexts w !! p = Some c → 0 < c_kref c →
  hgsl_put_context (Some p) (with_context w p (c <| c_kref := c_kref c + 1 |>)) =
    Some (tt, w).
Proof.
  intros Hc Hk.
  rewrite (put_context_run _ _ (c <| c_kref := c_kref c + 1 |>));
    [|apply with_context_lookup|cbn; lia].
  rewrite with_context_twice.
  replace (_ <| c_kref := _ |>) with c; [by rewrite with_context_id|].
  destruct c. cbn. f_equal. lia.
Qed.

Lemma get_shadow_run w p c s type :
  w_contexts w !! p = Some c → c_shadow_ts c = Some s →
  get_context_shadow_ts p type w = Some (
    if type =? GSL_TIMESTAMP_RETIRED then (0, eop s)
    else if type =? GSL_TIMESTAMP_CONSUMED then (0, sop s)
    else if type =? GSL_TIMESTAMP_QUEUED then (0, c_queued_ts c)
    else (- EINVAL, 0), w).
Proof. intros Hc Hs. unfold get_context_shadow_ts. run_load Hc. by rewrite Hs. Qed.

(** With shadow timestamps a timestamp is read without asking the hypervisor. *)
Lemma read_timestamp_run w p c s type old :
  w_contexts w !! p = Some c → 0 < c_kref c → c_shadow_ts c = Some s →
  type ∈ [GSL_TIMESTAMP_RETIRED; GSL_TIMESTAMP_CONSUMED; GSL_TIMESTAMP_QUEUED] →
  hgsl_read_timestamp p type old w = Some (
    (0, if type =? GSL_TIMESTAMP_RETIRED then eop s
        else if type =? GSL_TIMESTAMP_CONSUMED then sop s else c_queued_ts c), w).
Proof.
  intros Hc Hk Hs Ht. unfold hgsl_read_timestamp.
  rewrite (bind_run _ _ _ _ _ (context_get_run w p c Hc ltac:(lia))). cbn [negb].
  set (c1 := c <| c_kref := c_kref c + 1 |>).
  rewrite (bind_run _ _ _ _ _ (get_shadow_run _ p c1 s type
    (with_context_lookup w p c1) Hs)).
  rewrite !elem_of_cons, elem_of_nil in Ht.
  destruct Ht as [->|[->|[->|[]]]]; cbn -[hgsl_put_context mbind]; by
    rewrite (bind_run _ _ _ _ _ (get_put_id w p c Hc Hk)).
Qed.

Lemma get_context_owner_run priv dev_hnd id p c w :
  w_table w !! (hgsl_hnd2id dev_hnd, id) = Some p →
  w_contexts w !! p = Some c → 0 < c_kref c →
  hgsl_get_context_owner priv dev_hnd id w =
    if owns priv dev_hnd id c
    then Some (Some p, with_context w p (c <| c_kref := c_kref c + 1 |>))
    else Some (None, w).
Proof.
  intros Ht Hc Hk. unfold hgsl_get_context_owner, owns.
  destruct (Z.ltb_spec (hgsl_hnd2id dev_hnd) HGSL_DEVICE_NUM) as [Hd|Hd]; cbn [andb].
  2:{ rewrite (bind_run _ _ w None w); [done|]. unfold hgsl_get_context.
      by destruct (Z.leb_spec HGSL_DEVICE_NUM (hgsl_hnd2id dev_hnd)); [|lia]. }
  destruct (Z.ltb_spec id HGSL_CONTEXT_NUM) as [Hi|Hi]; cbn [andb].
  2:{ rewrite (bind_run _ _ w None w); [done|]. unfold hgsl_get_context.
      destruct (Z.leb_spec HGSL_DEVICE_NUM (hgsl_hnd2id dev_hnd)); [lia|].
      by destruct (Z.ltb_spec id HGSL_CONTEXT_NUM); [lia|]. }
  set (c1 := c <| c_kref := c_kref c + 1 |>).
  assert (Hg : hgsl_get_context dev_hnd id w = Some (Some p, with_context w p c1)).
  { unfold hgsl_get_context.
    destruct (Z.leb_spec HGSL_DEVICE_NUM (hgsl_hnd2id dev_hnd)); [lia|].
    destruct (Z.ltb_spec id HGSL_CONTEXT_NUM); [|lia].
    rewrite (bind_run _ _ w (w_table w) w), Ht by done.
    rewrite (bind_run _ _ w tt (with_context w p c1)); [done|].
    unfold kref_get. run_load Hc. by destruct (Z.eqb_spec (c_kref c) 0); [lia|]. }
  rewrite (bind_run _ _ _ _ _ Hg). run_load (with_context_lookup w p c1).
  change (c_priv c1) with (c_priv c).
  destruct (bool_decide (c_priv c = priv)); [done|].
  by rewrite (bind_run _ _ _ _ _ (get_put_id w p c Hc Hk)).
Qed.

End references.

(** * Properties *)

Section properties.
Context `{K : Kernel}.

(** The timestamp of the next submission: for a context whose timestamps the
    driver orders, a successful call returns a 32-bit timestamp strictly after
    the last queued one (in the wrapping order), and a generated one is never the
    reserved 0xffffffff; a client timestamp that is not after the last one is
    refused with -ERANGE.  A context without USER_GENERATED_TS keeps what it
    passed. *)
Theorem db_next_timestamp_advances c timestamp ret ts :
  is_u32 (c_queued_ts c) → is_u32 timestamp →
  hgsl_db_next_timestamp c timestamp = (ret, ts) →
  if has_flag (c_flags c) GSL_CONTEXT_FLAG_USER_GENERATED_TS then
    (ret = 0 ∧ is_u32 ts ∧ ts ≠ c_queued_ts c ∧
     (has_flag (c_flags c) GSL_CONTEXT_FLAG_CLIENT_GENERATED_TS = true →
      ts = timestamp ∧ hgsl_ts32_ge (c_queued_ts c) ts = false) ∧
     (has_flag (c_flags c) GSL_CONTEXT_FLAG_CLIENT_GENERATED_TS = false →
      ts ≠ UINT_MAX ∧ hgsl_ts32_ge ts (c_queued_ts c) = true)) ∨
    (ret = - ERANGE ∧ ts = timestamp ∧ hgsl_ts32_ge (c_queued_ts c) timestamp = true)
  else ret = 0 ∧ ts = timestamp.
Proof.
  intros Hq Ht. unfold hgsl_db_next_timestamp.
  destruct (has_flag (c_flags c) GSL_CONTEXT_FLAG_USER_GENERATED_TS);
    cbn [negb]; [|by intros [= <- <-]].
  destruct (has_flag (c_flags c) GSL_CONTEXT_FLAG_CLIENT_GENERATED_TS).
  - destruct (hgsl_ts32_ge (c_queued_ts c) timestamp) eqn:E; intros [= <- <-]; [auto|].
    left. split; [done|]. split; [done|]. split; [|done].
    intros ->. by rewrite hgsl_ts32_ge_refl in E.
  - intros [= <- <-]. left. split; [done|]. unfold is_u32, u32, UINT_MAX in *.
    destruct (Z.eqb_spec ((c_queued_ts c + 1) mod 4294967296) 4294967295) as [E|E].
    + assert (c_queued_ts c = 4294967294) as ->.
      { Z.to_euclidean_division_equations. lia. }
      repeat split; try lia; done.
    + pose proof (Z.mod_pos_bound (c_queued_ts c + 1) 4294967296 ltac:(lia)).
      split; [lia|]. split; [Z.to_euclidean_division_equations; lia|].
      split; [done|]. intros _. split; [done|].
      apply hgsl_ts32_ge_iff; unfold is_u32; [lia..|]. exists 1. split; [lia|done].
Qed.

(** Looking up a context of one's own takes exactly one reference, which
    hgsl_put_context gives back; for a context of another process the call
    returns NULL and leaves no trace; out-of-range ids and unknown handles are
    refused. *)
Theorem get_context_owner_balanced priv dev_hnd id p c w :
  w_table w !! (hgsl_hnd2id dev_hnd, id) = Some p →
  w_contexts w !! p = Some c → 0 < c_kref c →
  if owns priv dev_hnd id c
  then ∃ w1, hgsl_get_context_owner priv dev_hnd id w = Some (Some p, w1) ∧
    w_contexts w1 !! p = Some (c <| c_kref := c_kref c + 1 |>) ∧
    hgsl_put_context (Some p) w1 = Some (tt, w)
  else hgsl_get_context_owner priv dev_hnd id w = Some (None, w).
Proof.
  intros Ht Hc Hk. rewrite (get_context_owner_run priv dev_hnd id p c w Ht Hc Hk).
  destruct (owns priv dev_hnd id c); [|done].
  exists (with_context w p (c <| c_kref := c_kref c + 1 |>)).
  split; [done|]. split; [apply with_context_lookup|]. by apply get_put_id.
Qed.

End properties.

Lemma db_next_timestamp_advances_witness :
  let c := (fresh_context 1 7 GSL_CONTEXT_FLAG_USER_GENERATED_TS None)
             <| c_queued_ts := 4294967294 |> in
  hgsl_db_next_timestamp c 0 = (0, 1) ∧ 1 ≠ c_queued_ts c.
Proof.
  intros c. split; [done|].
  destruct (db_next_timestamp_advances c 0 0 1) as [(_ & _ & H & _)|[H _]];
    [by vm_compute..|exact H|done].
Defined.

Section witnesses.
#[local] Existing Instance quiet_kernel.

Lemma get_context_owner_balanced_witness :
  let w := empty_world
    <| w_contexts := {[3%positive := fresh_context 1 7 0 None]} |>
    <| w_table := {[(0, 7) := 3%positive]} |> in
  hgsl_get_context_owner 2 GSL_HANDLE_DEV0 7 w = Some (None, w).
Proof.
  intros w. apply (get_context_owner_balanced 2 GSL_HANDLE_DEV0 7 3
    (fresh_context 1 7 0 None) w); [by vm_compute..|done].
Defined.
End witnesses.
