(* ===== verification/Events.v ===== *)
(** Timestamp events (hgsl_events.c): the event group of a context, and what
    retires, cancels and adds events. *)

From S2P Require Import Prelude.
From S2P Require Import State.
From S2P Require Import Timestamp.
From S2P Require Import Hsync.
From S2P Require Import Context.

Section events.
Context `{K : Kernel}.

(** * Definitions *)

(** The work queued by signal_event; the caller's loop takes the event off the
    group's list. *)
Definition signal_event (event : hgsl_event) (result : Z) : M world unit :=
  modify (λ w, w <| w_events ::= (λ q, q ++ [event <| he_result := result |>]) |>).

(** The [list_for_each_entry_safe] loop of _process_event_group; returns the
    events that stay on the list. *)
Fixpoint process_events (retired : Z) (flush : bool) (l : list hgsl_event) :
  M world (list hgsl_event) :=
  match l with
  | [] => mret []
  | event :: l' =>
      if hgsl_ts32_ge retired (he_timestamp event)
      then signal_event event HGSL_EVENT_RETIRED ;; process_events retired flush l'
      else if flush
      then signal_event event HGSL_EVENT_CANCELLED ;; process_events retired flush l'
      else rest ← process_events retired flush l'; mret (event :: rest)
  end.

Definition set_events (ctxt : ptr) (l : list hgsl_event) : M world unit :=
  update w_contexts ctxt
    (λ c, c <| c_event_group ::= (λ g, g <| eg_events := l |>) |>).

(** A group is named by the context it is embedded in. *)
Definition _process_event_group (ctxt : ptr) (flush : bool) : M world unit :=
  got ← hgsl_context_get (Some ctxt);
  if negb got then mret tt
  else
    u ← ask k_uninit;
    '(_, retired) ← hgsl_read_timestamp ctxt GSL_TIMESTAMP_RETIRED u;
    c ← load w_contexts ctxt;
    let group := c_event_group c in
    when (negb (negb flush && hgsl_ts32_ge (eg_processed group) retired))
      (rest ← process_events retired flush (eg_events group);
       set_events ctxt rest ;;
       update w_contexts ctxt
         (λ c, c <| c_event_group ::= (λ g, g <| eg_processed := retired |>) |>)) ;;
    hgsl_put_context (Some ctxt).

Definition hgsl_process_event_group (ctxt : ptr) : M world unit :=
  _process_event_group ctxt false.

Definition hgsl_flush_event_group (ctxt : ptr) : M world unit :=
  _process_event_group ctxt true.

Fixpoint cancel_events_timestamp (timestamp : Z) (l : list hgsl_event) :
  M world (list hgsl_event) :=
  match l with
  | [] => mret []
  | event :: l' =>
      if timestamp =? he_timestamp event
      then signal_event event HGSL_EVENT_CANCELLED ;; cancel_events_timestamp timestamp l'
      else rest ← cancel_events_timestamp timestamp l'; mret (event :: rest)
  end.

Definition hgsl_cancel_events_timestamp (ctxt : ptr) (timestamp : Z) : M world unit :=
  c ← load w_contexts ctxt;
  rest ← cancel_events_timestamp timestamp (eg_events (c_event_group c));
  set_events ctxt rest.

(** Only the first event that matches is cancelled. *)
Fixpoint cancel_event (timestamp : Z) (func : event_func) (l : list hgsl_event) :
  M world (list hgsl_event) :=
  match l with
  | [] => mret []
  | event :: l' =>
      if (timestamp =? he_timestamp event) && bool_decide (func = he_func event)
      then signal_event event HGSL_EVENT_CANCELLED ;; mret l'
      else rest ← cancel_event timestamp func l'; mret (event :: rest)
  end.

Definition hgsl_cancel_event (ctxt : ptr) (timestamp : Z) (func : event_func) :
  M world unit :=
  c ← load w_contexts ctxt;
  rest ← cancel_event timestamp func (eg_events (c_event_group c));
  set_events ctxt rest.

(** The part of hgsl_add_event after its test on the queued timestamp. *)
Definition add_checked_event (ctxt : ptr) (timestamp : Z) (func : event_func) :
  M world Z :=
  ok ← ask k_alloc;
  if negb ok then mret (- ENOMEM)
  else
    got ← hgsl_context_get (Some ctxt);
    if negb got then mret (- ENOENT)
    else
      let event := mk_event ctxt timestamp func 0 in
      u ← ask k_uninit;
      '(_, retired) ← hgsl_read_timestamp ctxt GSL_TIMESTAMP_RETIRED u;
      if hgsl_ts32_ge retired timestamp
      then signal_event event HGSL_EVENT_RETIRED ;; mret 0
      else
        c ← load w_contexts ctxt;
        set_events ctxt (eg_events (c_event_group c) ++ [event]) ;;
        mret 0.

Definition hgsl_add_event (ctxt : ptr) (timestamp : Z) (func : option event_func) :
  M world Z :=
  match func with
  | None => mret (- EINVAL)
  | Some func =>
      c ← load w_contexts ctxt;
      if negb (has_flag (c_flags c) GSL_CONTEXT_FLAG_USER_GENERATED_TS)
      then
        u ← ask k_uninit;
        '(_, queued) ← hgsl_read_timestamp ctxt GSL_TIMESTAMP_QUEUED u;
        if hgsl_ts32_ge timestamp queued then mret (- EINVAL)
        else add_checked_event ctxt timestamp func
      else add_checked_event ctxt timestamp func
  end.

Definition hgsl_process_event_groups : M world unit :=
  groups ← gets w_event_groups;
  for_each groups (λ ctxt, _process_event_group ctxt false).

Definition hgsl_add_event_group (ctxt : ptr) : M world unit :=
  set_events ctxt [] ;;
  modify (λ w, w <| w_event_groups ::= (λ l, l ++ [ctxt]) |>).

Definition hgsl_del_event_group (ctxt : ptr) : M world unit :=
  modify (λ w, w <| w_event_groups ::= filter (λ p, p ≠ ctxt) |>).

(** static void _signal_contexts (hgsl.c): every context of the device. *)
Definition _signal_contexts (dev_hnd : Z) : M world unit :=
  for_each (seqZ 0 HGSL_CONTEXT_NUM) (λ i,
    ctxt ← hgsl_get_context dev_hnd i;
    match ctxt with
    | None => mret tt
    | Some p => hgsl_process_event_group p ;; hgsl_put_context (Some p)
    end).

Definition get_context_retired_ts (ctxt : ptr) : M world Z :=
  c ← load w_contexts ctxt;
  s ← of_option (c_shadow_ts c);
  mret (eop s).

Definition _timestamp_retired (ctxt : ptr) (timestamp : Z) : M world bool :=
  retired ← get_context_retired_ts ctxt;
  mret (hgsl_ts32_ge retired timestamp).

Definition hgsl_retire_common (dev_hnd : Z) : M world unit :=
  waits ← gets w_active_wait;
  for_each waits (λ '(ctxt, timestamp),
    retired ← _timestamp_retired ctxt timestamp;
    when retired (emit (A_wake_up_waiters ctxt))) ;;
  _signal_contexts dev_hnd.

End events.

(** ** The specification of an event group *)

(** What a pass over the group does with an event: the result it is signaled
    with, or None when it stays. *)
Definition event_outcome (retired : Z) (flush : bool) (e : hgsl_event) : option Z :=
  if hgsl_ts32_ge retired (he_timestamp e) then Some HGSL_EVENT_RETIRED
  else if flush then Some HGSL_EVENT_CANCELLED else None.

(** The events of [l] that leave, with their results, and those that stay. *)
Definition leaving (outcome : hgsl_event → option Z) (l : list hgsl_event) : list hgsl_event :=
  omap (λ e, r ← outcome e; Some (e <| he_result := r |>)) l.

Definition staying (outcome : hgsl_event → option Z) (l : list hgsl_event) : list hgsl_event :=
  omap (λ e, match outcome e with Some _ => None | None => Some e end) l.

(** [w] with the events [l] handed to the worker. *)
Definition with_events (w : world) (l : list hgsl_event) : world :=
  w <| w_events ::= (λ q, q ++ l) |>.

(** A group after a pass that read [retired]. *)
Definition passed (retired : Z) (flush : bool) (g : hgsl_event_group) : hgsl_event_group :=
  mk_group (staying (event_outcome retired flush) (eg_events g)) retired.

(** One call to the environment has been made. *)
Definition ticked (w : world) : world := w <| w_clock := S (w_clock w) |>.

(** The first event that matches, taken out of the list. *)
Fixpoint take_first (P : hgsl_event → bool) (l : list hgsl_event) :
  option (list hgsl_event * hgsl_event * list hgsl_event) :=
  match l with
  | [] => None
  | e :: l' => if P e then Some ([], e, l')
               else '(a, x, b) ← take_first P l'; Some (e :: a, x, b)
  end.

Definition matches (timestamp : Z) (func : event_func) (e : hgsl_event) : bool :=
  (timestamp =? he_timestamp e) && bool_decide (func = he_func e).

(** * Lemmas *)

Lemma with_events_nil w : with_events w [] = w.
Proof. destruct w. unfold with_events. cbn. by rewrite app_nil_r. Qed.

Lemma with_events_app w l1 l2 : with_events (with_events w l1) l2 = with_events w (l1 ++ l2).
Proof. unfold with_events. cbn. by rewrite <-app_assoc. Qed.

Lemma with_events_cons w e l :
  with_events (w <| w_events ::= (λ q, q ++ [e]) |>) l = with_events w (e :: l).
Proof. unfold with_events. cbn. by rewrite <-app_assoc. Qed.

Lemma staying_cons outcome e l :
  staying outcome (e :: l) =
    match outcome e with
    | Some _ => staying outcome l
    | None => e :: staying outcome l
    end.
Proof. unfold staying. cbn. by destruct (outcome e). Qed.

Lemma leaving_cons outcome e l :
  leaving outcome (e :: l) =
    match outcome e with
    | Some r => e <| he_result := r |> :: leaving outcome l
    | None => leaving outcome l
    end.
Proof. unfold leaving. cbn. by destruct (outcome e). Qed.

Lemma signal_event_run e r w :
  signal_event e r w = Some (tt, with_events w [e <| he_result := r |>]).
Proof. done. Qed.

Lemma process_events_run retired flush l w :
  process_events retired flush l w = Some (
    staying (event_outcome retired flush) l,
    with_events w (leaving (event_outcome retired flush) l)).
Proof.
  revert w. induction l as [|e l IH]; intros w; cbn [process_events].
  { cbn. by rewrite with_events_nil. }
  rewrite staying_cons, leaving_cons.
  destruct (event_outcome retired flush e) as [r|] eqn:E; unfold event_outcome in E;
    destruct (hgsl_ts32_ge retired (he_timestamp e)), flush; try discriminate;
    [injection E as <-; by rewrite (bind_run _ _ _ _ _ (signal_event_run _ _ _)), IH,
       with_events_app..|].
  by rewrite (bind_run _ _ _ _ _ (IH w)).
Qed.

Lemma cancel_events_timestamp_run timestamp l w :
  cancel_events_timestamp timestamp l w = Some (
    staying (λ e, if timestamp =? he_timestamp e then Some HGSL_EVENT_CANCELLED else None) l,
    with_events w (leaving (λ e, if timestamp =? he_timestamp e
                                 then Some HGSL_EVENT_CANCELLED else None) l)).
Proof.
  revert w. induction l as [|e l IH]; intros w; cbn [cancel_events_timestamp].
  { cbn. by rewrite with_events_nil. }
  rewrite staying_cons, leaving_cons. destruct (timestamp =? he_timestamp e).
  - by rewrite (bind_run _ _ _ _ _ (signal_event_run _ _ _)), IH, with_events_app.
  - by rewrite (bind_run _ _ _ _ _ (IH w)).
Qed.

Lemma cancel_event_run timestamp func l w :
  cancel_event timestamp func l w = Some
    match take_first (matches timestamp func) l with
    | Some (a, e, b) => (a ++ b, with_events w [e <| he_result := HGSL_EVENT_CANCELLED |>])
    | None => (l, w)
    end.
Proof.
  induction l as [|e l IH]; cbn [cancel_event take_first]; [done|].
  fold (matches timestamp func e). destruct (matches timestamp func e).
  { by rewrite (bind_run _ _ _ _ _ (signal_event_run _ _ _)). }
  destruct (take_first _ l) as [[[a x] b]|];
    by rewrite (bind_run _ _ _ _ _ IH).
Qed.

Lemma set_events_run w p c l :
  w_contexts w !! p = Some c →
  set_events p l w = Some (tt,
    with_context w p (c <| c_event_group ::= (λ g, g <| eg_events := l |>) |>)).
Proof. intros Hc. unfold set_events. by apply update_run. Qed.

Section runs.
Context `{K : Kernel}.

Lemma ask_run {A} (f : nat → A) w : ask f w = Some (f (w_clock w), ticked w).
Proof. done. Qed.

(** A context read back after only its reference count changed. *)
Lemma put_after w p c g :
  0 < c_kref c →
  hgsl_put_context (Some p)
    (with_context w p (c <| c_kref := c_kref c + 1 |> <| c_event_group := g |>)) =
  Some (tt, with_context w p (c <| c_event_group := g |>)).
Proof.
  intros Hk. set (c1 := c <| c_kref := c_kref c + 1 |> <| c_event_group := g |>).
  rewrite (put_context_run _ p c1); [|apply with_context_lookup|cbn; lia].
  rewrite with_context_twice. do 3 f_equal. cbn. by rewrite Z.add_simpl_r.
Qed.

Lemma process_event_group_run p flush w c s :
  w_contexts w !! p = Some c → 0 < c_kref c → c_shadow_ts c = Some s →
  _process_event_group p flush w = Some (tt,
    if negb flush && hgsl_ts32_ge (eg_processed (c_event_group c)) (eop s) then ticked w
    else with_context
      (with_events (ticked w)
        (leaving (event_outcome (eop s) flush) (eg_events (c_event_group c))))
      p (c <| c_event_group ::= passed (eop s) flush |>)).
Proof.
  intros Hc Hk Hs. unfold _process_event_group.
  set (c1 := c <| c_kref := c_kref c + 1 |>).
  set (w1 := with_context (ticked w) p c1).
  assert (Hc1 : w_contexts w1 !! p = Some c1) by apply with_context_lookup.
  rewrite (bind_run _ _ _ _ _ (context_get_run w p c Hc ltac:(lia))). cbn [negb].
  rewrite (bind_run _ _ _ (k_uninit (w_clock w)) w1) by done.
  rewrite (bind_run _ _ _ _ _ (read_timestamp_run w1 p c1 s GSL_TIMESTAMP_RETIRED _
    Hc1 ltac:(cbn; lia) Hs ltac:(set_solver))).
  change (GSL_TIMESTAMP_RETIRED =? GSL_TIMESTAMP_RETIRED) with true. cbv iota.
  run_load Hc1. change (c_event_group c1) with (c_event_group c).
  destruct (negb flush && _); cbn [negb when].
  - rewrite (bind_run _ _ w1 tt w1) by done.
    exact (get_put_id (ticked w) p c Hc Hk).
  - set (l := leaving _ _). set (g := passed (eop s) flush (c_event_group c)).
    rewrite (bind_run _ _ w1 tt (with_context (with_events (ticked w) l) p
      (c1 <| c_event_group := g |>))).
    { exact (put_after (with_events (ticked w) l) p c g Hk). }
    rewrite (bind_run _ _ _ _ _ (process_events_run _ _ _ _)).
    set (c2 := c1 <| c_event_group ::=
      (λ g, g <| eg_events := staying (event_outcome (eop s) flush)
                                (eg_events (c_event_group c)) |>) |>).
    rewrite (bind_run _ _ _ _ _ (set_events_run (with_events w1 l) p c1 _ Hc1)).
    rewrite (update_run _ _ _ _ c2); [|apply with_context_lookup].
    unfold with_context, with_events, w1. cbn. by rewrite !insert_insert_eq.
Qed.

(** ** Adding an event *)

Lemma add_checked_event_run p timestamp func w c s :
  k_alloc (w_clock w) = true →
  w_contexts w !! p = Some c → 0 < c_kref c → c_shadow_ts c = Some s →
  add_checked_event p timestamp func w = Some (0,
    let c1 := c <| c_kref := c_kref c + 1 |> in
    let e := mk_event p timestamp func 0 in
    let w1 := with_context (ticked (ticked w)) p c1 in
    if hgsl_ts32_ge (eop s) timestamp
    then with_events w1 [e <| he_result := HGSL_EVENT_RETIRED |>]
    else with_context w1 p
           (c1 <| c_event_group ::= (λ g, g <| eg_events ::= (λ l, l ++ [e]) |>) |>)).
Proof.
  intros Ha Hc Hk Hs. unfold add_checked_event. cbv zeta.
  set (c1 := c <| c_kref := c_kref c + 1 |>).
  set (w1 := with_context (ticked (ticked w)) p c1).
  assert (Hc1 : w_contexts w1 !! p = Some c1) by apply with_context_lookup.
  rewrite (bind_run _ _ _ _ _ (ask_run _ _)), Ha. cbn [negb].
  rewrite (bind_run _ _ _ _ _ (context_get_run (ticked w) p c Hc ltac:(lia))). cbn [negb].
  rewrite (bind_run _ _ _ (k_uninit (S (w_clock w))) w1) by done.
  rewrite (bind_run _ _ _ _ _ (read_timestamp_run w1 p c1 s GSL_TIMESTAMP_RETIRED _
    Hc1 ltac:(cbn; lia) Hs ltac:(set_solver))).
  change (GSL_TIMESTAMP_RETIRED =? GSL_TIMESTAMP_RETIRED) with true. cbv iota.
  destruct (hgsl_ts32_ge (eop s) timestamp); [done|].
  run_load Hc1. by rewrite (bind_run _ _ _ _ _ (set_events_run w1 p c1 _ Hc1)).
Qed.

End runs.


(** * Properties *)

Section properties.
Context `{K : Kernel}.

(** A pass over an event group signals exactly the events whose timestamp the
    retired one has reached (RETIRED), and when flushing all others (CANCELLED);
    what leaves goes to the worker in list order, what stays keeps its order, the
    group remembers the retired timestamp, and the context's references are what
    they were.  A group already processed up to that timestamp is left alone. *)
Theorem process_event_group_exact p flush w c s :
  w_contexts w !! p = Some c → 0 < c_kref c → c_shadow_ts c = Some s →
  ∃ w', _process_event_group p flush w = Some (tt, w') ∧
  let g := c_event_group c in
  let outcome := event_outcome (eop s) flush in
  if negb flush && hgsl_ts32_ge (eg_processed g) (eop s)
  then w_contexts w' = w_contexts w ∧ w_events w' = w_events w
  else w_events w' = w_events w ++ leaving outcome (eg_events g) ∧
    w_contexts w' = <[p := c <| c_event_group := mk_group (staying outcome (eg_events g)) (eop s) |>]>
                      (w_contexts w).
Proof.
  intros Hc Hk Hs. eexists. split; [by apply process_event_group_run|]. cbv zeta.
  by destruct (negb flush && _).
Qed.

(** hgsl_cancel_event signals the first event of the group with this timestamp
    and callback, as cancelled, takes only that one off the list, and does nothing
    when there is none; hgsl_cancel_events_timestamp does so for every event with
    the timestamp. *)
Theorem cancel_event_exact p timestamp func w c :
  w_contexts w !! p = Some c →
  let events := eg_events (c_event_group c) in
  let left l := c <| c_event_group ::= (λ g, g <| eg_events := l |>) |> in
  let at_ts e := if timestamp =? he_timestamp e then Some HGSL_EVENT_CANCELLED else None in
  hgsl_cancel_event p timestamp func w = Some (tt,
    match take_first (matches timestamp func) events with
    | Some (a, e, b) =>
        with_context (with_events w [e <| he_result := HGSL_EVENT_CANCELLED |>]) p
          (left (a ++ b))
    | None => w
    end) ∧
  hgsl_cancel_events_timestamp p timestamp w = Some (tt,
    with_context (with_events w (leaving at_ts events)) p (left (staying at_ts events))).
Proof.
  intros Hc. cbv zeta. split.
  - unfold hgsl_cancel_event. run_load Hc.
    pose proof (cancel_event_run timestamp func (eg_events (c_event_group c)) w) as E.
    destruct (take_first _ _) as [[[a e] b]|]; rewrite (bind_run _ _ _ _ _ E).
    + by apply set_events_run.
    + rewrite (set_events_run w p c) by done.
      replace (c <| c_event_group ::= _ |>) with c by by destruct c as [????????????????? []].
      by rewrite with_context_id.
  - unfold hgsl_cancel_events_timestamp. run_load Hc.
    rewrite (bind_run _ _ _ _ _ (cancel_events_timestamp_run _ _ _)).
    by apply set_events_run.
Qed.

(** Adding an event takes one reference on the context.  An event whose
    timestamp has retired is signaled at once; otherwise it goes to the end of the
    group.  On a context without USER_GENERATED_TS every timestamp at or after the
    last queued one is refused with -EINVAL, the last queued one included. *)
Theorem add_event_exact p timestamp func w c s :
  (∀ n, k_alloc n = true) →
  w_contexts w !! p = Some c → 0 < c_kref c → c_shadow_ts c = Some s →
  ∃ ret w', hgsl_add_event p timestamp (Some func) w = Some (ret, w') ∧
  let e := mk_event p timestamp func 0 in
  if negb (has_flag (c_flags c) GSL_CONTEXT_FLAG_USER_GENERATED_TS) &&
     hgsl_ts32_ge timestamp (c_queued_ts c)
  then ret = - EINVAL ∧ w_contexts w' = w_contexts w ∧ w_events w' = w_events w
  else ret = 0 ∧
    if hgsl_ts32_ge (eop s) timestamp
    then w_contexts w' = <[p := c <| c_kref := c_kref c + 1 |>]> (w_contexts w) ∧
      w_events w' = w_events w ++ [e <| he_result := HGSL_EVENT_RETIRED |>]
    else w_events w' = w_events w ∧
      w_contexts w' = <[p := c <| c_kref := c_kref c + 1 |>
        <| c_event_group ::= (λ g, g <| eg_events ::= (λ l, l ++ [e]) |>) |>]> (w_contexts w).
Proof.
  intros Ha Hc Hk Hs. unfold hgsl_add_event. run_load Hc. cbv zeta.
  destruct (has_flag _ _); cbn [negb andb].
  - rewrite (add_checked_event_run _ _ _ _ c s) by auto. cbv zeta.
    eexists _, _. split; [done|]. split; [done|].
    destruct (hgsl_ts32_ge (eop s) timestamp); [done|].
    cbn. by rewrite insert_insert_eq.
  - rewrite (bind_run _ _ _ _ _ (ask_run _ _)).
    rewrite (bind_run _ _ _ _ _ (read_timestamp_run (ticked w) p c s GSL_TIMESTAMP_QUEUED _
      Hc Hk Hs ltac:(set_solver))).
    change (GSL_TIMESTAMP_QUEUED =? GSL_TIMESTAMP_RETIRED) with false.
    change (GSL_TIMESTAMP_QUEUED =? GSL_TIMESTAMP_CONSUMED) with false. cbv iota.
    destruct (hgsl_ts32_ge timestamp (c_queued_ts c)); [by eexists _, _|].
    rewrite (add_checked_event_run _ _ _ (ticked w) c s) by auto. cbv zeta.
    eexists _, _. split; [done|]. split; [done|].
    destruct (hgsl_ts32_ge (eop s) timestamp); [done|].
    cbn. by rewrite insert_insert_eq.
Qed.

End properties.

(** * The properties on a small group *)

Section witnesses.
#[local] Existing Instance quiet_kernel.

(** A context with events at 3, 9, 5 and the retired timestamp 5. *)
#[local] Definition group_context : hgsl_context :=
  (fresh_context 1 7 0 (Some (mk_shadow 5 5)))
    <| c_queued_ts := 20 |>
    <| c_event_group := mk_group [mk_event 2 3 (Fn_timeline_signaled 8) 0;
         mk_event 2 9 (Fn_timeline_signaled 8) 0; mk_event 2 5 (Fn_timeline_signaled 9) 0] 0 |>.
#[local] Definition group_world : world :=
  empty_world <| w_contexts := {[2%positive := group_context]} |>.

Lemma process_event_group_exact_witness :
  ∃ w', _process_event_group 2 false group_world = Some (tt, w') ∧
    w_events w' = [mk_event 2 3 (Fn_timeline_signaled 8) HGSL_EVENT_RETIRED;
                   mk_event 2 5 (Fn_timeline_signaled 9) HGSL_EVENT_RETIRED].
Proof.
  destruct (process_event_group_exact 2 false group_world group_context (mk_shadow 5 5))
    as (w' & H & E); [by vm_compute..|].
  exists w'. split; [exact H|]. by destruct E as [-> _].
Defined.

Lemma cancel_event_exact_witness :
  ∃ w', hgsl_cancel_event 2 9 (Fn_timeline_signaled 8) group_world = Some (tt, w') ∧
    w_events w' = [mk_event 2 9 (Fn_timeline_signaled 8) HGSL_EVENT_CANCELLED].
Proof.
  destruct (cancel_event_exact 2 9 (Fn_timeline_signaled 8) group_world group_context)
    as [H _]; [by vm_compute|].
  eexists. split; [exact H|]. by vm_compute.
Defined.

Lemma add_event_exact_witness :
  ∃ w', hgsl_add_event 2 20 (Some (Fn_timeline_signaled 8)) group_world = Some (- EINVAL, w') ∧
    w_events w' = [].
Proof.
  destruct (add_event_exact 2 20 (Fn_timeline_signaled 8) group_world group_context
    (mk_shadow 5 5)) as (r & w' & H & E); [done|by vm_compute..|].
  exists w'. destruct E as (-> & _ & E). by rewrite E.
Defined.

End witnesses.
