(* ===== verification/Isync.v ===== *)
(** Software timelines (hgsl_sync.c): isync timelines named by an id, the fences
    waiting on their points, and the waits built from several of them. *)

From S2P Require Import Prelude.
From S2P Require Import State.
From S2P Require Import Timestamp.
From S2P Require Import Hsync.

Section isync.
Context `{K : Kernel}.

(** * Definitions *)

Definition HGSL_ISYNC_32BITS_TIMELINE : Z := 0.
Definition HGSL_ISYNC_64BITS_TIMELINE : Z := 1.
Definition HGSL_TIMELINE_INFINITE_TIMEOUT : Z := 18446744073709551615.
Definition HGSL_TIMELINE_WAIT_ALL : Z := 1.
Definition HGSL_TIMELINE_WAIT_ANY : Z := 2.
Definition MAX_SCHEDULE_TIMEOUT : Z := 9223372036854775807.
Definition NSEC_PER_SEC : Z := 1000000000.

(** ** Timelines *)

Definition hgsl_isync_timeline_release (timeline : ptr) : M world unit :=
  free w_isync timeline.

Definition hgsl_isync_timeline_get (priv : ptr) (id : Z) (check_owner : bool) :
  M world (option ptr) :=
  idr ← gets w_isync_idr;
  match idr !! id with
  | None => mret None
  | Some t =>
      timeline ← load w_isync t;
      if check_owner && negb (bool_decide (it_priv timeline = priv)) then mret None
      else
        ret ← kref_get_unless_zero w_isync it_kref t;
        mret (if ret : bool then Some t else None)
  end.

Definition hgsl_isync_timeline_put (timeline : option ptr) : M world unit :=
  match timeline with
  | Some t => kref_put w_isync it_kref t (hgsl_isync_timeline_release t)
  | None => mret tt
  end.

(** The return code and [*timeline_id].  [idr] is a uint32_t in the source, so
    the test on idr_alloc's result is on its value modulo 2^32. *)
Definition hgsl_isync_timeline_create (priv : ptr) (flags initial_ts : Z) :
  M world (Z * option Z) :=
  ok ← ask k_alloc;
  if negb ok then mret (- ENOMEM, None)
  else
    t ← fresh_ptr;
    store w_isync t (mk_isync_timeline 1 0 priv [] initial_ts flags
      (has_flag flags HGSL_ISYNC_64BITS_TIMELINE)) ;;
    table ← gets w_isync_idr;
    r ← ask (λ n, k_idr_alloc n table);
    when (0 <? r) (modify (λ w, w <| w_isync_idr ::= <[r := t]> |>)) ;;
    let idr := u32 r in
    if 0 <? idr
    then update w_isync t (λ x, x <| it_id := idr |>) ;; mret (0, Some idr)
    else free w_isync t ;; mret (- EINVAL, None).

(** ** Fences *)

Definition hgsl_isync_has_signaled (fence : ptr) : M world bool :=
  f ← load w_ifences fence;
  match if_timeline f with
  | None => mret false
  | Some t =>
      timeline ← load w_isync t;
      mret (hgsl_ts_ge (it_last_ts timeline) (if_ts f) (it_is64bits timeline))
  end.

(** The kernel's dma_fence_signal: only the first call has an effect. *)
Definition isync_fence_signal (fence : ptr) : M world unit :=
  f ← load w_ifences fence;
  when (negb (if_signaled f))
    (store w_ifences fence (f <| if_signaled := true |>) ;;
     emit (A_fence_signal (Isync_fence fence))).

(** The kernel's dma_fence_is_signaled. *)
Definition isync_fence_is_signaled (fence : ptr) : M world bool :=
  f ← load w_ifences fence;
  if if_signaled f then mret true
  else
    s ← hgsl_isync_has_signaled fence;
    when s (isync_fence_signal fence) ;;
    mret s.

(** A fence is on its timeline's list iff its [child_list] is not empty. *)
Definition isync_unlink (timeline fence : ptr) : M world unit :=
  update w_isync timeline (λ x, x <| it_fence_list ::= filter (λ p, p ≠ fence) |>).

Definition isync_link (timeline fence : ptr) : M world unit :=
  update w_isync timeline (λ x, x <| it_fence_list ::= (λ l, l ++ [fence]) |>).

Definition hgsl_isync_fence_release (fence : ptr) : M world unit :=
  f ← load w_ifences fence;
  match if_timeline f with
  | None => mret tt
  | Some t => isync_unlink t fence ;; hgsl_isync_timeline_put (Some t)
  end ;;
  free w_ifences fence.

Definition isync_fence_put (fence : ptr) : M world unit :=
  kref_put w_ifences if_refcount fence (hgsl_isync_fence_release fence).

(** dma_fence_get and dma_fence_put on any fence. *)
Definition dma_fence_get (f : dma_fence) : M world unit :=
  match f with
  | Isync_fence p => kref_get w_ifences if_refcount p
  | Hsync_fence p => kref_get w_hfences hf_refcount p
  | Foreign_fence p => emit (A_fence_get p)
  end.

Definition dma_fence_put (f : dma_fence) : M world unit :=
  match f with
  | Isync_fence p => isync_fence_put p
  | Hsync_fence p => hsync_fence_put p
  | Foreign_fence p => emit (A_fence_put p)
  end.

Definition dma_fence_is_signaled (f : dma_fence) : M world bool :=
  match f with
  | Isync_fence p => isync_fence_is_signaled p
  | Hsync_fence p => hsync_fence_is_signaled_locked p
  | Foreign_fence p => ask (λ n, k_fence_signaled n p)
  end.

(** sync_file_get_fence: the fence with a reference of the caller's own. *)
Definition sync_file_get_fence (fd : Z) : M world (option dma_fence) :=
  f ← ask (λ n, k_sync_file_get_fence n fd);
  match f with
  | None => mret None
  | Some f => dma_fence_get f ;; mret (Some f)
  end.

(** The return code and [*fence_fd].  A sync_file takes a reference of its own on
    the fence, which fput drops. *)
Definition hgsl_isync_fence_create (priv : ptr) (timeline_id ts : Z)
    (ts_is_valid : bool) : M world (Z * option Z) :=
  timeline ← hgsl_isync_timeline_get priv timeline_id true;
  match timeline with
  | None => mret (- EINVAL, None)
  | Some t =>
      ok ← ask k_alloc;
      if negb ok then hgsl_isync_timeline_put (Some t) ;; mret (- ENOMEM, None)
      else
        let ts := if ts_is_valid then ts else 1 in
        fence ← fresh_ptr;
        store w_ifences fence (mk_isync_fence 1 false None ts) ;;
        sync_file ← ask k_alloc;
        if negb sync_file
        then isync_fence_put fence ;; hgsl_isync_timeline_put (Some t) ;;
             mret (- ENOMEM, None)
        else
          update w_ifences fence (λ f, f <| if_refcount ::= Z.succ |>) ;;
          fd ← ask k_unused_fd;
          if fd <? 0
          then isync_fence_put fence ;;
               emit (A_fput (Isync_fence fence)) ;; isync_fence_put fence ;;
               hgsl_isync_timeline_put (Some t) ;; mret (- EBADF, Some fd)
          else
            emit (A_fd_install fd (Isync_fence fence)) ;;
            update w_ifences fence (λ f, f <| if_timeline := Some t |>) ;;
            s ← isync_fence_is_signaled fence;
            when (negb s) (isync_link t fence) ;;
            isync_fence_put fence ;;
            mret (0, Some fd)
  end.

(** ** Signalling *)

(** A [list_for_each_entry_safe] loop over a timeline's list that takes the
    fences [pred] selects: a fence that is still alive gets a reference and goes
    to the front of [flist].  [drop_dead] says whether a fence whose reference
    count is already zero is unlinked as well. *)
Fixpoint isync_collect (timeline : ptr) (pred : hgsl_isync_fence → bool)
    (drop_dead : bool) (l flist : list ptr) : M world (list ptr) :=
  match l with
  | [] => mret flist
  | cur :: next =>
      f ← load w_ifences cur;
      if pred f then
        base ← kref_get_unless_zero w_ifences if_refcount cur;
        when (base || drop_dead) (isync_unlink timeline cur) ;;
        isync_collect timeline pred drop_dead next
          (if base : bool then cur :: flist else flist)
      else isync_collect timeline pred drop_dead next flist
  end.

Definition isync_signal_all (flist : list ptr) : M world unit :=
  for_each flist (λ cur, isync_fence_signal cur ;; isync_fence_put cur).

Definition hgsl_isync_timeline_destruct (timeline : ptr) : M world Z :=
  t ← load w_isync timeline;
  flist ← isync_collect timeline (λ _, true) false (it_fence_list t) [];
  isync_signal_all flist ;;
  hgsl_isync_timeline_put (Some timeline) ;;
  mret 0.

Definition hgsl_isync_timeline_destroy (priv : ptr) (id : Z) : M world Z :=
  idr ← gets w_isync_idr;
  match idr !! id with
  | None => mret (- EINVAL)
  | Some t =>
      timeline ← load w_isync t;
      if bool_decide (it_priv timeline = priv)
      then
        modify (λ w, w <| w_isync_idr ::= delete (it_id timeline) |>) ;;
        update w_isync t (λ x, x <| it_id := 0 |>) ;;
        hgsl_isync_timeline_destruct t
      else mret (- EINVAL)
  end.

(** idr_for_each_entry visits the ids in increasing order. *)
Definition id_le (x y : Z * ptr) : Prop := fst x ≤ fst y.
#[local] Instance id_le_dec : RelDecision id_le := λ x y, Z.le_dec (fst x) (fst y).
Definition idr_entries (idr : gmap Z ptr) : list (Z * ptr) :=
  merge_sort id_le (map_to_list idr).

Fixpoint isync_fini_collect (priv : ptr) (l : list (Z * ptr)) (flist : list ptr) :
  M world (list ptr) :=
  match l with
  | [] => mret flist
  | (idr, cur) :: l' =>
      timeline ← load w_isync cur;
      if bool_decide (it_priv timeline = priv)
      then modify (λ w, w <| w_isync_idr ::= delete idr |>) ;;
           isync_fini_collect priv l' (cur :: flist)
      else isync_fini_collect priv l' flist
  end.

Definition hgsl_isync_fini (priv : ptr) : M world unit :=
  idr ← gets w_isync_idr;
  flist ← isync_fini_collect priv (idr_entries idr) [];
  for_each flist (λ cur, hgsl_isync_timeline_destruct cur ;; mret tt).

Definition _isync_timeline_signal (timeline : ptr) (fence : dma_fence) : M world Z :=
  t ← load w_isync timeline;
  match fence with
  | Isync_fence f =>
      if bool_decide (f ∈ it_fence_list t)
      then isync_unlink timeline f ;; isync_fence_signal f ;; mret 0
      else mret (- EINVAL)
  | _ => mret (- EINVAL)
  end.

Definition hgsl_isync_fence_signal (priv : ptr) (timeline_id fence_fd : Z) : M world Z :=
  timeline ← hgsl_isync_timeline_get priv timeline_id true;
  match timeline with
  | None => mret (- EINVAL)
  | Some t =>
      fence ← sync_file_get_fence fence_fd;
      match fence with
      | None => hgsl_isync_timeline_put (Some t) ;; mret (- EBADF)
      | Some f =>
          ret ← _isync_timeline_signal t f;
          dma_fence_put f ;;
          hgsl_isync_timeline_put (Some t) ;;
          mret ret
      end
  end.

Definition hgsl_isync_forward (priv : ptr) (timeline_id ts : Z) (check_owner : bool) :
  M world Z :=
  timeline ← hgsl_isync_timeline_get priv timeline_id check_owner;
  match timeline with
  | None => mret (- EINVAL)
  | Some tl =>
      t ← load w_isync tl;
      when (negb (hgsl_ts_ge (it_last_ts t) ts (it_is64bits t)))
        (update w_isync tl (λ x, x <| it_last_ts := ts |>) ;;
         flist ← isync_collect tl (λ f, hgsl_ts_ge ts (if_ts f) (it_is64bits t)) true
           (it_fence_list t) [];
         isync_signal_all flist) ;;
      hgsl_isync_timeline_put (Some tl) ;;
      mret 0
  end.

Definition hgsl_isync_query (priv : ptr) (timeline_id : Z) : M world (Z * option Z) :=
  timeline ← hgsl_isync_timeline_get priv timeline_id false;
  match timeline with
  | None => mret (- EINVAL, None)
  | Some tl =>
      t ← load w_isync tl;
      hgsl_isync_timeline_put (Some tl) ;;
      mret (0, Some (it_last_ts t))
  end.

(** ** Waiting for several points *)

(** The loop of hgsl_timelines_to_fence_array: the fences made so far, and the
    error that stopped it, if any. *)
Fixpoint timelines_to_fences (priv : ptr) (uptr usize : Z) (n : nat)
    (fences : list ptr) : M world (Z * list ptr) :=
  match n with
  | O => mret (0, fences)
  | S n' =>
      val ← ask (λ k, k_copy_timeline_val k uptr usize);
      match val with
      | None => mret (- EFAULT, fences)
      | Some val =>
          if negb (tv_padding val =? 0) then mret (- EINVAL, fences)
          else
            timeline ← hgsl_isync_timeline_get priv (tv_timeline_id val) false;
            match timeline with
            | None => mret (- ENOENT, fences)
            | Some t =>
                ok ← ask k_alloc;
                if negb ok
                then hgsl_isync_timeline_put (Some t) ;; mret (- ENOMEM, fences)
                else
                  fence ← fresh_ptr;
                  store w_ifences fence
                    (mk_isync_fence 1 false (Some t) (tv_timepoint val)) ;;
                  s ← isync_fence_is_signaled fence;
                  when (negb s) (isync_link t fence) ;;
                  timelines_to_fences priv (u64 (uptr + usize)) usize n' (fences ++ [fence])
            end
      end
  end.

(** [inl e] is ERR_PTR(e). *)
Definition hgsl_timelines_to_fence_array (priv : ptr) (timelines count usize : Z)
    (any : bool) : M world (Z + dma_fence) :=
  if (count =? 0) || (INT_MAX <? count) then mret (inl (- EINVAL))
  else
    ok ← ask k_alloc;
    if negb ok then mret (inl (- ENOMEM))
    else
      '(ret, fences) ← timelines_to_fences priv timelines usize (Z.to_nat count) [];
      if negb (ret =? 0)
      then for_each fences isync_fence_put ;; mret (inl ret)
      else
        match fences with
        | [f] => mret (inr (Isync_fence f))
        | _ =>
            array ← ask (λ n, k_fence_array n fences);
            match array with
            | Some a => mret (inr (Foreign_fence a))
            | None => for_each fences isync_fence_put ;; mret (inl (- ENOMEM))
            end
        end.

Record hgsl_timeline_wait := mk_timeline_wait {
  tw_timeout_nanosec : Z; tw_timelines : Z; tw_count : Z;
  tw_timelines_size : Z; tw_flags : Z; tw_padding : Z }.
#[export] Instance eta_timeline_wait : Eta hgsl_timeline_wait := λ x,
  mk_timeline_wait (tw_timeout_nanosec x) (tw_timelines x) (tw_count x)
    (tw_timelines_size x) (tw_flags x) (tw_padding x).

Definition hgsl_isync_wait_multiple (priv : ptr) (param : hgsl_timeline_wait) :
  M world Z :=
  if negb (tw_flags param =? HGSL_TIMELINE_WAIT_ANY) &&
     negb (tw_flags param =? HGSL_TIMELINE_WAIT_ALL) then mret (- EINVAL)
  else if negb (tw_padding param =? 0) then mret (- EINVAL)
  else
    fence ← hgsl_timelines_to_fence_array priv (tw_timelines param)
      (tw_count param) (tw_timelines_size param)
      (tw_flags param =? HGSL_TIMELINE_WAIT_ANY);
    match fence with
    | inl e => mret e
    | inr fence =>
        let timeout :=
          if tw_timeout_nanosec param =? HGSL_TIMELINE_INFINITE_TIMEOUT
          then MAX_SCHEDULE_TIMEOUT
          else k_timespec64_to_jiffies (tw_timeout_nanosec param / NSEC_PER_SEC)
                 (tw_timeout_nanosec param mod NSEC_PER_SEC) in
        ret ← (if timeout =? 0
               then s ← dma_fence_is_signaled fence; mret (if s : bool then 0 else - EBUSY)
               else
                 ret ← ask (λ n, k_fence_wait n fence timeout);
                 mret (if ret =? 0 then - ETIMEDOUT
                       else if 0 <? ret then 0
                       else if ret =? - ERESTARTSYS then - EINTR else ret));
        dma_fence_put fence ;;
        mret ret
    end.

(** ** Waiting for a fence of a sync_file *)

(** [inl e] is ERR_PTR(e), [inr None] is NULL: the fence has already signaled. *)
Definition hgsl_sync_fence_async_wait (fd : Z) : M world (Z + option dma_fence) :=
  fence ← sync_file_get_fence fd;
  match fence with
  | None => mret (inl (- EINVAL))
  | Some f =>
      ok ← ask k_alloc;
      if negb ok then dma_fence_put f ;; mret (inl (- ENOMEM))
      else
        status ← ask (λ n, k_add_callback n f);
        if status =? 0 then mret (inr (Some f))
        else
          s ← dma_fence_is_signaled f;
          dma_fence_put f ;;
          mret (if s : bool then inr None else inl status)
  end.

Definition hgsl_sync_fence_async_cancel (kcb : option dma_fence) : M world unit :=
  match kcb with
  | None => mret tt
  | Some f => emit (A_fence_remove_callback f)
  end.

End isync.

(** ** The specification of advancing a timeline *)

(** The fences of [l] that a predicate selects. *)
Definition selected (pred : hgsl_isync_fence → bool) (m : gmap ptr hgsl_isync_fence)
    (l : list ptr) : list ptr :=
  filter (λ p, from_option pred false (m !! p) = true) l.

(** Every fence of [l] is there once and has a reference. *)
Definition fences_alive (m : gmap ptr hgsl_isync_fence) (l : list ptr) : Prop :=
  NoDup l ∧ ∀ p, p ∈ l → ∃ f, m !! p = Some f ∧ 0 < if_refcount f.

Definition signal (f : hgsl_isync_fence) : hgsl_isync_fence :=
  f <| if_signaled := true |>.

(** [f <| if_refcount ::= ... |>] on the fences of a list. *)
Definition add_refs (d : Z) (f : hgsl_isync_fence) : hgsl_isync_fence :=
  f <| if_refcount := if_refcount f + d |>.

(** [w] with the timeline [t]'s list and the fences replaced. *)
Definition with_fences (w : world) (t : ptr) (tl : hgsl_isync_timeline)
    (m : gmap ptr hgsl_isync_fence) : world :=
  w <| w_isync ::= <[t := tl]> |> <| w_ifences := m |>.

(** [l] without the fences of [S]. *)
Definition without (S l : list ptr) : list ptr := filter (λ p, p ∉ S) l.

(** The fences of [l] that were not signaled yet, as signals of the trace. *)
Definition new_signals (m : gmap ptr hgsl_isync_fence) (l : list ptr) : list action :=
  map (λ p, A_fence_signal (Isync_fence p)) (selected (λ f, negb (if_signaled f)) m l).

Definition signaled_world (w : world) (l : list ptr) : world :=
  w <| w_ifences := alter_on l (λ f, signal (add_refs (-1) f)) (w_ifences w) |>
    <| w_trace ::= (λ t, t ++ new_signals (w_ifences w) l) |>.

(** * Lemmas *)

Lemma kref_unless_run w p f :
  w_ifences w !! p = Some f → 0 < if_refcount f →
  kref_get_unless_zero w_ifences if_refcount p w =
    Some (true, w <| w_ifences ::= <[p := add_refs 1 f]> |>).
Proof.
  intros Hf Hr. unfold kref_get_unless_zero. run_load Hf.
  by destruct (Z.eqb_spec (if_refcount f) 0); [lia|].
Qed.

Lemma fences_alive_cons m p l :
  fences_alive m (p :: l) →
  ∃ f, m !! p = Some f ∧ 0 < if_refcount f ∧ (p ∉ l) ∧ fences_alive m l ∧
    (∀ v, fences_alive (<[p := v]> m) l).
Proof.
  intros [[Hn Hl]%NoDup_cons Ha]. destruct (Ha p) as (f & Hf & Hr); [set_solver|].
  exists f. do 3 (split; [done|]). split.
  - split; [done|]. intros q Hq. apply Ha. set_solver.
  - intros v. split; [done|]. intros q Hq.
    rewrite lookup_insert_ne by (intros ->; done). apply Ha. set_solver.
Qed.

Lemma selected_cons pred m p l f :
  m !! p = Some f →
  selected pred m (p :: l) = if pred f then p :: selected pred m l else selected pred m l.
Proof.
  intros Hf. unfold selected. rewrite filter_cons, Hf. cbn.
  destruct (pred f); [by rewrite decide_True | by rewrite decide_False].
Qed.

Lemma selected_insert pred m p l v :
  p ∉ l → selected pred (<[p := v]> m) l = selected pred m l.
Proof.
  intros Hp. unfold selected. induction l as [|q l IH]; [done|].
  rewrite !filter_cons, lookup_insert_ne by set_solver. by rewrite IH by set_solver.
Qed.

Lemma without_nil l : without [] l = l.
Proof. unfold without. induction l as [|x l IH]; [done|]. rewrite filter_cons_True; [by f_equal|set_solver]. Qed.

Lemma without_cons x S l : without S (filter (λ p, p ≠ x) l) = without (x :: S) l.
Proof. unfold without. rewrite list_filter_filter. apply list_filter_iff. set_solver. Qed.

Lemma with_fences_id w t tl :
  w_isync w !! t = Some tl → with_fences w t tl (w_ifences w) = w.
Proof. intros Ht. destruct w. cbn in *. unfold with_fences. cbn. by rewrite insert_id. Qed.

Lemma unlink_run w t tl p :
  w_isync w !! t = Some tl →
  isync_unlink t p w = Some (tt,
    w <| w_isync ::= <[t := tl <| it_fence_list ::= filter (λ q, q ≠ p) |>]> |>).
Proof. intros Ht. unfold isync_unlink. by apply update_run. Qed.

Lemma isync_collect_run t pred d l flist w tl :
  fences_alive (w_ifences w) l → w_isync w !! t = Some tl →
  let sel := selected pred (w_ifences w) l in
  isync_collect t pred d l flist w = Some (rev sel ++ flist,
    with_fences w t (tl <| it_fence_list ::= without sel |>)
      (alter_on sel (add_refs 1) (w_ifences w))).
Proof.
  revert flist w tl. induction l as [|p l IH]; intros flist w tl Ha Ht; cbn [isync_collect].
  { cbn. rewrite alter_on_nil, without_nil. unfold mret, M_ret. do 2 f_equal.
    rewrite with_fences_id; [done|]. rewrite Ht. by destruct tl. }
  apply fences_alive_cons in Ha as (f & Hf & Hr & Hn & Ha & Hi).
  cbv zeta. rewrite (selected_cons _ _ _ _ f Hf). run_load Hf.
  destruct (pred f); [|by apply IH].
  rewrite (bind_run _ _ _ _ _ (kref_unless_run w p f Hf Hr)). cbn [orb].
  set (w1 := w <| w_ifences ::= <[p := add_refs 1 f]> |>).
  set (tl1 := tl <| it_fence_list ::= filter (λ q, q ≠ p) |>).
  rewrite (bind_run _ _ w1 tt (w1 <| w_isync ::= <[t := tl1]> |>)) by by apply unlink_run.
  set (w2 := w1 <| w_isync ::= <[t := tl1]> |>).
  rewrite (IH (p :: flist) w2 tl1); [|apply Hi|apply lookup_insert_eq].
  change (w_ifences w2) with (<[p := add_refs 1 f]> (w_ifences w)).
  rewrite selected_insert by done.
  assert (Hs : p ∉ selected pred (w_ifences w) l).
  { unfold selected. rewrite list_elem_of_filter. naive_solver. }
  rewrite <-(alter_on_cons _ _ _ _ f) by done. cbn [rev]. rewrite <-app_assoc.
  do 2 f_equal. unfold with_fences. cbn -[without]. rewrite insert_insert_eq.
  by rewrite <-without_cons.
Qed.

(** ** Signaling what was collected *)

Lemma isync_fence_put_run w p f :
  w_ifences w !! p = Some f → 1 < if_refcount f →
  isync_fence_put p w = Some (tt, w <| w_ifences ::= <[p := add_refs (-1) f]> |>).
Proof.
  intros Hf Hr. unfold isync_fence_put, kref_put. run_load Hf.
  destruct (Z.eqb_spec (if_refcount f) 0); [lia|].
  rewrite (bind_run _ _ w tt (w <| w_ifences ::= <[p := add_refs (-1) f]> |>)) by done.
  by destruct (Z.eqb_spec (if_refcount f - 1) 0); [lia|].
Qed.

Lemma isync_fence_signal_run w p f :
  w_ifences w !! p = Some f →
  isync_fence_signal p w = Some (tt, w <| w_ifences ::= <[p := signal f]> |>
    <| w_trace ::= (λ t, t ++ new_signals (w_ifences w) [p]) |>).
Proof.
  intros Hf. unfold isync_fence_signal. run_load Hf.
  unfold new_signals. rewrite (selected_cons _ _ _ _ f Hf). unfold selected. cbn [filter list_filter].
  destruct (if_signaled f) eqn:E; cbn [negb when map].
  - unfold mret, M_ret. do 2 f_equal. destruct w. cbn in *. rewrite app_nil_r.
    rewrite insert_id; [done|]. rewrite Hf. f_equal. destruct f; cbn in *. by subst.
  - done.
Qed.

Lemma isync_signal_all_run l w :
  NoDup l → (∀ p, p ∈ l → ∃ f, w_ifences w !! p = Some f ∧ 1 < if_refcount f) →
  isync_signal_all l w = Some (tt, signaled_world w l).
Proof.
  unfold isync_signal_all. revert w. induction l as [|p l IH]; intros w Hn Ha.
  { cbn. unfold mret, M_ret, signaled_world. do 2 f_equal. rewrite alter_on_nil.
    destruct w. cbn. by rewrite app_nil_r. }
  apply NoDup_cons in Hn as [Hp Hn]. destruct (Ha p) as (f & Hf & Hr); [set_solver|].
  cbn [for_each].
  set (w1 := w <| w_ifences ::= <[p := signal f]> |>
    <| w_trace ::= (λ t, t ++ new_signals (w_ifences w) [p]) |>).
  set (w2 := w1 <| w_ifences ::= <[p := add_refs (-1) (signal f)]> |>).
  rewrite (bind_run _ _ w tt w2).
  2:{ rewrite (bind_run _ _ _ _ _ (isync_fence_signal_run w p f Hf)).
      apply isync_fence_put_run; [apply lookup_insert_eq|done]. }
  rewrite IH; [|done|].
  2:{ intros q Hq. destruct (Ha q) as (g & Hg & Hgr); [set_solver|]. exists g. cbn.
      by rewrite !lookup_insert_ne by (intros ->; done). }
  do 2 f_equal. unfold signaled_world, new_signals.
  change (w_ifences w2) with
    (<[p := add_refs (-1) (signal f)]> (<[p := signal f]> (w_ifences w))).
  rewrite insert_insert_eq, selected_insert by done.
  rewrite (alter_on_cons p l _ (w_ifences w) f) by done.
  change (add_refs (-1) (signal f)) with (signal (add_refs (-1) f)).
  cbn -[alter_on selected]. unfold new_signals.
  rewrite (selected_cons _ _ p l f Hf), (selected_cons _ _ p [] f Hf).
  rewrite <-app_assoc. by destruct (negb (if_signaled f)).
Qed.



(** ** Taking and giving back a timeline *)

Definition timeline_ref (d : Z) (tl : hgsl_isync_timeline) : hgsl_isync_timeline :=
  tl <| it_kref := it_kref tl + d |>.

Definition with_timeline (w : world) (t : ptr) (tl : hgsl_isync_timeline) : world :=
  w <| w_isync ::= <[t := tl]> |>.

Lemma timeline_get_run priv id check w t tl :
  w_isync_idr w !! id = Some t → w_isync w !! t = Some tl → 0 < it_kref tl →
  (check = true → it_priv tl = priv) →
  hgsl_isync_timeline_get priv id check w =
    Some (Some t, with_timeline w t (timeline_ref 1 tl)).
Proof.
  intros Hi Ht Hk Hp. unfold hgsl_isync_timeline_get.
  rewrite (bind_run _ _ w (w_isync_idr w) w), Hi by done. run_load Ht.
  assert (check && negb (bool_decide (it_priv tl = priv)) = false) as ->.
  { destruct check; [|done]. by rewrite bool_decide_true by auto. }
  rewrite (bind_run _ _ w true (with_timeline w t (timeline_ref 1 tl))); [done|].
  unfold kref_get_unless_zero. run_load Ht. by destruct (Z.eqb_spec (it_kref tl) 0); [lia|].
Qed.

Lemma timeline_put_run w t tl :
  w_isync w !! t = Some tl → 1 < it_kref tl →
  hgsl_isync_timeline_put (Some t) w = Some (tt, with_timeline w t (timeline_ref (-1) tl)).
Proof.
  intros Ht Hk. unfold hgsl_isync_timeline_put, kref_put. run_load Ht.
  destruct (Z.eqb_spec (it_kref tl) 0); [lia|].
  rewrite (bind_run _ _ w tt (with_timeline w t (timeline_ref (-1) tl))) by done.
  by destruct (Z.eqb_spec (it_kref tl - 1) 0); [lia|].
Qed.

Lemma timeline_ref_cancel tl : timeline_ref (-1) (timeline_ref 1 tl) = tl.
Proof. destruct tl. unfold timeline_ref. cbn. f_equal. lia. Qed.

Lemma with_timeline_twice w t a b : with_timeline (with_timeline w t a) t b = with_timeline w t b.
Proof. unfold with_timeline. cbn. by rewrite insert_insert_eq. Qed.

Lemma with_timeline_id w t tl : w_isync w !! t = Some tl → with_timeline w t tl = w.
Proof. intros Ht. destruct w. cbn in *. unfold with_timeline. cbn. by rewrite insert_id. Qed.

(** Signaling the fences a collection selected, each of which got a reference. *)
Lemma collect_signal_run t pred w tl :
  fences_alive (w_ifences w) (it_fence_list tl) → w_isync w !! t = Some tl →
  let sel := selected pred (w_ifences w) (it_fence_list tl) in
  ∃ w', (flist ← isync_collect t pred true (it_fence_list tl) []; isync_signal_all flist) w =
      Some (tt, w') ∧
    w_isync w' = <[t := tl <| it_fence_list ::= without sel |>]> (w_isync w) ∧
    w_ifences w' = alter_on sel signal (w_ifences w) ∧
    w_isync_idr w' = w_isync_idr w.
Proof.
  intros Ha Ht. cbv zeta.
  rewrite (bind_run _ _ _ _ _ (isync_collect_run t pred true _ [] w tl Ha Ht)).
  set (sel := selected _ _ _). rewrite app_nil_r.
  assert (Hsel : ∀ p, p ∈ sel → ∃ f, w_ifences w !! p = Some f ∧ 0 < if_refcount f).
  { intros p [_ Hp]%list_elem_of_filter. by apply Ha. }
  set (w1 := with_fences _ _ _ _).
  assert (Hf : w_ifences w1 = alter_on sel (add_refs 1) (w_ifences w)) by done.
  rewrite isync_signal_all_run.
  - eexists. split; [done|]. split; [done|]. split; [|done].
    change (w_ifences (signaled_world w1 (rev sel))) with
      (alter_on (rev sel) (λ f, signal (add_refs (-1) f)) (w_ifences w1)).
    rewrite Hf, (alter_on_perm (rev sel) sel)
      by (intros p; by rewrite <-Permutation_rev).
    rewrite alter_on_twice. apply alter_on_ext. intros p f _ _.
    destruct f. unfold signal, add_refs. cbn. f_equal. lia.
  - rewrite <-Permutation_rev. apply NoDup_filter, Ha.
  - intros p Hp. rewrite <-Permutation_rev in Hp. destruct (Hsel p Hp) as (f & Hpf & Hr).
    exists (add_refs 1 f). rewrite Hf, alter_on_lookup, decide_True, Hpf by done.
    split; [done|]. cbn. lia.
Qed.

(** * Properties *)

(** Advancing a software timeline to [ts]: unless it is already there, its
    last timestamp becomes [ts], exactly the waiting fences whose point is reached
    become signaled and leave the list, all other fences and the order of the
    list are untouched, and no reference is kept.  An advance that does not move
    the timeline forward changes nothing. *)
Theorem isync_forward_exact priv id ts check w t tl :
  w_isync_idr w !! id = Some t → w_isync w !! t = Some tl → 0 < it_kref tl →
  (check = true → it_priv tl = priv) → fences_alive (w_ifences w) (it_fence_list tl) →
  ∃ w', hgsl_isync_forward priv id ts check w = Some (0, w') ∧
  if hgsl_ts_ge (it_last_ts tl) ts (it_is64bits tl) then w' = w
  else
    let reached := selected (λ f, hgsl_ts_ge ts (if_ts f) (it_is64bits tl)) (w_ifences w)
                     (it_fence_list tl) in
    w_ifences w' = alter_on reached signal (w_ifences w) ∧
    w_isync w' = <[t := tl <| it_last_ts := ts |>
                           <| it_fence_list := without reached (it_fence_list tl) |>]>
                   (w_isync w) ∧
    w_isync_idr w' = w_isync_idr w.
Proof.
  intros Hi Ht Hk Hp Ha. unfold hgsl_isync_forward.
  rewrite (bind_run _ _ _ _ _ (timeline_get_run _ _ _ _ _ _ Hi Ht Hk Hp)).
  set (tl1 := timeline_ref 1 tl). set (w1 := with_timeline w t tl1).
  assert (Ht1 : w_isync w1 !! t = Some tl1) by apply lookup_insert_eq.
  run_load Ht1. change (it_last_ts tl1) with (it_last_ts tl).
  change (it_is64bits tl1) with (it_is64bits tl).
  destruct (hgsl_ts_ge (it_last_ts tl) ts _); cbn [negb when].
  { rewrite (bind_run _ _ w1 tt w1) by done.
    rewrite (bind_run _ _ _ _ _ (timeline_put_run w1 t tl1 Ht1 ltac:(cbn; lia))).
    unfold w1, tl1. rewrite with_timeline_twice, timeline_ref_cancel, with_timeline_id by done.
    by exists w. }
  set (tl2 := tl1 <| it_last_ts := ts |>). set (w2 := with_timeline w1 t tl2).
  assert (Ht2 : w_isync w2 !! t = Some tl2) by apply lookup_insert_eq.
  destruct (collect_signal_run t (λ f, hgsl_ts_ge ts (if_ts f) (it_is64bits tl)) w2 tl2 Ha Ht2)
    as (w3 & Hrun & Hs3 & Hf3 & Hi3).
  rewrite (bind_run _ _ w1 tt w3)
    by (rewrite (bind_run _ _ _ _ _ (update_run w_isync t (λ x, x <| it_last_ts := ts |>)
          w1 tl1 Ht1)); exact Hrun).
  rewrite (bind_run _ _ _ _ _ (timeline_put_run w3 t _
    ltac:(rewrite Hs3; apply lookup_insert_eq) ltac:(cbn; lia))).
  eexists. split; [done|]. cbv zeta. split; [done|]. split; [|done].
  unfold with_timeline. cbn -[without selected]. rewrite Hs3. unfold w2, w1, with_timeline, timeline_ref.
  cbn -[without selected]. rewrite !insert_insert_eq.
  by replace (it_kref tl + 1 + -1) with (it_kref tl) by lia.
Qed.

(** A timeline at 4 with fences waiting for 7, 3 and 20. *)
#[local] Definition small_timeline : hgsl_isync_timeline :=
  mk_isync_timeline 1 5 1 [11; 12; 13]%positive 4 0 false.
#[local] Definition small_fence (ts : Z) : hgsl_isync_fence := mk_isync_fence 1 false (Some 2%positive) ts.
#[local] Definition timeline_world : world :=
  empty_world
    <| w_isync := {[2%positive := small_timeline]} |>
    <| w_isync_idr := {[5 := 2%positive]} |>
    <| w_ifences := {[11%positive := small_fence 7; 12%positive := small_fence 20;
                      13%positive := small_fence 9]} |>.

Lemma isync_forward_exact_witness :
  ∃ w', hgsl_isync_forward 1 5 9 true timeline_world = Some (0, w') ∧
    w_isync w' = {[2%positive := small_timeline <| it_last_ts := 9 |>
                                   <| it_fence_list := [12%positive] |>]}.
Proof.
  destruct (isync_forward_exact 1 5 9 true timeline_world 2 small_timeline)
    as (w' & H & E); [done|done|done|done| |].
  { split; [repeat constructor; set_solver|]. intros p Hp.
    repeat (apply elem_of_cons in Hp as [->|Hp]; [by eexists|]). by apply elem_of_nil in Hp. }
  exists w'. split; [exact H|]. destruct E as (_ & -> & _). by vm_compute.
Defined.
