(* ===== verification/Drawobj.v ===== *)
(** Draw objects (hgsl_drawobj.c): commands, markers, sync objects and timeline
    objects, their construction from user memory, their reference counts and the
    callbacks that complete them. *)

From S2P Require Import Prelude.
From S2P Require Import Rbtree.
From S2P Require Import MemTree.
From S2P Require Import State.
From S2P Require Import Timestamp.
From S2P Require Import Hsync.
From S2P Require Import Context.
From S2P Require Import Events.
From S2P Require Import Isync.

Section drawobj.
Context `{K : Kernel}.

(** * Definitions *)

(** ** The embedding structures: SYNCOBJ, CMDOBJ, TIMELINEOBJ *)

Definition SYNCOBJ (obj : ptr) : M world hgsl_drawobj_sync :=
  o ← load w_drawobjs obj;
  match o_body o with Sync s => mret s | _ => fault end.

Definition CMDOBJ (obj : ptr) : M world hgsl_drawobj_cmd :=
  o ← load w_drawobjs obj;
  match o_body o with Cmd c => mret c | _ => fault end.

Definition TIMELINEOBJ (obj : ptr) : M world hgsl_drawobj_timeline :=
  o ← load w_drawobjs obj;
  match o_body o with Timeline t => mret t | _ => fault end.

Definition set_body (obj : ptr) (b : drawobj_body) : M world unit :=
  update w_drawobjs obj (λ o, o <| o_body := b |>).

Definition update_sync (obj : ptr) (f : hgsl_drawobj_sync → hgsl_drawobj_sync) :
  M world unit := s ← SYNCOBJ obj; set_body obj (Sync (f s)).

Definition update_cmd (obj : ptr) (f : hgsl_drawobj_cmd → hgsl_drawobj_cmd) :
  M world unit := c ← CMDOBJ obj; set_body obj (Cmd (f c)).

Definition update_timeline (obj : ptr)
    (f : hgsl_drawobj_timeline → hgsl_drawobj_timeline) : M world unit :=
  t ← TIMELINEOBJ obj; set_body obj (Timeline (f t)).

(** The event at index [id]; an index outside the array is a fault. *)
Definition sync_event (obj : ptr) (id : nat) : M world hgsl_drawobj_sync_event :=
  s ← SYNCOBJ obj; of_option (s_synclist s !! id).

(** ** The pending mask *)

(** [!bitmap_empty(&syncobj->pending, HGSL_MAX_SYNCPOINTS)] *)
Definition hgsl_drawobj_events_pending (s : hgsl_drawobj_sync) : bool :=
  negb (Z.land (s_pending s) (Z.ones HGSL_MAX_SYNCPOINTS) =? 0).

Definition hgsl_drawobj_event_pending (s : hgsl_drawobj_sync) (bit : Z) : bool :=
  if HGSL_MAX_SYNCPOINTS <=? bit then false else Z.testbit (s_pending s) bit.

Definition set_pending (obj : ptr) (id : nat) : M world unit :=
  update_sync obj (λ s, s <| s_pending ::= (λ p, Z.setbit p (Z.of_nat id)) |>).

Definition clear_pending (obj : ptr) (id : nat) : M world unit :=
  update_sync obj (λ s, s <| s_pending ::= (λ p, Z.clearbit p (Z.of_nat id)) |>).

(** test_and_clear_bit on [syncobj->pending]. *)
Definition test_and_clear_pending (obj : ptr) (id : nat) : M world bool :=
  s ← SYNCOBJ obj;
  clear_pending obj id ;;
  mret (Z.testbit (s_pending s) (Z.of_nat id)).

(** ** Scheduling the dispatcher of a context (hgsl_dispatch.c) *)

Definition hgsl_dispatch_ctxt_schedule (ctxt : ptr) : M world unit :=
  c ← load w_contexts ctxt;
  dispatch ← of_option (c_dispatch c);
  store w_contexts ctxt (c <| c_dispatch := Some (dispatch <| d_work := true |>) |>).

(** atomic_inc(&dispatch->count) *)
Definition dispatch_count_inc (ctxt : ptr) : M world unit :=
  c ← load w_contexts ctxt;
  dispatch ← of_option (c_dispatch c);
  store w_contexts ctxt
    (c <| c_dispatch := Some (dispatch <| d_count ::= Z.succ |>) |>).

Definition hgsl_dispatch_queue_context (ctxt : ptr) : M world Z :=
  got ← hgsl_context_get (Some ctxt);
  if negb got then mret 0
  else
    dispatch_count_inc ctxt ;;
    hgsl_dispatch_ctxt_schedule ctxt ;;
    mret 0.

(** ** Destruction of the memory *)

Definition syncobj_destroy_object (drawobj : ptr) : M world unit :=
  s ← SYNCOBJ drawobj;
  for_each (take (s_numsyncs s) (s_synclist s)) (λ event,
    if se_type event =? HGSL_CMD_SYNCPOINT_TYPE_FENCE
    then match se_handle event with
         | Some fence => dma_fence_put fence
         | None => mret tt
         end
    else mret tt) ;;
  free w_drawobjs drawobj.

Definition cmdobj_destroy_object (drawobj : ptr) : M world unit :=
  free w_drawobjs drawobj.

Definition timelineobj_destroy_object (drawobj : ptr) : M world unit :=
  free w_drawobjs drawobj.

(** [drawobj->destroy_object] is set with the type of the object. *)
Definition hgsl_drawobj_destroy_object (drawobj : ptr) : M world unit :=
  o ← load w_drawobjs drawobj;
  hgsl_put_context (Some (o_context o)) ;;
  match o_body o with
  | Sync _ => syncobj_destroy_object drawobj
  | Cmd _ => cmdobj_destroy_object drawobj
  | Timeline _ => timelineobj_destroy_object drawobj
  end.

Definition hgsl_drawobj_put (drawobj : ptr) : M world unit :=
  kref_put w_drawobjs o_refcount drawobj (hgsl_drawobj_destroy_object drawobj).

Definition cmdobj_destroy (drawobj : ptr) : M world unit :=
  update_cmd drawobj (λ c, c <| cmd_cmdlist := [] |> <| cmd_memlist := [] |>).

(** ** Expiry of a sync event *)

Definition drawobj_sync_expire (obj : ptr) (id : nat) : M world bool :=
  was ← test_and_clear_pending obj id;
  if negb was then mret false
  else
    s ← SYNCOBJ obj;
    when (negb (hgsl_drawobj_events_pending s))
      (emit (A_del_timer obj) ;;
       o ← load w_drawobjs obj;
       hgsl_dispatch_queue_context (o_context o) ;; mret tt) ;;
    mret true.

Definition drawobj_sync_timeline_fence_work (obj : ptr) (id : nat) : M world unit :=
  event ← sync_event obj id;
  fence ← of_option (se_fence event);
  dma_fence_put fence ;;
  hgsl_drawobj_put obj.

Definition drawobj_sync_timeline_fence_callback (obj : ptr) (id : nat) : M world unit :=
  expired ← drawobj_sync_expire obj id;
  when expired
    (modify (λ w, w <| w_lockless ::= (λ q, q ++ [mk_lockless obj id]) |>)).

Definition drawobj_sync_fence_func (obj : ptr) (id : nat) : M world bool :=
  expired ← drawobj_sync_expire obj id;
  when expired (hgsl_drawobj_put obj) ;;
  mret expired.

Definition _timestamp_signaled (obj : ptr) (id : nat) : M world unit :=
  event ← sync_event obj id;
  expired ← drawobj_sync_expire obj id;
  when expired (hgsl_put_context (se_context event)) ;;
  hgsl_drawobj_put obj.

(** What the thread that cleared the pending bit of event [i] does. *)
Definition syncobj_cancel_event (drawobj : ptr) (i : nat) : M world unit :=
  event ← sync_event drawobj i;
  if se_type event =? HGSL_CMD_SYNCPOINT_TYPE_TIMESTAMP
  then
    ctxt ← of_option (se_context event);
    hgsl_cancel_event ctxt (se_timestamp event) (Fn_timestamp_signaled drawobj i) ;;
    hgsl_put_context (Some ctxt)
  else if se_type event =? HGSL_CMD_SYNCPOINT_TYPE_FENCE
  then hgsl_sync_fence_async_cancel (se_handle event) ;; hgsl_drawobj_put drawobj
  else if se_type event =? HGSL_CMD_SYNCPOINT_TYPE_TIMELINE
  then
    fence ← of_option (se_fence event);
    emit (A_fence_remove_callback fence) ;;
    dma_fence_put fence ;;
    hgsl_drawobj_put drawobj
  else mret tt.

Definition syncobj_destroy (drawobj : ptr) : M world unit :=
  emit (A_del_timer drawobj) ;;
  s ← SYNCOBJ drawobj;
  for_each (seq 0 (s_numsyncs s)) (λ i,
    was ← test_and_clear_pending drawobj i;
    when was (syncobj_cancel_event drawobj i)) ;;
  s ← SYNCOBJ drawobj;
  when (hgsl_drawobj_events_pending s)
    (o ← load w_drawobjs drawobj;
     hgsl_dispatch_queue_context (o_context o) ;; mret tt).

(** ** Timeline objects *)

Definition _drawobj_timelineobj_retire (obj : ptr) : M world unit :=
  o ← load w_drawobjs obj;
  t ← TIMELINEOBJ obj;
  for_each (seq 0 (tl_count t)) (λ i,
    timelines ← of_option (tl_timelines t);
    e ← of_option (timelines !! i);
    tl ← of_option (te_timeline e);
    timeline ← load w_isync tl;
    hgsl_isync_forward (o_priv o) (it_id timeline) (te_seqno e) false ;;
    hgsl_isync_timeline_put (te_timeline e) ;;
    hgsl_put_context (te_context e)) ;;
  update_timeline obj (λ t, t <| tl_timelines := None |> <| tl_count := O |>).

Definition hgsl_timelineobj_signal (obj : ptr) : M world unit :=
  t ← TIMELINEOBJ obj;
  if tl_sig_refcount t =? 0 then fault
  else
    update_timeline obj (λ t, t <| tl_sig_refcount ::= Z.pred |>) ;;
    when (tl_sig_refcount t - 1 =? 0) (_drawobj_timelineobj_retire obj).

Definition timelineobj_destroy (drawobj : ptr) : M world unit :=
  hgsl_timelineobj_signal drawobj.

Definition _timeline_signaled (obj : ptr) : M world unit :=
  hgsl_timelineobj_signal obj ;;
  hgsl_drawobj_put obj.

(** [drawobj->destroy] is set with the type of the object. *)
Definition hgsl_drawobj_destroy (drawobj : option ptr) : M world unit :=
  match drawobj with
  | None => mret tt
  | Some obj =>
      o ← load w_drawobjs obj;
      match o_body o with
      | Sync _ => syncobj_destroy obj
      | Cmd _ => cmdobj_destroy obj
      | Timeline _ => timelineobj_destroy obj
      end ;;
      hgsl_drawobj_put obj
  end.

(** ** Creation *)

(** The new object at a fresh address, or the error of drawobj_init. *)
Definition drawobj_init (priv ctxt : ptr) (type flags : Z) (body : drawobj_body) :
  M world (Z + ptr) :=
  got ← hgsl_context_get (Some ctxt);
  if negb got then mret (inl (- ENOENT))
  else
    obj ← fresh_ptr;
    store w_drawobjs obj (mk_drawobj priv ctxt type 0 flags 1 body) ;;
    mret (inr obj).

Definition hgsl_drawobj_timeline_create (priv ctxt : ptr) : M world (Z + ptr) :=
  ok ← ask k_alloc;
  if negb ok then mret (inl (- ENOMEM))
  else drawobj_init priv ctxt TIMELINEOBJ_TYPE 0 (Timeline (mk_timelineobj 1 None 0)).

Definition hgsl_drawobj_sync_create (priv ctxt : ptr) : M world (Z + ptr) :=
  ok ← ask k_alloc;
  if negb ok then mret (inl (- ENOMEM))
  else drawobj_init priv ctxt SYNCOBJ_TYPE 0 (Sync (mk_sync [] 0 0 0)).

Definition hgsl_drawobj_cmd_create (priv ctxt : ptr) (flags type : Z) :
  M world (Z + ptr) :=
  ok ← ask k_alloc;
  if negb ok then mret (inl (- ENOMEM))
  else drawobj_init priv ctxt (Z.land type (Z.lor CMDOBJ_TYPE MARKEROBJ_TYPE)) flags
         (Cmd (mk_cmd 0 [] [] 0 None 0)).

Definition get_aux_command (uptr generic_size type auxcmd_size : Z) :
  M world (Z + hgsl_cmd_syncpoint_timeline) :=
  generic ← ask (λ n, k_copy_aux_generic n uptr generic_size);
  match generic with
  | None => mret (inl (- EFAULT))
  | Some g =>
      if negb (ag_type g =? type) then mret (inl (- EINVAL))
      else
        let size := Z.min auxcmd_size (ag_size g) in
        cmd ← ask (λ n, k_copy_sp_timeline n (ag_priv g) size);
        mret match cmd with None => inl (- EFAULT) | Some cmd => inr cmd end
  end.

(** sizeof(struct hgsl_gpu_aux_command_timeline) *)
Definition AUX_TIMELINE_SIZE : Z := 16.

Definition set_timeline_event (obj : ptr) (i : nat)
    (f : hgsl_timeline_event → hgsl_timeline_event) : M world unit :=
  update_timeline obj (λ t, t <| tl_timelines ::= fmap (alter f i) |>).

(** The loop of hgsl_drawobj_add_timeline over the user's points. *)
Fixpoint add_timeline_points (priv ctxt obj : ptr) (queued src size : Z)
    (i n : nat) : M world Z :=
  match n with
  | O => mret 0
  | S n' =>
      val ← ask (λ k, k_copy_timeline_val k src size);
      match val with
      | None => mret (- EFAULT)
      | Some val =>
          if negb (tv_padding val =? 0) then mret (- EINVAL)
          else
            timeline ← hgsl_isync_timeline_get priv (tv_timeline_id val) false;
            set_timeline_event obj i (λ e, e <| te_timeline := timeline |>) ;;
            match timeline with
            | None => mret (- ENODEV)
            | Some _ =>
                got ← hgsl_context_get (Some ctxt);
                if negb got then mret (- ENODEV)
                else
                  set_timeline_event obj i (λ e,
                    e <| te_seqno := tv_timepoint val |> <| te_context := Some ctxt |>
                      <| te_timestamp := queued |>) ;;
                  add_timeline_points priv ctxt obj queued (u64 (src + size)) size (S i) n'
            end
      end
  end.

(** The [err:] label of hgsl_drawobj_add_timeline. *)
Definition add_timeline_err (obj : ptr) (count : nat) : M world unit :=
  t ← TIMELINEOBJ obj;
  for_each (seq 0 count) (λ i,
    timelines ← of_option (tl_timelines t);
    e ← of_option (timelines !! i);
    hgsl_isync_timeline_put (te_timeline e) ;;
    hgsl_put_context (te_context e)) ;;
  update_timeline obj (λ t, t <| tl_timelines := None |>).

(** kref_get(&timelineobj->sig_refcount) *)
Definition sig_refcount_get (obj : ptr) : M world unit :=
  t ← TIMELINEOBJ obj;
  if tl_sig_refcount t =? 0 then fault
  else update_timeline obj (λ t, t <| tl_sig_refcount ::= Z.succ |>).

Definition hgsl_drawobj_add_timeline (priv obj : ptr) (src cmdsize : Z) : M world Z :=
  o ← load w_drawobjs obj;
  let ctxt := o_context o in
  cmd ← get_aux_command src cmdsize HGSL_GPU_AUX_COMMAND_TIMELINE AUX_TIMELINE_SIZE;
  match cmd with
  | inl e => mret e
  | inr cmd =>
      if sptl_count cmd =? 0 then mret (- EINVAL)
      else
        let count := Z.to_nat (sptl_count cmd) in
        u ← ask k_uninit;
        '(ret, queued) ← hgsl_read_timestamp ctxt GSL_TIMESTAMP_QUEUED u;
        if negb (ret =? 0) then mret ret
        else
          ok ← ask k_alloc;
          if negb ok then mret (- ENOMEM)
          else
            update_timeline obj (λ t,
              t <| tl_timelines := Some (replicate count zero_timeline_event) |>) ;;
            ret ← add_timeline_points priv ctxt obj queued (sptl_timelines cmd)
                    (sptl_size cmd) 0 count;
            if negb (ret =? 0) then add_timeline_err obj count ;; mret ret
            else
              update_timeline obj (λ t, t <| tl_count := count |>) ;;
              kref_get w_drawobjs o_refcount obj ;;
              sig_refcount_get obj ;;
              ret ← hgsl_add_event ctxt queued (Some (Fn_timeline_signaled obj));
              if ret =? 0 then mret 0
              else
                hgsl_timelineobj_signal obj ;;
                hgsl_drawobj_put obj ;;
                add_timeline_err obj count ;;
                mret ret
  end.

(** ** The command and memory lists *)

Definition _verify_input_list (count uptr size : Z) : Z :=
  if (count =? 0) && (uptr =? 0) && (size =? 0) then 0
  else if (count =? 0) || (uptr =? 0) || (size =? 0) then - EINVAL
  else 1.

(** [list] is the cmdlist or the memlist of the object. *)
Definition hgsl_drawobj_add_memobject (obj : ptr)
    (list : hgsl_drawobj_cmd → list hgsl_memobj_node) `{!Upd list}
    (o : hgsl_command_object) : M world Z :=
  ok ← ask k_alloc;
  if negb ok then mret (- ENOMEM)
  else
    update_cmd obj (upd list (λ l, l ++
      [mk_memobj (co_id o) (co_offset o) (co_gpuaddr o) (co_size o) (co_flags o)])) ;;
    mret 0.

Definition drawobj_add_profiling_buffer (priv cmdobj : ptr)
    (gpuaddr size id offset : Z) : M world unit :=
  o ← load w_drawobjs cmdobj;
  c ← CMDOBJ cmdobj;
  if negb (has_flag (o_flags o) HGSL_DRAWOBJ_PROFILING) then mret tt
  else match cmd_profiling c with
  | Some _ => mret tt
  | None =>
      '(mem_allocated, mem_mapped) ← load w_mem priv;
      let node_found :=
        match hgsl_mem_find_node_locked mem_allocated gpuaddr size false with
        | Some n => Some n
        | None => hgsl_mem_find_node_locked mem_mapped gpuaddr size false
        end in
      match node_found with
      | None => mret tt
      | Some n =>
          update_cmd cmdobj (λ c, c <| cmd_profiling := Some
            (if negb (id =? 0) then u64 (mn_gpuaddr n + offset) else gpuaddr) |>)
      end
  end.

(** sizeof(struct hgsl_command_object), the stride of both loops. *)
Definition COMMAND_OBJECT_SIZE : Z := 32.

Fixpoint add_cmdlist_loop (cmdobj : ptr) (uptr size : Z) (n : nat) : M world Z :=
  match n with
  | O => mret 0
  | S n' =>
      obj ← ask (λ k, k_copy_command_object k uptr size);
      match obj with
      | None => mret (- EFAULT)
      | Some obj =>
          if negb (has_flag (co_flags obj) CMDLIST_FLAGS) then mret (- EINVAL)
          else
            ret ← hgsl_drawobj_add_memobject cmdobj cmd_cmdlist obj;
            if negb (ret =? 0) then mret ret
            else
              update_cmd cmdobj (λ c, c <| cmd_numibs ::= (λ x, u32 (x + 1)) |>) ;;
              add_cmdlist_loop cmdobj (u64 (uptr + COMMAND_OBJECT_SIZE)) size n'
      end
  end.

Definition hgsl_drawobj_cmd_add_cmdlist (cmdobj : ptr) (uptr size count : Z) :
  M world Z :=
  o ← load w_drawobjs cmdobj;
  if has_flag (o_type o) MARKEROBJ_TYPE then mret 0
  else
    let ret := _verify_input_list count uptr size in
    if ret <=? 0 then mret ret
    else
      ret ← add_cmdlist_loop cmdobj uptr size (Z.to_nat count);
      if negb (ret =? 0) then mret ret
      else
        c ← CMDOBJ cmdobj;
        mret (if ECP_MAX_NUM_IB1 <? cmd_numibs c then - EINVAL else 0).

Fixpoint add_memlist_loop (priv cmdobj : ptr) (uptr size : Z) (n : nat) : M world Z :=
  match n with
  | O => mret 0
  | S n' =>
      obj ← ask (λ k, k_copy_command_object k uptr size);
      match obj with
      | None => mret (- EFAULT)
      | Some obj =>
          if negb (has_flag (co_flags obj) HGSL_OBJLIST_MEMOBJ) then mret (- EINVAL)
          else
            ret ← (if has_flag (co_flags obj) HGSL_OBJLIST_PROFILE
                   then drawobj_add_profiling_buffer priv cmdobj (co_gpuaddr obj)
                          (co_size obj) (co_id obj) (co_offset obj) ;; mret 0
                   else hgsl_drawobj_add_memobject cmdobj cmd_memlist obj);
            if negb (ret =? 0) then mret ret
            else add_memlist_loop priv cmdobj (u64 (uptr + COMMAND_OBJECT_SIZE)) size n'
      end
  end.

Definition hgsl_drawobj_cmd_add_memlist (priv cmdobj : ptr) (uptr size count : Z) :
  M world Z :=
  o ← load w_drawobjs cmdobj;
  if has_flag (o_type o) MARKEROBJ_TYPE then mret 0
  else
    let ret := _verify_input_list count uptr size in
    if ret <=? 0 then mret ret
    else add_memlist_loop priv cmdobj uptr size (Z.to_nat count).

(** ** Sync points *)

(** [id = syncobj->numsyncs++; event = &syncobj->synclist[id]] followed by the
    assignments to [*event]; an index outside the array is a fault. *)
Definition new_sync_event (obj : ptr) (event : hgsl_drawobj_sync_event) : M world nat :=
  s ← SYNCOBJ obj;
  let id := s_numsyncs s in
  _ ← of_option (s_synclist s !! id);
  set_body obj (Sync (s <| s_numsyncs := S id |>
                        <| s_synclist ::= <[id := event]> |>)) ;;
  mret id.

Definition set_sync_event (obj : ptr) (id : nat)
    (f : hgsl_drawobj_sync_event → hgsl_drawobj_sync_event) : M world unit :=
  update_sync obj (λ s, s <| s_synclist ::= alter f id |>).

Definition drawobj_add_sync_timeline (priv obj : ptr) (sync_priv sync_size : Z) :
  M world Z :=
  sync_timeline ← ask (λ n, k_copy_sp_timeline n sync_priv sync_size);
  match sync_timeline with
  | None => mret (- EFAULT)
  | Some st =>
      fence ← hgsl_timelines_to_fence_array priv (sptl_timelines st) (sptl_count st)
                (sptl_size st) false;
      match fence with
      | inl e => mret e
      | inr fence =>
          kref_get w_drawobjs o_refcount obj ;;
          id ← new_sync_event obj
            (mk_sync_event HGSL_CMD_SYNCPOINT_TYPE_TIMELINE None 0 None (Some fence));
          set_pending obj id ;;
          dma_fence_get fence ;;
          ret ← ask (λ n, k_add_callback n fence);
          if negb (ret =? 0)
          then
            clear_pending obj id ;;
            signaled ← dma_fence_is_signaled fence;
            when signaled (dma_fence_put fence) ;;
            dma_fence_put fence ;;
            hgsl_drawobj_put obj ;;
            mret (if signaled : bool then 0 else ret)
          else dma_fence_put fence ;; mret 0
      end
  end.

Definition drawobj_add_sync_fence (obj : ptr) (sync_priv sync_size : Z) : M world Z :=
  sync_fence ← ask (λ n, k_copy_sp_fence n sync_priv sync_size);
  match sync_fence with
  | None => mret (- EFAULT)
  | Some fd =>
      kref_get w_drawobjs o_refcount obj ;;
      id ← new_sync_event obj
        (mk_sync_event HGSL_CMD_SYNCPOINT_TYPE_FENCE None 0 None None);
      set_pending obj id ;;
      handle ← hgsl_sync_fence_async_wait fd;
      match handle with
      | inr (Some fence) =>
          set_sync_event obj id (λ e, e <| se_handle := Some fence |>) ;;
          mret 0
      | inr None =>
          clear_pending obj id ;; hgsl_drawobj_put obj ;; mret 0
      | inl e =>
          clear_pending obj id ;; hgsl_drawobj_put obj ;; mret e
      end
  end.

Definition drawobj_add_sync_timestamp (obj : ptr)
    (timestamp : hgsl_cmd_syncpoint_timestamp) : M world Z :=
  ctxt ← hgsl_get_context (spts_devhandle timestamp) (spts_context_id timestamp);
  match ctxt with
  | None => mret (- EINVAL)
  | Some p =>
      o ← load w_drawobjs obj;
      c ← load w_contexts p;
      if bool_decide (p = o_context o) &&
         hgsl_ts32_ge (spts_timestamp timestamp) (c_queued_ts c)
      then hgsl_put_context (Some p) ;; mret (- EINVAL)
      else
        kref_get w_drawobjs o_refcount obj ;;
        id ← new_sync_event obj
          (mk_sync_event HGSL_CMD_SYNCPOINT_TYPE_TIMESTAMP (Some p)
             (spts_timestamp timestamp) None None);
        set_pending obj id ;;
        ret ← hgsl_add_event p (spts_timestamp timestamp)
                (Some (Fn_timestamp_signaled obj id));
        if negb (ret =? 0)
        then clear_pending obj id ;; hgsl_drawobj_put obj ;;
             hgsl_put_context (Some p) ;; mret ret
        else mret 0
  end.

Definition drawobj_add_sync_timestamp_from_user (obj : ptr) (sync_priv sync_size : Z) :
  M world Z :=
  timestamp ← ask (λ n, k_copy_sp_timestamp n sync_priv sync_size);
  match timestamp with
  | None => mret (- EFAULT)
  | Some t => drawobj_add_sync_timestamp obj t
  end.

(** The function of [add_sync_event_table] at index [type]. *)
Definition add_sync_event_func (type : Z) (priv obj : ptr) (sync_priv sync_size : Z) :
  M world Z :=
  if type =? HGSL_CMD_SYNCPOINT_TYPE_TIMESTAMP
  then drawobj_add_sync_timestamp_from_user obj sync_priv sync_size
  else if type =? HGSL_CMD_SYNCPOINT_TYPE_FENCE
  then drawobj_add_sync_fence obj sync_priv sync_size
  else drawobj_add_sync_timeline priv obj sync_priv sync_size.

(** sizeof(struct hgsl_command_syncpoint) *)
Definition COMMAND_SYNCPOINT_SIZE : Z := 24.

Fixpoint add_synclist_loop (priv obj : ptr) (uptr size : Z) (n : nat) : M world Z :=
  match n with
  | O => mret 0
  | S n' =>
      syncpt ← ask (λ k, k_copy_command_syncpoint k uptr size);
      match syncpt with
      | None => mret (- EFAULT)
      | Some syncpt =>
          if 3 <=? cs_type syncpt then mret (- EINVAL)
          else
            ret ← add_sync_event_func (cs_type syncpt) priv obj (cs_priv syncpt)
                    (cs_size syncpt);
            if negb (ret =? 0) then mret ret
            else add_synclist_loop priv obj (u64 (uptr + COMMAND_SYNCPOINT_SIZE)) size n'
      end
  end.

Definition hgsl_drawobj_sync_add_synclist (priv obj : ptr) (uptr size count : Z) :
  M world Z :=
  let ret := _verify_input_list count uptr size in
  if ret <=? 0 then mret (- EINVAL)
  else
    ok ← ask k_alloc;
    if negb ok then mret (- ENOMEM)
    else
      update_sync obj (λ s,
        s <| s_synclist := replicate (Z.to_nat count) zero_sync_event |>) ;;
      add_synclist_loop priv obj uptr size (Z.to_nat count).

End drawobj.

(** * Lemmas *)

Section lemmas.
Context `{K : Kernel}.

(** ** The pending mask *)

Lemma clearbit_clear m i : 0 ≤ i → Z.testbit m i = false → Z.clearbit m i = m.
Proof.
  intros Hi Hb. apply Z.bits_inj'. intros j Hj. rewrite Z.clearbit_eqb by done.
  destruct (Z.eqb_spec i j) as [->|]; cbn; [by rewrite Hb|]. by rewrite andb_true_r.
Qed.

Definition with_obj (w : world) (p : ptr) (o : hgsl_drawobj) : world :=
  w <| w_drawobjs ::= <[p := o]> |>.

(** The object with bit [id] of its pending mask cleared. *)
Definition cleared (o : hgsl_drawobj) (s : hgsl_drawobj_sync) (id : nat) : hgsl_drawobj :=
  o <| o_body := Sync (s <| s_pending ::= (λ m, Z.clearbit m (Z.of_nat id)) |>) |>.

Lemma SYNCOBJ_run w p o s :
  w_drawobjs w !! p = Some o → o_body o = Sync s → SYNCOBJ p w = Some (s, w).
Proof. intros Ho Hb. unfold SYNCOBJ. run_load Ho. by rewrite Hb. Qed.

Lemma CMDOBJ_run w p o c :
  w_drawobjs w !! p = Some o → o_body o = Cmd c → CMDOBJ p w = Some (c, w).
Proof. intros Ho Hb. unfold CMDOBJ. run_load Ho. by rewrite Hb. Qed.

Lemma test_and_clear_run w p o s id :
  w_drawobjs w !! p = Some o → o_body o = Sync s →
  test_and_clear_pending p id w =
    Some (Z.testbit (s_pending s) (Z.of_nat id), with_obj w p (cleared o s id)).
Proof.
  intros Ho Hb. unfold test_and_clear_pending, clear_pending, update_sync, set_body.
  rewrite (bind_run _ _ _ _ _ (SYNCOBJ_run w p o s Ho Hb)).
  rewrite (bind_run _ _ _ tt (with_obj w p (cleared o s id))); [done|].
  rewrite (bind_run _ _ _ _ _ (SYNCOBJ_run w p o s Ho Hb)).
  apply (update_run _ _ _ _ _ Ho).
Qed.

(** A clear bit stays clear, and nothing happens. *)
Lemma test_and_clear_again w p o s id :
  w_drawobjs w !! p = Some o → o_body o = Sync s → Z.testbit (s_pending s) (Z.of_nat id) = false →
  test_and_clear_pending p id w = Some (false, w).
Proof.
  intros Ho Hb Ht. rewrite (test_and_clear_run w p o s id Ho Hb), Ht.
  do 2 f_equal. unfold with_obj, cleared.
  replace (upd s_pending _ s) with s.
  2:{ destruct s; cbn in *. f_equal. symmetry. apply clearbit_clear; [lia|done]. }
  destruct w, o; cbn in *. rewrite <- Hb. by rewrite insert_id.
Qed.

(** ** Scheduling the dispatcher *)

Definition scheduled (c : hgsl_context) (d : hgsl_dispatch_context) : hgsl_context :=
  c <| c_kref := c_kref c + 1 |>
    <| c_dispatch := Some (d <| d_count ::= Z.succ |> <| d_work := true |>) |>.

Lemma queue_context_run w p c d :
  w_contexts w !! p = Some c → c_kref c ≠ 0 → c_dispatch c = Some d →
  hgsl_dispatch_queue_context p w = Some (0, with_context w p (scheduled c d)).
Proof.
  intros Hc Hk Hd. unfold hgsl_dispatch_queue_context.
  rewrite (bind_run _ _ _ _ _ (context_get_run w p c Hc Hk)). cbn [negb].
  set (c1 := c <| c_kref := c_kref c + 1 |>). set (w1 := with_context w p c1).
  assert (Hc1 : w_contexts w1 !! p = Some c1) by apply with_context_lookup.
  set (c2 := c1 <| c_dispatch := Some (d <| d_count ::= Z.succ |>) |>).
  rewrite (bind_run _ _ _ tt (with_context w p c2)).
  2:{ unfold dispatch_count_inc. run_load Hc1. cbn [c1 c_dispatch upd]. rewrite Hd.
      rewrite (bind_run _ _ w1 d w1) by done. unfold store, modify. do 2 f_equal.
      apply with_context_twice. }
  set (w2 := with_context w p c2).
  assert (Hc2 : w_contexts w2 !! p = Some c2) by apply with_context_lookup.
  rewrite (bind_run _ _ _ tt (with_context w p (scheduled c d))); [done|].
  unfold hgsl_dispatch_ctxt_schedule. run_load Hc2.
  rewrite (bind_run _ _ w2 (d <| d_count ::= Z.succ |>) w2) by done.
  unfold store, modify. do 2 f_equal. apply with_context_twice.
Qed.

(** ** The command list *)

(** The command object at [p], between the steps of the loop. *)
Definition cmd_at (w : world) (p : ptr) (c : hgsl_drawobj_cmd) : Prop :=
  ∃ o, w_drawobjs w !! p = Some o ∧ o_body o = Cmd c.

Definition flagged (m : hgsl_memobj_node) : Prop := has_flag (mo_flags m) CMDLIST_FLAGS = true.

Definition counted (c : hgsl_drawobj_cmd) : Prop :=
  cmd_numibs c = Z.of_nat (length (cmd_cmdlist c)) ∧ Forall flagged (cmd_cmdlist c).

Lemma cmd_at_same w w' p c :
  w_drawobjs w' = w_drawobjs w → cmd_at w p c → cmd_at w' p c.
Proof. unfold cmd_at. by intros ->. Qed.

Lemma update_cmd_at p f w u w' c :
  cmd_at w p c → update_cmd p f w = Some (u, w') → cmd_at w' p (f c).
Proof.
  intros (o & Ho & Hb) H. unfold update_cmd in H.
  rewrite (bind_run _ _ _ _ _ (CMDOBJ_run w p o c Ho Hb)) in H. unfold set_body in H.
  apply update_Some in H as (o1 & Ho1 & ->). rewrite Ho in Ho1. injection Ho1 as <-.
  eexists. split; [apply lookup_insert_eq|]. done.
Qed.

Lemma add_memobject_Some p obj w r w' c :
  cmd_at w p c → hgsl_drawobj_add_memobject p cmd_cmdlist obj w = Some (r, w') →
  (r = - ENOMEM ∧ cmd_at w' p c) ∨
  (r = 0 ∧ cmd_at w' p (c <| cmd_cmdlist ::= (λ l, l ++
     [mk_memobj (co_id obj) (co_offset obj) (co_gpuaddr obj) (co_size obj) (co_flags obj)]) |>)).
Proof.
  intros Hc H. unfold hgsl_drawobj_add_memobject in H.
  apply bind_Some in H as (ok & w1 & [-> ->]%ask_Some & H).
  assert (Hc1 : cmd_at (w <| w_clock := S (w_clock w) |>) p c) by by apply (cmd_at_same w).
  destruct (k_alloc (w_clock w)); cbn [negb] in H; [|by inv_run; eauto].
  apply bind_Some in H as (u & w2 & H & H'). inv_run. right. split; [done|].
  by apply (update_cmd_at _ _ _ _ _ _ Hc1 H).
Qed.

Lemma add_cmdlist_loop_counts p uptr size n w r w' c :
  cmd_at w p c → counted c → cmd_numibs c + Z.of_nat n < 4294967296 →
  add_cmdlist_loop p uptr size n w = Some (r, w') →
  ∃ c' k, cmd_at w' p c' ∧ length (cmd_cmdlist c') = (length (cmd_cmdlist c) + k)%nat ∧
    (k ≤ n)%nat ∧ Forall flagged (cmd_cmdlist c') ∧
    (cmd_numibs c' = Z.of_nat (length (cmd_cmdlist c')) ) ∧ (r = 0 → k = n).
Proof.
  revert uptr w c. induction n as [|n IH]; intros uptr w c Hc [Hn Hf] Hb H;
    cbn [add_cmdlist_loop] in H.
  { inv_run. exists c, O. split_and!; try done. }
  apply bind_Some in H as (obj & w1 & [-> ->]%ask_Some & H).
  assert (Hc1 : cmd_at (w <| w_clock := S (w_clock w) |>) p c) by by apply (cmd_at_same w).
  assert (Stop : r ≠ 0 → cmd_at w' p c →
    ∃ c' k, cmd_at w' p c' ∧ length (cmd_cmdlist c') = (length (cmd_cmdlist c) + k)%nat ∧
      (k ≤ S n)%nat ∧ Forall flagged (cmd_cmdlist c') ∧
      cmd_numibs c' = Z.of_nat (length (cmd_cmdlist c')) ∧ (r = 0 → k = S n)).
  { intros Hr0 Hw'. exists c, O. split_and!; try done; lia. }
  destruct (k_copy_command_object _ _ _) as [obj|]; [|inv_run; by apply Stop].
  destruct (has_flag (co_flags obj) CMDLIST_FLAGS) eqn:Ef; cbn [negb] in H;
    [|inv_run; by apply Stop].
  apply bind_Some in H as (r1 & w2 & H1 & H).
  apply (add_memobject_Some _ _ _ _ _ _ Hc1) in H1 as [[-> Hc2]|[-> Hc2]];
    [change (negb (- ENOMEM =? 0)) with true in H; cbv iota in H; inv_run; by apply Stop|].
  change (negb (0 =? 0)) with false in H. cbv iota in H.
  apply bind_Some in H as (u & w3 & H2 & H).
  apply (update_cmd_at _ _ _ _ _ _ Hc2) in H2 as Hc3.
  set (c2 := upd cmd_cmdlist _ c) in *. cbv beta in Hc3.
  set (c3 := c2 <| cmd_numibs ::= (λ x, u32 (x + 1)) |>) in *.
  assert (E3 : cmd_numibs c3 = cmd_numibs c + 1) by (cbn; apply u32_small; unfold is_u32; lia).
  assert (L3 : length (cmd_cmdlist c3) = S (length (cmd_cmdlist c)))
    by (cbn; rewrite length_app; cbn; lia).
  destruct (IH (u64 (uptr + COMMAND_OBJECT_SIZE)) w3 c3 Hc3) as (c' & k & Hc' & Hl & Hk & Hf' & Hn' & Hr).
  - split; [lia|]. cbn. apply Forall_app. split; [done|]. by constructor.
  - lia.
  - exact H.
  - exists c', (S k). split_and!; try done; lia.
Qed.

End lemmas.

(** * Properties *)

Section properties.
Context `{K : Kernel}.

(** A sync event expires exactly once.  When its bit is pending, the call
    reports so and clears this bit only; when it was the last one, the timer is
    deleted and the dispatcher of the context scheduled with one reference more;
    a second call reports false and changes nothing, and so does a call for a bit
    that is not pending. *)
Theorem sync_expire_once obj id w o s c d :
  w_drawobjs w !! obj = Some o → o_body o = Sync s →
  w_contexts w !! o_context o = Some c → c_kref c ≠ 0 → c_dispatch c = Some d →
  let o' := cleared o s id in
  let s' := s <| s_pending ::= (λ m, Z.clearbit m (Z.of_nat id)) |> in
  if Z.testbit (s_pending s) (Z.of_nat id)
  then ∃ w', drawobj_sync_expire obj id w = Some (true, w') ∧
    w_drawobjs w' = <[obj := o']> (w_drawobjs w) ∧
    (if hgsl_drawobj_events_pending s' then w_contexts w' = w_contexts w ∧ w_trace w' = w_trace w
     else w_contexts w' = <[o_context o := scheduled c d]> (w_contexts w) ∧
          w_trace w' = w_trace w ++ [A_del_timer obj]) ∧
    drawobj_sync_expire obj id w' = Some (false, w')
  else drawobj_sync_expire obj id w = Some (false, w).
Proof.
  intros Ho Hb Hc Hk Hd. cbv zeta.
  destruct (Z.testbit (s_pending s) (Z.of_nat id)) eqn:Ht.
  2:{ unfold drawobj_sync_expire.
      by rewrite (bind_run _ _ _ _ _ (test_and_clear_again w obj o s id Ho Hb Ht)). }
  set (s1 := s <| s_pending ::= (λ m, Z.clearbit m (Z.of_nat id)) |>).
  set (o1 := cleared o s id). set (w1 := with_obj w obj o1).
  assert (Ho1 : w_drawobjs w1 !! obj = Some o1) by apply lookup_insert_eq.
  assert (Again : ∀ w2, w_drawobjs w2 = w_drawobjs w1 →
                  drawobj_sync_expire obj id w2 = Some (false, w2)).
  { intros w2 E. unfold drawobj_sync_expire.
    assert (Ho2 : w_drawobjs w2 !! obj = Some o1) by by rewrite E.
    rewrite (bind_run _ _ _ _ _ (test_and_clear_again w2 obj o1 s1 id Ho2 eq_refl
      ltac:(cbn; apply Z.clearbit_eq))). done. }
  assert (Run : drawobj_sync_expire obj id w =
    ((when (negb (hgsl_drawobj_events_pending s1))
        (emit (A_del_timer obj) ;; o ← load w_drawobjs obj;
         hgsl_dispatch_queue_context (o_context o) ;; mret tt)) ;; mret true) w1).
  { unfold drawobj_sync_expire.
    rewrite (bind_run _ _ _ _ _ (test_and_clear_run w obj o s id Ho Hb)), Ht. cbn [negb].
    by rewrite (bind_run _ _ _ _ _ (SYNCOBJ_run w1 obj o1 s1 Ho1 eq_refl)). }
  rewrite Run. destruct (hgsl_drawobj_events_pending s1); cbn [negb when].
  - exists w1. split; [done|]. split; [done|]. split; [done|]. by apply Again.
  - set (w2 := w1 <| w_trace ::= (λ t, t ++ [A_del_timer obj]) |>).
    exists (with_context w2 (o_context o) (scheduled c d)).
    split; [|split; [done|split; [done|by apply Again]]].
    rewrite (bind_run _ _ _ tt (with_context w2 (o_context o) (scheduled c d))); [done|].
    rewrite (bind_run _ _ w1 tt w2) by done.
    assert (Ho2 : w_drawobjs w2 !! obj = Some o1) by done. run_load Ho2.
    assert (Hc2 : w_contexts w2 !! o_context o1 = Some c) by done.
    by rewrite (bind_run _ _ _ _ _ (queue_context_run w2 _ c d Hc2 Hk Hd)).
Qed.

(** The commands of a new command object: [numibs] counts the nodes of the list
    exactly, also when the call fails half-way, every node has one of the IB flags,
    a successful call added what it was asked to and stays within the hardware's
    limit; a marker gets none. *)
Theorem add_cmdlist_counts p uptr size count w o c r w' :
  w_drawobjs w !! p = Some o → o_body o = Cmd c → cmd_cmdlist c = [] → cmd_numibs c = 0 →
  is_u32 count → hgsl_drawobj_cmd_add_cmdlist p uptr size count w = Some (r, w') →
  ∃ c', cmd_at w' p c' ∧ counted c' ∧ Z.of_nat (length (cmd_cmdlist c')) ≤ count ∧
    (r = 0 → Z.of_nat (length (cmd_cmdlist c')) =
             (if has_flag (o_type o) MARKEROBJ_TYPE then 0 else count) ∧
             cmd_numibs c' ≤ ECP_MAX_NUM_IB1).
Proof.
  intros Ho Hb Hl Hn Hu H. unfold is_u32 in Hu. unfold hgsl_drawobj_cmd_add_cmdlist in H.
  assert (Hc : cmd_at w p c) by by eexists.
  assert (Cc : counted c) by (unfold counted; by rewrite Hl, Hn).
  apply bind_Some in H as (o1 & w1 & [Ho1 ->]%load_Some & H).
  rewrite Ho in Ho1. injection Ho1 as <-.
  destruct (has_flag (o_type o) MARKEROBJ_TYPE).
  { inv_run. exists c. rewrite Hl, Hn. split_and!; try done. cbn. lia. }
  cbv zeta in H. unfold _verify_input_list in H.
  destruct (_ && _) eqn:E1; cbn [Z.leb Z.compare] in H.
  { inv_run. exists c. rewrite Hl, Hn. split; [done|]. split; [done|]. split; [cbn; lia|]. intros _.
    rewrite !andb_true_iff, !Z.eqb_eq in E1. destruct E1 as [[-> _] _]. done. }
  destruct (_ || _) eqn:E2; [change (- EINVAL <=? 0) with true in H; cbv iota in H|cbn [Z.leb Z.compare] in H].
  { inv_run. exists c. rewrite Hl, Hn. split; [done|]. split; [done|]. split; [cbn; lia|done]. }
  apply bind_Some in H as (r1 & w1 & H1 & H).
  apply (add_cmdlist_loop_counts _ _ _ _ _ _ _ _ Hc Cc) in H1
    as (c' & k & Hc' & Hlen & Hk & Hf & Hcnt & Hr); [|lia].
  rewrite Hl in Hlen. cbn in Hlen.
  destruct (Z.eqb_spec r1 0) as [->|Hr1]; cbn [negb] in H.
  - destruct Hc' as (o' & Ho' & Hb').
    rewrite (bind_run _ _ _ _ _ (CMDOBJ_run _ _ _ _ Ho' Hb')) in H. inv_run.
    exists c'. split; [by eexists|]. split; [done|]. split; [lia|].
    destruct (Z.ltb_spec ECP_MAX_NUM_IB1 (cmd_numibs c')); [done|].
    intros _. rewrite (Hr eq_refl) in Hlen. split; [lia|done].
  - inv_run. exists c'. split; [done|]. split; [done|]. split; [lia|]. done.
Qed.

End properties.

(** * Witnesses *)

Section witnesses.
#[local] Existing Instance quiet_kernel.

(** A sync object (3) with two events, the first of which is pending, a command
    object (4), and their context (2). *)
#[local] Definition sync_obj : hgsl_drawobj :=
  mk_drawobj 1 2 SYNCOBJ_TYPE 0 0 2
    (Sync (mk_sync [zero_sync_event; zero_sync_event] 2 1 0)).

#[local] Definition cmd_obj : hgsl_drawobj :=
  mk_drawobj 1 2 CMDOBJ_TYPE 0 0 1 (Cmd (mk_cmd 0 [] [] 0 None 0)).

#[local] Definition obj_context : hgsl_context :=
  (fresh_context 1 7 0 (Some (mk_shadow 0 0))) <| c_dispatch := Some (mk_dispatch 0 [] false) |>.

#[local] Definition obj_world : world :=
  empty_world <| w_contexts := {[ 2%positive := obj_context ]} |>
              <| w_drawobjs := {[ 3%positive := sync_obj; 4%positive := cmd_obj ]} |>.

Lemma sync_expire_once_witness :
  ∃ w', drawobj_sync_expire 3 0 obj_world = Some (true, w') ∧
    w_contexts w' = <[2%positive := scheduled obj_context (mk_dispatch 0 [] false)]>
                      (w_contexts obj_world) ∧
    drawobj_sync_expire 3 0 w' = Some (false, w').
Proof.
  destruct (sync_expire_once 3 0 obj_world sync_obj
    (mk_sync [zero_sync_event; zero_sync_event] 2 1 0) obj_context (mk_dispatch 0 [] false))
    as (w' & E & _ & [Hc _] & A); [done..|].
  by exists w'.
Defined.

Lemma add_cmdlist_counts_witness :
  ∃ w' c', hgsl_drawobj_cmd_add_cmdlist 4 64 32 3 obj_world = Some (0, w') ∧
    cmd_at w' 4 c' ∧ counted c' ∧ length (cmd_cmdlist c') = 3%nat.
Proof.
  destruct (hgsl_drawobj_cmd_add_cmdlist 4 64 32 3 obj_world) as [[r w']|] eqn:E.
  2:{ vm_compute in E. discriminate. }
  assert (r = 0) as -> by (vm_compute in E; by injection E).
  destruct (add_cmdlist_counts 4 64 32 3 obj_world cmd_obj (mk_cmd 0 [] [] 0 None 0) 0 w')
    as (c' & Hc & Cc & _ & Hr); [done|done|done|done|unfold is_u32; lia|exact E|].
  exists w', c'. destruct (Hr eq_refl) as [Hl _]. change (has_flag _ _) with false in Hl.
  split; [done|]. split; [done|]. split; [done|]. lia.
Defined.

End witnesses.
