(* ===== verification/Frames.v ===== *)
(** What the operations on fences, timelines, events, contexts and draw objects
    leave alone.  One instance of [Frames] per operation, for every relation between
    worlds that allows what these operations do ([WorldFrame], [FramesObj]), so that the
    dispatcher's theorems frame the calls it makes by instance search.  There are two such
    relations: the ring of every context and the type of every draw object stay
    ([disp_frame]); of the draw objects only one changes, and the shadow timestamps of at
    most one context ([drop_frame]). *)

From S2P Require Import Prelude.
From S2P Require Import Rbtree.
From S2P Require Import MemTree.
From S2P Require Import State.
From S2P Require Import Timestamp.
From S2P Require Import Hsync.
From S2P Require Import Context.
From S2P Require Import Events.
From S2P Require Import Isync.
From S2P Require Import Drawobj.

(** * Definitions *)

(** The part of a context that the ring's operations write. *)
Definition ring_of (c : hgsl_context) : list (option ptr) * nat * nat * Z :=
  (c_drawq c, c_drawq_head c, c_drawq_tail c, c_queued c).

(** Contexts stay where they are with the ring they have; a draw object that is
    there after was there before, with its type. *)
Record disp_frame (w w' : world) : Prop := {
  df_rings p c : w_contexts w !! p = Some c →
    ∃ c', w_contexts w' !! p = Some c' ∧ ring_of c' = ring_of c;
  df_types p o' : w_drawobjs w' !! p = Some o' →
    ∃ o, w_drawobjs w !! p = Some o ∧ o_type o = o_type o' }.

(** Only the draw object [x] has changed, and only the context [oc] may have other shadow
    timestamps. *)
Record drop_frame (x : ptr) (oc : option ptr) (w w' : world) : Prop := {
  dp_objs y : y ≠ x → w_drawobjs w' !! y = w_drawobjs w !! y;
  dp_shadows p c : oc ≠ Some p → w_contexts w !! p = Some c →
    ∃ c', w_contexts w' !! p = Some c' ∧ c_shadow_ts c' = c_shadow_ts c }.

(** A relation that allows any change besides those of rings, shadow timestamps and draw
    objects. *)
Class WorldFrame (R : world → world → Prop) : Prop := {
  #[global] wf_preorder :: PreOrder R;
  wf_same w w' : w_contexts w' = w_contexts w → w_drawobjs w' = w_drawobjs w → R w w';
  wf_context w p c c' : w_contexts w !! p = Some c → ring_of c' = ring_of c →
    c_shadow_ts c' = c_shadow_ts c → R w (w <| w_contexts ::= <[p := c']> |>) }.

(** It allows any change of the draw object [p] but of its type. *)
Class FramesObj (R : world → world → Prop) (p : ptr) : Prop := {
  fo_store w o o' : w_drawobjs w !! p = Some o → o_type o' = o_type o →
    R w (w <| w_drawobjs ::= <[p := o']> |>);
  fo_free w : R w (w <| w_drawobjs ::= delete p |>) }.

(** A field of [world] other than the contexts and the draw objects. *)
Class OtherField {V} (proj : world → V) `{!Upd proj} : Prop :=
  other_field f w : w_contexts (upd proj f w) = w_contexts w ∧
                    w_drawobjs (upd proj f w) = w_drawobjs w.

(** * Lemmas *)

#[export] Instance disp_frame_preorder : PreOrder disp_frame.
Proof.
  split.
  - intros w. split; eauto.
  - intros w1 w2 w3 [R1 T1] [R2 T2]. split.
    + intros p c Hc. destruct (R1 _ _ Hc) as (c2 & Hc2 & E2).
      destruct (R2 _ _ Hc2) as (c3 & Hc3 & E3). exists c3. by rewrite E3.
    + intros p o3 Ho3. destruct (T2 _ _ Ho3) as (o2 & Ho2 & E2).
      destruct (T1 _ _ Ho2) as (o1 & Ho1 & E1). exists o1. by rewrite E1.
Qed.

#[export] Hint Extern 0 (OtherField _) =>
  (intros ? ?; split; reflexivity) : typeclass_instances.

Lemma frames_store_context p w c c' :
  w_contexts w !! p = Some c → ring_of c' = ring_of c →
  disp_frame w (w <| w_contexts ::= <[p := c']> |>).
Proof.
  intros Hp E. split; [|eauto]. intros q d Hq. cbn.
  destruct (decide (p = q)) as [->|].
  - rewrite lookup_insert_eq. exists c'. split; [done|]. congruence.
  - rewrite lookup_insert_ne by done. eauto.
Qed.

#[export] Instance disp_world_frame : WorldFrame disp_frame.
Proof.
  split; [apply _|intros w w' E1 E2; split; [rewrite E1|rewrite E2]; eauto|].
  intros w p c c' Hp E _. by apply frames_store_context with c.
Qed.

#[export] Instance disp_frames_obj p : FramesObj disp_frame p.
Proof.
  split.
  - intros w o o' Hp E. split; [eauto|]. intros q d. cbn. destruct (decide (p = q)) as [->|].
    + rewrite lookup_insert_eq. intros [= <-]. eauto.
    + rewrite lookup_insert_ne by done. eauto.
  - intros w. split; [eauto|]. intros q o. cbn. rewrite lookup_delete_Some. naive_solver.
Qed.

#[export] Instance drop_world_frame x oc : WorldFrame (drop_frame x oc).
Proof.
  split.
  - split; [split; eauto|]. intros w1 w2 w3 [O1 S1] [O2 S2]. split.
    + intros y Hy. by rewrite O2, O1.
    + intros p c Hp Hc. destruct (S1 _ _ Hp Hc) as (c2 & Hc2 & E2).
      destruct (S2 _ _ Hp Hc2) as (c3 & Hc3 & E3). exists c3. by rewrite E3.
  - intros w w' E1 E2. split; [by rewrite E2|rewrite E1]. eauto.
  - intros w p c c' Hp _ E. split; [done|]. intros q d _ Hq. cbn.
    destruct (decide (p = q)) as [->|].
    + rewrite lookup_insert_eq. exists c'. split; [done|]. congruence.
    + rewrite lookup_insert_ne by done. eauto.
Qed.

#[export] Instance drop_frames_obj x oc : FramesObj (drop_frame x oc) x.
Proof.
  split; [intros w o o' _ _|intros w]; (split; [|eauto]); intros y Hy; cbn.
  - by rewrite lookup_insert_ne.
  - by rewrite lookup_delete_ne.
Qed.

Lemma other_frame {R : world → world → Prop} `{!WorldFrame R} {V} (proj : world → V) `{!Upd proj} `{!OtherField proj} f :
  Frames R (modify (upd proj f)).
Proof.
  apply frames_modify. intros w. destruct (other_field (proj := proj) f w) as [E1 E2].
  by apply wf_same.
Qed.
#[export] Hint Extern 1 (Frames _ (modify (λ w, upd ?proj ?f w))) =>
  exact (other_frame proj f) : typeclass_instances.

#[export] Instance frames_tick {R : world → world → Prop} `{!WorldFrame R} : Frames R tick.
Proof. intros w a w' [= <- <-]. by apply wf_same. Qed.

#[export] Instance frames_fresh_ptr {R : world → world → Prop} `{!WorldFrame R} : Frames R fresh_ptr.
Proof. intros w a w' [= <- <-]. by apply wf_same. Qed.

#[export] Instance frames_ask {R : world → world → Prop} `{!WorldFrame R} {A} (f : nat → A) : Frames R (ask f).
Proof. unfold ask. frames_tac. Qed.

#[export] Instance frames_emit {R : world → world → Prop} `{!WorldFrame R} a : Frames R (emit a).
Proof. unfold emit. apply _. Qed.

#[export] Instance frames_load {R : world → world → Prop} `{!WorldFrame R} {V} (proj : world → gmap ptr V) p :
  Frames R (load proj p).
Proof.
  unfold load. intros w a w' (v & w1 & [= <- <-] & H)%bind_Some.
  eapply frames_of_option; [apply _ | exact H].
Qed.

Lemma frames_store_other {R : world → world → Prop} `{!WorldFrame R} {V} (proj : world → gmap ptr V) `{!Upd proj}
  `{!OtherField proj} p v : Frames R (store proj p v).
Proof. unfold store. apply other_frame, _. Qed.
#[export] Hint Extern 1 (Frames _ (store _ _ _)) =>
  apply frames_store_other : typeclass_instances.

Lemma frames_free_other {R : world → world → Prop} `{!WorldFrame R} {V} (proj : world → gmap ptr V) `{!Upd proj}
  `{!OtherField proj} p : Frames R (free proj p).
Proof. unfold free. apply other_frame, _. Qed.
#[export] Hint Extern 1 (Frames _ (free _ _)) =>
  apply frames_free_other : typeclass_instances.

Lemma frames_update_other {R : world → world → Prop} `{!WorldFrame R} {V} (proj : world → gmap ptr V) `{!Upd proj}
  `{!OtherField proj} p f : Frames R (update proj p f).
Proof. unfold update. apply _. Qed.
#[export] Hint Extern 1 (Frames _ (update _ _ _)) =>
  apply frames_update_other : typeclass_instances.

Lemma frames_kref_get_other {R : world → world → Prop} `{!WorldFrame R} {V} (proj : world → gmap ptr V) `{!Upd proj}
  `{!OtherField proj} (cnt : V → Z) `{!Upd cnt} p :
  Frames R (kref_get proj cnt p).
Proof. unfold kref_get. apply _. Qed.
#[export] Hint Extern 1 (Frames _ (kref_get _ _ _)) =>
  apply frames_kref_get_other : typeclass_instances.

Lemma frames_kref_unless_other {R : world → world → Prop} `{!WorldFrame R} {V} (proj : world → gmap ptr V) `{!Upd proj}
  `{!OtherField proj} (cnt : V → Z) `{!Upd cnt} p :
  Frames R (kref_get_unless_zero proj cnt p).
Proof. unfold kref_get_unless_zero. apply _. Qed.
#[export] Hint Extern 1 (Frames _ (kref_get_unless_zero _ _ _)) =>
  apply frames_kref_unless_other : typeclass_instances.

Lemma frames_kref_put_other {R : world → world → Prop} `{!WorldFrame R} {V} (proj : world → gmap ptr V) `{!Upd proj}
  `{!OtherField proj} (cnt : V → Z) `{!Upd cnt} p (r : M world unit) :
  Frames R r → Frames R (kref_put proj cnt p r).
Proof. unfold kref_put. apply _. Qed.
#[export] Hint Extern 1 (Frames _ (kref_put _ _ _ _)) =>
  apply frames_kref_put_other : typeclass_instances.

(** ** The contexts *)

Lemma frames_load_store_context {R : world → world → Prop} `{!WorldFrame R} {A} p (m : hgsl_context → M world A) :
  (∀ w c a w', w_contexts w !! p = Some c → m c w = Some (a, w') → R w w') →
  Frames R (c ← load w_contexts p; m c).
Proof.
  intros Hm w a w' (c & w1 & Hl & Hk)%bind_Some.
  unfold load in Hl. apply bind_Some in Hl as (? & ? & [= <- <-] & Hl).
  destruct (w_contexts w !! p) as [d|] eqn:E; [|discriminate].
  injection Hl as <- <-. eauto.
Qed.

Lemma frames_update_contexts {R : world → world → Prop} `{!WorldFrame R} p f :
  (∀ c, ring_of (f c) = ring_of c ∧ c_shadow_ts (f c) = c_shadow_ts c) → Frames R (update w_contexts p f).
Proof.
  intros Hf. apply frames_load_store_context. intros w c a w' Hp [= <- <-].
  destruct (Hf c). by apply wf_context with c.
Qed.
#[export] Hint Extern 2 (Frames _ (update w_contexts _ _)) =>
  apply frames_update_contexts; split; reflexivity : typeclass_instances.

#[export] Instance frames_kref_get_context {R : world → world → Prop} `{!WorldFrame R} p :
  Frames R (kref_get w_contexts c_kref p).
Proof.
  apply frames_load_store_context. intros w c a w' Hp H.
  destruct (c_kref c =? 0); [discriminate|]. injection H as <- <-.
  by apply wf_context with c.
Qed.

#[export] Instance frames_kref_unless_context {R : world → world → Prop} `{!WorldFrame R} p :
  Frames R (kref_get_unless_zero w_contexts c_kref p).
Proof.
  apply frames_load_store_context. intros w c a w' Hp H.
  destruct (c_kref c =? 0); inv_run; [done|].
  injection H as <- <-. by apply wf_context with c.
Qed.

#[export] Instance frames_kref_put_context {R : world → world → Prop} `{!WorldFrame R} p r :
  Frames R r → Frames R (kref_put w_contexts c_kref p r).
Proof.
  intros Hr. apply frames_load_store_context. intros w c a w' Hp H.
  destruct (c_kref c =? 0); [discriminate|].
  apply bind_Some in H as (? & w1 & [= <- <-] & H).
  transitivity (w <| w_contexts ::= <[p := c <| c_kref := c_kref c - 1 |>]> |>).
  - by apply wf_context with c.
  - revert H. by apply frames_when; [apply _|].
Qed.

(** ** The draw objects *)

Lemma frames_load_store_drawobj {R : world → world → Prop} `{!WorldFrame R} {A} p (m : hgsl_drawobj → M world A) :
  (∀ w o a w', w_drawobjs w !! p = Some o → m o w = Some (a, w') → R w w') →
  Frames R (o ← load w_drawobjs p; m o).
Proof.
  intros Hm w a w' (o & w1 & Hl & Hk)%bind_Some.
  unfold load in Hl. apply bind_Some in Hl as (? & ? & [= <- <-] & Hl).
  destruct (w_drawobjs w !! p) as [d|] eqn:E; [|discriminate].
  injection Hl as <- <-. eauto.
Qed.

Lemma frames_update_drawobjs {R : world → world → Prop} `{!WorldFrame R} p `{!FramesObj R p} f :
  (∀ o, o_type (f o) = o_type o) → Frames R (update w_drawobjs p f).
Proof.
  intros Hf. apply frames_load_store_drawobj. intros w o a w' Hp [= <- <-].
  by apply fo_store with o.
Qed.
#[export] Hint Extern 2 (Frames _ (update w_drawobjs _ _)) =>
  apply frames_update_drawobjs; [apply _ | reflexivity] : typeclass_instances.

#[export] Instance frames_free_drawobj {R : world → world → Prop} `{!WorldFrame R} p `{!FramesObj R p} : Frames R (free w_drawobjs p).
Proof.
  apply frames_modify. apply fo_free.
Qed.

#[export] Instance frames_kref_get_drawobj {R : world → world → Prop} `{!WorldFrame R} p `{!FramesObj R p} :
  Frames R (kref_get w_drawobjs o_refcount p).
Proof.
  apply frames_load_store_drawobj. intros w o a w' Hp H.
  destruct (o_refcount o =? 0); [discriminate|]. injection H as <- <-.
  by apply fo_store with o.
Qed.

#[export] Instance frames_kref_put_drawobj {R : world → world → Prop} `{!WorldFrame R} p `{!FramesObj R p} r :
  Frames R r → Frames R (kref_put w_drawobjs o_refcount p r).
Proof.
  intros Hr. apply frames_load_store_drawobj. intros w o a w' Hp H.
  destruct (o_refcount o =? 0); [discriminate|].
  apply bind_Some in H as (? & w1 & [= <- <-] & H).
  transitivity (w <| w_drawobjs ::= <[p := o <| o_refcount := o_refcount o - 1 |>]> |>).
  - by apply fo_store with o.
  - revert H. by apply frames_when; [apply _|].
Qed.

(** ** The components *)

Tactic Notation "framed" reference(f) := unfold f; frames_tac; try done.

Section components.
Context `{K : Kernel} {R : world → world → Prop} `{!WorldFrame R}.

#[export] Instance frames_gpu_step : Frames disp_frame gpu_step.
Proof.
  unfold gpu_step. apply frames_bind; [apply _..|]. intros n. apply frames_modify.
  intros w. split; [|eauto]. intros p c Hc. cbn.
  rewrite map_lookup_imap, Hc. eexists; split; [done|]. done.
Qed.

#[export] Instance frames_wait condition :
  Frames disp_frame condition →
  (∀ n w, disp_frame w (k_interfere n w)) →
  Frames disp_frame (wait_event_interruptible_timeout condition).
Proof.
  intros Hc Hi. unfold wait_event_interruptible_timeout.
  apply frames_bind; [apply _..|]. intros n.
  apply frames_bind; [apply _|by apply frames_modify|]. apply _.
Qed.

(** Hsync *)
#[export] Instance frames_hsync_timeline_destroy t :
  Frames R (hgsl_hsync_timeline_destroy t).
Proof. framed hgsl_hsync_timeline_destroy. Qed.

#[export] Instance frames_hsync_timeline_put t :
  Frames R (hgsl_hsync_timeline_put t).
Proof. framed hgsl_hsync_timeline_put. Qed.

#[export] Instance frames_hsync_has_signaled f :
  Frames R (hgsl_hsync_has_signaled f).
Proof. framed hgsl_hsync_has_signaled. Qed.

#[export] Instance frames_hsync_fence_is_signaled f :
  Frames R (hsync_fence_is_signaled_locked f).
Proof. framed hsync_fence_is_signaled_locked. Qed.

#[export] Instance frames_hsync_fence_release f :
  Frames R (hgsl_hsync_fence_release f).
Proof. framed hgsl_hsync_fence_release. Qed.

#[export] Instance frames_hsync_fence_put f : Frames R (hsync_fence_put f).
Proof. framed hsync_fence_put. Qed.

#[export] Instance frames_hsync_split l : Frames R (hsync_split_signaled l).
Proof. induction l; cbn; frames_tac. Qed.

#[export] Instance frames_hsync_timeline_signal t ts :
  Frames R (hgsl_hsync_timeline_signal t ts).
Proof. framed hgsl_hsync_timeline_signal. Qed.

#[export] Instance frames_hsync_fini_sleep t : Frames R (hsync_fini_sleep t).
Proof. framed hsync_fini_sleep. Qed.

#[export] Instance frames_hsync_fini_wait n t : Frames R (hsync_fini_wait n t).
Proof. induction n; cbn; frames_tac. Qed.

#[export] Instance frames_hsync_max_ts m l : Frames R (hsync_max_ts m l).
Proof. revert m. induction l; cbn; frames_tac. Qed.

#[export] Instance frames_hsync_timeline_fini c :
  Frames R (hgsl_hsync_timeline_fini c).
Proof. framed hgsl_hsync_timeline_fini. Qed.

(** Context *)
#[export] Instance frames_context_get c : Frames R (hgsl_context_get c).
Proof. framed hgsl_context_get. Qed.

#[export] Instance frames_destroy_context c : Frames R (_destroy_context c).
Proof. framed _destroy_context. Qed.

#[export] Instance frames_put_context c : Frames R (hgsl_put_context c).
Proof. framed hgsl_put_context. Qed.

#[export] Instance frames_get_context d i : Frames R (hgsl_get_context d i).
Proof. framed hgsl_get_context. Qed.

#[export] Instance frames_get_shadow c t : Frames R (get_context_shadow_ts c t).
Proof. framed get_context_shadow_ts. Qed.

#[export] Instance frames_set_shadow c t ts :
  Frames disp_frame (set_context_shadow_ts c t ts).
Proof.
  unfold set_context_shadow_ts. apply frames_load_store_context.
  intros w x a w' Hp H. destruct (c_shadow_ts x); [|by inv_run].
  repeat case_match; [injection H as <- <-..|by inv_run];
    by apply frames_store_context with x.
Qed.

(** Which shadow timestamps it writes. *)
#[export] Instance drop_set_shadow x c t ts :
  Frames (drop_frame x (Some c)) (set_context_shadow_ts c t ts).
Proof.
  intros w [] w' H. unfold set_context_shadow_ts in H.
  apply bind_Some in H as (d & w1 & [Hd ->]%load_Some & H).
  assert (∀ d', drop_frame x (Some c) w (w <| w_contexts ::= <[c := d']> |>)) as Hs.
  { intros d'. split; [done|]. intros p e Hp He. cbn. rewrite lookup_insert_ne by congruence. eauto. }
  destruct (c_shadow_ts d); [|by inv_run].
  repeat case_match; [injection H as <-..|by inv_run]; apply Hs.
Qed.

#[export] Instance frames_check_shadow c t ts :
  Frames R (hgsl_check_shadow_timestamp c t ts).
Proof. framed hgsl_check_shadow_timestamp. Qed.

#[export] Instance frames_read_timestamp c t o :
  Frames R (hgsl_read_timestamp c t o).
Proof. framed hgsl_read_timestamp. Qed.

#[export] Instance frames_check_timestamp c ts :
  Frames R (hgsl_check_timestamp c ts).
Proof. framed hgsl_check_timestamp. Qed.

(** Events *)
#[export] Instance frames_signal_event e r : Frames R (signal_event e r).
Proof. framed signal_event. Qed.

#[export] Instance frames_process_events r f l : Frames R (process_events r f l).
Proof. induction l; cbn; frames_tac. Qed.

#[export] Instance frames_set_events c l : Frames R (set_events c l).
Proof. framed set_events. Qed.

#[export] Instance frames_process_event_group c f :
  Frames R (_process_event_group c f).
Proof. framed _process_event_group. Qed.

#[export] Instance frames_cancel_events_ts ts l :
  Frames R (cancel_events_timestamp ts l).
Proof. induction l; cbn; frames_tac. Qed.

#[export] Instance frames_hgsl_cancel_events_ts c ts :
  Frames R (hgsl_cancel_events_timestamp c ts).
Proof. framed hgsl_cancel_events_timestamp. Qed.

#[export] Instance frames_cancel_event ts f l : Frames R (cancel_event ts f l).
Proof. induction l; cbn; frames_tac. Qed.

#[export] Instance frames_hgsl_cancel_event c ts f :
  Frames R (hgsl_cancel_event c ts f).
Proof. framed hgsl_cancel_event. Qed.

#[export] Instance frames_hgsl_process_event_group c :
  Frames R (hgsl_process_event_group c).
Proof. framed hgsl_process_event_group. Qed.

#[export] Instance frames_signal_contexts d : Frames R (_signal_contexts d).
Proof.
  unfold _signal_contexts. generalize (seqZ 0 HGSL_CONTEXT_NUM). intros l. frames_tac.
Qed.

(** Isync *)
#[export] Instance frames_isync_timeline_release t :
  Frames R (hgsl_isync_timeline_release t).
Proof. framed hgsl_isync_timeline_release. Qed.

#[export] Instance frames_isync_timeline_get p i c :
  Frames R (hgsl_isync_timeline_get p i c).
Proof. framed hgsl_isync_timeline_get. Qed.

#[export] Instance frames_isync_timeline_put t :
  Frames R (hgsl_isync_timeline_put t).
Proof. framed hgsl_isync_timeline_put. Qed.

#[export] Instance frames_isync_fence_signal f : Frames R (isync_fence_signal f).
Proof. framed isync_fence_signal. Qed.

#[export] Instance frames_isync_unlink t f : Frames R (isync_unlink t f).
Proof. framed isync_unlink. Qed.

#[export] Instance frames_isync_fence_release f :
  Frames R (hgsl_isync_fence_release f).
Proof. framed hgsl_isync_fence_release. Qed.

#[export] Instance frames_isync_fence_put f : Frames R (isync_fence_put f).
Proof. framed isync_fence_put. Qed.

#[export] Instance frames_dma_fence_put f : Frames R (dma_fence_put f).
Proof. framed dma_fence_put. Qed.

#[export] Instance frames_isync_collect t pr d l fl :
  Frames R (isync_collect t pr d l fl).
Proof. revert fl. induction l; cbn; frames_tac. Qed.

#[export] Instance frames_isync_signal_all l : Frames R (isync_signal_all l).
Proof. framed isync_signal_all. Qed.

#[export] Instance frames_isync_forward p i ts c :
  Frames R (hgsl_isync_forward p i ts c).
Proof. framed hgsl_isync_forward. Qed.

#[export] Instance frames_async_cancel f :
  Frames R (hgsl_sync_fence_async_cancel f).
Proof. framed hgsl_sync_fence_async_cancel. Qed.

(** Drawobj *)
#[export] Instance frames_SYNCOBJ o : Frames R (SYNCOBJ o).
Proof. framed SYNCOBJ. Qed.

#[export] Instance frames_CMDOBJ o : Frames R (CMDOBJ o).
Proof. framed CMDOBJ. Qed.

#[export] Instance frames_TIMELINEOBJ o : Frames R (TIMELINEOBJ o).
Proof. framed TIMELINEOBJ. Qed.

#[export] Instance frames_set_body o b `{!FramesObj R o} : Frames R (set_body o b).
Proof. framed set_body. Qed.

#[export] Instance frames_update_sync o f `{!FramesObj R o} : Frames R (update_sync o f).
Proof. framed update_sync. Qed.

#[export] Instance frames_update_cmd o f `{!FramesObj R o} : Frames R (update_cmd o f).
Proof. framed update_cmd. Qed.

#[export] Instance frames_update_timeline o f `{!FramesObj R o} : Frames R (update_timeline o f).
Proof. framed update_timeline. Qed.

#[export] Instance frames_sync_event o i : Frames R (sync_event o i).
Proof. framed sync_event. Qed.

#[export] Instance frames_test_and_clear o i `{!FramesObj R o} :
  Frames R (test_and_clear_pending o i).
Proof. framed test_and_clear_pending. Qed.

(** The dispatcher's own fields of a context. *)
Lemma frames_load_dispatch {A} p
    (f : hgsl_context → hgsl_dispatch_context → hgsl_context) (r : A) :
  (∀ c d, ring_of (f c d) = ring_of c ∧ c_shadow_ts (f c d) = c_shadow_ts c) →
  Frames R
    (c ← load w_contexts p; d ← of_option (c_dispatch c);
     store w_contexts p (f c d) ;; mret r).
Proof.
  intros Hf. apply frames_load_store_context. intros w c a w' Hp H.
  destruct (c_dispatch c) as [d|]; [|discriminate]. injection H as <- <-.
  destruct (Hf c d). by apply wf_context with c.
Qed.

Lemma frames_load_dispatch' p
    (f : hgsl_context → hgsl_dispatch_context → hgsl_context) :
  (∀ c d, ring_of (f c d) = ring_of c ∧ c_shadow_ts (f c d) = c_shadow_ts c) →
  Frames R
    (c ← load w_contexts p; d ← of_option (c_dispatch c); store w_contexts p (f c d)).
Proof.
  intros Hf w [] w' H. apply (frames_load_dispatch p f tt Hf w tt w').
  revert H. unfold mbind, M_bind. destruct (load _ _ _) as [[c w1]|]; [|done].
  destruct (of_option _ _) as [[d w2]|]; [|done]. by intros ->.
Qed.

#[export] Instance frames_ctxt_schedule p :
  Frames R (hgsl_dispatch_ctxt_schedule p).
Proof. by apply frames_load_dispatch'. Qed.

#[export] Instance frames_count_inc p : Frames R (dispatch_count_inc p).
Proof. by apply frames_load_dispatch'. Qed.

#[export] Instance frames_queue_context p :
  Frames R (hgsl_dispatch_queue_context p).
Proof. framed hgsl_dispatch_queue_context. Qed.

#[export] Instance frames_syncobj_destroy_object p `{!FramesObj R p} :
  Frames R (syncobj_destroy_object p).
Proof. framed syncobj_destroy_object. Qed.

#[export] Instance frames_drawobj_destroy_object p `{!FramesObj R p} :
  Frames R (hgsl_drawobj_destroy_object p).
Proof. framed hgsl_drawobj_destroy_object. Qed.

#[export] Instance frames_drawobj_put p `{!FramesObj R p} : Frames R (hgsl_drawobj_put p).
Proof. framed hgsl_drawobj_put. Qed.

#[export] Instance frames_syncobj_cancel_event p i `{!FramesObj R p} :
  Frames R (syncobj_cancel_event p i).
Proof. framed syncobj_cancel_event. Qed.

#[export] Instance frames_syncobj_destroy p `{!FramesObj R p} : Frames R (syncobj_destroy p).
Proof. framed syncobj_destroy. Qed.

#[export] Instance frames_timelineobj_retire p `{!FramesObj R p} :
  Frames R (_drawobj_timelineobj_retire p).
Proof. framed _drawobj_timelineobj_retire. Qed.

#[export] Instance frames_timelineobj_signal p `{!FramesObj R p} :
  Frames R (hgsl_timelineobj_signal p).
Proof. framed hgsl_timelineobj_signal. Qed.

#[export] Instance frames_drawobj_destroy p `{!FramesObj R p} :
  Frames R (hgsl_drawobj_destroy (Some p)).
Proof. framed hgsl_drawobj_destroy. Qed.

End components.

#[export] Instance frames_drawobj_destroy_opt `{K : Kernel} o :
  Frames disp_frame (hgsl_drawobj_destroy o).
Proof. destruct o; [apply _|]. by intros w [] w' [= <-]. Qed.
