(* ===== verification/Ring.v ===== *)
(** The rings of dwords through which messages reach the GMU (hgsl.c): free space,
    the write of a message that may wrap around, and the layout of the message that
    issues commands.  The ring refines a queue of dwords: [ring_contents] is the
    part between the read and the write index. *)

From S2P Require Import Prelude.
From S2P Require Import Bytes.

(** * Definitions *)

(** ** Free space *)

(** The free dwords of a ring of [queue_size], all arithmetic on uint32_t; the C
    code divides by [queue_size]. *)
Definition ring_freedwords (queue_size wptr rptr : Z) : Z :=
  let queue_used := u32 (wptr + queue_size - rptr) mod queue_size in
  u32 (queue_size - queue_used - 1).

(** ** Writing a message into a ring *)

(** The two memcpys of db_send_msg and dbcq_send_msg: the ring is the [size]
    dwords of [mem] from [base], [wptr] its write index; an index outside the ring
    makes the lengths wrap around, which is a fault. *)
Definition ring_write (mem : list Z) (base size wptr : nat) (msg : list Z) :
  option (list Z) :=
  if (size <? wptr)%nat then None
  else if (size <=? length msg + wptr)%nat
  then
    let move := (size - wptr)%nat in
    mem ← memcpy mem base (drop move msg);
    memcpy mem (base + wptr) (take move msg)
  else memcpy mem (base + wptr) msg.

(** ** The message *)

Definition HTOF_MSG_ISSUE_CMD : Z := 130.
Definition HFI_MSG_TYPE_CMD : Z := 0.
Definition MSG_TYPE_MASK : Z := 0x000F0000.
Definition MSG_TYPE_SHIFT : Z := 16.
Definition MSG_SZ_MASK : Z := 0x0000FF00.
Definition MSG_SZ_SHIFT : Z := 8.
Definition MSG_SEQ_NO_MASK : Z := 0xFFF00000.
Definition MSG_SEQ_NO_SHIFT : Z := 20.
Definition MSG_ID_MASK : Z := 0x000000FF.

Definition MAKE_HFI_MSG_HEADER (msgID msgType msgSize msgSeqnum : Z) : Z :=
  u32 (Z.lor (Z.lor (Z.lor msgID (Z.shiftl msgSize MSG_SZ_SHIFT))
                    (Z.shiftl msgType MSG_TYPE_SHIFT))
             (u32 (Z.shiftl msgSeqnum MSG_SEQ_NO_SHIFT))).

Definition HFI_ISSUE_IB_HEADER (sz msgSeqnum : Z) : Z :=
  MAKE_HFI_MSG_HEADER HTOF_MSG_ISSUE_CMD HFI_MSG_TYPE_CMD sz msgSeqnum.

Definition MSG_ID_GET (x : Z) : Z := Z.land x MSG_ID_MASK.
Definition MSG_SZ_GET (x : Z) : Z := Z.shiftr (Z.land x MSG_SZ_MASK) MSG_SZ_SHIFT.
Definition MSG_TYPE_GET (x : Z) : Z := Z.shiftr (Z.land x MSG_TYPE_MASK) MSG_TYPE_SHIFT.
Definition MSG_SEQ_NO_GET (x : Z) : Z := Z.shiftr (Z.land x MSG_SEQ_NO_MASK) MSG_SEQ_NO_SHIFT.

(** struct hgsl_fw_ib_desc *)
Record hgsl_fw_ib_desc := mk_ib_desc { ib_addr : Z; ib_sz : Z }.

(** struct hgsl_db_cmds: 8 dwords and then 3 for each descriptor. *)
Definition MSG_ISSUE_INF_SZ : Z := 8.
Definition MSG_ISSUE_IBS_SZ (numIB : Z) : Z := numIB * 3.

Record hgsl_db_cmds := mk_db_cmds {
  dc_header : Z;
  dc_ctx_id : Z;
  dc_cmd_flags : Z;
  dc_timestamp : Z;
  dc_user_profile_gpuaddr : Z;
  dc_num_ibs : Z;
  dc_ib_desc_gmuaddr : Z;
  dc_ib_descs : list hgsl_fw_ib_desc }.

(** A little-endian uint64_t as two dwords. *)
Definition dwords64 (x : Z) : list Z := [x mod 4294967296; x / 4294967296 mod 4294967296].

Definition ib_desc_dwords (d : hgsl_fw_ib_desc) : list Z := dwords64 (ib_addr d) ++ [ib_sz d].

Definition db_cmds_dwords (c : hgsl_db_cmds) : list Z :=
  [dc_header c; dc_ctx_id c; dc_cmd_flags c; dc_timestamp c] ++
  dwords64 (dc_user_profile_gpuaddr c) ++
  [dc_num_ibs c; dc_ib_desc_gmuaddr c] ++
  (dc_ib_descs c ≫= ib_desc_dwords).


(** ** What a ring holds *)

(** The place of the [i]-th dword of a ring of [size] that starts at [base]. *)
Definition ring_slot (base size i : nat) : nat := (base + i mod size)%nat.

(** The [n] dwords from index [r] on. *)
Definition ring_read (mem : list Z) (base size r n : nat) : list Z :=
  map (λ i, default 0 (mem !! ring_slot base size (r + i))) (seq 0 n).

Definition ring_used (size wptr rptr : nat) : nat := ((wptr + size - rptr) mod size)%nat.

Definition ring_contents (mem : list Z) (base size rptr wptr : nat) : list Z :=
  ring_read mem base size rptr (ring_used size wptr rptr).

(** The dwords a message is padded with when its size is aligned. *)
Definition ring_appended (mem mem' : list Z) (base size rptr wptr n : nat) (msg : list Z) : Prop :=
  ∃ pad, length pad = (n - length msg)%nat ∧
    ring_contents mem' base size rptr ((wptr + n) mod size) =
      ring_contents mem base size rptr wptr ++ msg ++ pad.

(** * Lemmas *)

(** ** Indices that wrap around *)

Lemma mod_wrap size a :
  (a < 2 * size)%nat → (a mod size = if a <? size then a else a - size)%nat.
Proof.
  intros Ha. destruct (Nat.ltb_spec a size) as [Hl|Hl].
  - by apply Nat.mod_small.
  - replace a with ((a - size) + 1 * size)%nat at 1 by lia.
    rewrite Nat.Div0.mod_add. apply Nat.mod_small. lia.
Qed.

(** Case analysis on the wrap-arounds of a goal. *)
Ltac wrap :=
  unfold ring_slot, ring_used in *;
  repeat match goal with
  | |- context [(?a mod ?s)%nat] => rewrite (mod_wrap s a) by lia
  | H : context [(?a mod ?s)%nat] |- _ => rewrite (mod_wrap s a) in H by lia
  end;
  repeat match goal with
  | |- context [(?a <? ?b)%nat] => destruct (Nat.ltb_spec a b)
  | H : context [(?a <? ?b)%nat] |- _ => destruct (Nat.ltb_spec a b)
  end.

Lemma ring_used_lt size wptr rptr :
  (wptr < size)%nat → (rptr < size)%nat → (ring_used size wptr rptr < size)%nat.
Proof. intros. wrap; lia. Qed.

Lemma ring_used_add size wptr rptr n :
  (wptr < size)%nat → (rptr < size)%nat → (ring_used size wptr rptr + n < size)%nat →
  ring_used size ((wptr + n) mod size) rptr = (ring_used size wptr rptr + n)%nat.
Proof. intros. wrap; lia. Qed.

Lemma ring_freedwords_used size wptr rptr :
  (wptr < size)%nat → (rptr < size)%nat → Z.of_nat size < 2147483648 →
  ring_freedwords (Z.of_nat size) (Z.of_nat wptr) (Z.of_nat rptr) =
    Z.of_nat size - 1 - Z.of_nat (ring_used size wptr rptr).
Proof.
  intros Hw Hr Hs. unfold ring_freedwords.
  rewrite (u32_small (Z.of_nat wptr + _ - _)) by (unfold is_u32; lia).
  pose proof (ring_used_lt size wptr rptr Hw Hr) as Hu.
  replace (Z.of_nat wptr + Z.of_nat size - Z.of_nat rptr)
    with (Z.of_nat (wptr + size - rptr)) by lia.
  rewrite <- Nat2Z.inj_mod. fold (ring_used size wptr rptr).
  rewrite u32_small by (unfold is_u32; lia). lia.
Qed.

(** ** memcpy *)

Lemma memcpy_run mem i src :
  (i + length src ≤ length mem)%nat →
  ∃ mem', memcpy mem i src = Some mem' ∧ length mem' = length mem ∧
    (∀ j, (j < length src)%nat → mem' !! (i + j)%nat = src !! j) ∧
    (∀ j, (j < i ∨ i + length src ≤ j)%nat → mem' !! j = mem !! j).
Proof.
  intros Hl. unfold memcpy. destruct (Nat.leb_spec (i + length src) (length mem)); [|lia].
  eexists. split; [done|].
  assert (Ht : length (take i mem) = i) by (rewrite length_take; lia).
  split; [|split].
  - rewrite !length_app, Ht, length_drop. lia.
  - intros j Hj. rewrite lookup_app_r, Ht by lia.
    rewrite lookup_app_l by lia. f_equal. lia.
  - intros j [Hj|Hj].
    + rewrite lookup_app_l by lia. by rewrite lookup_take_lt.
    + rewrite lookup_app_r, Ht by lia. rewrite lookup_app_r by lia.
      rewrite lookup_drop. f_equal. lia.
Qed.

(** Both copies together: the message goes to the slots from [wptr] on. *)
Lemma ring_write_run mem base size wptr msg :
  (base + size ≤ length mem)%nat → (wptr < size)%nat → (length msg < size)%nat →
  ∃ mem', ring_write mem base size wptr msg = Some mem' ∧ length mem' = length mem ∧
    (∀ j, (j < length msg)%nat → mem' !! ring_slot base size (wptr + j) = msg !! j) ∧
    (∀ i, (i < size)%nat → (length msg ≤ ring_used size i wptr)%nat →
          mem' !! (base + i)%nat = mem !! (base + i)%nat) ∧
    (∀ j, (j < base ∨ base + size ≤ j)%nat → mem' !! j = mem !! j).
Proof.
  intros Hm Hw Hl. unfold ring_write.
  destruct (Nat.ltb_spec size wptr); [lia|].
  destruct (Nat.leb_spec size (length msg + wptr)) as [Hs|Hs].
  - destruct (memcpy_run mem base (drop (size - wptr) msg)) as (m1 & E1 & L1 & I1 & O1).
    { rewrite length_drop. lia. }
    rewrite E1; cbn. rewrite length_drop in I1, O1.
    destruct (memcpy_run m1 (base + wptr) (take (size - wptr) msg)) as (m2 & E2 & L2 & I2 & O2).
    { rewrite length_take. lia. }
    rewrite length_take in I2, O2.
    exists m2. split; [done|]. split; [lia|]. split; [|split].
    + intros j Hj. destruct (decide (wptr + j < size)%nat).
      * replace (ring_slot base size (wptr + j)) with (base + wptr + j)%nat by (wrap; lia).
        rewrite I2 by lia. by rewrite lookup_take_lt by lia.
      * replace (ring_slot base size (wptr + j)) with (base + (j - (size - wptr)))%nat
          by (wrap; lia).
        rewrite O2, I1 by lia. rewrite lookup_drop. f_equal. lia.
    + intros i Hi Hu. rewrite O2, O1 by (wrap; lia). done.
    + intros j Hj. rewrite O2, O1 by lia. done.
  - destruct (memcpy_run mem (base + wptr) msg) as (m1 & E1 & L1 & I1 & O1); [lia|].
    exists m1. split; [done|]. split; [lia|]. split; [|split].
    + intros j Hj. replace (ring_slot base size (wptr + j)) with (base + wptr + j)%nat
        by (wrap; lia). by apply I1.
    + intros i Hi Hu. apply O1. wrap; lia.
    + intros j Hj. apply O1. lia.
Qed.

(** ** Reading *)

Lemma ring_read_lookup mem base size r n i :
  ring_read mem base size r n !! i =
    if (i <? n)%nat then Some (default 0 (mem !! ring_slot base size (r + i))) else None.
Proof.
  unfold ring_read. rewrite list_lookup_fmap.
  destruct (Nat.ltb_spec i n).
  - by rewrite lookup_seq_lt.
  - by rewrite lookup_seq_ge.
Qed.

Lemma ring_read_length mem base size r n : length (ring_read mem base size r n) = n.
Proof. unfold ring_read. by rewrite length_map, length_seq. Qed.

Lemma ring_read_app mem base size r n m :
  ring_read mem base size r (n + m) =
  ring_read mem base size r n ++ ring_read mem base size (r + n) m.
Proof.
  apply list_eq. intros i. rewrite ring_read_lookup.
  destruct (Nat.ltb_spec i (n + m)); destruct (decide (i < n)%nat).
  - rewrite lookup_app_l by by rewrite ring_read_length. rewrite ring_read_lookup.
    by destruct (Nat.ltb_spec i n); [|lia].
  - rewrite lookup_app_r, ring_read_length by (rewrite ring_read_length; lia).
    rewrite ring_read_lookup. destruct (Nat.ltb_spec (i - n) m); [|lia].
    do 4 f_equal. lia.
  - lia.
  - rewrite lookup_app_r, ring_read_length by (rewrite ring_read_length; lia).
    rewrite ring_read_lookup. by destruct (Nat.ltb_spec (i - n) m); [lia|].
Qed.

Lemma ring_read_ext mem mem' base size r r' n :
  (∀ i, (i < n)%nat → mem' !! ring_slot base size (r' + i) = mem !! ring_slot base size (r + i)) →
  ring_read mem' base size r' n = ring_read mem base size r n.
Proof.
  intros E. apply list_eq. intros i. rewrite !ring_read_lookup.
  destruct (Nat.ltb_spec i n); [|done]. by rewrite E.
Qed.

(** Only the ring's own dwords matter. *)
Lemma ring_contents_frame mem mem' base size r w :
  (0 < size)%nat → (∀ i, (i < size)%nat → mem' !! (base + i)%nat = mem !! (base + i)%nat) →
  ring_contents mem' base size r w = ring_contents mem base size r w.
Proof.
  intros Hs E. unfold ring_contents. apply ring_read_ext. intros i _. apply E.
  apply Nat.mod_upper_bound. lia.
Qed.

(** ** Bit fields *)

Lemma lor_shiftl_add a b n : 0 ≤ n → 0 ≤ a < 2 ^ n → Z.lor a (Z.shiftl b n) = a + b * 2 ^ n.
Proof.
  intros Hn Ha. rewrite <- (Z.shiftl_mul_pow2 b n) by done.
  symmetry. rewrite Z.add_nocarry_lxor; [rewrite Z.lxor_lor; [done|]|];
    apply Z.bits_inj'; intros m Hm; rewrite Z.land_spec, Z.shiftl_spec, Z.bits_0 by done;
    (destruct (Z.ltb_spec m n) as [Hl|Hl];
      [rewrite (Z.testbit_neg_r b) by lia; apply andb_false_r
      |rewrite Z.testbit_eqb by done; rewrite Z.div_small; [done|];
       split; [lia|]; apply Z.lt_le_trans with (2 ^ n); [lia|];
       apply Z.pow_le_mono_r; lia]).
Qed.

(** The field of [k] bits at [s], as the GET macros take it out. *)
Lemma land_mask_shiftr x k s :
  0 ≤ k → 0 ≤ s → Z.shiftr (Z.land x (Z.shiftl (Z.ones k) s)) s = x / 2 ^ s mod 2 ^ k.
Proof.
  intros Hk Hs. rewrite Z.shiftr_land, Z.shiftr_shiftl_l, Z.sub_diag, Z.shiftl_0_r by lia.
  by rewrite Z.land_ones, Z.shiftr_div_pow2.
Qed.

Lemma make_header_sum id type sz seq :
  0 ≤ id < 256 → 0 ≤ sz < 256 → 0 ≤ type < 16 →
  MAKE_HFI_MSG_HEADER id type sz seq =
    id + sz * 256 + type * 65536 + seq mod 4096 * 1048576.
Proof.
  intros Hi Hs Ht. unfold MAKE_HFI_MSG_HEADER.
  change MSG_SZ_SHIFT with 8. change MSG_TYPE_SHIFT with 16. change MSG_SEQ_NO_SHIFT with 20.
  assert (E : u32 (Z.shiftl seq 20) = Z.shiftl (seq mod 4096) 20).
  { unfold u32. rewrite !Z.shiftl_mul_pow2 by lia. change (2 ^ 20) with 1048576.
    replace 4294967296 with (4096 * 1048576) by lia. apply Z.mul_mod_distr_r; lia. }
  pose proof (Z.mod_pos_bound seq 4096 ltac:(lia)).
  rewrite E, (lor_shiftl_add id sz 8), (lor_shiftl_add _ type 16),
    (lor_shiftl_add _ (seq mod 4096) 20) by lia.
  rewrite u32_small by (unfold is_u32; lia). lia.
Qed.

(** ** The message *)

Lemma db_cmds_dwords_length c :
  length (db_cmds_dwords c) = (8 + 3 * length (dc_ib_descs c))%nat.
Proof.
  unfold db_cmds_dwords. cbn [length app dwords64]. do 8 f_equal.
  induction (dc_ib_descs c) as [|d l IH]; [done|]. cbn. rewrite IH. lia.
Qed.

(** ** Writing *)

Lemma ring_write_extends mem base size rptr wptr msg n :
  (base + size ≤ length mem)%nat → (wptr < size)%nat → (rptr < size)%nat →
  (length msg ≤ n)%nat → (ring_used size wptr rptr + n < size)%nat →
  ∃ mem', ring_write mem base size wptr msg = Some mem' ∧
    length mem' = length mem ∧
    ring_appended mem mem' base size rptr wptr n msg ∧
    (∀ j, (j < base ∨ base + size ≤ j)%nat → mem' !! j = mem !! j).
Proof.
  intros Hm Hw Hr Hn Hu.
  destruct (ring_write_run mem base size wptr msg) as (mem' & E & L & I & Kp & O); [lia..|].
  exists mem'. split; [done|]. split; [done|].
  split; [|done].
  exists (ring_read mem' base size (rptr + (ring_used size wptr rptr + length msg))
            (n - length msg)).
  split; [apply ring_read_length|]. unfold ring_contents.
  rewrite ring_used_add by done.
  replace (ring_used size wptr rptr + n)%nat
    with (ring_used size wptr rptr + (length msg + (n - length msg)))%nat by lia.
  rewrite !ring_read_app. rewrite Nat.add_assoc. f_equal; [|f_equal].
  - apply ring_read_ext. intros i Hi. apply Kp; [apply Nat.mod_upper_bound; lia|].
    clear I Kp O Hm. wrap; lia.
  - apply list_eq. intros i. rewrite ring_read_lookup.
    destruct (Nat.ltb_spec i (length msg)) as [Hi|Hi].
    + replace (ring_slot base size (rptr + ring_used size wptr rptr + i))
        with (ring_slot base size (wptr + i)) by (clear I Kp O Hm; wrap; lia).
      rewrite I by done. destruct (lookup_lt_is_Some_2 msg i Hi) as [x ->]. done.
    + by rewrite lookup_ge_None_2.
Qed.

(** * Properties *)

(** C31. The two copies append to the queue: a message of at most [n] dwords that
    fits the free space is written without a fault, what the reader finds between
    the indices afterwards is what it found before, then the message, then padding;
    the free space shrinks by exactly [n], and memory outside the ring is left
    alone. *)
Theorem ring_write_appends mem base size rptr wptr msg n :
  (base + size ≤ length mem)%nat → (wptr < size)%nat → (rptr < size)%nat →
  Z.of_nat size < 2147483648 → (length msg ≤ n)%nat →
  Z.of_nat n ≤ ring_freedwords (Z.of_nat size) (Z.of_nat wptr) (Z.of_nat rptr) →
  ∃ mem', ring_write mem base size wptr msg = Some mem' ∧
    length mem' = length mem ∧
    ring_appended mem mem' base size rptr wptr n msg ∧
    ring_freedwords (Z.of_nat size) (Z.of_nat ((wptr + n) mod size)) (Z.of_nat rptr) =
      ring_freedwords (Z.of_nat size) (Z.of_nat wptr) (Z.of_nat rptr) - Z.of_nat n ∧
    (∀ j, (j < base ∨ base + size ≤ j)%nat → mem' !! j = mem !! j).
Proof.
  intros Hm Hw Hr Hs Hn Hf. rewrite (ring_freedwords_used _ _ _ Hw Hr Hs) in *.
  assert (Hw' : ((wptr + n) mod size < size)%nat) by (apply Nat.mod_upper_bound; lia).
  rewrite (ring_freedwords_used _ _ _ Hw' Hr Hs).
  destruct (ring_write_extends mem base size rptr wptr msg n) as (mem' & ? & ? & ? & ?); [lia..|].
  exists mem'. rewrite ring_used_add by lia. split_and!; try done. lia.
Qed.

(** The header word packs and unpacks: the id, type and size come back as they
    were given, the sequence number modulo 4096, for every 32-bit sequence number;
    so a message may be at most 255 dwords, which is the limit the submission path
    tests. *)
Theorem hfi_header_roundtrip id type sz seq :
  0 ≤ id < 256 → 0 ≤ type < 16 → 0 ≤ sz ≤ Z.shiftr MSG_SZ_MASK MSG_SZ_SHIFT →
  let h := MAKE_HFI_MSG_HEADER id type sz seq in
  is_u32 h ∧ MSG_ID_GET h = id ∧ MSG_TYPE_GET h = type ∧ MSG_SZ_GET h = sz ∧
  MSG_SEQ_NO_GET h = seq mod 4096.
Proof.
  intros Hi Ht Hs. change (Z.shiftr _ _) with 255 in Hs. cbv zeta.
  rewrite make_header_sum by lia.
  pose proof (Z.mod_pos_bound seq 4096 ltac:(lia)) as Hq.
  set (q := seq mod 4096) in *. split; [unfold is_u32; lia|].
  unfold MSG_ID_GET, MSG_TYPE_GET, MSG_SZ_GET, MSG_SEQ_NO_GET.
  split; [change MSG_ID_MASK with (Z.ones 8); rewrite Z.land_ones by lia; lia|].
  change MSG_TYPE_MASK with (Z.shiftl (Z.ones 4) MSG_TYPE_SHIFT).
  change MSG_SZ_MASK with (Z.shiftl (Z.ones 8) MSG_SZ_SHIFT).
  change MSG_SEQ_NO_MASK with (Z.shiftl (Z.ones 12) MSG_SEQ_NO_SHIFT).
  change MSG_SZ_SHIFT with 8. change MSG_TYPE_SHIFT with 16. change MSG_SEQ_NO_SHIFT with 20.
  rewrite !land_mask_shiftr by lia. split; [|split]; Z.to_euclidean_division_equations; lia.
Qed.

(** * Witnesses *)

(** A ring of 8 dwords behind one other dword, three dwords waiting; a message of
    four that wraps around. *)
Lemma ring_write_appends_witness :
  let mem := [7; 0; 1; 2; 3; 0; 0; 0; 0; 9] in
  ∃ mem', ring_write mem 1 8 6 [11; 12; 13; 14] = Some mem' ∧
    length mem' = length mem ∧
    ring_appended mem mem' 1 8 3 6 4 [11; 12; 13; 14] ∧
    ring_freedwords 8 (Z.of_nat ((6 + 4) mod 8)) 3 = ring_freedwords 8 6 3 - 4 ∧
    (∀ j, (j < 1 ∨ 1 + 8 ≤ j)%nat → mem' !! j = mem !! j).
Proof.
  apply (ring_write_appends [7; 0; 1; 2; 3; 0; 0; 0; 0; 9] 1 8 3 6 [11; 12; 13; 14] 4);
    cbn; try lia; done.
Defined.

Lemma hfi_header_roundtrip_witness :
  let h := MAKE_HFI_MSG_HEADER HTOF_MSG_ISSUE_CMD HFI_MSG_TYPE_CMD 11 4097 in
  is_u32 h ∧ MSG_ID_GET h = HTOF_MSG_ISSUE_CMD ∧ MSG_TYPE_GET h = HFI_MSG_TYPE_CMD ∧
  MSG_SZ_GET h = 11 ∧ MSG_SEQ_NO_GET h = 4097 mod 4096.
Proof.
  apply (hfi_header_roundtrip HTOF_MSG_ISSUE_CMD HFI_MSG_TYPE_CMD 11 4097);
    vm_compute; done.
Defined.
