(* ===== verification/Parcel.v ===== *)
(** The parcels that carry calls to the hypervisor (hgsl_hyp_socket.c): a buffer that
    grows as arguments are appended to it, each behind a header with its type and
    size and before a checksum, and the readers of the reply's arguments. *)

From S2P Require Import Prelude.
From S2P Require Import Bytes.

(** * Definitions *)

Definition GSL_HAB_CALL_MAGIC : Z := 0xfeedca11.
Definition GSL_HAB_DATA_MAGIC : Z := 0xfeedda7a.

Definition GSL_RPC_BLOB_DATA : Z := 0.
Definition GSL_RPC_32BIT_DATA : Z := 1.
Definition GSL_RPC_64BIT_DATA : Z := 2.

(** struct gsl_rpc_header_t without its last byte, and struct gsl_rpc_footer_t. *)
Definition gsl_rpc_header_size : Z := 16.
Definition FOOTER_SIZE : Z := 4.

(** struct gsl_hab_payload, with the memory that [data] points to; send_size is not
    used by the code. *)
Record gsl_hab_payload := mk_payload {
  hp_version : Z;
  hp_data_size : Z;
  hp_data_pos : Z;
  hp_data : option (list Z) }.

#[export] Instance payload_eta : Eta gsl_hab_payload := λ p,
  mk_payload (hp_version p) (hp_data_size p) (hp_data_pos p) (hp_data p).

(** Access to the memory: NULL, or an access past its end, is a fault. *)
Definition write_at (off : Z) (bytes : list Z) : M gsl_hab_payload unit :=
  p ← get;
  mem ← of_option (hp_data p);
  mem ← of_option (memcpy mem (Z.to_nat off) bytes);
  put (p <| hp_data := Some mem |>).

Definition read_at (off n : Z) : M gsl_hab_payload (list Z) :=
  p ← get;
  mem ← of_option (hp_data p);
  of_option (peek mem (Z.to_nat off) (Z.to_nat n)).

Definition read_u32_at (off : Z) : M gsl_hab_payload Z :=
  bytes ← read_at off 4; mret (le_value bytes).

Definition gsl_rpc_parcel_get_data_offset : Z := gsl_rpc_header_size.

(** The checksum is not implemented: (uint32_t)-1. *)
Definition gsl_rpc_gen_checksum : Z := 4294967295.

(** ** Reading arguments *)

(** The return code and [*p_data], as an offset into the memory. *)
Definition gsl_rpc_get_arg_ptr (id size : Z) : M gsl_hab_payload (Z * Z) :=
  p ← get;
  let pos := hp_data_pos p in
  if hp_data_size p <? u64 (pos + size + gsl_rpc_header_size) then mret (- EINVAL, 0)
  else
    magic ← read_u32_at pos;
    hdr_id ← read_u32_at (pos + 4);
    hdr_size ← read_u32_at (pos + 12);
    if (magic =? GSL_HAB_DATA_MAGIC) && (hdr_id =? id) && (hdr_size =? size)
    then
      let footer := u64 (pos + size + gsl_rpc_header_size) in
      modify (λ p, p <| hp_data_pos := u64 (footer + FOOTER_SIZE) |>) ;;
      checksum ← read_u32_at footer;
      mret (if gsl_rpc_gen_checksum =? checksum then 0 else - EINVAL, pos + gsl_rpc_header_size)
    else mret (- EINVAL, 0).

(** GSL_RPC_READ_ARG: the value is only there on success. *)
Definition read_arg (id size : Z) : M gsl_hab_payload (Z * option (list Z)) :=
  '(ret, ptr) ← gsl_rpc_get_arg_ptr id size;
  if ret =? 0 then bytes ← read_at ptr size; mret (0, Some bytes) else mret (ret, None).

Definition gsl_rpc_read (len : Z) : M gsl_hab_payload (Z * option (list Z)) :=
  read_arg GSL_RPC_BLOB_DATA len.

Definition gsl_rpc_read_int32_l : M gsl_hab_payload (Z * option Z) :=
  '(ret, v) ← read_arg GSL_RPC_32BIT_DATA 4; mret (ret, (λ b, s32 (le_value b)) <$> v).

Definition gsl_rpc_read_uint32_l : M gsl_hab_payload (Z * option Z) :=
  '(ret, v) ← read_arg GSL_RPC_32BIT_DATA 4; mret (ret, le_value <$> v).

Definition gsl_rpc_read_int64_l : M gsl_hab_payload (Z * option Z) :=
  '(ret, v) ← read_arg GSL_RPC_64BIT_DATA 8; mret (ret, (λ b, s64 (le_value b)) <$> v).

Definition gsl_rpc_read_uint64_l : M gsl_hab_payload (Z * option Z) :=
  '(ret, v) ← read_arg GSL_RPC_64BIT_DATA 8; mret (ret, le_value <$> v).

(** ** The life of a parcel *)

(** The header that a parcel starts with. *)
Definition gsl_rpc_set_call_params (opcode version : Z) : M gsl_hab_payload Z :=
  write_at 0 (le_bytes 4 GSL_HAB_CALL_MAGIC ++ le_bytes 4 opcode ++ le_bytes 4 version) ;;
  mret 0.

(** [*opcode] and [*version], both asked for. *)
Definition gsl_rpc_get_call_params : M gsl_hab_payload (Z * (Z * Z)) :=
  opcode ← read_u32_at 4;
  version ← read_u32_at 8;
  mret (0, (opcode, version)).

(** The size of the message and of the memory; the message itself is read by the
    socket. *)
Definition gsl_rpc_get_data_params : M gsl_hab_payload (Z * (Z * Z)) :=
  p ← get; mret (0, (u32 (hp_data_pos p), u32 (hp_data_size p))).

Definition gsl_rpc_parcel_reset : M gsl_hab_payload Z :=
  p ← get;
  match hp_data p with
  | None => mret (- EINVAL)
  | Some mem =>
      put (p <| hp_data_pos := gsl_rpc_parcel_get_data_offset |>) ;;
      write_at 0 (replicate (Z.to_nat (hp_data_size p)) 0) ;;
      mret 0
  end.

Definition gsl_rpc_parcel_free : M gsl_hab_payload unit :=
  modify (λ p, p <| hp_data := None |>).

Section malloc.
(** hgsl_malloc: NULL, or memory of that size with whatever it holds. *)
Context (hgsl_malloc : Z → option (list Z)).

Definition PARCEL_SIZE : Z := 4096.

Definition gsl_rpc_parcel_init : M gsl_hab_payload Z :=
  match hgsl_malloc PARCEL_SIZE with
  | None => modify (λ p, p <| hp_data := None |>) ;; mret (- ENOMEM)
  | Some mem =>
      put (mk_payload 1 PARCEL_SIZE gsl_rpc_parcel_get_data_offset
             (Some (replicate (length mem) 0))) ;;
      mret 0
  end.

Definition grow_data (len : Z) : M gsl_hab_payload Z :=
  p ← get;
  let fresh :=
    let newSize := u64 (u64 (4096 + len) * 3) / 2 in
    put (p <| hp_data := hgsl_malloc newSize |>) ;;
    mret (if bool_decide (hgsl_malloc newSize = None) then - ENOMEM else 0) in
  match hp_data p with
  | None => fresh
  | Some mem =>
      if hp_data_size p =? 0 then fresh
      else
        let newSize := u64 (u64 (hp_data_size p + len) * 3) / 2 in
        match hgsl_malloc newSize with
        | None => mret (- ENOMEM)
        | Some newData =>
            old ← of_option (peek mem 0 (Z.to_nat (hp_data_size p)));
            newData ← of_option (memcpy newData 0 old);
            put (p <| hp_data := Some newData |> <| hp_data_size := newSize |>) ;;
            mret 0
        end
  end.

(** GSL_RPC_WRITE_DATA: [action] writes the data at the offset it is given. *)
Definition write_data (type len : Z) (action : Z → M gsl_hab_payload unit) :
  M gsl_hab_payload Z :=
  p ← get;
  status ← (if hp_data_size p <? u64 (hp_data_pos p + gsl_rpc_header_size + len + FOOTER_SIZE)
            then grow_data len else mret 0);
  if negb (status =? 0) then mret status
  else
    let pos := hp_data_pos p in
    action (pos + gsl_rpc_header_size) ;;
    write_at pos (le_bytes 4 GSL_HAB_DATA_MAGIC ++ le_bytes 4 type ++ le_bytes 4 2 ++
                  le_bytes 4 len) ;;
    write_at (pos + gsl_rpc_header_size + len) (le_bytes 4 gsl_rpc_gen_checksum) ;;
    modify (λ p, p <| hp_data_pos ::=
                   (λ pos, u64 (pos + len + gsl_rpc_header_size + FOOTER_SIZE)) |>) ;;
    mret 0.

(** [data] is NULL or the memory that the pointer names. *)
Definition gsl_rpc_write (data : option (list Z)) (len : Z) : M gsl_hab_payload Z :=
  write_data GSL_RPC_BLOB_DATA len (λ p_data,
    match data with
    | Some data =>
        if len =? 0 then mret tt
        else data ← of_option (peek data 0 (Z.to_nat len)); write_at p_data data
    | None => mret tt
    end).

Definition gsl_rpc_write_int32 (val : Z) : M gsl_hab_payload Z :=
  write_data GSL_RPC_32BIT_DATA 4 (λ p_data, write_at p_data (le_bytes 4 val)).

Definition gsl_rpc_write_uint32 (val : Z) : M gsl_hab_payload Z :=
  write_data GSL_RPC_32BIT_DATA 4 (λ p_data, write_at p_data (le_bytes 4 val)).

Definition gsl_rpc_write_int64 (val : Z) : M gsl_hab_payload Z :=
  write_data GSL_RPC_64BIT_DATA 8 (λ p_data, write_at p_data (le_bytes 8 val)).

Definition gsl_rpc_write_uint64 (val : Z) : M gsl_hab_payload Z :=
  write_data GSL_RPC_64BIT_DATA 8 (λ p_data, write_at p_data (le_bytes 8 val)).

Definition gsl_rpc_finalize : M gsl_hab_payload Z :=
  p ← get;
  ret ← (if hp_data_size p <? u64 (hp_data_pos p + FOOTER_SIZE) then grow_data FOOTER_SIZE
         else mret 0);
  if negb (ret =? 0) then mret ret
  else
    let data_size := u32 (hp_data_pos p - gsl_rpc_header_size) in
    write_at 12 (le_bytes 4 data_size) ;;
    write_at (hp_data_pos p) (le_bytes 4 gsl_rpc_gen_checksum) ;;
    modify (λ p, p <| hp_data_pos ::= (λ pos, u64 (pos + FOOTER_SIZE)) |>) ;;
    mret 0.

(** ** Sequences of arguments *)

(** The arguments of a call: what the callers write one after the other, leaving at
    the first error, and read back with the type and the size they expect. *)
Inductive arg :=
| Int32 (val : Z) | Uint32 (val : Z) | Int64 (val : Z) | Uint64 (val : Z)
| Blob (data : list Z).

Definition write_arg (a : arg) : M gsl_hab_payload Z :=
  match a with
  | Int32 val => gsl_rpc_write_int32 val
  | Uint32 val => gsl_rpc_write_uint32 val
  | Int64 val => gsl_rpc_write_int64 val
  | Uint64 val => gsl_rpc_write_uint64 val
  | Blob data => gsl_rpc_write (Some data) (Z.of_nat (length data))
  end.

Fixpoint write_args (args : list arg) : M gsl_hab_payload Z :=
  match args with
  | [] => mret 0
  | a :: args =>
      ret ← write_arg a;
      if negb (ret =? 0) then mret ret else write_args args
  end.

(** The message of a call, as gsl_rpc_transact_ext completes it. *)
Definition marshal (opcode version : Z) (args : list arg) : M gsl_hab_payload Z :=
  ret ← gsl_rpc_parcel_reset;
  if negb (ret =? 0) then mret ret
  else
    ret ← write_args args;
    if negb (ret =? 0) then mret ret
    else gsl_rpc_set_call_params opcode version ;; gsl_rpc_finalize.

End malloc.

Definition read_arg_like (a : arg) : M gsl_hab_payload (Z * option arg) :=
  match a with
  | Int32 _ => '(ret, v) ← gsl_rpc_read_int32_l; mret (ret, Int32 <$> v)
  | Uint32 _ => '(ret, v) ← gsl_rpc_read_uint32_l; mret (ret, Uint32 <$> v)
  | Int64 _ => '(ret, v) ← gsl_rpc_read_int64_l; mret (ret, Int64 <$> v)
  | Uint64 _ => '(ret, v) ← gsl_rpc_read_uint64_l; mret (ret, Uint64 <$> v)
  | Blob data => '(ret, v) ← gsl_rpc_read (Z.of_nat (length data)); mret (ret, Blob <$> v)
  end.

(** The arguments read, all of them or those before the first that is refused. *)
Fixpoint read_args_like (args : list arg) : M gsl_hab_payload (Z * list arg) :=
  match args with
  | [] => mret (0, [])
  | a :: args =>
      '(ret, v) ← read_arg_like a;
      match v with
      | Some v => '(ret, vs) ← read_args_like args; mret (ret, v :: vs)
      | None => mret (ret, [])
      end
  end.

(** * Specification *)

Definition arg_ok (a : arg) : Prop :=
  match a with
  | Int32 val => -2147483648 ≤ val < 2147483648
  | Uint32 val => is_u32 val
  | Int64 val => -9223372036854775808 ≤ val < 9223372036854775808
  | Uint64 val => is_u64 val
  | Blob data => is_u32 (Z.of_nat (length data))
  end.

Definition arg_type (a : arg) : Z :=
  match a with
  | Int32 _ | Uint32 _ => GSL_RPC_32BIT_DATA
  | Int64 _ | Uint64 _ => GSL_RPC_64BIT_DATA
  | Blob _ => GSL_RPC_BLOB_DATA
  end.

Definition arg_data (a : arg) : list Z :=
  match a with
  | Int32 val | Uint32 val => le_bytes 4 val
  | Int64 val | Uint64 val => le_bytes 8 val
  | Blob data => data
  end.

(** An argument in the message: its header, its data, its checksum. *)
Definition frame (type : Z) (data : list Z) : list Z :=
  (le_bytes 4 GSL_HAB_DATA_MAGIC ++ le_bytes 4 type ++ le_bytes 4 2 ++
   le_bytes 4 (Z.of_nat (length data))) ++ data ++ le_bytes 4 gsl_rpc_gen_checksum.

Definition encode (args : list arg) : list Z :=
  args ≫= λ a, frame (arg_type a) (arg_data a).

(** The parcel's memory starts with [pre] and goes on with [rest]; the position is
    between them. *)
Record parcel_at (p : gsl_hab_payload) (pre rest : list Z) : Prop := {
  pa_data : hp_data p = Some (pre ++ rest);
  pa_pos : hp_data_pos p = Z.of_nat (length pre);
  pa_size : hp_data_size p = Z.of_nat (length (pre ++ rest));
  pa_header : 16 ≤ hp_data_pos p;
  pa_room : PARCEL_SIZE ≤ hp_data_size p }.

Definition parcel_ok (p : gsl_hab_payload) : Prop := ∃ pre rest, parcel_at p pre rest.

(** * Lemmas *)

(** ** Memory *)

Lemma write_at_run p off pre mid rest bytes :
  hp_data p = Some (pre ++ mid ++ rest) → off = Z.of_nat (length pre) →
  length bytes = length mid →
  write_at off bytes p = Some (tt, p <| hp_data := Some (pre ++ bytes ++ rest) |>).
Proof.
  intros Hd -> Hl. unfold write_at. rewrite (bind_run _ _ _ p p), Hd by done.
  rewrite (bind_run _ _ p (pre ++ mid ++ rest) p), Nat2Z.id, memcpy_app by done. done.
Qed.

Lemma read_at_run p off n pre mid rest :
  hp_data p = Some (pre ++ mid ++ rest) → off = Z.of_nat (length pre) →
  n = Z.of_nat (length mid) → read_at off n p = Some (mid, p).
Proof.
  intros Hd -> ->. unfold read_at. rewrite (bind_run _ _ _ p p), Hd by done.
  by rewrite (bind_run _ _ p (pre ++ mid ++ rest) p), !Nat2Z.id, peek_app.
Qed.

Lemma read_u32_run p off pre v rest :
  hp_data p = Some (pre ++ le_bytes 4 v ++ rest) → off = Z.of_nat (length pre) →
  is_u32 v → read_u32_at off p = Some (v, p).
Proof.
  intros Hd Ho Hv. unfold read_u32_at.
  rewrite (bind_run _ _ _ _ _ (read_at_run p off 4 pre (le_bytes 4 v) rest Hd Ho eq_refl)).
  by rewrite le_value_u32.
Qed.

Lemma frame_length type data : length (frame type data) = (length data + 20)%nat.
Proof. unfold frame. rewrite !length_app, !le_bytes_length. lia. Qed.

(** ** Growing *)

Section malloc.
Context (hgsl_malloc : Z → option (list Z)).
Context (malloc_size : ∀ n mem, 0 ≤ n → hgsl_malloc n = Some mem → Z.of_nat (length mem) = n).

(** What a message may grow to: the sizes do not wrap around. *)
Definition small (n : Z) : Prop := 0 ≤ n < 1152921504606846976.

Lemma grow_run p pre rest len :
  parcel_at p pre rest → 0 ≤ len →
  small (hp_data_pos p + len) → hp_data_size p < hp_data_pos p + len + 20 →
  (grow_data hgsl_malloc len p = Some (- ENOMEM, p) ∧ ∃ n, hgsl_malloc n = None) ∨
  (∃ p' rest', grow_data hgsl_malloc len p = Some (0, p') ∧ parcel_at p' pre rest' ∧
     hp_data_pos p + len + 20 ≤ hp_data_size p' ∧ hp_version p' = hp_version p).
Proof.
  intros [Hd Hpos Hsize Hh Hr] Hl Hs Hneed. unfold small, PARCEL_SIZE in *.
  rewrite length_app in Hsize. unfold grow_data. rewrite (bind_run _ _ p p p), Hd by done.
  destruct (Z.eqb_spec (hp_data_size p) 0); [lia|].
  rewrite (u64_small (hp_data_size p + len)), u64_small by (unfold is_u64; lia).
  set (newSize := (hp_data_size p + len) * 3 / 2).
  assert (Hn : 2 * newSize ≤ (hp_data_size p + len) * 3 < 2 * newSize + 2)
    by (unfold newSize; Z.to_euclidean_division_equations; lia).
  destruct (hgsl_malloc newSize) as [new|] eqn:E; [right|left; eauto].
  apply malloc_size in E; [|lia].
  rewrite (bind_run _ _ p (pre ++ rest) p).
  2:{ replace (Z.to_nat (hp_data_size p)) with (length (pre ++ rest))
        by (rewrite length_app; lia).
      pose proof (peek_app [] (pre ++ rest) []) as Hp. rewrite app_nil_r in Hp. cbn in Hp.
      by rewrite Hp. }
  set (tail := drop (length (pre ++ rest)) new).
  assert (Ht : length tail = (length new - length (pre ++ rest))%nat) by apply length_drop.
  rewrite length_app in Ht.
  rewrite (bind_run _ _ p ((pre ++ rest) ++ tail) p).
  2:{ rewrite memcpy_split by (rewrite length_app; lia). by rewrite take_0. }
  eexists _, (rest ++ tail). split; [done|]. split; [|split; [cbn; lia|done]].
  split; cbn.
  - by rewrite (assoc_L app).
  - done.
  - rewrite !length_app. lia.
  - done.
  - unfold PARCEL_SIZE. lia.
Qed.

Lemma write_data_run type len action data p pre rest :
  parcel_at p pre rest → len = Z.of_nat (length data) →
  small (hp_data_pos p + len + 20) →
  (∀ q off pre mid rest, hp_data q = Some (pre ++ mid ++ rest) →
     off = Z.of_nat (length pre) → length mid = length data →
     action off q = Some (tt, q <| hp_data := Some (pre ++ data ++ rest) |>)) →
  (write_data hgsl_malloc type len action p = Some (- ENOMEM, p) ∧
     ∃ n, hgsl_malloc n = None) ∨
  (∃ p' rest', write_data hgsl_malloc type len action p = Some (0, p') ∧
     parcel_at p' (pre ++ frame type data) rest').
Proof.
  intros Hp -> Hs Hact. unfold small in Hs. pose proof Hp as [Hd Hpos Hsize Hh Hr].
  set (len := Z.of_nat (length data)) in *.
  assert (Hgrow : ∃ status p1,
    (if hp_data_size p <? u64 (hp_data_pos p + gsl_rpc_header_size + len + FOOTER_SIZE)
     then grow_data hgsl_malloc len else mret 0) p = Some (status, p1) ∧
    ((status = - ENOMEM ∧ p1 = p ∧ ∃ n, hgsl_malloc n = None) ∨
     (status = 0 ∧ ∃ rest1, parcel_at p1 pre rest1 ∧
        hp_data_pos p + len + 20 ≤ hp_data_size p1))).
  { unfold gsl_rpc_header_size, FOOTER_SIZE.
    rewrite u64_small by (unfold is_u64; lia).
    destruct (Z.ltb_spec (hp_data_size p) (hp_data_pos p + 16 + len + 4)) as [Hl|Hl].
    - destruct (grow_run p pre rest len Hp ltac:(lia) ltac:(unfold small; lia) ltac:(lia))
        as [[E N]|(p' & rest' & E & Hp' & Hl' & _)]; [by eauto 10|].
      exists 0, p'. split; [done|]. right. eauto.
    - exists 0, p. split; [done|]. right. split; [done|]. exists rest. split; [done|]. lia. }
  destruct Hgrow as (status & p1 & E & Hcase). unfold write_data.
  rewrite (bind_run _ _ p p p), (bind_run _ _ _ _ _ E) by done.
  destruct Hcase as [(-> & -> & N)|(-> & rest1 & [Hd1 Hpos1 Hsize1 Hh1 Hr1] & Hl1)].
  { left. split; [done|]. done. }
  right. change (negb (0 =? 0)) with false. cbv iota.
  (* the memory behind the position, in the pieces that are written *)
  rewrite length_app in Hsize1.
  set (n := length data) in *.
  pose proof (take_drop 16 rest1) as T1. pose proof (take_drop n (drop 16 rest1)) as T2.
  pose proof (take_drop 4 (drop n (drop 16 rest1))) as T3.
  set (a := take 16 rest1) in *. set (b := take n (drop 16 rest1)) in *.
  set (c := take 4 (drop n (drop 16 rest1))) in *.
  set (d := drop 4 (drop n (drop 16 rest1))) in *.
  assert (La : length a = 16%nat) by (unfold a; rewrite length_take; lia).
  assert (Lb : length b = n) by (unfold b; rewrite length_take, length_drop; lia).
  assert (Lc : length c = 4%nat) by (unfold c; rewrite length_take, !length_drop; lia).
  rewrite <- T1, <- T2, <- T3 in Hd1.
  set (hdr := le_bytes 4 GSL_HAB_DATA_MAGIC ++ le_bytes 4 type ++ le_bytes 4 2 ++
              le_bytes 4 (Z.of_nat (length data))).
  rewrite (bind_run _ _ _ _ _ (Hact p1 (hp_data_pos p + gsl_rpc_header_size) (pre ++ a) b
    (c ++ d) ltac:(by rewrite Hd1, <- (assoc_L app))
    ltac:(rewrite length_app; unfold gsl_rpc_header_size; lia) Lb)).
  set (p2 := p1 <| hp_data := Some ((pre ++ a) ++ data ++ c ++ d) |>).
  rewrite (bind_run _ _ _ _ _ (write_at_run p2 (hp_data_pos p) pre a (data ++ c ++ d) hdr
    ltac:(cbn; by rewrite <- (assoc_L app)) ltac:(lia)
    ltac:(unfold hdr; rewrite !length_app, !le_bytes_length; lia))).
  set (p3 := p2 <| hp_data := Some (pre ++ hdr ++ data ++ c ++ d) |>).
  rewrite (bind_run _ _ _ _ _ (write_at_run p3 (hp_data_pos p + gsl_rpc_header_size + len)
    (pre ++ hdr ++ data) c d (le_bytes 4 gsl_rpc_gen_checksum)
    ltac:(cbn; by rewrite <- !(assoc_L app))
    ltac:(unfold hdr; rewrite !length_app, !le_bytes_length; unfold gsl_rpc_header_size; lia)
    ltac:(by rewrite Lc))).
  eexists _, d. split; [done|]. unfold FOOTER_SIZE, gsl_rpc_header_size.
  pose proof (frame_length type data) as Lf.
  assert (Hl2 : length rest1 = (16 + n + 4 + length d)%nat).
  { rewrite <- T1, <- T2, <- T3, !length_app. lia. }
  split; cbn -[frame].
  - f_equal. unfold frame. fold hdr. by rewrite <- !(assoc_L app).
  - rewrite Hpos1, u64_small by (unfold is_u64; lia). rewrite length_app, Lf. lia.
  - rewrite !length_app, Lf. lia.
  - rewrite Hpos1, u64_small by (unfold is_u64; lia). lia.
  - done.
Qed.

Lemma write_arg_run a p pre rest :
  parcel_at p pre rest → small (hp_data_pos p + Z.of_nat (length (arg_data a)) + 20) →
  (write_arg hgsl_malloc a p = Some (- ENOMEM, p) ∧ ∃ n, hgsl_malloc n = None) ∨
  (∃ p' rest', write_arg hgsl_malloc a p = Some (0, p') ∧
     parcel_at p' (pre ++ frame (arg_type a) (arg_data a)) rest').
Proof.
  intros Hp Hs. destruct a as [v|v|v|v|data]; cbn [arg_type arg_data] in *;
    try (apply (write_data_run _ _ _ _ _ _ _ Hp); [by rewrite le_bytes_length|done|];
         intros; by eapply write_at_run).
  apply (write_data_run _ _ _ _ _ _ _ Hp); [done|done|].
  intros q off pre' mid rest' Hq Ho Hl.
  destruct (Z.eqb_spec (Z.of_nat (length data)) 0) as [E|E].
  - destruct data; [|done]. destruct mid; [|done]. cbn in Hq. cbn.
    unfold mret, M_ret. do 2 f_equal. destruct q. cbn in *. by rewrite Hq.
  - pose proof (peek_app [] data []) as Hk. rewrite app_nil_r in Hk. cbn in Hk.
    rewrite Nat2Z.id, Hk. rewrite (bind_run _ _ q data q) by done.
    by eapply write_at_run.
Qed.

Lemma encode_cons a args : encode (a :: args) = frame (arg_type a) (arg_data a) ++ encode args.
Proof. done. Qed.

Lemma write_args_run args p pre rest :
  parcel_at p pre rest → small (hp_data_pos p + Z.of_nat (length (encode args))) →
  (∃ p', write_args hgsl_malloc args p = Some (- ENOMEM, p') ∧ parcel_ok p' ∧
     ∃ n, hgsl_malloc n = None) ∨
  (∃ p' rest', write_args hgsl_malloc args p = Some (0, p') ∧
     parcel_at p' (pre ++ encode args) rest').
Proof.
  unfold small. revert p pre rest. induction args as [|a args IH]; intros p pre rest Hp Hs.
  { right. exists p, rest. cbn. by rewrite app_nil_r. }
  rewrite encode_cons, length_app, frame_length in Hs. cbn [write_args].
  pose proof (pa_header _ _ _ Hp) as Hh.
  destruct (write_arg_run a p pre rest Hp) as [[E N]|(p' & rest' & E & Hp')].
  - unfold small. lia.
  - left. exists p. rewrite (bind_run _ _ _ _ _ E). split; [done|]. split; [|done].
    by exists pre, rest.
  - rewrite (bind_run _ _ _ _ _ E). change (negb (0 =? 0)) with false. cbv iota.
    destruct (IH p' _ _ Hp') as [?|(p2 & rest2 & E2 & Hp2)].
    + pose proof (pa_pos _ _ _ Hp) as P1. rewrite (pa_pos _ _ _ Hp').
      rewrite length_app, frame_length. lia.
    + by left.
    + right. exists p2, rest2. split; [done|]. rewrite encode_cons.
      by rewrite (assoc_L app).
Qed.

(** ** The message of a call *)

Definition call_header (opcode version n : Z) : list Z :=
  (le_bytes 4 GSL_HAB_CALL_MAGIC ++ le_bytes 4 opcode ++ le_bytes 4 version) ++ le_bytes 4 n.

Definition message (opcode version : Z) (args : list arg) : list Z :=
  call_header opcode version (Z.of_nat (length (encode args))) ++ encode args ++
  le_bytes 4 gsl_rpc_gen_checksum.

Lemma reset_run p :
  parcel_ok p → ∃ p', gsl_rpc_parcel_reset p = Some (0, p') ∧
    parcel_at p' (replicate 16 0) (replicate (Z.to_nat (hp_data_size p) - 16) 0) ∧
    hp_data_size p' = hp_data_size p.
Proof.
  intros (pre & rest & [Hd Hpos Hsize Hh Hr]). unfold PARCEL_SIZE in *.
  unfold gsl_rpc_parcel_reset. rewrite (bind_run _ _ p p p), Hd by done.
  set (p1 := p <| hp_data_pos := gsl_rpc_parcel_get_data_offset |>).
  rewrite (bind_run _ _ p tt p1) by done.
  set (z := replicate (Z.to_nat (hp_data_size p)) 0).
  rewrite (bind_run _ _ _ _ _ (write_at_run p1 0 [] (pre ++ rest) [] z
    ltac:(by rewrite app_nil_r) eq_refl ltac:(unfold z; rewrite length_replicate; lia))).
  eexists. split; [done|]. split; [|done].
  assert (Ez : z = replicate 16 0 ++ replicate (Z.to_nat (hp_data_size p) - 16) 0).
  { unfold z. rewrite <- replicate_add. f_equal. lia. }
  split; cbn [upd hp_data hp_data_pos hp_data_size p1].
  - cbn [app]. rewrite app_nil_r. by rewrite Ez.
  - done.
  - rewrite <- Ez. unfold z. rewrite length_replicate. lia.
  - done.
  - done.
Qed.

Lemma set_call_params_run opcode version p z body rest :
  parcel_at p (z ++ body) rest → length z = 12%nat →
  ∃ p', gsl_rpc_set_call_params opcode version p = Some (0, p') ∧
    parcel_at p' ((le_bytes 4 GSL_HAB_CALL_MAGIC ++ le_bytes 4 opcode ++ le_bytes 4 version)
                  ++ body) rest.
Proof.
  intros [Hd Hpos Hsize Hh Hr] Hz. unfold gsl_rpc_set_call_params.
  set (h := le_bytes 4 _ ++ _). assert (Lh : length h = 12%nat) by done.
  rewrite (bind_run _ _ _ _ _ (write_at_run p 0 [] z (body ++ rest) h
    ltac:(by rewrite Hd, <- (assoc_L app)) eq_refl ltac:(by rewrite Hz))).
  eexists. split; [done|]. rewrite !length_app in *. split; cbn -[le_bytes app length].
  - fold h. by rewrite <- (assoc_L app).
  - rewrite length_app. lia.
  - rewrite !length_app. lia.
  - done.
  - done.
Qed.

Lemma finalize_run p h old body rest :
  parcel_at p (h ++ old ++ body) rest → length h = 12%nat → length old = 4%nat →
  small (hp_data_pos p + 8) →
  (gsl_rpc_finalize hgsl_malloc p = Some (- ENOMEM, p) ∧ ∃ n, hgsl_malloc n = None) ∨
  (∃ p' rest', gsl_rpc_finalize hgsl_malloc p = Some (0, p') ∧
     parcel_at p' (h ++ le_bytes 4 (u32 (Z.of_nat (length body))) ++ body ++
                   le_bytes 4 gsl_rpc_gen_checksum) rest').
Proof.
  intros Hp Lh Lo Hs. pose proof Hp as [Hd Hpos Hsize Hh Hr].
  unfold small, PARCEL_SIZE in *. repeat rewrite length_app in Hpos; repeat rewrite length_app in Hsize.
  assert (Hgrow : ∃ status p1,
    (if hp_data_size p <? u64 (hp_data_pos p + FOOTER_SIZE)
     then grow_data hgsl_malloc FOOTER_SIZE else mret 0) p = Some (status, p1) ∧
    ((status = - ENOMEM ∧ p1 = p ∧ ∃ n, hgsl_malloc n = None) ∨
     (status = 0 ∧ ∃ rest1, parcel_at p1 (h ++ old ++ body) rest1 ∧
        hp_data_pos p + 4 ≤ hp_data_size p1))).
  { unfold FOOTER_SIZE. rewrite u64_small by (unfold is_u64; lia).
    destruct (Z.ltb_spec (hp_data_size p) (hp_data_pos p + 4)) as [Hl|Hl].
    - destruct (grow_run p _ rest 4 Hp ltac:(lia) ltac:(unfold small; lia) ltac:(lia))
        as [[E N]|(p' & rest' & E & Hp' & Hl' & _)]; [by eauto 10|].
      exists 0, p'. split; [done|]. right. split; [done|]. exists rest'. split; [done|]. lia.
    - exists 0, p. split; [done|]. right. split; [done|]. exists rest. split; [done|]. lia. }
  destruct Hgrow as (status & p1 & E & Hcase). unfold gsl_rpc_finalize.
  rewrite (bind_run _ _ p p p), (bind_run _ _ _ _ _ E) by done.
  destruct Hcase as [(-> & -> & N)|(-> & rest1 & [Hd1 Hpos1 Hsize1 Hh1 Hr1] & Hl1)].
  { by left. }
  right. change (negb (0 =? 0)) with false. cbv iota zeta. 
  repeat rewrite length_app in Hpos1; repeat rewrite length_app in Hsize1.
  unfold gsl_rpc_header_size.
  replace (hp_data_pos p - 16) with (Z.of_nat (length body)) by lia.
  pose proof (take_drop 4 rest1) as T. set (a := take 4 rest1) in *. set (d := drop 4 rest1) in *.
  assert (La : length a = 4%nat) by (unfold a; rewrite length_take; lia).
  assert (Ld : length rest1 = (4 + length d)%nat) by (rewrite <- T, length_app; lia).
  rewrite <- T in Hd1. set (n := le_bytes 4 (u32 (Z.of_nat (length body)))).
  rewrite (bind_run _ _ _ _ _ (write_at_run p1 12 h old (body ++ a ++ d) n
    ltac:(by rewrite Hd1, <- !(assoc_L app)) ltac:(by rewrite Lh)
    ltac:(unfold n; rewrite le_bytes_length; lia))).
  set (p2 := p1 <| hp_data := Some (h ++ n ++ body ++ a ++ d) |>).
  rewrite (bind_run _ _ _ _ _ (write_at_run p2 (hp_data_pos p) (h ++ n ++ body) a d
    (le_bytes 4 gsl_rpc_gen_checksum) ltac:(cbn; by rewrite <- !(assoc_L app))
    ltac:(unfold n; rewrite !length_app, le_bytes_length; lia)
    ltac:(by rewrite La))).
  eexists _, d. split; [done|]. unfold FOOTER_SIZE.
  assert (Ln : length n = 4%nat) by apply le_bytes_length.
  split; cbn -[le_bytes].
  - by rewrite <- !(assoc_L app).
  - rewrite u64_small by (unfold is_u64; lia). rewrite !length_app, le_bytes_length. lia.
  - rewrite !length_app, le_bytes_length. lia.
  - rewrite u64_small by (unfold is_u64; lia). lia.
  - done.
Qed.

(** Marshalling a call, unless memory runs out. *)
Lemma marshal_run opcode version args p :
  parcel_ok p → Z.of_nat (length (encode args)) < 4294967296 →
  (∃ p', marshal hgsl_malloc opcode version args p = Some (- ENOMEM, p') ∧ parcel_ok p' ∧
     ∃ n, hgsl_malloc n = None) ∨
  (∃ p' rest', marshal hgsl_malloc opcode version args p = Some (0, p') ∧
     parcel_at p' (message opcode version args) rest').
Proof.
  intros Hp Hs. unfold marshal.
  destruct (reset_run p Hp) as (p1 & E1 & Hp1 & _).
  rewrite (bind_run _ _ _ _ _ E1). change (negb (0 =? 0)) with false. cbv iota.
  destruct (write_args_run args _ _ _ Hp1) as [(p2 & E2 & ? & ?)|(p2 & rest2 & E2 & Hp2)].
  - rewrite (pa_pos _ _ _ Hp1). unfold small. cbn [length replicate]. lia.
  - left. exists p2. by rewrite (bind_run _ _ _ _ _ E2).
  - rewrite (bind_run _ _ _ _ _ E2). change (negb (0 =? 0)) with false. cbv iota.
    change (replicate 16 0) with (replicate 12 0 ++ replicate 4 0) in Hp2.
    rewrite <- (assoc_L app) in Hp2.
    destruct (set_call_params_run opcode version p2 _ _ _ Hp2 eq_refl) as (p3 & E3 & Hp3).
    rewrite (bind_run _ _ _ _ _ E3).
    destruct (finalize_run p3 _ _ _ _ Hp3 eq_refl eq_refl) as
      [[E4 ?]|(p4 & rest4 & E4 & Hp4)].
    + rewrite (pa_pos _ _ _ Hp3). rewrite !length_app. cbn [length replicate le_bytes].
      unfold small. lia.
    + left. exists p3. split; [done|]. split; [by eexists _, _|done].
    + right. exists p4, rest4. split; [done|].
      rewrite u32_small in Hp4 by (unfold is_u32; lia).
      unfold message, call_header. by rewrite <- !(assoc_L app) in Hp4 |- *.
Qed.
End malloc.

(** ** Reading *)

Section read.
Context (p : gsl_hab_payload) (pre rest : list Z).
Context (Hpos : hp_data_pos p = Z.of_nat (length pre)).
Context (Hlen : small (hp_data_size p)).

Lemma read_arg_run type data :
  hp_data p = Some (pre ++ frame type data ++ rest) →
  hp_data_size p = Z.of_nat (length (pre ++ frame type data ++ rest)) →
  is_u32 type → is_u32 (Z.of_nat (length data)) →
  read_arg type (Z.of_nat (length data)) p =
    Some ((0, Some data),
          p <| hp_data_pos := Z.of_nat (length (pre ++ frame type data)) |>).
Proof.
  intros Hd Hsize Ht Hl. unfold small in Hlen.
  repeat rewrite length_app in Hsize. rewrite frame_length in Hsize.
  set (len := Z.of_nat (length data)) in *. unfold read_arg, gsl_rpc_get_arg_ptr.
  set (m := le_bytes 4 GSL_HAB_DATA_MAGIC). set (t := le_bytes 4 type).
  set (v := le_bytes 4 2). set (l := le_bytes 4 len). set (c := le_bytes 4 gsl_rpc_gen_checksum).
  assert (Hf : hp_data p = Some (pre ++ m ++ t ++ v ++ l ++ data ++ c ++ rest)).
  { rewrite Hd. unfold frame. by rewrite <- !(assoc_L app). }
  assert (Lm : length m = 4%nat) by done. assert (Lt : length t = 4%nat) by done.
  assert (Lv : length v = 4%nat) by done. assert (Ll : length l = 4%nat) by done.
  assert (Lc : length c = 4%nat) by done.
  set (p' := p <| hp_data_pos := Z.of_nat (length (pre ++ frame type data)) |>).
  rewrite (bind_run _ _ p (0, hp_data_pos p + gsl_rpc_header_size) p').
  { change (0 =? 0) with true. cbv iota.
    rewrite (bind_run _ _ _ _ _ (read_at_run p' (hp_data_pos p + 16) len (pre ++ m ++ t ++ v ++ l) data (c ++ rest)
      ltac:(cbn -[m t v l c]; rewrite Hf; by rewrite <- !(assoc_L app))
      ltac:(rewrite !length_app, Lm, Lt, Lv, Ll; lia) eq_refl)).
    done. }
  rewrite (bind_run _ _ p p p) by done. unfold gsl_rpc_header_size, FOOTER_SIZE.
  rewrite (u64_small (hp_data_pos p + len + 16)) by (unfold is_u64; lia).
  destruct (Z.ltb_spec (hp_data_size p) (hp_data_pos p + len + 16)); [lia|].
  rewrite (bind_run _ _ _ _ _ (read_u32_run p (hp_data_pos p) pre _ _ Hf Hpos ltac:(done))).
  rewrite (bind_run _ _ _ _ _ (read_u32_run p (hp_data_pos p + 4) (pre ++ m) type (v ++ l ++ data ++ c ++ rest)
    ltac:(rewrite Hf; by rewrite <- !(assoc_L app)) ltac:(rewrite length_app; lia) Ht)).
  rewrite (bind_run _ _ _ _ _ (read_u32_run p (hp_data_pos p + 12) (pre ++ m ++ t ++ v) len (data ++ c ++ rest)
    ltac:(rewrite Hf; by rewrite <- !(assoc_L app)) ltac:(rewrite !length_app; lia) Hl)).
  rewrite !Z.eqb_refl. cbn [andb].
  rewrite (bind_run _ _ p tt p').
  2:{ unfold p', modify. do 2 f_equal. cbn -[frame app]. f_equal.
      rewrite u64_small by (unfold is_u64; lia). rewrite length_app, frame_length. lia. }
  rewrite (bind_run _ _ _ _ _ (read_u32_run p' (hp_data_pos p + len + 16) (pre ++ m ++ t ++ v ++ l ++ data)
    gsl_rpc_gen_checksum rest ltac:(cbn -[m t v l c]; rewrite Hf; by rewrite <- !(assoc_L app))
    ltac:(rewrite !length_app, Lm, Lt, Lv, Ll; lia) ltac:(done))).
  done.
Qed.
End read.

Lemma read_arg_like_run p pre a rest :
  hp_data_pos p = Z.of_nat (length pre) → small (hp_data_size p) →
  hp_data p = Some (pre ++ frame (arg_type a) (arg_data a) ++ rest) →
  hp_data_size p = Z.of_nat (length (pre ++ frame (arg_type a) (arg_data a) ++ rest)) →
  arg_ok a →
  read_arg_like a p = Some ((0, Some a),
    p <| hp_data_pos := Z.of_nat (length (pre ++ frame (arg_type a) (arg_data a))) |>).
Proof.
  intros Hpos Hs Hd Hsize Ha.
  assert (Ht : is_u32 (arg_type a)) by (by destruct a).
  assert (Hl : is_u32 (Z.of_nat (length (arg_data a)))) by (destruct a; done).
  pose proof (read_arg_run p pre rest Hpos Hs _ _ Hd Hsize Ht Hl) as H.
  destruct a as [v|v|v|v|data]; cbn [read_arg_like arg_type arg_data arg_ok] in *;
    unfold gsl_rpc_read_int32_l, gsl_rpc_read_uint32_l, gsl_rpc_read_int64_l,
      gsl_rpc_read_uint64_l, gsl_rpc_read in *;
    rewrite ?le_bytes_length in H.
  - rewrite (bind_run _ _ _ _ _ (bind_run _ _ _ _ _ H)). cbn [fmap option_fmap option_map].
    by rewrite s32_u32.
  - rewrite (bind_run _ _ _ _ _ (bind_run _ _ _ _ _ H)). cbn [fmap option_fmap option_map].
    by rewrite le_value_u32.
  - rewrite (bind_run _ _ _ _ _ (bind_run _ _ _ _ _ H)). cbn [fmap option_fmap option_map].
    by rewrite s64_u64.
  - rewrite (bind_run _ _ _ _ _ (bind_run _ _ _ _ _ H)). cbn [fmap option_fmap option_map].
    by rewrite le_value_u64.
  - by rewrite (bind_run _ _ _ _ _ H).
Qed.

Lemma read_args_like_run args p pre rest :
  hp_data_pos p = Z.of_nat (length pre) → small (hp_data_size p) →
  hp_data p = Some (pre ++ encode args ++ rest) →
  hp_data_size p = Z.of_nat (length (pre ++ encode args ++ rest)) →
  Forall arg_ok args →
  read_args_like args p = Some ((0, args),
    p <| hp_data_pos := Z.of_nat (length (pre ++ encode args)) |>).
Proof.
  revert p pre. induction args as [|a args IH]; intros p pre Hpos Hs Hd Hsize Ha.
  { cbn [read_args_like encode mbind list_bind app]. rewrite app_nil_r, <- Hpos.
    by destruct p. }
  apply Forall_cons in Ha as [Ha Has]. rewrite encode_cons, <- !(assoc_L app) in Hd, Hsize.
  cbn [read_args_like].
  rewrite (bind_run _ _ _ _ _ (read_arg_like_run p pre a _ Hpos Hs Hd Hsize Ha)).
  set (p1 := p <| hp_data_pos := _ |>).
  rewrite (bind_run _ _ _ _ _ (IH p1 (pre ++ frame (arg_type a) (arg_data a)) eq_refl Hs
    ltac:(cbn -[frame app]; by rewrite <- (assoc_L app))
    ltac:(cbn -[frame app]; by rewrite <- (assoc_L app)) Has)).
  unfold p1. rewrite encode_cons, (assoc_L app). done.
Qed.

(** * Properties *)

(** C29. Marshalling a call stays inside the memory of its parcel, whatever memory
    hgsl_malloc hands out and whenever it fails: the parcel grows before each
    argument that would not fit.  Either the whole message is there - the call
    header, the arguments in order, the checksum - and the position is at its
    end; or the call fails with -ENOMEM and the parcel can be used again. *)
Theorem marshal_stays_inside hgsl_malloc opcode version args p :
  (∀ n mem, 0 ≤ n → hgsl_malloc n = Some mem → Z.of_nat (length mem) = n) →
  parcel_ok p → Z.of_nat (length (encode args)) < 4294967296 →
  ∃ ret p', marshal hgsl_malloc opcode version args p = Some (ret, p') ∧
    (ret = - ENOMEM ∧ parcel_ok p' ∧ (∃ n, hgsl_malloc n = None) ∨
     ret = 0 ∧ ∃ rest, parcel_at p' (message opcode version args) rest).
Proof.
  intros Hm Hp Hs.
  destruct (marshal_run hgsl_malloc Hm opcode version args p Hp Hs) as
    [(p' & E & H)|(p' & rest & E & H)]; eexists _, p'; (split; [exact E|]); eauto 10.
Qed.

(** C19. A call comes back as it was sent: the message that marshalling leaves in the
    parcel, received into another parcel, starts with the opcode and the version,
    and reading its arguments one after the other returns them all, unchanged and
    in order, and ends at its checksum. *)
Theorem parcel_roundtrip hgsl_malloc opcode version args p :
  (∀ n mem, 0 ≤ n → hgsl_malloc n = Some mem → Z.of_nat (length mem) = n) →
  (∀ n, hgsl_malloc n ≠ None) → parcel_ok p → Forall arg_ok args →
  is_u32 opcode → is_u32 version → Z.of_nat (length (encode args)) < 4294967296 →
  ∃ p' sent unused, marshal hgsl_malloc opcode version args p = Some (0, p') ∧
    hp_data p' = Some (sent ++ unused) ∧ hp_data_pos p' = Z.of_nat (length sent) ∧
    ∀ q rest, hp_data q = Some (sent ++ rest) → hp_data_pos q = gsl_rpc_parcel_get_data_offset →
      hp_data_size q = Z.of_nat (length (sent ++ rest)) → small (hp_data_size q) →
      gsl_rpc_get_call_params q = Some ((0, (opcode, version)), q) ∧
      read_args_like args q =
        Some ((0, args), q <| hp_data_pos := Z.of_nat (length sent) - FOOTER_SIZE |>).
Proof.
  intros Hm Ha Hp Hargs Ho Hv Hs.
  destruct (marshal_run hgsl_malloc Hm opcode version args p Hp Hs) as
    [(p' & E & _ & n & N)|(p' & unused & E & [Hd Hpos _ _ _])]; [by destruct (Ha n)|].
  exists p', (message opcode version args), unused. do 3 (split; [done|]).
  intros q rest Hq Hq2 Hq3 Hq4. unfold message, call_header in Hq, Hq3.
  set (m := le_bytes 4 GSL_HAB_CALL_MAGIC) in *. set (o := le_bytes 4 opcode) in *.
  set (v := le_bytes 4 version) in *. 
  set (n := le_bytes 4 (Z.of_nat (length (encode args)))) in *.
  set (c := le_bytes 4 gsl_rpc_gen_checksum) in *.
  rewrite <- !(assoc_L app) in Hq. split.
  - unfold gsl_rpc_get_call_params.
    rewrite (bind_run _ _ _ _ _ (read_u32_run q 4 m opcode _ Hq eq_refl Ho)).
    by rewrite (bind_run _ _ _ _ _ (read_u32_run q 8 (m ++ o) version
      (n ++ encode args ++ c ++ rest) ltac:(rewrite Hq; by rewrite <- !(assoc_L app))
      eq_refl Hv)).
  - rewrite (read_args_like_run args q (m ++ o ++ v ++ n) (c ++ rest)); try done.
    + do 2 f_equal. cbn -[m o v n c app encode length message]. f_equal. unfold message.
      unfold call_header, FOOTER_SIZE. fold m o v n c.
      repeat rewrite length_app. change (length c) with 4%nat. lia.
    + rewrite Hq3. by rewrite <- !(assoc_L app).
Qed.

(** The bound that gsl_rpc_get_arg_ptr checks leaves out the checksum: an
    argument that ends where the memory of the parcel ends passes the check, and
    the read of its checksum is past the end. *)
Theorem read_past_the_end p pre type data :
  hp_data p = Some (pre ++ take (16 + length data) (frame type data)) →
  hp_data_pos p = Z.of_nat (length pre) →
  hp_data_size p = Z.of_nat (length pre + 16 + length data) → small (hp_data_size p) →
  is_u32 type → is_u32 (Z.of_nat (length data)) →
  gsl_rpc_get_arg_ptr type (Z.of_nat (length data)) p = None.
Proof.
  intros Hd Hpos Hsize Hs Ht Hl. unfold small in Hs.
  unfold frame in Hd. rewrite (assoc_L app _ data) in Hd.
  rewrite take_app_length' in Hd by (rewrite !length_app, !le_bytes_length; lia).
  set (len := Z.of_nat (length data)) in *. unfold gsl_rpc_get_arg_ptr.
  set (m := le_bytes 4 GSL_HAB_DATA_MAGIC) in *. set (t := le_bytes 4 type) in *.
  set (v := le_bytes 4 2) in *. set (l := le_bytes 4 len) in *.
  rewrite <- !(assoc_L app) in Hd.
  rewrite (bind_run _ _ p p p) by done. unfold gsl_rpc_header_size, FOOTER_SIZE.
  rewrite (u64_small (hp_data_pos p + len + 16)) by (unfold is_u64; lia).
  destruct (Z.ltb_spec (hp_data_size p) (hp_data_pos p + len + 16)); [lia|].
  rewrite (bind_run _ _ _ _ _ (read_u32_run p (hp_data_pos p) pre _ _ Hd Hpos ltac:(done))).
  rewrite (bind_run _ _ _ _ _ (read_u32_run p (hp_data_pos p + 4) (pre ++ m) type (v ++ l ++ data)
    ltac:(rewrite Hd; by rewrite <- !(assoc_L app)) ltac:(rewrite length_app, Hpos; change (length m) with 4%nat; lia) Ht)).
  rewrite (bind_run _ _ _ _ _ (read_u32_run p (hp_data_pos p + 12) (pre ++ m ++ t ++ v) len data
    ltac:(rewrite Hd; by rewrite <- !(assoc_L app))
    ltac:(repeat rewrite length_app; rewrite Hpos; change (length m) with 4%nat;
          change (length t) with 4%nat; change (length v) with 4%nat; lia) Hl)).
  rewrite !Z.eqb_refl. cbn [andb].
  set (p' := p <| hp_data_pos := u64 (hp_data_pos p + len + 16 + 4) |>).
  rewrite (bind_run _ _ p tt p') by done.
  set (k := λ checksum, _). cut (read_u32_at (hp_data_pos p + len + 16) p' = None).
  { intros E. unfold mbind, M_bind. by rewrite E. }
  unfold read_u32_at, read_at, mbind, M_bind, get. cbn [p' hp_data upd]. rewrite Hd.
  cbn [of_option mret M_ret]. unfold peek. rewrite (proj2 (Nat.leb_gt _ _)); [done|].
  repeat rewrite length_app. change (length m) with 4%nat. change (length t) with 4%nat.
  change (length v) with 4%nat. change (length l) with 4%nat. lia.
Qed.

(** ** Witnesses *)

Definition zero_malloc (n : Z) : option (list Z) := Some (replicate (Z.to_nat n) 0).

Definition fresh_parcel : gsl_hab_payload :=
  mk_payload 1 PARCEL_SIZE 16 (Some (replicate 4096 0)).

Lemma fresh_parcel_ok : parcel_ok fresh_parcel.
Proof.
  exists (replicate 16 0), (replicate 4080 0). split; try done.
Qed.

Definition some_args : list arg := [Uint32 7; Blob [1; 2; 3]; Int64 (-5)].

Lemma marshal_stays_inside_witness :
  ∃ ret p', marshal zero_malloc 14 0 some_args fresh_parcel = Some (ret, p') ∧
    ret = 0 ∧ hp_data_pos p' = 16 + 75 + 4.
Proof.
  destruct (marshal_stays_inside zero_malloc 14 0 some_args fresh_parcel) as
    (ret & p' & E & H).
  - intros n mem Hn [= <-]. rewrite length_replicate. lia.
  - apply fresh_parcel_ok.
  - by vm_compute.
  - exists ret, p'. split; [exact E|].
    destruct H as [(_ & _ & n & [=])|(-> & rest & [_ H _ _ _])].
    split; [done|]. rewrite H. by vm_compute.
Defined.

Lemma parcel_roundtrip_witness :
  ∃ p' sent unused, marshal zero_malloc 14 0 some_args fresh_parcel = Some (0, p') ∧
    hp_data p' = Some (sent ++ unused) ∧
    read_args_like some_args (mk_payload 1 95 16 (Some (sent ++ []))) =
      Some ((0, some_args), mk_payload 1 95 91 (Some (sent ++ []))).
Proof.
  destruct (parcel_roundtrip zero_malloc 14 0 some_args fresh_parcel) as
    (p' & sent & unused & E & Hd & Hp & H).
  - intros n mem Hn [= <-]. rewrite length_replicate. lia.
  - done.
  - apply fresh_parcel_ok.
  - repeat constructor; cbn; try done; unfold is_u32; cbn; lia.
  - done.
  - done.
  - by vm_compute.
  - exists p', sent, unused. split; [exact E|]. split; [exact Hd|].
    vm_compute in E. injection E as <-. cbn in Hp.
    destruct (H (mk_payload 1 95 16 (Some (sent ++ []))) []) as [_ R]; try done.
    + rewrite app_nil_r. cbn. lia.
    + rewrite <- Hp in R. exact R.
Defined.

Lemma read_past_the_end_witness :
  gsl_rpc_get_arg_ptr 1 4
    (mk_payload 1 36 16 (Some (replicate 16 0 ++ take 20 (frame 1 [7; 0; 0; 0])))) = None.
Proof. by apply (read_past_the_end _ (replicate 16 0) 1 [7; 0; 0; 0]). Defined.
