(* ===== verification/Hyp.v ===== *)
(** The channels to the hypervisor (hgsl_hyp.c): opening a channel with its
    handshakes, a transaction over it, and the pool that hands channels out, takes
    them back and keeps those that wait for the retry of an interrupted call. *)

From S2P Require Import Prelude.
From S2P Require Import Bytes.
From S2P Require Import Parcel.

(** * Definitions *)

Definition GSL_SUCCESS : Z := 0.
Definition GSL_FAILURE : Z := -1.
Definition HAB_INVALID_HANDLE : Z := -1.
Definition RPC_CLIENT_NAME_SIZE : nat := 64.
Definition GSL_RPC_CLIENT_TYPE_2 : Z := 2.
Definition g_client_type : Z := GSL_RPC_CLIENT_TYPE_2.
Definition g_client_version : Z := 1.
Definition sizeof_gsl_memdesc_t : Z := 56.

(** enum gsl_rpc_func_t, the functions that are called. *)
Definition RPC_LIBRARY_OPEN : Z := 0.
Definition RPC_LIBRARY_CLOSE : Z := 1.
Definition RPC_DEVICE_OPEN : Z := 4.
Definition RPC_DEVICE_CLOSE : Z := 5.
Definition RPC_COMMAND_ISSUEIB : Z := 12.
Definition RPC_COMMAND_READTIMESTAMP : Z := 14.
Definition RPC_COMMAND_ISSUEIB_WITH_ALLOC_LIST : Z := 16.
Definition RPC_COMMAND_CHECKTIMESTAMP : Z := 17.
Definition RPC_COMMAND_WAITTIMESTAMP : Z := 18.
Definition RPC_CONTEXT_CREATE : Z := 21.
Definition RPC_CONTEXT_DESTROY : Z := 22.
Definition RPC_PERFCOUNTER_SELECT : Z := 44.
Definition RPC_PERFCOUNTER_DESELECT : Z := 45.
Definition RPC_PERFCOUNTER_QUERYSELECTIONS : Z := 46.
Definition RPC_PERFCOUNTER_READ : Z := 47.
Definition RPC_SYNCOBJ_WAIT_MULTIPLE : Z := 60.
Definition RPC_MEMORY_MAP_EXT_FD_PURE : Z := 64.
Definition RPC_MEMORY_UNMAP_EXT_FD_PURE : Z := 65.
Definition RPC_GET_SHADOWMEM : Z := 66.
Definition RPC_PUT_SHADOWMEM : Z := 67.
Definition RPC_HANDSHAKE : Z := 69.
Definition RPC_SUB_HANDSHAKE : Z := 70.
Definition RPC_DISCONNECT : Z := 71.
Definition RPC_MEMORY_SET_METAINFO : Z := 72.
Definition RPC_GET_SYSTEM_TIME : Z := 73.
Definition RPC_GET_DBQ_INFO : Z := 74.
Definition RPC_DBQ_CREATE : Z := 75.
Definition RPC_NOTIFY_CLEANUP : Z := 77.
Definition RPC_CONTEXT_QUERY_DBCQ : Z := 79.
Definition RPC_CONTEXT_REGISTER_DBCQ : Z := 80.
Definition RPC_GSLPROFILER_PER_PROC_GPU_BUSY : Z := 81.
Definition RPC_GSLPROFILER_PER_PROC_GPU_PMEM : Z := 82.
Definition RPC_DEVICE_ACTIVATE : Z := 84.
Definition RPC_GVM_INIT : Z := 85.
Definition RPC_GVM_DEINIT : Z := 86.

(** struct hgsl_hab_channel_t; the node is the membership in the lists of the pool,
    and there is one pool. *)
Record hgsl_hab_channel_t := {
  ch_socket : Z;
  ch_id : Z;
  ch_wait_retry : bool;
  ch_busy : bool;
  ch_send_buf : gsl_hab_payload;
  ch_recv_buf : gsl_hab_payload }.

#[export] Instance channel_eta : Eta hgsl_hab_channel_t := λ r,
  {| ch_socket := ch_socket r; ch_id := ch_id r; ch_wait_retry := ch_wait_retry r;
     ch_busy := ch_busy r; ch_send_buf := ch_send_buf r; ch_recv_buf := ch_recv_buf r |}.

(** What the driver does to the sockets, in order. *)
Inductive hab_event :=
| HabSend (socket : Z) (data : list Z)
| HabRecv (socket : Z)
| HabClose (socket : Z)
| HabExport (socket size export_id : Z)
| HabUnexport (socket export_id : Z)
| HabImport (socket size export_id : Z)
| HabUnimport (socket export_id : Z).

(** struct hgsl_hyp_priv_t, with the memory of its channels, the events so far and
    the count of questions asked outside of the driver. *)
Record hgsl_hyp_priv_t := {
  hy_free : list ptr;
  hy_busy : list ptr;
  hy_conn_id : Z;
  hy_client_name : list Z;
  hy_client_pid : Z;
  hy_idr : gmap Z ptr;
  hy_channels : gmap ptr hgsl_hab_channel_t;
  hy_log : list hab_event;
  hy_clock : nat }.

#[export] Instance hyp_eta : Eta hgsl_hyp_priv_t := λ r,
  {| hy_free := hy_free r; hy_busy := hy_busy r; hy_conn_id := hy_conn_id r;
     hy_client_name := hy_client_name r; hy_client_pid := hy_client_pid r;
     hy_idr := hy_idr r; hy_channels := hy_channels r; hy_log := hy_log r;
     hy_clock := hy_clock r |}.

(** Memory, identifiers and the sockets of the hypervisor, by the number of the
    question.  habmm_socket_recv gives its return code and the bytes it wrote. *)
Class Hab := {
  hab_malloc : nat → Z → option (list Z);
  hab_zalloc : nat → bool;                     (* hgsl_zalloc of a channel *)
  hab_idr_alloc : nat → gmap Z ptr → Z;
  hab_uid : nat → Z;                           (* from_kuid of current_uid *)
  hab_stack : nat → list Z;                    (* what a local array holds *)
  hab_open : nat → Z → Z * Z;                  (* return code, socket *)
  hab_send : nat → Z → list Z → Z;
  hab_recv : nat → Z → Z → bool → Z * list Z;
  hab_export : nat → Z → Z → Z * Z;            (* return code, export id *)
  hab_unexport : nat → Z → Z → Z;
  hab_import : nat → Z → Z → Z → Z * option ptr;
  hab_unimport : nat → Z → Z → Z;
  hab_stack_size : ∀ t, length (hab_stack t) = 84%nat;
  hab_malloc_size : ∀ t n mem, 0 ≤ n → hab_malloc t n = Some mem → Z.of_nat (length mem) = n;
  hab_idr_fresh : ∀ t idr, 0 < hab_idr_alloc t idr → idr !! hab_idr_alloc t idr = None;
  hab_idr_error : ∀ t idr, hab_idr_alloc t idr ≠ 0;
  hab_recv_size : ∀ t socket max i, Z.of_nat (length (hab_recv t socket max i).2) ≤ Z.max 0 max }.

Abbreviation no_sends := (Some []) (only parsing).

(** ** States of a channel *)

(** A receive buffer is never replaced by a larger one. *)
Definition recv_ok (p : gsl_hab_payload) : Prop := parcel_ok p ∧ hp_data_size p = PARCEL_SIZE.

(** A channel whose buffers can be used, and whether it waits for a retry.  When it
    does not, nothing of it is left to the next call. *)
Record usable (w : bool) (ch : hgsl_hab_channel_t) : Prop := {
  idle_send : parcel_ok (ch_send_buf ch);
  idle_recv : recv_ok (ch_recv_buf ch);
  idle_retry : ch_wait_retry ch = w }.
#[global] Arguments idle_send {_} _ _.
#[global] Arguments idle_recv {_} _ _.
#[global] Arguments idle_retry {_} _ _.

Abbreviation idle := (usable false).

(** A channel whose call has written [args] and read nothing yet. *)
Record writing (args : list arg) (ch : hgsl_hab_channel_t) : Prop := {
  writing_idle : idle ch;
  writing_at : ∃ rest, parcel_at (ch_send_buf ch) (replicate 16 0 ++ encode args) rest;
  writing_recv : hp_data_pos (ch_recv_buf ch) = 16 }.

(** A channel whose reply has been read up to [n]. *)
Record reading_at (w : bool) (n : Z) (ch : hgsl_hab_channel_t) : Prop := {
  reading_idle : usable w ch;
  reading_pos : hp_data_pos (ch_recv_buf ch) ≤ n }.

Abbreviation reading := (reading_at false).

Section hyp.
Context `{Hab}.

Abbreviation HM := (M hgsl_hyp_priv_t).

(** ** Steps *)

Definition ask {A} (q : nat → A) : HM A :=
  a ← gets (λ s, q (hy_clock s));
  modify (λ s, s <| hy_clock ::= S |>) ;; mret a.

Definition log (e : hab_event) : HM unit := modify (λ s, s <| hy_log ::= (λ l, l ++ [e]) |>).

Definition channel (c : ptr) : HM hgsl_hab_channel_t :=
  o ← gets (λ s, hy_channels s !! c); of_option o.

Definition set_channel (c : ptr) (f : hgsl_hab_channel_t → hgsl_hab_channel_t) : HM unit :=
  ch ← channel c; modify (λ s, s <| hy_channels ::= <[c := f ch]> |>).

(** An operation of hgsl_hyp_socket.c on one of the buffers of a channel; it may ask
    for memory. *)
Definition on_send {A} (c : ptr) (m : (Z → option (list Z)) → M gsl_hab_payload A) : HM A :=
  malloc ← ask hab_malloc;
  ch ← channel c;
  '(a, p) ← of_option (m malloc (ch_send_buf ch));
  set_channel c (λ ch, ch <| ch_send_buf := p |>) ;; mret a.

Definition on_recv {A} (c : ptr) (m : (Z → option (list Z)) → M gsl_hab_payload A) : HM A :=
  malloc ← ask hab_malloc;
  ch ← channel c;
  '(a, p) ← of_option (m malloc (ch_recv_buf ch));
  set_channel c (λ ch, ch <| ch_recv_buf := p |>) ;; mret a.

(** The code's [if (ret) goto out]: [fail] is what it returns then. *)
Class OfRet (A : Type) := of_ret : Z → A.
#[export] Instance ret_z : OfRet Z := λ ret, ret.
#[export] Instance ret_val {V} : OfRet (Z * option V) := λ ret, (ret, None).

Definition try_ret {A} `{OfRet A} (m : HM Z) (k : HM A) : HM A :=
  ret ← m; if ret =? 0 then k else mret (of_ret ret).

(** The same for a read; the value is there when the return code is 0. *)
Definition try_val {V A} `{OfRet A} (m : HM (Z * option V)) (k : V → HM A) : HM A :=
  '(ret, v) ← m;
  match v with Some v => k v | None => mret (of_ret ret) end.

Definition recv_int32 (c : ptr) : HM (Z * option Z) := on_recv c (λ _, gsl_rpc_read_int32_l).
Definition recv_uint32 (c : ptr) : HM (Z * option Z) := on_recv c (λ _, gsl_rpc_read_uint32_l).
Definition recv_uint64 (c : ptr) : HM (Z * option Z) := on_recv c (λ _, gsl_rpc_read_uint64_l).
Definition recv_blob (c : ptr) (len : Z) : HM (Z * option (list Z)) :=
  on_recv c (λ _, gsl_rpc_read len).

(** The arguments of a call written one after the other, leaving at an error. *)
Fixpoint send_args (c : ptr) (args : list arg) : HM Z :=
  match args with
  | [] => mret 0
  | a :: args => try_ret (on_send c (λ malloc, write_arg malloc a)) (send_args c args)
  end.

(** The structures of parameters: their fields one after the other, packed, the size
    of the whole in the first. *)
Definition u32s (l : list Z) : list Z := l ≫= le_bytes 4.
Definition params (fields : list Z) : list Z :=
  le_bytes 4 (Z.of_nat (4 + length fields)) ++ fields.

(** ** Transactions *)

Definition hgsl_rpc_connect : HM (Z * Z) :=
  conn_id ← gets hy_conn_id; ask (λ t, hab_open t conn_id).

Definition hgsl_rpc_parcel_init (c : ptr) : HM Z :=
  try_ret (on_send c gsl_rpc_parcel_init) (on_recv c gsl_rpc_parcel_init).

Definition hgsl_rpc_parcel_reset (c : ptr) : HM Z :=
  try_ret (on_send c (λ _, gsl_rpc_parcel_reset)) (on_recv c (λ _, gsl_rpc_parcel_reset)).

(** gsl_rpc_send of the message in the send buffer. *)
Definition gsl_rpc_send (c : ptr) : HM Z :=
  ch ← channel c;
  mem ← of_option (hp_data (ch_send_buf ch));
  data ← of_option (peek mem 0 (Z.to_nat (hp_data_pos (ch_send_buf ch))));
  log (HabSend (ch_socket ch) data) ;;
  ask (λ t, hab_send t (ch_socket ch) data).

(** gsl_rpc_recv into the receive buffer. *)
Definition gsl_rpc_recv (c : ptr) (max_size : Z) (interruptible : bool) : HM Z :=
  ch ← channel c;
  log (HabRecv (ch_socket ch)) ;;
  '(ret, data) ← ask (λ t, hab_recv t (ch_socket ch) max_size interruptible);
  on_recv c (λ _, write_at 0 data) ;;
  mret ret.

Definition gsl_rpc_transact_ext (opcode version : Z) (c : ptr) (interruptible : bool) : HM Z :=
  ch ← channel c;
  try_ret
    (if ch_wait_retry ch && interruptible then mret 0
     else if ch_wait_retry ch then mret (- EINVAL)
     else
       on_send c (λ _, gsl_rpc_set_call_params opcode version) ;;
       try_ret (on_send c gsl_rpc_finalize)
         ('(ret, _) ← on_send c (λ _, gsl_rpc_get_data_params);
          try_ret (mret ret) (gsl_rpc_send c)))
    ('(ret, (_, max_size)) ← on_recv c (λ _, gsl_rpc_get_data_params);
     try_ret (mret ret)
       (try_ret (gsl_rpc_recv c max_size interruptible)
          ('(ret, (recv_opcode, _)) ← on_recv c (λ _, gsl_rpc_get_call_params);
           try_ret (mret ret)
             (mret (if recv_opcode =? opcode then 0 else - EINVAL))))).

Definition gsl_rpc_transact (opcode : Z) (c : ptr) : HM Z :=
  ret ← gsl_rpc_transact_ext opcode 0 c false;
  mret (if ret =? - EINTR then - EINVAL else ret).

Definition gsl_rpc_transact_interrruptible (opcode : Z) (c : ptr) : HM Z :=
  ret ← gsl_rpc_transact_ext opcode 0 c true;
  (if ret =? - EINTR
   then set_channel c (λ ch, ch <| ch_busy := false |> <| ch_wait_retry := true |>)
   else set_channel c (λ ch, ch <| ch_wait_retry := false |>)) ;;
  mret ret.

(** ** Handshakes *)

(** The string up to its NUL; strscpy copies what fits and leaves the rest of the
    destination alone. *)
Fixpoint c_string (s : list Z) : list Z :=
  match s with
  | [] => []
  | b :: s => if b =? 0 then [] else b :: c_string s
  end.

Definition strscpy (dst src : list Z) : list Z :=
  let str := take (length dst - 1) (c_string src) in
  str ++ 0 :: drop (S (length str)) dst.

(** struct handshake_params_t and struct handshake_params_v2_t; [stack] is what the
    local variable holds before. *)
Definition handshake_params (version pid uid : Z) (name stack : list Z) : list Z :=
  let name := strscpy (take RPC_CLIENT_NAME_SIZE (drop 16 stack)) name in
  params (u32s [g_client_type; g_client_version; pid] ++ name ++
          (if version =? 2 then le_bytes 4 uid else [])).

(** The versions that are left to try, in order; the value of the server. *)
Fixpoint handshake_loop (c : ptr) (versions : list Z) (rval : Z) : HM (Z * option Z) :=
  match versions with
  | [] => mret (0, Some rval)
  | handshake_version :: versions =>
      try_ret (hgsl_rpc_parcel_reset c)
        (name ← gets hy_client_name;
         pid ← gets hy_client_pid;
         stack ← ask hab_stack;
         uid ← ask hab_uid;
         try_ret (send_args c [Blob (handshake_params handshake_version pid uid name stack)])
           (try_ret (gsl_rpc_transact_ext RPC_HANDSHAKE handshake_version c false)
              (try_val (recv_int32 c) (λ rval,
                 if rval =? GSL_SUCCESS then mret (0, Some rval)
                 else handshake_loop c versions rval))))
  end.

Definition rpc_handshake (c : ptr) : HM Z :=
  '(ret, rval) ← handshake_loop c [2; 1] GSL_FAILURE;
  if (ret =? 0) && bool_decide (rval = Some GSL_SUCCESS) then
    try_val (recv_int32 c) (λ conn_id,
      modify (λ s, s <| hy_conn_id := conn_id |>) ;;
      try_val (recv_int32 c) (λ server_type,
        try_val (recv_int32 c) (λ server_mode, mret 0)))
  else mret ret.

Definition rpc_sub_handshake (c : ptr) : HM Z :=
  try_ret (hgsl_rpc_parcel_reset c)
    (pid ← gets hy_client_pid;
     try_ret (send_args c [Blob (params (u32s [pid; sizeof_gsl_memdesc_t]))])
       (try_ret (gsl_rpc_transact_ext RPC_SUB_HANDSHAKE 1 c false)
          (try_val (recv_int32 c) (λ rval,
             if negb (rval =? GSL_SUCCESS) then mret (- EINVAL)
             else try_val (recv_int32 c) (λ server_allow_direct_writes, mret 0))))).

(** ** Opening and closing channels *)

Definition gsl_hab_close (socket : Z) : HM unit := log (HabClose socket).

(** The memory of the channel is released at the end. *)
Definition hgsl_hyp_close_channel (c : ptr) : HM unit :=
  ch ← channel c;
  when (negb (ch_socket ch =? HAB_INVALID_HANDLE))
    ('(ret, _) ← try_ret (A := Z * option Z) (hgsl_rpc_parcel_reset c)
                   (try_ret (gsl_rpc_transact RPC_DISCONNECT c) (recv_int32 c));
     gsl_hab_close (ch_socket ch) ;;
     set_channel c (λ ch, ch <| ch_socket := HAB_INVALID_HANDLE |>)) ;;
  on_send c (λ _, gsl_rpc_parcel_free) ;;
  on_recv c (λ _, gsl_rpc_parcel_free) ;;
  when (0 <=? ch_id ch) (modify (λ s, s <| hy_idr ::= delete (ch_id ch) |>)) ;;
  modify (λ s, s <| hy_channels ::= delete c |>).

(** A channel out of hgsl_zalloc, with the fields set at once. *)
Definition blank_payload : gsl_hab_payload := mk_payload 0 0 0 None.

Definition blank_channel (id : Z) : hgsl_hab_channel_t :=
  {| ch_socket := HAB_INVALID_HANDLE; ch_id := id; ch_wait_retry := false; ch_busy := false;
     ch_send_buf := blank_payload; ch_recv_buf := blank_payload |}.

(** The handshakes of a new channel: the first of its process asks for the
    connection, on a socket of its own.  The return code and first_handshake. *)
Definition open_channel (c : ptr) : HM (Z * bool) :=
  conn_id ← gets hy_conn_id;
  '(ret, first_handshake) ←
    (if conn_id =? 0 then
       '(ret, socket) ← hgsl_rpc_connect;
       if negb (ret =? 0) then mret (ret, false)
       else
         set_channel c (λ ch, ch <| ch_socket := socket |>) ;;
         ret ← rpc_handshake c;
         gsl_hab_close socket ;;
         set_channel c (λ ch, ch <| ch_socket := HAB_INVALID_HANDLE |>) ;;
         mret (ret, ret =? 0)
     else mret (0, false));
  if negb (ret =? 0) then mret (ret, first_handshake)
  else
    '(ret, socket) ← hgsl_rpc_connect;
    if negb (ret =? 0) then mret (ret, first_handshake)
    else
      set_channel c (λ ch, ch <| ch_socket := socket |>) ;;
      ret ← rpc_sub_handshake c;
      when (negb (ret =? 0))
        (gsl_hab_close socket ;;
         set_channel c (λ ch, ch <| ch_socket := HAB_INVALID_HANDLE |>)) ;;
      mret (ret, first_handshake).

Definition hgsl_rpc_create_channel : HM (Z * option ptr) :=
  allocated ← ask hab_zalloc;
  if negb allocated then mret (- ENOMEM, None)
  else
    c ← gets (λ s, fresh (dom (hy_channels s)));
    idr ← gets hy_idr;
    id ← ask (λ t, hab_idr_alloc t idr);
    modify (λ s, s <| hy_channels ::= <[c := blank_channel id]> |>) ;;
    '(ret, first_handshake) ←
      (if id <? 0 then mret (id, false)
       else
         modify (λ s, s <| hy_idr ::= <[id := c]> |>) ;;
         ret ← hgsl_rpc_parcel_init c;
         if negb (ret =? 0) then mret (ret, false) else open_channel c);
    if ret =? 0 then mret (0, Some c)
    else
      hgsl_hyp_close_channel c ;;
      if (first_handshake : bool)
      then modify (λ s, s <| hy_conn_id := 0 |>) ;; mret (- EAGAIN, None)
      else mret (ret, None).

(** ** The pool *)

(** list_del of the node of [c], whichever list it is in. *)
Definition list_del (c : ptr) : HM unit :=
  modify (λ s, s <| hy_free ::= filter (λ c', c' ≠ c) |>
                 <| hy_busy ::= filter (λ c', c' ≠ c) |>).

Definition hgsl_hyp_channel_pool_put_unsafe (c : option ptr) : HM unit :=
  match c with
  | None => mret tt
  | Some c =>
      set_channel c (λ ch, ch <| ch_busy := false |>) ;;
      list_del c ;;
      modify (λ s, s <| hy_free ::= (λ l, l ++ [c]) |>)
  end.

Definition hgsl_hyp_channel_pool_put (c : option ptr) : HM unit :=
  hgsl_hyp_channel_pool_put_unsafe c.

Definition hgsl_hyp_channel_pool_get_by_id (id : Z) : HM (Z * option ptr) :=
  if negb (0 <? id) then mret (- EINVAL, None)
  else
    o ← gets (λ s, hy_idr s !! id);
    match o with
    | None => mret (- EINVAL, None)
    | Some c =>
        ch ← channel c;
        if ch_wait_retry ch then mret (0, Some c) else mret (- EINVAL, None)
    end.

Definition hgsl_hyp_channel_pool_get (id : Z) : HM (Z * option ptr) :=
  '(ret, c) ←
    (if negb (id =? 0) then hgsl_hyp_channel_pool_get_by_id id
     else
       free ← gets hy_free;
       '(ret, c) ←
         (match free with
          | [] => hgsl_rpc_create_channel
          | c :: _ => list_del c ;; mret (0, Some c)
          end);
       match c with
       | Some c' =>
           when (ret =? 0) (modify (λ s, s <| hy_busy ::= (λ l, l ++ [c']) |>)) ;;
           mret (ret, c)
       | None => mret (ret, c)
       end);
  match c with
  | None => mret (ret, None)
  | Some c =>
      set_channel c (λ ch, ch <| ch_busy := true |>) ;;
      if id =? 0 then
        ret ← hgsl_rpc_parcel_reset c;
        when (negb (ret =? 0)) (hgsl_hyp_channel_pool_put (Some c)) ;;
        mret (ret, Some c)
      else mret (0, Some c)
  end.

Definition hgsl_hyp_channel_pool_init (client_pid : Z) (client_name : list Z) : HM Z :=
  modify (λ s, s <| hy_free := [] |> <| hy_busy := [] |> <| hy_conn_id := 0 |>
                 <| hy_client_name ::= (λ dst, strscpy dst client_name) |>
                 <| hy_client_pid := client_pid |> <| hy_idr := ∅ |>) ;;
  mret 0.

Definition hgsl_hyp_init := hgsl_hyp_channel_pool_init.

(** The channels that wait for a retry go back to the free ones. *)
Definition hgsl_hyp_put_waiting_channel : HM unit :=
  busy ← gets hy_busy;
  for_each busy (λ c,
    ch ← channel c;
    when (negb (ch_busy ch))
      (set_channel c (λ ch, ch <| ch_wait_retry := false |>) ;;
       hgsl_hyp_channel_pool_put_unsafe (Some c))).

(** One look at the busy channels by hgsl_hyp_channel_pool_close: false when some are
    left, so that it sleeps and looks again; otherwise the free ones are closed. *)
Definition hgsl_hyp_channel_pool_close : HM bool :=
  hgsl_hyp_put_waiting_channel ;;
  busy ← gets hy_busy;
  if negb (bool_decide (busy = [])) then mret false
  else
    free ← gets hy_free;
    for_each free (λ c, list_del c ;; hgsl_hyp_close_channel c) ;;
    modify (λ s, s <| hy_free := [] |> <| hy_busy := [] |> <| hy_conn_id := 0 |>
                   <| hy_client_name ::= (λ l, replicate (length l) 0) |>
                   <| hy_client_pid := 0 |> <| hy_idr := ∅ |>) ;;
    mret true.

(** The looks of one close, at most [n] of them. *)
Fixpoint channel_pool_close_looks (n : nat) : HM bool :=
  match n with
  | O => mret false
  | S n =>
      closed ← hgsl_hyp_channel_pool_close;
      if (closed : bool) then mret true else channel_pool_close_looks n
  end.

Definition hgsl_hyp_close := channel_pool_close_looks.

(** * Specification *)

(** The messages among some events. *)
Definition sends (l : list hab_event) : list (list Z) :=
  omap (λ e, match e with HabSend _ data => Some data | _ => None end) l.

(** A part of a call: it only touches its channel, which stays the same channel, and
    sends some of the messages [ms], in order; any message when that is None. *)
Definition allowed (ms : option (list (list Z))) (l : list hab_event) : Prop :=
  match ms with Some ms => sends l `sublist_of` ms | None => True end.

Definition ms_app (ms1 ms2 : option (list (list Z))) : option (list (list Z)) :=
  match ms1, ms2 with Some ms1, Some ms2 => Some (ms1 ++ ms2) | _, _ => None end.

Record step_on (c : ptr) (ms : option (list (list Z))) (s s' : hgsl_hyp_priv_t) : Prop := {
  so_free : hy_free s' = hy_free s;
  so_busy : hy_busy s' = hy_busy s;
  so_idr : hy_idr s' = hy_idr s;
  so_name : hy_client_name s' = hy_client_name s;
  so_pid : hy_client_pid s' = hy_client_pid s;
  so_others : ∀ c', c' ≠ c → hy_channels s' !! c' = hy_channels s !! c';
  so_chan : ∀ ch, hy_channels s !! c = Some ch →
    ∃ ch', hy_channels s' !! c = Some ch' ∧ ch_id ch' = ch_id ch ∧ ch_busy ch' = ch_busy ch;
  so_log : ∃ l, hy_log s' = hy_log s ++ l ∧ allowed ms l }.

(** From a channel with [P], [m] ends with its result and the channel in [Q]. *)
Definition hoare {A} (c : ptr) (P : hgsl_hab_channel_t → Prop) (ms : option (list (list Z)))
    (m : HM A) (Q : A → hgsl_hab_channel_t → Prop) : Prop :=
  ∀ s ch, hy_channels s !! c = Some ch → P ch →
  ∃ a s' ch', m s = Some (a, s') ∧ step_on c ms s s' ∧
    hy_channels s' !! c = Some ch' ∧ Q a ch'.

(** * Lemmas *)

Lemma sends_app l1 l2 : sends (l1 ++ l2) = sends l1 ++ sends l2.
Proof. apply omap_app. Qed.

Lemma allowed_app ms1 ms2 l1 l2 :
  allowed ms1 l1 → allowed ms2 l2 → allowed (ms_app ms1 ms2) (l1 ++ l2).
Proof.
  destruct ms1, ms2; cbn; try done. rewrite sends_app. apply sublist_app.
Qed.

Lemma allowed_quiet ms l : sends l = [] → allowed ms l.
Proof. intros E. destruct ms; [|done]. cbn. rewrite E. apply sublist_nil_l. Qed.

Definition ms_le (ms ms' : option (list (list Z))) : Prop :=
  ∀ l, allowed ms l → allowed ms' l.

Lemma ms_le_none ms : ms_le ms None.
Proof. done. Qed.

Lemma ms_le_refl ms : ms_le ms ms.
Proof. by intros l. Qed.

Lemma ms_le_nil ms : ms_le no_sends ms.
Proof.
  intros l Hl. destruct ms as [ms|]; [|done]. cbn in *. etransitivity; [exact Hl|].
  apply sublist_nil_l.
Qed.

Lemma step_on_refl c s : step_on c no_sends s s.
Proof.
  constructor; eauto. exists []. rewrite app_nil_r. split; [done|constructor].
Qed.

Lemma step_on_any c ms s s' : step_on c ms s s' → step_on c None s s'.
Proof. intros [? ? ? ? ? ? ? (l & ? & ?)]. constructor; [done..|by exists l]. Qed.

Lemma step_on_trans c ms1 ms2 s1 s2 s3 :
  step_on c ms1 s1 s2 → step_on c ms2 s2 s3 → step_on c (ms_app ms1 ms2) s1 s3.
Proof.
  intros [? ? ? ? ? Ho Hc (l1 & E1 & S1)] [? ? ? ? ? Ho' Hc' (l2 & E2 & S2)].
  constructor; try congruence.
  - intros c' Hn. by rewrite Ho', Ho.
  - intros ch Hch. destruct (Hc ch Hch) as (ch1 & Hc1 & ? & ?).
    destruct (Hc' ch1 Hc1) as (ch2 & Hc2 & ? & ?). exists ch2. split_and!; congruence.
  - exists (l1 ++ l2). rewrite E2, E1, (assoc_L app). split; [done|].
    by apply allowed_app.
Qed.

Lemma hoare_ret {A} c (P : _ → Prop) (a : A) (Q : A → _ → Prop) :
  (∀ ch, P ch → Q a ch) → hoare c P no_sends (mret a) Q.
Proof. intros HQ s ch Hc HP. exists a, s, ch. eauto using step_on_refl. Qed.

Lemma hoare_bind {A B} c P ms1 ms2 (m : HM A) (k : A → HM B) Q R :
  hoare c P ms1 m Q → (∀ a, hoare c (Q a) ms2 (k a) R) → hoare c P (ms_app ms1 ms2) (m ≫= k) R.
Proof.
  intros Hm Hk s ch Hc HP. destruct (Hm s ch Hc HP) as (a & s1 & ch1 & E1 & Hs1 & Hc1 & HQ).
  destruct (Hk a s1 ch1 Hc1 HQ) as (b & s2 & ch2 & E2 & Hs2 & Hc2 & HR).
  exists b, s2, ch2. rewrite (bind_run _ _ _ _ _ E1). eauto using step_on_trans.
Qed.

Lemma hoare_mono {A} c (P P' : _ → Prop) ms ms' (m : HM A) (Q Q' : A → _ → Prop) :
  hoare c P ms m Q → (∀ ch, P' ch → P ch) → (∀ a ch, Q a ch → Q' a ch) →
  ms_le ms ms' → hoare c P' ms' m Q'.
Proof.
  intros Hm HP HQ Hms s ch Hc HP'. destruct (Hm s ch Hc (HP ch HP')) as
    (a & s' & ch' & E & [? ? ? ? ? ? ? (l & ? & ?)] & ? & ?).
  exists a, s', ch'. split_and!; [done| |done|by apply HQ].
  constructor; [done..|]. exists l. split; [done|]. by apply Hms.
Qed.

Lemma hoare_pure {A} c (φ : Prop) P ms (m : HM A) Q :
  (φ → hoare c P ms m Q) → hoare c (λ ch, φ ∧ P ch) ms m Q.
Proof. intros Hm s ch Hc [Hφ HP]. exact (Hm Hφ s ch Hc HP). Qed.

Lemma hoare_if {A} c P ms (b : bool) (m1 m2 : HM A) Q :
  hoare c P ms m1 Q → hoare c P ms m2 Q → hoare c P ms (if b then m1 else m2) Q.
Proof. by destruct b. Qed.

(** [if (ret) goto out]: what the failure leaves behind is [F]. *)
Lemma hoare_try_ret {A} `{OfRet A} c P ms1 ms2 (m : HM Z) (k : HM A) (P' F : _ → Prop) Q :
  hoare c P ms1 m (λ ret ch, if decide (ret = 0) then P' ch else F ch) →
  (∀ ret ch, ret ≠ 0 → F ch → Q (of_ret ret) ch) →
  hoare c P' ms2 k Q → hoare c P (ms_app ms1 ms2) (try_ret m k) Q.
Proof.
  intros Hm HF Hk. eapply hoare_bind; [exact Hm|]. intros ret. cbn.
  destruct (decide (ret = 0)) as [->|Hr].
  - done.
  - rewrite (proj2 (Z.eqb_neq _ _) Hr).
    eapply hoare_mono; [apply hoare_ret, (λ ch, HF ret ch Hr)|done|done|apply ms_le_nil].
Qed.

Lemma hoare_try_val {V A} `{OfRet A} c P ms1 ms2 (m : HM (Z * option V)) (k : V → HM A)
    (P' F : _ → Prop) Q :
  hoare c P ms1 m (λ r ch, match r.2 with Some v => P' ch | None => F ch end) →
  (∀ ret ch, F ch → Q (of_ret ret) ch) →
  (∀ v, hoare c P' ms2 (k v) Q) → hoare c P (ms_app ms1 ms2) (try_val m k) Q.
Proof.
  intros Hm HF Hk. eapply hoare_bind; [exact Hm|]. intros [ret [v|]]; cbn; [done|].
  eapply hoare_mono; [apply hoare_ret, (λ ch, HF ret ch)|done|done|apply ms_le_nil].
Qed.

(** ** Steps *)

Lemma hab_ask_run {A} (q : nat → A) s : ask q s = Some (q (hy_clock s), s <| hy_clock ::= S |>).
Proof. done. Qed.

Lemma channel_run c s ch : hy_channels s !! c = Some ch → channel c s = Some (ch, s).
Proof. intros E. unfold channel, mbind, M_bind, gets. by rewrite E. Qed.

(** An update of the channel and the clock, with some events. *)
Lemma step_on_update c ms s s' ch ch' l :
  hy_channels s !! c = Some ch → ch_id ch' = ch_id ch → ch_busy ch' = ch_busy ch →
  allowed ms l →
  s' = s <| hy_channels ::= <[c := ch']> |> <| hy_log ::= (λ l0, l0 ++ l) |>
         <| hy_clock := hy_clock s' |> →
  step_on c ms s s' ∧ hy_channels s' !! c = Some ch'.
Proof.
  intros Hc Hid Hb Hl ->. cbn. split; [|by rewrite lookup_insert_eq].
  constructor; cbn; try done.
  - intros c' Hn. by rewrite lookup_insert_ne.
  - intros ch0 [= <-]%(λ E, eq_trans (eq_sym Hc) E). exists ch'.
    by rewrite lookup_insert_eq.
  - eauto.
Qed.

Lemma hoare_set_channel c (P : _ → Prop) f (Q : unit → _ → Prop) :
  (∀ ch, P ch → ch_id (f ch) = ch_id ch ∧ ch_busy (f ch) = ch_busy ch ∧ Q tt (f ch)) →
  hoare c P no_sends (set_channel c f) Q.
Proof.
  intros Hf s ch Hc HP. destruct (Hf ch HP) as (? & ? & HQ).
  exists tt, (s <| hy_channels ::= <[c := f ch]> |>), (f ch).
  split; [unfold set_channel; by rewrite (bind_run _ _ _ _ _ (channel_run c s ch Hc))|].
  assert (s <| hy_channels ::= <[c := f ch]> |> =
    s <| hy_channels ::= <[c := f ch]> |> <| hy_log ::= (λ l0, l0 ++ []) |>
      <| hy_clock := hy_clock s |>) as E by (cbn; rewrite app_nil_r; by destruct s).
  by destruct (step_on_update c no_sends s _ ch (f ch) [] Hc ltac:(done) ltac:(done)
    ltac:(constructor) E).
Qed.

Lemma hoare_ask {A} c (P : _ → Prop) (q : nat → A) (Q : A → _ → Prop) :
  (∀ t ch, P ch → Q (q t) ch) → hoare c P no_sends (ask q) Q.
Proof.
  intros HQ s ch Hc HP. eexists _, _, ch. split; [apply hab_ask_run|]. split_and!; [|done|by apply HQ].
  constructor; cbn; eauto. exists []. rewrite app_nil_r. split; [done|constructor].
Qed.

Lemma hoare_log c (P : _ → Prop) e ms :
  allowed ms [e] → hoare c P ms (log e) (λ _, P).
Proof.
  intros Hs s ch Hc HP. eexists _, _, ch. split; [reflexivity|]. split_and!; [|done|done].
  constructor; cbn; eauto.
Qed.

Lemma hoare_gets {A} c (P : _ → Prop) (f : hgsl_hyp_priv_t → A) :
  hoare c P no_sends (gets f) (λ _, P).
Proof. intros s ch Hc HP. eexists _, _, ch. split; [reflexivity|]. eauto using step_on_refl. Qed.

Lemma hoare_channel c (P : _ → Prop) : hoare c P no_sends (channel c) (λ a ch, a = ch ∧ P ch).
Proof.
  intros s ch Hc HP. eexists _, _, ch. split; [by apply channel_run|]. eauto using step_on_refl.
Qed.

Lemma hoare_conn c (P : _ → Prop) k :
  hoare c P no_sends (modify (λ s, s <| hy_conn_id := k |>)) (λ _, P).
Proof.
  intros s ch Hc HP. eexists _, _, ch. split; [reflexivity|]. split_and!; [|done|done].
  constructor; cbn; eauto. exists []. rewrite app_nil_r. split; [done|constructor].
Qed.
(** ** Buffers *)

Definition malloc_ok (malloc : Z → option (list Z)) : Prop :=
  ∀ n mem, 0 ≤ n → malloc n = Some mem → Z.of_nat (length mem) = n.

Lemma hoare_on_send_at {A} c (P : _ → Prop) (m : _ → M gsl_hab_payload A) (Q : A → _ → Prop) :
  (∀ t ch, P ch →
     ∃ a p, m (hab_malloc t) (ch_send_buf ch) = Some (a, p) ∧ Q a (ch <| ch_send_buf := p |>)) →
  hoare c P no_sends (on_send c m) Q.
Proof.
  intros Hm. unfold on_send.
  eapply (hoare_bind c P no_sends no_sends); [by apply hoare_ask with
    (Q := λ f ch, (∃ t, f = hab_malloc t) ∧ P ch); intros t ch ?; split; [by exists t|]|].
  intros malloc. eapply (hoare_bind c _ no_sends no_sends); [apply hoare_channel|]. intros ch0. cbn beta.
  intros s ch Hc (-> & (t & ->) & HP). destruct (Hm t ch HP) as (a & p & E & HQ).
  rewrite (bind_run _ _ s (a, p) s) by (by rewrite E).
  assert (hoare c (λ ch', ch' = ch) no_sends
    (set_channel c (λ ch, ch <| ch_send_buf := p |>) ;; mret a) Q) as Hs.
  { eapply (hoare_bind c _ no_sends no_sends _ _ (λ _, Q a)); [apply hoare_set_channel; by intros ? ->|].
    intros []. by apply hoare_ret. }
  exact (Hs s ch Hc eq_refl).
Qed.

Lemma hoare_on_send {A} c (P : _ → Prop) (m : _ → M gsl_hab_payload A) (Q : A → _ → Prop) :
  (∀ malloc ch, malloc_ok malloc → P ch →
     ∃ a p, m malloc (ch_send_buf ch) = Some (a, p) ∧ Q a (ch <| ch_send_buf := p |>)) →
  hoare c P no_sends (on_send c m) Q.
Proof. intros Hm. apply hoare_on_send_at. intros t ch HP. apply Hm; [exact (hab_malloc_size t)|done]. Qed.

Lemma hoare_on_recv {A} c (P : _ → Prop) (m : _ → M gsl_hab_payload A) (Q : A → _ → Prop) :
  (∀ malloc ch, malloc_ok malloc → P ch →
     ∃ a p, m malloc (ch_recv_buf ch) = Some (a, p) ∧ Q a (ch <| ch_recv_buf := p |>)) →
  hoare c P no_sends (on_recv c m) Q.
Proof.
  intros Hm. unfold on_recv.
  eapply (hoare_bind c P no_sends no_sends); [by apply hoare_ask with (Q := λ f ch, malloc_ok f ∧ P ch);
    intros t ch ?; split; [exact (hab_malloc_size t)|]|].
  intros malloc. eapply (hoare_bind c _ no_sends no_sends); [apply hoare_channel|]. intros ch0. cbn beta.
  intros s ch Hc (-> & Hmal & HP). destruct (Hm malloc ch Hmal HP) as (a & p & E & HQ).
  rewrite (bind_run _ _ s (a, p) s) by (by rewrite E).
  assert (hoare c (λ ch', ch' = ch) no_sends
    (set_channel c (λ ch, ch <| ch_recv_buf := p |>) ;; mret a) Q) as Hs.
  { eapply (hoare_bind c _ no_sends no_sends _ _ (λ _, Q a)); [apply hoare_set_channel; by intros ? ->|].
    intros []. by apply hoare_ret. }
  exact (Hs s ch Hc eq_refl).
Qed.

(** Accesses inside the memory of a buffer. *)
Lemma recv_ok_mem p : recv_ok p →
  ∃ mem, hp_data p = Some mem ∧ length mem = 4096%nat ∧ hp_data_size p = 4096 ∧
    16 ≤ hp_data_pos p ≤ 4096.
Proof.
  intros [(pre & rest & [Hd Hpos Hsz Hh Hr]) Es]. exists (pre ++ rest).
  unfold PARCEL_SIZE in *. split_and!; [done| |done|done|]; rewrite ?length_app in *; lia.
Qed.

Lemma recv_ok_of p mem :
  hp_data p = Some mem → length mem = 4096%nat → hp_data_size p = 4096 →
  16 ≤ hp_data_pos p ≤ 4096 → recv_ok p.
Proof.
  intros Hd Hl Hs Hp. split; [|done].
  exists (take (Z.to_nat (hp_data_pos p)) mem), (drop (Z.to_nat (hp_data_pos p)) mem).
  constructor; rewrite ?take_drop, ?length_take; unfold PARCEL_SIZE in *; try done; lia.
Qed.

Lemma read_at_some p mem off n :
  hp_data p = Some mem → 0 ≤ off → 0 ≤ n → off + n ≤ Z.of_nat (length mem) →
  ∃ l, read_at off n p = Some (l, p) ∧ length l = Z.to_nat n.
Proof.
  intros Hd Ho Hn Hl. unfold read_at. rewrite (bind_run _ _ p p p), Hd by done. cbn.
  destruct (peek_Some mem (Z.to_nat off) (Z.to_nat n)) as (l & El & Ll); [lia|].
  exists l. rewrite (bind_run _ _ p mem p), El by done. done.
Qed.

Lemma read_u32_some p mem off :
  hp_data p = Some mem → 0 ≤ off → off + 4 ≤ Z.of_nat (length mem) →
  ∃ v, read_u32_at off p = Some (v, p).
Proof.
  intros Hd Ho Hl. unfold read_u32_at.
  destruct (read_at_some p mem off 4) as (l & E & _); [done..|].
  exists (le_value l). by rewrite (bind_run _ _ _ _ _ E).
Qed.

(** A read that ends before the end of the buffer, checksum included. *)
Lemma read_arg_some type size p :
  recv_ok p → 0 ≤ size → hp_data_pos p + size + 20 ≤ 4096 →
  ∃ ret v p', read_arg type size p = Some ((ret, v), p') ∧ recv_ok p' ∧
    hp_data_pos p ≤ hp_data_pos p' ≤ hp_data_pos p + size + 20 ∧
    (∀ l, v = Some l → ret = 0 ∧ length l = Z.to_nat size) ∧ (v = None → ret ≠ 0).
Proof.
  intros Hp Hsz Hend. destruct (recv_ok_mem p Hp) as (mem & Hd & Hl & Es & Hpos).
  unfold read_arg, gsl_rpc_get_arg_ptr, gsl_rpc_header_size, FOOTER_SIZE.
  set (k := λ r : Z * Z, _). unfold mbind at 1, M_bind at 1.
  rewrite (bind_run _ _ p p p) by done.
  rewrite (u64_small (hp_data_pos p + size + 16)) by (unfold is_u64; lia).
  rewrite (proj2 (Z.ltb_ge _ _)) by lia.
  destruct (read_u32_some p mem (hp_data_pos p)) as (v1 & E1); [done|lia..|].
  destruct (read_u32_some p mem (hp_data_pos p + 4)) as (v2 & E2); [done|lia..|].
  destruct (read_u32_some p mem (hp_data_pos p + 12)) as (v3 & E3); [done|lia..|].
  rewrite (bind_run _ _ _ _ _ E1), (bind_run _ _ _ _ _ E2), (bind_run _ _ _ _ _ E3).
  destruct (_ && _); [|subst k; cbn; eexists _, _, p; split; [done|]; split_and!; [done|lia..|done|done]].
  set (p' := p <| hp_data_pos := u64 (hp_data_pos p + size + 16 + 4) |>).
  assert (Hpos' : hp_data_pos p' = hp_data_pos p + size + 20).
  { cbn. rewrite u64_small; [lia|]. unfold is_u64. lia. }
  assert (Hp' : recv_ok p') by (apply (recv_ok_of p' mem); [done..|lia]).
  rewrite (bind_run _ _ p tt p') by done.
  destruct (read_u32_some p' mem (hp_data_pos p + size + 16)) as (v4 & E4); [done|lia..|].
  rewrite (bind_run _ _ _ _ _ E4). unfold mret, M_ret. subst k. cbv beta iota.
  destruct (_ =? v4).
  - destruct (read_at_some p' mem (hp_data_pos p + 16) size) as (l & E5 & Ll); [done|lia..|].
    change (0 =? 0) with true. cbv iota. rewrite (bind_run _ _ _ _ _ E5).
    eexists _, _, p'. split; [done|]. split_and!; [done|lia..| |done]. by intros ? [= <-].
  - eexists _, _, p'. split; [done|]. split_and!; [done|lia..|done|done].
Qed.

(** The state of a channel after its receive buffer has changed. *)
Lemma reading_recv w n ch p :
  usable w ch → recv_ok p → hp_data_pos p ≤ n → reading_at w n (ch <| ch_recv_buf := p |>).
Proof. intros [? ? ?] ? ?. by constructor. Qed.

Section reads.
Context {V : Type} (c : ptr) (type size n : Z) (f : list Z → V).

Lemma hoare_read m :
  m = ('(ret, v) ← read_arg type size; mret (ret, f <$> v)) →
  0 ≤ size → n + size + 20 ≤ 4096 →
  hoare c (reading n) no_sends (on_recv c (λ _, m)) (λ _, reading (n + size + 20)).
Proof.
  intros -> Hs Hn. apply hoare_on_recv. intros malloc ch _ [Hi Hp].
  destruct (read_arg_some type size (ch_recv_buf ch)) as (ret & v & p' & E & Hp' & Hpos & _);
    [apply Hi|done|lia|].
  eexists _, p'. split; [by rewrite (bind_run _ _ _ _ _ E)|]. apply reading_recv; [done..|lia].
Qed.
End reads.

Lemma hoare_recv_int32 c n :
  n + 24 ≤ 4096 → hoare c (reading n) no_sends (recv_int32 c) (λ _, reading (n + 24)).
Proof.
  intros Hn. replace (n + 24) with (n + 4 + 20) in * by lia. by eapply hoare_read.
Qed.

Lemma hoare_recv_uint32 c n :
  n + 24 ≤ 4096 → hoare c (reading n) no_sends (recv_uint32 c) (λ _, reading (n + 24)).
Proof.
  intros Hn. replace (n + 24) with (n + 4 + 20) in * by lia. by eapply hoare_read.
Qed.

Lemma hoare_recv_uint64 c n :
  n + 28 ≤ 4096 → hoare c (reading n) no_sends (recv_uint64 c) (λ _, reading (n + 28)).
Proof.
  intros Hn. replace (n + 28) with (n + 8 + 20) in * by lia. by eapply hoare_read.
Qed.

Lemma hoare_recv_blob c n len :
  0 ≤ len → n + len + 20 ≤ 4096 →
  hoare c (reading n) no_sends (recv_blob c len) (λ _, reading (n + len + 20)).
Proof.
  intros Hl Hn. apply hoare_on_recv. intros malloc ch _ [Hi Hp].
  destruct (read_arg_some GSL_RPC_BLOB_DATA len (ch_recv_buf ch))
    as (ret & v & p' & E & Hp' & Hpos & _); [apply Hi|done|lia|].
  eexists _, p'. split; [exact E|]. apply reading_recv; [done..|lia].
Qed.
(** ** Calls *)

Lemma idle_send_buf ch p : idle ch → parcel_ok p → idle (ch <| ch_send_buf := p |>).
Proof. intros [? ? ?] ?. by constructor. Qed.

Lemma idle_recv_buf ch p : idle ch → recv_ok p → idle (ch <| ch_recv_buf := p |>).
Proof. intros [? ? ?] ?. by constructor. Qed.

(** A channel that can be used can be reset: both buffers have memory. *)
Lemma hoare_reset_ok c P :
  (∀ ch, P ch → idle ch) →
  hoare c P no_sends (hgsl_rpc_parcel_reset c) (λ ret ch, ret = 0 ∧ writing [] ch).
Proof.
  intros HP. unfold hgsl_rpc_parcel_reset.
  eapply (hoare_try_ret c P no_sends no_sends _ _
    (λ ch, idle ch ∧ ∃ rest, parcel_at (ch_send_buf ch) (replicate 16 0 ++ encode []) rest)
    (λ _, False)); [|done|].
  - apply hoare_on_send. intros _ ch _ Hch%HP.
    destruct (reset_run (ch_send_buf ch) (idle_send ch Hch)) as (p & E & Hp & _).
    exists 0, p. split; [done|]. rewrite decide_True by done. split.
    + apply idle_send_buf; [done|]. by eexists _, _.
    + eexists. exact Hp.
  - apply hoare_on_recv. intros _ ch _ [Hi Hat].
    destruct (idle_recv ch Hi) as [Hok Hsz].
    destruct (reset_run (ch_recv_buf ch) Hok) as (p & E & Hp & Hsz').
    exists 0, p. split; [done|]. split; [done|]. constructor; [|done|].
    + apply idle_recv_buf; [done|]. split; [by eexists _, _|congruence].
    + cbn. by rewrite (pa_pos _ _ _ Hp).
Qed.

Lemma hoare_reset c P :
  (∀ ch, P ch → idle ch) →
  hoare c P no_sends (hgsl_rpc_parcel_reset c)
    (λ ret ch, if decide (ret = 0) then writing [] ch else idle ch).
Proof.
  intros HP. eapply hoare_mono; [by apply hoare_reset_ok|done| |apply ms_le_refl].
  by intros ret ch [-> ?].
Qed.

Lemma encode_app l1 l2 : encode (l1 ++ l2) = encode l1 ++ encode l2.
Proof. apply bind_app. Qed.

(** Messages stay below 4 GB. *)
Definition fits_message (args : list arg) : Prop :=
  Z.of_nat (length (encode args)) < 4294967296.

Lemma hoare_send_args c args args0 :
  fits_message (args0 ++ args) →
  hoare c (writing args0) no_sends (send_args c args)
    (λ ret ch, if decide (ret = 0) then writing (args0 ++ args) ch else idle ch).
Proof.
  revert args0. induction args as [|a args IH]; intros args0 Hs; cbn [send_args].
  { apply hoare_ret. intros ch ?. by rewrite app_nil_r. }
  assert (fits_message ((args0 ++ [a]) ++ args)) as Hs' by (by rewrite <-(assoc_L app)).
  eapply (hoare_try_ret c _ no_sends no_sends _ _ (writing (args0 ++ [a])) idle).
  - apply hoare_on_send. intros malloc ch Hm [Hi (rest & Hat) Hr].
    unfold fits_message in Hs. rewrite encode_app, encode_cons, !length_app, frame_length in Hs.
    destruct (write_arg_run malloc Hm a _ _ _ Hat) as [(E & _)|(p & rest' & E & Hp)].
    + rewrite (pa_pos _ _ _ Hat). rewrite length_app, length_replicate. unfold small. lia.
    + eexists _, _. split; [exact E|]. rewrite decide_False by done.
      apply idle_send_buf; [done|]. apply Hi.
    + eexists 0, p. split; [exact E|]. rewrite decide_True by done. constructor.
      * apply idle_send_buf; [done|]. by eexists _, _.
      * exists rest'. cbn. rewrite encode_app, encode_cons, (assoc_L app).
        by rewrite app_nil_r in *.
      * done.
  - intros ret ch Hr Hi. by rewrite decide_False.
  - rewrite (app_assoc args0 [a] args : args0 ++ a :: args = _). by apply IH.
Qed.

(** A channel with a complete message in its send buffer. *)
Record sealed (m : list Z) (ch : hgsl_hab_channel_t) : Prop := {
  sealed_idle : idle ch;
  sealed_at : ∃ rest, parcel_at (ch_send_buf ch) m rest;
  sealed_recv : hp_data_pos (ch_recv_buf ch) = 16 }.

Lemma hoare_gsl_rpc_send c m :
  hoare c (sealed m) (Some [m]) (gsl_rpc_send c) (λ _, reading 16).
Proof.
  unfold gsl_rpc_send. eapply (hoare_bind c _ no_sends (Some [m])); [apply hoare_channel|].
  intros ch s ch' Hc (<- & [Hi (rest & [Hd Hpos _ _ _]) Hr]).
  rewrite (bind_run _ _ s (m ++ rest) s) by (by rewrite Hd).
  rewrite (bind_run _ _ s m s).
  2:{ pose proof (peek_app [] m rest) as E. cbn in E. rewrite Hpos, Nat2Z.id. by rewrite E. }
  assert (hoare c (λ ch', ch' = ch) (Some [m])
    (log (HabSend (ch_socket ch) m) ;; ask (λ t, hab_send t (ch_socket ch) m))
    (λ _, reading 16)) as Hs.
  { eapply (hoare_bind c _ (Some [m]) no_sends _ _ (λ _ ch', ch' = ch)).
    { apply hoare_log. unfold allowed, sends. cbn. reflexivity. }
    intros []. apply hoare_ask. intros t ? ->. constructor; [done|lia]. }
  exact (Hs s ch Hc eq_refl).
Qed.

Lemma hoare_gsl_rpc_recv w c i :
  hoare c (reading_at w 16) no_sends (gsl_rpc_recv c 4096 i) (λ _, reading_at w 16).
Proof.
  unfold gsl_rpc_recv. eapply (hoare_bind c _ no_sends no_sends); [apply hoare_channel|]. intros ch0.
  eapply (hoare_bind c _ no_sends no_sends _ _ (λ _, reading_at w 16)).
  { apply (hoare_mono c (reading_at w 16) _ no_sends no_sends _ (λ _, reading_at w 16));
      [by apply hoare_log, allowed_quiet|by intros ch [_ ?]|done|apply ms_le_nil]. }
  intros [].
  eapply (hoare_bind c _ no_sends no_sends _ _ (λ r ch, reading_at w 16 ch ∧ (length r.2 ≤ 4096)%nat)).
  { apply hoare_ask. intros t ch ?. split; [done|].
    pose proof (hab_recv_size t (ch_socket ch0) 4096 i). lia. }
  intros [ret data]. cbn [snd].
  eapply (hoare_bind c _ no_sends no_sends _ _ (λ _, reading_at w 16)).
  { apply hoare_on_recv. intros _ ch _ [[Hi Hp] Hl].
    destruct (recv_ok_mem _ (idle_recv ch Hi)) as (mem & Hd & Lm & Es & Hpos).
    eexists _, _. split.
    - unfold write_at. rewrite (bind_run _ _ (ch_recv_buf ch) _ _ eq_refl), Hd. cbn [of_option].
      rewrite (bind_run _ _ (ch_recv_buf ch) mem _ eq_refl), memcpy_split by (cbn; lia).
      reflexivity.
    - apply reading_recv; [done| |done]. eapply recv_ok_of; [done| |done..].
      cbn. rewrite !length_app, length_take, length_drop. lia. }
  intros _. by apply hoare_ret.
Qed.

Lemma hoare_get_call_params w c :
  hoare c (reading_at w 16) no_sends (on_recv c (λ _, gsl_rpc_get_call_params)) (λ r ch, r.1 = 0 ∧ reading_at w 16 ch).
Proof.
  apply hoare_on_recv. intros _ ch _ [Hi Hp].
  destruct (recv_ok_mem _ (idle_recv ch Hi)) as (mem & Hd & Lm & Es & Hpos).
  destruct (read_u32_some _ mem 4 Hd) as (v1 & E1); [lia..|].
  destruct (read_u32_some _ mem 8 Hd) as (v2 & E2); [lia..|].
  eexists (0, (v1, v2)), _. split; [|split; [done|]].
  - unfold gsl_rpc_get_call_params. by rewrite (bind_run _ _ _ _ _ E1), (bind_run _ _ _ _ _ E2).
  - apply reading_recv; [done|apply Hi|done].
Qed.

(** The reply to a message, once it is on its way. *)
Definition transact_reply (opcode : Z) (c : ptr) (interruptible : bool) : HM Z :=
  '(ret, (_, max_size)) ← on_recv c (λ _, gsl_rpc_get_data_params);
  try_ret (mret ret)
    (try_ret (gsl_rpc_recv c max_size interruptible)
       ('(ret, (recv_opcode, _)) ← on_recv c (λ _, gsl_rpc_get_call_params);
        try_ret (mret ret)
          (mret (if recv_opcode =? opcode then 0 else - EINVAL)))).

Lemma hoare_transact_reply w opcode c i :
  hoare c (reading_at w 16) no_sends (transact_reply opcode c i) (λ _, reading_at w 16).
Proof.
  unfold transact_reply.
  eapply (hoare_bind c _ no_sends no_sends _ _ (λ r ch, (∃ pos, r = (0, (pos, 4096))) ∧ reading_at w 16 ch)).
  { apply hoare_on_recv. intros _ ch _ [Hi Hp].
    destruct (idle_recv ch Hi) as [Hok Hsz]. eexists _, _. split; [reflexivity|]. split.
    - eexists. by rewrite Hsz.
    - by apply reading_recv. }
  intros [ret [pos max_size]] s ch Hc [(pos' & [= -> -> ->]) Hr].
  cut (hoare c (reading_at w 16) no_sends (try_ret (gsl_rpc_recv c 4096 i)
    ('(ret, (recv_opcode, _)) ← on_recv c (λ _, gsl_rpc_get_call_params);
        try_ret (mret ret)
          (mret (if recv_opcode =? opcode then 0 else - EINVAL)))) (λ _, reading_at w 16)).
  { intros Hs. exact (Hs s ch Hc Hr). }
  eapply (hoare_try_ret c _ no_sends no_sends _ _ (reading_at w 16) (reading_at w 16)); [|done|].
  { eapply hoare_mono; [apply hoare_gsl_rpc_recv|done| |apply ms_le_refl]. intros ret ?. by destruct (decide _). }
  eapply (hoare_bind c _ no_sends no_sends); [apply hoare_get_call_params|].
  intros [ret [op v]] s1 ch1 Hc1 [E Hr1]. cbn in E. subst ret.
  exact (hoare_ret c (reading_at w 16) (if op =? opcode then 0 else - EINVAL) (λ _, reading_at w 16)
    (λ _ H, H) s1 ch1 Hc1 Hr1).
Qed.

(** A transaction: at most one message, the one that the arguments make. *)
Lemma hoare_transact_ext opcode version c args i :
  fits_message args →
  hoare c (writing args) (Some [message opcode version args])
    (gsl_rpc_transact_ext opcode version c i) (λ _, reading 16).
Proof.
  intros Hs. unfold gsl_rpc_transact_ext. fold (transact_reply opcode c i).
  eapply (hoare_bind c _ no_sends (Some [message opcode version args])); [apply hoare_channel|]. intros ch0 s ch Hc [-> Hw].
  rewrite (idle_retry ch (writing_idle _ _ Hw)). cbn [andb]. revert s ch Hc Hw.
  change (hoare c (writing args) (Some [message opcode version args])
    (try_ret (on_send c (λ _, gsl_rpc_set_call_params opcode version) ;;
       try_ret (on_send c gsl_rpc_finalize)
         ('(ret, _) ← on_send c (λ _, gsl_rpc_get_data_params);
          try_ret (mret ret) (gsl_rpc_send c)))
       (transact_reply opcode c i)) (λ _, reading 16)).
  eapply (hoare_try_ret c _ (Some [message opcode version args]) no_sends _ _ (reading 16) (reading 16));
    [|done|apply hoare_transact_reply].
  set (h := le_bytes 4 GSL_HAB_CALL_MAGIC ++ le_bytes 4 opcode ++ le_bytes 4 version).
  set (P := λ ch, idle ch ∧
    (∃ rest, parcel_at (ch_send_buf ch) (h ++ replicate 4 0 ++ encode args) rest) ∧
    hp_data_pos (ch_recv_buf ch) = 16).
  eapply (hoare_bind c _ no_sends (Some [message opcode version args]) _ _ (λ _, P)).
  { apply hoare_on_send. intros _ ch _ [Hi (rest & Hat) Hr].
    change (replicate 16 0) with (replicate 12 0 ++ replicate 4 0) in Hat.
    rewrite <-(assoc_L app) in Hat.
    destruct (set_call_params_run opcode version _ _ _ _ Hat eq_refl) as (p & E & Hp).
    eexists _, p. split; [exact E|]. split_and!; [|by exists rest|done].
    apply idle_send_buf; [done|]. by eexists _, _. }
  intros _.
  apply (hoare_mono c P P (Some [message opcode version args]) _ _ (λ _, reading 16)); [|done| |apply ms_le_refl].
  2:{ intros ret ch ?. by destruct (decide _). }
  eapply (hoare_try_ret c _ no_sends (Some [message opcode version args]) _ _ (sealed (message opcode version args)) (reading 16)); [|done|].
  { apply hoare_on_send. intros malloc ch Hm (Hi & (rest & Hat) & Hr).
    unfold fits_message in Hs.
    destruct (finalize_run malloc Hm _ _ _ _ _ Hat eq_refl eq_refl) as [(E & _)|(p & rest' & E & Hp)].
    - rewrite (pa_pos _ _ _ Hat). rewrite !length_app. change (length h) with 12%nat.
      cbn [length replicate]. unfold small. lia.
    - eexists _, _. split; [exact E|]. rewrite decide_False by done. constructor; [|cbn; lia].
      apply idle_send_buf; [done|apply Hi].
    - eexists 0, p. split; [exact E|]. rewrite decide_True by done. constructor; [|exists rest'|done].
      + apply idle_send_buf; [done|]. by eexists _, _.
      + rewrite u32_small in Hp by (unfold is_u32; lia).
        unfold message, call_header. fold h. by rewrite <-(assoc_L app h). }
  eapply (hoare_bind c _ no_sends (Some [message opcode version args]) _ _ (λ r ch, r.1 = 0 ∧ sealed (message opcode version args) ch)).
  { apply hoare_on_send. intros _ ch _ Hse. eexists _, _. split; [reflexivity|]. split; [done|].
    by destruct ch. }
  intros [ret [pos max_size]] s ch Hc [E Hse]. cbn in E. subst ret.
  exact (hoare_gsl_rpc_send c _ s ch Hc Hse).
Qed.

Lemma hoare_transact opcode c args :
  fits_message args →
  hoare c (writing args) (Some [message opcode 0 args]) (gsl_rpc_transact opcode c) (λ _, reading 16).
Proof.
  intros Hs. eapply (hoare_bind c _ (Some [_]) no_sends); [by apply hoare_transact_ext|].
  intros ret. by apply hoare_ret.
Qed.
(** ** Handshakes *)

Lemma hoare_any {A} c P ms (m : HM A) Q : hoare c P ms m Q → hoare c P None m Q.
Proof. intros Hm. by eapply hoare_mono; [exact Hm|..]. Qed.

Lemma reading_idle_of n ch : reading n ch → idle ch.
Proof. by intros [? _]. Qed.

Lemma strscpy_length dst src : (length (strscpy dst src) ≤ length dst + 1)%nat.
Proof.
  unfold strscpy. rewrite length_app. cbn. rewrite length_drop, length_take. lia.
Qed.

Lemma fits_blob data : (length data ≤ 4000)%nat → fits_message [Blob data].
Proof. intros Hl. unfold fits_message. cbn -[frame]. rewrite app_nil_r, frame_length. lia. Qed.

Lemma fits_nil : fits_message [].
Proof. done. Qed.

Lemma handshake_params_length v pid uid name t :
  (length (handshake_params v pid uid name (hab_stack t)) ≤ 200)%nat.
Proof.
  unfold handshake_params, params, u32s. set (n := strscpy _ _).
  assert (length n ≤ 65)%nat.
  { subst n. etransitivity; [apply strscpy_length|]. rewrite length_take, length_drop.
    unfold RPC_CLIENT_NAME_SIZE. lia. }
  rewrite !length_app, le_bytes_length. cbn [mbind list_bind length app].
  destruct (v =? 2); rewrite ?length_app, ?le_bytes_length; cbn [length]; lia.
Qed.

(** A write of some arguments and the call, on a channel that has just been reset. *)
Lemma hoare_call {A} `{OfRet A} c args opcode version i (k : HM A) (Q : A → _ → Prop) :
  fits_message args → (∀ ret ch, idle ch → Q (of_ret ret) ch) →
  hoare c (reading 16) None k Q →
  hoare c (writing []) None
    (try_ret (send_args c args) (try_ret (gsl_rpc_transact_ext opcode version c i) k)) Q.
Proof.
  intros Hf HQ Hk. eapply (hoare_try_ret c _ no_sends None _ _ (writing args) idle); [|eauto|].
  { by apply (hoare_send_args c args []). }
  eapply (hoare_try_ret c _ (Some _) None _ _ (reading 16) (reading 16)); [| |exact Hk].
  - eapply hoare_mono; [by apply hoare_transact_ext|done| |apply ms_le_refl].
    intros ret ch ?. by destruct (decide _).
  - intros ret ch _ [? _]. by apply HQ.
Qed.

(** A read of a number, with what is left of the buffer. *)
Lemma hoare_try_int32 {A} `{OfRet A} c n (k : Z → HM A) (Q : A → _ → Prop) ms :
  n + 24 ≤ 4096 → (∀ ret ch, idle ch → Q (of_ret ret) ch) →
  (∀ v, hoare c (reading (n + 24)) ms (k v) Q) →
  hoare c (reading n) ms (try_val (recv_int32 c) k) Q.
Proof.
  intros Hn HQ Hk. apply (hoare_mono c (reading n) _ (ms_app no_sends ms) _ _ Q);
    [|done|done|destruct ms; apply ms_le_refl].
  eapply (hoare_try_val c _ no_sends ms _ _ (reading (n + 24)) (reading (n + 24))); [| |exact Hk].
  - eapply hoare_mono; [by apply hoare_recv_int32|done| |apply ms_le_refl].
    intros [ret [v|]] ch; done.
  - intros ret ch [? _]. by apply HQ.
Qed.

Lemma hoare_handshake_loop c versions rval P :
  (∀ ch, P ch → idle ch) → rval ≠ GSL_SUCCESS →
  hoare c P None (handshake_loop c versions rval)
    (λ r ch, idle ch ∧ (r.2 = Some GSL_SUCCESS → reading 40 ch)).
Proof.
  revert rval P. induction versions as [|v versions IH]; intros rval P HP Hv; cbn [handshake_loop].
  { eapply hoare_any, hoare_ret. intros ch ?%HP. split; [done|]. by intros [= ->]. }
  assert (∀ ret ch, idle ch → idle ch ∧ ((ret : Z, @None Z).2 = Some GSL_SUCCESS → reading 40 ch))
    as Hout by (intros ret ch ?; split; [done|by intros [=]]).
  eapply (hoare_try_ret c _ no_sends None _ _ (writing []) idle); [by apply hoare_reset|by intros; apply Hout|].
  eapply (hoare_bind c _ no_sends None); [apply hoare_gets|]. intros name. cbn beta.
  eapply (hoare_bind c _ no_sends None); [apply hoare_gets|]. intros pid. cbn beta.
  eapply (hoare_bind c _ no_sends None _ _
    (λ stack ch, (∃ t, stack = hab_stack t) ∧ writing [] ch)); [apply hoare_ask; eauto|].
  intros stack. 
  eapply (hoare_bind c _ no_sends None _ _
    (λ _ ch, (∃ t, stack = hab_stack t) ∧ writing [] ch)); [by apply hoare_ask|].
  intros uid. apply hoare_pure. intros [t ->].
  apply hoare_call; [|by intros; apply Hout|].
  { apply fits_blob. pose proof (handshake_params_length v pid uid name t). lia. }
  apply hoare_try_int32; [lia|by intros; apply Hout|]. intros rval'.
  destruct (Z.eqb_spec rval' GSL_SUCCESS) as [->|Hr].
  - eapply hoare_any, hoare_ret. intros ch [? ?]. split; [done|]. intros _. by constructor.
  - apply IH; [apply reading_idle_of|done].
Qed.

Lemma hoare_rpc_handshake c P :
  (∀ ch, P ch → idle ch) → hoare c P None (rpc_handshake c) (λ _, idle).
Proof.
  intros HP. unfold rpc_handshake.
  eapply (hoare_bind c _ None None); [by apply hoare_handshake_loop|]. intros [ret rval]. cbn [snd].
  destruct (bool_decide_reflect (rval = Some GSL_SUCCESS)) as [->|Hr]; rewrite ?andb_true_r, ?andb_false_r.
  2:{ eapply hoare_any, hoare_ret. by intros ch [? _]. }
  destruct (ret =? 0); [|eapply hoare_any, hoare_ret; by intros ch [? _]].
  apply (hoare_mono c (reading 40) _ None None _ (λ _, idle)); [|intros ch [_ Hch]; by apply Hch|done|apply ms_le_refl].
  apply hoare_try_int32; [lia|done|]. intros conn_id.
  eapply (hoare_bind c _ no_sends None); [apply hoare_conn|]. intros []. cbn beta.
  apply hoare_try_int32; [lia|done|]. intros server_type.
  apply hoare_try_int32; [lia|done|]. intros server_mode.
  eapply hoare_any, hoare_ret, reading_idle_of.
Qed.

Lemma hoare_rpc_sub_handshake c P :
  (∀ ch, P ch → idle ch) → hoare c P None (rpc_sub_handshake c) (λ _, idle).
Proof.
  intros HP. unfold rpc_sub_handshake.
  eapply (hoare_try_ret c _ no_sends None _ _ (writing []) idle); [by apply hoare_reset|done|].
  eapply (hoare_bind c _ no_sends None); [apply hoare_gets|]. intros pid. cbn beta.
  apply hoare_call; [by apply fits_blob; cbn; lia|done|].
  apply hoare_try_int32; [lia|done|]. intros rval.
  destruct (negb _); [eapply hoare_any, hoare_ret, reading_idle_of|].
  apply hoare_try_int32; [lia|done|]. intros allow. eapply hoare_any, hoare_ret, reading_idle_of.
Qed.

Lemma hoare_set_socket c socket :
  hoare c idle no_sends (set_channel c (λ ch, ch <| ch_socket := socket |>)) (λ _, idle).
Proof. apply hoare_set_channel. intros ch [? ? ?]. by split_and!. Qed.

Lemma hoare_hab_close c P socket : hoare c P no_sends (gsl_hab_close socket) (λ _, P).
Proof. by apply hoare_log, allowed_quiet. Qed.

Lemma hoare_connect c P : hoare c P no_sends hgsl_rpc_connect (λ _, P).
Proof.
  unfold hgsl_rpc_connect. eapply (hoare_bind c _ no_sends no_sends); [apply hoare_gets|].
  intros conn_id. by apply hoare_ask.
Qed.

Lemma hoare_open_channel c : hoare c idle None (open_channel c) (λ _, idle).
Proof.
  unfold open_channel.
  eapply (hoare_bind c _ no_sends None); [apply hoare_gets|]. intros conn_id. cbn beta.
  eapply (hoare_bind c _ None None _ _ (λ _, idle)).
  { apply hoare_if; [|by eapply hoare_any, hoare_ret].
    eapply (hoare_bind c _ no_sends None); [apply hoare_connect|]. intros [ret socket]. cbn beta.
    apply hoare_if; [by eapply hoare_any, hoare_ret|].
    eapply (hoare_bind c _ no_sends None); [apply hoare_set_socket|]. intros []. cbn beta.
    eapply (hoare_bind c _ None None); [by apply hoare_rpc_handshake|]. intros ret'. cbn beta.
    eapply (hoare_bind c _ no_sends None); [apply hoare_hab_close|]. intros []. cbn beta.
    eapply (hoare_bind c _ no_sends None); [apply hoare_set_socket|]. intros [].
    by eapply hoare_any, hoare_ret. }
  intros [ret first]. cbn beta. apply hoare_if; [by eapply hoare_any, hoare_ret|].
  eapply (hoare_bind c _ no_sends None); [apply hoare_connect|]. intros [ret' socket]. cbn beta.
  apply hoare_if; [by eapply hoare_any, hoare_ret|].
  eapply (hoare_bind c _ no_sends None); [apply hoare_set_socket|]. intros []. cbn beta.
  eapply (hoare_bind c _ None None); [by apply hoare_rpc_sub_handshake|]. intros ret2. cbn beta.
  eapply (hoare_bind c _ None None _ _ (λ _, idle)); [|intros []; by eapply hoare_any, hoare_ret].
  apply (hoare_if c idle None (negb (ret2 =? 0)) _ (mret tt)); [|by eapply hoare_any, hoare_ret].
  eapply (hoare_bind c _ no_sends None); [apply hoare_hab_close|]. intros [].
  eapply hoare_any, hoare_set_socket.
Qed.
(** ** Closing *)

Lemma hoare_free_bufs c (P : _ → Prop) :
  hoare c P no_sends
    (on_send c (λ _, gsl_rpc_parcel_free) ;; on_recv c (λ _, gsl_rpc_parcel_free)) (λ _ _, True).
Proof.
  eapply (hoare_bind c _ no_sends no_sends _ _ (λ _ _, True)).
  { apply hoare_on_send. intros _ ch _ _. by eexists _, _. }
  intros _. apply hoare_on_recv. intros _ ch _ _. by eexists _, _.
Qed.

Lemma hoare_disconnect c :
  hoare c idle None
    (try_ret (A := Z * option Z) (hgsl_rpc_parcel_reset c)
       (try_ret (gsl_rpc_transact RPC_DISCONNECT c) (recv_int32 c))) (λ _, idle).
Proof.
  eapply (hoare_try_ret c _ no_sends None _ _ (writing []) idle); [by apply hoare_reset|done|].
  eapply (hoare_try_ret c _ (Some _) None _ _ (reading 16) idle); [|done|].
  { eapply hoare_mono; [apply (hoare_transact RPC_DISCONNECT c []), fits_nil|done| |apply ms_le_refl].
    intros ret ch ?. destruct (decide _); [done|by apply (reading_idle_of 16)]. }
  eapply hoare_any, hoare_mono; [apply (hoare_recv_int32 c 16); lia|done| |apply ms_le_refl].
  intros r. apply reading_idle_of.
Qed.

(** Closing a channel that is idle, or that has no socket yet, removes it and its
    identifier, and closes its socket. *)
Lemma close_channel_run s c ch :
  hy_channels s !! c = Some ch → idle ch ∨ ch_socket ch = HAB_INVALID_HANDLE →
  ∃ s', hgsl_hyp_close_channel c s = Some (tt, s') ∧
    hy_free s' = hy_free s ∧ hy_busy s' = hy_busy s ∧
    hy_channels s' = delete c (hy_channels s) ∧
    hy_idr s' = (if 0 <=? ch_id ch then delete (ch_id ch) (hy_idr s) else hy_idr s) ∧
    ∃ l, hy_log s' = hy_log s ++ l ∧
      (ch_socket ch ≠ HAB_INVALID_HANDLE → HabClose (ch_socket ch) ∈ l).
Proof.
  intros Hc Hi. unfold hgsl_hyp_close_channel. rewrite (bind_run _ _ _ _ _ (channel_run _ _ _ Hc)).
  set (closing := when (negb (ch_socket ch =? HAB_INVALID_HANDLE)) _).
  assert (∃ s1, closing s = Some (tt, s1) ∧ step_on c None s s1 ∧
    ∃ l, hy_log s1 = hy_log s ++ l ∧
      (ch_socket ch ≠ HAB_INVALID_HANDLE → HabClose (ch_socket ch) ∈ l)) as (s1 & E1 & Hs1 & l1 & El1 & Hl1).
  { subst closing. destruct (Z.eqb_spec (ch_socket ch) HAB_INVALID_HANDLE) as [E|E].
    { exists s. split; [done|]. split; [eapply step_on_any, step_on_refl|].
      exists []. rewrite app_nil_r. split; [done|by intros []]. }
    destruct Hi as [Hi|]; [|done].
    destruct (hoare_disconnect c s ch Hc Hi) as ([ret v] & s2 & ch2 & E2 & Hs2 & Hc2 & _).
    cbn [negb when]. rewrite (bind_run _ _ _ _ _ E2).
    destruct (so_log _ _ _ _ Hs2) as (l2 & El2 & _).
    set (s3 := s2 <| hy_log ::= (λ l, l ++ [HabClose (ch_socket ch)]) |>).
    rewrite (bind_run _ _ s2 tt s3) by done.
    destruct (hoare_set_channel c (λ _, True) (λ ch, ch <| ch_socket := HAB_INVALID_HANDLE |>)
      (λ _ _, True) ltac:(done) s3 ch2 Hc2 I) as ([] & s4 & ch4 & E4 & Hs4 & _ & _).
    exists s4. split; [exact E4|]. split.
    - eapply (step_on_trans c None None); [exact Hs2|].
      eapply (step_on_trans c None no_sends); [|exact Hs4].
      destruct (hoare_hab_close c (λ _, True) (ch_socket ch) s2 ch2 Hc2 I)
        as (? & ? & ? & [= <- <-] & Hst & _ & _). by eapply step_on_any.
    - destruct (so_log _ _ _ _ Hs4) as (l4 & El4 & _).
      exists (l2 ++ [HabClose (ch_socket ch)] ++ l4). split; [|set_solver].
      rewrite El4. cbn. rewrite El2, <-!(assoc_L app). done. }
  rewrite (bind_run _ _ _ _ _ E1).
  destruct (so_chan _ _ _ _ Hs1 ch Hc) as (ch1 & Hc1 & _).
  destruct (hoare_free_bufs c (λ _, True) s1 ch1 Hc1 I) as (? & s2 & ch2 & E2 & Hs2 & _ & _).
  apply bind_Some in E2 as ([] & s2' & E2 & E2'). destruct x.
  rewrite (bind_run _ _ _ _ _ E2), (bind_run _ _ _ _ _ E2').
  pose proof (step_on_trans _ _ _ _ _ _ Hs1 Hs2) as Hs.
  destruct (so_log _ _ _ _ Hs2) as (l2 & El2 & _).
  set (s3 := if 0 <=? ch_id ch then s2 <| hy_idr ::= delete (ch_id ch) |> else s2).
  rewrite (bind_run _ _ s2 tt s3) by (subst s3; by destruct (0 <=? ch_id ch)).
  eexists. split; [reflexivity|].
  assert (hy_free s3 = hy_free s ∧ hy_busy s3 = hy_busy s ∧ hy_log s3 = hy_log s2 ∧
    hy_channels s3 = hy_channels s2 ∧
    hy_idr s3 = (if 0 <=? ch_id ch then delete (ch_id ch) (hy_idr s) else hy_idr s))
    as (Ef & Eb & El & Ec & Ei).
  { destruct Hs as [? ? Hidr _ _ _ _ _]. subst s3. destruct (0 <=? ch_id ch); cbn; by rewrite ?Hidr. }
  cbn. split_and!; [done|done| |done|].
  - rewrite Ec. apply map_eq. intros c'. destruct (decide (c' = c)) as [->|Hn].
    + by rewrite !lookup_delete_eq.
    + rewrite !lookup_delete_ne by done. by apply (so_others _ _ _ _ Hs).
  - exists (l1 ++ l2). rewrite El, El2, El1, (assoc_L app). split; [done|].
    intros Hne. apply elem_of_app. left. auto.
Qed.
End hyp.
