(* ===== verification/HypPool.v ===== *)
(** The pool of channels to the hypervisor (hgsl_hyp.c): its invariant, and that
    taking a channel, giving it back, opening and closing keep it. *)

From S2P Require Import Prelude.
From S2P Require Import Bytes.
From S2P Require Import Parcel.
From S2P Require Import Hyp.

(** * Specification *)

(** A channel whose call was interrupted while it waited for the reply. *)
Record waiting (ch : hgsl_hab_channel_t) : Prop := {
  waiting_send : parcel_ok (ch_send_buf ch);
  waiting_recv : recv_ok (ch_recv_buf ch);
  waiting_pos : hp_data_pos (ch_recv_buf ch) = 16;
  waiting_retry : ch_wait_retry ch = true;
  waiting_busy : ch_busy ch = false }.

(** Every channel is in one of the lists of the pool or among [held], once.  The free
    ones are idle; a busy one is in use or waits for a retry; identifiers lead to
    the channels that have them. *)
Record pool_inv (held : list ptr) (s : hgsl_hyp_priv_t) : Prop := {
  pi_nodup : NoDup (hy_free s ++ hy_busy s ++ held);
  pi_dom : ∀ c, c ∈ hy_free s ++ hy_busy s ++ held ↔ is_Some (hy_channels s !! c);
  pi_free : ∀ c ch, c ∈ hy_free s → hy_channels s !! c = Some ch →
    idle ch ∧ ch_busy ch = false;
  pi_busy : ∀ c ch, c ∈ hy_busy s → hy_channels s !! c = Some ch →
    ch_busy ch = true ∨ waiting ch;
  pi_idr : ∀ id c, hy_idr s !! id = Some c →
    0 < id ∧ ∃ ch, hy_channels s !! c = Some ch ∧ ch_id ch = id;
  pi_ids : ∀ c ch, hy_channels s !! c = Some ch → 0 < ch_id ch →
    hy_idr s !! ch_id ch = Some c;
  pi_pos : ∀ c ch, c ∈ hy_free s ++ hy_busy s → hy_channels s !! c = Some ch →
    0 < ch_id ch }.

(** * Lemmas *)

Section pool.
Context `{Hab}.

(** A step on a channel that is held, or busy and in use, keeps the invariant. *)
Lemma pool_step held c ms s s' ch :
  pool_inv held s → step_on c ms s s' → hy_channels s !! c = Some ch →
  c ∈ held ∨ c ∈ hy_busy s ∧ ch_busy ch = true → pool_inv held s'.
Proof.
  intros [Hn Hd Hf Hb Hi Hids Hp] [Ef Eb Ei _ _ Ho Hch _] Hc Hin.
  destruct (Hch ch Hc) as (ch' & Hc' & Eid & Ebusy).
  assert (c ∉ hy_free s) as Hnf.
  { intros Hcf. apply NoDup_app in Hn as (_ & Hn & _). apply (Hn c Hcf). set_solver. }
  constructor; rewrite ?Ef, ?Eb, ?Ei; try done.
  - intros c'. rewrite Hd. destruct (decide (c' = c)) as [->|Hne]; [by rewrite Hc, Hc'|].
    by rewrite Ho.
  - intros c' ch1 Hf1. destruct (decide (c' = c)) as [->|Hne]; [done|].
    rewrite Ho by done. by apply Hf.
  - intros c' ch1 Hb1. destruct (decide (c' = c)) as [->|Hne]; [|rewrite Ho by done; by apply Hb].
    rewrite Hc'. intros [= <-]. left. destruct Hin as [Hin|[_ ?]]; [|congruence].
    exfalso. apply NoDup_app in Hn as (_ & _ & Hn). apply NoDup_app in Hn as (_ & Hn & _).
    by apply (Hn c Hb1).
  - intros id c' Hid. destruct (Hi id c' Hid) as (? & ch1 & Hc1 & E1). split; [done|].
    destruct (decide (c' = c)) as [->|Hne]; [|rewrite Ho by done; eauto].
    exists ch'. split; [done|]. congruence.
  - intros c' ch1. destruct (decide (c' = c)) as [->|Hne]; [|rewrite Ho by done; by apply Hids].
    rewrite Hc'. intros [= <-]. rewrite Eid. by apply Hids.
  - intros c' ch1 Hin1. destruct (decide (c' = c)) as [->|Hne]; [|rewrite Ho by done; by apply Hp].
    rewrite Hc'. intros [= <-]. rewrite Eid. by apply (Hp c).
Qed.

(** A part of a call on such a channel. *)
Lemma pool_hoare {A} held c P ms (m : M hgsl_hyp_priv_t A) Q s ch :
  hoare c P ms m Q → pool_inv held s → hy_channels s !! c = Some ch → P ch →
  c ∈ held ∨ c ∈ hy_busy s ∧ ch_busy ch = true →
  ∃ a s' ch', m s = Some (a, s') ∧ pool_inv held s' ∧ step_on c ms s s' ∧
    hy_channels s' !! c = Some ch' ∧ Q a ch' ∧ ch_id ch' = ch_id ch ∧ ch_busy ch' = ch_busy ch.
Proof.
  intros Hm Hi Hc HP Hin. destruct (Hm s ch Hc HP) as (a & s' & ch' & E & Hs & Hc' & HQ).
  destruct (so_chan _ _ _ _ Hs ch Hc) as (ch2 & Hc2 & ? & ?). rewrite Hc' in Hc2.
  injection Hc2 as <-. exists a, s', ch'. split_and!; try done. by eapply pool_step.
Qed.

(** Other fields do not matter. *)
Lemma pool_inv_same held s s' :
  hy_free s' = hy_free s → hy_busy s' = hy_busy s → hy_idr s' = hy_idr s →
  hy_channels s' = hy_channels s → pool_inv held s → pool_inv held s'.
Proof. intros E1 E2 E3 E4 []. constructor; by rewrite ?E1, ?E2, ?E3, ?E4. Qed.

(** Taking a channel out of the lists, closing it, ends with the others. *)
Lemma pool_close_channel held s c ch :
  pool_inv (c :: held) s → hy_channels s !! c = Some ch →
  idle ch ∨ ch_socket ch = HAB_INVALID_HANDLE → 0 < ch_id ch ∨ ch_id ch < 0 →
  ∃ s', hgsl_hyp_close_channel c s = Some (tt, s') ∧ pool_inv held s' ∧
    hy_free s' = hy_free s ∧ hy_busy s' = hy_busy s ∧
    hy_channels s' = delete c (hy_channels s) ∧
    ∃ l, hy_log s' = hy_log s ++ l ∧
      (ch_socket ch ≠ HAB_INVALID_HANDLE → HabClose (ch_socket ch) ∈ l).
Proof.
  intros [Hn Hd Hf Hb Hi Hids Hpos] Hc Hcl Hid.
  destruct (close_channel_run s c ch Hc Hcl) as (s' & E & Ef & Eb & Ec & Ei & Hl).
  exists s'. split_and!; try done.
  assert ((c ∉ hy_free s ++ hy_busy s ++ held) ∧ NoDup (hy_free s ++ hy_busy s ++ held)) as [Hc1 Hn1].
  { assert (hy_free s ++ hy_busy s ++ c :: held ≡ₚ c :: hy_free s ++ hy_busy s ++ held) as Hp
      by (rewrite !(assoc_L app); symmetry; apply Permutation_middle).
    rewrite Hp in Hn. by apply NoDup_cons in Hn. }
  constructor; rewrite ?Ef, ?Eb, ?Ec; try done.
  - intros c'. destruct (decide (c' = c)) as [->|Hne].
    + rewrite lookup_delete_eq. split; [done|by intros []].
    + rewrite lookup_delete_ne, <-Hd by done. set_solver.
  - intros c' ch' Hin [? ?]%lookup_delete_Some. eauto.
  - intros c' ch' Hin [? ?]%lookup_delete_Some. eauto.
  - intros id c' Hid'.
    assert ((hy_idr s !! id = Some c') ∧ (0 ≤ ch_id ch → id ≠ ch_id ch)) as [Hid1 Hne].
    { rewrite Ei in Hid'. destruct (Z.leb_spec 0 (ch_id ch)); [|split; [done|lia]].
      apply lookup_delete_Some in Hid' as [? ?]. done. }
    destruct (Hi id c' Hid1) as (? & ch' & Hc' & Eid). split; [done|]. exists ch'.
    split; [|done]. rewrite lookup_delete_ne; [done|]. intros ->.
    rewrite Hc in Hc'. injection Hc' as ->. destruct Hid; [apply Hne; lia|lia].
  - intros c' ch' [Hne Hc']%lookup_delete_Some Hp. rewrite Ei.
    specialize (Hids c' ch' Hc' Hp) as Hids'. destruct (Z.leb_spec 0 (ch_id ch)); [|done].
    rewrite lookup_delete_ne; [done|]. intros Eid.
    rewrite <-Eid in Hids'. rewrite (Hids c ch Hc) in Hids' by lia. congruence.
  - intros c' ch' Hin [Hne Hc']%lookup_delete_Some. by apply (Hpos c').
Qed.
(** ** Opening *)

(** A channel that has no socket and waits for nothing: its buffers may be missing. *)
Definition blank (ch : hgsl_hab_channel_t) : Prop :=
  ch_socket ch = HAB_INVALID_HANDLE ∧ ch_wait_retry ch = false.

Lemma hoare_parcel_init c :
  hoare c blank no_sends (hgsl_rpc_parcel_init c)
    (λ ret ch, blank ch ∧ (ret = 0 → idle ch)).
Proof.
  assert (∀ malloc p, malloc_ok malloc → ∃ ret p', gsl_rpc_parcel_init malloc p = Some (ret, p') ∧
    (ret = 0 → recv_ok p')) as Hinit.
  { intros malloc p Hm. unfold gsl_rpc_parcel_init. destruct (malloc PARCEL_SIZE) as [mem|] eqn:E.
    - eexists 0, _. split; [reflexivity|]. intros _. specialize (Hm PARCEL_SIZE mem ltac:(done) E).
      unfold PARCEL_SIZE in *. eapply recv_ok_of;
        [reflexivity| |done|unfold gsl_rpc_parcel_get_data_offset, gsl_rpc_header_size; cbn; lia].
      rewrite length_replicate. lia.
    - eexists (- ENOMEM), _. split; [reflexivity|]. done. }
  unfold hgsl_rpc_parcel_init.
  eapply (hoare_try_ret c _ no_sends no_sends _ _
    (λ ch, blank ch ∧ parcel_ok (ch_send_buf ch)) blank).
  - apply hoare_on_send. intros malloc ch Hm Hb.
    destruct (Hinit malloc (ch_send_buf ch) Hm) as (ret & p & E & Hp). exists ret, p.
    split; [done|]. destruct (decide (ret = 0)) as [->|]; [|done]. split; [done|]. by apply Hp.
  - intros ret ch Hr Hb. split; [done|]. by intros ?%Hr.
  - apply hoare_on_recv. intros malloc ch Hm [Hb Hs].
    destruct (Hinit malloc (ch_recv_buf ch) Hm) as (ret & p & E & Hp). exists ret, p.
    split; [done|]. split; [done|]. intros ->. destruct Hb. by constructor; auto.
Qed.

(** A new channel that is held and has an identifier. *)
Lemma pool_inv_insert held s c id :
  pool_inv held s → hy_channels s !! c = None → 0 < id → hy_idr s !! id = None →
  pool_inv (c :: held)
    (s <| hy_channels ::= <[c := blank_channel id]> |> <| hy_idr ::= <[id := c]> |>).
Proof.
  intros [Hn Hd Hf Hb Hi Hids Hp] Hc Hid Hfree.
  assert (c ∉ hy_free s ++ hy_busy s ++ held) as Hc1 by (rewrite Hd, Hc; by intros []).
  constructor; cbn.
  - assert (hy_free s ++ hy_busy s ++ c :: held ≡ₚ c :: hy_free s ++ hy_busy s ++ held) as Hpm
      by (rewrite !(assoc_L app); symmetry; apply Permutation_middle).
    rewrite Hpm. by apply NoDup_cons.
  - intros c'. destruct (decide (c' = c)) as [->|Hne].
    + rewrite lookup_insert_eq. split; [done|set_solver].
    + rewrite lookup_insert_ne, <-Hd by done. set_solver.
  - intros c' ch Hin. rewrite lookup_insert_ne by set_solver. by apply Hf.
  - intros c' ch Hin. rewrite lookup_insert_ne by set_solver. by apply Hb.
  - intros id' c' [[<- <-]|[Hne Hid']]%lookup_insert_Some.
    + split; [done|]. eexists. by rewrite lookup_insert_eq.
    + destruct (Hi id' c' Hid') as (? & ch & Hc' & ?). split; [done|]. exists ch.
      rewrite lookup_insert_ne; [done|]. intros ->. congruence.
  - intros c' ch [[<- <-]|[Hne Hc']]%lookup_insert_Some Hpos.
    + cbn. by rewrite lookup_insert_eq.
    + specialize (Hids c' ch Hc' Hpos). rewrite lookup_insert_ne; [done|]. congruence.
  - intros c' ch Hin. rewrite lookup_insert_ne by set_solver. by apply Hp.
Qed.

(** What creating a channel does to the pool: a new channel, held by the caller, or
    none and the pool as it was. *)
Lemma create_channel_run s :
  pool_inv [] s →
  ∃ ret o s', hgsl_rpc_create_channel s = Some ((ret, o), s') ∧
    hy_free s' = hy_free s ∧ hy_busy s' = hy_busy s ∧
    (∀ c, c ∈ hy_busy s → hy_channels s' !! c = hy_channels s !! c) ∧
    (ret ≠ 0 ∧ o = None ∧ pool_inv [] s' ∨
     ret = 0 ∧ ∃ c ch, o = Some c ∧ pool_inv [c] s' ∧ hy_channels s' !! c = Some ch ∧
       idle ch ∧ ch_busy ch = false ∧ 0 < ch_id ch).
Proof.
  intros Hi. unfold hgsl_rpc_create_channel.
  rewrite (bind_run _ _ _ _ _ (hab_ask_run hab_zalloc s)).
  set (s1 := s <| hy_clock ::= S |>).
  assert (pool_inv [] s1) as Hi1 by (by apply (pool_inv_same [] s)).
  destruct (hab_zalloc (hy_clock s)); cbn [negb].
  2:{ eexists _, None, s1. split; [reflexivity|]. split_and!; [done..|]. by left. }
  set (c := fresh (dom (hy_channels s1))).
  rewrite (bind_run _ _ s1 c s1), (bind_run _ _ s1 (hy_idr s1) s1) by done.
  rewrite (bind_run _ _ _ _ _ (hab_ask_run (λ t, hab_idr_alloc t (hy_idr s1)) s1)).
  set (id := hab_idr_alloc (hy_clock s1) (hy_idr s1)).
  set (s2 := s1 <| hy_clock ::= S |>).
  set (s3 := s2 <| hy_channels ::= <[c := blank_channel id]> |>).
  rewrite (bind_run _ _ s2 tt s3) by done.
  assert (hy_channels s1 !! c = None) as Hc by (apply not_elem_of_dom, is_fresh).
  assert (∀ c', c' ∈ hy_busy s → c' ≠ c) as Hne.
  { intros c' Hin ->. destruct (proj1 (pi_dom _ _ Hi c)) as [ch Hch]; [set_solver|].
    cbn in Hc. congruence. }
  assert (hy_channels s3 !! c = Some (blank_channel id)) as Hc3 by (cbn; by rewrite lookup_insert_eq).
  destruct (Z.ltb_spec id 0) as [Hid|Hid].
  { rewrite (bind_run _ _ s3 (id, false) s3) by done. rewrite (proj2 (Z.eqb_neq id 0)) by lia.
    destruct (close_channel_run s3 c _ Hc3) as (s4 & E4 & Ef & Eb & Ec & Ei & _); [by right|].
    rewrite (bind_run _ _ _ _ _ E4). eexists _, None, s4. split; [reflexivity|].
    split_and!; [done..| |].
    { intros c' Hin%Hne. rewrite Ec, lookup_delete_ne by done. subst s3. cbn. by rewrite lookup_insert_ne. }
    left. split_and!; [lia|done|].
    cbn in Ei. rewrite (proj2 (Z.leb_gt 0 id)) in Ei by done.
    apply (pool_inv_same [] s1); try done. rewrite Ec. cbn. by rewrite delete_insert_id. }
  assert (0 < id) as Hid'.
  { pose proof (hab_idr_error (hy_clock s1) (hy_idr s1)). subst id. lia. }
  set (s4 := s3 <| hy_idr ::= <[id := c]> |>).
  assert (pool_inv [c] s4) as Hi4.
  { apply (pool_inv_insert [] s2 c id); [by apply (pool_inv_same [] s1)|done|done|].
    by apply hab_idr_fresh. }
  destruct (pool_hoare [c] c _ _ _ _ s4 _ (hoare_parcel_init c) Hi4 Hc3 ltac:(done) ltac:(left; set_solver))
    as (ret & s5 & ch5 & E5 & Hi5 & Hs5 & Hc5 & [Hbl Hidle] & Eid5 & Ebu5).
  assert (∃ r s6 ch6,
    (modify (λ s, s <| hy_idr ::= <[id := c]> |>) ;;
     ret ← hgsl_rpc_parcel_init c;
     if negb (ret =? 0) then mret (ret, false) else open_channel c) s3 = Some (r, s6) ∧
    pool_inv [c] s6 ∧ hy_free s6 = hy_free s ∧ hy_busy s6 = hy_busy s ∧
    hy_channels s6 !! c = Some ch6 ∧ (idle ch6 ∨ ch_socket ch6 = HAB_INVALID_HANDLE) ∧
    (r.1 = 0 → idle ch6) ∧ ch_busy ch6 = false ∧ ch_id ch6 = id ∧
    (∀ c', c' ∈ hy_busy s → hy_channels s6 !! c' = hy_channels s !! c'))
    as ([ret6 first] & s6 & ch6 & E6 & Hi6 & Ef6 & Eb6 & Hc6 & Hcl6 & Hok6 & Ebu6 & Eid6 & Hfr6).
  { rewrite (bind_run _ _ s3 tt s4), (bind_run _ _ _ _ _ E5) by done.
    assert (∀ c', c' ∈ hy_busy s → hy_channels s5 !! c' = hy_channels s !! c') as Hfr5.
    { intros c' Hin%Hne. rewrite (so_others _ _ _ _ Hs5) by done. cbn. by rewrite lookup_insert_ne. }
    destruct (Z.eqb_spec ret 0) as [->|Hr]; cbn [negb].
    - destruct (pool_hoare [c] c _ _ _ _ s5 _ (hoare_open_channel c) Hi5 Hc5 (Hidle eq_refl)
        ltac:(left; set_solver)) as (r & s6 & ch6 & E6 & Hi6 & Hs6 & Hc6 & Hok & Eid & Ebu).
      exists r, s6, ch6. split; [exact E6|].
      split_and!; [done|by rewrite (so_free _ _ _ _ Hs6), (so_free _ _ _ _ Hs5)|
        by rewrite (so_busy _ _ _ _ Hs6), (so_busy _ _ _ _ Hs5)|done|by left|done|by rewrite Ebu, Ebu5|by rewrite Eid, Eid5|].
      intros c' Hin. rewrite (so_others _ _ _ _ Hs6) by auto. auto.
    - exists (ret, false), s5, ch5. split; [done|].
      split_and!; [done|by rewrite (so_free _ _ _ _ Hs5)|by rewrite (so_busy _ _ _ _ Hs5)|done|right; apply Hbl|by intros ?%Hr|by rewrite Ebu5|done|done]. }
  rewrite (bind_run _ _ _ _ _ E6). destruct (Z.eqb_spec ret6 0) as [->|Hr].
  { eexists 0, (Some c), s6. split; [reflexivity|]. split_and!; [done..|]. right. split; [done|].
    exists c, ch6. split_and!; try done; [by apply Hok6|lia]. }
  destruct (pool_close_channel [] s6 c ch6 Hi6 Hc6 Hcl6 ltac:(lia))
    as (s7 & E7 & Hi7 & Ef7 & Eb7 & Ec7 & _).
  assert (∀ c', c' ∈ hy_busy s → hy_channels s7 !! c' = hy_channels s !! c') as Hfr7.
  { intros c' Hin. rewrite Ec7, lookup_delete_ne by (symmetry; auto). auto. }
  rewrite (bind_run _ _ _ _ _ E7).
  destruct first; eexists _, None, _; (split; [reflexivity|]); cbn;
    (split_and!; [congruence..|done|left]).
  - split_and!; [done..|]. by apply (pool_inv_same [] s7).
  - done.
Qed.
(** ** Moving channels between the lists *)

Definition without (c : ptr) (l : list ptr) : list ptr := filter (λ c', c' ≠ c) l.

Lemma without_id c l : c ∉ l → without c l = l.
Proof.
  induction l as [|x l IH]; intros Hc; [done|]. unfold without. rewrite filter_cons_True by set_solver.
  f_equal. apply IH. set_solver.
Qed.

Lemma without_head c l : c ∉ l → without c (c :: l) = l.
Proof. intros Hc. unfold without. rewrite filter_cons_False by naive_solver. by apply without_id. Qed.

Lemma without_snoc c l : c ∉ l → without c (l ++ [c]) = l.
Proof.
  intros Hc. unfold without. rewrite filter_app, filter_cons_False, app_nil_r by naive_solver.
  by apply without_id.
Qed.

Lemma elem_of_without c c' l : c' ∈ without c l ↔ c' ∈ l ∧ c' ≠ c.
Proof. unfold without. rewrite list_elem_of_filter. naive_solver. Qed.

(** The lists and the state of one channel change; the channels of the lists are the
    same ones. *)
Lemma pool_inv_move held held' s s' c ch ch' :
  pool_inv held s → hy_channels s !! c = Some ch →
  hy_channels s' = <[c := ch']> (hy_channels s) → hy_idr s' = hy_idr s →
  hy_free s' ++ hy_busy s' ++ held' ≡ₚ hy_free s ++ hy_busy s ++ held →
  ch_id ch' = ch_id ch → 0 < ch_id ch →
  (∀ c', c' ∈ hy_free s' → c' ≠ c → c' ∈ hy_free s) →
  (∀ c', c' ∈ hy_busy s' → c' ≠ c → c' ∈ hy_busy s) →
  (c ∈ hy_free s' → idle ch' ∧ ch_busy ch' = false) →
  (c ∈ hy_busy s' → ch_busy ch' = true ∨ waiting ch') →
  pool_inv held' s'.
Proof.
  intros [Hn Hd Hf Hb Hi Hids Hp] Hc Ec Ei Hperm Hid Hpos Hfr Hbu Hcf Hcb.
  constructor; rewrite ?Ei, ?Ec.
  - by rewrite Hperm.
  - intros c'. rewrite Hperm, Hd. destruct (decide (c' = c)) as [->|Hne].
    + by rewrite Hc, lookup_insert_eq.
    + by rewrite lookup_insert_ne.
  - intros c' ch1 Hin. destruct (decide (c' = c)) as [->|Hne].
    + rewrite lookup_insert_eq. intros [= <-]. by apply Hcf.
    + rewrite lookup_insert_ne by done. apply Hf. by apply Hfr.
  - intros c' ch1 Hin. destruct (decide (c' = c)) as [->|Hne].
    + rewrite lookup_insert_eq. intros [= <-]. by apply Hcb.
    + rewrite lookup_insert_ne by done. apply Hb. by apply Hbu.
  - intros id c' Hidr. destruct (Hi id c' Hidr) as (? & ch1 & Hc1 & ?). split; [done|].
    destruct (decide (c' = c)) as [->|Hne].
    + exists ch'. rewrite lookup_insert_eq. split; [done|]. congruence.
    + exists ch1. by rewrite lookup_insert_ne.
  - intros c' ch1. destruct (decide (c' = c)) as [->|Hne].
    + rewrite lookup_insert_eq. intros [= <-]. rewrite Hid. by apply Hids.
    + rewrite lookup_insert_ne by done. apply Hids.
  - intros c' ch1 Hin. destruct (decide (c' = c)) as [->|Hne].
    + rewrite lookup_insert_eq. intros [= <-]. congruence.
    + rewrite lookup_insert_ne by done. apply Hp.
      apply elem_of_app in Hin as [Hin|Hin]; apply elem_of_app; auto.
Qed.

Lemma without_perm c l : NoDup l → c ∈ l → l ≡ₚ without c l ++ [c].
Proof.
  intros Hn (l1 & l2 & ->)%list_elem_of_split.
  apply NoDup_app in Hn as (? & Hn & [Hc2 ?]%NoDup_cons).
  assert (c ∉ l1) as Hc1 by (intros ?; eapply Hn; [done|by left]).
  unfold without. rewrite filter_app, filter_cons_False by naive_solver.
  fold (without c l1) (without c l2). rewrite !without_id by done.
  rewrite <-(assoc_L app), (Permutation_app_comm l2). done.
Qed.

Lemma set_channel_run c f s ch :
  hy_channels s !! c = Some ch →
  set_channel c f s = Some (tt, s <| hy_channels ::= <[c := f ch]> |>).
Proof. intros Hc. unfold set_channel. by rewrite (bind_run _ _ _ _ _ (channel_run c s ch Hc)). Qed.

(** Giving back a channel that is idle. *)
Lemma pool_put_run s c ch :
  pool_inv [] s → c ∈ hy_free s ++ hy_busy s → hy_channels s !! c = Some ch → idle ch →
  ∃ s', hgsl_hyp_channel_pool_put (Some c) s = Some (tt, s') ∧ pool_inv [] s' ∧
    hy_free s' = without c (hy_free s) ++ [c] ∧ hy_busy s' = without c (hy_busy s) ∧
    hy_log s' = hy_log s ∧ (∀ c', c' ≠ c → hy_channels s' !! c' = hy_channels s !! c').
Proof.
  intros Hi Hin Hc Hid. pose proof Hi as [Hn Hd Hf Hb Hidr Hids Hp].
  unfold hgsl_hyp_channel_pool_put, hgsl_hyp_channel_pool_put_unsafe.
  rewrite (bind_run _ _ _ _ _ (set_channel_run c _ s ch Hc)).
  eexists. split; [reflexivity|]. split_and!; try done.
  2:{ intros c' Hne. cbn. by rewrite lookup_insert_ne. }
  rewrite app_nil_r in Hn.
  eapply (pool_inv_move [] [] s _ c ch); try done; cbn.
  - rewrite !app_nil_r.
    etransitivity; [|symmetry; apply (without_perm c _ Hn Hin)].
    unfold without. rewrite filter_app, <-!(assoc_L app).
    by rewrite (Permutation_app_comm [c]).
  - by apply (Hp c).
  - intros c' [?%elem_of_without|?]%elem_of_app ?; set_solver.
  - intros c' ?%elem_of_without. naive_solver.
  - intros _. destruct Hid. done.
  - intros ?%elem_of_without. naive_solver.
Qed.

(** The end of hgsl_hyp_channel_pool_get: the channel is in the busy list. *)
Definition pool_get_finish (c : ptr) : M hgsl_hyp_priv_t (Z * option ptr) :=
  ret ← hgsl_rpc_parcel_reset c;
  when (negb (ret =? 0)) (hgsl_hyp_channel_pool_put (Some c)) ;;
  mret (ret, Some c).

Lemma pool_get_finish_run s c ch busy :
  pool_inv [] s → hy_busy s = busy ++ [c] → hy_channels s !! c = Some ch → idle ch →
  ch_busy ch = true →
  ∃ s' ch', pool_get_finish c s = Some ((0, Some c), s') ∧ pool_inv [] s' ∧
    (∃ l, hy_log s' = hy_log s ++ l ∧ sends l = []) ∧
    (∀ c', c' ∈ busy → hy_channels s' !! c' = hy_channels s !! c') ∧
    hy_busy s' = busy ++ [c] ∧ hy_channels s' !! c = Some ch' ∧ writing [] ch' ∧
    ch_busy ch' = true.
Proof.
  intros Hi Eb Hc Hid Hbusy. unfold pool_get_finish.
  assert (c ∉ busy) as Hnb.
  { pose proof (pi_nodup _ _ Hi) as Hn. rewrite Eb in Hn. apply NoDup_app in Hn as (_ & _ & Hn).
    rewrite app_nil_r in Hn. apply NoDup_app in Hn as (_ & Hn & _). intros Hx.
    apply (Hn c Hx). by left. }
  destruct (pool_hoare [] c _ _ _ _ s ch (hoare_reset_ok c idle (λ _ H, H)) Hi Hc Hid
    ltac:(right; rewrite Eb; set_solver)) as (ret & s1 & ch1 & E1 & Hi1 & Hs1 & Hc1 & [-> HQ] & _ & Ebu).
  destruct (so_log _ _ _ _ Hs1) as (l & El & Hl). apply sublist_nil_r in Hl.
  rewrite (bind_run _ _ _ _ _ E1). exists s1, ch1.
  split; [done|]. split_and!; [done|by exists l| |by rewrite (so_busy _ _ _ _ Hs1)|done..|congruence].
  intros c' Hin. apply (so_others _ _ _ _ Hs1). by intros ->.
Qed.

(** Taking a channel: a free one or a new one, in use and reset, or none. *)
Lemma pool_get_run s :
  pool_inv [] s →
  ∃ ret o s', hgsl_hyp_channel_pool_get 0 s = Some ((ret, o), s') ∧ pool_inv [] s' ∧
    (ret ≠ 0 ∧ o = None ∧ hy_free s = [] ∧ hy_busy s' = hy_busy s ∨
     ret = 0 ∧ ∃ c ch, o = Some c ∧ hy_busy s' = hy_busy s ++ [c] ∧
       hy_channels s' !! c = Some ch ∧ writing [] ch ∧ ch_busy ch = true) ∧
    (∀ c, c ∈ hy_busy s → hy_channels s' !! c = hy_channels s !! c) ∧
    (hy_free s ≠ [] → ∃ l, hy_log s' = hy_log s ++ l ∧ sends l = []).
Proof.
  intros Hi. unfold hgsl_hyp_channel_pool_get. change (negb (0 =? 0)) with false.
  cbv iota. change (0 =? 0) with true. cbv iota.
  set (k := λ r : Z * option ptr, _).
  cut (∃ ret o s2, (free ← gets hy_free;
       '(ret, c) ← (match free with
          | [] => hgsl_rpc_create_channel
          | c :: _ => list_del c ;; mret (0, Some c)
          end);
       match c with
       | Some c' =>
           when (ret =? 0) (modify (λ s, s <| hy_busy ::= (λ l, l ++ [c']) |>)) ;;
           mret (ret, c)
       | None => mret (ret, c)
       end) s = Some ((ret, o), s2) ∧
    (hy_free s ≠ [] → hy_log s2 = hy_log s) ∧
    (∀ c, c ∈ hy_busy s → hy_channels s2 !! c = hy_channels s !! c) ∧
    (ret ≠ 0 ∧ o = None ∧ hy_free s = [] ∧ pool_inv [] s2 ∧ hy_busy s2 = hy_busy s ∨
     ∃ c ch, ret = 0 ∧ o = Some c ∧ hy_busy s2 = hy_busy s ++ [c] ∧
       hy_channels s2 !! c = Some ch ∧ idle ch ∧ (c ∉ hy_busy s) ∧
       pool_inv [] (s2 <| hy_channels ::= <[c := ch <| ch_busy := true |>]> |>))).
  { intros (ret & o & s2 & E2 & Hl2 & Hfr2 & Hcase).
    rewrite (bind_run _ _ _ _ _ E2). subst k. cbv beta iota.
    destruct Hcase as [(Hr & -> & Ef2 & Hi2 & Eb2)|(c & ch & -> & -> & Eb2 & Hc2 & Hid & Hnb & Hi2)].
    - exists ret, None, s2. split; [done|]. split; [done|]. split; [left; auto|]. split; [done|].
      intros Hne. exists []. by rewrite app_nil_r, Hl2.
    - rewrite (bind_run _ _ _ _ _ (set_channel_run c _ s2 ch Hc2)).
      fold (pool_get_finish c).
      set (s3 := s2 <| hy_channels ::= <[c := ch <| ch_busy := true |>]> |>) in *.
      destruct (pool_get_finish_run s3 c (ch <| ch_busy := true |>) (hy_busy s) Hi2)
        as (s4 & ch4 & E4 & Hi4 & Hl4 & Hfr4 & Eb4 & Hc4 & Hw4 & Hbu4).
      { done. }
      { cbn. by rewrite lookup_insert_eq. }
      { by destruct Hid. }
      { done. }
      exists 0, (Some c), s4. split; [exact E4|]. split; [done|]. split_and!.
      + right. split; [done|]. eauto 10.
      + intros c' Hin. rewrite Hfr4 by done. subst s3. cbn.
        rewrite lookup_insert_ne by (by intros ->). auto.
      + intros Hne. destruct Hl4 as (l & El & Hl). exists l. by rewrite El, <-Hl2. }
  clear k. rewrite (bind_run _ _ s (hy_free s) s) by done.
  destruct (hy_free s) as [|c free] eqn:Ef.
  - destruct (create_channel_run s Hi) as (ret & o & s1 & E1 & Ef1 & Eb1 & Hfr1 & Hcase).
    rewrite (bind_run _ _ _ _ _ E1).
    destruct Hcase as [(Hr & -> & Hi1)|(-> & c & ch & -> & Hi1 & Hc1 & Hid & Hbu & Hpos)].
    + exists ret, None, s1. split; [done|]. split; [done|]. split; [done|]. left. done.
    + eexists 0, (Some c), _. split; [reflexivity|]. split; [done|]. split; [done|].
      right. exists c, ch. cbn. rewrite Eb1. split_and!; [done..| |].
      { intros Hin. pose proof (pi_nodup _ _ Hi1) as Hn. rewrite Ef1, Ef, Eb1 in Hn. cbn in Hn.
        apply NoDup_app in Hn as (_ & Hn & _). apply (Hn c Hin). by left. }
      eapply (pool_inv_move [c] [] s1 _ c ch); try done; cbn.
      * by rewrite app_nil_r, Eb1.
      * intros c' [?|?%list_elem_of_singleton]%elem_of_app ?; [by rewrite Eb1|congruence].
      * intros Hin. exfalso. destruct Hi1 as [Hn _ _ _ _ _ _].
        apply NoDup_app in Hn as (_ & Hn & _). apply (Hn c Hin). set_solver.
      * intros _. by left.
  - destruct (proj1 (pi_dom _ _ Hi c)) as [ch Hc]; [rewrite Ef; set_solver|].
    destruct (pi_free _ _ Hi c ch) as [Hid Hbu]; [rewrite Ef; set_solver|done|].
    assert ((c ∉ free) ∧ (c ∉ hy_busy s)) as [Hnf Hnb].
    { destruct Hi as [Hn _ _ _ _ _ _]. rewrite Ef in Hn. cbn in Hn.
      apply NoDup_cons in Hn as [Hn _]. split; set_solver. }
    eexists 0, (Some c), _. split; [reflexivity|]. split; [done|]. split; [done|].
    right. exists c, ch. cbn.
    fold (without c (hy_busy s)) (without c (hy_free s)).
    rewrite without_id by done. split_and!; [done..|].
    eapply (pool_inv_move [] [] s _ c ch _ Hi); try done; cbn;
      fold (without c (hy_busy s)) (without c (hy_free s)); rewrite ?Ef, ?without_id, ?without_head by done.
    + rewrite !app_nil_r. cbn. by rewrite (assoc_L app), (Permutation_app_comm _ [c]).
    + apply (pi_pos _ _ Hi c); [rewrite Ef; set_solver|done].
    + intros c' ? ?. by right.
    + intros c' [?|?%list_elem_of_singleton]%elem_of_app ?; [done|congruence].
    + done.
    + intros _. by left.
Qed.
(** ** Closing the pool *)

(** A channel that waits for a retry goes back to the free ones. *)
Lemma put_waiting_one s c ch :
  pool_inv [] s → c ∈ hy_busy s → hy_channels s !! c = Some ch → ch_busy ch = false →
  ∃ s', (set_channel c (λ ch, ch <| ch_wait_retry := false |>) ;;
         hgsl_hyp_channel_pool_put_unsafe (Some c)) s = Some (tt, s') ∧ pool_inv [] s' ∧
    hy_busy s' = without c (hy_busy s) ∧ hy_log s' = hy_log s ∧
    hy_channels s' =
      <[c := ch <| ch_wait_retry := false |> <| ch_busy := false |>]> (hy_channels s).
Proof.
  intros Hi Hin Hc Hb. destruct (pi_busy _ _ Hi c ch Hin Hc) as [?|Hw]; [congruence|].
  rewrite (bind_run _ _ _ _ _ (set_channel_run c _ s ch Hc)).
  unfold hgsl_hyp_channel_pool_put_unsafe.
  set (s1 := s <| hy_channels ::= <[c := ch <| ch_wait_retry := false |>]> |>).
  assert (hy_channels s1 !! c = Some (ch <| ch_wait_retry := false |>)) as Hc1
    by (cbn; by rewrite lookup_insert_eq).
  rewrite (bind_run _ _ _ _ _ (set_channel_run c _ s1 _ Hc1)).
  eexists. split; [reflexivity|].
  assert (∀ ch1 ch2, <[c:=ch2]> (<[c:=ch1]> (hy_channels s)) = <[c:=ch2]> (hy_channels s)) as Hii
    by (intros; apply insert_insert_eq).
  split_and!; [|done|done|cbn; apply Hii].
  pose proof (pi_nodup _ _ Hi) as Hn. rewrite app_nil_r in Hn.
  eapply (pool_inv_move [] [] s _ c ch _ Hi Hc).
  - cbn. apply Hii.
  - done.
  - cbn. rewrite !app_nil_r. etransitivity; [|symmetry; apply (without_perm c _ Hn); set_solver].
    unfold without. rewrite filter_app, <-!(assoc_L app). by rewrite (Permutation_app_comm [c]).
  - done.
  - apply (pi_pos _ _ Hi c); [set_solver|done].
  - cbn. intros c' [?%elem_of_without|?]%elem_of_app ?; set_solver.
  - cbn. intros c' ?%elem_of_without. naive_solver.
  - intros _. destruct Hw. split; [by constructor|done].
  - cbn. intros ?%elem_of_without. naive_solver.
Qed.

(** The same channel, as far as its socket and its identifier go. *)
Definition same_channels (s s' : hgsl_hyp_priv_t) : Prop :=
  ∀ c ch, hy_channels s !! c = Some ch → ∃ ch', hy_channels s' !! c = Some ch' ∧
    ch_socket ch' = ch_socket ch ∧ ch_busy ch' = ch_busy ch.

Lemma put_waiting_loop l s :
  pool_inv [] s → NoDup l → (∀ c, c ∈ l → c ∈ hy_busy s) →
  ∃ s', for_each l (λ c, ch ← channel c;
      when (negb (ch_busy ch))
        (set_channel c (λ ch, ch <| ch_wait_retry := false |>) ;;
         hgsl_hyp_channel_pool_put_unsafe (Some c))) s = Some (tt, s') ∧
    pool_inv [] s' ∧ hy_log s' = hy_log s ∧ same_channels s s' ∧
    (∀ c, c ∈ hy_busy s' ↔ c ∈ hy_busy s ∧
       (c ∈ l → ∃ ch, hy_channels s !! c = Some ch ∧ ch_busy ch = true)).
Proof.
  revert s. induction l as [|c l IH]; intros s Hi Hn Hl; cbn [for_each].
  { exists s. split_and!; [done..|by intros c ch ?; eauto|]. intros c. split; [|by intros []].
    intros ?. split; [done|]. by intros ?%elem_of_nil. }
  apply NoDup_cons in Hn as [Hcl Hn].
  destruct (proj1 (pi_dom _ _ Hi c)) as [ch Hc].
  { assert (c ∈ hy_busy s) by (apply Hl; by left). set_solver. }
  unfold mbind at 1, M_bind at 1. rewrite (bind_run _ _ _ _ _ (channel_run c s ch Hc)).
  destruct (ch_busy ch) eqn:Eb; cbn [negb when].
  - destruct (IH s Hi Hn) as (s' & E & ? & ? & ? & Hb); [set_solver|].
    exists s'. split; [exact E|]. split_and!; [done..|]. intros c'. rewrite Hb.
    split; intros [? Hx]; (split; [done|]); [|set_solver].
    intros [->|?]%elem_of_cons; [eauto|auto].
  - destruct (put_waiting_one s c ch Hi ltac:(apply Hl; by left) Hc Eb)
      as (s1 & E1 & Hi1 & Eb1 & El1 & Ec1).
    destruct (IH s1 Hi1 Hn) as (s' & E & ? & El & Hsame & Hb).
    { intros c' ?. rewrite Eb1. apply elem_of_without. split; [apply Hl; by right|]. set_solver. }
    exists s'. split; [unfold mbind, M_bind in *; by rewrite E1|]. split_and!; [done|congruence| |].
    + intros c' ch' Hc'. destruct (decide (c' = c)) as [->|Hne].
      * destruct (Hsame c _ ltac:(rewrite Ec1; apply lookup_insert_eq)) as (ch2 & ? & ? & ?).
        exists ch2. rewrite Hc in Hc'. injection Hc' as <-. cbn in *. split_and!; congruence.
      * apply Hsame. by rewrite Ec1, lookup_insert_ne.
    + intros c'. rewrite Hb, Eb1, elem_of_without, elem_of_cons.
      destruct (decide (c' = c)) as [->|Hne].
      * split; [by intros [[_ ?] _]|]. intros [_ Hx]. exfalso.
        destruct Hx as (ch2 & ? & ?); [by left|congruence].
      * rewrite Ec1, lookup_insert_ne by done. naive_solver.
Qed.

(** Closing the free channels, one after the other. *)
Lemma close_free_loop l s :
  pool_inv [] s → hy_free s = l → hy_busy s = [] →
  ∃ s' ev, for_each l (λ c, list_del c ;; hgsl_hyp_close_channel c) s = Some (tt, s') ∧
    hy_channels s' = ∅ ∧ hy_log s' = hy_log s ++ ev ∧
    (∀ c ch, hy_channels s !! c = Some ch → ch_socket ch ≠ HAB_INVALID_HANDLE →
       HabClose (ch_socket ch) ∈ ev).
Proof.
  revert s. induction l as [|c l IH]; intros s Hi Ef Eb; cbn [for_each].
  { assert (hy_channels s = ∅) as Ee.
    { apply map_eq. intros c. rewrite lookup_empty.
      destruct (hy_channels s !! c) eqn:Ec; [|done].
      assert (c ∈ hy_free s ++ hy_busy s ++ []) as Hin by (apply (pi_dom _ _ Hi); eauto).
      rewrite Ef, Eb in Hin. set_solver. }
    exists s, []. rewrite app_nil_r. split_and!; [done..|]. intros c ch. by rewrite Ee, lookup_empty. }
  assert (c ∉ l) as Hcl.
  { pose proof (pi_nodup _ _ Hi) as Hn. rewrite Ef in Hn. cbn in Hn.
    apply NoDup_cons in Hn as [Hn _]. set_solver. }
  destruct (proj1 (pi_dom _ _ Hi c)) as [ch Hc]; [rewrite Ef; set_solver|].
  destruct (pi_free _ _ Hi c ch) as [Hid Hbu]; [rewrite Ef; set_solver|done|].
  pose proof (pi_pos _ _ Hi c ch ltac:(rewrite Ef; set_solver) Hc) as Hpos.
  set (s1 := s <| hy_free ::= without c |> <| hy_busy ::= without c |>).
  assert (hy_free s1 = l) as Ef1 by (cbn; by rewrite Ef, without_head).
  assert (hy_busy s1 = []) as Eb1 by (cbn; by rewrite Eb).
  assert (pool_inv [c] s1) as Hi1.
  { eapply (pool_inv_move [] [c] s s1 c ch ch Hi Hc); rewrite ?Ef1, ?Eb1, ?Ef, ?Eb; try done.
    - cbn. by rewrite insert_id.
    - cbn. by rewrite (Permutation_app_comm l [c]), app_nil_r.
    - intros c' ? ?. by right.
    - by intros ?%elem_of_nil. }
  destruct (pool_close_channel [] s1 c ch Hi1) as (s2 & E2 & Hi2 & Ef2 & Eb2 & Ec2 & ev2 & El2 & Hev2);
    [done|by left|by left|].
  destruct (IH s2 Hi2) as (s' & ev & E & Hch & El & Hev); [congruence|congruence|].
  exists s', (ev2 ++ ev). split_and!.
  - rewrite (bind_run _ _ s tt s2); [exact E|].
    rewrite (bind_run _ _ s tt s1); [exact E2|done].
  - done.
  - rewrite El, El2. cbn. by rewrite (assoc_L app).
  - intros c' ch' Hc' Hs. destruct (decide (c' = c)) as [->|Hne].
    + rewrite Hc in Hc'. injection Hc' as <-. apply elem_of_app. left. auto.
    + apply elem_of_app. right. apply (Hev c'); [|done].
      rewrite Ec2, lookup_delete_ne by done. done.
Qed.

Lemma put_waiting_run s :
  pool_inv [] s →
  ∃ s', hgsl_hyp_put_waiting_channel s = Some (tt, s') ∧
    pool_inv [] s' ∧ hy_log s' = hy_log s ∧ same_channels s s' ∧
    (∀ c, c ∈ hy_busy s' ↔ c ∈ hy_busy s ∧
       ∃ ch, hy_channels s !! c = Some ch ∧ ch_busy ch = true).
Proof.
  intros Hi. unfold hgsl_hyp_put_waiting_channel.
  rewrite (bind_run _ _ s (hy_busy s) s) by done.
  destruct (put_waiting_loop (hy_busy s) s Hi) as (s' & E & ? & ? & ? & Hb).
  { pose proof (pi_nodup _ _ Hi) as Hn. rewrite app_nil_r in Hn. by apply NoDup_app in Hn as (_ & _ & ?). }
  { done. }
  exists s'. split_and!; [done..|]. intros c. rewrite Hb. naive_solver.
Qed.

(** * Properties *)

(** C34. Closing the pool releases everything, unless a channel is in use.  The
    channels that wait for a retry are taken back; when every busy channel is one
    of those, all channels are freed, their identifiers too, and every open socket
    is closed.  When one is in use, nothing is closed and it is still busy: the
    caller sleeps and looks again. *)
Theorem pool_close_releases_all s :
  pool_inv [] s →
  ∃ done s', hgsl_hyp_channel_pool_close s = Some (done, s') ∧
    if done
    then (∀ c ch, c ∈ hy_busy s → hy_channels s !! c = Some ch → ch_busy ch = false) ∧
         hy_channels s' = ∅ ∧ hy_idr s' = ∅ ∧ hy_free s' = [] ∧ hy_busy s' = [] ∧
         ∃ ev, hy_log s' = hy_log s ++ ev ∧
           ∀ c ch, hy_channels s !! c = Some ch → ch_socket ch ≠ HAB_INVALID_HANDLE →
             HabClose (ch_socket ch) ∈ ev
    else pool_inv [] s' ∧ hy_log s' = hy_log s ∧ hy_busy s' ≠ [] ∧
         (∀ c, c ∈ hy_busy s' ↔ c ∈ hy_busy s ∧
            ∃ ch, hy_channels s !! c = Some ch ∧ ch_busy ch = true).
Proof.
  intros Hi. unfold hgsl_hyp_channel_pool_close.
  destruct (put_waiting_run s Hi) as (s1 & E1 & Hi1 & El1 & Hsame & Hb).
  rewrite (bind_run _ _ _ _ _ E1), (bind_run _ _ s1 (hy_busy s1) s1) by done.
  destruct (bool_decide_reflect (hy_busy s1 = [])) as [Eb|Eb]; cbn [negb].
  2:{ exists false, s1. done. }
  rewrite (bind_run _ _ s1 (hy_free s1) s1) by done.
  destruct (close_free_loop (hy_free s1) s1 Hi1 eq_refl Eb) as (s2 & ev & E2 & Hch & El & Hev).
  rewrite (bind_run _ _ _ _ _ E2). eexists true, _. split; [reflexivity|]. cbn.
  split_and!; try done.
  - intros c ch Hin Hc. destruct (ch_busy ch) eqn:E; [|done].
    assert (c ∈ hy_busy s1) as Hx by (apply Hb; eauto). rewrite Eb in Hx. set_solver.
  - exists ev. rewrite El, El1. split; [done|]. intros c ch Hc Hs.
    destruct (Hsame c ch Hc) as (ch' & Hc' & Es & _). rewrite <-Es in *. by apply (Hev c).
Qed.
End pool.

(** * Witnesses *)

(** An environment that always answers [ret] and [reply], and a pool with a free channel
    and one that waits for a retry. *)
#[program] Definition demo_hab (ret : Z) (reply : list Z) : Hab := {|
  hab_malloc _ n := Some (replicate (Z.to_nat n) 0);
  hab_zalloc _ := true;
  hab_idr_alloc _ idr := match idr !! 1 with Some _ => - ENOMEM | None => 1 end;
  hab_uid _ := 0;
  hab_stack _ := replicate 84 0;
  hab_open _ _ := (0, 7);
  hab_send _ _ _ := 0;
  hab_recv _ _ max _ := (ret, take (Z.to_nat max) reply);
  hab_export _ _ _ := (0, 9);
  hab_unexport _ _ _ := 0;
  hab_import _ _ _ _ := (0, Some 1%positive);
  hab_unimport _ _ _ := 0 |}.
Next Obligation. done. Qed.
Next Obligation. intros ret reply t n mem Hn [= <-]. rewrite length_replicate. lia. Qed.
Next Obligation. intros ret reply t idr. cbn. destruct (idr !! 1) eqn:E; [by intros|done]. Qed.
Next Obligation. intros ret reply t idr. cbn. by destruct (idr !! 1). Qed.
Next Obligation. intros ret reply t socket max i. cbn. rewrite length_take. lia. Qed.

Definition demo_channel (id : Z) (w : bool) : hgsl_hab_channel_t :=
  {| ch_socket := id + 4; ch_id := id; ch_wait_retry := w; ch_busy := false;
     ch_send_buf := fresh_parcel; ch_recv_buf := fresh_parcel |}.

Definition demo_pool : hgsl_hyp_priv_t :=
  {| hy_free := [1%positive]; hy_busy := [2%positive]; hy_conn_id := 3;
     hy_client_name := replicate 64 0; hy_client_pid := 100;
     hy_idr := {[ 1 := 1%positive; 2 := 2%positive ]};
     hy_channels := {[ 1%positive := demo_channel 1 false; 2%positive := demo_channel 2 true ]};
     hy_log := []; hy_clock := 0 |}.

Lemma fresh_recv_ok : recv_ok fresh_parcel.
Proof. split; [apply fresh_parcel_ok|done]. Qed.

Lemma demo_idle id : idle (demo_channel id false).
Proof. constructor; [apply fresh_parcel_ok|apply fresh_recv_ok|done]. Qed.

Lemma demo_waiting id : waiting (demo_channel id true).
Proof. constructor; [apply fresh_parcel_ok|apply fresh_recv_ok|done..]. Qed.

Lemma demo_channels c ch : hy_channels demo_pool !! c = Some ch →
  c = 1%positive ∧ ch = demo_channel 1 false ∨ c = 2%positive ∧ ch = demo_channel 2 true.
Proof. cbn. intros [[<- <-]|[_ [<- <-]%lookup_singleton_Some]]%lookup_insert_Some; auto. Qed.

Lemma demo_pool_inv : pool_inv [] demo_pool.
Proof.
  constructor.
  - cbn. by apply (bool_decide_unpack _).
  - intros c. cbn [demo_pool hy_free hy_busy app]. rewrite !elem_of_cons. split.
    + intros [->|[->|?%elem_of_nil]]; [eexists; reflexivity..|done].
    + intros [ch Hc]. destruct (demo_channels c ch Hc) as [[-> _]|[-> _]]; auto.
  - intros c ch Hin Hc. apply list_elem_of_singleton in Hin.
    destruct (demo_channels c ch Hc) as [[_ ->]|[E _]]; [|congruence].
    split; [apply demo_idle|done].
  - intros c ch Hin Hc. apply list_elem_of_singleton in Hin.
    destruct (demo_channels c ch Hc) as [[E _]|[_ ->]]; [congruence|].
    right. apply demo_waiting.
  - cbn. intros id c [[<- <-]|[_ [<- <-]%lookup_singleton_Some]]%lookup_insert_Some;
      (split; [done|]); eexists; (split; [reflexivity|done]).
  - intros c ch Hc _. destruct (demo_channels c ch Hc) as [[-> ->]|[-> ->]]; reflexivity.
  - intros c ch _ Hc. by destruct (demo_channels c ch Hc) as [[-> ->]|[-> ->]].
Qed.

(** The identifier of a channel that waits can be used twice: the second caller gets
    the channel while the first one is using it. *)
Theorem waiting_channel_taken_twice :
  ∃ s1 s2, @hgsl_hyp_channel_pool_get (demo_hab 0 []) 2 demo_pool = Some ((0, Some 2%positive), s1) ∧
    @hgsl_hyp_channel_pool_get (demo_hab 0 []) 2 s1 = Some ((0, Some 2%positive), s2).
Proof. eexists _, _. split; vm_compute; reflexivity. Qed.

Lemma pool_close_releases_all_witness :
  pool_inv [] demo_pool ∧
  ∃ done s', @hgsl_hyp_channel_pool_close (demo_hab 0 []) demo_pool = Some (done, s') ∧
    if done
    then (∀ c ch, c ∈ hy_busy demo_pool → hy_channels demo_pool !! c = Some ch → ch_busy ch = false) ∧
         hy_channels s' = ∅ ∧ hy_idr s' = ∅ ∧ hy_free s' = [] ∧ hy_busy s' = [] ∧
         ∃ ev, hy_log s' = hy_log demo_pool ++ ev ∧
           ∀ c ch, hy_channels demo_pool !! c = Some ch → ch_socket ch ≠ HAB_INVALID_HANDLE →
             HabClose (ch_socket ch) ∈ ev
    else pool_inv [] s' ∧ hy_log s' = hy_log demo_pool ∧ hy_busy s' ≠ [] ∧
         (∀ c, c ∈ hy_busy s' ↔ c ∈ hy_busy demo_pool ∧
            ∃ ch, hy_channels demo_pool !! c = Some ch ∧ ch_busy ch = true).
Proof.
  split; [exact demo_pool_inv|]. exact (@pool_close_releases_all (demo_hab 0 []) demo_pool demo_pool_inv).
Defined.
