(* ===== verification/HypCalls.v ===== *)
(** The calls to the hypervisor (hgsl_hyp.c): each takes a channel of the pool, writes
    its parameters, makes a transaction, reads the reply and gives the channel back.
    An interrupted call keeps its channel for the retry, which only receives. *)

From S2P Require Import Prelude.
From S2P Require Import Rbtree.
From S2P Require Import MemTree.
From S2P Require Import Bytes.
From S2P Require Import Parcel.
From S2P Require Import Hyp.
From S2P Require Import HypPool.

(** * Definitions *)

Definition GSL_FAILURE_TIMEOUT : Z := -10.
Definition GSL_FLAGS_INITIALIZED : Z := 4.
Definition GSL_DEVICE_3D : Z := 1.
Definition GSL_TIMEOUT_INFINITE : Z := 0xFFFFFFFF.
Definition GSL_RPC_WAITTIMESTAMP_SLICE : Z := 1000.
Definition GSL_PROFILER_MAX_NUM_PROCESSES : Z := 512.
Definition GSL_PROFILER_MAX_PROCESS_NAME_LENGTH : Z := 96.

(** struct gsl_memdesc_t goes over the socket as it is in memory. *)
Definition field_at (mem : list Z) (off n : nat) : Z := le_value (take n (drop off mem)).

Definition memdesc_bytes (node : hgsl_mem_node) : list Z :=
  le_bytes 8 (mn_hostptr64 node) ++ le_bytes 8 (mn_gpuaddr node) ++
  le_bytes 8 (mn_size64 node) ++ le_bytes 8 (mn_desc_flags node) ++
  le_bytes 8 (mn_priv64 node) ++ mn_placed node.

Definition set_memdesc (memdesc : list Z) (node : hgsl_mem_node) : hgsl_mem_node :=
  node <| mn_hostptr64 := field_at memdesc 0 8 |> <| mn_gpuaddr := field_at memdesc 8 8 |>
       <| mn_size64 := field_at memdesc 16 8 |> <| mn_desc_flags := field_at memdesc 24 8 |>
       <| mn_priv64 := field_at memdesc 32 8 |> <| mn_placed := take 16 (drop 40 memdesc) |>.

(** struct hgsl_ioctl_issueib_params and the one with an allocation list: what the
    calls use. *)
Record issueib_params := {
  ip_devhandle : Z;
  ip_ctxthandle : Z;
  ip_timestamp : Z;
  ip_flags : Z;
  ip_num_ibs : Z;
  ip_num_allocations : Z;
  ip_rpc_syncobj : Z;
  ip_channel_id : Z;
  ip_rval : Z }.

#[export] Instance issueib_eta : Eta issueib_params := λ r,
  {| ip_devhandle := ip_devhandle r; ip_ctxthandle := ip_ctxthandle r;
     ip_timestamp := ip_timestamp r; ip_flags := ip_flags r; ip_num_ibs := ip_num_ibs r;
     ip_num_allocations := ip_num_allocations r; ip_rpc_syncobj := ip_rpc_syncobj r;
     ip_channel_id := ip_channel_id r; ip_rval := ip_rval r |}.

(** struct hgsl_wait_ts_info. *)
Record hyp_wait_ts_info := {
  wi_context_id : Z;
  wi_timestamp : Z;
  wi_timeout : Z;
  wi_devhandle : Z;
  wi_channel_id : Z }.

#[export] Instance wait_ts_eta : Eta hyp_wait_ts_info := λ r,
  {| wi_context_id := wi_context_id r; wi_timestamp := wi_timestamp r;
     wi_timeout := wi_timeout r; wi_devhandle := wi_devhandle r;
     wi_channel_id := wi_channel_id r |}.

(** struct hgsl_dbq_info. *)
Record hgsl_dbq_info := {
  di_export_id : Z;
  di_size : Z;
  di_head_dwords : Z;
  di_head_off_dwords : Z;
  di_queue_dwords : Z;
  di_queue_off_dwords : Z;
  di_dma_buf : option ptr;
  di_gmuaddr : Z;
  di_ibdesc_max_size : Z;
  di_hab_channel : option ptr }.

#[export] Instance dbq_info_eta : Eta hgsl_dbq_info := λ r,
  {| di_export_id := di_export_id r; di_size := di_size r;
     di_head_dwords := di_head_dwords r; di_head_off_dwords := di_head_off_dwords r;
     di_queue_dwords := di_queue_dwords r; di_queue_off_dwords := di_queue_off_dwords r;
     di_dma_buf := di_dma_buf r; di_gmuaddr := di_gmuaddr r;
     di_ibdesc_max_size := di_ibdesc_max_size r; di_hab_channel := di_hab_channel r |}.

(** struct hgsl_init_param_t: its fields in order. *)
Record hgsl_init_param_t := {
  is_size : Z;
  is_devhandle : Z;
  is_pkmd_export_id : Z;
  is_pkmd_dwsize : Z;
  is_PKMD2HGSL_queue_offset : Z;
  is_feature_flags : Z;
  is_PKMD2HGSL_rb_offset : Z;
  is_gmu_export_id : Z;
  is_gmu_dwsize : Z;
  is_GMU2HGSL_queue_offset : Z;
  is_GMU2HGSL_queue_size : Z;
  is_GMU2HGSL_rb_offset : Z;
  is_HGSL2GMU_queue_offset : Z;
  is_HGSL2GMU_queue_size : Z;
  is_HGSL2GMU_rb_offset : Z }.

#[export] Instance init_param_eta : Eta hgsl_init_param_t := λ r,
  {| is_size := is_size r; is_devhandle := is_devhandle r;
     is_pkmd_export_id := is_pkmd_export_id r; is_pkmd_dwsize := is_pkmd_dwsize r;
     is_PKMD2HGSL_queue_offset := is_PKMD2HGSL_queue_offset r;
     is_feature_flags := is_feature_flags r;
     is_PKMD2HGSL_rb_offset := is_PKMD2HGSL_rb_offset r;
     is_gmu_export_id := is_gmu_export_id r; is_gmu_dwsize := is_gmu_dwsize r;
     is_GMU2HGSL_queue_offset := is_GMU2HGSL_queue_offset r;
     is_GMU2HGSL_queue_size := is_GMU2HGSL_queue_size r;
     is_GMU2HGSL_rb_offset := is_GMU2HGSL_rb_offset r;
     is_HGSL2GMU_queue_offset := is_HGSL2GMU_queue_offset r;
     is_HGSL2GMU_queue_size := is_HGSL2GMU_queue_size r;
     is_HGSL2GMU_rb_offset := is_HGSL2GMU_rb_offset r |}.

Definition init_param_bytes (p : hgsl_init_param_t) : list Z :=
  u32s [is_size p; is_devhandle p; is_pkmd_export_id p; is_pkmd_dwsize p;
        is_PKMD2HGSL_queue_offset p; is_feature_flags p; is_PKMD2HGSL_rb_offset p;
        is_gmu_export_id p; is_gmu_dwsize p; is_GMU2HGSL_queue_offset p;
        is_GMU2HGSL_queue_size p; is_GMU2HGSL_rb_offset p; is_HGSL2GMU_queue_offset p;
        is_HGSL2GMU_queue_size p; is_HGSL2GMU_rb_offset p].

(** struct gsl_profiler_get_per_proc_gpu_busy_percentage_t, and the one for memory
    usage: the arrays are as long as they are declared. *)
Record per_proc := {
  pp_process_num : Z;
  pp_process_id : list Z;
  pp_process_name : list (list Z);
  pp_value : list Z;
  pp_ts : Z;
  pp_channel_id : Z }.

#[export] Instance per_proc_eta : Eta per_proc := λ r,
  {| pp_process_num := pp_process_num r; pp_process_id := pp_process_id r;
     pp_process_name := pp_process_name r; pp_value := pp_value r; pp_ts := pp_ts r;
     pp_channel_id := pp_channel_id r |}.

Section calls.
Context `{Hab}.

Abbreviation HM := (M hgsl_hyp_priv_t).

(** [if (ret) goto out] in a call: the out-parameters are [out] at that point. *)
Definition try_out {A} (out : A) (m : HM Z) (k : HM (Z * A)) : HM (Z * A) :=
  @try_ret _ (λ ret, (ret, out)) m k.

Definition try_read {V A} (out : A) (m : HM (Z * option V)) (k : V → HM (Z * A)) :
    HM (Z * A) :=
  @try_val V _ (λ ret, (ret, out)) m k.

(** ** The shapes of the calls *)

(** The arguments are written and the transaction is made; then comes the reply. *)
Definition call_ext {A} (out : A) (opcode version : Z) (c : ptr) (args : list arg)
    (reply : HM (Z * A)) : HM (Z * A) :=
  try_out out (send_args c args)
    (try_out out
       (if version =? 0 then gsl_rpc_transact opcode c
        else gsl_rpc_transact_ext opcode version c false)
       reply).

Definition call {A} (out : A) (opcode : Z) := call_ext out opcode 0.

(** The return code of the backend, anything but GSL_SUCCESS being -EINVAL. *)
Definition success {A} (out : A) (c : ptr) (k : HM (Z * A)) : HM (Z * A) :=
  try_read out (recv_int32 c) (λ rval,
    if negb (rval =? GSL_SUCCESS) then mret (- EINVAL, out) else k).

(** A call on a channel of its own. *)
Definition with_channel {A} (out : A) (body : ptr → HM (Z * A)) : HM (Z * A) :=
  '(ret, o) ← hgsl_hyp_channel_pool_get 0;
  '(ret, out) ← (if ret =? 0 then c ← of_option o; body c else mret (ret, out));
  hgsl_hyp_channel_pool_put o ;;
  mret (ret, out).

(** A call on the channel of the caller, who may have none. *)
Definition on_channel {A} (out : A) (o : option ptr) (body : ptr → HM (Z * A)) : HM (Z * A) :=
  match o with
  | None => mret (- EINVAL, out)
  | Some c => try_out out (hgsl_rpc_parcel_reset c) (body c)
  end.

(** A call that can be interrupted: the caller gets the identifier of the channel and
    comes back with it. *)
Definition with_channel_retry {A} (id : Z) (interrupted : Z → A) (out : A)
    (send : ptr → HM Z) (opcode : Z) (reply : ptr → HM (Z * A)) : HM (Z * A) :=
  '(ret, o) ← hgsl_hyp_channel_pool_get (s32 id);
  if negb (ret =? 0) then hgsl_hyp_channel_pool_put o ;; mret (ret, out)
  else
    c ← of_option o;
    ch ← channel c;
    ret ← (if ch_wait_retry ch then mret 0 else send c);
    if negb (ret =? 0) then hgsl_hyp_channel_pool_put o ;; mret (ret, out)
    else
      ret ← gsl_rpc_transact_interrruptible opcode c;
      if ret =? - EINTR then
        ch ← channel c; mret (ret, interrupted (u32 (ch_id ch)))
      else
        '(ret, out) ← (if ret =? 0 then reply c else mret (ret, out));
        hgsl_hyp_channel_pool_put o ;;
        mret (ret, out).

(** ** Shared buffers *)

Definition habmm_export (c : ptr) (size : Z) : HM (Z * Z) :=
  ch ← channel c;
  '(ret, export_id) ← ask (λ t, hab_export t (ch_socket ch) size);
  log (HabExport (ch_socket ch) size export_id) ;;
  mret (ret, export_id).

Definition habmm_unexport (c : ptr) (export_id : Z) : HM Z :=
  ch ← channel c;
  log (HabUnexport (ch_socket ch) export_id) ;;
  ask (λ t, hab_unexport t (ch_socket ch) export_id).

Definition habmm_import (c : ptr) (size export_id : Z) : HM (Z * option ptr) :=
  ch ← channel c;
  log (HabImport (ch_socket ch) size export_id) ;;
  ask (λ t, hab_import t (ch_socket ch) size export_id).

Definition habmm_unimport (c : ptr) (export_id : Z) : HM Z :=
  ch ← channel c;
  log (HabUnimport (ch_socket ch) export_id) ;;
  ask (λ t, hab_unimport t (ch_socket ch) export_id).

(** ** The library and the devices *)

(** The blobs of a generic transaction, then the code for the caller, if asked for. *)
Fixpoint read_blobs {A} (c : ptr) (sizes : list Z) (out : list (list Z))
    (k : list (list Z) → HM (Z * (list (list Z) * A))) (a : A) :
    HM (Z * (list (list Z) * A)) :=
  match sizes with
  | [] => k out
  | size :: sizes =>
      try_read (out, a) (recv_blob c size) (λ data, read_blobs c sizes (out ++ [data]) k a)
  end.

Definition hgsl_hyp_generic_transaction (cmd_id : Z) (pSend : list (list Z))
    (reply_size : list Z) (want_rval : bool) : HM (Z * (list (list Z) * option Z)) :=
  with_channel ([], None) (λ c,
    call ([], None) cmd_id c (Blob <$> pSend)
      (read_blobs c reply_size [] (λ pReply,
         if want_rval
         then try_read (pReply, None) (recv_int32 c) (λ rval, mret (0, (pReply, Some rval)))
         else mret (0, (pReply, None))) None)).

(** A call whose reply is the code of the backend, handed to the caller. *)
Definition rval_call (opcode : Z) (args : list arg) : HM (Z * option Z) :=
  with_channel None (λ c,
    call None opcode c args
      (try_read None (recv_int32 c) (λ rval, mret (0, Some rval)))).

Definition hgsl_hyp_lib_open (flags : Z) : HM (Z * option Z) :=
  rval_call RPC_LIBRARY_OPEN [Blob (params (u32s [flags]))].

Definition hgsl_hyp_lib_close (flags : Z) : HM (Z * option Z) :=
  rval_call RPC_LIBRARY_CLOSE [Blob (params (u32s [flags]))].

Definition hgsl_hyp_device_open (flags device_id : Z) : HM (Z * option Z) :=
  rval_call RPC_DEVICE_OPEN [Blob (params (u32s [device_id; flags]))].

Definition hgsl_hyp_device_close (device_id : Z) : HM (Z * option Z) :=
  rval_call RPC_DEVICE_CLOSE [Blob (params (u32s [device_id; 0]))].

Definition hgsl_hyp_activate_device_handle (devhandle : Z) : HM (Z * unit) :=
  with_channel tt (λ c,
    call tt RPC_DEVICE_ACTIVATE c [Blob (params (u32s [devhandle]))]
      (success tt c (mret (0, tt)))).

(** ** Contexts *)

Definition hgsl_hyp_ctxt_create (o : option ptr) (devhandle type flags : Z) :
    HM (Z * option Z) :=
  on_channel None o (λ c,
    call None RPC_CONTEXT_CREATE c [Blob (params (u32s [devhandle; type; flags]))]
      (try_read None (recv_uint32 c) (λ ctxthandle, mret (0, Some ctxthandle)))).

Definition hgsl_hyp_ctxt_destroy (o : option ptr) (devhandle context_id : Z)
    (want_rval : bool) (dbcq_export_id : Z) : HM (Z * option Z) :=
  on_channel None o (λ c,
    call None RPC_CONTEXT_DESTROY c [Blob (params (u32s [devhandle; context_id]))]
      (ret ← (if negb (dbcq_export_id =? 0) then habmm_unexport c dbcq_export_id
              else mret 0);
       if want_rval
       then try_read None (recv_uint32 c) (λ rval, mret (0, Some rval))
       else mret (ret, None))).

(** ** Timestamps in memory of the backend *)

(** struct shadowprop_t. *)
Definition sizeof_shadowprop_t : Z := 16.
Definition shadow_sizebytes (p : list Z) : Z := field_at p 4 8.
Definition shadow_flags (p : list Z) : Z := field_at p 12 4.

(** (x + 0xfff) & ~0xfff on 64 bits. *)
Definition page_align (x : Z) : Z := Z.land (u64 (x + 0xfff)) (Z.lnot 0xfff).

Definition hgsl_hyp_get_shadowts_mem (o : option ptr) (context_id : Z) (node : hgsl_mem_node) :
    HM (Z * (option Z * hgsl_mem_node)) :=
  let out := (None, node) in
  on_channel out o (λ c,
    call_ext out RPC_GET_SHADOWMEM 1 c [Blob (params (u32s [GSL_DEVICE_3D; context_id]))]
      (try_read out (recv_blob c sizeof_shadowprop_t) (λ rpc_shadow,
       try_read out (recv_uint32 c) (λ export_id,
         if export_id =? 0 then mret (0, out)
         else
           let sizebytes := shadow_sizebytes rpc_shadow in
           let node := node <| mn_size64 := sizebytes |>
                            <| mn_fd := -1 |> in
           let out := (Some (shadow_flags rpc_shadow), node) in
           if negb (Z.land (shadow_flags rpc_shadow) GSL_FLAGS_INITIALIZED =? 0) then
             '(ret, dma_buf) ← habmm_import c (page_align sizebytes) export_id;
             if negb (ret =? 0) then mret (ret, out)
             else mret (0, (out.1, node <| mn_export_id := export_id |>
                                        <| mn_dma_buf := from_option PTR NULL dma_buf |>))
           else mret (0, out))))).

Definition hgsl_hyp_put_shadowts_mem (o : option ptr) (node : hgsl_mem_node) : HM (Z * unit) :=
  match o with
  | None => mret (0, tt)
  | Some c =>
      try_out tt (hgsl_rpc_parcel_reset c)
        (_ ← habmm_unimport c (mn_export_id node);
         call tt RPC_PUT_SHADOWMEM c [Blob (params (u32s [mn_export_id node]))]
           (success tt c (mret (0, tt))))
  end.

(** ** Memory *)

(** The export identifier is written whatever happens. *)
Definition hgsl_hyp_mem_map_smmu (o : option ptr) (size offset : Z) (node : hgsl_mem_node) :
    HM (Z * hgsl_mem_node) :=
  let out export_id := node <| mn_export_id := export_id |> in
  on_channel (out 0) o (λ c,
    if (mn_fd node <? 0) && is_null (mn_dma_buf node) then mret (- EINVAL, out 0)
    else
      '(ret, export_id) ← habmm_export c size;
      let out := out export_id in
      if negb (ret =? 0) then mret (ret, out)
      else
        call out RPC_MEMORY_MAP_EXT_FD_PURE c
          [Blob (params (u32s [mn_fd node] ++ (le_bytes 8 0 ++ le_bytes 8 size ++
                         le_bytes 8 offset) ++ u32s [mn_memtype node; mn_flags node]));
           Uint32 export_id]
          (try_read out (recv_blob c sizeof_gsl_memdesc_t) (λ memdesc,
            let out := set_memdesc memdesc out in
            success out c (mret (0, out))))).

Definition memory_unmap_params (node : hgsl_mem_node) : list Z :=
  params (le_bytes 8 (mn_gpuaddr node) ++
          le_bytes 8 (mn_hostptr64 node) ++
          le_bytes 8 (u32 (mn_size64 node)) ++ u32s [mn_memtype node]).

Definition hgsl_hyp_mem_unmap_smmu (o : option ptr) (node : option hgsl_mem_node) :
    HM (Z * unit) :=
  match node with
  | None => mret (- EINVAL, tt)
  | Some node =>
      on_channel tt o (λ c,
        let unexport :=
          if negb (mn_export_id node =? 0)
          then try_out tt (habmm_unexport c (mn_export_id node)) (mret (0, tt))
          else mret (0, tt) in
        if negb (mn_gpuaddr node =? 0) then
          call tt RPC_MEMORY_UNMAP_EXT_FD_PURE c
            [Blob (memory_unmap_params node); Uint32 (mn_export_id node)]
            (success tt c unexport)
        else unexport)
  end.

Definition metainfo_params (memdesc_priv flags metainfo_len : Z) (metainfo : list Z) : list Z :=
  le_bytes 8 memdesc_priv ++ le_bytes 4 flags ++ strscpy (replicate 128 0) metainfo ++
  le_bytes 8 metainfo_len.

Definition hgsl_hyp_set_metainfo (memdesc_priv flags metainfo_len : Z) (metainfo : list Z) :
    HM (Z * unit) :=
  with_channel tt (λ c,
    call tt RPC_MEMORY_SET_METAINFO c
      [Blob (metainfo_params memdesc_priv flags metainfo_len metainfo)]
      (success tt c (mret (0, tt)))).

(** ** Command buffers *)

(** struct hgsl_ibdesc, what is sent of it, as struct hyp_ibdesc_t. *)
Definition hyp_ibdesc (ib : Z * Z) : list Z :=
  le_bytes 4 0 ++ le_bytes 8 (ib.1) ++ le_bytes 8 0 ++ le_bytes 4 (ib.2).

(** The first [n] of an array: reading past its end is a fault. *)
Definition slice {A} (l : list A) (off n : Z) : option (list A) :=
  mapM (λ i, l !! i) (seq (Z.to_nat off) (Z.to_nat n)).

Definition issueib_args (p : issueib_params) (ib : list (Z * Z)) : option (list arg) :=
  ibs ← slice ib 0 (ip_num_ibs p);
  Some (Blob (params (u32s [ip_devhandle p; ip_ctxthandle p; ip_num_ibs p; ip_timestamp p;
                            ip_flags p])) :: ((λ d, Blob (hyp_ibdesc d)) <$> ibs)).

(** The reply to both ways of issuing. *)
Definition issueib_reply (p : issueib_params) (c : ptr) : HM (Z * issueib_params) :=
  try_read p (recv_blob c 4) (λ timestamp,
    let p := p <| ip_timestamp := le_value timestamp |> in
    try_read p (recv_int32 c) (λ rval,
      mret (0, p <| ip_rval := u32 rval |>))).

Definition hgsl_hyp_issueib (p : issueib_params) (ib : option (list (Z * Z))) :
    HM (Z * issueib_params) :=
  with_channel_retry (ip_channel_id p) (λ id, p <| ip_channel_id := id |>) p
    (λ c, match ib with
          | None => mret (- EINVAL)
          | Some ib => args ← of_option (issueib_args p ib); send_args c args
          end)
    RPC_COMMAND_ISSUEIB (issueib_reply p).

(** A description with its offset, for each buffer. *)
Definition desc_args (descs : list (list Z)) (offsets : list Z) (off n : Z) :
    option (list arg) :=
  ds ← slice descs off n;
  os ← slice offsets off n;
  Some (zip_with (λ d o, [Blob d; Uint64 o]) ds os ≫= id).

(** sizeof(struct gsl_command_buffer_object_t), and of struct gsl_memory_object_t. *)
Definition sizeof_gsl_object_t : Z := 32.

Definition alloc_list_args (p : issueib_params) (ib allocations : list Z)
    (be_descs : list (list Z)) (be_offsets : list Z) : option (list arg) :=
  ibs ← peek ib 0 (Z.to_nat (sizeof_gsl_object_t * ip_num_ibs p));
  ib_descs ← desc_args be_descs be_offsets 0 (ip_num_ibs p);
  allocs ← (if negb (ip_num_allocations p =? 0) then
              a ← peek allocations 0 (Z.to_nat (sizeof_gsl_object_t * ip_num_allocations p));
              Some [Blob a]
            else Some []);
  alloc_descs ← desc_args be_descs be_offsets (ip_num_ibs p) (ip_num_allocations p);
  Some ([Blob (params (u32s [ip_devhandle p; ip_ctxthandle p; ip_num_ibs p;
                             ip_num_allocations p; ip_timestamp p; ip_flags p] ++
                       le_bytes 8 (ip_rpc_syncobj p)));
         Blob ibs] ++ ib_descs ++ allocs ++ alloc_descs).

Definition hgsl_hyp_issueib_with_alloc_list (p : issueib_params) (ib allocations : option (list Z))
    (be_descs : option (list (list Z))) (be_offsets : option (list Z)) :
    HM (Z * issueib_params) :=
  with_channel_retry (ip_channel_id p) (λ id, p <| ip_channel_id := id |>) p
    (λ c,
      match ib, be_descs, be_offsets with
      | Some ib, Some be_descs, Some be_offsets =>
          if bool_decide (allocations = None) && negb (ip_num_allocations p =? 0)
          then mret (- EINVAL)
          else
            args ← of_option (alloc_list_args p ib (default [] allocations) be_descs be_offsets);
            send_args c args
      | _, _, _ => mret (- EINVAL)
      end)
    RPC_COMMAND_ISSUEIB_WITH_ALLOC_LIST (issueib_reply p).

(** ** Timestamps *)

Definition rpc_timeout (timeout : Z) : Z :=
  if (timeout =? GSL_TIMEOUT_INFINITE) || (GSL_RPC_WAITTIMESTAMP_SLICE <=? timeout)
  then GSL_RPC_WAITTIMESTAMP_SLICE else timeout.

(** The code of a wait that the backend has made. *)
Definition wait_result (rval : Z) : Z :=
  if negb (rval =? GSL_SUCCESS)
  then if rval =? GSL_FAILURE_TIMEOUT then - ETIMEDOUT else - EINVAL
  else 0.

Definition wait_timestamp_args (p : hyp_wait_ts_info) : list arg :=
  [Blob (params (u32s [wi_devhandle p; wi_context_id p; wi_timestamp p;
                       rpc_timeout (wi_timeout p)]))].

Definition hgsl_hyp_wait_timestamp (p : hyp_wait_ts_info) : HM (Z * hyp_wait_ts_info) :=
  with_channel_retry (wi_channel_id p) (λ id, p <| wi_channel_id := id |>) p
    (λ c, _ ← hgsl_rpc_parcel_reset c; send_args c (wait_timestamp_args p))
    RPC_COMMAND_WAITTIMESTAMP
    (λ c, try_read p (recv_int32 c) (λ rval, mret (wait_result rval, p))).

Definition hgsl_hyp_read_timestamp (devhandle ctxthandle type : Z) : HM (Z * option Z) :=
  with_channel None (λ c,
    call None RPC_COMMAND_READTIMESTAMP c
      [Blob (params (u32s [devhandle; ctxthandle; type]))]
      (try_read None (recv_uint32 c) (λ timestamp,
        success (Some timestamp) c (mret (0, Some timestamp))))).

Definition hgsl_hyp_check_timestamp (devhandle ctxthandle timestamp type : Z) :
    HM (Z * option Z) :=
  rval_call RPC_COMMAND_CHECKTIMESTAMP
    [Blob (params (u32s [devhandle; ctxthandle; timestamp; type]))].

Definition hgsl_hyp_get_system_time (usage : Z) : HM (Z * option Z) :=
  with_channel None (λ c,
    call None RPC_GET_SYSTEM_TIME c [Blob (params (u32s [usage]))]
      (success None c
        (try_read None (recv_uint64 c) (λ time_us, mret (0, Some time_us))))).

Definition syncobj_wait_args (num_syncobjs timeout_ms : Z) (rpc_syncobj : list Z) :
    option (list arg) :=
  objs ← slice rpc_syncobj 0 num_syncobjs;
  Some (Blob (params (le_bytes 8 num_syncobjs ++ u32s [timeout_ms])) ::
        ((λ v, Blob (le_bytes 8 v)) <$> objs)).

Definition hgsl_hyp_syncobj_wait_multiple (rpc_syncobj : list Z) (num_syncobjs timeout_ms : Z) :
    HM (Z * (option (list Z) * option Z)) :=
  with_channel (None, None) (λ c,
    args ← of_option (syncobj_wait_args num_syncobjs timeout_ms rpc_syncobj);
    call (None, None) RPC_SYNCOBJ_WAIT_MULTIPLE c args
      (try_read (None, None) (recv_blob c (u64 (4 * num_syncobjs))) (λ status,
       try_read (Some status, None) (recv_int32 c) (λ result,
         mret (0, (Some status, Some result)))))).

(** ** Performance counters *)

(** Two arrays of the caller, [num] numbers of 32 bits each. *)
Definition counter_args (head groups counter_ids : list Z) (num : Z) : option (list arg) :=
  gs ← peek groups 0 (Z.to_nat (4 * num));
  ids ← peek counter_ids 0 (Z.to_nat (4 * num));
  Some [Blob head; Blob gs; Blob ids].

Definition hgsl_hyp_perfcounter_select (devhandle ctxthandle num_counters : Z)
    (groups counter_ids : list Z) :
    HM (Z * (option Z * option (list Z) * option (list Z))) :=
  let none := (None, None, None) in
  with_channel none (λ c,
    args ← of_option (counter_args (params (u32s [devhandle; ctxthandle; num_counters]))
                        groups counter_ids num_counters);
    call none RPC_PERFCOUNTER_SELECT c args
      (try_read none (recv_int32 c) (λ rval,
        if rval =? GSL_SUCCESS then
          try_read (Some rval, None, None) (recv_blob c (4 * num_counters)) (λ val_regs,
          try_read (Some rval, Some val_regs, None) (recv_blob c (4 * num_counters)) (λ val_hi_regs,
            mret (0, (Some rval, Some val_regs, Some val_hi_regs))))
        else mret (0, (Some rval, None, None))))).

Definition hgsl_hyp_perfcounter_deselect (devhandle ctxthandle timestamp num_counters : Z)
    (groups counter_ids : list Z) : HM (Z * unit) :=
  with_channel tt (λ c,
    args ← of_option
      (counter_args (params (u32s [devhandle; ctxthandle; timestamp; num_counters]))
         groups counter_ids num_counters);
    call tt RPC_PERFCOUNTER_DESELECT c args (mret (0, tt))).

Definition hgsl_hyp_perfcounter_query_selections (devhandle ctxthandle group num_counters : Z)
    (want_selections : bool) : HM (Z * (option Z * option (list Z))) :=
  with_channel (None, None) (λ c,
    call (None, None) RPC_PERFCOUNTER_QUERYSELECTIONS c
      [Blob (params (u32s [devhandle; ctxthandle; group; num_counters]))]
      (try_read (None, None) (recv_int32 c) (λ max_counters,
        if negb (max_counters =? -1) && negb (num_counters =? 0) && want_selections then
          try_read (Some max_counters, None) (recv_blob c (4 * num_counters)) (λ selections,
            mret (0, (Some max_counters, Some selections)))
        else mret (0, (Some max_counters, None))))).

Definition hgsl_hyp_perfcounter_read (devhandle group counter : Z) :
    HM (Z * (option Z * option Z)) :=
  with_channel (None, None) (λ c,
    call (None, None) RPC_PERFCOUNTER_READ c
      [Blob (params (u32s [devhandle; group; counter]))]
      (try_read (None, None) (recv_int32 c) (λ rval,
        if rval =? GSL_SUCCESS then
          try_read (Some rval, None) (recv_uint64 c) (λ value,
            mret (0, (Some rval, Some value)))
        else mret (0, (Some rval, None))))).

(** ** Doorbell queues *)

Definition hgsl_hyp_dbq_create (o : option ptr) (ctxthandle : Z) : HM (Z * option Z) :=
  on_channel None o (λ c,
    call None RPC_DBQ_CREATE c [Blob (params (u32s [ctxthandle]))]
      (success None c
        (try_read None (recv_uint32 c) (λ dbq_info, mret (0, Some dbq_info))))).

(** The part of the reply that older backends do not send. *)
Definition dbq_info_tail (c : ptr) (info : hgsl_dbq_info) : HM hgsl_dbq_info :=
  '(ret, info) ←
    try_read info (recv_uint64 c) (λ gmuaddr,
      let info := info <| di_gmuaddr := gmuaddr |> in
      try_read info (recv_uint32 c) (λ ibdesc_max_size,
        mret (0, info <| di_ibdesc_max_size := ibdesc_max_size |>)));
  mret (if negb (ret =? 0) then info <| di_ibdesc_max_size := 0 |> else info).

Definition hgsl_hyp_get_dbq_info (dbq_idx : Z) (info : hgsl_dbq_info) :
    HM (Z * hgsl_dbq_info) :=
  with_channel info (λ c,
    call info RPC_GET_DBQ_INFO c
      [Blob (params (le_bytes 8 0 ++ le_bytes 8 0 ++ u32s [0; dbq_idx]))]
      (success info c
       (try_read info (recv_uint32 c) (λ export_id,
        let info := info <| di_export_id := export_id |> in
        try_read info (recv_uint32 c) (λ size,
        let info := info <| di_size := size |> in
        try_read info (recv_int32 c) (λ queue_off_dwords,
        let info := info <| di_queue_off_dwords := queue_off_dwords |> in
        try_read info (recv_uint32 c) (λ queue_dwords,
        let info := info <| di_queue_dwords := queue_dwords |> in
        try_read info (recv_int32 c) (λ head_off_dwords,
        let info := info <| di_head_off_dwords := head_off_dwords |> in
        try_read info (recv_uint32 c) (λ head_dwords,
        let info := info <| di_head_dwords := head_dwords |> in
        info ← dbq_info_tail c info;
        let info := info <| di_size ::= (λ size, Z.land (u32 (size + 0xfff)) (Z.lnot 0xfff)) |> in
        '(ret, dma_buf) ← habmm_import c (di_size info) (di_export_id info);
        if negb (ret =? 0) then mret (ret, info)
        else mret (0, info <| di_dma_buf := dma_buf |>
                           <| di_hab_channel := Some c |>)))))))))).

Definition hgsl_hyp_notify_cleanup (o : option ptr) (timeout : Z) : HM (Z * unit) :=
  on_channel tt o (λ c,
    call tt RPC_NOTIFY_CLEANUP c [Blob (params (u32s [timeout]))]
      (try_read tt (recv_int32 c) (λ rval, mret (wait_result rval, tt)))).

(** A number of the reply; a failure to read it is -EINVAL whatever it was. *)
Definition read_or_einval {A} (out : A) (c : ptr) (k : Z → HM (Z * A)) : HM (Z * A) :=
  '(_, v) ← recv_uint32 c;
  match v with Some v => k v | None => mret (- EINVAL, out) end.

Definition hgsl_hyp_query_dbcq (o : option ptr) (devhandle ctxthandle length : Z) :
    HM (Z * list Z) :=
  on_channel [] o (λ c,
    call [] RPC_CONTEXT_QUERY_DBCQ c [Blob (params (u32s [devhandle; ctxthandle; length]))]
      (success [] c
        (read_or_einval [] c (λ db_signal,
         read_or_einval [db_signal] c (λ queue_gmuaddr,
         read_or_einval [db_signal; queue_gmuaddr] c (λ irq_bit_idx,
           mret (0, [db_signal; queue_gmuaddr; irq_bit_idx]))))))).

(** [export_id] is what the pointer of the caller leads to, if it has one. *)
Definition hgsl_hyp_context_register_dbcq (o : option ptr)
    (devhandle ctxthandle size queue_body_offset : Z) (export_id : option Z) :
    HM (Z * option Z) :=
  match export_id with
  | None => mret (- EINVAL, None)
  | Some _ =>
      on_channel export_id o (λ c,
        '(ret, id) ← habmm_export c size;
        let out := Some id in
        if negb (ret =? 0) then mret (ret, out)
        else
          call out RPC_CONTEXT_REGISTER_DBCQ c
            [Blob (params (u32s [devhandle; ctxthandle; size; queue_body_offset; id]))]
            (success out c (mret (0, out))))
  end.

(** ** The queue between the interrupt of the GMU and the driver *)

Definition sizeof_hgsl_gvm_settings : Z := 48.

(** The settings, gvm_settings once they have been read, and irq_index of them. *)
Definition ipcq_out : Type := hgsl_init_param_t * option (list Z).
Definition gvm_irq_index (gvm : list Z) : Z := field_at gvm 12 4.

(** The error path: both buffers are taken back. *)
Definition unexport_ipcq (c : ptr) (settings : hgsl_init_param_t) : HM hgsl_init_param_t :=
  when (negb (is_pkmd_export_id settings =? 0))
    (_ ← habmm_unexport c (is_pkmd_export_id settings); mret tt) ;;
  when (negb (is_gmu_export_id settings =? 0))
    (_ ← habmm_unexport c (is_gmu_export_id settings); mret tt) ;;
  mret (settings <| is_pkmd_export_id := 0 |> <| is_gmu_export_id := 0 |>).

(** [nodes] says whether both buffers are there. *)
Definition export_ipc_on (nodes : bool) (settings : hgsl_init_param_t) (c : ptr) :
    HM (Z * ipcq_out) :=
  if negb nodes then mret (- EINVAL, (settings, None))
  else
    let err '(ret, settings) : HM (Z * ipcq_out) :=
      settings ← unexport_ipcq c settings; mret (ret, (settings, None)) in
    '(ret, id) ← habmm_export c (u64 (4 * is_pkmd_dwsize settings));
    if negb (ret =? 0) then err (ret, settings)
    else
      let settings := settings <| is_pkmd_export_id := id |> in
      '(ret, id) ← habmm_export c (u64 (4 * is_gmu_dwsize settings));
      if negb (ret =? 0) then err (ret, settings)
      else
        let settings := settings <| is_gmu_export_id := id |> in
        '(ret, gvm) ←
          call None RPC_GVM_INIT c [Blob (init_param_bytes settings)]
            ('(_, rval) ← recv_int32 c;
             match rval with
             | None => mret (0, None)
             | Some rval =>
                 if negb (rval =? 0) then mret (rval, None)
                 else try_read None (recv_blob c sizeof_hgsl_gvm_settings) (λ gvm,
                   mret (0, Some gvm))
             end);
        match gvm with
        | Some gvm => mret (ret, (settings, Some gvm))
        | None => err (ret, settings)
        end.

Definition hgsl_hyp_export_ipc_queue (nodes : bool) (settings : hgsl_init_param_t) :
    HM (Z * ipcq_out) :=
  with_channel (settings, None) (export_ipc_on nodes settings).

(** True when the queues' memory has been released; on every early return the channel
    is not given back. *)
Definition hgsl_hyp_deinit_ipcq (devhandle : Z) (settings : hgsl_init_param_t) :
    HM (bool * hgsl_init_param_t) :=
  '(ret, o) ← hgsl_hyp_channel_pool_get 0;
  if negb (ret =? 0) then mret (false, settings)
  else
    c ← of_option o;
    '(ret, retval) ←
      try_out None (hgsl_rpc_parcel_reset c)
        (call None RPC_GVM_DEINIT c [Blob (params (u32s [devhandle]))]
          (try_read None (recv_blob c 4) (λ retval, mret (0, Some (le_value retval)))));
    if bool_decide (retval = Some 0) then
      settings ← unexport_ipcq c settings;
      hgsl_hyp_channel_pool_put o ;;
      mret (true, settings)
    else mret (false, settings).

(** ** The profiler *)

(** array[i] = v: a fault past the end of the array. *)
Definition array_set {A} (l : list A) (i : nat) (v : A) : option (list A) :=
  if (i <? length l)%nat then Some (<[i := v]> l) else None.

(** The slice of the reply from [i] on, [n] of them: the process, its name and what
    is asked for, read by [value]. *)
Fixpoint read_entries (c : ptr) (value : HM (Z * option Z)) (i n : nat) (out : per_proc)
    (k : per_proc → HM (Z * per_proc)) : HM (Z * per_proc) :=
  match n with
  | O => k out
  | S n =>
      try_read out (recv_uint32 c) (λ id,
        ids ← of_option (array_set (pp_process_id out) i id);
        let out := out <| pp_process_id := ids |> in
        try_read out (recv_blob c GSL_PROFILER_MAX_PROCESS_NAME_LENGTH) (λ name,
          names ← of_option (array_set (pp_process_name out) i name);
          let out := out <| pp_process_name := names |> in
          try_read out value (λ v,
            values ← of_option (array_set (pp_value out) i v);
            read_entries c value (S i) n (out <| pp_value := values |>) k)))
  end.

Definition per_proc_reply (value : ptr → HM (Z * option Z)) (out : per_proc) (c : ptr) :
    HM (Z * per_proc) :=
  try_read out (recv_uint32 c) (λ process_num,
    read_entries c (value c) 0 (Z.to_nat process_num) (out <| pp_process_num := process_num |>)
      (λ out,
        try_read out (recv_uint64 c) (λ ts,
          let out := out <| pp_ts := ts |> in
          try_read out (recv_int32 c) (λ rval, mret (rval, out))))).

Definition hgsl_hyp_gslprofiler_per_proc_gpu_busy (sampling_time : Z) (busy : per_proc) :
    HM (Z * per_proc) :=
  with_channel_retry (pp_channel_id busy) (λ id, busy <| pp_channel_id := id |>) busy
    (λ c, _ ← hgsl_rpc_parcel_reset c; send_args c [Blob (params (u32s [sampling_time]))])
    RPC_GSLPROFILER_PER_PROC_GPU_BUSY (per_proc_reply recv_uint64 busy).

Definition hgsl_hyp_gslprofiler_per_proc_gpu_pmem (pmem : per_proc) : HM (Z * per_proc) :=
  with_channel_retry (pp_channel_id pmem) (λ id, pmem <| pp_channel_id := id |>) pmem
    (λ c, _ ← hgsl_rpc_parcel_reset c; send_args c [Blob (params [])])
    RPC_GSLPROFILER_PER_PROC_GPU_PMEM (per_proc_reply recv_uint32 pmem).
End calls.

(** * Specification *)

(** The calls that are balanced, as the ioctls make them: those on a channel of the caller
    get one from the pool for it.  The calls of hgsl_hyp.c that are not among them are
    hgsl_hyp_deinit_ipcq, which keeps its channel when it fails
    (deinit_failure_blocks_close), the two of the profiler, which fault where the backend
    answers with more processes than their arrays have entries, and the creation of a
    context, which makes several calls on a channel that is held (the file CtxtCreate). *)
Inductive hyp_call :=
| GenericTransaction (cmd_id : Z) (pSend : list (list Z)) (reply_size : list Z) (want_rval : bool)
| LibOpen (flags : Z)
| LibClose (flags : Z)
| DeviceOpen (flags device_id : Z)
| DeviceClose (device_id : Z)
| ActivateDevice (devhandle : Z)
| CtxtCreate (devhandle type flags : Z)
| CtxtDestroy (devhandle context_id : Z) (want_rval : bool) (dbcq_export_id : Z)
| GetShadowtsMem (context_id : Z) (node : hgsl_mem_node)
| PutShadowtsMem (node : hgsl_mem_node)
| MemMapSmmu (size offset : Z) (node : hgsl_mem_node)
| MemUnmapSmmu (node : option hgsl_mem_node)
| SetMetainfo (memdesc_priv flags metainfo_len : Z) (metainfo : list Z)
| Issueib (p : issueib_params) (ib : list (Z * Z))
| IssueibWithAllocList (p : issueib_params) (ib allocations : list Z)
    (be_descs : list (list Z)) (be_offsets : list Z)
| WaitTimestamp (p : hyp_wait_ts_info)
| ReadTimestamp (devhandle ctxthandle type : Z)
| CheckTimestamp (devhandle ctxthandle timestamp type : Z)
| GetSystemTime (usage : Z)
| SyncobjWaitMultiple (rpc_syncobj : list Z) (num_syncobjs timeout_ms : Z)
| PerfcounterSelect (devhandle ctxthandle num_counters : Z) (groups counter_ids : list Z)
| PerfcounterDeselect (devhandle ctxthandle timestamp num_counters : Z)
    (groups counter_ids : list Z)
| PerfcounterQuerySelections (devhandle ctxthandle group num_counters : Z)
    (want_selections : bool)
| PerfcounterRead (devhandle group counter : Z)
| DbqCreate (ctxthandle : Z)
| GetDbqInfo (dbq_idx : Z) (info : hgsl_dbq_info)
| NotifyCleanup (timeout : Z)
| QueryDbcq (devhandle ctxthandle length : Z)
| RegisterDbcq (devhandle ctxthandle size queue_body_offset : Z) (export_id : Z)
| ExportIpcQueue (nodes : bool) (settings : hgsl_init_param_t).

(** What each sends: its function, the version of it and the arguments; none when the
    arrays of the caller are too short. *)
Definition call_args (k : hyp_call) : option (Z * Z * list arg) :=
  let one opcode data := Some (opcode, 0, [Blob data]) in
  let some opcode args := (λ l, (opcode, 0, l)) <$> args in
  match k with
  | GenericTransaction cmd_id pSend _ _ => Some (cmd_id, 0, Blob <$> pSend)
  | LibOpen flags => one RPC_LIBRARY_OPEN (params (u32s [flags]))
  | LibClose flags => one RPC_LIBRARY_CLOSE (params (u32s [flags]))
  | DeviceOpen flags id => one RPC_DEVICE_OPEN (params (u32s [id; flags]))
  | DeviceClose id => one RPC_DEVICE_CLOSE (params (u32s [id; 0]))
  | ActivateDevice h => one RPC_DEVICE_ACTIVATE (params (u32s [h]))
  | CtxtCreate h type flags => one RPC_CONTEXT_CREATE (params (u32s [h; type; flags]))
  | CtxtDestroy h id _ _ => one RPC_CONTEXT_DESTROY (params (u32s [h; id]))
  | GetShadowtsMem id _ =>
      Some (RPC_GET_SHADOWMEM, 1, [Blob (params (u32s [GSL_DEVICE_3D; id]))])
  | PutShadowtsMem node => one RPC_PUT_SHADOWMEM (params (u32s [mn_export_id node]))
  | MemUnmapSmmu (Some node) =>
      Some (RPC_MEMORY_UNMAP_EXT_FD_PURE, 0,
            [Blob (memory_unmap_params node); Uint32 (mn_export_id node)])
  | SetMetainfo priv flags len metainfo =>
      one RPC_MEMORY_SET_METAINFO (metainfo_params priv flags len metainfo)
  | Issueib p ib => some RPC_COMMAND_ISSUEIB (issueib_args p ib)
  | IssueibWithAllocList p ib allocs descs offsets =>
      some RPC_COMMAND_ISSUEIB_WITH_ALLOC_LIST (alloc_list_args p ib allocs descs offsets)
  | WaitTimestamp p => Some (RPC_COMMAND_WAITTIMESTAMP, 0, wait_timestamp_args p)
  | ReadTimestamp h id type => one RPC_COMMAND_READTIMESTAMP (params (u32s [h; id; type]))
  | CheckTimestamp h id ts type =>
      one RPC_COMMAND_CHECKTIMESTAMP (params (u32s [h; id; ts; type]))
  | GetSystemTime usage => one RPC_GET_SYSTEM_TIME (params (u32s [usage]))
  | SyncobjWaitMultiple objs num timeout =>
      some RPC_SYNCOBJ_WAIT_MULTIPLE (syncobj_wait_args num timeout objs)
  | PerfcounterSelect h id num groups ids =>
      some RPC_PERFCOUNTER_SELECT (counter_args (params (u32s [h; id; num])) groups ids num)
  | PerfcounterDeselect h id ts num groups ids =>
      some RPC_PERFCOUNTER_DESELECT
        (counter_args (params (u32s [h; id; ts; num])) groups ids num)
  | PerfcounterQuerySelections h id group num _ =>
      one RPC_PERFCOUNTER_QUERYSELECTIONS (params (u32s [h; id; group; num]))
  | PerfcounterRead h group counter =>
      one RPC_PERFCOUNTER_READ (params (u32s [h; group; counter]))
  | DbqCreate id => one RPC_DBQ_CREATE (params (u32s [id]))
  | GetDbqInfo idx _ =>
      one RPC_GET_DBQ_INFO (params (le_bytes 8 0 ++ le_bytes 8 0 ++ u32s [0; idx]))
  | NotifyCleanup timeout => one RPC_NOTIFY_CLEANUP (params (u32s [timeout]))
  | QueryDbcq h id len => one RPC_CONTEXT_QUERY_DBCQ (params (u32s [h; id; len]))
  | MemMapSmmu _ _ _ | MemUnmapSmmu None | RegisterDbcq _ _ _ _ _ | ExportIpcQueue _ _ =>
      Some (0, 0, [])
  end.

(** The messages a call may send; those that carry the identifiers of exported buffers
    say so. *)
Definition call_sends (k : hyp_call) (m : list Z) : Prop :=
  match k with
  | MemMapSmmu size offset node => ∃ export_id,
      m = message RPC_MEMORY_MAP_EXT_FD_PURE 0
        [Blob (params (u32s [mn_fd node] ++ (le_bytes 8 0 ++ le_bytes 8 size ++
                       le_bytes 8 offset) ++ u32s [mn_memtype node; mn_flags node]));
         Uint32 export_id]
  | RegisterDbcq h id size off _ => ∃ export_id,
      m = message RPC_CONTEXT_REGISTER_DBCQ 0
        [Blob (params (u32s [h; id; size; off; export_id]))]
  | ExportIpcQueue _ settings => ∃ pkmd_id gmu_id,
      m = message RPC_GVM_INIT 0
        [Blob (init_param_bytes (settings <| is_pkmd_export_id := pkmd_id |>
                                   <| is_gmu_export_id := gmu_id |>))]
  | _ => ∃ opcode version args, call_args k = Some (opcode, version, args) ∧
      m = message opcode version args
  end.

(** An array in a reply that ends [after] bytes before the last number of it: it fits,
    or no buffer is large enough. *)
Definition reply_fits (len after : Z) : Prop :=
  0 ≤ len ∧ (16 + len + 20 + after ≤ 4096 ∨ 4064 < len < 4294967296).

(** The arrays of the caller are there, and what is sent and received can be: an array in
    the reply fits into its buffer, or is refused as too large for any.  The sizes in
    between are those for which the reader runs past the end of the buffer. *)
Definition call_ok (k : hyp_call) : Prop :=
  (∃ opcode version args, call_args k = Some (opcode, version, args) ∧ fits_message args) ∧
  match k with
  | GenericTransaction _ _ sizes _ =>
      match sizes with [] => True | [size] => reply_fits size 24 | _ => False end
  | SyncobjWaitMultiple _ num _ => reply_fits (4 * num) 24 ∧ 0 ≤ num
  | PerfcounterSelect _ _ num _ _ => 0 ≤ num ∧ (24 + 2 * (4 * num + 20) + 16 ≤ 4096 ∨ 4064 < 4 * num < 4294967296)
  | PerfcounterQuerySelections _ _ _ num _ => reply_fits (4 * num) 24
  | _ => True
  end.

Section run.
Context `{Hab}.

Definition code {A} (m : M hgsl_hyp_priv_t (Z * A)) : M hgsl_hyp_priv_t Z :=
  '(ret, _) ← m; mret ret.

Definition run_call (k : hyp_call) : M hgsl_hyp_priv_t Z :=
  match k with
  | GenericTransaction cmd_id pSend reply_size want_rval =>
      code (hgsl_hyp_generic_transaction cmd_id pSend reply_size want_rval)
  | LibOpen flags => code (hgsl_hyp_lib_open flags)
  | LibClose flags => code (hgsl_hyp_lib_close flags)
  | DeviceOpen flags id => code (hgsl_hyp_device_open flags id)
  | DeviceClose id => code (hgsl_hyp_device_close id)
  | ActivateDevice h => code (hgsl_hyp_activate_device_handle h)
  | CtxtCreate h type flags =>
      code (with_channel None (λ c, hgsl_hyp_ctxt_create (Some c) h type flags))
  | CtxtDestroy h id want_rval export_id =>
      code (with_channel None (λ c, hgsl_hyp_ctxt_destroy (Some c) h id want_rval export_id))
  | GetShadowtsMem id node =>
      code (with_channel (None, node) (λ c, hgsl_hyp_get_shadowts_mem (Some c) id node))
  | PutShadowtsMem node =>
      code (with_channel tt (λ c, hgsl_hyp_put_shadowts_mem (Some c) node))
  | MemMapSmmu size offset node =>
      code (with_channel node (λ c, hgsl_hyp_mem_map_smmu (Some c) size offset node))
  | MemUnmapSmmu node =>
      code (with_channel tt (λ c, hgsl_hyp_mem_unmap_smmu (Some c) node))
  | SetMetainfo priv flags len metainfo => code (hgsl_hyp_set_metainfo priv flags len metainfo)
  | Issueib p ib => code (hgsl_hyp_issueib p (Some ib))
  | IssueibWithAllocList p ib allocs descs offsets =>
      code (hgsl_hyp_issueib_with_alloc_list p (Some ib) (Some allocs) (Some descs) (Some offsets))
  | WaitTimestamp p => code (hgsl_hyp_wait_timestamp p)
  | ReadTimestamp h id type => code (hgsl_hyp_read_timestamp h id type)
  | CheckTimestamp h id ts type => code (hgsl_hyp_check_timestamp h id ts type)
  | GetSystemTime usage => code (hgsl_hyp_get_system_time usage)
  | SyncobjWaitMultiple objs num timeout =>
      code (hgsl_hyp_syncobj_wait_multiple objs num timeout)
  | PerfcounterSelect h id num groups ids => code (hgsl_hyp_perfcounter_select h id num groups ids)
  | PerfcounterDeselect h id ts num groups ids =>
      code (hgsl_hyp_perfcounter_deselect h id ts num groups ids)
  | PerfcounterQuerySelections h id group num want =>
      code (hgsl_hyp_perfcounter_query_selections h id group num want)
  | PerfcounterRead h group counter => code (hgsl_hyp_perfcounter_read h group counter)
  | DbqCreate id => code (with_channel None (λ c, hgsl_hyp_dbq_create (Some c) id))
  | GetDbqInfo idx info => code (hgsl_hyp_get_dbq_info idx info)
  | NotifyCleanup timeout => code (with_channel tt (λ c, hgsl_hyp_notify_cleanup (Some c) timeout))
  | QueryDbcq h id len => code (with_channel [] (λ c, hgsl_hyp_query_dbcq (Some c) h id len))
  | RegisterDbcq h id size off export_id =>
      code (with_channel (Some export_id)
        (λ c, hgsl_hyp_context_register_dbcq (Some c) h id size off (Some export_id)))
  | ExportIpcQueue nodes settings => code (hgsl_hyp_export_ipc_queue nodes settings)
  end.

(** A body of a call, on its channel: it returns a value in [R], leaves the channel to
    the next call and sends nothing, or one message that satisfies [φ]. *)
Definition body_from {A} (P : hgsl_hab_channel_t → Prop) (R : A → Prop) (φ : list Z → Prop)
    (c : ptr) (m : M hgsl_hyp_priv_t A) : Prop :=
  ∀ s ch, hy_channels s !! c = Some ch → P ch →
  ∃ a s' ch' ms, m s = Some (a, s') ∧ step_on c ms s s' ∧
    hy_channels s' !! c = Some ch' ∧ idle ch' ∧
    (ms = no_sends ∨ ∃ m, ms = Some [m] ∧ φ m) ∧ R a.

Definition body_gives {A} := @body_from A (writing []).
Definition body_ok {A} := @body_gives A (λ _, True).

(** A call on a channel that the caller holds over several calls. *)
Definition held_ok {A} := @body_from A idle (λ _, True).

(** No channel is in use by a call that waits for its retry: those that wait are not in
    use.  This is the state between calls. *)
Definition settled (s : hgsl_hyp_priv_t) : Prop :=
  pool_inv [] s ∧
  ∀ c ch, c ∈ hy_busy s → hy_channels s !! c = Some ch → ch_wait_retry ch = negb (ch_busy ch).

Definition sends_one (φ : list Z → Prop) (l : list hab_event) : Prop :=
  sends l = [] ∨ ∃ m, sends l = [m] ∧ φ m.

(** What a call does to the channels in use: nothing in the end; or one more waits for
    its retry; or one that waited is free again. *)
Definition waits (s : hgsl_hyp_priv_t) (c : ptr) : Prop :=
  ∃ ch, hy_channels s !! c = Some ch ∧ waiting ch ∧ hy_idr s !! ch_id ch = Some c.

Inductive balanced (s s' : hgsl_hyp_priv_t) : Prop :=
| Returned : hy_busy s' = hy_busy s → balanced s s'
| Interrupted c : hy_busy s' = hy_busy s ++ [c] → waits s' c → balanced s s'
| Retried c : waits s c → hy_busy s' = without c (hy_busy s) → balanced s s'.

(** * Lemmas *)

(** ** Bodies *)

Lemma body_ok_hoare {A} φ c (m : M _ A) msg :
  φ msg → hoare c (writing []) (Some [msg]) m (λ _, idle) → body_ok φ c m.
Proof. intros Hφ Hm s ch Hc Hw. destruct (Hm s ch Hc Hw) as (a & s' & ch' & ?). naive_solver. Qed.

Lemma body_ok_quiet {A} φ c (m : M _ A) :
  hoare c (writing []) no_sends m (λ _, idle) → body_ok φ c m.
Proof. intros Hm s ch Hc Hw. destruct (Hm s ch Hc Hw) as (a & s' & ch' & ?). naive_solver. Qed.

Lemma body_ok_bind {A B} φ c (m : M _ A) (k : A → M _ B) :
  hoare c (writing []) no_sends m (λ _, writing []) → (∀ a, body_ok φ c (k a)) →
  body_ok φ c (m ≫= k).
Proof.
  intros Hm Hk s ch Hc Hw. destruct (Hm s ch Hc Hw) as (a & s1 & ch1 & E1 & Hs1 & Hc1 & Hw1).
  destruct (Hk a s1 ch1 Hc1 Hw1) as (b & s2 & ch2 & ms & E2 & Hs2 & Hc2 & Hi & Hms & _).
  exists b, s2, ch2, ms. rewrite (bind_run _ _ _ _ _ E1). split_and!; try done.
  pose proof (step_on_trans _ _ _ _ _ _ Hs1 Hs2) as Hs.
  by destruct Hms as [->|(m' & -> & _)].
Qed.

Lemma body_ok_then {A B} φ c (m : M _ A) (k : A → M _ B) :
  body_ok φ c m → (∀ a, hoare c idle no_sends (k a) (λ _, idle)) → body_ok φ c (m ≫= k).
Proof.
  intros Hm Hk s ch Hc Hw. destruct (Hm s ch Hc Hw) as (a & s1 & ch1 & ms & E1 & Hs1 & Hc1 & Hi1 & Hms & _).
  destruct (Hk a s1 ch1 Hc1 Hi1) as (b & s2 & ch2 & E2 & Hs2 & Hc2 & Hi2).
  exists b, s2, ch2, ms. rewrite (bind_run _ _ _ _ _ E1). split_and!; try done.
  pose proof (step_on_trans _ _ _ _ _ _ Hs1 Hs2) as Hs.
  by destruct Hms as [->|(m' & -> & _)].
Qed.

Lemma body_ok_try {A} φ c (m : M _ Z) (out : A) k :
  hoare c (writing []) no_sends m (λ ret ch, if decide (ret = 0) then writing [] ch else idle ch) →
  body_ok φ c k → body_ok φ c (try_out out m k).
Proof.
  intros Hm Hk s ch Hc Hw. destruct (Hm s ch Hc Hw) as (ret & s1 & ch1 & E1 & Hs1 & Hc1 & Hw1).
  unfold try_out, try_ret. setoid_rewrite (bind_run _ _ _ _ _ E1). destruct (Z.eqb_spec ret 0) as [->|Hr].
  - rewrite decide_True in Hw1 by done.
    destruct (Hk s1 ch1 Hc1 Hw1) as (b & s2 & ch2 & ms & E2 & Hs2 & Hc2 & Hi & Hms & _).
    exists b, s2, ch2, ms. split_and!; try done.
    pose proof (step_on_trans _ _ _ _ _ _ Hs1 Hs2) as Hs.
    by destruct Hms as [->|(m' & -> & _)].
  - rewrite decide_False in Hw1 by done. eexists _, s1, ch1, no_sends. eauto 12.
Qed.

Lemma body_ok_if {A} φ c (b : bool) (m1 m2 : M _ A) :
  body_ok φ c m1 → body_ok φ c m2 → body_ok φ c (if b then m1 else m2).
Proof. by destruct b. Qed.

Lemma writing_idle_of args ch : writing args ch → idle ch.
Proof. by intros []. Qed.

Lemma body_ok_on_channel {A} φ c (out : A) k :
  body_ok φ c (k c) → body_ok φ c (on_channel out (Some c) k).
Proof. intros Hk. apply body_ok_try; [|done]. apply hoare_reset, writing_idle_of. Qed.

Lemma held_on_channel {A} φ c (out : A) k :
  body_ok φ c (k c) → held_ok φ c (on_channel out (Some c) k).
Proof.
  intros Hk s ch Hc Hi.
  destruct (hoare_reset c idle (λ _ Hi, Hi) s ch Hc Hi) as (ret & s1 & ch1 & E1 & Hs1 & Hc1 & Hw1).
  unfold on_channel, try_out, try_ret. setoid_rewrite (bind_run _ _ _ _ _ E1).
  destruct (Z.eqb_spec ret 0) as [->|Hr].
  - rewrite decide_True in Hw1 by done.
    destruct (Hk s1 ch1 Hc1 Hw1) as (b & s2 & ch2 & ms & E2 & Hs2 & Hc2 & Hi2 & Hms & _).
    exists b, s2, ch2, ms. split_and!; try done.
    pose proof (step_on_trans _ _ _ _ _ _ Hs1 Hs2) as Hs.
    by destruct Hms as [->|(m' & -> & _)].
  - rewrite decide_False in Hw1 by done. eexists _, s1, ch1, no_sends. eauto 12.
Qed.

Lemma held_quiet {A} φ c (m : M _ A) : hoare c idle no_sends m (λ _, idle) → held_ok φ c m.
Proof. intros Hm s ch Hc Hw. destruct (Hm s ch Hc Hw) as (a & s' & ch' & ?). naive_solver. Qed.

Lemma held_body {A} φ c (m : M _ A) : held_ok φ c m → body_ok φ c m.
Proof. intros Hm s ch Hc Hw. apply (Hm s ch Hc). by eapply writing_idle_of. Qed.

(** ** Replies *)

(** Reading a reply from [n] on ends with the channel free of it. *)
Definition reply_ok {A} (c : ptr) (n : Z) (m : M hgsl_hyp_priv_t A) : Prop :=
  hoare c (reading n) no_sends m (λ _, idle).

Lemma ro_ret {A} c n (a : A) : reply_ok c n (mret a).
Proof. apply hoare_ret, reading_idle_of. Qed.

Lemma ro_if {A} c n (b : bool) (m1 m2 : M _ A) :
  reply_ok c n m1 → reply_ok c n m2 → reply_ok c n (if b then m1 else m2).
Proof. by destruct b. Qed.

Lemma ro_read {V A} c n n' (out : A) (m : M _ (Z * option V)) k :
  hoare c (reading n) no_sends m (λ _, reading n') → (∀ v, reply_ok c n' (k v)) →
  reply_ok c n (try_read out m k).
Proof.
  intros Hm Hk. eapply (hoare_try_val c _ no_sends no_sends _ _ (reading n') (reading n'));
    [|intros; by eapply reading_idle_of|exact Hk].
  eapply hoare_mono; [exact Hm|done| |apply ms_le_refl]. by intros [? [?|]].
Qed.

Lemma ro_int32 {A} c n (out : A) k :
  n + 24 ≤ 4096 → (∀ v, reply_ok c (n + 24) (k v)) → reply_ok c n (try_read out (recv_int32 c) k).
Proof. intros Hn. by apply ro_read, hoare_recv_int32. Qed.

Lemma ro_uint32 {A} c n (out : A) k :
  n + 24 ≤ 4096 → (∀ v, reply_ok c (n + 24) (k v)) → reply_ok c n (try_read out (recv_uint32 c) k).
Proof. intros Hn. by apply ro_read, hoare_recv_uint32. Qed.

Lemma ro_uint64 {A} c n (out : A) k :
  n + 28 ≤ 4096 → (∀ v, reply_ok c (n + 28) (k v)) → reply_ok c n (try_read out (recv_uint64 c) k).
Proof. intros Hn. by apply ro_read, hoare_recv_uint64. Qed.

Lemma ro_success {A} c n (out : A) k :
  n + 24 ≤ 4096 → reply_ok c (n + 24) k → reply_ok c n (success out c k).
Proof. intros Hn Hk. apply ro_int32; [done|]. intros v. apply ro_if; [apply ro_ret|done]. Qed.

Lemma ro_blob {A} c n len (out : A) k :
  0 ≤ len → n + len + 20 ≤ 4096 → (∀ v, reply_ok c (n + len + 20) (k v)) →
  reply_ok c n (try_read out (recv_blob c len) k).
Proof. intros Hl Hn. by apply ro_read, hoare_recv_blob. Qed.

(** An array that no receive buffer can hold is refused. *)
Lemma ro_blob_large {A} c n len (out : A) k :
  4064 < len < 4294967296 → reply_ok c n (try_read out (recv_blob c len) k).
Proof.
  intros Hl. eapply (hoare_try_val c _ no_sends no_sends _ _ (λ _, False) idle); [|done|].
  2:{ intros v s ch ? []. }
  apply hoare_on_recv. intros malloc ch _ [Hi _].
  destruct (recv_ok_mem _ (idle_recv ch Hi)) as (mem & Hd & Lm & Es & Hpos).
  eexists _, _. split.
  - unfold gsl_rpc_read, read_arg, gsl_rpc_get_arg_ptr. unfold mbind at 1, M_bind at 1.
    rewrite (bind_run _ _ (ch_recv_buf ch) (ch_recv_buf ch) _ eq_refl).
    rewrite (u64_small (_ + _ + _)) by (unfold is_u64, gsl_rpc_header_size; lia).
    rewrite (proj2 (Z.ltb_lt _ _)) by (unfold gsl_rpc_header_size; lia). reflexivity.
  - cbn. by destruct ch.
Qed.

(** Exports and imports. *)
Lemma hoare_habmm c (P : _ → Prop) {A} (f : hgsl_hab_channel_t → M hgsl_hyp_priv_t A) :
  (∀ ch, hoare c P no_sends (f ch) (λ _, P)) → hoare c P no_sends (ch ← channel c; f ch) (λ _, P).
Proof.
  intros Hf. eapply (hoare_bind c _ no_sends no_sends); [apply hoare_channel|].
  intros ch. apply (hoare_mono c P _ no_sends no_sends _ (λ _, P)); [by apply Hf|by intros ? []|done|].
  apply ms_le_refl.
Qed.

Lemma hoare_log_ask {A} c (P : _ → Prop) e (q : nat → A) :
  sends [e] = [] → hoare c P no_sends (log e ;; ask q) (λ _, P).
Proof.
  intros He. eapply (hoare_bind c _ no_sends no_sends); [by apply hoare_log, allowed_quiet|].
  intros []. by apply hoare_ask.
Qed.

Lemma hoare_export c P size : hoare c P no_sends (habmm_export c size) (λ _, P).
Proof.
  apply hoare_habmm. intros ch. eapply (hoare_bind c _ no_sends no_sends _ _ (λ _, P)); [by apply hoare_ask|].
  intros [ret id]. eapply (hoare_bind c _ no_sends no_sends); [by apply hoare_log, allowed_quiet|].
  intros []. by apply hoare_ret.
Qed.

Lemma hoare_unexport c P id : hoare c P no_sends (habmm_unexport c id) (λ _, P).
Proof. apply hoare_habmm. intros ch. by apply hoare_log_ask. Qed.

Lemma hoare_import c P size id : hoare c P no_sends (habmm_import c size id) (λ _, P).
Proof. apply hoare_habmm. intros ch. by apply hoare_log_ask. Qed.

Lemma hoare_unimport c P id : hoare c P no_sends (habmm_unimport c id) (λ _, P).
Proof. apply hoare_habmm. intros ch. by apply hoare_log_ask. Qed.

Lemma ro_bind {A B} c n (m : M _ A) (k : A → M _ B) :
  (∀ P, hoare c P no_sends m (λ _, P)) → (∀ a, reply_ok c n (k a)) → reply_ok c n (m ≫= k).
Proof. intros Hm Hk. eapply (hoare_bind c _ no_sends no_sends); [apply Hm|exact Hk]. Qed.

(** ** Calls *)

Lemma body_ok_call {A} φ c (out : A) opcode version args reply :
  fits_message args → φ (message opcode version args) → reply_ok c 16 reply →
  body_ok φ c (call_ext out opcode version c args reply).
Proof.
  intros Hf Hφ Hr. apply (body_ok_hoare φ c _ _ Hφ).
  eapply (hoare_try_ret c _ no_sends (Some [_]) _ _ (writing args) idle); [|done|].
  { by apply (hoare_send_args c args []). }
  eapply (hoare_try_ret c _ (Some [_]) no_sends _ _ (reading 16) (reading 16)); [| |exact Hr].
  - eapply hoare_mono with (Q := λ _, reading 16); [|done|intros ret ch ?; by destruct (decide _)|apply ms_le_refl].
    destruct (Z.eqb_spec version 0) as [->|]; [by apply hoare_transact|by apply hoare_transact_ext].
  - intros ret ch _. apply reading_idle_of.
Qed.

Lemma u32s_length l : length (u32s l) = (4 * length l)%nat.
Proof. unfold u32s. induction l as [|x l IH]; [done|]. cbn [mbind list_bind]. rewrite length_app, le_bytes_length, IH. cbn [length]. lia. Qed.

Lemma params_length l : length (params l) = (4 + length l)%nat.
Proof. unfold params. by rewrite length_app, le_bytes_length. Qed.

Lemma ro_blobs {A} c sizes out (k : _ → M _ (Z * (list (list Z) * A))) a :
  match sizes with [] => True | [size] => reply_fits size 24 | _ => False end →
  (∀ n out, n + 24 ≤ 4096 → reply_ok c n (k out)) →
  reply_ok c 16 (read_blobs c sizes out k a).
Proof.
  intros Hs Hk. destruct sizes as [|size [|? ?]]; [by apply Hk| |done]. cbn.
  destruct Hs as [? [?|?]]; [|by apply ro_blob_large].
  apply ro_blob; [lia..|]. intros v. apply Hk. lia.
Qed.

Create Rewrite HintDb msg.
#[local] Hint Rewrite length_app u32s_length params_length le_bytes_length frame_length
  app_nil_r : msg.

(** What is sent has one or two arguments of fixed size. *)
Ltac fits :=
  unfold fits_message, encode, memory_unmap_params; cbn -[frame params u32s le_bytes];
  autorewrite with msg; cbn [length]; lia.

Ltac sizes :=
  unfold sizeof_shadowprop_t, sizeof_gsl_memdesc_t, sizeof_hgsl_gvm_settings in *; lia.

(** The replies, one read after the other. *)
Ltac reply :=
  repeat first
    [ apply ro_success; [sizes|]
    | apply ro_int32; [sizes|intros ?]
    | apply ro_uint32; [sizes|intros ?]
    | apply ro_uint64; [sizes|intros ?]
    | apply ro_if
    | apply ro_ret ].

Lemma rval_body φ c opcode args :
  fits_message args → φ (message opcode 0 args) →
  body_ok φ c (call None opcode c args (try_read None (recv_int32 c) (λ rval, mret (0, Some rval)))).
Proof. intros Hf Hφ. apply body_ok_call; [done..|]. reply. Qed.

Lemma get_shadowts_body φ c id node :
  φ (message RPC_GET_SHADOWMEM 1 [Blob (params (u32s [GSL_DEVICE_3D; id]))]) →
  body_ok φ c (hgsl_hyp_get_shadowts_mem (Some c) id node).
Proof.
  intros Hφ. apply body_ok_on_channel, body_ok_call; [fits|done|].
  apply ro_blob; [done..|]. intros shadow. reply.
  apply ro_bind; [intros ?; apply hoare_import|]. intros [ret buf]. reply.
Qed.

Lemma put_shadowts_body φ c node :
  φ (message RPC_PUT_SHADOWMEM 0 [Blob (params (u32s [mn_export_id node]))]) →
  body_ok φ c (hgsl_hyp_put_shadowts_mem (Some c) node).
Proof.
  intros Hφ. apply body_ok_try; [apply hoare_reset, writing_idle_of|].
  apply body_ok_bind; [apply hoare_unimport|]. intros _. apply body_ok_call; [fits|done|]. reply.
Qed.

Lemma ctxt_destroy_body φ c h id want export_id :
  φ (message RPC_CONTEXT_DESTROY 0 [Blob (params (u32s [h; id]))]) →
  body_ok φ c (hgsl_hyp_ctxt_destroy (Some c) h id want export_id).
Proof.
  intros Hφ. apply body_ok_on_channel, body_ok_call; [fits|done|].
  apply ro_bind; [intros P; apply hoare_if; [apply hoare_unexport|by apply hoare_ret]|].
  intros ret. reply.
Qed.

Lemma mem_map_body c size offset node :
  held_ok (call_sends (MemMapSmmu size offset node)) c (hgsl_hyp_mem_map_smmu (Some c) size offset node).
Proof.
  apply held_on_channel, body_ok_if.
  { apply body_ok_quiet, hoare_ret, writing_idle_of. }
  apply body_ok_bind; [apply hoare_export|]. intros [ret export_id].
  apply body_ok_if; [apply body_ok_quiet, hoare_ret, writing_idle_of|].
  apply body_ok_call; [fits|by exists export_id|]. apply ro_blob; [done..|]. intros memdesc. reply.
Qed.

Lemma ro_unexport c n id :
  reply_ok c n (if negb (id =? 0) then try_out tt (habmm_unexport c id) (mret (0, tt)) else mret (0, tt)).
Proof.
  apply ro_if; [|apply ro_ret].
  eapply (hoare_try_ret c _ no_sends no_sends _ _ (reading n) (reading n)); [|intros ret ch _; apply reading_idle_of|apply ro_ret].
  eapply hoare_mono; [apply hoare_unexport|done| |apply ms_le_refl]. intros ret ch ?. by destruct (decide _).
Qed.

Lemma mem_unmap_body c node :
  held_ok (call_sends (MemUnmapSmmu node)) c (hgsl_hyp_mem_unmap_smmu (Some c) node).
Proof.
  destruct node as [node|]; [|apply held_quiet, hoare_ret; done].
  apply held_on_channel, body_ok_if.
  - apply body_ok_call; [fits|by eexists _, _, _|]. apply ro_success; [lia|]. apply ro_unexport.
  - apply body_ok_quiet. eapply hoare_mono; [apply (ro_unexport c 16)| |done|apply ms_le_refl].
    intros ch [? _ E]. constructor; [done|lia].
Qed.

Lemma notify_cleanup_body c timeout :
  held_ok (call_sends (NotifyCleanup timeout)) c (hgsl_hyp_notify_cleanup (Some c) timeout).
Proof. apply held_on_channel, body_ok_call; [fits|by eexists _, _, _|reply]. Qed.

Lemma register_dbcq_body c h id size off export_id :
  body_ok (call_sends (RegisterDbcq h id size off export_id)) c
    (hgsl_hyp_context_register_dbcq (Some c) h id size off (Some export_id)).
Proof.
  apply body_ok_on_channel, body_ok_bind; [apply hoare_export|]. intros [ret eid].
  apply body_ok_if; [apply body_ok_quiet, hoare_ret, writing_idle_of|].
  apply body_ok_call; [fits|by exists eid|]. reply.
Qed.

Lemma dbq_info_tail_ro {A} c n info (k : _ → M _ A) :
  n + 52 ≤ 4096 → (∀ info, reply_ok c (n + 52) (k info)) → reply_ok c n (info ← dbq_info_tail c info; k info).
Proof.
  intros Hn Hk. eapply (hoare_bind c _ no_sends no_sends _ _ (λ _, reading (n + 52))); [|exact Hk].
  eapply (hoare_bind c _ no_sends no_sends _ _ (λ _, reading (n + 52))).
  2:{ intros [ret info']. by apply hoare_ret. }
  assert (∀ m ch, m ≤ n + 52 → reading m ch → reading (n + 52) ch) as Hle
    by (intros m ch ? [? ?]; constructor; [done|lia]).
  eapply (hoare_try_val c _ no_sends no_sends _ _ (reading (n + 28)) (reading (n + 28))).
  - eapply hoare_mono; [apply (hoare_recv_uint64 c n); lia|done| |apply ms_le_refl]. by intros [? [?|]].
  - intros ret ch. apply Hle. lia.
  - intros gmuaddr. eapply (hoare_try_val c _ no_sends no_sends _ _ (reading (n + 52)) (reading (n + 52))).
    + eapply hoare_mono; [apply (hoare_recv_uint32 c (n + 28)); lia|done| |apply ms_le_refl].
      intros [? [?|]] ch; apply Hle; lia.
    + done.
    + intros sz. by apply hoare_ret.
Qed.

Lemma query_dbcq_body φ c h id len :
  φ (message RPC_CONTEXT_QUERY_DBCQ 0 [Blob (params (u32s [h; id; len]))]) →
  body_ok φ c (hgsl_hyp_query_dbcq (Some c) h id len).
Proof.
  intros Hφ. apply body_ok_on_channel, body_ok_call; [fits|done|]. apply ro_success; [lia|].
  assert (∀ A n (out : A) k, n + 24 ≤ 4096 → (∀ v, reply_ok c (n + 24) (k v)) →
    reply_ok c n (read_or_einval out c k)) as Hro.
  { intros A n out k Hn Hk.
    eapply (hoare_bind c _ no_sends no_sends); [by apply hoare_recv_uint32|].
    intros [ret [v|]]; [apply Hk|apply ro_ret]. }
  do 3 (apply Hro; [lia|intros ?]). reply.
Qed.

(** ** Calls on a channel of the pool *)

Lemma sends_one_of φ ms l :
  allowed ms l → ms = no_sends ∨ (∃ m, ms = Some [m] ∧ φ m) → sends_one φ l.
Proof.
  intros Hl [->|(m & -> & Hφ)]; cbn in Hl.
  - left. by apply sublist_nil_r.
  - apply sublist_cons_r in Hl as [?%sublist_nil_r|(l' & E & ->%sublist_nil_r)]; [by left|].
    right. eauto.
Qed.

Lemma settled_frame s s' :
  settled s → pool_inv [] s' → hy_busy s' = hy_busy s →
  (∀ c, c ∈ hy_busy s → hy_channels s' !! c = hy_channels s !! c) → settled s'.
Proof.
  intros [_ Hs] Hi Eb Hc. split; [done|]. intros c ch. rewrite Eb. intros Hin. rewrite Hc by done.
  by apply Hs.
Qed.

(** Taking a new channel: none, when one had to be opened, or one more in use. *)
Lemma pool_get_cases s :
  settled s →
  ∃ ret o s1, hgsl_hyp_channel_pool_get 0 s = Some ((ret, o), s1) ∧
    (hy_free s ≠ [] → ∃ l, hy_log s1 = hy_log s ++ l ∧ sends l = []) ∧
    (ret ≠ 0 ∧ o = None ∧ hy_free s = [] ∧ settled s1 ∧ hy_busy s1 = hy_busy s ∨
     ret = 0 ∧ ∃ c ch, o = Some c ∧ pool_inv [] s1 ∧ hy_busy s1 = hy_busy s ++ [c] ∧
       (c ∉ hy_busy s) ∧ hy_channels s1 !! c = Some ch ∧ writing [] ch ∧ ch_busy ch = true ∧
       (∀ c', c' ∈ hy_busy s → hy_channels s1 !! c' = hy_channels s !! c')).
Proof.
  intros Hset. destruct (pool_get_run s (proj1 Hset)) as (ret & o & s1 & E & Hi & Hcase & Hfr & Hl).
  exists ret, o, s1. split; [done|]. split; [done|].
  destruct Hcase as [(Hr & -> & Ef & Eb)|(-> & c & ch & -> & Eb & Hc & Hw & Hbu)].
  - left. split_and!; [done..|by eapply settled_frame|done].
  - right. split; [done|]. exists c, ch. split_and!; try done.
    intros Hx. pose proof (pi_nodup _ _ Hi) as Hn. rewrite Eb in Hn.
    apply NoDup_app in Hn as (_ & _ & Hn). rewrite app_nil_r in Hn.
    apply NoDup_app in Hn as (_ & Hn & _). apply (Hn c Hx). by left.
Qed.

(** A call on a channel of the pool. *)
(** ** What mapping makes of a node *)

(** The description of a node as the backend gives it. *)
Definition describe (id host ga sz flags priv : Z) (placed : list Z) (n : hgsl_mem_node) :
    hgsl_mem_node :=
  n <| mn_export_id := id |> <| mn_hostptr64 := host |> <| mn_gpuaddr := ga |>
    <| mn_size64 := sz |> <| mn_desc_flags := flags |> <| mn_priv64 := priv |>
    <| mn_placed := placed |>.

Definition described (n n' : hgsl_mem_node) : Prop :=
  ∃ id host ga sz flags priv placed, n' = describe id host ga sz flags priv placed n.

Lemma described_id n id : described n (n <| mn_export_id := id |>).
Proof. by repeat eexists. Qed.

Lemma described_set n id memdesc :
  described n (set_memdesc memdesc (n <| mn_export_id := id |>)).
Proof. by repeat eexists. Qed.

Lemma returns_try_ret {A} (R : Z * A → Prop) (out : A) m k :
  (∀ ret, R (ret, out)) → returns R k → returns R (try_out out m k).
Proof. intros Ho Hk. apply returns_bind. intros ret. destruct (ret =? 0); [done|apply returns_ret, Ho]. Qed.

Lemma returns_try_val {V A} (R : Z * A → Prop) (out : A) (m : M hgsl_hyp_priv_t (Z * option V)) k :
  (∀ ret, R (ret, out)) → (∀ v, returns R (k v)) → returns R (try_read out m k).
Proof.
  intros Ho Hk. apply returns_bind. intros [ret [v|]]; [done|apply returns_ret, Ho].
Qed.

Lemma mem_map_describes o size offset n :
  returns (λ r, described n r.2) (hgsl_hyp_mem_map_smmu o size offset n).
Proof.
  unfold hgsl_hyp_mem_map_smmu, on_channel.
  destruct o as [c|]; [|apply returns_ret, described_id].
  apply returns_try_ret; [intros; apply described_id|].
  case_match; [apply returns_ret, described_id|].
  apply returns_bind. intros [ret id]. case_match; [apply returns_ret, described_id|].
  unfold call, call_ext. apply returns_try_ret; [intros; apply described_id|].
  apply returns_try_ret; [intros; apply described_id|].
  apply returns_try_val; [intros; apply described_id|]. intros memdesc. unfold success.
  apply returns_try_val; [intros; apply described_set|]. intros rval.
  case_match; apply returns_ret, described_set.
Qed.

(** ** A channel held over several calls *)

Record held (s0 : hgsl_hyp_priv_t) (c : ptr) (s : hgsl_hyp_priv_t) : Prop := {
  hd_settled : settled s0;
  hd_inv : pool_inv [] s;
  hd_busy : hy_busy s = hy_busy s0 ++ [c];
  hd_new : c ∉ hy_busy s0;
  hd_chan : ∃ ch, hy_channels s !! c = Some ch ∧ idle ch ∧ ch_busy ch = true;
  hd_others : ∀ c', c' ∈ hy_busy s0 → hy_channels s !! c' = hy_channels s0 !! c' }.

Lemma held_get s :
  settled s →
  ∃ ret o s1, hgsl_hyp_channel_pool_get 0 s = Some ((ret, o), s1) ∧
    (ret ≠ 0 ∧ o = None ∧ settled s1 ∧ hy_busy s1 = hy_busy s ∨
     ret = 0 ∧ ∃ c, o = Some c ∧ held s c s1).
Proof.
  intros Hs. destruct (pool_get_cases s Hs) as (ret & o & s1 & E & _ & Hcase).
  exists ret, o, s1. split; [done|].
  destruct Hcase as [(? & ? & _ & ? & ?)|(? & c & ch & ? & ? & ? & ? & ? & Hw & ? & ?)]; [by left|right].
  split; [done|]. exists c. split; [done|]. split; try done. exists ch.
  split_and!; [done|by eapply writing_idle_of|done].
Qed.

Lemma held_call {A} φ (m : M _ A) s0 c s :
  held_ok φ c m → held s0 c s → ∃ a s', m s = Some (a, s') ∧ held s0 c s'.
Proof.
  intros Hm [Hset Hi Hb Hn (ch & Hc & Hid & Hbu) Ho].
  destruct (Hm s ch Hc Hid) as (a & s' & ch' & ms & E & Hs & Hc' & Hid' & _).
  destruct (so_chan _ _ _ _ Hs ch Hc) as (ch2 & Hc2 & _ & Hb2).
  exists a, s'. split; [done|]. split; try done.
  - eapply pool_step; [done..|]. right. rewrite Hb. set_solver.
  - by rewrite (so_busy _ _ _ _ Hs).
  - exists ch'. split_and!; try done. rewrite Hc' in Hc2. injection Hc2 as ->. by rewrite Hb2.
  - intros c' Hin. rewrite (so_others _ _ _ _ Hs) by (by intros ->). by apply Ho.
Qed.

Lemma held_put s0 c s :
  held s0 c s → ∃ s', hgsl_hyp_channel_pool_put (Some c) s = Some (tt, s') ∧ settled s' ∧
    hy_busy s' = hy_busy s0.
Proof.
  intros [Hset Hi Hb Hn (ch & Hc & Hid & Hbu) Ho].
  destruct (pool_put_run s c ch Hi) as (s' & E & Hi' & _ & Eb & _ & Ec); [|done..|].
  { rewrite Hb. set_solver. }
  rewrite Hb, without_snoc in Eb by done. exists s'. split_and!; try done.
  eapply settled_frame; [done..|]. intros c' Hin. rewrite Ec by (by intros ->). by apply Ho.
Qed.

Lemma with_channel_run {A} R φ (out : A) body s :
  settled s → (∀ c, body_gives R φ c (body c)) →
  ∃ r s', with_channel out body s = Some (r, s') ∧ settled s' ∧ hy_busy s' = hy_busy s ∧
    (hy_free s ≠ [] → R r ∧ ∃ l, hy_log s' = hy_log s ++ l ∧ sends_one φ l).
Proof.
  intros Hset Hbody. unfold with_channel.
  destruct (pool_get_cases s Hset) as (ret & o & s1 & E1 & Hl1 & Hcase).
  rewrite (bind_run _ _ _ _ _ E1). cbv beta iota.
  destruct Hcase as [(Hr & -> & Ef & Hset1 & Eb1)|(-> & c & ch & -> & Hi1 & Eb1 & Hnb & Hc1 & Hw & Hbu & Hfr1)].
  - rewrite (proj2 (Z.eqb_neq _ _) Hr). rewrite (bind_run _ _ s1 (ret, out) s1) by done.
    eexists _, s1. split; [reflexivity|]. by split_and!.
  - change (0 =? 0) with true. cbv iota.
    destruct (Hbody c s1 ch Hc1 Hw) as ([ret out'] & s2 & ch2 & ms & E2 & Hs2 & Hc2 & Hid2 & Hms & HR).
    assert (pool_inv [] s2) as Hi2.
    { eapply (pool_step [] c ms s1 s2 ch); [done..|]. right. rewrite Eb1. set_solver. }
    rewrite (bind_run _ _ s1 (ret, out') s2) by exact E2.
    destruct (pool_put_run s2 c ch2 Hi2) as (s3 & E3 & Hi3 & _ & Eb3 & El3 & Ec3); [|done..|].
    { rewrite (so_busy _ _ _ _ Hs2), Eb1. set_solver. }
    rewrite (bind_run _ _ _ _ _ E3). eexists _, s3. split; [reflexivity|].
    rewrite (so_busy _ _ _ _ Hs2), Eb1, without_snoc in Eb3 by done.
    split_and!; [|done|].
    + eapply settled_frame; [done..|]. intros c' Hin. assert (c' ≠ c) by (by intros ->).
      rewrite Ec3 by done. rewrite (so_others _ _ _ _ Hs2) by done. auto.
    + intros (l1 & El1 & Hl1')%Hl1. split; [done|]. destruct (so_log _ _ _ _ Hs2) as (l2 & El2 & Hl2).
      exists (l1 ++ l2). rewrite El3, El2, El1, (assoc_L app). split; [done|].
      unfold sends_one. rewrite sends_app, Hl1'. by eapply sends_one_of.
Qed.

(** ** Calls that can be interrupted *)

Lemma retry_transact opcode c :
  hoare c (reading_at true 16) no_sends (gsl_rpc_transact_ext opcode 0 c true)
    (λ _, reading_at true 16).
Proof.
  unfold gsl_rpc_transact_ext. fold (transact_reply opcode c true).
  eapply (hoare_bind c _ no_sends no_sends); [apply hoare_channel|].
  intros ch0 s ch Hc [-> Hr]. rewrite (idle_retry ch (reading_idle _ _ _ Hr)). cbn [andb].
  exact (hoare_transact_reply true opcode c true s ch Hc Hr).
Qed.

(** The transaction: the channel waits for the retry, or it is in use as before. *)
Lemma interruptible_run s c ch w P ms opcode :
  pool_inv [] s → c ∈ hy_busy s → hy_channels s !! c = Some ch → ch_busy ch = true → P ch →
  hoare c P ms (gsl_rpc_transact_ext opcode 0 c true) (λ _, reading_at w 16) →
  ∃ ret s1 ch1, gsl_rpc_transact_interrruptible opcode c s = Some (ret, s1) ∧
    pool_inv [] s1 ∧ hy_busy s1 = hy_busy s ∧ hy_idr s1 = hy_idr s ∧
    (∃ l, hy_log s1 = hy_log s ++ l ∧ allowed ms l) ∧
    (∀ c', c' ≠ c → hy_channels s1 !! c' = hy_channels s !! c') ∧
    hy_channels s1 !! c = Some ch1 ∧ ch_id ch1 = ch_id ch ∧
    (if decide (ret = - EINTR) then waiting ch1 else reading 16 ch1 ∧ ch_busy ch1 = true).
Proof.
  intros Hi Hin Hc Hbu HP Hm.
  destruct (pool_hoare [] c P ms _ _ s ch Hm Hi Hc HP ltac:(by right))
    as (ret & s1 & ch1 & E1 & Hi1 & Hs1 & Hc1 & [[Hsnd Hrcv Hw] Hpos] & Eid & Ebu).
  destruct (so_log _ _ _ _ Hs1) as (l & El & Hl).
  pose proof (so_busy _ _ _ _ Hs1) as Eb1.
  assert (0 < ch_id ch1) as Hid.
  { rewrite Eid. apply (pi_pos _ _ Hi c); [set_solver|done]. }
  unfold gsl_rpc_transact_interrruptible. rewrite (bind_run _ _ _ _ _ E1). cbv beta.
  set (f := if ret =? - EINTR then (λ ch, ch <| ch_busy := false |> <| ch_wait_retry := true |>)
            else (λ ch, ch <| ch_wait_retry := false |>)).
  set (s2 := s1 <| hy_channels ::= <[c := f ch1]> |>).
  exists ret, s2, (f ch1).
  rewrite (bind_run _ _ s1 tt s2).
  2:{ subst s2 f. destruct (ret =? - EINTR); exact (set_channel_run c _ s1 ch1 Hc1). }
  assert (if decide (ret = - EINTR) then waiting (f ch1) else reading 16 (f ch1) ∧ ch_busy (f ch1) = true) as Hf.
  { subst f. destruct (decide (ret = - EINTR)) as [->|Hr].
    - rewrite Z.eqb_refl. constructor; try done. cbn.
      destruct (recv_ok_mem _ Hrcv) as (_ & _ & _ & _ & ?). lia.
    - rewrite (proj2 (Z.eqb_neq _ _) Hr). cbn. split; [|congruence].
      constructor; [by constructor|done]. }
  split; [done|]. split_and!; try done.
  - eapply (pool_inv_move [] [] s1 s2 c ch1 (f ch1) Hi1 Hc1); try done.
    + subst f. by destruct (ret =? - EINTR).
    + cbn. rewrite (so_free _ _ _ _ Hs1). intros Hx. exfalso.
      pose proof (pi_nodup _ _ Hi) as Hn. apply NoDup_app in Hn as (_ & Hn & _).
      apply (Hn c Hx). set_solver.
    + intros _. destruct (decide (ret = - EINTR)); [by right|left; apply Hf].
  - cbn. by apply (so_idr _ _ _ _ Hs1).
  - exists l. split; [exact El|done].
  - intros c' Hne. cbn. rewrite lookup_insert_ne by done. by apply (so_others _ _ _ _ Hs1).
  - cbn. by rewrite lookup_insert_eq.
  - rewrite <-Eid. subst f. by destruct (ret =? - EINTR).
Qed.

(** The rest of such a call, with the channel [c] in use. *)
Lemma retry_tail_run {A} s c ch w P ms opcode (itr : Z → A) out reply :
  pool_inv [] s → c ∈ hy_busy s → hy_channels s !! c = Some ch → ch_busy ch = true → P ch →
  hoare c P ms (gsl_rpc_transact_ext opcode 0 c true) (λ _, reading_at w 16) →
  reply_ok c 16 (reply c) →
  ∃ r s', (ret ← gsl_rpc_transact_interrruptible opcode c;
      if ret =? - EINTR then
        ch ← channel c; mret (ret, itr (u32 (ch_id ch)))
      else
        '(ret, out) ← (if ret =? 0 then reply c else mret (ret, out));
        hgsl_hyp_channel_pool_put (Some c) ;;
        mret (ret, out)) s = Some (r, s') ∧
    pool_inv [] s' ∧ (∃ l, hy_log s' = hy_log s ++ l ∧ allowed ms l) ∧
    (∀ c', c' ≠ c → hy_channels s' !! c' = hy_channels s !! c') ∧
    (hy_busy s' = hy_busy s ∧ hy_idr s' = hy_idr s ∧ r = (- EINTR, itr (u32 (ch_id ch))) ∧
       (∃ ch', hy_channels s' !! c = Some ch' ∧ waiting ch' ∧ ch_id ch' = ch_id ch) ∨
     hy_busy s' = without c (hy_busy s)).
Proof.
  intros Hi Hin Hc Hbu HP Hm Hre.
  destruct (interruptible_run s c ch w P ms opcode Hi Hin Hc Hbu HP Hm)
    as (ret & s1 & ch1 & E1 & Hi1 & Eb1 & Ei1 & (l1 & El1 & Hl1) & Hfr1 & Hc1 & Eid1 & Hcase).
  rewrite (bind_run _ _ _ _ _ E1). cbv beta. destruct (Z.eqb_spec ret (- EINTR)) as [->|Hr].
  { rewrite decide_True in Hcase by done.
    rewrite (bind_run _ _ _ _ _ (channel_run c s1 ch1 Hc1)). eexists _, s1. split; [reflexivity|].
    split_and!; [done|by exists l1|done|]. left. rewrite Eid1. split_and!; eauto. }
  rewrite decide_False in Hcase by done. destruct Hcase as [Hrd Hbu1].
  assert (∃ r s2 ch2, (if ret =? 0 then reply c else mret (ret, out)) s1 = Some (r, s2) ∧
    pool_inv [] s2 ∧ step_on c no_sends s1 s2 ∧ hy_channels s2 !! c = Some ch2 ∧ idle ch2)
    as ([ret2 out2] & s2 & ch2 & E2 & Hi2 & Hs2 & Hc2 & Hid2).
  { destruct (ret =? 0).
    - destruct (pool_hoare [] c _ _ _ _ s1 ch1 Hre Hi1 Hc1 Hrd) as (r & s2 & ch2 & ?).
      { right. by rewrite Eb1. }
      exists r, s2, ch2. naive_solver.
    - exists (ret, out), s1, ch1. split_and!; try done; [apply step_on_refl|apply Hrd]. }
  rewrite (bind_run _ _ _ _ _ E2). cbv beta iota.
  destruct (pool_put_run s2 c ch2 Hi2) as (s3 & E3 & Hi3 & _ & Eb3 & El3 & Ec3); [|done..|].
  { rewrite (so_busy _ _ _ _ Hs2), Eb1. set_solver. }
  rewrite (bind_run _ _ _ _ _ E3). eexists _, s3. split; [reflexivity|]. split_and!.
  - done.
  - destruct (so_log _ _ _ _ Hs2) as (l2 & El2 & Hl2). exists (l1 ++ l2).
    rewrite El3, El2, El1, (assoc_L app). split; [done|].
    pose proof (allowed_app ms no_sends l1 l2 Hl1 Hl2) as Ha. destruct ms; [|done]. cbn in *.
    by rewrite app_nil_r in Ha.
  - intros c' Hne. by rewrite Ec3, (so_others _ _ _ _ Hs2), Hfr1.
  - right. by rewrite Eb3, (so_busy _ _ _ _ Hs2), Eb1.
Qed.

(** What the calls do to the pool; [fresh] is what can be said of the events when the
    call does not have to open a channel. *)
Definition call_runs {A} (φ : list Z → Prop) (m : M hgsl_hyp_priv_t A) : Prop :=
  ∀ s, settled s →
  ∃ r s', m s = Some (r, s') ∧ settled s' ∧ balanced s s' ∧
    (hy_free s ≠ [] → ∃ l, hy_log s' = hy_log s ++ l ∧ sends_one φ l).

Lemma with_channel_runs {A} φ (out : A) body :
  (∀ c, body_ok φ c (body c)) → call_runs φ (with_channel out body).
Proof.
  intros Hbody s Hs. destruct (with_channel_run _ φ out body s Hs Hbody) as (r & s' & E & ? & Eb & Hl).
  exists r, s'. split_and!; try done; [by apply Returned|]. by intros [_ ?]%Hl.
Qed.

Lemma settled_waiting s c ch :
  settled s → c ∈ hy_busy s → hy_channels s !! c = Some ch → ch_wait_retry ch = true →
  waiting ch.
Proof.
  intros [Hi Hs] Hin Hc Hw. destruct (pi_busy _ _ Hi c ch Hin Hc) as [Hb|?]; [|done].
  rewrite (Hs c ch Hin Hc), Hb in Hw. done.
Qed.

(** The identifiers that lead to a channel waiting for its retry; all others are
    refused. *)
Lemma get_by_id_run s id :
  settled s →
  (∃ c ch, hgsl_hyp_channel_pool_get_by_id id s = Some ((0, Some c), s) ∧
     (c ∈ hy_busy s) ∧ hy_channels s !! c = Some ch ∧ waiting ch ∧ ch_id ch = id ∧
     hy_idr s !! id = Some c) ∨
  hgsl_hyp_channel_pool_get_by_id id s = Some ((- EINVAL, None), s) ∧ ¬ ∃ c, waits s c ∧ hy_idr s !! id = Some c.
Proof.
  intros Hset. unfold hgsl_hyp_channel_pool_get_by_id. destruct Hset as [Hi Hs] eqn:E0.
  destruct (Z.ltb_spec 0 id) as [Hid|Hid]; cbn [negb].
  2:{ right. split; [done|]. intros (c & _ & Hc). destruct (pi_idr _ _ Hi id c Hc). lia. }
  rewrite (bind_run _ _ s (hy_idr s !! id) s) by done.
  destruct (hy_idr s !! id) as [c|] eqn:Ec.
  2:{ right. split; [done|]. by intros (c & _ & ?). }
  destruct (pi_idr _ _ Hi id c Ec) as (_ & ch & Hc & Eid).
  rewrite (bind_run _ _ _ _ _ (channel_run c s ch Hc)).
  destruct (ch_wait_retry ch) eqn:Ew.
  - left. exists c, ch. split; [done|].
    assert (c ∈ hy_busy s) as Hin.
    { assert (c ∈ hy_free s ++ hy_busy s ++ []) as Hx by (apply (pi_dom _ _ Hi); eauto).
      rewrite app_nil_r in Hx. apply elem_of_app in Hx as [Hx|]; [|done].
      destruct (pi_free _ _ Hi c ch Hx Hc) as [[_ _ ?] _]. congruence. }
    split_and!; try done. by apply (settled_waiting s c ch).
  - right. split; [done|]. intros (c' & (ch' & Hc' & Hw & _) & [= <-]).
    rewrite Hc in Hc'. injection Hc' as <-. destruct Hw. congruence.
Qed.

Lemma settled_move s s' c :
  settled s → pool_inv [] s' → (∀ c', c' ∈ hy_busy s' → c' ≠ c → c' ∈ hy_busy s) →
  (∀ c', c' ≠ c → c' ∈ hy_busy s → hy_channels s' !! c' = hy_channels s !! c') →
  (∀ ch, c ∈ hy_busy s' → hy_channels s' !! c = Some ch → waiting ch) → settled s'.
Proof.
  intros [_ Hs] Hi Hb Hfr Hw. split; [done|]. intros c' ch' Hin Hc'.
  destruct (decide (c' = c)) as [->|Hne].
  - destruct (Hw ch' Hin Hc') as [_ _ _ -> ->]. done.
  - rewrite Hfr in Hc' by auto. by apply (Hs c'); [apply Hb|].
Qed.

Lemma elem_of_without_not c l : c ∉ without c l.
Proof. rewrite elem_of_without. naive_solver. Qed.

(** The first try of such a call. *)
Lemma first_try_run {A} (id : Z) (itr : Z → A) out send opcode args reply s :
  settled s → s32 id = 0 → fits_message args →
  (∀ c, hoare c (writing []) no_sends (send c)
     (λ ret ch, if decide (ret = 0) then writing args ch else idle ch)) →
  (∀ c, reply_ok c 16 (reply c)) →
  ∃ r s', with_channel_retry id itr out send opcode reply s = Some (r, s') ∧ settled s' ∧
    (hy_busy s' = hy_busy s ∨
     ∃ c ch, hy_busy s' = hy_busy s ++ [c] ∧ hy_channels s' !! c = Some ch ∧ waiting ch ∧
       hy_idr s' !! ch_id ch = Some c ∧ r = (- EINTR, itr (u32 (ch_id ch)))) ∧
    (hy_free s ≠ [] → ∃ l, hy_log s' = hy_log s ++ l ∧
       sends_one (λ m, m = message opcode 0 args) l).
Proof.
  intros Hset Hid Hf Hsend Hre. unfold with_channel_retry. rewrite Hid.
  destruct (pool_get_cases s Hset) as (ret & o & s1 & E1 & Hl1 & Hcase).
  rewrite (bind_run _ _ _ _ _ E1). cbv beta iota.
  destruct Hcase as [(Hr & -> & Ef & Hset1 & Eb1)|(-> & c & ch & -> & Hi1 & Eb1 & Hnb & Hc1 & Hw & Hbu & Hfr1)].
  { rewrite (proj2 (Z.eqb_neq _ _) Hr). eexists _, s1. split; [reflexivity|].
    split_and!; [done|by left|done]. }
  change (negb (0 =? 0)) with false. cbv iota.
  rewrite (bind_run _ _ s1 c s1), (bind_run _ _ _ _ _ (channel_run c s1 ch Hc1)) by done.
  rewrite (idle_retry ch (writing_idle _ _ Hw)).
  destruct (pool_hoare [] c _ _ _ _ s1 ch (Hsend c) Hi1 Hc1 Hw ltac:(right; rewrite Eb1; set_solver))
    as (ret & s2 & ch2 & E2 & Hi2 & Hs2 & Hc2 & HQ & Eid2 & Ebu2).
  destruct (so_log _ _ _ _ Hs2) as (l2 & El2 & Hl2). apply sublist_nil_r in Hl2.
  pose proof (so_busy _ _ _ _ Hs2) as Eb2. rewrite Eb1 in Eb2.
  rewrite (bind_run _ _ _ _ _ E2). destruct (Z.eqb_spec ret 0) as [->|Hr]; cbn [negb].
  - rewrite decide_True in HQ by done.
    destruct (retry_tail_run s2 c ch2 false (writing args) (Some [message opcode 0 args]) opcode itr out reply Hi2)
      as (r & s3 & E3 & Hi3 & (l3 & El3 & Hl3) & Hfr3 & Hcase); try done.
    { rewrite Eb2. set_solver. }
    { congruence. }
    { by apply hoare_transact_ext. }
    exists r, s3. split; [exact E3|]. split_and!.
    + eapply (settled_move s s3 c); try done.
      * intros c' Hin Hne. destruct Hcase as [(Eb3 & _)|Eb3]; rewrite Eb3 in Hin.
        -- rewrite Eb2 in Hin. set_solver.
        -- apply elem_of_without in Hin as [Hin _]. rewrite Eb2 in Hin. set_solver.
      * intros c' Hne Hin. rewrite Hfr3, (so_others _ _ _ _ Hs2) by done. auto.
      * intros ch3 Hin Hc3. destruct Hcase as [(Eb3 & _ & _ & ch' & Hc' & Hw' & _)|Eb3]; [congruence|].
        rewrite Eb3 in Hin. by apply elem_of_without_not in Hin.
    + destruct Hcase as [(Eb3 & Ei3 & -> & ch' & Hc' & Hw' & Eid')|Eb3].
      * right. exists c, ch'. rewrite Eb3, Eb2, <-Eid'. split_and!; try done.
        apply (pi_ids _ _ Hi3); [done|]. apply (pi_pos _ _ Hi3 c); [|done].
        rewrite Eb3, Eb2. set_solver.
      * left. by rewrite Eb3, Eb2, without_snoc.
    + intros (l1 & El1 & Hl1')%Hl1. exists (l1 ++ l2 ++ l3).
      rewrite El3, El2, El1, !(assoc_L app). split; [done|].
      unfold sends_one. rewrite !sends_app, Hl1', Hl2. eapply (sends_one_of _ _ l3 Hl3). eauto.
  - rewrite decide_False in HQ by done.
    destruct (pool_put_run s2 c ch2 Hi2) as (s3 & E3 & Hi3 & _ & Eb3 & El3 & Ec3); [|done..|].
    { rewrite Eb2. set_solver. }
    rewrite (bind_run _ _ _ _ _ E3). eexists _, s3. split; [reflexivity|].
    rewrite Eb2, without_snoc in Eb3 by done. split_and!; [|by left|].
    + eapply settled_frame; [done..|]. intros c' Hin. assert (c' ≠ c) by (by intros ->).
      rewrite Ec3, (so_others _ _ _ _ Hs2) by done. auto.
    + intros (l1 & El1 & Hl1')%Hl1. exists (l1 ++ l2). rewrite El3, El2, El1, (assoc_L app).
      split; [done|]. left. by rewrite sends_app, Hl1', Hl2.
Qed.

(** Coming back with an identifier: nothing is sent; the channel waits again, or it is
    given back; an identifier of no such channel is refused. *)
Lemma retry_run {A} (id : Z) (itr : Z → A) out send opcode reply s :
  settled s → s32 id ≠ 0 → (∀ c, reply_ok c 16 (reply c)) →
  ∃ r s' l, with_channel_retry id itr out send opcode reply s = Some (r, s') ∧ settled s' ∧
    hy_log s' = hy_log s ++ l ∧ sends l = [] ∧
    ((r = (- EINVAL, out) ∧ s' = s ∧ ¬ ∃ c, waits s c ∧ hy_idr s !! s32 id = Some c) ∨
     ∃ c, waits s c ∧ hy_idr s !! s32 id = Some c ∧
       (hy_busy s' = hy_busy s ∧ waits s' c ∧ r = (- EINTR, itr (u32 (s32 id))) ∨
        hy_busy s' = without c (hy_busy s))).
Proof.
  intros Hset Hid Hre. unfold with_channel_retry, hgsl_hyp_channel_pool_get.
  rewrite (proj2 (Z.eqb_neq _ _) Hid). cbn [negb].
  destruct (get_by_id_run s (s32 id) Hset) as [(c & ch & E & Hin & Hc & Hw & Eid & Hidr)|(E & Hno)].
  2:{ erewrite (bind_run _ _ s (- EINVAL, None) s); [|by rewrite (bind_run _ _ _ _ _ E)].
      cbv beta iota. change (negb (- EINVAL =? 0)) with true. cbv iota.
      rewrite (bind_run _ _ s tt s) by done.
      eexists _, s, []. rewrite app_nil_r. split; [done|]. split_and!; try done. left. done. }
  set (s1 := s <| hy_channels ::= <[c := ch <| ch_busy := true |>]> |>).
  erewrite (bind_run _ _ s (0, Some c) s1).
  2:{ rewrite (bind_run _ _ _ _ _ E). by rewrite (bind_run _ _ _ _ _ (set_channel_run c _ s ch Hc)). }
  cbv beta iota. change (negb (0 =? 0)) with false. cbv iota.
  assert (hy_channels s1 !! c = Some (ch <| ch_busy := true |>)) as Hc1
    by (cbn; by rewrite lookup_insert_eq).
  rewrite (bind_run _ _ s1 c s1), (bind_run _ _ _ _ _ (channel_run c s1 _ Hc1)) by done.
  assert (ch_wait_retry (ch <| ch_busy := true |>) = true) as -> by apply Hw.
  rewrite (bind_run _ _ s1 0 s1) by done. cbv iota.
  assert (pool_inv [] s1) as Hi1.
  { eapply (pool_inv_move [] [] s s1 c ch _ (proj1 Hset) Hc); try done.
    - rewrite Eid. by apply (pi_idr _ _ (proj1 Hset) _ c).
    - cbn. intros Hx. exfalso. pose proof (pi_nodup _ _ (proj1 Hset)) as Hn.
      apply NoDup_app in Hn as (_ & Hn & _). apply (Hn c Hx). set_solver.
    - by left. }
  destruct (retry_tail_run s1 c _ true (reading_at true 16) no_sends opcode itr out reply Hi1 Hin Hc1)
    as (r & s3 & E3 & Hi3 & (l3 & El3 & Hl3) & Hfr3 & Hcase); try done.
  { destruct Hw. constructor; [by constructor|cbn; lia]. }
  { apply retry_transact. }
  exists r, s3, l3. split; [exact E3|]. apply sublist_nil_r in Hl3. split_and!; try done.
  - eapply (settled_move s s3 c); try done.
    + intros c' Hx Hne. destruct Hcase as [(Eb3 & _)|Eb3]; rewrite Eb3 in Hx; [done|].
      by apply elem_of_without in Hx as [? _].
    + intros c' Hne _. rewrite Hfr3 by done. cbn. by rewrite lookup_insert_ne.
    + intros ch3 Hx Hc3. destruct Hcase as [(Eb3 & _ & _ & ch' & Hc' & Hw' & _)|Eb3]; [congruence|].
      rewrite Eb3 in Hx. by apply elem_of_without_not in Hx.
  - right. exists c. split; [exists ch; by rewrite Eid|]. split; [done|].
    destruct Hcase as [(Eb3 & Ei3 & -> & ch' & Hc' & Hw' & Eid')|Eb3]; [left|by right].
    split_and!; try done.
    + exists ch'. rewrite Eid'. cbn. split_and!; try done. rewrite Ei3, Eid. done.
    + cbn. by rewrite Eid.
Qed.

Lemma with_channel_retry_runs {A} φ (id : Z) (itr : Z → A) out send opcode args reply :
  fits_message args → φ (message opcode 0 args) →
  (∀ c, hoare c (writing []) no_sends (send c)
     (λ ret ch, if decide (ret = 0) then writing args ch else idle ch)) →
  (∀ c, reply_ok c 16 (reply c)) →
  call_runs φ (with_channel_retry id itr out send opcode reply).
Proof.
  intros Hf Hφ Hsend Hre s Hset. destruct (decide (s32 id = 0)) as [Hid|Hid].
  - destruct (first_try_run id itr out send opcode args reply s Hset Hid Hf Hsend Hre)
      as (r & s' & E & Hset' & Hb & Hl).
    exists r, s'. split_and!; try done.
    + destruct Hb as [Eb|(c & ch & Eb & Hc & Hw & Hi & _)]; [by apply Returned|].
      apply (Interrupted _ _ c Eb). by exists ch.
    + intros (l & El & Hs)%Hl. exists l. split; [done|].
      destruct Hs as [?|(m & ? & ->)]; [by left|right; eauto].
  - destruct (retry_run id itr out send opcode reply s Hset Hid Hre)
      as (r & s' & l & E & Hset' & El & Hl & Hcase).
    exists r, s'. split_and!; try done; [|intros _; exists l; by split; [|left]].
    destruct Hcase as [(_ & -> & _)|(c & Hw & _ & [(Eb & _)|Eb])].
    + by apply Returned.
    + by apply Returned.
    + by apply (Retried _ _ c).
Qed.

Lemma code_runs {A} φ (m : M _ (Z * A)) : call_runs φ m → call_runs φ (code m).
Proof.
  intros Hm s Hs. destruct (Hm s Hs) as ([ret a] & s' & E & ?). exists ret, s'.
  unfold code. by rewrite (bind_run _ _ _ _ _ E).
Qed.

Lemma issueib_reply_ok p c : reply_ok c 16 (issueib_reply p c).
Proof. apply ro_blob; [lia..|]. intros ts. reply. Qed.

(** A value that the arrays of the caller determine. *)
Lemma hoare_of_option {A B} c P ms (o : option A) (a : A) (k : A → M hgsl_hyp_priv_t B) Q :
  o = Some a → hoare c P ms (k a) Q → hoare c P ms (of_option o ≫= k) Q.
Proof. intros -> Hk. exact Hk. Qed.

Lemma body_ok_of_option {A B} φ c (o : option A) (a : A) (k : A → M hgsl_hyp_priv_t B) :
  o = Some a → body_ok φ c (k a) → body_ok φ c (of_option o ≫= k).
Proof. intros -> Hk. exact Hk. Qed.

Lemma hoare_reset_send c args :
  fits_message args →
  hoare c (writing []) no_sends (_ ← hgsl_rpc_parcel_reset c; send_args c args)
    (λ ret ch, if decide (ret = 0) then writing args ch else idle ch).
Proof.
  intros Hf. eapply (hoare_bind c _ no_sends no_sends).
  { apply hoare_reset_ok, writing_idle_of. }
  intros ret. apply hoare_pure. intros ->. by apply (hoare_send_args c args []).
Qed.

Lemma wait_timestamp_fits p : fits_message (wait_timestamp_args p).
Proof. unfold wait_timestamp_args. fits. Qed.

(** ** Every call *)

Ltac sent := by eexists _, _, _.

Lemma issueib_runs p ib :
  call_ok (Issueib p ib) → call_runs (call_sends (Issueib p ib)) (hgsl_hyp_issueib p (Some ib)).
Proof.
  intros [(op & v & args & Ea & Hf) _]. cbn in Ea. apply fmap_Some in Ea as (l & Ea & [= -> -> ->]).
  apply (with_channel_retry_runs _ _ _ _ _ _ l); [done| | |apply issueib_reply_ok].
  - eexists _, _, _. split; [|done]. cbn. by rewrite Ea.
  - intros c. eapply hoare_of_option; [exact Ea|]. by apply (hoare_send_args c l []).
Qed.

Lemma issueib_with_alloc_list_runs p ib allocs descs offsets :
  call_ok (IssueibWithAllocList p ib allocs descs offsets) →
  call_runs (call_sends (IssueibWithAllocList p ib allocs descs offsets))
    (hgsl_hyp_issueib_with_alloc_list p (Some ib) (Some allocs) (Some descs) (Some offsets)).
Proof.
  intros [(op & v & args & Ea & Hf) _]. cbn in Ea. apply fmap_Some in Ea as (l & Ea & [= -> -> ->]).
  apply (with_channel_retry_runs _ _ _ _ _ _ l); [done| | |apply issueib_reply_ok].
  - eexists _, _, _. split; [|done]. cbn. by rewrite Ea.
  - intros c. eapply hoare_of_option; [exact Ea|]. by apply (hoare_send_args c l []).
Qed.

Lemma wait_reply_ok (p : hyp_wait_ts_info) c :
  reply_ok c 16 (try_read p (recv_int32 c) (λ rval, mret (wait_result rval, p))).
Proof. reply. Qed.

Lemma wait_timestamp_runs p :
  call_runs (call_sends (WaitTimestamp p)) (hgsl_hyp_wait_timestamp p).
Proof.
  apply (with_channel_retry_runs _ _ _ _ _ _ (wait_timestamp_args p)).
  - apply wait_timestamp_fits.
  - sent.
  - intros c. apply hoare_reset_send, wait_timestamp_fits.
  - apply wait_reply_ok.
Qed.

Lemma generic_transaction_runs cmd_id pSend reply_size want :
  call_ok (GenericTransaction cmd_id pSend reply_size want) →
  call_runs (call_sends (GenericTransaction cmd_id pSend reply_size want))
    (hgsl_hyp_generic_transaction cmd_id pSend reply_size want).
Proof.
  intros [(op & v & args & [= <- <- <-] & Hf) Hr]. apply with_channel_runs. intros c.
  apply body_ok_call; [done|sent|]. apply ro_blobs; [exact Hr|]. intros n out Hn. destruct want; reply.
Qed.

Lemma array_calls_run k :
  match k with
  | SyncobjWaitMultiple _ _ _ | PerfcounterSelect _ _ _ _ _ | PerfcounterDeselect _ _ _ _ _ _
  | PerfcounterQuerySelections _ _ _ _ _ => True
  | _ => False
  end → call_ok k → call_runs (call_sends k) (run_call k).
Proof.
  intros Hk [(op & v & args & Ea & Hf) Hr]. pose proof Ea as Ea0.
  destruct k; try done; cbn [call_args] in Ea; apply code_runs.
  all: try (apply fmap_Some in Ea as (l & Ea & [= -> -> ->]));
    apply with_channel_runs; intros c;
    try (eapply body_ok_of_option; [exact Ea|]).
  - destruct Hr as [[? Hr] ?]. apply body_ok_call; [done|by eexists _, _, _|].
    rewrite u64_small by (unfold is_u64; lia).
    destruct Hr; [|by apply ro_blob_large]. apply ro_blob; [lia..|]. intros status. reply.
  - destruct Hr as [? Hr]. apply body_ok_call; [done|by eexists _, _, _|]. reply.
    destruct Hr; [|by apply ro_blob_large].
    apply ro_blob; [lia..|]. intros regs. apply ro_blob; [lia..|]. intros hi. reply.
  - apply body_ok_call; [done|by eexists _, _, _|reply].
  - destruct Hr as [? Hr]. apply body_ok_call; [fits|clear; sent|]. reply.
    destruct Hr; [|by apply ro_blob_large]. apply ro_blob; [lia..|]. intros l. reply.
Qed.

Lemma get_dbq_info_runs idx info :
  call_runs (call_sends (GetDbqInfo idx info)) (hgsl_hyp_get_dbq_info idx info).
Proof.
  apply with_channel_runs. intros c. apply body_ok_call; [fits|sent|]. reply. cbn zeta.
  apply dbq_info_tail_ro; [lia|]. intros info'. apply ro_bind; [intros; apply hoare_import|].
  intros [ret buf]. reply.
Qed.

Lemma hoare_unexport_ipcq c P settings :
  hoare c P no_sends (unexport_ipcq c settings) (λ _, P).
Proof.
  assert (∀ b id, hoare c P no_sends
    (when b (_ ← habmm_unexport c id; mret tt)) (λ _, P)) as Hw.
  { intros [] id; [|by apply hoare_ret].
    eapply (hoare_bind c _ no_sends no_sends); [apply hoare_unexport|]. intros ret. by apply hoare_ret. }
  eapply (hoare_bind c _ no_sends no_sends); [apply Hw|]. intros [].
  eapply (hoare_bind c _ no_sends no_sends); [apply Hw|]. intros []. by apply hoare_ret.
Qed.

Lemma export_ipc_body c nodes settings φ :
  (∀ pkmd_id gmu_id, φ (message RPC_GVM_INIT 0
     [Blob (init_param_bytes (settings <| is_pkmd_export_id := pkmd_id |>
                                <| is_gmu_export_id := gmu_id |>))])) →
  body_ok φ c (export_ipc_on nodes settings c).
Proof.
  intros Hφ. unfold export_ipc_on.
  assert (∀ P r settings, (∀ ch, P ch → idle ch) →
    hoare c P no_sends (s ← unexport_ipcq c settings; mret (r : Z, (s, @None (list Z)))) (λ _, idle)) as Herr.
  { intros P r st HP. eapply (hoare_bind c _ no_sends no_sends); [apply hoare_unexport_ipcq|].
    intros st'. by apply hoare_ret. }
  pose proof (λ ch, writing_idle_of [] ch) as Hw.
  destruct nodes; cbn [negb]; [|by apply body_ok_quiet, hoare_ret].
  apply body_ok_bind; [apply hoare_export|]. intros [ret id].
  apply body_ok_if; [apply body_ok_quiet; by apply Herr|].
  apply body_ok_bind; [apply hoare_export|]. intros [ret2 id2].
  apply body_ok_if; [apply body_ok_quiet; by apply Herr|].
  apply body_ok_then.
  - apply body_ok_call; [unfold init_param_bytes; fits|exact (Hφ id id2)|].
    eapply (hoare_bind c _ no_sends no_sends); [by apply hoare_recv_int32|].
    intros [_ [rval|]]; [|apply ro_ret]. apply ro_if; [apply ro_ret|].
    apply ro_blob; [sizes..|]. intros ?. apply ro_ret.
  - intros [r [gvm|]]; [by apply hoare_ret|by apply Herr].
Qed.

Lemma call_runs_all k : call_ok k → call_runs (call_sends k) (run_call k).
Proof.
  intros Hk. destruct k; try (by apply array_calls_run);
    apply code_runs; cbn [run_call];
    try (apply with_channel_runs; intros c; first
      [ apply rval_body; [fits|sent]
      | apply body_ok_on_channel, body_ok_call; [fits|sent|solve [reply]]
      | apply body_ok_call; [fits|sent|solve [reply]]
      | apply held_body, mem_map_body | apply held_body, mem_unmap_body | apply register_dbcq_body
      | apply ctxt_destroy_body; sent | apply get_shadowts_body; sent
      | apply put_shadowts_body; sent | apply query_dbcq_body; sent ]).
  - by apply generic_transaction_runs.
  - apply with_channel_runs. intros c. apply body_ok_call; [|sent|reply].
    apply fits_blob. unfold metainfo_params.
    pose proof (strscpy_length (replicate 128 0) metainfo) as Hl. rewrite length_replicate in Hl.
    rewrite !length_app, !le_bytes_length. lia.
  - by apply issueib_runs.
  - by apply issueib_with_alloc_list_runs.
  - apply wait_timestamp_runs.
  - apply get_dbq_info_runs.
  - apply with_channel_runs. intros c. apply export_ipc_body. intros pkmd_id gmu_id. by exists pkmd_id, gmu_id.
Qed.

(** ** The queues of the GMU *)

(** The part of hgsl_hyp_deinit_ipcq between taking the channel and giving it back. *)
Definition deinit_request (c : ptr) (devhandle : Z) : M hgsl_hyp_priv_t (Z * option Z) :=
  try_out None (hgsl_rpc_parcel_reset c)
    (call None RPC_GVM_DEINIT c [Blob (params (u32s [devhandle]))]
       (try_read None (recv_blob c 4) (λ retval, mret (0, Some (le_value retval))))).

Lemma deinit_request_ok c devhandle : body_ok (λ _, True) c (deinit_request c devhandle).
Proof.
  apply body_ok_try; [apply hoare_reset, writing_idle_of|]. apply body_ok_call; [fits|done|].
  apply ro_blob; [lia..|]. intros retval. reply.
Qed.

Lemma deinit_ipcq_run s devhandle settings :
  settled s →
  ∃ released settings' s', hgsl_hyp_deinit_ipcq devhandle settings s = Some ((released, settings'), s') ∧
    settled s' ∧
    (hy_busy s' = hy_busy s ∧ (released = false → hy_free s = []) ∨
     released = false ∧ ∃ c ch, (c ∉ hy_busy s) ∧ hy_busy s' = hy_busy s ++ [c] ∧
       hy_channels s' !! c = Some ch ∧ ch_busy ch = true).
Proof.
  intros Hset. unfold hgsl_hyp_deinit_ipcq.
  destruct (pool_get_cases s Hset) as (ret & o & s1 & E1 & _ & Hcase).
  rewrite (bind_run _ _ _ _ _ E1). cbv beta iota.
  destruct Hcase as [(Hr & -> & Ef & Hset1 & Eb1)|(-> & c & ch & -> & Hi1 & Eb1 & Hnb & Hc1 & Hw & Hbu & Hfr1)].
  { rewrite (proj2 (Z.eqb_neq _ _) Hr). eexists _, _, s1. split; [reflexivity|]. split; [done|]. by left. }
  change (negb (0 =? 0)) with false. cbv iota. rewrite (bind_run _ _ s1 c s1) by done.
  fold (deinit_request c devhandle).
  destruct (deinit_request_ok c devhandle s1 ch Hc1 Hw)
    as ([ret retval] & s2 & ch2 & ms & E2 & Hs2 & Hc2 & Hid2 & _ & _).
  rewrite (bind_run _ _ _ _ _ E2). cbv beta iota.
  assert (pool_inv [] s2) as Hi2.
  { eapply (pool_step [] c ms s1 s2 ch); [done..|]. right. rewrite Eb1. set_solver. }
  destruct (so_chan _ _ _ _ Hs2 ch Hc1) as (ch2' & Hc2' & _ & Ebu2). rewrite Hc2 in Hc2'.
  injection Hc2' as <-. rewrite Hbu in Ebu2.
  pose proof (so_busy _ _ _ _ Hs2) as Eb2. rewrite Eb1 in Eb2.
  assert (∀ c', c' ∈ hy_busy s → c' ≠ c) as Hne by (intros c' Hx E; by rewrite E in Hx).
  destruct (bool_decide (retval = Some 0)).
  - destruct (pool_hoare [] c _ _ _ _ s2 ch2 (hoare_unexport_ipcq c idle settings) Hi2 Hc2 Hid2
      ltac:(right; rewrite Eb2; set_solver)) as (st & s3 & ch3 & E3 & Hi3 & Hs3 & Hc3 & Hid3 & _ & _).
    rewrite (bind_run _ _ _ _ _ E3).
    destruct (pool_put_run s3 c ch3 Hi3) as (s4 & E4 & Hi4 & _ & Eb4 & _ & Ec4); [|done..|].
    { rewrite (so_busy _ _ _ _ Hs3), Eb2. set_solver. }
    rewrite (bind_run _ _ _ _ _ E4). eexists _, _, s4. split; [reflexivity|].
    rewrite (so_busy _ _ _ _ Hs3), Eb2, without_snoc in Eb4 by done. split; [|by left].
    eapply settled_frame; [done..|]. intros c' Hin.
    rewrite Ec4, (so_others _ _ _ _ Hs3), (so_others _ _ _ _ Hs2) by auto. auto.
  - eexists _, _, s2. split; [reflexivity|]. split.
    + split; [done|]. intros c' ch' Hin Hc'. rewrite Eb2 in Hin.
      apply elem_of_app in Hin as [Hin|E%list_elem_of_singleton].
      * rewrite (so_others _ _ _ _ Hs2), Hfr1 in Hc' by auto. by apply (proj2 Hset c').
      * rewrite E, Hc2 in Hc'. injection Hc' as <-. by rewrite Ebu2, (idle_retry _ Hid2).
    + right. split; [done|]. by exists c, ch2.
Qed.

(** One look at the pool while a channel is in use. *)
Lemma pool_close_blocked s c ch :
  pool_inv [] s → c ∈ hy_busy s → hy_channels s !! c = Some ch → ch_busy ch = true →
  ∃ s', hgsl_hyp_channel_pool_close s = Some (false, s') ∧ pool_inv [] s' ∧ c ∈ hy_busy s' ∧
    ∃ ch', hy_channels s' !! c = Some ch' ∧ ch_busy ch' = true.
Proof.
  intros Hi Hin Hc Hbu. unfold hgsl_hyp_channel_pool_close.
  destruct (put_waiting_run s Hi) as (s1 & E1 & Hi1 & _ & Hsame & Hb).
  assert (c ∈ hy_busy s1) as Hin1 by (apply Hb; eauto).
  rewrite (bind_run _ _ _ _ _ E1), (bind_run _ _ s1 (hy_busy s1) s1) by done.
  rewrite bool_decide_eq_false_2 by (intros E; rewrite E in Hin1; set_solver).
  exists s1. split; [done|]. split_and!; try done.
  destruct (Hsame c ch Hc) as (ch' & ? & _ & ?). exists ch'. split; [done|congruence].
Qed.

(** * Properties *)

(** C4. The calls that [hyp_call] lists (not hgsl_hyp_deinit_ipcq, which keeps its channel
    when it fails, the calls of the profiler and the creation of a context) return whatever
    the backend sends and however often it fails, as long as an array that they ask for
    fits into the buffer of the reply or is refused as too large for any ([call_ok]; in
    between the reader runs past the buffer): from a pool in which only interrupted calls
    keep a channel, each ends in such a pool.  Its own channel has been given back, unless
    it was interrupted and waits for its retry, or the channel of the retried call has been
    given back; nothing else about the channels in use changes.  And unless a channel had
    to be opened, it has sent at most one message: the one of its function with its
    arguments. *)
Theorem hyp_calls_balanced k s :
  settled s → call_ok k →
  ∃ ret s', run_call k s = Some (ret, s') ∧ settled s' ∧ balanced s s' ∧
    (hy_free s ≠ [] → ∃ l, hy_log s' = hy_log s ++ l ∧ sends_one (call_sends k) l).
Proof. intros Hs Hk. exact (call_runs_all k Hk s Hs). Qed.

(** C30. A wait that is interrupted keeps its channel and tells its caller which; coming
    back with what it was told, the wait sends nothing: it receives the reply of the
    message that was sent the first time, and is interrupted again, on the same
    channel, or gives the channel back. *)
Theorem interrupted_wait_resumes p s r s' :
  settled s → s32 (wi_channel_id p) = 0 →
  hgsl_hyp_wait_timestamp p s = Some (r, s') → hy_busy s' ≠ hy_busy s →
  (∀ id c, hy_idr s' !! id = Some c → id < 2147483648) →
  ∃ id c, r = (- EINTR, p <| wi_channel_id := id |>) ∧ hy_busy s' = hy_busy s ++ [c] ∧
    ∃ r2 s2 l, hgsl_hyp_wait_timestamp r.2 s' = Some (r2, s2) ∧
      hy_log s2 = hy_log s' ++ l ∧ sends l = [] ∧ settled s2 ∧
      (r2 = r ∧ hy_busy s2 = hy_busy s' ∨ hy_busy s2 = hy_busy s).
Proof.
  intros Hset Hid E Hb Hint.
  destruct (first_try_run (wi_channel_id p) (λ id, p <| wi_channel_id := id |>) p _
    RPC_COMMAND_WAITTIMESTAMP _ _ s Hset Hid (wait_timestamp_fits p)
    (λ c, hoare_reset_send c _ (wait_timestamp_fits p))
    (λ c, wait_reply_ok p c)) as (r' & s1 & E' & Hset1 & Hcase & _).
  assert (Some (r', s1) = Some (r, s')) as [= -> ->] by (rewrite <-E; symmetry; exact E').
  destruct Hcase as [?|(c & ch & Eb & Hc & Hw & Hi & ->)]; [done|].
  destruct (pi_idr _ _ (proj1 Hset1) _ _ Hi) as (Hpos & _). pose proof (Hint _ _ Hi) as Hmax.
  set (id := u32 (ch_id ch)). assert (s32 id = ch_id ch) as Hs32.
  { unfold s32, id, u32. rewrite Zmod_mod, Z.mod_small by lia.
    destruct (Z.ltb_spec (ch_id ch) 2147483648); lia. }
  exists id, c. split; [done|]. split; [done|].
  destruct (retry_run id (λ id, p <| wi_channel_id := id |>) (p <| wi_channel_id := id |>)
    (λ c, _ ← hgsl_rpc_parcel_reset c; send_args c (wait_timestamp_args (p <| wi_channel_id := id |>)))
    RPC_COMMAND_WAITTIMESTAMP
    (λ c, try_read (p <| wi_channel_id := id |>) (recv_int32 c) (λ rval, mret (wait_result rval, p <| wi_channel_id := id |>)))
    s' Hset1 ltac:(lia) (λ c, wait_reply_ok _ c)) as (r2 & s2 & l & E2 & Hset2 & El & Hl & Hcase2).
  exists r2, s2, l. split; [exact E2|]. split_and!; try done. rewrite Hs32 in Hcase2.
  destruct Hcase2 as [(_ & _ & Hno)|(c2 & Hw2 & Hi2 & Hcase2)].
  { exfalso. apply Hno. exists c. split; [by exists ch|done]. }
  rewrite Hi in Hi2. injection Hi2 as <-. destruct Hcase2 as [(Eb2 & _ & ->)|Eb2].
  - left. by split.
  - right. rewrite Eb2, Eb, without_snoc; [done|]. intros Hin.
    pose proof (pi_nodup _ _ (proj1 Hset1)) as Hn. rewrite Eb in Hn.
    apply NoDup_app in Hn as (_ & _ & Hn). rewrite app_nil_r in Hn.
    apply NoDup_app in Hn as (_ & Hn & _). apply (Hn c Hin). by left.
Qed.

(** hgsl_hyp_deinit_ipcq that does not get through to the backend keeps its channel
    for good: it is not given back, it does not wait for a retry, and closing the pool
    finds it in use at every look, so that the close never ends. *)
Theorem deinit_failure_blocks_close devhandle settings settings' s s' :
  settled s → hy_free s ≠ [] →
  hgsl_hyp_deinit_ipcq devhandle settings s = Some ((false, settings'), s') →
  ∀ n, ∃ s'', hgsl_hyp_close n s' = Some (false, s'') ∧ ∃ c, (c ∉ hy_busy s) ∧ c ∈ hy_busy s''.
Proof.
  intros Hset Hfree E n.
  destruct (deinit_ipcq_run s devhandle settings Hset) as (rel & st & s1 & E1 & Hset1 & Hcase).
  rewrite E in E1. injection E1 as <- <- <-.
  destruct Hcase as [(_ & Hf)|(_ & c & ch & Hnb & Eb & Hc & Hbu)]; [by rewrite Hf in Hfree|].
  destruct Hset1 as [Hi1 _]. assert (c ∈ hy_busy s') as Hin by (rewrite Eb; set_solver).
  clear E Hset Eb. revert s' ch Hi1 Hin Hc Hbu.
  induction n as [|n IH]; intros s' ch Hi1 Hin Hc Hbu; cbn [hgsl_hyp_close channel_pool_close_looks].
  { exists s'. eauto. }
  destruct (pool_close_blocked s' c ch Hi1 Hin Hc Hbu) as (s2 & E2 & Hi2 & Hin2 & ch2 & Hc2 & Hbu2).
  destruct (IH s2 ch2 Hi2 Hin2 Hc2 Hbu2) as (s3 & E3 & Hc3).
  exists s3. split; [|done]. unfold hgsl_hyp_close. cbn [channel_pool_close_looks].
  by rewrite (bind_run _ _ _ _ _ E2).
Qed.
End run.

(** * Witnesses *)

Lemma demo_settled : settled demo_pool.
Proof.
  split; [exact demo_pool_inv|]. intros c ch Hin Hc.
  destruct (demo_channels c ch Hc) as [[E ->]|[E ->]]; [|done]. by apply list_elem_of_singleton in Hin; subst c.
Qed.

Lemma hyp_calls_balanced_witness :
  settled demo_pool ∧
  ∃ ret s', @run_call (demo_hab 0 []) (ReadTimestamp 1 2 3) demo_pool = Some (ret, s') ∧
    settled s' ∧ balanced demo_pool s' ∧ ret = - EINVAL.
Proof.
  split; [exact demo_settled|].
  destruct (@hyp_calls_balanced (demo_hab 0 []) (ReadTimestamp 1 2 3) demo_pool demo_settled)
    as (ret & s' & E & Hs & Hb & _).
  { split; [|done]. eexists _, _, _. split; [reflexivity|]. apply fits_blob. cbn. lia. }
  exists ret, s'. split; [exact E|]. split; [exact Hs|]. split; [exact Hb|].
  assert (fst <$> @run_call (demo_hab 0 []) (ReadTimestamp 1 2 3) demo_pool = Some (- EINVAL)) as E'
    by (vm_compute; reflexivity).
  rewrite E in E'. by injection E' as ->.
Defined.

Definition demo_wait : hyp_wait_ts_info :=
  {| wi_context_id := 3; wi_timestamp := 40; wi_timeout := GSL_TIMEOUT_INFINITE;
     wi_devhandle := 1; wi_channel_id := 0 |}.

Lemma interrupted_wait_resumes_witness :
  ∃ r s' id c, @hgsl_hyp_wait_timestamp (demo_hab (- EINTR) []) demo_wait demo_pool = Some (r, s') ∧
    r = (- EINTR, demo_wait <| wi_channel_id := id |>) ∧
    hy_busy s' = hy_busy demo_pool ++ [c] ∧
    ∃ r2 s2 l, @hgsl_hyp_wait_timestamp (demo_hab (- EINTR) []) r.2 s' = Some (r2, s2) ∧
      hy_log s2 = hy_log s' ++ l ∧ sends l = [] ∧ settled s2 ∧
      (r2 = r ∧ hy_busy s2 = hy_busy s' ∨ hy_busy s2 = hy_busy demo_pool).
Proof.
  set (run := @hgsl_hyp_wait_timestamp (demo_hab (- EINTR) []) demo_wait demo_pool).
  assert ((λ x : _ * hgsl_hyp_priv_t, (hy_busy x.2, hy_idr x.2)) <$> run =
    Some ([2%positive; 1%positive], hy_idr demo_pool)) as E by (vm_compute; reflexivity).
  destruct run as [[r s']|] eqn:Er; [|done]. injection E as Eb Ei.
  destruct (@interrupted_wait_resumes (demo_hab (- EINTR) []) demo_wait demo_pool r s')
    as (id & c & H').
  - exact demo_settled.
  - done.
  - exact Er.
  - cbn in Eb. rewrite Eb. done.
  - cbn in Ei. rewrite Ei. cbn.
    intros id c [[<- <-]|[_ [<- <-]%lookup_singleton_Some]]%lookup_insert_Some; lia.
  - exists r, s', id, c. split; [done|exact H'].
Defined.

Definition demo_settings : hgsl_init_param_t :=
  {| is_size := 60; is_devhandle := 1; is_pkmd_export_id := 3; is_pkmd_dwsize := 1024;
     is_PKMD2HGSL_queue_offset := 0; is_feature_flags := 0; is_PKMD2HGSL_rb_offset := 12;
     is_gmu_export_id := 4; is_gmu_dwsize := 1024; is_GMU2HGSL_queue_offset := 0;
     is_GMU2HGSL_queue_size := 512; is_GMU2HGSL_rb_offset := 12;
     is_HGSL2GMU_queue_offset := 512; is_HGSL2GMU_queue_size := 512;
     is_HGSL2GMU_rb_offset := 524 |}.

Lemma deinit_failure_blocks_close_witness :
  ∃ s', @hgsl_hyp_deinit_ipcq (demo_hab 0 []) 1 demo_settings demo_pool =
      Some ((false, demo_settings), s') ∧
    ∃ s'', @hgsl_hyp_close (demo_hab 0 []) 3 s' = Some (false, s'') ∧
      ∃ c, (c ∉ hy_busy demo_pool) ∧ c ∈ hy_busy s''.
Proof.
  set (run := @hgsl_hyp_deinit_ipcq (demo_hab 0 []) 1 demo_settings demo_pool).
  assert (fst <$> run = Some (false, demo_settings)) as E by (vm_compute; reflexivity).
  destruct run as [[r s']|] eqn:Er; [|done]. injection E as ->.
  exists s'. split; [done|].
  by apply (@deinit_failure_blocks_close (demo_hab 0 []) 1 demo_settings demo_settings demo_pool s'
    demo_settled).
Defined.
