(* ===== verification/HypReply.v ===== *)
(** A call answered by the backend (hgsl_hyp.c with hgsl_hyp_socket.c): when the sockets
    work and the reply is a message of the function that was called, the call reads
    exactly the values that the message was made of. *)

From S2P Require Import Prelude.
From S2P Require Import Bytes.
From S2P Require Import Parcel.
From S2P Require Import Hyp.
From S2P Require Import HypPool.
From S2P Require Import HypCalls.

(** * Specification *)

(** The sockets and the memory do not fail, and what comes back is [reply]. *)
Record answers `{Hab} (reply : list Z) : Prop := {
  an_send : ∀ t socket data, hab_send t socket data = 0;
  an_recv : ∀ t socket i, hab_recv t socket PARCEL_SIZE i = (0, reply);
  an_malloc : ∀ t n, hab_malloc t n ≠ None }.

(** A channel whose reply goes on with [args]. *)
Record got (args : list arg) (ch : hgsl_hab_channel_t) : Prop := {
  got_idle : idle ch;
  got_at : ∃ pre rest, hp_data (ch_recv_buf ch) = Some (pre ++ encode args ++ rest) ∧
    hp_data_pos (ch_recv_buf ch) = Z.of_nat (length pre) ∧
    length (pre ++ encode args ++ rest) = 4096%nat }.

(** * Lemmas *)

Section reply.
Context `{Hab}.

Lemma got_idle_of args ch : got args ch → idle ch.
Proof. by intros []. Qed.

(** Reading the next argument. *)
Lemma hoare_read_like {V} c a args (m : M gsl_hab_payload (Z * option V)) v :
  arg_ok a →
  (∀ p, read_arg_like a p = Some ((0, Some a), p <| hp_data_pos := hp_data_pos p + Z.of_nat (length (arg_data a)) + 20 |>) →
    m p = Some ((0, Some v), p <| hp_data_pos := hp_data_pos p + Z.of_nat (length (arg_data a)) + 20 |>)) →
  hoare c (got (a :: args)) no_sends (on_recv c (λ _, m)) (λ r ch, r = (0, Some v) ∧ got args ch).
Proof.
  intros Ha Hm. apply hoare_on_recv. intros _ ch _ [Hi (pre & rest & Hd & Hpos & Hl)].
  rewrite encode_cons, <-(assoc_L app) in Hd, Hl.
  destruct (recv_ok_mem _ (idle_recv ch Hi)) as (mem & Hd' & Lm & Es & Hp).
  set (p := ch_recv_buf ch) in *.
  set (f := frame (arg_type a) (arg_data a)) in *.
  assert (Z.of_nat (length (pre ++ f)) = hp_data_pos p + Z.of_nat (length (arg_data a)) + 20) as Hpos'.
  { subst f. rewrite length_app, frame_length, Hpos. lia. }
  assert (read_arg_like a p = Some ((0, Some a),
    p <| hp_data_pos := hp_data_pos p + Z.of_nat (length (arg_data a)) + 20 |>)) as E.
  { rewrite <-Hpos'. apply (read_arg_like_run p pre a (encode args ++ rest)); try done.
    - unfold small. rewrite Es. lia.
    - subst f. rewrite Hl, Es. done. }
  eexists _, _. split; [by apply Hm|]. split; [done|].
  assert (length (pre ++ f) ≤ 4096)%nat by (rewrite <-Hl, !length_app; lia).
  constructor.
  - apply idle_recv_buf; [done|]. eapply recv_ok_of; [exact Hd'|done|done|]. cbn. lia.
  - exists (pre ++ f), rest. split_and!; [by rewrite <-(assoc_L app)|symmetry; exact Hpos'|by rewrite <-(assoc_L app)].
Qed.

Lemma hoare_got_int32 c v args :
  arg_ok (Int32 v) →
  hoare c (got (Int32 v :: args)) no_sends (recv_int32 c) (λ r ch, r = (0, Some v) ∧ got args ch).
Proof.
  intros Hv. apply (hoare_read_like c (Int32 v) args); [done|]. intros p E. cbn [read_arg_like] in E.
  apply bind_Some in E as ([ret o] & p' & E & E'). injection E' as -> Eo ->.
  destruct o as [v'|]; [|done]. by injection Eo as ->.
Qed.

Lemma hoare_got_uint32 c v args :
  arg_ok (Uint32 v) →
  hoare c (got (Uint32 v :: args)) no_sends (recv_uint32 c) (λ r ch, r = (0, Some v) ∧ got args ch).
Proof.
  intros Hv. apply (hoare_read_like c (Uint32 v) args); [done|]. intros p E. cbn [read_arg_like] in E.
  apply bind_Some in E as ([ret o] & p' & E & E'). injection E' as -> Eo ->.
  destruct o as [v'|]; [|done]. by injection Eo as ->.
Qed.

(** ** The transaction *)

Section answered.
Context (opcode version : Z) (replies : list arg).
Hypothesis Han : answers (message opcode version replies).
Hypothesis Hop : is_u32 opcode.
Hypothesis Hver : is_u32 version.
Hypothesis Hlen : (length (message opcode version replies) ≤ 4096)%nat.

Lemma send_args_succeeds c args args0 :
  fits_message (args0 ++ args) →
  hoare c (writing args0) no_sends (send_args c args) (λ ret ch, ret = 0 ∧ writing (args0 ++ args) ch).
Proof.
  revert args0. induction args as [|a args IH]; intros args0 Hs; cbn [send_args].
  { apply hoare_ret. intros ch ?. by rewrite app_nil_r. }
  assert (fits_message ((args0 ++ [a]) ++ args)) as Hs' by (by rewrite <-(assoc_L app)).
  eapply (hoare_try_ret c _ no_sends no_sends _ _ (writing (args0 ++ [a])) (λ _, False)); [|done|].
  - apply hoare_on_send_at. intros t ch [Hi (rest & Hat) Hr].
    unfold fits_message in Hs. rewrite encode_app, encode_cons, !length_app, frame_length in Hs.
    destruct (write_arg_run (hab_malloc t) (hab_malloc_size t) a _ _ _ Hat)
      as [(E & n & Hn)|(p & rest' & E & Hp)].
    + rewrite (pa_pos _ _ _ Hat). rewrite length_app, length_replicate. unfold small. lia.
    + by apply (an_malloc _ Han) in Hn.
    + eexists 0, p. split; [exact E|]. rewrite decide_True by done. constructor.
      * apply idle_send_buf; [done|]. by eexists _, _.
      * exists rest'. cbn. rewrite encode_app, encode_cons, (assoc_L app).
        by rewrite app_nil_r in *.
      * done.
  - rewrite (app_assoc args0 [a] args : args0 ++ a :: args = _). by apply IH.
Qed.

Lemma finalize_succeeds c args :
  fits_message args →
  hoare c (λ ch, idle ch ∧
    (∃ rest, parcel_at (ch_send_buf ch)
       ((le_bytes 4 GSL_HAB_CALL_MAGIC ++ le_bytes 4 opcode ++ le_bytes 4 version) ++
        replicate 4 0 ++ encode args) rest) ∧ hp_data_pos (ch_recv_buf ch) = 16) no_sends
    (on_send c gsl_rpc_finalize) (λ ret ch, ret = 0 ∧ sealed (message opcode version args) ch).
Proof.
  intros Hs. set (h := le_bytes 4 GSL_HAB_CALL_MAGIC ++ le_bytes 4 opcode ++ le_bytes 4 version).
  apply hoare_on_send_at. intros t ch (Hi & (rest & Hat) & Hr). unfold fits_message in Hs.
  destruct (finalize_run (hab_malloc t) (hab_malloc_size t) _ _ _ _ _ Hat eq_refl eq_refl)
    as [(E & n & Hn)|(p & rest' & E & Hp)].
  - rewrite (pa_pos _ _ _ Hat). rewrite !length_app. change (length h) with 12%nat.
    cbn [length replicate]. unfold small. lia.
  - by apply (an_malloc _ Han) in Hn.
  - eexists 0, p. split; [exact E|]. split; [done|]. constructor; [|exists rest'|done].
    + apply idle_send_buf; [done|]. by eexists _, _.
    + rewrite u32_small in Hp by (unfold is_u32; lia).
      unfold message, call_header. fold h. by rewrite <-(assoc_L app h).
Qed.

Lemma hoare_send_zero c m :
  hoare c (sealed m) (Some [m]) (gsl_rpc_send c) (λ ret ch, ret = 0 ∧ reading 16 ch).
Proof.
  unfold gsl_rpc_send. eapply (hoare_bind c _ no_sends (Some [m])); [apply hoare_channel|].
  intros ch s ch' Hc (<- & [Hi (rest & [Hd Hpos _ _ _]) Hr]).
  rewrite (bind_run _ _ s (m ++ rest) s) by (by rewrite Hd).
  rewrite (bind_run _ _ s m s).
  2:{ pose proof (peek_app [] m rest) as E. cbn in E. rewrite Hpos, Nat2Z.id. by rewrite E. }
  assert (hoare c (λ ch', ch' = ch) (Some [m])
    (log (HabSend (ch_socket ch) m) ;; ask (λ t, hab_send t (ch_socket ch) m))
    (λ ret ch, ret = 0 ∧ reading 16 ch)) as Hs.
  { eapply (hoare_bind c _ (Some [m]) no_sends _ _ (λ _ ch', ch' = ch)).
    { apply hoare_log. unfold allowed, sends. cbn. reflexivity. }
    intros []. apply hoare_ask. intros t ? ->. split; [apply (an_send _ Han)|].
    constructor; [done|lia]. }
  exact (Hs s ch Hc eq_refl).
Qed.

(** The memory of the receive buffer starts with the reply. *)
Record replied (ch : hgsl_hab_channel_t) : Prop := {
  rp_idle : idle ch;
  rp_at : ∃ rest, hp_data (ch_recv_buf ch) = Some (message opcode version replies ++ rest) ∧
    length (message opcode version replies ++ rest) = 4096%nat;
  rp_pos : hp_data_pos (ch_recv_buf ch) = 16 }.

Lemma replied_got ch : replied ch → got replies ch.
Proof.
  intros [Hi (rest & Hd & Hl) Hpos]. constructor; [done|].
  exists (call_header opcode version (Z.of_nat (length (encode replies)))), (le_bytes 4 gsl_rpc_gen_checksum ++ rest).
  unfold message in Hd, Hl. rewrite <-!(assoc_L app) in Hd, Hl. by rewrite Hpos.
Qed.

Lemma recv_succeeds c :
  hoare c (reading 16) no_sends (gsl_rpc_recv c 4096 false) (λ ret ch, ret = 0 ∧ replied ch).
Proof.
  pose proof Hlen as Hlen'. set (reply := message opcode version replies) in *. unfold gsl_rpc_recv.
  eapply (hoare_bind c _ no_sends no_sends); [apply hoare_channel|]. intros ch0.
  eapply (hoare_bind c _ no_sends no_sends _ _ (λ _, reading 16)).
  { apply (hoare_mono c (reading 16) _ no_sends no_sends _ (λ _, reading 16));
      [by apply hoare_log, allowed_quiet|by intros ch [_ ?]|done|apply ms_le_nil]. }
  intros [].
  eapply (hoare_bind c _ no_sends no_sends _ _ (λ r ch, r = (0, reply) ∧ reading 16 ch)).
  { apply hoare_ask. intros t ch ?. split; [|done]. apply (an_recv _ Han). }
  intros [ret data]. apply hoare_pure. intros [= -> ->].
  eapply (hoare_bind c _ no_sends no_sends _ _ (λ _, replied)).
  { apply hoare_on_recv. intros _ ch _ [Hi Hp].
    destruct (recv_ok_mem _ (idle_recv ch Hi)) as (mem & Hd & Lm & Es & Hpos).
    eexists _, _. split.
    - unfold write_at. rewrite (bind_run _ _ (ch_recv_buf ch) _ _ eq_refl), Hd. cbn [of_option].
      rewrite (bind_run _ _ (ch_recv_buf ch) mem _ eq_refl), memcpy_split
        by (change (Z.to_nat 0) with 0%nat; lia).
      reflexivity.
    - assert (length (take (Z.to_nat 0) mem ++ reply ++ drop (Z.to_nat 0 + length reply) mem) = 4096)%nat as Hl.
      { change (Z.to_nat 0) with 0%nat. rewrite take_0, !length_app, length_drop. cbn [length]. lia. }
      constructor.
      + apply idle_recv_buf; [done|]. eapply recv_ok_of; [done|exact Hl|done..].
      + by eexists (drop (length reply) mem).
      + cbn. lia. }
  intros _. by apply hoare_ret.
Qed.

Lemma get_call_params_succeeds c :
  hoare c replied no_sends (on_recv c (λ _, gsl_rpc_get_call_params))
    (λ r ch, r = (0, (opcode, version)) ∧ replied ch).
Proof.
  apply hoare_on_recv. intros _ ch _ Hrp. pose proof Hrp as [Hi (rest & Hd & Hl) Hpos].
  unfold message, call_header in Hd. rewrite <-!(assoc_L app) in Hd.
  exists (0, (opcode, version)), (ch_recv_buf ch). split; [|split; [done|by destruct ch]].
  unfold gsl_rpc_get_call_params.
  rewrite (bind_run _ _ _ _ _ (read_u32_run _ 4 (le_bytes 4 GSL_HAB_CALL_MAGIC) opcode _ Hd eq_refl Hop)).
  rewrite (app_assoc (le_bytes 4 GSL_HAB_CALL_MAGIC)) in Hd.
  by rewrite (bind_run _ _ _ _ _ (read_u32_run _ 8 _ version _ Hd eq_refl Hver)).
Qed.
End answered.

Lemma hoare_zero {A} c (P P' : _ → Prop) ms1 ms2 (m : M hgsl_hyp_priv_t Z) (k : M _ A) `{OfRet A} Q :
  hoare c P ms1 m (λ ret ch, ret = 0 ∧ P' ch) → hoare c P' ms2 k Q →
  hoare c P (ms_app ms1 ms2) (try_ret m k) Q.
Proof.
  intros Hm Hk. eapply (hoare_try_ret c _ ms1 ms2 _ _ P' (λ _, False)); [|done|exact Hk].
  eapply hoare_mono; [exact Hm|done| |apply ms_le_refl]. by intros ret ch [-> ?].
Qed.

Lemma transact_succeeds opcode version replies c args :
  answers (message opcode version replies) → is_u32 opcode → is_u32 version →
  (length (message opcode version replies) ≤ 4096)%nat → fits_message args →
  hoare c (writing args) (Some [message opcode version args])
    (gsl_rpc_transact_ext opcode version c false) (λ ret ch, ret = 0 ∧ got replies ch).
Proof.
  intros Han Hop Hver Hlen Hf. unfold gsl_rpc_transact_ext.
  eapply (hoare_bind c _ no_sends (Some [message opcode version args])); [apply hoare_channel|].
  intros ch0 s ch Hc [-> Hw].
  rewrite (idle_retry ch (writing_idle _ _ Hw)). cbn [andb]. revert s ch Hc Hw.
  set (h := le_bytes 4 GSL_HAB_CALL_MAGIC ++ le_bytes 4 opcode ++ le_bytes 4 version).
  set (P := λ ch, idle ch ∧
    (∃ rest, parcel_at (ch_send_buf ch) (h ++ replicate 4 0 ++ encode args) rest) ∧
    hp_data_pos (ch_recv_buf ch) = 16).
  apply (hoare_zero c (writing args) (reading 16) (Some [message opcode version args]) no_sends).
  - eapply (hoare_bind c _ no_sends (Some [message opcode version args]) _ _ (λ _, P)).
    { apply hoare_on_send. intros _ ch _ [Hi (rest & Hat) Hr].
      change (replicate 16 0) with (replicate 12 0 ++ replicate 4 0) in Hat.
      rewrite <-(assoc_L app) in Hat.
      destruct (set_call_params_run opcode version _ _ _ _ Hat eq_refl) as (p & E & Hp).
      eexists _, p. split; [exact E|]. split_and!; [|by exists rest|done].
      apply idle_send_buf; [done|]. by eexists _, _. }
    intros _. apply (hoare_zero c P (sealed (message opcode version args)) no_sends (Some [message opcode version args])).
    { by eapply finalize_succeeds. }
    eapply (hoare_bind c _ no_sends (Some [message opcode version args]) _ _
      (λ r ch, r.1 = 0 ∧ sealed (message opcode version args) ch)).
    { apply hoare_on_send. intros _ ch _ Hse. eexists _, _. split; [reflexivity|]. split; [done|].
      by destruct ch. }
    intros [ret [pos max_size]]. apply hoare_pure. cbn. intros ->.
    by eapply hoare_send_zero.
  - eapply (hoare_bind c _ no_sends no_sends _ _ (λ r ch, (∃ pos, r = (0, (pos, 4096))) ∧ reading 16 ch)).
    { apply hoare_on_recv. intros _ ch _ [Hi Hp].
      destruct (idle_recv ch Hi) as [Hok Hsz]. eexists _, _. split; [reflexivity|].
      split; [eexists; by rewrite Hsz|by apply reading_recv]. }
    intros [ret [pos max_size]]. apply hoare_pure. intros (pos' & [= -> -> ->]). 
    apply (hoare_zero c (reading 16) (reading 16) no_sends no_sends).
    { by apply hoare_ret. }
    apply (hoare_zero c (reading 16) (replied opcode version replies) no_sends no_sends).
    { by apply recv_succeeds. }
    eapply (hoare_bind c _ no_sends no_sends); [by apply get_call_params_succeeds|].
    intros [ret [op v]]. apply hoare_pure. intros [= -> -> ->].
    eapply hoare_ret. intros ch Hrp. rewrite Z.eqb_refl. split; [done|by eapply replied_got].
Qed.

(** ** Calls *)

Lemma body_gives_call {A} φ c (out : A) opcode args replies reply res :
  answers (message opcode 0 replies) → is_u32 opcode →
  (length (message opcode 0 replies) ≤ 4096)%nat → fits_message args →
  φ (message opcode 0 args) →
  hoare c (got replies) no_sends reply (λ r ch, r = res ∧ idle ch) →
  body_gives (λ r, r = res) φ c (call out opcode c args reply).
Proof.
  intros Han Hop Hlen Hf Hφ Hr.
  assert (hoare c (writing []) (Some [message opcode 0 args]) (call out opcode c args reply)
    (λ r ch, r = res ∧ idle ch)) as Hcall.
  { apply (hoare_zero c _ (writing args) no_sends (Some [message opcode 0 args])).
    { eapply (send_args_succeeds opcode 0 replies) with (args0 := []); done. }
    apply (hoare_zero c _ (got replies) (Some [message opcode 0 args]) no_sends); [|exact Hr].
    eapply (hoare_bind c _ (Some [message opcode 0 args]) no_sends).
    { apply (transact_succeeds opcode 0 replies); done. }
    intros ret. apply hoare_pure. intros ->. by apply hoare_ret. }
  intros s ch Hc Hw. destruct (Hcall s ch Hc Hw) as (a & s' & ch' & ? & ? & ? & ? & ?).
  exists a, s', ch', (Some [message opcode 0 args]). eauto 10.
Qed.

(** Reading the next number, which is there. *)
Lemma hoare_next_int32 {A} c v args (out : A) k Q :
  arg_ok (Int32 v) → hoare c (got args) no_sends (k v) Q →
  hoare c (got (Int32 v :: args)) no_sends (try_read out (recv_int32 c) k) Q.
Proof.
  intros Hv Hk. eapply (hoare_bind c _ no_sends no_sends); [by apply hoare_got_int32|].
  intros [ret o]. apply hoare_pure. by intros [= -> ->].
Qed.

Lemma hoare_next_uint32 {A} c v args (out : A) k Q :
  arg_ok (Uint32 v) → hoare c (got args) no_sends (k v) Q →
  hoare c (got (Uint32 v :: args)) no_sends (try_read out (recv_uint32 c) k) Q.
Proof.
  intros Hv Hk. eapply (hoare_bind c _ no_sends no_sends); [by apply hoare_got_uint32|].
  intros [ret o]. apply hoare_pure. by intros [= -> ->].
Qed.


(** * Properties *)

(** A call that is answered gives exactly what the backend has answered.  Reading a
    timestamp gives the timestamp of the reply and the code of the backend, where any
    code but success is -EINVAL; checking one gives the code itself; neither keeps a
    channel, and the one message that was sent is the one of the call. *)
Theorem timestamp_calls_exact s devhandle ctxthandle ts type timestamp rval :
  settled s → hy_free s ≠ [] → arg_ok (Uint32 timestamp) → arg_ok (Int32 rval) →
  (answers (message RPC_COMMAND_READTIMESTAMP 0 [Uint32 timestamp; Int32 rval]) →
   ∃ s' l, hgsl_hyp_read_timestamp devhandle ctxthandle type s =
      Some ((if rval =? GSL_SUCCESS then 0 else - EINVAL, Some timestamp), s') ∧
     settled s' ∧ hy_busy s' = hy_busy s ∧ hy_log s' = hy_log s ++ l ∧
     sends_one (call_sends (ReadTimestamp devhandle ctxthandle type)) l) ∧
  (answers (message RPC_COMMAND_CHECKTIMESTAMP 0 [Int32 rval]) →
   ∃ s' l, hgsl_hyp_check_timestamp devhandle ctxthandle ts type s = Some ((0, Some rval), s') ∧
     settled s' ∧ hy_busy s' = hy_busy s ∧ hy_log s' = hy_log s ++ l ∧
     sends_one (call_sends (CheckTimestamp devhandle ctxthandle ts type)) l).
Proof.
  intros Hset Hfree Hts Hrv. split; intros Han.
  - set (res := (if rval =? GSL_SUCCESS then 0 else - EINVAL, Some timestamp)).
    destruct (with_channel_run (λ r, r = res) (call_sends (ReadTimestamp devhandle ctxthandle type))
      None (λ c, call None RPC_COMMAND_READTIMESTAMP c [Blob (params (u32s [devhandle; ctxthandle; type]))]
      (try_read None (recv_uint32 c) (λ timestamp,
        success (Some timestamp) c (mret (0, Some timestamp))))) s Hset) as (r & s' & E & ? & ? & Hl).
    + intros c. eapply (body_gives_call _ c None _ _ _ _ res Han); [done|by vm_compute; lia| |by eexists _, _, _|].
      { apply fits_blob. cbn. lia. }
      apply hoare_next_uint32; [done|]. apply hoare_next_int32; [done|].
      subst res. destruct (rval =? GSL_SUCCESS); apply hoare_ret; intros ch ?%got_idle_of; done.
    + destruct (Hl Hfree) as (-> & l & El & Hs). exists s', l. by split_and!.
  - destruct (with_channel_run (λ r, r = (0, Some rval))
      (call_sends (CheckTimestamp devhandle ctxthandle ts type)) None
      (λ c, call None RPC_COMMAND_CHECKTIMESTAMP c [Blob (params (u32s [devhandle; ctxthandle; ts; type]))]
      (try_read None (recv_int32 c) (λ rval, mret (0, Some rval)))) s Hset) as (r & s' & E & ? & ? & Hl).
    + intros c. eapply (body_gives_call _ c None _ _ _ _ _ Han); [done|by vm_compute; lia| |by eexists _, _, _|].
      { apply fits_blob. cbn. lia. }
      apply hoare_next_int32; [done|]. apply hoare_ret. intros ch ?%got_idle_of. done.
    + destruct (Hl Hfree) as (-> & l & El & Hs). exists s', l. by split_and!.
Qed.
End reply.

(** * Witnesses *)

Definition demo_reply : list Z := message RPC_COMMAND_READTIMESTAMP 0 [Uint32 41; Int32 0].

Lemma demo_answers : @answers (demo_hab 0 demo_reply) demo_reply.
Proof. constructor; [done| |done]. intros t socket i. by vm_compute. Qed.

Lemma timestamp_calls_exact_witness :
  ∃ s' l, @hgsl_hyp_read_timestamp (demo_hab 0 demo_reply) 1 2 3 demo_pool = Some ((0, Some 41), s') ∧
    settled s' ∧ hy_busy s' = hy_busy demo_pool ∧ hy_log s' = hy_log demo_pool ++ l ∧
    sends_one (call_sends (ReadTimestamp 1 2 3)) l.
Proof.
  apply (@timestamp_calls_exact (demo_hab 0 demo_reply) demo_pool 1 2 0 3 41 0 demo_settled).
  - done.
  - cbn. unfold is_u32. lia.
  - cbn. lia.
  - exact demo_answers.
Defined.

(** A backend that refuses both versions of the handshake leaves the process without a
    connection, and the handshake has succeeded. *)
Theorem refused_handshake_succeeds :
  (λ x : Z * hgsl_hyp_priv_t, (x.1, hy_conn_id x.2)) <$>
    @rpc_handshake (demo_hab 0 (message RPC_HANDSHAKE 2 [Int32 GSL_FAILURE])) 1%positive
      (demo_pool <| hy_conn_id := 0 |>) = Some (0, 0).
Proof. vm_compute. reflexivity. Qed.

(** A reply without the code of the backend: the queues are taken back, and exporting
    them has succeeded. *)
Theorem unread_reply_exports_nothing :
  (λ x : Z * ipcq_out * hgsl_hyp_priv_t,
     (x.1.1, is_pkmd_export_id x.1.2.1, is_gmu_export_id x.1.2.1, x.1.2.2)) <$>
    @hgsl_hyp_export_ipc_queue (demo_hab 0 (message RPC_GVM_INIT 0 [])) true demo_settings demo_pool =
  Some (0, 0, 0, None).
Proof. vm_compute. reflexivity. Qed.
