(* ===== verification/Ipcq.v ===== *)
(** The queue through which the hypervisor's side sends messages to the driver
    (hgsl_gmugos.c): the reader that runs when its interrupt comes.  The memory is
    shared, and the other side may write to it at any time. *)

From S2P Require Import Prelude.
From S2P Require Import Rbtree.
From S2P Require Import MemTree.
From S2P Require Import Bytes.
From S2P Require Import Ring.
From S2P Require Import Parcel.
From S2P Require Import Hyp.
From S2P Require Import HypPool.
From S2P Require Import HypCalls.

(** * Data *)

(** hgsl_ipcq_msg_id_t *)
Definition GSL_IPCQ_SNAPSHOT_DUMP : Z := 1.

Definition MAX_HFI_MSG_SIZE : nat := 255.

(** struct HfiQueueHeader *)
Record HfiQueueHeader := {
  qh_status : Z;
  qh_startAddr : Z;
  qh_type : Z;
  qh_dwSize : Z;
  qh_pktSize : Z;
  qh_pktDropCnt : Z;
  qh_pads : list Z;
  qh_readIdx : Z;
  qh_writeIdx : Z }.

#[export] Instance queue_header_eta : Eta HfiQueueHeader := λ r,
  {| qh_status := qh_status r; qh_startAddr := qh_startAddr r; qh_type := qh_type r;
     qh_dwSize := qh_dwSize r; qh_pktSize := qh_pktSize r; qh_pktDropCnt := qh_pktDropCnt r;
     qh_pads := qh_pads r; qh_readIdx := qh_readIdx r; qh_writeIdx := qh_writeIdx r |}.

(** Where the fields are that the two sides exchange, in dwords. *)
Definition OFFSETOF_status : Z := 0.
Definition OFFSETOF_readIdx : Z := 10.
Definition OFFSETOF_writeIdx : Z := 11.

Definition qheader_dwords (h : HfiQueueHeader) : list Z :=
  [qh_status h; qh_startAddr h; qh_type h; qh_dwSize h; qh_pktSize h; qh_pktDropCnt h] ++
  qh_pads h ++ [qh_readIdx h; qh_writeIdx h].

(** A message, as the handler finds it. *)
Inductive ipcq_msg :=
| SnapshotDump (msg : list Z)
| InvalidMsgId (msg : list Z).

(** One queue of one device: the shared memory in dwords from the address that the
    buffer is mapped to, whether ipcq_memnode is set, ipcq_datas (its copy of the
    header), hgsl_ipcq_msgbuf, and the messages handled; what the other side has sent
    as it sees it, and the number of its next step. *)
Record ipcq := {
  iq_mem : list Z;
  iq_memnode : bool;
  iq_header : HfiQueueHeader;
  iq_msgbuf : list Z;
  iq_handled : list ipcq_msg;
  iq_sent : list (list Z);
  iq_clock : nat }.

#[export] Instance ipcq_eta : Eta ipcq := λ r,
  {| iq_mem := iq_mem r; iq_memnode := iq_memnode r; iq_header := iq_header r;
     iq_msgbuf := iq_msgbuf r; iq_handled := iq_handled r; iq_sent := iq_sent r;
     iq_clock := iq_clock r |}.

(** The other side: what it makes of the memory before the next read of the driver,
    and the messages that it counts as sent by that. *)
Class Peer := {
  peer_step : nat → list Z → list Z * list (list Z);
  peer_length : ∀ t mem, length (peer_step t mem).1 = length mem;
  peer_words : ∀ t mem, Forall is_u32 mem → Forall is_u32 (peer_step t mem).1 }.

(** * The reader *)

(** ALIGN_DWORD_ADDRESS_4DWORD: a number of dwords up to a multiple of 16 bytes. *)
Definition ALIGN_DWORD_ADDRESS_4DWORD (dwaddr : Z) : Z := ALIGN (dwaddr * 4) 16 / 4.

(** The code divides by the size of the queue, here and in the next function. *)
Definition hgsl_new_idx (header : HfiQueueHeader) (idx msg_size : Z) : Z :=
  let queue_size := qh_dwSize header in
  let msg_size := u32 (ALIGN_DWORD_ADDRESS_4DWORD msg_size) in
  u32 (idx + msg_size) mod queue_size.

Definition hgsl_get_queue_occupancy (header : HfiQueueHeader) : Z :=
  u32 (qh_writeIdx header + qh_dwSize header - qh_readIdx header) mod qh_dwSize header.

Section ipcq.
Context `{Peer}.

Abbreviation IM := (M ipcq).

(** The dword at [i] of the shared memory, after a step of the other side; outside the
    memory is a fault. *)
Definition peek (i : Z) : IM Z :=
  step ← gets (λ s, peer_step (iq_clock s) (iq_mem s));
  modify (λ s, s <| iq_mem := step.1 |> <| iq_sent ::= λ l, l ++ step.2 |>
                 <| iq_clock ::= S |>) ;;
  if i <? 0 then fault else of_option (step.1 !! Z.to_nat i).

(** The source of a memcpy, dword by dword. *)
Fixpoint peek_n (i : Z) (n : nat) : IM (list Z) :=
  match n with
  | O => mret []
  | S n => x ← peek i; xs ← peek_n (i + 1) n; mret (x :: xs)
  end.

Definition copy_to_msgbuf (i : nat) (src : list Z) : IM unit :=
  buf ← gets iq_msgbuf;
  buf ← of_option (memcpy buf i src);
  modify (λ s, s <| iq_msgbuf := buf |>).

(** [hdr_offset] is added in bytes; where that is not a dword is left out. *)
Definition hgsl_set_read_idx (hdr_offset : Z) (readIdx : Z) : IM unit :=
  if negb (hdr_offset mod 4 =? 0) then fault
  else
    mem ← gets iq_mem;
    mem ← of_option (memcpy mem (Z.to_nat (hdr_offset / 4 + OFFSETOF_readIdx)) [readIdx]);
    modify (λ s, s <| iq_mem := mem |>).

(** Whether the next message may be read, and its first dword as it was at the time. *)
Definition hgsl_validate_ipcq_read (header : HfiQueueHeader) (rb_offset : Z) : IM (bool * Z) :=
  let read_idx := qh_readIdx header in
  if qh_dwSize header <? read_idx then mret (false, 0)
  else
    let occupied_dwsize := hgsl_get_queue_occupancy header in
    if occupied_dwsize <? 1 then mret (false, 0)
    else
      msg_header ← peek (rb_offset + read_idx);
      if occupied_dwsize <? MSG_SZ_GET msg_header then mret (false, msg_header)
      else if MSG_SZ_GET msg_header =? 0 then mret (false, msg_header)
      else mret (true, msg_header).

Definition hgsl_ipcq_copy_msg (rb_offset : Z) (q_header : HfiQueueHeader)
    (msg_size_dword : Z) : IM unit :=
  let left := u32 (qh_dwSize q_header - qh_readIdx q_header) in
  let chunk_size := if msg_size_dword <? left then msg_size_dword else left in
  src ← peek_n (rb_offset + qh_readIdx q_header) (Z.to_nat chunk_size);
  copy_to_msgbuf 0 src ;;
  if chunk_size <? msg_size_dword then
    src ← peek_n rb_offset (Z.to_nat (msg_size_dword - chunk_size));
    copy_to_msgbuf (Z.to_nat chunk_size) src
  else mret tt.

(** What the handler makes of a message, which it only prints. *)
Definition handled (msg : list Z) : ipcq_msg :=
  if MSG_ID_GET (default 0 (head msg)) =? GSL_IPCQ_SNAPSHOT_DUMP
  then SnapshotDump msg else InvalidMsgId msg.

Definition hgsl_ipcq_msg_handler : IM unit :=
  msg_buffer ← gets iq_msgbuf;
  let size := MSG_SZ_GET (default 0 (head msg_buffer)) in
  modify (λ s, s <| iq_handled ::= λ l, l ++ [handled (take (Z.to_nat size) msg_buffer)] |>).

Definition hgsl_read_msg_from_ipcq (dwSize rb_offset hdr_offset : Z) : IM Z :=
  cached_qheader ← gets iq_header;
  let write_idx := qh_writeIdx cached_qheader in
  let read_idx := qh_readIdx cached_qheader in
  if (dwSize <=? read_idx) || (dwSize <=? write_idx) then mret (- EINVAL)
  else
    '(is_read_valid, msg_header) ← hgsl_validate_ipcq_read cached_qheader rb_offset;
    if negb is_read_valid then mret (- EINVAL)
    else
      hgsl_ipcq_copy_msg rb_offset cached_qheader (MSG_SZ_GET msg_header) ;;
      modify (λ s, s <| iq_msgbuf ::= <[0%nat := msg_header]> |>) ;;
      let msg_dwsize := u32 (ALIGN_DWORD_ADDRESS_4DWORD (MSG_SZ_GET msg_header)) in
      let read_idx := hgsl_new_idx cached_qheader read_idx msg_dwsize in
      hgsl_set_read_idx hdr_offset read_idx ;;
      modify (λ s, s <| iq_header ::= λ h, h <| qh_readIdx := read_idx |> |>) ;;
      mret 0.

(** The loop over the messages; [n] bounds its turns, and false says that it goes on. *)
Fixpoint ipcq_loop (n : nat) (settings : hgsl_init_param_t) (header : Z) : IM bool :=
  h ← gets iq_header;
  if qh_readIdx h =? qh_writeIdx h then mret true
  else match n with
  | O => mret false
  | S n =>
      ret ← hgsl_read_msg_from_ipcq (qh_dwSize h) (is_PKMD2HGSL_rb_offset settings)
              (is_PKMD2HGSL_queue_offset settings);
      if negb (ret =? 0) then mret true
      else
        hgsl_ipcq_msg_handler ;;
        w ← peek (header + OFFSETOF_writeIdx);
        modify (λ s, s <| iq_header ::= λ h, h <| qh_writeIdx := w |> |>) ;;
        ipcq_loop n settings header
  end.

(** The header is a number of dwords from the mapping that the code multiplies by 4. *)
Definition hgsl_gmugos_handle_ipcq_msg (n : nat) (settings : hgsl_init_param_t) : IM bool :=
  mem_node ← gets iq_memnode;
  if negb mem_node then mret true
  else
    let header := is_PKMD2HGSL_queue_offset settings * 4 in
    status ← peek (header + OFFSETOF_status);
    if status =? 0 then mret true
    else
      w ← peek (header + OFFSETOF_writeIdx);
      modify (λ s, s <| iq_header ::= λ h, h <| qh_writeIdx := w |> |>) ;;
      ipcq_loop n settings header.
End ipcq.

(** * Invariants *)

(** The queue lies where the settings say, a ring of [size] dwords at [rb] behind its
    header at the start of the memory. *)
Record queue_at (settings : hgsl_init_param_t) (rb size : nat) (mem : list Z) : Prop := {
  qa_queue_offset : is_PKMD2HGSL_queue_offset settings = 0;
  qa_rb_offset : is_PKMD2HGSL_rb_offset settings = Z.of_nat rb;
  qa_header : (12 ≤ rb)%nat;
  qa_room : (rb + size ≤ length mem)%nat;
  qa_small : Z.of_nat (rb + size) < 1073741824 }.

(** Whatever the other side writes: the driver's own copy of the size stays, and its
    buffer is as long as a message can be. *)
Record ipcq_ok (settings : hgsl_init_param_t) (rb size : nat) (s : ipcq) : Prop := {
  io_at : queue_at settings rb size (iq_mem s);
  io_words : Forall is_u32 (iq_mem s);
  io_msgbuf : length (iq_msgbuf s) = MAX_HFI_MSG_SIZE;
  io_size : qh_dwSize (iq_header s) = Z.of_nat size;
  io_read : is_u32 (qh_readIdx (iq_header s));
  io_write : is_u32 (qh_writeIdx (iq_header s)) }.

(** Between two states only the other side has moved. *)
Record looked (s s' : ipcq) : Prop := {
  lk_length : length (iq_mem s') = length (iq_mem s);
  lk_words : Forall is_u32 (iq_mem s) → Forall is_u32 (iq_mem s');
  lk_memnode : iq_memnode s' = iq_memnode s;
  lk_header : iq_header s' = iq_header s;
  lk_msgbuf : iq_msgbuf s' = iq_msgbuf s;
  lk_handled : iq_handled s' = iq_handled s }.

(** ** What a queue holds *)

(** A message: its first dword tells its length. *)
Definition well_formed (m : list Z) : Prop :=
  m ≠ [] ∧ Z.of_nat (length m) = MSG_SZ_GET (default 0 (head m)).

(** The dwords a message takes in the ring. *)
Definition frame_size (m : list Z) : nat :=
  Z.to_nat (ALIGN_DWORD_ADDRESS_4DWORD (Z.of_nat (length m))).

(** Messages one after the other, each padded to a multiple of 16 bytes. *)
Inductive framed : list Z → list (list Z) → Prop :=
| framed_nil : framed [] []
| framed_cons m pad rest ms :
    well_formed m → length (m ++ pad) = frame_size m → framed rest ms →
    framed (m ++ pad ++ rest) (m :: ms).

(** The queue in the shared memory is active and holds the messages [pend]. *)
Definition holds (rb size : nat) (mem : list Z) (pend : list (list Z)) : Prop :=
  ∃ status r w, mem !! 0%nat = Some status ∧ status ≠ 0 ∧
    mem !! 10%nat = Some (Z.of_nat r) ∧ mem !! 11%nat = Some (Z.of_nat w) ∧
    (r < size)%nat ∧ (w < size)%nat ∧ framed (ring_contents mem rb size r w) pend.

(** The other side only appends, and counts what it appends as sent. *)
Class Sender `{Peer} (rb size : nat) :=
  sender_appends : ∀ t mem pend, holds rb size mem pend →
    holds rb size (peer_step t mem).1 (pend ++ (peer_step t mem).2) ∧
    (peer_step t mem).1 !! 10%nat = mem !! 10%nat.

(** The driver's side of a queue that holds [pend]. *)
Record ready (settings : hgsl_init_param_t) (rb size : nat) (s : ipcq) (pend : list (list Z))
    : Prop := {
  rd_ok : ipcq_ok settings rb size s;
  rd_memnode : iq_memnode s = true;
  rd_read : iq_mem s !! 10%nat = Some (qh_readIdx (iq_header s));
  rd_holds : holds rb size (iq_mem s) pend }.

(** * Lemmas *)

Lemma msg_size_bound x : 0 ≤ MSG_SZ_GET x ≤ 255.
Proof.
  unfold MSG_SZ_GET, MSG_SZ_MASK, MSG_SZ_SHIFT. rewrite Z.shiftr_land.
  change (Z.shiftr 0x0000FF00 8) with (Z.ones 8). rewrite Z.land_ones by lia.
  pose proof (Z.mod_pos_bound (Z.shiftr x 8) (2 ^ 8) eq_refl). lia.
Qed.

Lemma align_dword_spec x : 0 ≤ x → ∃ k, ALIGN_DWORD_ADDRESS_4DWORD x = 4 * k ∧ x ≤ 4 * k < x + 4.
Proof.
  intros Hx. unfold ALIGN_DWORD_ADDRESS_4DWORD.
  destruct (ALIGN_spec (x * 4) 16 eq_refl) as [HA [k HA2]]. exists k. rewrite HA2 in *.
  replace (k * 16) with ((4 * k) * 4) by lia. rewrite Z.div_mul by done. lia.
Qed.

Lemma align_dword_id k : ALIGN_DWORD_ADDRESS_4DWORD (4 * k) = 4 * k.
Proof.
  unfold ALIGN_DWORD_ADDRESS_4DWORD. rewrite ALIGN_id; [|done|exists k; lia].
  by rewrite Z.div_mul.
Qed.

Section run.
Context `{Peer}.

Lemma looked_refl s : looked s s.
Proof. by split. Qed.

Lemma looked_trans s1 s2 s3 : looked s1 s2 → looked s2 s3 → looked s1 s3.
Proof. intros [] []. split; congruence || auto. Qed.

Lemma looked_ok settings rb size s s' : looked s s' → ipcq_ok settings rb size s → ipcq_ok settings rb size s'.
Proof.
  intros [Hl Hw _ Hh Hm _] [[] ? ? ? ? ?]. split; rewrite ?Hh, ?Hm; auto. split; try done. by rewrite Hl.
Qed.

(** ** Looking at the shared memory *)

Lemma peek_run i s :
  0 ≤ i < Z.of_nat (length (iq_mem s)) →
  ∃ v s', peek i s = Some (v, s') ∧ looked s s' ∧
    iq_mem s' = (peer_step (iq_clock s) (iq_mem s)).1 ∧
    iq_sent s' = iq_sent s ++ (peer_step (iq_clock s) (iq_mem s)).2 ∧
    iq_mem s' !! Z.to_nat i = Some v.
Proof.
  intros Hi. set (step := peer_step (iq_clock s) (iq_mem s)).
  assert (Z.to_nat i < length step.1)%nat as [v Hv]%lookup_lt_is_Some_2.
  { unfold step. rewrite peer_length. lia. }
  set (s' := s <| iq_mem := step.1 |> <| iq_sent ::= λ l, l ++ step.2 |> <| iq_clock ::= S |>).
  exists v, s'. split; [|split; [|done]].
  - unfold peek. rewrite (bind_run _ _ s step s) by done.
    rewrite (bind_run _ _ s tt s') by done.
    rewrite (proj2 (Z.ltb_ge i 0)) by lia. by rewrite Hv.
  - split; try done; unfold step; cbn; [apply peer_length|apply peer_words].
Qed.

(** What is known of the memory however the other side goes on: [I] of it and of what
    has been sent, and of each dword it holds [φ]. *)
Context (I : list Z → list (list Z) → Prop) (φ : Z → Z → Prop) (len : nat).
Hypothesis I_length : ∀ mem sent, I mem sent → length mem = len.
Hypothesis I_stable : ∀ t mem sent,
  I mem sent → I (peer_step t mem).1 (sent ++ (peer_step t mem).2).
Hypothesis I_read : ∀ mem sent i v, I mem sent → mem !! Z.to_nat i = Some v → φ i v.

Definition known (s : ipcq) : Prop := I (iq_mem s) (iq_sent s).

Lemma peek_known i s :
  known s → 0 ≤ i < Z.of_nat len →
  ∃ v s', peek i s = Some (v, s') ∧ looked s s' ∧ known s' ∧ φ i v.
Proof.
  intros Hk Hi. pose proof (I_length _ _ Hk) as Hl.
  destruct (peek_run i s) as (v & s' & E & L & Em & Es & Ev); [lia|].
  assert (known s') as Hk' by (unfold known; rewrite Em, Es; by apply I_stable).
  exists v, s'. split_and!; try done. by eapply I_read.
Qed.

Lemma peek_n_known n : ∀ i s,
  known s → 0 ≤ i → i + Z.of_nat n ≤ Z.of_nat len →
  ∃ vs s', peek_n i n s = Some (vs, s') ∧ looked s s' ∧ known s' ∧ length vs = n ∧
    ∀ j v, vs !! j = Some v → φ (i + Z.of_nat j) v.
Proof.
  induction n as [|n IH]; intros i s Hk Hi Hn.
  { by exists [], s. }
  destruct (peek_known i s) as (v & s1 & E1 & L1 & Hk1 & Hv); [done|lia|].
  destruct (IH (i + 1) s1) as (vs & s2 & E2 & L2 & Hk2 & Hl & Hvs); [done|lia|lia|].
  exists (v :: vs), s2. cbn [peek_n]. rewrite (bind_run _ _ _ _ _ E1), (bind_run _ _ _ _ _ E2).
  split_and!; [done|by eapply looked_trans|done|cbn; lia|].
  intros [|j] x Hx; cbn in Hx; [injection Hx as <-; by rewrite Z.add_0_r|].
  replace (i + Z.of_nat (S j)) with (i + 1 + Z.of_nat j) by lia. by apply Hvs.
Qed.

(** ** The copy *)

Lemma copy_to_msgbuf_run i src s :
  (i + length src ≤ length (iq_msgbuf s))%nat →
  ∃ buf, copy_to_msgbuf i src s = Some (tt, s <| iq_msgbuf := buf |>) ∧
    length buf = length (iq_msgbuf s) ∧
    (∀ j, (j < length src)%nat → buf !! (i + j)%nat = src !! j) ∧
    (∀ j, (j < i)%nat → buf !! j = iq_msgbuf s !! j).
Proof.
  intros Hl. destruct (memcpy_run (iq_msgbuf s) i src Hl) as (buf & E & El & Ein & Eout).
  exists buf. split_and!; try done.
  - unfold copy_to_msgbuf. rewrite (bind_run _ _ s (iq_msgbuf s) s) by done.
    by rewrite (bind_run _ _ s buf s) by (by rewrite E).
  - intros j Hj. apply Eout. lia.
Qed.

(** Two states that differ in the message buffer and in what the other side does. *)
Record copied (s s' : ipcq) : Prop := {
  cp_memnode : iq_memnode s' = iq_memnode s;
  cp_header : iq_header s' = iq_header s;
  cp_length : length (iq_msgbuf s') = length (iq_msgbuf s);
  cp_words : Forall is_u32 (iq_mem s) → Forall is_u32 (iq_mem s');
  cp_handled : iq_handled s' = iq_handled s }.

Lemma copied_looked s1 s2 s3 : copied s1 s2 → looked s2 s3 → copied s1 s3.
Proof. intros [] []. split; try congruence. auto. Qed.

Lemma copied_buf s1 s2 buf :
  copied s1 s2 → length buf = length (iq_msgbuf s2) → copied s1 (s2 <| iq_msgbuf := buf |>).
Proof. intros [] ?. split; try done. cbn. congruence. Qed.

Context (rb size : nat).
Hypothesis Hroom : (rb + size ≤ len)%nat.
Hypothesis Hsmall : Z.of_nat (rb + size) < 1073741824.

(** The dword [j] behind [r] in the ring. *)
Definition slot (r : Z) (j : nat) : Z := Z.of_nat rb + (r + Z.of_nat j) mod Z.of_nat size.

Lemma copy_msg_run s h sz :
  known s → qh_dwSize h = Z.of_nat size → 0 ≤ qh_readIdx h < Z.of_nat size →
  0 ≤ sz < Z.of_nat size → (Z.to_nat sz ≤ length (iq_msgbuf s))%nat →
  ∃ s', hgsl_ipcq_copy_msg (Z.of_nat rb) h sz s = Some (tt, s') ∧ known s' ∧ copied s s' ∧
    ∀ j, (j < Z.to_nat sz)%nat → ∃ v, iq_msgbuf s' !! j = Some v ∧ φ (slot (qh_readIdx h) j) v.
Proof.
  intros Hk Hd Hr Hs Hb. unfold hgsl_ipcq_copy_msg. rewrite Hd.
  rewrite (u32_small (_ - _)) by (unfold is_u32; lia). set (r := qh_readIdx h) in *.
  set (chunk := if sz <? Z.of_nat size - r then sz else Z.of_nat size - r).
  assert (0 ≤ chunk ∧ r + chunk ≤ Z.of_nat size ∧ chunk ≤ sz) as (Hc1 & Hc2 & Hc3).
  { unfold chunk. destruct (Z.ltb_spec sz (Z.of_nat size - r)); lia. }
  destruct (peek_n_known (Z.to_nat chunk) (Z.of_nat rb + r) s)
    as (src & s1 & E1 & L1 & Hk1 & Hl1 & Hv1); [done|lia|lia|].
  rewrite (bind_run _ _ _ _ _ E1).
  destruct (copy_to_msgbuf_run 0 src s1) as (buf & E2 & Hl2 & Hv2 & _).
  { rewrite (lk_msgbuf _ _ L1). lia. }
  rewrite (bind_run _ _ _ _ _ E2). set (s2 := s1 <| iq_msgbuf := buf |>).
  assert (copied s s2) as C2.
  { apply copied_buf; [|done]. destruct L1. by split; try done; congruence. }
  assert (∀ j, (j < Z.to_nat chunk)%nat → ∃ v, buf !! j = Some v ∧ φ (slot r j) v) as Hbuf.
  { intros j Hj. destruct (lookup_lt_is_Some_2 src j) as [v Hv]; [lia|]. exists v.
    split; [rewrite <- Hv; apply (Hv2 j); lia|]. unfold slot. rewrite Z.mod_small by lia.
    rewrite Z.add_assoc. by apply Hv1. }
  destruct (Z.ltb_spec chunk sz) as [Hcs|Hcs].
  - assert (chunk = Z.of_nat size - r) as Ec.
    { revert Hcs. unfold chunk. destruct (Z.ltb_spec sz (Z.of_nat size - r)); lia. }
    destruct (peek_n_known (Z.to_nat (sz - chunk)) (Z.of_nat rb) s2)
      as (src2 & s3 & E3 & L3 & Hk3 & Hl3 & Hv3); [done|lia|lia|].
    rewrite (bind_run _ _ _ _ _ E3).
    pose proof (copied_looked _ _ _ C2 L3) as C3.
    destruct (copy_to_msgbuf_run (Z.to_nat chunk) src2 s3) as (buf' & E4 & Hl4 & Hv4 & Ho4).
    { rewrite (cp_length _ _ C3). lia. }
    exists (s3 <| iq_msgbuf := buf' |>). split_and!; try done; [by apply copied_buf|].
    intros j Hj. cbn. destruct (decide (j < Z.to_nat chunk)%nat) as [Hjc|Hjc].
    + rewrite Ho4 by done. rewrite (lk_msgbuf _ _ L3). by apply Hbuf.
    + destruct (lookup_lt_is_Some_2 src2 (j - Z.to_nat chunk)) as [v Hv]; [lia|]. exists v.
      split; [rewrite <- Hv, <- Hv4 by lia; f_equal; lia|]. unfold slot.
      replace (r + Z.of_nat j) with (Z.of_nat (j - Z.to_nat chunk) + 1 * Z.of_nat size) by lia.
      rewrite Z.mod_add, Z.mod_small by lia. by apply Hv3.
  - exists s2. split_and!; try done. intros j Hj. apply Hbuf. lia.
Qed.

(** ** One message *)

Lemma set_read_idx_run r s :
  (10 < length (iq_mem s))%nat →
  hgsl_set_read_idx 0 r s = Some (tt, s <| iq_mem ::= <[10%nat := r]> |>).
Proof.
  intros Hl. unfold hgsl_set_read_idx. change (negb (0 mod 4 =? 0)) with false. cbv iota.
  rewrite (bind_run _ _ s (iq_mem s) s) by done.
  change (Z.to_nat (0 / 4 + OFFSETOF_readIdx)) with 10%nat.
  rewrite (bind_run _ _ s (<[10%nat := r]> (iq_mem s)) s); [done|].
  unfold memcpy. cbn [length]. rewrite (proj2 (Nat.leb_le _ _)) by lia.
  by rewrite (insert_take_drop _ 10) by lia.
Qed.

(** The dwords between the indices of a header. *)
Definition occupied (h : HfiQueueHeader) : Z := hgsl_get_queue_occupancy h.

Lemma occupied_bound h :
  qh_dwSize h = Z.of_nat size → (0 < size)%nat → 0 ≤ occupied h < Z.of_nat size.
Proof. intros E Hs. unfold occupied, hgsl_get_queue_occupancy. rewrite E. apply Z.mod_pos_bound. lia. Qed.

(** What reading a message leaves when it succeeds: [hd] is its first dword. *)
Record took (s s' : ipcq) (hd : Z) : Prop := {
  tk_memnode : iq_memnode s' = iq_memnode s;
  tk_handled : iq_handled s' = iq_handled s;
  tk_size : 0 < MSG_SZ_GET hd ≤ occupied (iq_header s);
  tk_header : iq_header s' = (iq_header s) <| qh_readIdx :=
    (qh_readIdx (iq_header s) + ALIGN_DWORD_ADDRESS_4DWORD (MSG_SZ_GET hd)) mod Z.of_nat size |>;
  tk_mem : ∃ mem, I mem (iq_sent s') ∧ iq_mem s' = <[10%nat := qh_readIdx (iq_header s')]> mem;
  tk_hd : iq_msgbuf s' !! 0%nat = Some hd ∧ φ (slot (qh_readIdx (iq_header s)) 0) hd;
  tk_msg : ∀ j, (0 < j < Z.to_nat (MSG_SZ_GET hd))%nat →
    ∃ v, iq_msgbuf s' !! j = Some v ∧ φ (slot (qh_readIdx (iq_header s)) j) v }.

(** Why a message is not read. *)
Definition unreadable (h : HfiQueueHeader) : Prop :=
  Z.of_nat size ≤ qh_readIdx h ∨ Z.of_nat size ≤ qh_writeIdx h ∨ occupied h < 1 ∨
  ∃ hd, φ (slot (qh_readIdx h) 0) hd ∧ (occupied h < MSG_SZ_GET hd ∨ MSG_SZ_GET hd = 0).

Lemma validate_run s h :
  known s → qh_dwSize h = Z.of_nat size → 0 ≤ qh_readIdx h < Z.of_nat size →
  ∃ valid hd s', hgsl_validate_ipcq_read h (Z.of_nat rb) s = Some ((valid, hd), s') ∧
    looked s s' ∧ known s' ∧
    if valid : bool then φ (slot (qh_readIdx h) 0) hd ∧ 0 < MSG_SZ_GET hd ≤ occupied h
    else unreadable h.
Proof.
  intros Hk Hd Hr. unfold hgsl_validate_ipcq_read. rewrite Hd. fold (occupied h).
  rewrite (proj2 (Z.ltb_ge _ _)) by lia.
  destruct (Z.ltb_spec (occupied h) 1) as [Ho|Ho].
  { exists false, 0, s. split_and!; try done. unfold unreadable. auto. }
  destruct (peek_known (Z.of_nat rb + qh_readIdx h) s) as (hd & s1 & E1 & L1 & Hk1 & Hhd); [done|lia|].
  assert (φ (slot (qh_readIdx h) 0) hd) as Hhd'.
  { unfold slot. by rewrite Z.add_0_r, Z.mod_small by lia. }
  rewrite (bind_run _ _ _ _ _ E1). pose proof (msg_size_bound hd).
  destruct (Z.ltb_spec (occupied h) (MSG_SZ_GET hd)) as [Hs|Hs];
    [|destruct (Z.eqb_spec (MSG_SZ_GET hd) 0) as [Hz|Hz]].
  - exists false, hd, s1. split_and!; try done. unfold unreadable. eauto 8.
  - exists false, hd, s1. split_and!; try done. unfold unreadable. eauto 8.
  - exists true, hd, s1. split_and!; try done. lia.
Qed.

Lemma new_idx_run h r sz :
  qh_dwSize h = Z.of_nat size → 0 ≤ r < Z.of_nat size → 0 ≤ sz ≤ 255 →
  hgsl_new_idx h r (u32 (ALIGN_DWORD_ADDRESS_4DWORD sz)) =
    (r + ALIGN_DWORD_ADDRESS_4DWORD sz) mod Z.of_nat size.
Proof.
  intros Hd Hr Hs. unfold hgsl_new_idx. rewrite Hd.
  destruct (align_dword_spec sz) as (k & -> & Hk); [lia|].
  rewrite (u32_small (4 * k)) by (unfold is_u32; lia). rewrite align_dword_id.
  by rewrite (u32_small (4 * k)), u32_small by (unfold is_u32; lia).
Qed.

Lemma read_msg_run settings s :
  known s → ipcq_ok settings rb size s →
  ∃ ret s', hgsl_read_msg_from_ipcq (qh_dwSize (iq_header s)) (Z.of_nat rb) 0 s = Some (ret, s') ∧
    ipcq_ok settings rb size s' ∧
    (ret = - EINVAL ∧ unreadable (iq_header s) ∧ looked s s' ∨ ret = 0 ∧ ∃ hd, took s s' hd).
Proof.
  intros Hk Hok. pose proof Hok as [Hat Hw Hb Hd Hr Hwi]. unfold hgsl_read_msg_from_ipcq.
  rewrite (bind_run _ _ s (iq_header s) s) by done. rewrite Hd.
  set (h := iq_header s) in *. set (r := qh_readIdx h) in *.
  destruct ((Z.of_nat size <=? r) || (Z.of_nat size <=? qh_writeIdx h)) eqn:Eb.
  { exists (- EINVAL), s. split_and!; [done|done|left]. split_and!; [done| |apply looked_refl].
    unfold unreadable. fold r. apply orb_true_iff in Eb as [?%Z.leb_le|?%Z.leb_le]; auto. }
  apply orb_false_iff in Eb as [Eb1%Z.leb_gt Eb2%Z.leb_gt].
  assert (0 ≤ r < Z.of_nat size) as Hrs by (unfold is_u32 in Hr; lia).
  pose proof (occupied_bound h Hd ltac:(lia)) as Hocc.
  destruct (validate_run s h Hk Hd Hrs) as (valid & hd & s1 & E1 & L1 & Hk1 & Hv).
  rewrite (bind_run _ _ _ _ _ E1).
  pose proof (looked_ok _ _ _ _ _ L1 Hok) as Hok1.
  destruct valid; cbn [negb]; [|exists (- EINVAL), s1; naive_solver].
  destruct Hv as [Hhd Hsz]. pose proof (msg_size_bound hd) as Hsz2.
  destruct (copy_msg_run s1 h (MSG_SZ_GET hd)) as (s2 & E2 & Hk2 & C2 & Hbuf); try done; try lia.
  { rewrite (io_msgbuf _ _ _ _ Hok1). unfold MAX_HFI_MSG_SIZE. lia. }
  rewrite (bind_run _ _ _ _ _ E2).
  assert (length (iq_msgbuf s2) = 255%nat) as Hl2.
  { rewrite (cp_length _ _ C2). apply (io_msgbuf _ _ _ _ Hok1). }
  set (s3 := s2 <| iq_msgbuf ::= <[0%nat := hd]> |>).
  rewrite (bind_run _ _ s2 tt s3) by done. rewrite new_idx_run by (done || lia).
  set (r' := (r + _) mod _). pose proof (I_length _ _ Hk2) as Hlen.
  assert (0 ≤ r' < Z.of_nat size) as Hr' by (apply Z.mod_pos_bound; lia).
  destruct Hat as [? ? Hq1 Hq2 Hq3].
  assert (iq_mem s3 = iq_mem s2) as E3 by done.
  rewrite (bind_run _ _ _ _ _ (set_read_idx_run r' s3 ltac:(rewrite E3; lia))).
  set (s4 := s3 <| iq_mem ::= <[10%nat := r']> |>).
  set (s5 := s4 <| iq_header ::= λ h, h <| qh_readIdx := r' |> |>).
  rewrite (bind_run _ _ s4 tt s5) by done.
  assert (iq_header s2 = h) as Eh by (rewrite (cp_header _ _ C2); apply L1).
  exists 0, s5. split; [done|]. split.
  { split; cbn.
    - split; try done. rewrite length_insert, Hlen. done.
    - apply Forall_insert; [apply C2, L1, Hw|]. unfold is_u32. lia.
    - by rewrite length_insert.
    - by rewrite Eh.
    - unfold is_u32. lia.
    - by rewrite Eh. }
  right. split; [done|]. exists hd. split; try done.
  - cbn. by rewrite (cp_memnode _ _ C2), (lk_memnode _ _ L1).
  - cbn. by rewrite (cp_handled _ _ C2), (lk_handled _ _ L1).
  - cbn. by rewrite Eh.
  - exists (iq_mem s2). split; [exact Hk2|done].
  - split; [|done]. cbn. apply list_lookup_insert_eq. lia.
  - intros j Hj. destruct (Hbuf j) as (v & Hv1 & Hv2); [lia|]. exists v. split; [|done].
    cbn. by rewrite list_lookup_insert_ne by lia.
Qed.
End run.

(** ** The handler *)

Lemma handler_run s hd :
  iq_msgbuf s !! 0%nat = Some hd →
  hgsl_ipcq_msg_handler s = Some (tt, s <| iq_handled ::= λ l, l ++
    [handled (take (Z.to_nat (MSG_SZ_GET hd)) (iq_msgbuf s))] |>).
Proof.
  intros Hhd. unfold hgsl_ipcq_msg_handler.
  rewrite (bind_run _ _ s (iq_msgbuf s) s) by done.
  rewrite head_lookup, Hhd. done.
Qed.

(** ** What a ring holds *)

Lemma frame_size_spec m :
  ∃ k, frame_size m = (4 * k)%nat ∧ (length m ≤ 4 * k < length m + 4)%nat ∧
    ALIGN_DWORD_ADDRESS_4DWORD (Z.of_nat (length m)) = Z.of_nat (frame_size m).
Proof.
  unfold frame_size. destruct (align_dword_spec (Z.of_nat (length m))) as (k & -> & ?); [lia|].
  exists (Z.to_nat k). lia.
Qed.

Lemma framed_app c1 ms1 c2 ms2 : framed c1 ms1 → framed c2 ms2 → framed (c1 ++ c2) (ms1 ++ ms2).
Proof.
  induction 1; intros; [done|]. rewrite <- !(assoc_L app). cbn. constructor; auto.
Qed.

Lemma framed_nil_inv c : framed c [] → c = [].
Proof. by inversion 1. Qed.

Lemma framed_cons_inv c m ms :
  framed c (m :: ms) → well_formed m ∧ (frame_size m ≤ length c)%nat ∧
    (∀ j, (j < length m)%nat → c !! j = m !! j) ∧ framed (drop (frame_size m) c) ms.
Proof.
  inversion 1 as [|? pad rest ? Hw Hf Hr]; subst. rewrite (assoc_L app). split_and!; [done| | |].
  - rewrite length_app. lia.
  - intros j Hj. by rewrite !lookup_app_l by (rewrite ?length_app; lia).
  - by rewrite <- Hf, drop_app_length.
Qed.

Lemma ring_contents_length mem base size r w : length (ring_contents mem base size r w) = ring_used size w r.
Proof. apply ring_read_length. Qed.

Lemma ring_used_zero size w r :
  (r < size)%nat → (w < size)%nat → ring_used size w r = O ↔ r = w.
Proof. intros. wrap; lia. Qed.

Lemma ring_contents_drop mem base size r w n :
  (r < size)%nat → (w < size)%nat → (n ≤ ring_used size w r)%nat →
  ring_contents mem base size ((r + n) mod size) w = drop n (ring_contents mem base size r w).
Proof.
  intros Hr Hw Hn. unfold ring_contents.
  assert (ring_used size w ((r + n) mod size) = ring_used size w r - n)%nat as ->.
  { pose proof (ring_used_lt size w r Hw Hr). wrap; lia. }
  replace (ring_used size w r) with (n + (ring_used size w r - n))%nat at 2 by lia.
  rewrite ring_read_app, drop_app_length' by by rewrite ring_read_length.
  apply ring_read_ext. intros i Hi. unfold ring_slot. f_equal. f_equal.
  by rewrite Nat.Div0.add_mod_idemp_l.
Qed.

Lemma ring_contents_lookup mem base size r w j :
  (j < ring_used size w r)%nat →
  ring_contents mem base size r w !! j = Some (default 0 (mem !! ring_slot base size (r + j))).
Proof.
  intros Hj. unfold ring_contents. rewrite ring_read_lookup. by rewrite (proj2 (Nat.ltb_lt _ _)).
Qed.

Section queue.
Context (rb size len : nat).
Hypothesis Hrb : (12 ≤ rb)%nat.
Hypothesis Hlen : (rb + size ≤ len)%nat.

Lemma holds_read mem r m pend j v :
  length mem = len → holds rb size mem (m :: pend) → mem !! 10%nat = Some (Z.of_nat r) →
  (j < length m)%nat → mem !! Z.to_nat (slot rb size (Z.of_nat r) j) = Some v → m !! j = Some v.
Proof.
  intros Hl (st & r' & w & Hst & _ & Hr & Hw & Hrs & Hws & Hf) Hr10 Hj Hv.
  assert (r' = r) as -> by (rewrite Hr10 in Hr; injection Hr; lia).
  apply framed_cons_inv in Hf as (_ & Hfs & Hm & _). rewrite ring_contents_length in Hfs.
  destruct (frame_size_spec m) as (k & Ek & Hk & _).
  rewrite <- Hm, ring_contents_lookup by lia. unfold ring_slot.
  replace (Z.to_nat (slot rb size (Z.of_nat r) j)) with (rb + (r + j) mod size)%nat in Hv.
  - by rewrite Hv.
  - unfold slot. rewrite <- Nat2Z.inj_add, <- Nat2Z.inj_mod. lia.
Qed.

Lemma holds_consume mem r m pend :
  length mem = len → holds rb size mem (m :: pend) → mem !! 10%nat = Some (Z.of_nat r) →
  holds rb size (<[10%nat := (Z.of_nat r + Z.of_nat (frame_size m)) mod Z.of_nat size]> mem) pend.
Proof.
  intros Hl (st & r' & w & Hst & Hst0 & Hr & Hw & Hrs & Hws & Hf) Hr10.
  assert (r' = r) as -> by (rewrite Hr10 in Hr; injection Hr; lia).
  apply framed_cons_inv in Hf as (_ & Hfs & _ & Hf). rewrite ring_contents_length in Hfs.
  exists st, ((r + frame_size m) mod size)%nat, w.
  rewrite list_lookup_insert_eq, !list_lookup_insert_ne by lia.
  rewrite <- Nat2Z.inj_add, <- Nat2Z.inj_mod. split_and!; try done.
  - apply Nat.mod_upper_bound. lia.
  - rewrite (ring_contents_frame mem), ring_contents_drop; [done|lia..|].
    intros i Hi. apply list_lookup_insert_ne. lia.
Qed.
End queue.

(** ** The loop under any other side *)

Section safe.
Context `{Peer} (settings : hgsl_init_param_t) (rb size : nat).

(** All that is known of the memory is its length and that its dwords are dwords. *)
Definition plain (len : nat) (mem : list Z) (_ : list (list Z)) : Prop :=
  length mem = len ∧ Forall is_u32 mem.

Lemma ipcq_read_any s :
  ipcq_ok settings rb size s →
  ∃ ret s', hgsl_read_msg_from_ipcq (qh_dwSize (iq_header s)) (is_PKMD2HGSL_rb_offset settings)
      (is_PKMD2HGSL_queue_offset settings) s = Some (ret, s') ∧ ipcq_ok settings rb size s' ∧
    (ret = - EINVAL ∧ iq_handled s' = iq_handled s ∨
     ret = 0 ∧ iq_handled s' = iq_handled s ∧
       ∃ hd, iq_msgbuf s' !! 0%nat = Some hd ∧ 0 < MSG_SZ_GET hd < Z.of_nat size).
Proof.
  intros Hok. pose proof Hok as [[-> -> ? ? ?] Hw _ Hd _ _].
  destruct (read_msg_run (plain (length (iq_mem s))) (λ _ _, True) (length (iq_mem s))
    (λ mem sent Hk, proj1 Hk)
    (λ t mem sent Hk, conj (eq_trans (peer_length t mem) (proj1 Hk)) (peer_words t mem (proj2 Hk)))
    (λ _ _ _ _ _ _, I) rb size ltac:(done) ltac:(done) settings s)
    as (ret & s' & E & Hok' & Hcase); [done|done|].
  exists ret, s'. split; [done|]. split; [done|].
  destruct Hcase as [(-> & _ & L)|(-> & hd & T)]; [left|right].
  - split; [done|apply L].
  - split; [done|]. split; [apply T|]. exists hd. split; [apply T|].
    pose proof (tk_size _ _ _ _ _ _ _ T) as [Hs1 Hs2]. split; [done|].
    unfold occupied, hgsl_get_queue_occupancy in Hs2. rewrite Hd in Hs2.
    assert (0 < Z.of_nat size) as Hpos.
    { destruct (decide (size = 0%nat)) as [->|]; [|lia]. exfalso.
      pose proof (tk_header _ _ _ _ _ _ _ T) as Ht. revert E. unfold hgsl_read_msg_from_ipcq.
      rewrite (bind_run _ _ s (iq_header s) s) by done. rewrite Hd.
      rewrite (proj2 (Z.leb_le (Z.of_nat 0) _)) by apply Hok. cbn [orb].
      intros E. by injection E. }
    pose proof (Z.mod_pos_bound (u32 (qh_writeIdx (iq_header s) + Z.of_nat size -
      qh_readIdx (iq_header s))) _ Hpos). lia.
Qed.

Lemma handled_run s hd :
  ipcq_ok settings rb size s → iq_msgbuf s !! 0%nat = Some hd → 0 < MSG_SZ_GET hd →
  ∃ m s', hgsl_ipcq_msg_handler s = Some (tt, s') ∧ ipcq_ok settings rb size s' ∧
    iq_mem s' = iq_mem s ∧ iq_sent s' = iq_sent s ∧ iq_header s' = iq_header s ∧
    iq_memnode s' = iq_memnode s ∧ iq_clock s' = iq_clock s ∧
    iq_handled s' = iq_handled s ++ [handled m] ∧ well_formed m ∧
    m = take (Z.to_nat (MSG_SZ_GET hd)) (iq_msgbuf s) ∧ Z.of_nat (length m) = MSG_SZ_GET hd.
Proof.
  intros Hok Hhd Hs. set (m := take (Z.to_nat (MSG_SZ_GET hd)) (iq_msgbuf s)).
  exists m. eexists. split; [by apply handler_run|]. split; [by destruct Hok|].
  pose proof (msg_size_bound hd).
  assert (Z.of_nat (length m) = MSG_SZ_GET hd) as Hm.
  { unfold m. rewrite length_take, (io_msgbuf _ _ _ _ Hok). unfold MAX_HFI_MSG_SIZE. lia. }
  split_and!; try done. split; [intros E; rewrite E in Hm; cbn in Hm; lia|].
  rewrite Hm. f_equal. rewrite head_lookup. unfold m. rewrite lookup_take_lt by lia. by rewrite Hhd.
Qed.

Lemma update_write_ok s w :
  ipcq_ok settings rb size s → is_u32 w →
  ipcq_ok settings rb size (s <| iq_header ::= λ h, h <| qh_writeIdx := w |> |>).
Proof. by intros []. Qed.

Lemma peek_ok i s :
  ipcq_ok settings rb size s → 0 ≤ i < 12 →
  ∃ v s', peek i s = Some (v, s') ∧ looked s s' ∧ ipcq_ok settings rb size s' ∧ is_u32 v.
Proof.
  intros Hok Hi. destruct Hok as [[? ? ? ? ?] ? ? ? ? ?] eqn:E. clear E.
  destruct (peek_run i s) as (v & s' & E & L & _ & _ & Ev); [lia|].
  pose proof (looked_ok _ _ _ _ _ L Hok) as Hok'. exists v, s'. split_and!; try done.
  eapply Forall_lookup_1, Ev. apply Hok'.
Qed.

Lemma ipcq_loop_safe n : ∀ s,
  ipcq_ok settings rb size s →
  ∃ fin s' ms, ipcq_loop n settings 0 s = Some (fin, s') ∧ ipcq_ok settings rb size s' ∧
    iq_handled s' = iq_handled s ++ (handled <$> ms) ∧
    Forall (λ m, well_formed m ∧ (length m < size)%nat) ms.
Proof.
  induction n as [|n IH]; intros s Hok; cbn [ipcq_loop];
    rewrite (bind_run _ _ s (iq_header s) s) by done;
    (destruct (Z.eqb_spec (qh_readIdx (iq_header s)) (qh_writeIdx (iq_header s)));
      [exists true, s, []; by rewrite app_nil_r|]).
  { exists false, s, []. by rewrite app_nil_r. }
  destruct (ipcq_read_any s Hok) as (ret & s1 & E1 & Hok1 & Hcase). rewrite (bind_run _ _ _ _ _ E1).
  destruct Hcase as [[-> Hh]|(-> & Hh & hd & Hhd & Hs)].
  { exists true, s1, []. by rewrite app_nil_r. }
  change (negb (0 =? 0)) with false. cbv iota.
  destruct (handled_run s1 hd Hok1 Hhd ltac:(lia))
    as (m & s2 & E2 & Hok2 & _ & _ & _ & _ & _ & Hh2 & Hm & _ & Hml). rewrite (bind_run _ _ _ _ _ E2).
  destruct (peek_ok (0 + OFFSETOF_writeIdx) s2 Hok2) as (w & s3 & E3 & L3 & Hok3 & Hw);
    [unfold OFFSETOF_writeIdx; lia|].
  rewrite (bind_run _ _ _ _ _ E3).
  set (s4 := s3 <| iq_header ::= λ h, h <| qh_writeIdx := w |> |>).
  rewrite (bind_run _ _ s3 tt s4) by done.
  destruct (IH s4) as (fin & s5 & ms & E5 & Hok5 & Hh5 & Hms); [by apply update_write_ok|].
  exists fin, s5, (m :: ms). split_and!; try done.
  - rewrite Hh5. change (iq_handled s4) with (iq_handled s3).
    rewrite (lk_handled _ _ L3), Hh2, Hh. by rewrite <- (assoc_L app).
  - constructor; [|done]. split; [done|lia].
Qed.
End safe.

(** ** The loop beside a sender *)

Section deliver.
Context `{Peer} (settings : hgsl_init_param_t) (rb size : nat) `{!Sender rb size}.

Lemma holds_pend_empty mem pend r :
  holds rb size mem pend → mem !! 10%nat = Some r → mem !! 11%nat = Some r → pend = [].
Proof.
  intros (st & r' & w & _ & _ & Hr & Hw & Hrs & Hws & Hf) Hr10 Hw11.
  assert (r' = w) as -> by (rewrite Hr10 in Hr; rewrite Hw11 in Hw; injection Hr; injection Hw; lia).
  destruct pend as [|m pend]; [done|].
  apply framed_cons_inv in Hf as ([Hm _] & Hfs & _). rewrite ring_contents_length in Hfs.
  rewrite (proj2 (ring_used_zero size w w Hws Hws) eq_refl) in Hfs.
  destruct (frame_size_spec m) as (k & Ek & Hk & _). destruct m; cbn in *; [done|lia].
Qed.

(** With a message in the queue it is read, as it was sent. *)
Lemma ready_read s m pend :
  ready settings rb size s (m :: pend) →
  iq_mem s !! 11%nat = Some (qh_writeIdx (iq_header s)) →
  ∃ hd s' new, hgsl_read_msg_from_ipcq (qh_dwSize (iq_header s)) (is_PKMD2HGSL_rb_offset settings)
      (is_PKMD2HGSL_queue_offset settings) s = Some (0, s') ∧
    ready settings rb size s' (pend ++ new) ∧ iq_sent s' = iq_sent s ++ new ∧
    iq_handled s' = iq_handled s ∧ iq_msgbuf s' !! 0%nat = Some hd ∧
    MSG_SZ_GET hd = Z.of_nat (length m) ∧ take (length m) (iq_msgbuf s') = m.
Proof.
  intros [Hok Hn Hr10 Hh] Hw11. pose proof Hok as [[-> -> Hrb Hroom Hsm] Hwd _ Hd _ _].
  pose proof Hh as (st & r & w & _ & _ & Hr & Hw & Hrs & Hws & Hf).
  assert (qh_readIdx (iq_header s) = Z.of_nat r) as Er by (rewrite Hr10 in Hr; by injection Hr).
  assert (qh_writeIdx (iq_header s) = Z.of_nat w) as Ew by (rewrite Hw11 in Hw; by injection Hw).
  set (I := λ mem sent, length mem = length (iq_mem s) ∧ mem !! 10%nat = Some (Z.of_nat r) ∧
    ∃ new, holds rb size mem ((m :: pend) ++ new) ∧ sent = iq_sent s ++ new).
  set (φ := λ i v, ∀ j, (j < length m)%nat → i = slot rb size (Z.of_nat r) j → m !! j = Some v).
  destruct (read_msg_run I φ (length (iq_mem s))) with (rb := rb) (size := size)
    (settings := settings) (s := s) as (ret & s' & E & Hok' & Hcase); try done.
  { by intros ? ? []. }
  { intros t mem sent (Hl & H10 & new & Hp & ->). unfold I. rewrite peer_length.
    destruct (sender_appends (rb := rb) (size := size) t mem _ Hp) as [Hp' H10']. rewrite H10'.
    split_and!; try done. exists (new ++ (peer_step t mem).2).
    by rewrite !(assoc_L app). }
  { intros mem sent i v (Hl & H10 & new & Hp & _) Hv j Hj ->. cbn [app] in Hp.
    by eapply (holds_read rb size (length (iq_mem s))). }
  { split_and!; [done|by rewrite Hr10, Er|]. exists []. by rewrite !app_nil_r. }
  apply framed_cons_inv in Hf as ([Hne Hsz] & Hfs & _ & _). rewrite ring_contents_length in Hfs.
  destruct (frame_size_spec m) as (k & Ek & Hk & Ea).
  assert (0 < length m)%nat as Hm0 by (destruct m; [done|cbn; lia]).
  assert (∀ hd, φ (slot rb size (Z.of_nat r) 0) hd → MSG_SZ_GET hd = Z.of_nat (length m)) as Hhd.
  { intros hd Hhd. rewrite Hsz. f_equal. rewrite head_lookup. by rewrite (Hhd 0%nat). }
  assert (occupied (iq_header s) = Z.of_nat (ring_used size w r)) as Eo.
  { unfold occupied, hgsl_get_queue_occupancy. rewrite Hd, Er, Ew.
    rewrite u32_small by (unfold is_u32; lia). unfold ring_used.
    rewrite Nat2Z.inj_mod. f_equal. lia. }
  destruct Hcase as [(_ & [Hc|[Hc|[Hc|(hd & Hc & Hc2)]]] & _)|(-> & hd & T)]; [lia|lia|lia| |].
  { rewrite Er in Hc. rewrite (Hhd hd Hc) in Hc2. lia. }
  destruct T as [Tn Th Ts Thd (mem & (Hl & H10 & new & Hp & Hnew) & Tmem) [Tb1 Tb2] Tb3].
  rewrite Er in *. rewrite (Hhd hd Tb2) in *. exists hd, s', new. split_and!; try done.
  - rewrite Ea in Thd. pose proof (holds_consume rb size (length (iq_mem s)) Hrb Hroom mem r m (pend ++ new) Hl Hp H10) as Hp'.
    assert (qh_readIdx (iq_header s') =
      (Z.of_nat r + Z.of_nat (frame_size m)) mod Z.of_nat size) as Er' by by rewrite Thd.
    rewrite <- Er', <- Tmem in Hp'. split; [done|congruence| |done].
    by rewrite Tmem, list_lookup_insert_eq by lia.
  - by apply Hhd.
  - apply list_eq. intros j. destruct (decide (j < length m)%nat) as [Hj|Hj].
    + rewrite lookup_take_lt by done. destruct j as [|j].
      * rewrite Tb1. symmetry. by apply Tb2.
      * destruct (Tb3 (S j)) as (v & -> & Hv); [lia|]. symmetry. by apply Hv.
    + rewrite lookup_take_ge, lookup_ge_None_2 by lia. done.
Qed.

Lemma ready_peek i s pend :
  ready settings rb size s pend → 0 ≤ i < 12 →
  ∃ v s' new, peek i s = Some (v, s') ∧ ready settings rb size s' (pend ++ new) ∧ looked s s' ∧
    iq_sent s' = iq_sent s ++ new ∧ iq_mem s' !! Z.to_nat i = Some v.
Proof.
  intros [Hok Hn H10 Hh] Hi. pose proof Hok as [[? ? ? ? ?] ? ? ? ? ?].
  destruct (peek_run i s) as (v & s' & E & L & Em & Es & Ev); [lia|].
  destruct (sender_appends (rb := rb) (size := size) (iq_clock s) (iq_mem s) _ Hh) as [Hh' H10'].
  exists v, s'. eexists. split_and!; try done. split.
  - by eapply looked_ok.
  - by rewrite (lk_memnode _ _ L).
  - by rewrite Em, H10', (lk_header _ _ L).
  - by rewrite Em.
Qed.

Lemma ipcq_loop_delivers n : ∀ s pend,
  ready settings rb size s pend → iq_mem s !! 11%nat = Some (qh_writeIdx (iq_header s)) →
  ∃ fin s' ms new pend', ipcq_loop n settings 0 s = Some (fin, s') ∧
    ready settings rb size s' pend' ∧ iq_handled s' = iq_handled s ++ (handled <$> ms) ∧
    iq_sent s' = iq_sent s ++ new ∧ pend ++ new = ms ++ pend' ∧
    if fin : bool then pend' = [] else length ms = n.
Proof.
  induction n as [|n IH]; intros s pend Hr Hw; cbn [ipcq_loop];
    rewrite (bind_run _ _ s (iq_header s) s) by done;
    (destruct (Z.eqb_spec (qh_readIdx (iq_header s)) (qh_writeIdx (iq_header s))) as [Ee|Ee];
      [exists true, s, [], [], pend; rewrite !app_nil_r; split_and!; try done;
       eapply holds_pend_empty; [apply Hr|apply Hr|by rewrite Ee]|]).
  { exists false, s, [], [], pend. by rewrite !app_nil_r. }
  destruct pend as [|m pend].
  { exfalso. apply Ee. destruct Hr as [_ _ Hr10 (st & r & w & _ & _ & H10 & H11 & Hrs & Hws & Hf)].
    rewrite Hr10 in H10. rewrite Hw in H11. injection H10 as ->. injection H11 as ->.
    apply framed_nil_inv in Hf. f_equal. apply (ring_used_zero size w r); [done..|].
    by rewrite <- (ring_contents_length (iq_mem s) rb), Hf. }
  destruct (ready_read s m pend Hr Hw) as (hd & s1 & new1 & E1 & Hr1 & Hs1 & Hh1 & Hhd & Hsz & Htake).
  rewrite (bind_run _ _ _ _ _ E1). change (negb (0 =? 0)) with false. cbv iota.
  destruct (handled_run settings rb size s1 hd) as
    (m' & s2 & E2 & Hok2 & Em2 & Es2 & Eh2 & En2 & _ & Hh2 & Hm & -> & _);
    [apply Hr1|done| |].
  { rewrite Hsz. pose proof Hr as [_ _ _ (? & ? & ? & _ & _ & _ & _ & _ & _ & Hf)].
    apply framed_cons_inv in Hf as ([Hne _] & _). destruct m; [done|cbn; lia]. }
  rewrite (bind_run _ _ _ _ _ E2). rewrite Hsz, Nat2Z.id, Htake in Hh2.
  destruct (rd_ok _ _ _ _ _ Hr1) as [[? ? ? ? ?] ? ? ? ? ?].
  assert (ready settings rb size s2 (pend ++ new1)) as Hr2.
  { destruct Hr1. split; [done|by rewrite En2|by rewrite Em2, Eh2|by rewrite Em2]. }
  destruct (ready_peek (0 + OFFSETOF_writeIdx) s2 _ Hr2) as (w & s3 & new2 & E3 & Hr3 & L3 & Es3 & Ew3);
    [unfold OFFSETOF_writeIdx; lia|].
  rewrite (bind_run _ _ _ _ _ E3).
  set (s4 := s3 <| iq_header ::= λ h, h <| qh_writeIdx := w |> |>).
  rewrite (bind_run _ _ s3 tt s4) by done.
  destruct (IH s4 ((pend ++ new1) ++ new2)) as (fin & s5 & ms & new & pend' & E5 & Hr5 & Hh5 & Hs5 & Hms & Hfin).
  { destruct Hr3 as [Hok3 ? ? ?]. split; try done. apply update_write_ok; [done|].
    eapply Forall_lookup_1, Ew3. apply Hok3. }
  { exact Ew3. }
  exists fin, s5, (m :: ms), (new1 ++ new2 ++ new), pend'. split_and!; try done.
  - rewrite Hh5. change (iq_handled s4) with (iq_handled s3).
    rewrite (lk_handled _ _ L3), Hh2, Hh1. by rewrite <- (assoc_L app).
  - rewrite Hs5. change (iq_sent s4) with (iq_sent s3). rewrite Es3, Es2, Hs1.
    by rewrite !(assoc_L app).
  - cbn. f_equal. rewrite <- Hms. by rewrite !(assoc_L app).
  - destruct fin; [done|]. cbn. by rewrite Hfin.
Qed.
End deliver.

(** * Properties *)

(** C27. Whatever the other side writes into the shared memory, and whenever it does, the
    reader stays inside the memory of the queue and inside its own buffer: the handler
    returns, its copy of the size of the queue and its buffer keep their sizes, and each
    message it has passed on has the length its first dword tells, less than the queue. *)
Theorem ipcq_reader_safe `{Peer} n settings rb size s :
  ipcq_ok settings rb size s →
  ∃ fin s' ms, hgsl_gmugos_handle_ipcq_msg n settings s = Some (fin, s') ∧
    ipcq_ok settings rb size s' ∧ iq_handled s' = iq_handled s ++ (handled <$> ms) ∧
    Forall (λ m, well_formed m ∧ (length m < size)%nat) ms.
Proof.
  intros Hok. unfold hgsl_gmugos_handle_ipcq_msg.
  rewrite (bind_run _ _ s (iq_memnode s) s) by done.
  destruct (iq_memnode s); cbn [negb]; [|exists true, s, []; by rewrite app_nil_r].
  destruct Hok as [Hat ? ? ? ? ?] eqn:E. rewrite (qa_queue_offset _ _ _ _ Hat). clear E.
  change (0 * 4 + ?x) with (0 + x).
  destruct (peek_ok settings rb size (0 + OFFSETOF_status) s Hok) as (st & s1 & E1 & L1 & Hok1 & _);
    [unfold OFFSETOF_status; lia|].
  rewrite (bind_run _ _ _ _ _ E1).
  destruct (st =? 0); [exists true, s1, []; by rewrite app_nil_r, (lk_handled _ _ L1)|].
  destruct (peek_ok settings rb size (0 + OFFSETOF_writeIdx) s1 Hok1) as (w & s2 & E2 & L2 & Hok2 & Hw);
    [unfold OFFSETOF_writeIdx; lia|].
  rewrite (bind_run _ _ _ _ _ E2).
  set (s3 := s2 <| iq_header ::= λ h, h <| qh_writeIdx := w |> |>).
  rewrite (bind_run _ _ s2 tt s3) by done.
  destruct (ipcq_loop_safe settings rb size n s3) as (fin & s4 & ms & E4 & Hok4 & Hh4 & Hms).
  { by apply update_write_ok. }
  exists fin, s4, ms. split_and!; try done. rewrite Hh4. change (iq_handled s3) with (iq_handled s2).
  by rewrite (lk_handled _ _ L2), (lk_handled _ _ L1).
Qed.

(** C5. Beside a sender that only appends, however its steps fall between those of the
    reader, the messages are handled in the order sent, each of them once and as it was
    written: those that were waiting and those sent meanwhile are the handled ones and
    then those still in the queue.  When the handler ends nothing is left; it goes on
    past [n] turns only when it has handled [n] messages. *)
Theorem ipcq_delivers `{Peer} n settings rb size s pend :
  Sender rb size → ready settings rb size s pend →
  ∃ fin s' ms new pend', hgsl_gmugos_handle_ipcq_msg n settings s = Some (fin, s') ∧
    ready settings rb size s' pend' ∧ iq_handled s' = iq_handled s ++ (handled <$> ms) ∧
    iq_sent s' = iq_sent s ++ new ∧ pend ++ new = ms ++ pend' ∧
    if fin : bool then pend' = [] else length ms = n.
Proof.
  intros HS Hr. unfold hgsl_gmugos_handle_ipcq_msg.
  rewrite (bind_run _ _ s (iq_memnode s) s), (rd_memnode _ _ _ _ _ Hr) by done. cbn [negb].
  rewrite (qa_queue_offset _ _ _ _ (io_at _ _ _ _ (rd_ok _ _ _ _ _ Hr))).
  change (0 * 4 + ?x) with (0 + x).
  destruct (ready_peek settings rb size (0 + OFFSETOF_status) s pend Hr)
    as (st & s1 & new1 & E1 & Hr1 & L1 & Hs1 & Hst); [unfold OFFSETOF_status; lia|].
  rewrite (bind_run _ _ _ _ _ E1).
  rewrite (proj2 (Z.eqb_neq st 0)).
  2: { destruct (rd_holds _ _ _ _ _ Hr1) as (st' & ? & ? & Hst' & ? & _).
       change (Z.to_nat _) with 0%nat in Hst. congruence. }
  destruct (ready_peek settings rb size (0 + OFFSETOF_writeIdx) s1 (pend ++ new1) Hr1)
    as (w & s2 & new2 & E2 & Hr2 & L2 & Hs2 & Hw); [unfold OFFSETOF_writeIdx; lia|].
  rewrite (bind_run _ _ _ _ _ E2).
  set (s3 := s2 <| iq_header ::= λ h, h <| qh_writeIdx := w |> |>).
  rewrite (bind_run _ _ s2 tt s3) by done.
  destruct (ipcq_loop_delivers settings rb size n s3 ((pend ++ new1) ++ new2))
    as (fin & s4 & ms & new & pend' & E4 & Hr4 & Hh4 & Hs4 & Hms & Hfin).
  { destruct Hr2 as [? ? ? ?]. split; try done. apply update_write_ok; [done|].
    eapply Forall_lookup_1, Hw. by eapply io_words. }
  { exact Hw. }
  exists fin, s4, ms, (new1 ++ new2 ++ new), pend'. split_and!; try done.
  - rewrite Hh4. change (iq_handled s3) with (iq_handled s2).
    by rewrite (lk_handled _ _ L2), (lk_handled _ _ L1).
  - rewrite Hs4. change (iq_sent s3) with (iq_sent s2). rewrite Hs2, Hs1. by rewrite !(assoc_L app).
  - rewrite <- Hms. by rewrite !(assoc_L app).
Qed.

(** * Concrete runs *)

(** A sender of [size] dwords at [rb] that has at its step [t] the message [script t] to
    send, and sends it if there is room. *)
Section script.
Context (rb size : nat) (script : nat → option (list Z)).

Definition sendable (mem m : list Z) (r w : Z) : Prop :=
  ((12 ≤ rb)%nat ∧ (rb + size ≤ length mem)%nat ∧ Z.of_nat size < 1073741824) ∧
  (0 ≤ r < Z.of_nat size ∧ 0 ≤ w < Z.of_nat size) ∧ Forall is_u32 m ∧ well_formed m ∧
  (ring_used size (Z.to_nat w) (Z.to_nat r) + frame_size m < size)%nat.

#[local] Instance is_u32_dec x : Decision (is_u32 x).
Proof. unfold is_u32. apply _. Defined.

#[local] Instance sendable_dec mem m r w : Decision (sendable mem m r w).
Proof. unfold sendable, well_formed. apply _. Defined.

Definition script_step (t : nat) (mem : list Z) : list Z * list (list Z) :=
  match script t, mem !! 10%nat, mem !! 11%nat with
  | Some m, Some r, Some w =>
      if decide (sendable mem m r w) then
        match ring_write mem rb size (Z.to_nat w) m with
        | Some mem =>
            (<[11%nat := Z.of_nat ((Z.to_nat w + frame_size m) mod size)]> mem, [m])
        | None => (mem, [])
        end
      else (mem, [])
  | _, _, _ => (mem, [])
  end.

Lemma memcpy_words mem i src mem' :
  memcpy mem i src = Some mem' → Forall is_u32 mem → Forall is_u32 src → Forall is_u32 mem'.
Proof.
  unfold memcpy. intros E Hm Hs. case_match; [|done]. injection E as <-.
  rewrite !Forall_app. split_and!; [by apply Forall_take|done|by apply Forall_drop].
Qed.

Lemma ring_write_keeps mem w m mem' :
  ring_write mem rb size w m = Some mem' →
  length mem' = length mem ∧ (Forall is_u32 mem → Forall is_u32 m → Forall is_u32 mem').
Proof.
  unfold ring_write. intros E. do 2 (case_match; try done).
  - destruct (memcpy mem rb _) as [m1|] eqn:E1; [|done]. cbn in E.
    split; [by rewrite (memcpy_length _ _ _ _ E), (memcpy_length _ _ _ _ E1)|]. intros Hm Hs.
    eapply memcpy_words; [exact E|eapply memcpy_words; [exact E1|done|]|];
      [by apply Forall_drop|by apply Forall_take].
  - split; [by eapply memcpy_length|]. intros. by eapply memcpy_words.
Qed.

Lemma script_step_cases t mem :
  script_step t mem = (mem, []) ∨
  ∃ m r w mem', mem !! 10%nat = Some r ∧ mem !! 11%nat = Some w ∧ sendable mem m r w ∧
    ring_write mem rb size (Z.to_nat w) m = Some mem' ∧
    script_step t mem = (<[11%nat := Z.of_nat ((Z.to_nat w + frame_size m) mod size)]> mem', [m]).
Proof.
  unfold script_step. destruct (script t) as [m|], (mem !! 10%nat) as [r|], (mem !! 11%nat) as [w|]; auto.
  case_decide; [|by left]. destruct (ring_write _ _ _ _ _) as [mem'|] eqn:E; [|by left].
  right. by exists m, r, w, mem'.
Qed.

Lemma script_length t mem : length (script_step t mem).1 = length mem.
Proof.
  destruct (script_step_cases t mem) as [->|(m & r & w & mem' & _ & _ & _ & E & ->)]; [done|].
  cbn. rewrite length_insert. by destruct (ring_write_keeps _ _ _ _ E).
Qed.

Lemma script_words t mem : Forall is_u32 mem → Forall is_u32 (script_step t mem).1.
Proof.
  destruct (script_step_cases t mem) as [->|(m & r & w & mem' & _ & _ & Hs & E & ->)]; [done|].
  intros Hm. destruct Hs as ((_ & _ & Hsm) & [Hr _] & Hms & _).
  apply Forall_insert; [by apply (ring_write_keeps _ _ _ _ E)|].
  pose proof (Nat.mod_upper_bound (Z.to_nat w + frame_size m) size ltac:(lia)).
  unfold is_u32. lia.
Qed.

Definition script_peer : Peer :=
  {| peer_step := script_step; peer_length := script_length; peer_words := script_words |}.

Lemma script_sender : @Sender script_peer rb size.
Proof.
  intros t mem pend Hh. change (@peer_step script_peer) with script_step.
  destruct (script_step_cases t mem) as [->|(m & r & w & mem' & Er & Ew & Hs & E & ->)].
  { by rewrite app_nil_r. }
  destruct Hh as (st & r' & w' & Hst & Hst0 & Hr & Hw & Hrs & Hws & Hf).
  rewrite Er in Hr. injection Hr as ->. rewrite Ew in Hw. injection Hw as ->.
  destruct Hs as ((Hrb & Hroom & _) & _ & _ & Hm & Hused). rewrite !Nat2Z.id in *.
  destruct (frame_size_spec m) as (k & Ek & Hk & _).
  destruct (ring_write_extends mem rb size r' w' m (frame_size m))
    as (mem1 & E1 & Hl & (pad & Hpad & Happ) & Hout); [lia..|].
  rewrite E in E1. injection E1 as <-. cbn [fst snd].
  split; [|rewrite list_lookup_insert_ne by done; apply Hout; lia].
  exists st, r', ((w' + frame_size m) mod size)%nat.
  rewrite list_lookup_insert_eq, !list_lookup_insert_ne by lia.
  rewrite !Hout by lia. split_and!; try done; [apply Nat.mod_upper_bound; lia|].
  rewrite (ring_contents_frame mem'), Happ; [|lia|intros; apply list_lookup_insert_ne; lia].
  apply framed_app; [done|]. rewrite <- (app_nil_r pad). constructor; [done| |constructor].
  rewrite length_app. lia.
Qed.
End script.

(** A queue of 16 dwords with a message of 5 that wraps around; at its third step the
    sender adds one of 2. *)
Definition demo_settings : hgsl_init_param_t := {|
  is_size := 60; is_devhandle := 1; is_pkmd_export_id := 0; is_pkmd_dwsize := 28;
  is_PKMD2HGSL_queue_offset := 0; is_feature_flags := 0; is_PKMD2HGSL_rb_offset := 12;
  is_gmu_export_id := 0; is_gmu_dwsize := 0; is_GMU2HGSL_queue_offset := 0;
  is_GMU2HGSL_queue_size := 0; is_GMU2HGSL_rb_offset := 0; is_HGSL2GMU_queue_offset := 0;
  is_HGSL2GMU_queue_size := 0; is_HGSL2GMU_rb_offset := 0 |}.

Definition demo_msg : list Z := [0x501; 11; 12; 13; 14].

Definition demo_ipcq : ipcq := {|
  iq_mem := [1; 0; 0; 16; 0; 0; 0; 0; 0; 0; 12; 4] ++
    [14; 0; 0; 0] ++ replicate 8 0 ++ [0x501; 11; 12; 13];
  iq_memnode := true;
  iq_header := {| qh_status := 1; qh_startAddr := 0; qh_type := 0; qh_dwSize := 16;
                  qh_pktSize := 0; qh_pktDropCnt := 0; qh_pads := replicate 4 0;
                  qh_readIdx := 12; qh_writeIdx := 0 |};
  iq_msgbuf := replicate 255 0; iq_handled := []; iq_sent := [demo_msg]; iq_clock := 0 |}.

Definition demo_script (t : nat) : option (list Z) :=
  if (t =? 2)%nat then Some [0x207; 99] else None.

Definition demo_peer : Peer := script_peer 12 16 demo_script.

(** One that makes the write index jump about. *)
Definition rude_step (t : nat) (mem : list Z) : list Z * list (list Z) :=
  (<[11%nat := Z.of_nat (7 * t mod 20)]> mem, []).

Lemma rude_words t mem : Forall is_u32 mem → Forall is_u32 (rude_step t mem).1.
Proof.
  intros Hm. apply Forall_insert; [done|].
  pose proof (Nat.mod_upper_bound (7 * t) 20 ltac:(done)). unfold is_u32. lia.
Qed.

Definition rude_peer : Peer :=
  {| peer_step := rude_step; peer_length := λ t mem, length_insert _ _ _;
     peer_words := rude_words |}.

Lemma demo_ipcq_ok : ipcq_ok demo_settings 12 16 demo_ipcq.
Proof.
  split; [split; cbn; lia|..]; cbn; unfold is_u32; try done; try lia.
  repeat constructor; unfold is_u32; lia.
Qed.

Lemma demo_ready : ready demo_settings 12 16 demo_ipcq [demo_msg].
Proof.
  split; [apply demo_ipcq_ok|done|done|]. exists 1, 12%nat, 4%nat. split_and!; try done; try lia.
  change (framed (demo_msg ++ [0; 0; 0] ++ []) [demo_msg]). constructor; [|done|constructor].
  split; done.
Qed.

Lemma ipcq_reader_safe_witness : let _ := rude_peer in
  ∃ fin s' ms, hgsl_gmugos_handle_ipcq_msg 5 demo_settings demo_ipcq = Some (fin, s') ∧
    ipcq_ok demo_settings 12 16 s' ∧ iq_handled s' = handled <$> ms ∧
    Forall (λ m, well_formed m ∧ (length m < 16)%nat) ms.
Proof. intros P. apply (ipcq_reader_safe 5 demo_settings 12 16 demo_ipcq demo_ipcq_ok). Defined.

Lemma ipcq_delivers_witness : let _ := demo_peer in
  ∃ s' new, hgsl_gmugos_handle_ipcq_msg 3 demo_settings demo_ipcq = Some (true, s') ∧
    iq_handled s' = handled <$> demo_msg :: new ∧ new = [[0x207; 99]].
Proof.
  intros P.
  destruct (@ipcq_delivers P 3 demo_settings 12 16 demo_ipcq [demo_msg]
    (script_sender 12 16 demo_script) demo_ready) as (fin & s' & ms & new & pend' & E & _ & Hh & Hs & Hms & Hfin).
  assert ((λ r, (r.1, iq_sent r.2)) <$> hgsl_gmugos_handle_ipcq_msg 3 demo_settings demo_ipcq =
    Some (true, [demo_msg; [0x207; 99]])) as Hrun by (vm_compute; reflexivity).
  rewrite E in Hrun. cbn [fmap option_fmap option_map fst snd] in Hrun.
  injection Hrun as -> Hsent. rewrite Hs in Hsent. injection Hsent as ->.
  exists s', [[0x207; 99]]. split; [exact E|split; [|reflexivity]].
  rewrite Hh. subst pend'. rewrite app_nil_r in Hms. by rewrite <- Hms.
Defined.
