(* ===== verification/Mmu.v ===== *)
(** The state that the memory ioctls work on, and the mapping of memory for the GPU
    (hgsl_mmu.c, hgsl_iommu.c): by the backend or, with full virtualisation, by this
    driver with the one page table of the IOMMU driver or with one for each process. *)

From S2P Require Import Prelude.
From S2P Require Import Rbtree.
From S2P Require Import MemTree.
From S2P Require Import State.
From S2P Require Import Timestamp.
From S2P Require Import Context.
From S2P Require Import Gpuaddr.
From S2P Require Import Bytes.
From S2P Require Import Parcel.
From S2P Require Import Hyp.
From S2P Require Import HypPool.
From S2P Require Import HypCalls.
From S2P Require Import SharedMem.

(** * State *)

Definition HGSL_FEATURE_MASK_FV : Z := BIT 0.

(** enum hgsl_mmutype *)
Inductive hgsl_mmutype := HGSL_MMU_TYPE_IOMMU | HGSL_MMU_TYPE_NONE.

Definition is_iommu (t : hgsl_mmutype) : bool :=
  match t with HGSL_MMU_TYPE_IOMMU => true | HGSL_MMU_TYPE_NONE => false end.

(** What does not change while the ioctls run: fv_on, enabled_feature_mask of each
    device, mmu.type, use_single_pt and cache_flags of struct qcom_hgsl, and
    active_devicehandle, dev_open_count and is_device_activated of struct hgsl_priv. *)
Record hgsl_cfg := {
  cf_fv_on : bool;
  cf_feature_mask : Z → Z;
  cf_mmutype : hgsl_mmutype;
  cf_use_single_pt : bool;
  cf_iocoherency : bool;
  cf_writecombine : bool;
  cf_active_devicehandle : Z;
  cf_dev_open_count : Z;
  cf_is_device_activated : bool }.

(** The process: its memory, its channels to the hypervisor, the trees mem_allocated
    and mem_mapped with the addresses of nodes, its page table and stats.entries of it;
    descriptors reserved and not yet installed, the files installed, what has been copied
    to the user, and the count of questions. *)
Record mem_dev := {
  md_shm : shm;
  md_hyp : hgsl_hyp_priv_t;
  md_allocated : tree ptr;
  md_mapped : tree ptr;
  md_pagetable : option hgsl_pagetable;
  md_entries : Z;
  md_reserved : gset Z;
  md_files : gmap Z ptr;
  md_to_user : list (list Z);
  md_clock : nat }.

#[export] Instance mem_dev_eta : Eta mem_dev := λ r,
  {| md_shm := md_shm r; md_hyp := md_hyp r; md_allocated := md_allocated r;
     md_mapped := md_mapped r; md_pagetable := md_pagetable r; md_entries := md_entries r;
     md_reserved := md_reserved r; md_files := md_files r; md_to_user := md_to_user r;
     md_clock := md_clock r |}.

(** What the kernel answers, by the number of the question. *)
Class MemEnv := {
  env_kmem_alloc : nat → bool;          (* kmem_cache_alloc of an address entry *)
  env_dma_map_sgtable : nat → Z;
  env_sg_dma_address : nat → option Z;  (* of the first segment, if the table has one *)
  env_unused_fd : nat → Z;              (* get_unused_fd_flags *)
  env_copy : nat → bool;                (* whether a copy from or to the user succeeds *)
  env_dma_buf_fd : nat → Z }.

Section mmu.
Context `{Rbtree} `{SharedMem} `{MemEnv}.

Abbreviation DM := (M mem_dev).

Definition dev_ask {A} (q : nat → A) : DM A :=
  a ← gets (λ s, q (md_clock s)); modify (λ s, s <| md_clock ::= S |>) ;; mret a.

(** A step of the memory, or of the channels. *)
Definition on_shm {A} (m : M shm A) : DM A := λ s,
  '(a, sh) ← m (md_shm s); Some (a, s <| md_shm := sh |>).

Definition on_hyp {A} (m : M hgsl_hyp_priv_t A) : DM A := λ s,
  '(a, hy) ← m (md_hyp s); Some (a, s <| md_hyp := hy |>).

(** ** The configuration *)

Definition get_fv_status (cfg : hgsl_cfg) (dev_id : Z) : bool :=
  if negb (cf_fv_on cfg) then false
  else if HGSL_DEVICE_NUM <=? dev_id then false
  else negb (Z.land (cf_feature_mask cfg dev_id) HGSL_FEATURE_MASK_FV =? 0).

Definition is_request_rejected (cfg : hgsl_cfg) : bool :=
  (1 <? cf_dev_open_count cfg) && negb (cf_is_device_activated cfg).

Definition hgsl_mmu_get_mmutype (cfg : hgsl_cfg) : hgsl_mmutype := cf_mmutype cfg.

(** An unsigned number as an int. *)
Definition to_int (x : Z) : Z := if x <? 2147483648 then x else x - 4294967296.

(** ** GPU addresses *)

(** hgsl_mmu_get_gpuaddr and hgsl_mmu_put_gpuaddr on the page table of the process,
    when [pt] says that the caller has it, and on a node of the store. *)
Definition mmu_get_gpuaddr (cfg : hgsl_cfg) (pt : bool) (p : ptr) : DM Z :=
  n ← on_shm (node p);
  pagetable ← gets md_pagetable;
  alloc1 ← dev_ask env_kmem_alloc;
  alloc2 ← dev_ask env_kmem_alloc;
  '(ret, pagetable', n') ← of_option (hgsl_mmu_get_gpuaddr alloc1 alloc2
     (if pt then pagetable else None) (Some n) (cf_use_single_pt cfg));
  modify (λ s, s <| md_pagetable := if pt then pagetable' else pagetable |>) ;;
  on_shm (set_node p (λ n, default n n')) ;;
  mret ret.

Definition mmu_put_gpuaddr (cfg : hgsl_cfg) (pt : bool) (p : option ptr) : DM unit :=
  pagetable ← gets md_pagetable;
  n ← match p with Some p => n ← on_shm (node p); mret (Some n) | None => mret None end;
  let '(_, pagetable') :=
    hgsl_mmu_put_gpuaddr (if pt then pagetable else None) n (cf_use_single_pt cfg) in
  modify (λ s, s <| md_pagetable := if pt then pagetable' else pagetable |>).

(** ** One page table *)

Definition hgsl_iommu_map_using_single_pt (p : ptr) (internal : bool) : DM Z :=
  sgt ← on_shm (hgsl_get_sgt_iommu p);
  match sgt with
  | PTR g =>
      ret ← (if internal then dev_ask env_dma_map_sgtable else mret 0);
      ret ← (if ret =? 0 then
               gpuaddr ← dev_ask env_sg_dma_address;
               match gpuaddr with
               | Some gpuaddr => on_shm (set_node p (λ n, n <| mn_gpuaddr := gpuaddr |>)) ;; mret 0
               | None => mret (- EINVAL)
               end
             else mret ret);
      when (negb (ret =? 0)) (on_shm (hgsl_put_sgt_iommu p)) ;;
      mret ret
  | _ => mret (- EINVAL)
  end.

(** dma_unmap_sgtable on a node that has no table is a fault. *)
Definition hgsl_iommu_unmap_using_single_pt (p : ptr) (internal : bool) : DM Z :=
  n ← on_shm (node p);
  (if internal && (IS_ERR_OR_NULL (mn_attach_iommu n) || IS_ERR_OR_NULL (mn_sgt_iommu n))
   then fault else mret tt) ;;
  on_shm (hgsl_put_sgt_iommu p) ;;
  on_shm (set_node p (λ n, n <| mn_gpuaddr := 0 |>)) ;;
  mret 0.

(** ** A page table for each process

    Without CONFIG_PER_PROCESS_PT nothing is ever put into the page table:
    _iopgtbl_map_sg maps 0 bytes. *)

Definition _iopgtbl_map_sg (gpuaddr : Z) : Z := 0.
Definition _iopgtbl_unmap (gpuaddr size : Z) : Z := 0.

Definition hgsl_iopgtbl_map (p : ptr) : DM Z :=
  n ← on_shm (node p);
  sgt ← (if IS_ERR_OR_NULL (mn_sgt_iommu n) then on_shm (hgsl_get_sgt_iommu p)
         else mret (mn_sgt_iommu n));
  if IS_ERR_OR_NULL sgt then mret (- EINVAL)
  else
    let mapped := _iopgtbl_map_sg (mn_gpuaddr n) in
    if mapped =? 0 then mret (- ENOMEM) else mret 0.

Definition hgsl_iopgtbl_unmap (p : ptr) (internal : bool) : DM Z :=
  on_shm (hgsl_put_sgt p internal) ;;
  n ← on_shm (node p);
  mret (_iopgtbl_unmap (mn_gpuaddr n) (hgsl_memnode_footprint n)).

(** ** Either *)

(** [pt] says that the caller has the page table, whose operations are those above. *)
Definition has_pagetable (pt : bool) : DM bool :=
  pagetable ← gets md_pagetable; mret match pagetable with Some _ => pt | None => false end.

Definition set_mapped (on : bool) (n : hgsl_mem_node) : hgsl_mem_node :=
  n <| mn_priv ::= λ f, if on then Z.lor f HGSL_MEMNODE_MAPPED
                        else Z.land f (u32 (Z.lnot HGSL_MEMNODE_MAPPED)) |>.

Definition hgsl_mmu_map (cfg : hgsl_cfg) (pt : bool) (memnode : option ptr)
    (internal : bool) (dev_hnd : Z) : DM Z :=
  let dev_id := to_int (hgsl_hnd2id dev_hnd) in
  if HGSL_DEVICE_NUM <=? dev_id then mret (- EINVAL)
  else match memnode with
  | None => mret (- EINVAL)
  | Some p =>
      n ← on_shm (node p);
      if negb (mn_gpuaddr n =? 0) then mret (- EINVAL)
      else
        op ← has_pagetable pt;
        ret ← (if cf_use_single_pt cfg then
                 if dev_id <? 0 then fault else hgsl_iommu_map_using_single_pt p internal
               else if op then
                 ret ← hgsl_iopgtbl_map p;
                 when (ret =? 0) (modify (λ s, s <| md_entries ::= Z.succ |>)) ;;
                 mret ret
               else mret 0);
        if negb (ret =? 0) then mret ret
        else
          n ← on_shm (node p);
          if mn_gpuaddr n =? 0 then
            when (negb (cf_use_single_pt cfg) && op)
              (modify (λ s, s <| md_entries ::= Z.pred |>)) ;;
            mret (- EINVAL)
          else on_shm (set_node p (set_mapped true)) ;; mret 0
  end.

Definition hgsl_mmu_unmap (cfg : hgsl_cfg) (pt : bool) (memnode : option ptr)
    (internal : bool) (dev_hnd : Z) : DM Z :=
  let dev_id := to_int (hgsl_hnd2id dev_hnd) in
  if HGSL_DEVICE_NUM <=? dev_id then mret (- EINVAL)
  else match memnode with
  | None => mret (- EINVAL)
  | Some p =>
      n ← on_shm (node p);
      if mn_gpuaddr n =? 0 then mret (- EINVAL)
      else if negb (has_flag (mn_priv n) HGSL_MEMNODE_MAPPED) then mret (- EINVAL)
      else if cf_use_single_pt cfg then
        ret ← hgsl_iommu_unmap_using_single_pt p internal;
        on_shm (set_node p (set_mapped false)) ;; mret ret
      else
        op ← has_pagetable pt;
        if negb op then mret 0
        else
          ret ← hgsl_iopgtbl_unmap p internal;
          if negb (ret =? 0) then mret ret
          else
            modify (λ s, s <| md_entries ::= Z.pred |>) ;;
            on_shm (set_node p (set_mapped false)) ;; mret 0
  end.
End mmu.
