(* ===== verification/MemIoctl.v ===== *)
(** The ioctls on memory (hgsl.c): allocating and freeing it, mapping buffers of others
    for the GPU, cache maintenance, descriptors, and the clean-up when a process goes. *)

From S2P Require Import Prelude.
From S2P Require Import Rbtree.
From S2P Require Import MemTree.
From S2P Require Import State.
From S2P Require Import Timestamp.
From S2P Require Import Context.
From S2P Require Import Gpuaddr.
From S2P Require Import Bytes.
From S2P Require Import Parcel.
From S2P Require Import Hyp.
From S2P Require Import HypPool.
From S2P Require Import HypCalls.
From S2P Require Import SharedMem.
From S2P Require Import Mmu.

(** * Operations *)

Definition EMFILE : Z := 24.
Definition HGSL_MEM_META_MAX_SIZE : Z := 128.
Definition HGSL_CLEANUP_WAIT_SLICE_IN_MS : Z := 50.

(** The trees hold addresses: what the code reads of a node behind one. *)
Definition in_store (nodes : gmap ptr hgsl_mem_node) : MemNode ptr :=
  {| node_gpuaddr := λ p, from_option mn_gpuaddr 0 (nodes !! p);
     node_size64 := λ p, from_option mn_size64 0 (nodes !! p) |}.

(** Which of the two trees of the process. *)
Inductive mem_tree := Allocated | Mapped.

Definition get_tree (t : mem_tree) (s : mem_dev) : tree ptr :=
  match t with Allocated => md_allocated s | Mapped => md_mapped s end.

Definition set_tree (t : mem_tree) (r : tree ptr) (s : mem_dev) : mem_dev :=
  match t with
  | Allocated => s <| md_allocated := r |>
  | Mapped => s <| md_mapped := r |>
  end.

Section ioctls.
Context `{Rbtree} `{SharedMem} `{Hab} `{MemEnv}.

Abbreviation DM := (M mem_dev).

(** ** The trees *)

Definition mem_add_node (t : mem_tree) (p : ptr) : DM Z :=
  s ← get;
  let '(ret, r) :=
    @hgsl_mem_add_node _ _ (in_store (sm_nodes (md_shm s))) (get_tree t s) p in
  modify (set_tree t r) ;; mret ret.

Definition mem_find_node (t : mem_tree) (gpuaddr size : Z) (accurate : bool) : DM (option ptr) :=
  gets (λ s, @hgsl_mem_find_node_locked _ (in_store (sm_nodes (md_shm s))) (get_tree t s)
               gpuaddr size accurate).

Definition erase_node (t : mem_tree) (p : ptr) : DM unit :=
  modify (λ s, match list_find (p =.) (inorder (get_tree t s)) with
               | Some (i, _) => set_tree t (rb_erase i (get_tree t s)) s
               | None => s
               end).

(** hgsl_free of a node. *)
Definition free_node (p : ptr) : DM unit :=
  on_shm (modify (λ s, s <| sm_nodes ::= delete p |>)).

(** ** Calls on a node *)

Definition map_smmu (o : option ptr) (size offset : Z) (p : ptr) : DM Z :=
  n ← on_shm (node p);
  '(ret, n') ← on_hyp (hgsl_hyp_mem_map_smmu o size offset n);
  on_shm (set_node p (λ _, n')) ;; mret ret.

Definition unmap_smmu (o : option ptr) (p : option ptr) : DM Z :=
  n ← match p with Some p => n ← on_shm (node p); mret (Some n) | None => mret None end;
  '(ret, _) ← on_hyp (hgsl_hyp_mem_unmap_smmu o n);
  mret ret.

(** ** The user *)

Definition copy_memdesc_to_user (p : ptr) : DM bool :=
  ok ← dev_ask env_copy;
  (if ok : bool then
     n ← on_shm (node p); modify (λ s, s <| md_to_user ::= λ l, l ++ [memdesc_bytes n] |>)
   else mret tt) ;;
  mret ok.

Definition get_unused_fd : DM Z :=
  fd ← dev_ask env_unused_fd;
  when (negb (fd <? 0)) (modify (λ s, s <| md_reserved ::= union {[fd]} |>)) ;;
  mret fd.

Definition put_unused_fd (fd : Z) : DM unit :=
  modify (λ s, s <| md_reserved ::= λ f, f ∖ {[fd]} |>).

(** The file of a dma-buf takes over its reference. *)
Definition fd_install (fd : Z) (b : ptr) : DM unit :=
  modify (λ s, s <| md_reserved ::= λ f, f ∖ {[fd]} |> <| md_files ::= <[fd := b]> |>).

(** ** Allocation *)

(** Whether the driver maps a buffer itself. *)
Definition mapped_here (cfg : hgsl_cfg) (use_fv : bool) (flags : Z) : bool :=
  use_fv && negb (has_flag flags GSL_MEMFLAGS_PROTECTED) &&
  is_iommu (hgsl_mmu_get_mmutype cfg).

(** The error paths of allocating and mapping. *)
Definition unmap_failed (cfg : hgsl_cfg) (here pt internal : bool) (o p : option ptr) : DM unit :=
  if here then
    _ ← hgsl_mmu_unmap cfg pt p internal (cf_active_devicehandle cfg);
    mmu_put_gpuaddr cfg pt p
  else _ ← unmap_smmu o p; mret tt.

(** From the node on: the result, and the descriptor. *)
Definition alloc_node (cfg : hgsl_cfg) (here : bool) (o : option ptr)
    (sizebytes flags fd mem_fd : Z) (p : ptr) : DM (Z * Z * bool) :=
  on_shm (set_node p (λ n, n <| mn_flags := flags |>)) ;;
  ret ← on_shm (hgsl_sharedmem_alloc sizebytes flags p);
  if negb (ret =? 0) then mret (ret, fd, false)
  else
    n ← on_shm (node p);
    ret ← (if here then
             ret ← mmu_get_gpuaddr cfg true p;
             if negb (ret =? 0) then mret (- EINVAL)
             else hgsl_mmu_map cfg true (Some p) true (cf_active_devicehandle cfg)
           else map_smmu o (u32 (mn_size64 n)) 0 p);
    if negb (ret =? 0) then mret (ret, fd, here)
    else
      ok ← copy_memdesc_to_user p;
      if negb ok then mret (- EFAULT, fd, here)
      else
        match mn_dma_buf n with
        | PTR b =>
            on_shm (get_dma_buf b) ;;
            ret ← mem_add_node Allocated p;
            if negb (ret =? 0) then on_shm (dma_buf_put b) ;; mret (ret, fd, here)
            else fd_install mem_fd b ;; mret (0, mem_fd, here)
        | _ => fault
        end.

Definition hgsl_ioctl_mem_alloc (cfg : hgsl_cfg) (sizebytes flags fd : Z) : DM (Z * Z) :=
  let dev_id := hgsl_hnd2id (cf_active_devicehandle cfg) in
  let use_fv := get_fv_status cfg dev_id in
  if is_request_rejected cfg then mret (- EINVAL, fd)
  else if sizebytes =? 0 then mret (- EINVAL, fd)
  else
    mem_fd ← get_unused_fd;
    if mem_fd <? 0 then mret (- EMFILE, fd)
    else
      '(ret, o) ← on_hyp (hgsl_hyp_channel_pool_get 0);
      let here := mapped_here cfg use_fv flags in
      '(ret, fd, p, pt) ←
        (if negb (ret =? 0) then mret (ret, fd, None, false)
         else
           p ← on_shm (hgsl_mem_node_zalloc (cf_iocoherency cfg) (cf_writecombine cfg));
           match p with
           | None => mret (- ENOMEM, fd, None, false)
           | Some p =>
               '(ret, fd, pt) ← alloc_node cfg here o sizebytes flags fd mem_fd p;
               mret (ret, fd, Some p, pt)
           end);
      when (negb (ret =? 0))
        (match p with
         | Some p => unmap_failed cfg here pt true o (Some p) ;; on_shm (hgsl_sharedmem_free (Some p))
         | None => mret tt
         end ;;
         put_unused_fd mem_fd) ;;
      on_hyp (hgsl_hyp_channel_pool_put o) ;;
      mret (ret, fd).

(** [memdesc] is the address and the size of the user's description. *)
Definition hgsl_ioctl_mem_free (cfg : hgsl_cfg) (memdesc : Z * Z) : DM Z :=
  let dev_id := hgsl_hnd2id (cf_active_devicehandle cfg) in
  let use_fv := get_fv_status cfg dev_id in
  if is_request_rejected cfg then mret (- EINVAL)
  else
    ok ← dev_ask env_copy;
    if negb ok then mret (- EFAULT)
    else
      '(ret, o) ← on_hyp (hgsl_hyp_channel_pool_get 0);
      ret ← (if negb (ret =? 0) then mret ret
             else
               node_found ← mem_find_node Allocated (memdesc.1) (memdesc.2) true;
               match node_found with
               | None => mret 0
               | Some p =>
                   erase_node Allocated p ;;
                   n ← on_shm (node p);
                   let here := mapped_here cfg use_fv (mn_flags n) in
                   ret ← (if here
                          then hgsl_mmu_unmap cfg true (Some p) true (cf_active_devicehandle cfg)
                          else unmap_smmu o (Some p));
                   if ret =? 0 then
                     when use_fv (mmu_put_gpuaddr cfg here (Some p)) ;;
                     on_shm (hgsl_sharedmem_free (Some p)) ;; mret 0
                   else mem_add_node Allocated p
               end);
      on_hyp (hgsl_hyp_channel_pool_put o) ;;
      mret ret.

(** ** Mapping *)

(** From the node on: the result. *)
Definition map_node (cfg : hgsl_cfg) (here : bool) (o : option ptr) (size offset flags fd memtype : Z)
    (p : ptr) : DM (Z * bool) :=
  on_shm (set_node p (λ n,
    (set_size size n) <| mn_flags := flags |> <| mn_fd := fd |> <| mn_memtype := memtype |>)) ;;
  n ← on_shm (node p);
  '(ret, pt) ←
    (if here then
       if negb (mn_gpuaddr n =? 0) then mret (- EINVAL, false)
       else
         ret ← mmu_get_gpuaddr cfg true p;
         ret ← (if negb (ret =? 0) then mret ret
                else hgsl_mmu_map cfg true (Some p) false (cf_active_devicehandle cfg));
         mret (ret, true)
     else ret ← map_smmu o size offset p; mret (ret, false));
  if negb (ret =? 0) then mret (ret, pt)
  else
    ok ← copy_memdesc_to_user p;
    if negb ok then mret (- EFAULT, pt)
    else ret ← mem_add_node Mapped p; mret (ret, pt).

(** The size comes back aligned. *)
Definition hgsl_ioctl_mem_map_smmu (cfg : hgsl_cfg) (size offset flags fd memtype : Z) :
    DM (Z * Z) :=
  let dev_id := hgsl_hnd2id (cf_active_devicehandle cfg) in
  let use_fv := get_fv_status cfg dev_id in
  if is_request_rejected cfg then mret (- EINVAL, size)
  else if negb (offset =? 0) then mret (- EINVAL, size)
  else if (size =? 0) || (U32_MAX - PAGE_SIZE <? size) then mret (- EINVAL, size)
  else
    '(ret, o) ← on_hyp (hgsl_hyp_channel_pool_get 0);
    let here := mapped_here cfg use_fv flags in
    '(ret, size, p, pt) ←
      (if negb (ret =? 0) then mret (ret, size, None, false)
       else
         p ← on_shm (hgsl_mem_node_zalloc (cf_iocoherency cfg) (cf_writecombine cfg));
         match p with
         | None => mret (- ENOMEM, size, None, false)
         | Some p =>
             let size := PAGE_ALIGN size in
             '(ret, pt) ← map_node cfg here o size offset flags fd memtype p;
             mret (ret, size, Some p, pt)
         end);
    when (negb (ret =? 0))
      (unmap_failed cfg here pt false o p ;;
       match p with Some p => free_node p | None => mret tt end) ;;
    on_hyp (hgsl_hyp_channel_pool_put o) ;;
    mret (ret, size).

Definition hgsl_ioctl_mem_unmap_smmu (cfg : hgsl_cfg) (gpuaddr size : Z) : DM Z :=
  let dev_id := hgsl_hnd2id (cf_active_devicehandle cfg) in
  let use_fv := get_fv_status cfg dev_id in
  if is_request_rejected cfg then mret (- EINVAL)
  else
    '(ret, o) ← on_hyp (hgsl_hyp_channel_pool_get 0);
    ret ← (if negb (ret =? 0) then mret ret
           else
             node_found ← mem_find_node Mapped gpuaddr size true;
             match node_found with
             | None => mret (- EINVAL)
             | Some p =>
                 erase_node Mapped p ;;
                 n ← on_shm (node p);
                 let here := use_fv && negb (has_flag (mn_flags n) GSL_MEMFLAGS_PROTECTED) in
                 ret ← (if here
                        then hgsl_mmu_unmap cfg true (Some p) false (cf_active_devicehandle cfg)
                        else on_shm (hgsl_put_sgt p false) ;; unmap_smmu o (Some p));
                 if ret =? 0 then
                   when here (mmu_put_gpuaddr cfg true (Some p)) ;;
                   free_node p ;; mret 0
                 else mem_add_node Mapped p
             end);
    on_hyp (hgsl_hyp_channel_pool_put o) ;;
    mret ret.

(** ** Using memory *)

Definition hgsl_ioctl_mem_cache_operation (gpuaddr0 offsetbytes sizebytes operation : Z) : DM Z :=
  let gpuaddr := u64 (gpuaddr0 + offsetbytes) in
  if (gpuaddr <? gpuaddr0) || (u64 (gpuaddr + sizebytes) <=? gpuaddr) then mret (- EINVAL)
  else
    o ← mem_find_node Allocated gpuaddr sizebytes false;
    found ← match o with
            | Some p => mret (Some (p, true))
            | None =>
                o ← mem_find_node Mapped gpuaddr sizebytes false;
                mret ((λ p, (p, false)) <$> o)
            end;
    match found with
    | None => mret (- EINVAL)
    | Some (p, internal) =>
        n ← on_shm (node p);
        on_shm (hgsl_mem_cache_op p internal (u64 (gpuaddr - mn_gpuaddr n)) sizebytes operation)
    end.

(** The result and the descriptor. *)
Definition hgsl_ioctl_mem_get_fd (memdesc : Z * Z) (fd : Z) : DM (Z * Z) :=
  ok ← dev_ask env_copy;
  if negb ok then mret (- EFAULT, fd)
  else
    node_found ← mem_find_node Allocated (memdesc.1) (memdesc.2) true;
    b ← match node_found with
        | None => mret NULL
        | Some p => n ← on_shm (node p); mret (mn_dma_buf n)
        end;
    match b with
    | NULL => mret (- EINVAL, - 1)
    | ERR_PTR _ => fault
    | PTR b =>
        on_shm (get_dma_buf b) ;;
        fd ← dev_ask env_dma_buf_fd;
        if fd <? 0 then on_shm (dma_buf_put b) ;; mret (- EINVAL, fd)
        else modify (λ s, s <| md_files ::= <[fd := b]> |>) ;; mret (0, fd)
    end.

(** The first node with the private value of the user. *)
Definition find_priv64 (nodes : gmap ptr hgsl_mem_node) (priv : Z) (ps : list ptr) : option ptr :=
  snd <$> list_find (λ p, from_option mn_priv64 0 (nodes !! p) = priv) ps.

(** [metainfo] is what the user has there. *)
Definition hgsl_ioctl_set_metainfo (memdesc_priv flags metainfo_len : Z) (metainfo : list Z) :
    DM Z :=
  if HGSL_MEM_META_MAX_SIZE <? metainfo_len then mret (- EINVAL)
  else
    ok ← dev_ask env_copy;
    if negb ok then mret (- EFAULT)
    else
      let buf := take (Z.to_nat metainfo_len) metainfo ++
                 replicate (128 - Z.to_nat metainfo_len) 0 in
      let buf := <[127%nat := 0]> buf in
      mem_node ← gets (λ s,
        find_priv64 (sm_nodes (md_shm s)) memdesc_priv (inorder (md_allocated s)));
      match mem_node with
      | None => mret (- EINVAL)
      | Some p =>
          on_shm (set_node p (λ n, n <| mn_metainfo ::= λ m, strscpy m buf |>)) ;;
          '(ret, _) ← on_hyp (hgsl_hyp_set_metainfo memdesc_priv flags metainfo_len buf);
          mret ret
      end.

(** ** When the process goes *)

Definition cleanup_unmap (cfg : hgsl_cfg) (here internal : bool) (o : option ptr) (p : ptr) : DM Z :=
  ret ← (if here then hgsl_mmu_unmap cfg true (Some p) internal (cf_active_devicehandle cfg)
         else
           (if internal then mret tt else on_shm (hgsl_put_sgt p false)) ;;
           unmap_smmu o (Some p));
  when here (mmu_put_gpuaddr cfg true (Some p)) ;;
  mret ret.

(** The loop over a tree; the last result is kept. *)
Fixpoint cleanup_loop (cfg : hgsl_cfg) (here internal : bool) (o : option ptr)
    (t : mem_tree) (ps : list ptr) (ret : Z) : DM Z :=
  match ps with
  | [] => mret ret
  | p :: ps =>
      ret ← cleanup_unmap cfg here internal o p;
      erase_node t p ;;
      (if internal then on_shm (hgsl_sharedmem_free (Some p)) else free_node p) ;;
      cleanup_loop cfg here internal o t ps ret
  end.

Definition hgsl_cleanup (cfg : hgsl_cfg) : DM Z :=
  let dev_id := hgsl_hnd2id (cf_active_devicehandle cfg) in
  let use_fv := get_fv_status cfg dev_id in
  let here := use_fv && is_iommu (hgsl_mmu_get_mmutype cfg) in
  mapped ← gets md_mapped;
  allocated ← gets md_allocated;
  match inorder mapped ++ inorder allocated with
  | [] => mret 0
  | _ =>
      '(ret, o) ← on_hyp (hgsl_hyp_channel_pool_get 0);
      ret ← (if negb (ret =? 0) then mret ret
             else
               '(ret, _) ← on_hyp (hgsl_hyp_notify_cleanup o HGSL_CLEANUP_WAIT_SLICE_IN_MS);
               if ret =? - ETIMEDOUT then mret ret
               else
                 ret ← cleanup_loop cfg here false o Mapped (inorder mapped) ret;
                 cleanup_loop cfg here true o Allocated (inorder allocated) ret);
      on_hyp (hgsl_hyp_channel_pool_put o) ;;
      mret ret
  end.
End ioctls.

(** * Specification *)

(** Between the ioctls: the memory and the channels are in order, no descriptor is
    reserved, and each tree is ordered by the addresses of nodes that are there. *)
Record dev_ok (s : mem_dev) : Prop := {
  do_shm : shm_ok (md_shm s);
  do_hyp : settled (md_hyp s);
  do_reserved : md_reserved s = ∅;
  do_nodes : ∀ t p, p ∈ inorder (get_tree t s) → is_Some (sm_nodes (md_shm s) !! p);
  do_bst : ∀ t, bst (@node_gpuaddr _ (in_store (sm_nodes (md_shm s)))) (get_tree t s) }.

(** The memory is what it was, except that the hypervisor may have kept pages that it was
    asked to give back. *)
Record same_memory `{SharedMem} (s s' : shm) : Prop := {
  sy_nodes : sm_nodes s' = sm_nodes s;
  sy_blocks : sm_blocks s' = sm_blocks s;
  sy_bufs : sm_bufs s' = sm_bufs s;
  sy_sgts : sm_sgts s' = sm_sgts s;
  sy_reclaimable : sm_reclaimable s' = sm_reclaimable s;
  sy_attached : sm_attached s' = sm_attached s;
  sy_vmaps : sm_vmaps s' = sm_vmaps s;
  sy_protected : sm_protected s' = sm_protected s ∨ refused }.

(** Nothing of the process has changed but its memory and its channels. *)
Record same_process (s s' : mem_dev) : Prop := {
  sp_allocated : md_allocated s' = md_allocated s;
  sp_mapped : md_mapped s' = md_mapped s;
  sp_pagetable : md_pagetable s' = md_pagetable s;
  sp_entries : md_entries s' = md_entries s;
  sp_reserved : md_reserved s' = md_reserved s;
  sp_files : md_files s' = md_files s }.

(** The channels are in order, and those in use are the same. *)
Definition same_channels (s s' : mem_dev) : Prop :=
  settled (md_hyp s') ∧ hy_busy (md_hyp s') = hy_busy (md_hyp s).

(** A free asks the backend to unmap the node [n], on a channel of the pool, and this is the
    answer. *)
Definition unmap_answer `{Hab} `{MemEnv} (s : mem_dev) (n : hgsl_mem_node) (e : Z) : Prop :=
  env_copy (md_clock s) = true ∧ ∃ c hy hy',
    hgsl_hyp_channel_pool_get 0 (md_hyp s) = Some ((0, Some c), hy) ∧
    hgsl_hyp_mem_unmap_smmu (Some c) (Some n) hy = Some ((e, tt), hy').

(** Why a free of the node [n] takes nothing away, and the result that the user sees: the
    description cannot be read, there is no channel, or the backend refuses to unmap the
    node, for which the result is 0 all the same. *)
Definition free_stopped `{Hab} `{MemEnv} (s : mem_dev) (n : hgsl_mem_node) (ret : Z) : Prop :=
  env_copy (md_clock s) = false ∧ ret = - EFAULT ∨
  env_copy (md_clock s) = true ∧ ret ≠ 0 ∧
    (∃ hy, hgsl_hyp_channel_pool_get 0 (md_hyp s) = Some ((ret, None), hy)) ∨
  ret = 0 ∧ ∃ e, e ≠ 0 ∧ unmap_answer s n e.

(** * Lemmas *)

Section run.
Context `{Rbtree} `{SharedMem} `{Hab} `{MemEnv}.

Lemma on_shm_run {A} (m : M shm A) s a sh :
  m (md_shm s) = Some (a, sh) → on_shm m s = Some (a, s <| md_shm := sh |>).
Proof. intros E. unfold on_shm. by rewrite E. Qed.

Lemma on_hyp_run {A} (m : M hgsl_hyp_priv_t A) s a hy :
  m (md_hyp s) = Some (a, hy) → on_hyp m s = Some (a, s <| md_hyp := hy |>).
Proof. intros E. unfold on_hyp. by rewrite E. Qed.

Lemma on_node_run s p n :
  sm_nodes (md_shm s) !! p = Some n → on_shm (node p) s = Some (n, s).
Proof. intros Hn. rewrite (on_shm_run _ _ _ _ (node_run _ _ _ Hn)). by destruct s. Qed.

Lemma same_process_refl s : same_process s s.
Proof. by split. Qed.

Lemma same_process_trans s1 s2 s3 : same_process s1 s2 → same_process s2 s3 → same_process s1 s3.
Proof. intros [] []. split; congruence. Qed.

(** ** Nodes that are described anew *)

Lemma holding_described s0 s p n n' cs :
  holding s0 s p n cs → described n n' →
  holding s0 (s <| sm_nodes ::= <[p := n']> |>) p n' cs.
Proof.
  intros Hh (? & ? & ? & ? & ? & ? & ? & ->). pose proof (ho_nodes _ _ _ _ _ Hh) as En.
  destruct Hh. split; try done. cbn. rewrite En. apply insert_insert_eq.
Qed.

Lemma locked_described s0 s p n n' cs :
  locked s0 s n cs → described n n' → locked s0 (s <| sm_nodes ::= <[p := n']> |>) n' cs.
Proof. by intros ? (? & ? & ? & ? & ? & ? & ? & ->). Qed.

Lemma exported_described s0 s p n n' :
  exported s0 s p n → described n n' → exported s0 (s <| sm_nodes ::= <[p := n']> |>) p n'.
Proof. by intros ? (? & ? & ? & ? & ? & ? & ? & ->). Qed.

(** ** Calls *)

Lemma map_smmu_run s hy0 c size offset p n :
  held hy0 c (md_hyp s) → sm_nodes (md_shm s) !! p = Some n →
  ∃ ret n' hy, map_smmu (Some c) size offset p s =
      Some (ret, s <| md_hyp := hy |> <| md_shm ::= λ sh, sh <| sm_nodes ::= <[p := n']> |> |>) ∧
    held hy0 c hy ∧ described n n'.
Proof.
  intros Hh Hn. unfold map_smmu. rewrite (bind_run _ _ _ _ _ (on_node_run _ _ _ Hn)).
  destruct (held_call _ _ _ _ _ (mem_map_body c size offset n) Hh) as ([ret n'] & hy & E & Hh').
  rewrite (bind_run _ _ _ _ _ (on_hyp_run _ _ _ _ E)). exists ret, n', hy. split_and!; [|done|].
  - set (s1 := s <| md_hyp := hy |>).
    by rewrite (bind_run _ _ _ _ _ (on_shm_run _ s1 _ _ (set_node_run p (λ _, n') (md_shm s) n Hn))).
  - exact (mem_map_describes _ _ _ _ _ _ _ E).
Qed.

Lemma unmap_smmu_run s hy0 c p n :
  held hy0 c (md_hyp s) → sm_nodes (md_shm s) !! p = Some n →
  ∃ ret hy, unmap_smmu (Some c) (Some p) s = Some (ret, s <| md_hyp := hy |>) ∧ held hy0 c hy ∧
    hgsl_hyp_mem_unmap_smmu (Some c) (Some n) (md_hyp s) = Some ((ret, tt), hy).
Proof.
  intros Hh Hn. unfold unmap_smmu.
  rewrite (bind_run _ _ s (Some n) s) by by rewrite (bind_run _ _ _ _ _ (on_node_run _ _ _ Hn)).
  destruct (held_call _ _ _ _ _ (mem_unmap_body c (Some n)) Hh) as ([ret []] & hy & E & Hh').
  exists ret, hy. by rewrite (bind_run _ _ _ _ _ (on_hyp_run _ _ _ _ E)).
Qed.

Lemma dev_ask_run {A} (q : nat → A) s :
  dev_ask q s = Some (q (md_clock s), s <| md_clock ::= S |>).
Proof. done. Qed.

(** ** The trees *)

Lemma bst_ext {A} (k1 k2 : A → Z) t :
  (∀ x, x ∈ inorder t → k1 x = k2 x) → bst k1 t → bst k2 t.
Proof.
  unfold bst, key_lt. intros Hk Hs. revert Hk Hs. generalize (inorder t) as l.
  induction l as [|x l IH]; intros Hk Hs; [constructor|].
  apply StronglySorted_inv in Hs as [Hs Hx]. constructor; [apply IH; [set_solver|done]|].
  rewrite Forall_forall in Hx |- *. intros y Hy. rewrite <- !Hk by set_solver. by apply Hx.
Qed.

Lemma mem_add_run t p s :
  bst (@node_gpuaddr _ (in_store (sm_nodes (md_shm s)))) (get_tree t s) →
  ∃ ret r, mem_add_node t p s = Some (ret, set_tree t r s) ∧
    bst (@node_gpuaddr _ (in_store (sm_nodes (md_shm s)))) r ∧
    (ret = - EEXIST ∧ r = get_tree t s ∨
     ret = 0 ∧ ∃ l1 l2, inorder (get_tree t s) = l1 ++ l2 ∧ inorder r = l1 ++ p :: l2).
Proof.
  intros Hb. unfold mem_add_node. rewrite (bind_run _ _ s s s) by done. unfold hgsl_mem_add_node.
  destruct (rb_link _ p (get_tree t s)) as [r|] eqn:E.
  - destruct (rb_link_Some _ _ _ _ Hb E) as (Hb' & l1 & l2 & E1 & E2).
    exists 0, (rb_insert_color r). split; [done|]. unfold bst. rewrite rb_insert_color_inorder.
    split; [done|right]. split; [done|]. by exists l1, l2.
  - exists (- EEXIST), (get_tree t s). split; [done|]. split; [done|by left].
Qed.

Lemma set_tree_id t s : set_tree t (get_tree t s) s = s.
Proof. by destruct t, s. Qed.

Lemma erase_run t p l1 l2 s :
  inorder (get_tree t s) = l1 ++ p :: l2 → p ∉ l1 →
  ∃ r, erase_node t p s = Some (tt, set_tree t r s) ∧ inorder r = l1 ++ l2.
Proof.
  intros E Hp. exists (rb_erase (length l1) (get_tree t s)). split.
  - unfold erase_node, modify. rewrite E.
    assert (list_find (p =.) (l1 ++ p :: l2) = Some (length l1, p)) as ->; [|done].
    apply list_find_Some. rewrite list_lookup_middle by done. split_and!; [done|done|].
    intros j y Hj Hl <-. apply Hp. rewrite lookup_app_l in Hj by done. by eapply list_elem_of_lookup_2.
  - rewrite rb_erase_inorder, E, take_app_length. f_equal.
    change (S (length l1)) with (1 + length l1)%nat. rewrite Nat.add_comm.
    by rewrite <- drop_drop, drop_app_length.
Qed.

(** ** References on a buffer *)

Lemma get_buf_run b buf sh :
  sm_bufs sh !! b = Some buf →
  get_dma_buf b sh = Some (tt, sh <| sm_bufs ::= <[b := buf <| db_refs ::= Z.succ |>]> |>).
Proof. intros E. unfold get_dma_buf, gets, mbind, M_bind. by rewrite E. Qed.

Lemma put_buf_run b priv sh :
  sm_bufs sh !! b = Some {| db_refs := 1; db_priv := priv |} →
  dma_buf_put b (sh <| sm_bufs ::= <[b := {| db_refs := 2; db_priv := priv |}]> |>) = Some (tt, sh).
Proof.
  intros E. unfold dma_buf_put. set (sh' := sh <| sm_bufs ::= _ |>).
  rewrite (bind_run _ _ sh' (Some {| db_refs := 2; db_priv := priv |}) sh')
    by (unfold gets, sh'; cbn; by rewrite lookup_insert_eq).
  rewrite (bind_run _ _ sh' {| db_refs := 2; db_priv := priv |} sh') by done.
  unfold modify, sh'. cbn. rewrite insert_insert_eq. rewrite insert_id by done. by destruct sh.
Qed.

Lemma copy_memdesc_run s p n :
  sm_nodes (md_shm s) !! p = Some n →
  ∃ ok s', copy_memdesc_to_user p s = Some (ok, s') ∧ same_process s s' ∧
    md_shm s' = md_shm s ∧ md_hyp s' = md_hyp s ∧
    md_to_user s' = if ok : bool then md_to_user s ++ [memdesc_bytes n] else md_to_user s.
Proof.
  intros Hn. unfold copy_memdesc_to_user. rewrite (bind_run _ _ _ _ _ (dev_ask_run env_copy s)).
  set (s1 := s <| md_clock ::= S |>). exists (env_copy (md_clock s)).
  destruct (env_copy (md_clock s)).
  - set (s2 := s1 <| md_to_user ::= λ l, l ++ [memdesc_bytes n] |>).
    exists s2. rewrite (bind_run _ _ s1 tt s2); [done|].
    by rewrite (bind_run _ _ _ _ _ (on_node_run s1 _ _ Hn)).
  - exists s1. by rewrite (bind_run _ _ s1 tt s1).
Qed.

(** ** The allocation *)

(** What allocating has added to the process when it has succeeded: the node, which its
    tree has, one more reference on the buffer, which the file of the descriptor has. *)
Record allocated_node (s s' : mem_dev) (sh : shm) (p : ptr) (n : hgsl_mem_node) (b : ptr)
    (sizebytes flags fd : Z) : Prop := {
  an_buf : mn_dma_buf n = PTR b;
  an_flags : mn_flags n = flags;
  an_pages : ∃ pages, mn_pages n = Some pages ∧
    Z.of_nat (length pages) = PAGE_ALIGN sizebytes / PAGE_SIZE;
  an_shm : md_shm s' = sh <| sm_bufs ::= <[b := {| db_refs := 2; db_priv := Some p |}]> |>;
  an_bst : bst (@node_gpuaddr _ (in_store (sm_nodes (md_shm s')))) (md_allocated s');
  an_tree : ∃ l1 l2, inorder (md_allocated s) = l1 ++ l2 ∧ inorder (md_allocated s') = l1 ++ p :: l2;
  an_mapped : md_mapped s' = md_mapped s;
  an_pagetable : md_pagetable s' = md_pagetable s;
  an_entries : md_entries s' = md_entries s;
  an_files : md_files s' = <[fd := b]> (md_files s);
  an_reserved : md_reserved s' = md_reserved s ∖ {[fd]};
  an_user : md_to_user s' = md_to_user s ++ [memdesc_bytes n] }.

Lemma alloc_node_run cfg s hy0 c sizebytes flags fd mem_fd p n0 :
  held hy0 c (md_hyp s) → shm_ok (md_shm s) → sm_nodes (md_shm s) !! p = Some n0 →
  untouched n0 → is_u32 sizebytes → p ∉ inorder (md_allocated s) →
  bst (@node_gpuaddr _ (in_store (sm_nodes (md_shm s)))) (md_allocated s) →
  ∃ ret fd' s' n cs sh,
    alloc_node cfg false (Some c) sizebytes flags fd mem_fd p s = Some ((ret, fd', false), s') ∧
    held hy0 c (md_hyp s') ∧
    let sA := (md_shm s) <| sm_nodes ::= <[p := n0 <| mn_flags := flags |>]> |> in
    holding sA sh p n cs ∧ locked sA sh n cs ∧ exported sA sh p n ∧
    (ret ≠ 0 ∧ fd' = fd ∧ md_shm s' = sh ∧ same_process s s' ∨
     ret = 0 ∧ fd' = mem_fd ∧ ∃ b, allocated_node s s' sh p n b sizebytes flags mem_fd).
Proof.
  intros Hh Hok Hn Hu Hsz Hp Hb. unfold alloc_node.
  set (nA := n0 <| mn_flags := flags |>). set (sA := (md_shm s) <| sm_nodes ::= <[p := nA]> |>).
  set (s1 := s <| md_shm := sA |>).
  rewrite (bind_run _ _ s tt s1) by exact (on_shm_run _ s _ _ (set_node_run p _ _ _ Hn)).
  assert (sm_nodes sA !! p = Some nA) as HnA by apply lookup_insert_eq.
  destruct (sharedmem_alloc_run sA p nA sizebytes flags) as
    (ret & sh & n & cs & E & Hho & Hlo & Hex & Hret); try done.
  { destruct Hok. split; try done. cbn. intros q. rewrite lookup_insert_is_Some.
    intros [->|[_ ?]]; eauto. }
  { destruct Hu. by split. }
  set (s2 := s1 <| md_shm := sh |>).
  rewrite (bind_run _ _ s1 ret s2) by exact (on_shm_run _ s1 _ _ E).
  destruct (Z.eqb_spec ret 0) as [->|Hr]; cbn [negb].
  2: { exists ret, fd, s2, n, cs, sh. split_and!; try done. left. by split_and!. }
  destruct (Hret eq_refl) as (Hdb & Hfl & Hpg & Hlen & _).
  assert (sm_nodes sh !! p = Some n) as Hn2 by exact (holding_node _ _ _ _ _ Hho).
  rewrite (bind_run _ _ _ _ _ (on_node_run s2 _ _ Hn2)).
  destruct (map_smmu_run s2 hy0 c (u32 (mn_size64 n)) 0 p n Hh Hn2) as (ret & n' & hy & E3 & Hh3 & Hd).
  rewrite (bind_run _ _ _ _ _ E3).
  set (sh' := sh <| sm_nodes ::= <[p := n']> |>) in *.
  set (s3 := s2 <| md_hyp := hy |> <| md_shm ::= λ sh, sh <| sm_nodes ::= <[p := n']> |> |>).
  assert (holding sA sh' p n' cs) as Hho' by by eapply holding_described.
  assert (locked sA sh' n' cs) as Hlo' by by eapply locked_described.
  assert (exported sA sh' p n') as Hex' by by eapply exported_described.
  destruct (Z.eqb_spec ret 0) as [->|Hr3]; cbn [negb].
  2: { exists ret, fd, s3, n', cs, sh'. split_and!; try done. left. by split_and!. }
  assert (sm_nodes sh' !! p = Some n') as Hn3 by apply lookup_insert_eq.
  destruct (copy_memdesc_run s3 p n' Hn3) as (ok & s4 & E4 & Hp4 & Hs4 & Hh4 & Hu4).
  rewrite (bind_run _ _ _ _ _ E4). destruct ok; cbn [negb].
  2: { exists (- EFAULT), fd, s4, n', cs, sh'. rewrite Hs4, Hh4. split_and!; try done. left.
       split_and!; try done. by eapply same_process_trans; [|exact Hp4]. }
  unfold exported in Hex'. assert (mn_dma_buf n' = mn_dma_buf n) as Edb
    by by destruct Hd as (? & ? & ? & ? & ? & ? & ? & ->).
  destruct (mn_dma_buf n) as [| |b] eqn:Eb; rewrite Edb in Hex'; [done|done|]. destruct Hex' as [Ebuf Ebuf0].
  assert (sm_bufs sh' !! b = Some {| db_refs := 1; db_priv := Some p |}) as Hb1
    by by rewrite Ebuf, lookup_insert_eq.
  set (shb := sh' <| sm_bufs ::= <[b := {| db_refs := 2; db_priv := Some p |}]> |>).
  set (s5 := s4 <| md_shm := shb |>).
  rewrite (bind_run _ _ s4 tt s5).
  2: { apply (on_shm_run _ s4). rewrite Hs4. exact (get_buf_run b _ sh' Hb1). }
  assert (∀ q, q ∈ inorder (md_allocated s5) → @node_gpuaddr _ (in_store (sm_nodes (md_shm s))) q =
    @node_gpuaddr _ (in_store (sm_nodes (md_shm s5))) q) as Hkeys.
  { intros q Hq. cbn. rewrite (ho_nodes _ _ _ _ _ Hho). cbn.
    assert (q ≠ p) as Hqp.
    { intros ->. apply Hp. cbn in Hq. by rewrite (sp_allocated _ _ Hp4) in Hq. }
    by rewrite !lookup_insert_ne by done. }
  destruct (mem_add_run Allocated p s5) as (ret & r & E5 & Hbst & Hcase).
  { eapply bst_ext; [exact Hkeys|]. cbn. by rewrite (sp_allocated _ _ Hp4). }
  rewrite (bind_run _ _ _ _ _ E5).
  assert (Hex1 : exported sA sh' p n') by (unfold exported; by rewrite Edb).
  destruct Hcase as [[-> ->]|[-> (l1 & l2 & El1 & El2)]].
  - change (negb (- EEXIST =? 0)) with true. cbv iota. rewrite set_tree_id.
    set (s6 := s5 <| md_shm := sh' |>).
    rewrite (bind_run _ _ s5 tt s6) by (apply (on_shm_run _ s5); exact (put_buf_run b (Some p) sh' Hb1)).
    exists (- EEXIST), fd, s6, n', cs, sh'. cbn. rewrite Hh4. split_and!; try done. left.
    split_and!; try done. destruct Hp4. by split.
  - change (negb (0 =? 0)) with false. cbv iota. set (s6 := set_tree Allocated r s5).
    set (s7 := s6 <| md_reserved ::= λ f, f ∖ {[mem_fd]} |> <| md_files ::= <[mem_fd := b]> |>).
    rewrite (bind_run _ _ s6 tt s7) by done.
    exists 0, mem_fd, s7, n', cs, sh'. change (md_hyp s7) with (md_hyp s4). rewrite Hh4. split_and!; try done. right.
    split_and!; try done. exists b. destruct Hp4 as [Ea Em Ep Een Er Ef].
    destruct Hd as (? & ? & ? & ? & ? & ? & ? & ->). split; try done.
    + eexists. split; [exact Hpg|done].
    + exists l1, l2. split; [|done]. rewrite <- El1. cbn. by rewrite Ea.
    + cbn. by rewrite Ef.
    + cbn. by rewrite Er.
Qed.

(** [sh] with a node at [p] that was not there. *)
Record added_node (sh sA : shm) (p : ptr) (n : hgsl_mem_node) : Prop := {
  ad_new : sm_nodes sh !! p = None;
  ad_nodes : sm_nodes sA = <[p := n]> (sm_nodes sh);
  ad_blocks : sm_blocks sA = sm_blocks sh;
  ad_bufs : sm_bufs sA = sm_bufs sh;
  ad_sgts : sm_sgts sA = sm_sgts sh;
  ad_reclaimable : sm_reclaimable sA = sm_reclaimable sh;
  ad_attached : sm_attached sA = sm_attached sh;
  ad_vmaps : sm_vmaps sA = sm_vmaps sh;
  ad_protected : sm_protected sA = sm_protected sh }.

Lemma added_update sh sA p n n' :
  added_node sh sA p n → added_node sh (sA <| sm_nodes ::= <[p := n']> |>) p n'.
Proof. intros [? En]. split; try done. cbn. rewrite En. apply insert_insert_eq. Qed.

Lemma zalloc_run sh io wc :
  shm_ok sh →
  ∃ o sh', hgsl_mem_node_zalloc io wc sh = Some (o, sh') ∧
    match o with
    | None => same_memory sh sh'
    | Some p => shm_ok sh' ∧ added_node sh sh' p (zeroed_node io wc)
    end.
Proof.
  intros Hok. unfold hgsl_mem_node_zalloc.
  set (sh1 := sh <| sm_clock ::= S |>).
  rewrite (bind_run _ _ sh (shm_malloc (sm_clock sh)) sh1) by done.
  destruct (shm_malloc (sm_clock sh)); cbn [negb].
  2: { exists None, sh1. split; [done|]. split; try done. by left. }
  assert (sm_nodes sh !! sm_next sh = None) as Hnew.
  { destruct (sm_nodes sh !! sm_next sh) eqn:E; [|done].
    pose proof (so_nodes _ Hok _ (mk_is_Some _ _ E)). lia. }
  eexists (Some (sm_next sh)), _. split; [reflexivity|]. split; [|by split].
  destruct Hok as [Hn Hb Hbu Hs Hp]. split; cbn; intros q Hq.
  - apply lookup_insert_is_Some in Hq as [<-|[_ Hq]]; [lia|]. specialize (Hn q Hq). lia.
  - specialize (Hb q Hq). lia.
  - specialize (Hbu q Hq). lia.
  - specialize (Hs q Hq). lia.
  - specialize (Hp q Hq). lia.
Qed.

(** A node that is gone has left nothing behind. *)
Lemma restored_same sh sA s2 p n :
  added_node sh sA p n → restored sA s2 p → sm_protected s2 = sm_protected sA ∨ refused →
  same_memory sh s2.
Proof.
  intros [Hnew En ? ? ? ? ? ? ?] [Rn ? ? ? ? ? ?] Hp. split; try congruence.
  rewrite Rn, En. by apply delete_insert_id.
Qed.

(** The channels are given back at the end. *)
Lemma give_back_run s hy0 o hy :
  (o = None ∧ settled hy ∧ hy_busy hy = hy_busy hy0 ∨ ∃ c, o = Some c ∧ held hy0 c hy) →
  ∃ hy', on_hyp (hgsl_hyp_channel_pool_put o) (s <| md_hyp := hy |>) =
      Some (tt, s <| md_hyp := hy' |>) ∧ settled hy' ∧ hy_busy hy' = hy_busy hy0.
Proof.
  intros [(-> & Hs & Hb)|(c & -> & Hh)].
  - exists hy. split; [reflexivity|done].
  - destruct (held_put _ _ _ Hh) as (hy' & E & Hs & Hb). exists hy'. split; [|done].
    exact (on_hyp_run _ (s <| md_hyp := hy |>) _ _ E).
Qed.

Lemma zeroed_untouched io wc : untouched (zeroed_node io wc).
Proof. by split. Qed.

(** The descriptor is reserved. *)
Lemma unused_fd_run s :
  ∃ fd, get_unused_fd s = Some (fd, s <| md_clock ::= S |>
    <| md_reserved := if fd <? 0 then md_reserved s else {[fd]} ∪ md_reserved s |>).
Proof.
  exists (env_unused_fd (md_clock s)). unfold get_unused_fd.
  rewrite (bind_run _ _ _ _ _ (dev_ask_run env_unused_fd s)).
  by destruct (env_unused_fd (md_clock s) <? 0).
Qed.

Lemma mem_alloc_run cfg s sizebytes flags fd :
  dev_ok s → is_u32 sizebytes →
  mapped_here cfg (get_fv_status cfg (hgsl_hnd2id (cf_active_devicehandle cfg))) flags = false →
  ∃ ret fd' s', hgsl_ioctl_mem_alloc cfg sizebytes flags fd s = Some ((ret, fd'), s') ∧
    same_channels s s' ∧
    (ret ≠ 0 ∧ fd' = fd ∧ same_process s s' ∧ same_memory (md_shm s) (md_shm s') ∨
     ret = 0 ∧ 0 ≤ fd' ∧ ∃ p n n0 b cs sh sA, added_node (md_shm s) sA p n0 ∧
       holding sA sh p n cs ∧ locked sA sh n cs ∧ exported sA sh p n ∧
       md_files s' = <[fd' := b]> (md_files s) ∧ md_reserved s' = md_reserved s ∧
       ∃ s1, md_allocated s1 = md_allocated s ∧ md_mapped s1 = md_mapped s ∧
         md_pagetable s1 = md_pagetable s ∧ md_entries s1 = md_entries s ∧
         md_to_user s1 = md_to_user s ∧
         allocated_node s1 s' sh p n b sizebytes flags fd').
Proof.
  intros [Hok Hset Hres Hnodes Hbst] Hsz Hhere. unfold hgsl_ioctl_mem_alloc. rewrite Hhere.
  assert (same_process s s ∧ same_memory (md_shm s) (md_shm s) ∧ same_channels s s) as (? & ? & ?).
  { split_and!; try done. split; try done. by left. }
  destruct (is_request_rejected cfg); [by exists (- EINVAL), fd, s; split_and!; auto|].
  destruct (sizebytes =? 0); [by exists (- EINVAL), fd, s; split_and!; auto|].
  destruct (unused_fd_run s) as (mem_fd & E1). rewrite (bind_run _ _ _ _ _ E1). clear E1.
  destruct (Z.ltb_spec mem_fd 0) as [Hfd|Hfd].
  { eexists (- EMFILE), fd, _. split; [reflexivity|]. split; [done|]. left. split_and!; try done. }
  set (s1 := s <| md_clock ::= S |> <| md_reserved := {[mem_fd]} ∪ md_reserved s |>).
  assert (md_reserved s1 ∖ {[mem_fd]} = md_reserved s) as Efd.
  { cbn. rewrite Hres. set_solver. }
  destruct (held_get (md_hyp s) Hset) as (ret & o & hy1 & E2 & Hcase).
  rewrite (bind_run _ _ _ _ _ (on_hyp_run _ s1 _ _ E2)). cbv beta iota.
  set (s2 := s1 <| md_hyp := hy1 |>).
  destruct Hcase as [(Hr & -> & Hset1 & Hb1)|(-> & c & -> & Hh)].
  { rewrite (proj2 (Z.eqb_neq _ _) Hr). cbn [negb].
    rewrite (bind_run _ _ s2 (ret, fd, None, false) s2) by done. cbv beta iota.
    rewrite (proj2 (Z.eqb_neq _ _) Hr). cbn [negb when].
    set (s3 := s2 <| md_reserved ::= λ f, f ∖ {[mem_fd]} |>).
    rewrite (bind_run _ _ s2 tt s3) by done. rewrite (bind_run _ _ s3 tt s3) by done.
    exists ret, fd, s3. split_and!; try done. left. split_and!; try done. }
  change (negb (0 =? 0)) with false. cbv iota.
  destruct (zalloc_run (md_shm s) (cf_iocoherency cfg) (cf_writecombine cfg) Hok) as (q & sh1 & E3 & Hq).
  set (s3 := s2 <| md_shm := sh1 |>).
  pose proof (on_shm_run _ s2 _ _ E3) as E3'.
  destruct q as [p|].
  2: { rewrite (bind_run _ _ s2 (- ENOMEM, fd, None, false) s3) by by rewrite (bind_run _ _ _ _ _ E3').
    cbv beta iota. change (negb (- ENOMEM =? 0)) with true. cbn [when].
    set (s4 := s3 <| md_reserved ::= λ f, f ∖ {[mem_fd]} |>).
    rewrite (bind_run _ _ s3 tt s4) by done.
    destruct (give_back_run s4 (md_hyp s) (Some c) hy1) as (hy' & E4 & Hs4 & Hb4); [eauto|].
    assert (s4 <| md_hyp := hy1 |> = s4) as Es4 by done. rewrite Es4 in E4.
    rewrite (bind_run _ _ _ _ _ E4). eexists (- ENOMEM), fd, _. split; [reflexivity|].
    split; [done|]. left. split_and!; try done. }
  destruct Hq as [Hok1 Had].
  assert (p ∉ inorder (md_allocated s)) as Hpn.
  { intros Hin. destruct (Hnodes Allocated p Hin) as [? E]. by rewrite (ad_new _ _ _ _ Had) in E. }
  assert (sm_nodes sh1 !! p = Some (zeroed_node (cf_iocoherency cfg) (cf_writecombine cfg))) as Hn1
    by (rewrite (ad_nodes _ _ _ _ Had); apply lookup_insert_eq).
  destruct (alloc_node_run cfg s3 (md_hyp s) c sizebytes flags fd mem_fd p _ Hh Hok1 Hn1
    (zeroed_untouched _ _) Hsz Hpn) as (ret & fd' & s4 & n & cs & sh & E4 & Hh4 & Hho & Hlo & Hex & Hc).
  { eapply bst_ext; [|exact (Hbst Allocated)]. intros q Hq. cbn. rewrite (ad_nodes _ _ _ _ Had).
    by rewrite lookup_insert_ne by (by intros ->). }
  change (md_shm s3) with sh1 in Hho, Hlo, Hex.
  set (sA := sh1 <| sm_nodes ::= _ |>) in *.
  pose proof (added_update _ _ _ _ ((zeroed_node (cf_iocoherency cfg) (cf_writecombine cfg))
    <| mn_flags := flags |>) Had) as HadA. fold sA in HadA.
  rewrite (bind_run _ _ s2 (ret, fd', Some p, false) s4).
  2: { rewrite (bind_run _ _ _ _ _ E3'). by rewrite (bind_run _ _ _ _ _ E4). }
  cbv beta iota.
  destruct Hc as [(Hr & -> & Esh & Hp4)|(-> & -> & b & Han)].
  - rewrite (proj2 (Z.eqb_neq _ _) Hr). cbn [negb when]. unfold unmap_failed.
    assert (sm_nodes (md_shm s4) !! p = Some n) as Hn4 by (rewrite Esh; exact (holding_node _ _ _ _ _ Hho)).
    destruct (unmap_smmu_run s4 _ c p n Hh4 Hn4) as (r5 & hy5 & E5 & Hh5 & _).
    set (s5 := s4 <| md_hyp := hy5 |>) in *.
    destruct (sharedmem_free_run sA sh p n cs Hho Hlo Hex) as (sh6 & E6 & Hre & Hpr).
    set (s6 := s5 <| md_shm := sh6 |>).
    set (s7 := s6 <| md_reserved ::= λ f, f ∖ {[mem_fd]} |>).
    rewrite (bind_run _ _ s4 tt s7).
    2: { rewrite (bind_run _ _ s4 tt s6); [done|].
      rewrite (bind_run _ _ s4 tt s5) by by rewrite (bind_run _ _ _ _ _ E5).
      apply (on_shm_run _ s5). change (md_shm s5) with (md_shm s4). by rewrite Esh. }
    destruct (give_back_run s7 (md_hyp s) (Some c) hy5) as (hy' & E8 & Hs8 & Hb8); [eauto|].
    change (s7 <| md_hyp := hy5 |>) with s7 in E8. rewrite (bind_run _ _ _ _ _ E8).
    eexists ret, fd, _. split; [reflexivity|]. split; [done|]. left. split_and!; try done.
    + destruct Hp4 as [? ? ? ? Er ?]. split; try done. cbn. by rewrite Er.
    + by eapply restored_same.
  - change (negb (0 =? 0)) with false. cbn [when].
    rewrite (bind_run _ _ s4 tt s4) by done.
    destruct (give_back_run s4 (md_hyp s) (Some c) (md_hyp s4)) as (hy' & E8 & Hs8 & Hb8); [eauto|].
    assert (s4 <| md_hyp := md_hyp s4 |> = s4) as Es4 by by destruct s4. rewrite Es4 in E8.
    rewrite (bind_run _ _ _ _ _ E8).
    eexists 0, mem_fd, _. split; [reflexivity|]. split; [done|]. right. split_and!; try done.
    eexists p, n, _, b, cs, sh, sA.
    split_and!; try done.
    + cbn. by rewrite (an_files _ _ _ _ _ _ _ _ _ Han).
    + cbn. by rewrite (an_reserved _ _ _ _ _ _ _ _ _ Han).
    + exists s3. destruct Han. by split_and!.
Qed.

(** A request that is answered with 0 was not rejected. *)
Lemma alloc_accepted cfg s sizebytes flags fd fd' s' :
  hgsl_ioctl_mem_alloc cfg sizebytes flags fd s = Some ((0, fd'), s') →
  is_request_rejected cfg = false.
Proof.
  unfold hgsl_ioctl_mem_alloc. destruct (is_request_rejected cfg); [|done]. by intros [=].
Qed.

(** ** Freeing *)

Lemma mmu_put_none_run cfg p n s :
  sm_nodes (md_shm s) !! p = Some n → mmu_put_gpuaddr cfg false (Some p) s = Some (tt, s).
Proof.
  intros Hn. unfold mmu_put_gpuaddr.
  rewrite (bind_run _ _ s (md_pagetable s) s) by done.
  rewrite (bind_run _ _ s (Some n) s) by by rewrite (bind_run _ _ _ _ _ (on_node_run _ _ _ Hn)).
  destruct (hgsl_mmu_put_gpuaddr None (Some n) (cf_use_single_pt cfg)). by destruct s.
Qed.

(** Addresses are distinct in an ordered tree, so a node is there once. *)
Lemma bst_distinct {A} (key : A → Z) (t : tree A) l1 x l2 :
  bst key t → inorder t = l1 ++ x :: l2 →
  ∀ y, y ∈ l1 ++ l2 → key y ≠ key x.
Proof.
  unfold bst. intros Hs E y Hy. rewrite E in Hs.
  apply StronglySorted_mid in Hs as (_ & _ & Hl & Hr & _). rewrite Forall_forall in Hl, Hr.
  unfold key_lt in *. apply elem_of_app in Hy as [Hy|Hy]; [specialize (Hl y Hy)|specialize (Hr y Hy)]; lia.
Qed.

Lemma bst_remove {A} (key : A → Z) (t t' : tree A) l1 x l2 :
  bst key t → inorder t = l1 ++ x :: l2 → inorder t' = l1 ++ l2 → bst key t'.
Proof.
  unfold bst. intros Hs E E'. rewrite E in Hs. rewrite E'.
  apply StronglySorted_mid in Hs as (Hl & Hr & Hlx & Hxr & Hlr). apply StronglySorted_app; auto.
Qed.

Lemma find_exact_run t p n s :
  bst (@node_gpuaddr _ (in_store (sm_nodes (md_shm s)))) (get_tree t s) →
  p ∈ inorder (get_tree t s) → sm_nodes (md_shm s) !! p = Some n →
  mem_find_node t (mn_gpuaddr n) (mn_size64 n) true s = Some (Some p, s).
Proof.
  intros Hb Hin Hn. unfold mem_find_node, gets. do 2 f_equal.
  apply (@find_node_accurate _ (in_store (sm_nodes (md_shm s)))); [done|].
  split; [done|]. cbn. by rewrite Hn.
Qed.

(** A node that was taken out goes back to its place. *)
Lemma mem_add_back_run t p l1 l2 s :
  inorder (get_tree t s) = l1 ++ l2 →
  StronglySorted (key_lt (@node_gpuaddr _ (in_store (sm_nodes (md_shm s))))) (l1 ++ p :: l2) →
  ∃ r, mem_add_node t p s = Some (0, set_tree t r s) ∧ inorder r = l1 ++ p :: l2.
Proof.
  set (key := @node_gpuaddr _ _). intros E Hs.
  assert (bst key (get_tree t s)) as Hb.
  { unfold bst. rewrite E. apply StronglySorted_mid in Hs as (Hl & Hr & Hlx & Hxr & Hlr).
    apply StronglySorted_app; auto. }
  unfold mem_add_node. rewrite (bind_run _ _ s s s) by done. unfold hgsl_mem_add_node.
  fold key. destruct (rb_link key p (get_tree t s)) as [r|] eqn:El.
  - destruct (rb_link_Some _ _ _ _ Hb El) as (Hb' & k1 & k2 & E1 & E2).
    exists (rb_insert_color r). split; [done|]. rewrite rb_insert_color_inorder.
    apply (StronglySorted_unique_strong (key_lt key)); [|exact Hb'|exact Hs|].
    + unfold key_lt. intros. lia.
    + by rewrite E2, <- !Permutation_middle, <- E1, E.
  - apply (rb_link_None _ _ _ Hb) in El as (y & Hy & Ey). rewrite E in Hy.
    apply StronglySorted_mid in Hs as (_ & _ & Hl & Hr & _). rewrite Forall_forall in Hl, Hr.
    unfold key_lt in *. apply elem_of_app in Hy as [Hy|Hy]; [specialize (Hl y Hy)|specialize (Hr y Hy)]; lia.
Qed.

(** What freeing the node at [p] leaves, when the backend has taken it out of its page
    table or not. *)
Lemma mem_free_run cfg s p n b l1 l2 :
  is_request_rejected cfg = false →
  settled (md_hyp s) → sm_nodes (md_shm s) !! p = Some n → mn_sgt_ext n = NULL → mn_dma_buf n = PTR b →
  mapped_here cfg (get_fv_status cfg (hgsl_hnd2id (cf_active_devicehandle cfg))) (mn_flags n) = false →
  bst (@node_gpuaddr _ (in_store (sm_nodes (md_shm s)))) (md_allocated s) →
  inorder (md_allocated s) = l1 ++ p :: l2 →
  (∃ buf, sm_bufs (md_shm s) !! b = Some buf ∧ 1 < db_refs buf) →
  ∃ ret s', hgsl_ioctl_mem_free cfg (mn_gpuaddr n, mn_size64 n) s = Some (ret, s') ∧
    same_channels s s' ∧ md_files s' = md_files s ∧ md_mapped s' = md_mapped s ∧
    md_reserved s' = md_reserved s ∧ md_pagetable s' = md_pagetable s ∧
    (inorder (md_allocated s') = l1 ++ l2 ∧ ret = 0 ∧ unmap_answer s n 0 ∧
       Some (tt, md_shm s') = dma_buf_put b (md_shm s) ∨
     inorder (md_allocated s') = l1 ++ p :: l2 ∧ md_shm s' = md_shm s ∧ free_stopped s n ret).
Proof.
  intros Hrej Hset Hn Hext Hdb Hhere Hbst El (buf & Hbuf & Hrefs). unfold hgsl_ioctl_mem_free.
  rewrite Hrej. unfold free_stopped, unmap_answer.
  rewrite (bind_run _ _ _ _ _ (dev_ask_run env_copy s)). set (s1 := s <| md_clock ::= S |>).
  destruct (env_copy (md_clock s)); cbn [negb]; [|exists (- EFAULT), s1; split_and!; try done; right; auto 6].
  destruct (held_get (md_hyp s) Hset) as (ret & o & hy1 & E2 & Hcase).
  rewrite (bind_run _ _ _ _ _ (on_hyp_run _ s1 _ _ E2)). cbv beta iota.
  set (s2 := s1 <| md_hyp := hy1 |>).
  destruct Hcase as [(Hr & -> & Hset1 & Hb1)|(-> & c & -> & Hh)].
  { rewrite (proj2 (Z.eqb_neq _ _) Hr). cbn [negb]. rewrite (bind_run _ _ s2 ret s2) by done.
    rewrite (bind_run _ _ s2 tt s2) by done. exists ret, s2. split_and!; try done.
    right. split; [done|]. split; [done|]. right; left. eauto. }
  change (negb (0 =? 0)) with false. cbv iota.
  assert (p ∉ l1) as Hp1.
  { intros Hin. eapply (bst_distinct _ _ _ _ _ Hbst El); [|reflexivity]. set_solver. }
  assert (mem_find_node Allocated (mn_gpuaddr n, mn_size64 n).1 (mn_gpuaddr n, mn_size64 n).2 true s2 =
    Some (Some p, s2)) as E3.
  { apply find_exact_run; [done| |done]. cbn. rewrite El. set_solver. }
  destruct (erase_run Allocated p l1 l2 s2 El Hp1) as (r & E4 & Er).
  set (s3 := set_tree Allocated r s2) in *.
  destruct (unmap_smmu_run s3 _ c p n Hh Hn) as (ret & hy5 & E5 & Hh5 & Ean).
  change (md_hyp s3) with hy1 in Ean. set (s4 := s3 <| md_hyp := hy5 |>) in *.
  destruct (Z.eqb_spec ret 0) as [->|Hr].
  - set (shb := (md_shm s) <| sm_bufs ::= <[b := buf <| db_refs ::= Z.pred |>]> |>).
    assert (dma_buf_put b (md_shm s) = Some (tt, shb)) as Eput.
    { unfold dma_buf_put. rewrite (bind_run _ _ (md_shm s) (Some buf) (md_shm s)) by (unfold gets; by rewrite Hbuf).
      rewrite (bind_run _ _ (md_shm s) buf (md_shm s)) by done.
      by rewrite (proj2 (Z.eqb_neq (db_refs buf) 1)) by lia. }
    set (s5 := s4 <| md_shm := shb |>).
    rewrite (bind_run _ _ s2 0 s5).
    + destruct (give_back_run s5 (md_hyp s) (Some c) hy5) as (hy' & E8 & Hs8 & Hb8); [eauto|].
      change (s5 <| md_hyp := hy5 |>) with s5 in E8. cbv beta. rewrite (bind_run _ _ _ _ _ E8).
      eexists 0, _. split; [reflexivity|]. split_and!; try done. left. split_and!; eauto 8.
    + rewrite (bind_run _ _ _ _ _ E3), (bind_run _ _ _ _ _ E4).
      rewrite (bind_run _ _ _ _ _ (on_node_run s3 _ _ Hn)), Hhere.
      rewrite (bind_run _ _ _ _ _ E5). change (0 =? 0) with true. cbv iota.
      rewrite (bind_run _ _ s4 tt s4).
      2: { destruct (get_fv_status _ _); [|done]. by apply (mmu_put_none_run cfg p n s4). }
      rewrite (bind_run _ _ s4 tt s5); [done|]. apply (on_shm_run _ s4).
      change (md_shm s4) with (md_shm s). unfold hgsl_sharedmem_free.
      rewrite (bind_run _ _ (md_shm s) tt (md_shm s)).
      2: { unfold hgsl_put_sgt. rewrite (bind_run _ _ _ _ _ (node_run _ _ _ Hn)). by rewrite Hext. }
      rewrite (bind_run _ _ _ _ _ (node_run _ _ _ Hn)), Hdb. exact Eput.
  - destruct (mem_add_back_run Allocated p l1 l2 s4) as (r' & E6 & Er').
    { exact Er. }
    { unfold bst in Hbst. rewrite El in Hbst. exact Hbst. }
    set (s5 := set_tree Allocated r' s4) in *.
    rewrite (bind_run _ _ s2 0 s5).
    + destruct (give_back_run s5 (md_hyp s) (Some c) hy5) as (hy' & E8 & Hs8 & Hb8); [eauto|].
      change (s5 <| md_hyp := hy5 |>) with s5 in E8. cbv beta. rewrite (bind_run _ _ _ _ _ E8).
      eexists 0, _. split; [reflexivity|]. split_and!; try done. right. split; [done|]. split; [done|].
      right; right. eauto 9.
    + rewrite (bind_run _ _ _ _ _ E3), (bind_run _ _ _ _ _ E4).
      rewrite (bind_run _ _ _ _ _ (on_node_run s3 _ _ Hn)), Hhere.
      rewrite (bind_run _ _ _ _ _ E5). by rewrite (proj2 (Z.eqb_neq _ _) Hr).
Qed.

(** A buffer that two hold: the node lets go, then the file. *)
Lemma last_put_run sA sh p n b cs s2 :
  holding sA sh p n cs → locked sA sh n cs → exported sA sh p n → mn_dma_buf n = PTR b →
  dma_buf_put b (sh <| sm_bufs ::= <[b := {| db_refs := 2; db_priv := Some p |}]> |>) =
    Some (tt, s2) →
  ∃ s3, dma_buf_put b s2 = Some (tt, s3) ∧ restored sA s3 p ∧
    (sm_protected s3 = sm_protected sA ∨ refused).
Proof.
  intros Hho Hlo Hex Hb E. pose proof (holding_node _ _ _ _ _ Hho) as Hn.
  destruct (sharedmem_free_run _ _ _ _ _ Hho Hlo Hex) as (s3 & E3 & Hre & Hpr).
  unfold exported in Hex. rewrite Hb in Hex. destruct Hex as [Ebuf _].
  rewrite put_buf_run in E by by rewrite Ebuf, lookup_insert_eq.
  injection E as <-. exists s3. split; [|done].
  unfold hgsl_sharedmem_free in E3.
  rewrite (bind_run _ _ sh tt sh) in E3.
  2: { unfold hgsl_put_sgt. rewrite (bind_run _ _ _ _ _ (node_run _ _ _ Hn)).
       by rewrite (ho_sgt_ext _ _ _ _ _ Hho). }
  by rewrite (bind_run _ _ _ _ _ (node_run _ _ _ Hn)), Hb in E3.
Qed.
End run.

(** * Properties *)

Section properties.
Context `{Rbtree} `{SharedMem} `{Hab} `{MemEnv} (cfg : hgsl_cfg).

(** The backend maps the buffer, not the driver: there is no full virtualisation, the
    buffer is protected, or the device has no IOMMU. *)
Let by_backend (flags : Z) : Prop :=
  mapped_here cfg (get_fv_status cfg (hgsl_hnd2id (cf_active_devicehandle cfg))) flags = false.

(** C1. Allocating for the user is all or nothing, as long as the backend maps the buffer
    and not the driver itself (with full virtualisation the driver maps what is not
    protected; failed_attach_faults and private_page_tables_map_nothing are about that):
    the call ends whatever the kernel, the backend and the user's memory do; when it fails the process has the trees, the files
    and the descriptors it had, and all memory has been given back (pages that the
    hypervisor refuses to return apart); when it succeeds there is one new node, with
    the pages for the size, in its place in the tree, its description has gone to the
    user, its buffer has two references and the descriptor that is returned is a file
    that has one of them.  The channel has been given back either way. *)
Theorem mem_alloc_all_or_nothing s sizebytes flags fd :
  dev_ok s → is_u32 sizebytes → by_backend flags →
  ∃ ret fd' s', hgsl_ioctl_mem_alloc cfg sizebytes flags fd s = Some ((ret, fd'), s') ∧
    same_channels s s' ∧
    (ret ≠ 0 ∧ fd' = fd ∧ same_process s s' ∧ same_memory (md_shm s) (md_shm s') ∨
     ret = 0 ∧ 0 ≤ fd' ∧ ∃ p n pages b l1 l2,
       sm_nodes (md_shm s) !! p = None ∧
       sm_nodes (md_shm s') = <[p := n]> (sm_nodes (md_shm s)) ∧ mn_flags n = flags ∧
       mn_pages n = Some pages ∧ Z.of_nat (length pages) = PAGE_ALIGN sizebytes / PAGE_SIZE ∧
       mn_dma_buf n = PTR b ∧ sm_bufs (md_shm s) !! b = None ∧
       sm_bufs (md_shm s') = <[b := {| db_refs := 2; db_priv := Some p |}]> (sm_bufs (md_shm s)) ∧
       inorder (md_allocated s) = l1 ++ l2 ∧ inorder (md_allocated s') = l1 ++ p :: l2 ∧
       bst (@node_gpuaddr _ (in_store (sm_nodes (md_shm s')))) (md_allocated s') ∧
       md_mapped s' = md_mapped s ∧ md_files s' = <[fd' := b]> (md_files s) ∧
       md_reserved s' = md_reserved s ∧ md_to_user s' = md_to_user s ++ [memdesc_bytes n]).
Proof.
  intros Hok Hsz Hhere.
  destruct (mem_alloc_run cfg s sizebytes flags fd Hok Hsz Hhere)
    as (ret & fd' & s' & E & Hch & [Hbad|(-> & Hfd & p & n & n0 & b & cs & sh & sA & Had & Hho &
        Hlo & Hex & Hf & Hr & s1 & Ea & Em & Ep & Een & Eu & Han)]).
  { exists ret, fd', s'. split; [done|]. split; [done|]. by left. }
  exists 0, fd', s'. split; [done|]. split; [done|]. right. split; [done|]. split; [done|].
  destruct Han as [Hb Hfl (pages & Hpg & Hlen) Hshm Hbst (l1 & l2 & El1 & El2) Hm _ _ _ _ Hu].
  unfold exported in Hex. rewrite Hb in Hex. destruct Hex as [Ebuf Ebuf0].
  assert (sm_nodes (md_shm s') = <[p := n]> (sm_nodes (md_shm s))) as En.
  { rewrite Hshm. cbn. by rewrite (ho_nodes _ _ _ _ _ Hho), (ad_nodes _ _ _ _ Had), insert_insert_eq. }
  assert (sm_bufs (md_shm s') = <[b := {| db_refs := 2; db_priv := Some p |}]> (sm_bufs (md_shm s))) as Eb.
  { rewrite Hshm. cbn. rewrite Ebuf, insert_insert_eq. cbn. by rewrite (ad_bufs _ _ _ _ Had). }
  assert (sm_bufs (md_shm s) !! b = None) as Eb0 by (rewrite <- (ad_bufs _ _ _ _ Had); exact Ebuf0).
  pose proof (ad_new _ _ _ _ Had). rewrite Ea in El1. rewrite Eu in Hu. rewrite Em in Hm.
  exists p, n, pages, b, l1, l2. by split_and!.
Qed.

(** C7. What an allocation has added goes away again, as long as the backend maps the
    buffer and not the driver (see C1): freeing the memory that an allocation has just
    described finds its node, has the backend unmap it and takes it out of the tree, and
    closing the descriptor then gives back all that the allocation had taken.  A free that
    does not come through changes nothing, and there are three causes of that: the
    description cannot be read from the user (-EFAULT), there is no channel (the error of
    the pool), or the backend refuses to unmap the node, and only then the user is told 0
    though the memory is still there (failed_free_succeeds). *)
Theorem mem_alloc_free_close s sizebytes flags fd fd' s1 :
  dev_ok s → is_u32 sizebytes → by_backend flags →
  hgsl_ioctl_mem_alloc cfg sizebytes flags fd s = Some ((0, fd'), s1) →
  ∃ p n b, md_files s1 !! fd' = Some b ∧ sm_nodes (md_shm s1) !! p = Some n ∧
    ∃ ret s2, hgsl_ioctl_mem_free cfg (mn_gpuaddr n, mn_size64 n) s1 = Some (ret, s2) ∧
      same_channels s1 s2 ∧ md_files s2 = md_files s1 ∧ md_mapped s2 = md_mapped s ∧
      (ret = 0 ∧ unmap_answer s1 n 0 ∧ inorder (md_allocated s2) = inorder (md_allocated s) ∧
         (∃ sh3, dma_buf_put b (md_shm s2) = Some (tt, sh3) ∧ same_memory (md_shm s) sh3) ∨
       free_stopped s1 n ret ∧
         inorder (md_allocated s2) = inorder (md_allocated s1) ∧ md_shm s2 = md_shm s1).
Proof.
  intros Hok Hsz Hhere Erun. pose proof (alloc_accepted _ _ _ _ _ _ _ Erun) as Hrej.
  destruct (mem_alloc_run cfg s sizebytes flags fd Hok Hsz Hhere)
    as (ret & fd'' & s' & E & [Hset _] & [(Hr & _)|(_ & Hfd & p & n & n0 & b & cs & sh & sA & Had & Hho &
        Hlo & Hex & Hf & Hr & s0 & Ea & Em & Ep & Een & Eu & Han)]);
    rewrite E in Erun; injection Erun as -> -> ->; [done|].
  destruct Han as [Hb Hfl _ Hshm Hbst (l1 & l2 & El1 & El2) Hm _ _ _ _ _].
  assert (sm_nodes (md_shm s1) !! p = Some n) as Hn.
  { rewrite Hshm. exact (holding_node _ _ _ _ _ Hho). }
  exists p, n, b. split; [by rewrite Hf, lookup_insert_eq|]. split; [done|].
  destruct (mem_free_run cfg s1 p n b l1 l2) as (ret & s2 & E2 & Hch & Hf2 & Hm2 & _ & _ & Hc); try done.
  { exact (ho_sgt_ext _ _ _ _ _ Hho). }
  { by rewrite Hfl. }
  { rewrite Hshm. eexists. split; [apply lookup_insert_eq|cbn; lia]. }
  exists ret, s2. split_and!; try done; [congruence|].
  destruct Hc as [(El & -> & Han & Eput)|(El & Es & Hst)]; [left|right; by rewrite El, El2].
  split_and!; try done; [by rewrite El, <- El1, Ea|].
  rewrite Hshm in Eput. destruct (last_put_run _ _ _ _ _ _ _ Hho Hlo Hex Hb (eq_sym Eput))
    as (sh3 & E3 & Hre & Hpr).
  exists sh3. split; [done|]. by eapply restored_same.
Qed.
End properties.

(** * Concrete runs *)

(** A kernel where nothing fails, and a process without memory. *)
Definition demo_mem : MemEnv := {|
  env_kmem_alloc := λ _, true; env_dma_map_sgtable := λ _, 0;
  env_sg_dma_address := λ _, Some 1048576; env_unused_fd := λ _, 5; env_copy := λ _, true;
  env_dma_buf_fd := λ _, 6 |}.

Definition demo_cfg : hgsl_cfg :=
  {| cf_fv_on := false; cf_feature_mask := λ _, 0; cf_mmutype := HGSL_MMU_TYPE_IOMMU;
     cf_use_single_pt := false; cf_iocoherency := false; cf_writecombine := false;
     cf_active_devicehandle := 1; cf_dev_open_count := 1; cf_is_device_activated := true |}.

(** The same where the driver maps, with full virtualisation. *)
Definition demo_cfg_fv : hgsl_cfg :=
  {| cf_fv_on := true; cf_feature_mask := λ _, 1; cf_mmutype := HGSL_MMU_TYPE_IOMMU;
     cf_use_single_pt := false; cf_iocoherency := false; cf_writecombine := false;
     cf_active_devicehandle := 1; cf_dev_open_count := 1; cf_is_device_activated := true |}.

Definition demo_process : mem_dev :=
  {| md_shm := (demo_shm_state (mk_mem_node 0 0)) <| sm_nodes := ∅ |> <| sm_sgts := ∅ |>;
     md_hyp := demo_pool; md_allocated := Leaf; md_mapped := Leaf; md_pagetable := None;
     md_entries := 0; md_reserved := ∅; md_files := ∅; md_to_user := []; md_clock := 0 |}.

Lemma demo_process_ok : dev_ok demo_process.
Proof.
  split; [|exact demo_settled|done|by intros [] p ?%elem_of_nil|by intros []; constructor].
  split; cbn; intros q; rewrite ?lookup_empty; try (by intros [? ?]); set_solver.
Qed.

(** The answer of a backend that maps at 64 KB. *)
Definition demo_mapped : list Z :=
  message RPC_MEMORY_MAP_EXT_FD_PURE 0
    [Blob (memdesc_bytes (mk_mem_node 65536 8192)); Int32 GSL_SUCCESS].

Lemma mem_alloc_all_or_nothing_witness :
  let _ := demo_shm in let _ := demo_hab 0 demo_mapped in let _ := demo_mem in
  ∃ p s', hgsl_ioctl_mem_alloc demo_cfg 8000 0 0 demo_process = Some ((0, 5), s') ∧
    inorder (md_allocated s') = [p] ∧ settled (md_hyp s').
Proof.
  intros Sh Hb En.
  destruct (mem_alloc_all_or_nothing demo_cfg demo_process 8000 0 0 demo_process_ok)
    as (ret & fd' & s' & E & [Hset _] & Hc); [unfold is_u32; lia|reflexivity|].
  assert (((λ x : Z * Z * mem_dev, x.1) <$> hgsl_ioctl_mem_alloc demo_cfg 8000 0 0 demo_process) =
    Some (0, 5)) as Er by (vm_compute; reflexivity).
  rewrite E in Er. cbn [fmap option_fmap option_map fst] in Er. injection Er as -> ->.
  destruct Hc as [(Hr & _)|(_ & _ & p & n & pages & b & l1 & l2 & _ & _ & _ & _ & _ & _ & _ & _ &
    El & El' & _)]; [destruct (Hr eq_refl)|].
  symmetry in El. apply app_nil in El as [-> ->].
  exists p, s'. split; [exact E|]. split; [exact El'|exact Hset].
Defined.

Lemma mem_alloc_free_close_witness :
  let _ := demo_shm in let _ := demo_hab 0 demo_mapped in let _ := demo_mem in
  ∃ s1 p n b, hgsl_ioctl_mem_alloc demo_cfg 8000 0 0 demo_process = Some ((0, 5), s1) ∧
    md_files s1 !! 5 = Some b ∧ sm_nodes (md_shm s1) !! p = Some n ∧
    ∃ ret s2, hgsl_ioctl_mem_free demo_cfg (mn_gpuaddr n, mn_size64 n) s1 = Some (ret, s2) ∧
      same_channels s1 s2.
Proof.
  intros Sh Hb En.
  assert (((λ x : Z * Z * mem_dev, x.1) <$> hgsl_ioctl_mem_alloc demo_cfg 8000 0 0 demo_process) =
    Some (0, 5)) as Er by (vm_compute; reflexivity).
  destruct (hgsl_ioctl_mem_alloc demo_cfg 8000 0 0 demo_process) as [[[ret fd'] s1]|] eqn:E;
    [|done]. cbn [fmap option_fmap option_map fst] in Er. injection Er as -> ->.
  destruct (mem_alloc_free_close demo_cfg demo_process 8000 0 0 5 s1 demo_process_ok)
    as (p & n & b & Hf & Hn & ret & s2 & E2 & Hch & _); [unfold is_u32; lia|reflexivity|exact E|].
  exists s1, p, n, b. split; [reflexivity|]. split; [exact Hf|]. split; [exact Hn|].
  exists ret, s2. split; [exact E2|exact Hch].
Defined.

(** Freeing is reported as done when the backend has not done it: the memory is still
    mapped, the node is back in the tree, and the user is told 0.  The backend here has
    no answer to the unmapping. *)
Theorem failed_free_succeeds :
  let _ := demo_shm in let _ := demo_hab 0 demo_mapped in let _ := demo_mem in
  ('(_, s1) ← hgsl_ioctl_mem_alloc demo_cfg 8000 0 0 demo_process;
   (λ x : Z * mem_dev, (x.1, inorder (md_allocated x.2))) <$>
     hgsl_ioctl_mem_free demo_cfg (65536, 8192) s1) = Some (0, [10%positive]).
Proof. vm_compute. reflexivity. Qed.

(** With full virtualisation and a page table for each process, no allocation that the
    driver maps itself succeeds: the address that it has just been given makes
    hgsl_mmu_map refuse it. *)
Theorem private_page_tables_map_nothing :
  let _ := demo_shm in let _ := demo_hab 0 demo_mapped in let _ := demo_mem in
  let cfg := demo_cfg_fv in
  let s := demo_process <| md_pagetable := Some (hgsl_iopgtbl_pagetable 4096 1048576) |> in
  (λ x : Z * Z * mem_dev, (x.1, inorder (md_allocated x.2))) <$>
    hgsl_ioctl_mem_alloc cfg 8000 0 0 s = Some (- EINVAL, 0, []).
Proof. vm_compute. reflexivity. Qed.
