(* ===== verification/CtxtCreate.v ===== *)
(** Creating a context in the backend, with the memory for its shadow timestamps
    (hgsl_hyp.c, hgsl.c): the driver offers a buffer of its own, the backend takes it or
    answers with one of its own, which is imported. *)

From S2P Require Import Prelude.
From S2P Require Import Rbtree.
From S2P Require Import MemTree.
From S2P Require Import State.
From S2P Require Import Timestamp.
From S2P Require Import Context.
From S2P Require Import Gpuaddr.
From S2P Require Import Bytes.
From S2P Require Import Parcel.
From S2P Require Import Hyp.
From S2P Require Import HypPool.
From S2P Require Import HypCalls.
From S2P Require Import SharedMem.
From S2P Require Import Mmu.
From S2P Require Import MemIoctl.

(** * State *)

Definition EIO : Z := 5.
Definition GSL_CONTEXT_FLAG_USES_PROTECTED : Z := 0x00020000.

(** What the creation sets in struct hgsl_context; [cb_shadow_ts] is the address of the
    mapping, which [cb_map] has too. *)
Record ctxt_back := {
  cb_priv : bool;
  cb_context_id : Z;
  cb_devhandle : Z;
  cb_pid : Z;
  cb_flags : Z;
  cb_map : eptr;
  cb_shadow_ts : eptr;
  cb_shadow_ts_node : option ptr;
  cb_shadow_ts_flags : Z;
  cb_is_fe_shadow : bool;
  cb_ctxt_record_mem_node : option ptr }.

#[export] Instance ctxt_back_eta : Eta ctxt_back := λ r,
  {| cb_priv := cb_priv r; cb_context_id := cb_context_id r; cb_devhandle := cb_devhandle r;
     cb_pid := cb_pid r; cb_flags := cb_flags r; cb_map := cb_map r;
     cb_shadow_ts := cb_shadow_ts r; cb_shadow_ts_node := cb_shadow_ts_node r;
     cb_shadow_ts_flags := cb_shadow_ts_flags r; cb_is_fe_shadow := cb_is_fe_shadow r;
     cb_ctxt_record_mem_node := cb_ctxt_record_mem_node r |}.

(** Out of hgsl_zalloc. *)
Definition zeroed_ctxt : ctxt_back :=
  {| cb_priv := false; cb_context_id := 0; cb_devhandle := 0; cb_pid := 0; cb_flags := 0;
     cb_map := NULL; cb_shadow_ts := NULL; cb_shadow_ts_node := None; cb_shadow_ts_flags := 0;
     cb_is_fe_shadow := false; cb_ctxt_record_mem_node := None |}.

(** The process, the context that is being created, params->ctxthandle and the
    information on a queue; the buffers between dma_buf_begin_cpu_access and
    dma_buf_end_cpu_access. *)
Record creation := {
  cr_dev : mem_dev;
  cr_ctxt : ctxt_back;
  cr_ctxthandle : Z;
  cr_dbq_info : Z;
  cr_access : list ptr }.

#[export] Instance creation_eta : Eta creation := λ r,
  {| cr_dev := cr_dev r; cr_ctxt := cr_ctxt r; cr_ctxthandle := cr_ctxthandle r;
     cr_dbq_info := cr_dbq_info r; cr_access := cr_access r |}.

(** The last of the accesses to a buffer ends. *)
Fixpoint end_access (b : ptr) (l : list ptr) : list ptr :=
  match l with
  | [] => []
  | b' :: l => if decide (b = b') then l else b' :: end_access b l
  end.

(** struct hgsl_ioctl_ctxt_create_params, what is not changed of it. *)
Record create_params := { pr_devhandle : Z; pr_type : Z; pr_flags : Z }.

(** * Operations *)

Section create.
Context `{Rbtree} `{SharedMem} `{Hab} `{MemEnv}.

Abbreviation CM := (M creation).

Definition on_dev {A} (m : M mem_dev A) : CM A := λ s,
  '(a, d) ← m (cr_dev s); Some (a, s <| cr_dev := d |>).

Definition mem {A} (m : M shm A) : CM A := on_dev (on_shm m).
Definition hyp {A} (m : M hgsl_hyp_priv_t A) : CM A := on_dev (on_hyp m).

Definition ctxt : CM ctxt_back := gets cr_ctxt.
Definition set_ctxt (f : ctxt_back → ctxt_back) : CM unit := modify (λ s, s <| cr_ctxt ::= f |>).
Definition set_handle (h : Z) : CM unit := modify (λ s, s <| cr_ctxthandle := h |>).

(** [if (ret) goto out]. *)
Definition or_out (m : CM Z) (k : CM Z) : CM Z :=
  ret ← m; if ret =? 0 then k else mret ret.

Definition read_or_out {V} (m : CM (Z * option V)) (k : V → CM Z) : CM Z :=
  '(ret, v) ← m; match v with Some v => k v | None => mret ret end.

(** ** Buffers and the CPU

    dma_buf_vmap_unlocked calls the exporter, which may be this driver; a buffer has one
    mapping at a time here.  A buffer that has been imported belongs to another exporter,
    and goes when the hypervisor is told that it is not used any more. *)

Definition dma_buf_vmap (b : eptr) : M shm (Z * eptr) :=
  match b with
  | NULL => mret (- EINVAL, NULL)
  | ERR_PTR _ => fault
  | PTR b =>
      o ← gets (λ s, sm_bufs s !! b);
      buf ← of_option o;
      match db_priv buf with
      | Some p => hgsl_mem_dma_buf_vmap p
      | None =>
          ok ← SharedMem.ask shm_vmap;
          if negb ok then mret (- ENOMEM, NULL)
          else
            v ← SharedMem.fresh;
            modify (λ s, s <| sm_vmaps ::= λ vs, {[v]} ∪ vs |>) ;;
            mret (0, PTR v)
      end
  end.

Definition dma_buf_vunmap (b map : eptr) : M shm unit :=
  match b with
  | NULL => mret tt
  | ERR_PTR _ => fault
  | PTR b =>
      o ← gets (λ s, sm_bufs s !! b);
      buf ← of_option o;
      match db_priv buf, map with
      | Some p, _ => hgsl_mem_dma_buf_vunmap p
      | None, PTR v => modify (λ s, s <| sm_vmaps ::= λ vs, vs ∖ {[v]} |>)
      | None, _ => mret tt
      end
  end.

Definition begin_cpu_access (b : eptr) : CM unit :=
  match b with
  | NULL => mret tt
  | ERR_PTR _ => fault
  | PTR b => modify (λ s, s <| cr_access ::= cons b |>)
  end.

Definition end_cpu_access (b : eptr) : CM unit :=
  match b with
  | NULL => mret tt
  | ERR_PTR _ => fault
  | PTR b => modify (λ s, s <| cr_access ::= end_access b |>)
  end.

(** The buffer that habmm_import answers with. *)
Definition imported (o : option ptr) : M shm eptr :=
  match o with
  | None => mret NULL
  | Some _ =>
      b ← SharedMem.fresh;
      modify (λ s, s <| sm_bufs ::= <[b := {| db_refs := 1; db_priv := None |}]> |>) ;;
      mret (PTR b)
  end.

Definition unimported (b : eptr) : M shm unit :=
  match b with PTR b => modify (λ s, s <| sm_bufs ::= delete b |>) | _ => mret tt end.

(** hgsl_hyp_put_shadowts_mem on a node of the store. *)
Definition put_shadowts_mem (o : option ptr) (p : ptr) : CM unit :=
  n ← mem (node p);
  _ ← hyp (hgsl_hyp_put_shadowts_mem o n);
  match o with Some _ => mem (unimported (mn_dma_buf n)) | None => mret tt end.

Definition ctxt_destroy (o : option ptr) (devhandle context_id export_id : Z) : CM unit :=
  _ ← hyp (hgsl_hyp_ctxt_destroy o devhandle context_id false export_id); mret tt.

(** dma_buf_vunmap_unlocked and dma_buf_end_cpu_access on the buffer of a node. *)
Definition unmap_shadow (p : ptr) : CM unit :=
  n ← mem (node p);
  cb ← ctxt;
  mem (dma_buf_vunmap (mn_dma_buf n) (cb_map cb)) ;;
  end_cpu_access (mn_dma_buf n) ;;
  set_ctxt (λ cb, cb <| cb_shadow_ts := NULL |>).

(** ** The parameters *)

(** struct context_create_params_t and struct memory_map_ext_fd_params_t. *)
Definition ctxt_create_bytes (prm : create_params) : list Z :=
  params (u32s [pr_devhandle prm; pr_type prm; pr_flags prm]).

Definition shadow_map_bytes (n : hgsl_mem_node) : list Z :=
  params (u32s [mn_fd n] ++ (le_bytes 8 0 ++ le_bytes 8 PAGE_SIZE ++ le_bytes 8 0) ++
          u32s [mn_memtype n; 0]).

(** The bytes of the parameters, when the buffer could be exported. *)
Definition export_fill_shadow_ts_buf (c : ptr) (p : ptr) : CM (Z * list Z) :=
  '(ret, export_id) ← hyp (habmm_export c PAGE_SIZE);
  if negb (ret =? 0) then mret (ret, [])
  else
    mem (set_node p (λ n, n <| mn_export_id := export_id |>)) ;;
    n ← mem (node p);
    mret (0, shadow_map_bytes n).

(** struct context_create_params_v2_t, with the address of the context record. *)
Definition write_ctxt_create_data_fv (c : ptr) (shadow : ptr) (record : option ptr)
    (prm : create_params) : CM Z :=
  addr ← (if has_flag (pr_flags prm) GSL_CONTEXT_FLAG_USES_PROTECTED then mret (Some 0)
          else match record with
               | Some r => n ← mem (node r); mret (Some (mn_gpuaddr n))
               | None => mret None
               end);
  match addr with
  | None => mret (- EINVAL)
  | Some addr =>
      '(ret, map_bytes) ← export_fill_shadow_ts_buf c shadow;
      if negb (ret =? 0) then mret ret
      else
        n ← mem (node shadow);
        hyp (send_args c
          [Blob (params (ctxt_create_bytes prm ++ map_bytes ++ le_bytes 8 0xDEAD ++
                         le_bytes 8 addr));
           Uint32 (mn_export_id n)])
  end.

(** struct context_create_params_v1_t. *)
Definition write_ctxt_shadowts_mem_fe (c : ptr) (prm : create_params) (dbq_off : bool)
    (p : ptr) : CM Z :=
  n ← mem (node p);
  if is_null (mn_dma_buf n) then mret (- EINVAL)
  else
    '(ret, map_bytes) ← export_fill_shadow_ts_buf c p;
    if negb (ret =? 0) then mret ret
    else
      n ← mem (node p);
      hyp (send_args c
        [Blob (params (ctxt_create_bytes prm ++ map_bytes ++ u32s [Z.b2z dbq_off]));
         Uint32 (mn_export_id n)]).

(** ** The replies *)

Definition set_shadow (p : ptr) (map : eptr) (flags : Z) (cb : ctxt_back) : ctxt_back :=
  cb <| cb_map := map |> <| cb_shadow_ts := map |> <| cb_shadow_ts_node := Some p |>
     <| cb_shadow_ts_flags := flags |>.

Definition assign_shadow_ts_cpu_addr_memstore (p : ptr) : CM Z :=
  n ← mem (node p);
  if is_null (mn_dma_buf n) then mret (- EINVAL)
  else
    begin_cpu_access (mn_dma_buf n) ;;
    '(ret, map) ← mem (dma_buf_vmap (mn_dma_buf n));
    if negb (ret =? 0) then end_cpu_access (mn_dma_buf n) ;; mret (- EFAULT)
    else
      set_ctxt (λ cb, (set_shadow p map GSL_FLAGS_INITIALIZED cb) <| cb_is_fe_shadow := true |>) ;;
      mret 0.

Definition read_shadowts_mem_fe (c : ptr) (p : ptr) : CM Z :=
  read_or_out (hyp (recv_int32 c)) (λ rval,
    if negb (rval =? GSL_SUCCESS) then mret (- EINVAL)
    else
      read_or_out (hyp (recv_blob c sizeof_gsl_memdesc_t)) (λ memdesc,
        mem (set_node p (set_memdesc memdesc)) ;;
        n ← mem (node p);
        if is_null (mn_dma_buf n) then mret (- EINVAL)
        else assign_shadow_ts_cpu_addr_memstore p)).

(** From the node on; after a mapping that fails the buffer is given back twice. *)
Definition import_shadow (c : ptr) (rpc_shadow : list Z) (export_id : Z) (q : ptr) : CM Z :=
  let size := shadow_sizebytes rpc_shadow in
  mem (set_node q (λ n, n <| mn_size64 := size |> <| mn_fd := -1 |>)) ;;
  '(ret, o) ← hyp (habmm_import c (page_align size) export_id);
  if negb (ret =? 0) then mret ret
  else
    b ← mem (imported o);
    mem (set_node q (λ n, n <| mn_dma_buf := b |> <| mn_export_id := export_id |>)) ;;
    begin_cpu_access b ;;
    '(ret, map) ← mem (dma_buf_vmap b);
    if negb (ret =? 0) then
      end_cpu_access b ;;
      put_shadowts_mem (Some c) q ;;
      _ ← hyp (habmm_unimport c export_id);
      mem (unimported b) ;;
      mret (- EFAULT)
    else set_ctxt (set_shadow q map (shadow_flags rpc_shadow)) ;; mret 0.

Definition read_shadowts_mem_be (cfg : hgsl_cfg) (c : ptr) : CM Z :=
  read_or_out (hyp (recv_blob c sizeof_shadowprop_t)) (λ rpc_shadow,
    read_or_out (hyp (recv_uint32 c)) (λ export_id,
      if negb (has_flag (shadow_flags rpc_shadow) GSL_FLAGS_INITIALIZED) then mret 0
      else
        q ← mem (hgsl_mem_node_zalloc (cf_iocoherency cfg) (cf_writecombine cfg));
        match q with
        | None => mret (- ENOMEM)
        | Some q =>
            ret ← import_shadow c rpc_shadow export_id q;
            when (negb (ret =? 0)) (mem (modify (λ s, s <| sm_nodes ::= delete q |>))) ;;
            mret ret
        end)).

(** ** The calls *)

Definition free_shadow_node (q : ptr) : CM unit :=
  mem (modify (λ s, s <| sm_nodes ::= delete q |>)).

(** What is set once the backend has given the context a number. *)
Definition set_created (prm : create_params) (pid h : Z) (cb : ctxt_back) : ctxt_back :=
  cb <| cb_context_id := h |> <| cb_devhandle := pr_devhandle prm |> <| cb_pid := pid |>
     <| cb_priv := true |> <| cb_flags := pr_flags prm |>.

(** The part of v1 in which the reply is read. *)
Definition create_v1_reply (cfg : hgsl_cfg) (c : ptr) (prm : create_params) (pid : Z)
    (dbq_off : bool) (p : ptr) : CM Z :=
  read_or_out (hyp (recv_uint32 c)) (λ h,
    set_handle h ;;
    if HGSL_CONTEXT_NUM <=? h then mret (- EINVAL)
    else
      set_ctxt (set_created prm pid h) ;;
      ret ← read_shadowts_mem_fe c p;
      or_out (if negb (ret =? 0) then read_shadowts_mem_be cfg c else mret 0)
        (if dbq_off then mret 0
         else
           read_or_out (hyp (recv_int32 c)) (λ rval,
             if rval =? GSL_SUCCESS then
               read_or_out (hyp (recv_uint32 c)) (λ info,
                 modify (λ s, s <| cr_dbq_info := info |>) ;; mret 0)
             else mret 0))).

(** The part of v1 between the allocation of the node and the label out. *)
Definition create_v1_body (cfg : hgsl_cfg) (c : ptr) (prm : create_params) (pid : Z)
    (dbq_off : bool) (p : ptr) : CM Z :=
  mem (set_node p (λ n, n <| mn_fd := -1 |>)) ;;
  or_out (mem (hgsl_sharedmem_alloc PAGE_SIZE 0 p))
    (or_out (write_ctxt_shadowts_mem_fe c prm dbq_off p)
       (or_out (hyp (gsl_rpc_transact_ext RPC_CONTEXT_CREATE 1 c false))
          (create_v1_reply cfg c prm pid dbq_off p))).

(** The end of a context that could not be created. *)
Definition destroy_created (o : option ptr) (prm : create_params) : CM unit :=
  h ← gets cr_ctxthandle;
  when (h <? HGSL_CONTEXT_NUM)
    (ctxt_destroy o (pr_devhandle prm) h 0 ;; set_handle (u32 (-1))).

Definition unmap_shadow_ts : CM unit :=
  cb ← ctxt;
  when (negb (is_null (cb_shadow_ts cb)))
    (p ← of_option (cb_shadow_ts_node cb); unmap_shadow p).

Definition put_be_shadow (o : option ptr) : CM unit :=
  cb ← ctxt;
  match cb_shadow_ts_node cb with
  | Some q =>
      when (negb (cb_is_fe_shadow cb))
        (put_shadowts_mem o q ;;
         free_shadow_node q ;;
         set_ctxt (λ cb, cb <| cb_shadow_ts_node := None |>))
  | None => mret tt
  end.

Definition create_v1_failed (o : option ptr) (prm : create_params) : CM unit :=
  unmap_shadow_ts ;; put_be_shadow o ;; destroy_created o prm.

(** The node of the front end: hgsl_hyp_mem_unmap_smmu and hgsl_sharedmem_free. *)
Definition drop_mem_node (o : option ptr) (p : option ptr) : CM unit :=
  _ ← on_dev (unmap_smmu o p);
  mem (hgsl_sharedmem_free p).

Definition hgsl_hyp_ctxt_create_v1 (cfg : hgsl_cfg) (o : option ptr) (prm : create_params)
    (pid : Z) (dbq_off : bool) : CM Z :=
  set_handle (u32 (-1)) ;;
  '(ret, p) ←
    match o with
    | None => mret (- EINVAL, None)
    | Some c =>
        ret ← hyp (hgsl_rpc_parcel_reset c);
        if negb (ret =? 0) then mret (ret, None)
        else
          p ← mem (hgsl_mem_node_zalloc (cf_iocoherency cfg) (cf_writecombine cfg));
          match p with
          | None => mret (- ENOMEM, None)
          | Some p => ret ← create_v1_body cfg c prm pid dbq_off p; mret (ret, Some p)
          end
    end;
  when (negb (ret =? 0)) (create_v1_failed o prm) ;;
  cb ← ctxt;
  when (negb (ret =? 0) || negb (cb_is_fe_shadow cb)) (drop_mem_node o p) ;;
  mret ret.

(** The context record of v2: allocated, mapped, put into the tree.  The node, when there
    is one, and whether it is in the tree. *)
Definition create_v2_record (cfg : hgsl_cfg) (devhandle rec_buf_size_KB : Z) :
    CM (Z * (option ptr * bool)) :=
  let size_bytes := u32 (rec_buf_size_KB * 1024) in
  if size_bytes =? 0 then mret (- EINVAL, (None, false))
  else
    r ← mem (hgsl_mem_node_zalloc (cf_iocoherency cfg) (cf_writecombine cfg));
    match r with
    | None => mret (- ENOMEM, (None, false))
    | Some r =>
        mem (set_node r (λ n, n <| mn_fd := -1 |>)) ;;
        ret ← mem (hgsl_sharedmem_alloc size_bytes 0 r);
        if negb (ret =? 0) then mret (ret, (Some r, false))
        else
          ret ← on_dev (mmu_get_gpuaddr cfg true r);
          if negb (ret =? 0) then mret (- EINVAL, (Some r, false))
          else
            ret ← on_dev (hgsl_mmu_map cfg true (Some r) true devhandle);
            if negb (ret =? 0) then mret (ret, (Some r, false))
            else
              ret ← on_dev (mem_add_node Allocated r);
              mret (ret, (Some r, ret =? 0))
    end.

Definition create_v2_reply (c : ptr) (prm : create_params) (pid : Z) (shadow : ptr)
    (record : option ptr) : CM Z :=
  read_or_out (hyp (recv_uint32 c)) (λ h,
    set_handle h ;;
    if HGSL_CONTEXT_NUM <=? h then mret (- EINVAL)
    else
      set_ctxt (λ cb, (set_created prm pid h cb) <| cb_ctxt_record_mem_node := record |>) ;;
      read_or_out (hyp (recv_int32 c)) (λ rval,
        if negb (rval =? 0) then mret (- EIO)
        else assign_shadow_ts_cpu_addr_memstore shadow)).

(** The error path for the context record. *)
Definition drop_record (cfg : hgsl_cfg) (devhandle : Z) (record : option ptr) (added : bool) :
    CM unit :=
  match record with
  | None => mret tt
  | Some r =>
      when added (on_dev (erase_node Allocated r)) ;;
      n ← mem (node r);
      when (negb (mn_gpuaddr n =? 0))
        (_ ← on_dev (hgsl_mmu_unmap cfg true (Some r) true devhandle);
         on_dev (mmu_put_gpuaddr cfg true (Some r))) ;;
      mem (hgsl_sharedmem_free (Some r)) ;;
      set_ctxt (λ cb, cb <| cb_ctxt_record_mem_node := None |>)
  end.

Definition create_v2_failed (cfg : hgsl_cfg) (o : option ptr) (prm : create_params)
    (shadow record : option ptr) (added : bool) : CM unit :=
  unmap_shadow_ts ;;
  cb ← ctxt;
  (if cb_is_fe_shadow cb then
     drop_mem_node o shadow ;;
     set_ctxt (λ cb, cb <| cb_shadow_ts_node := None |>)
   else mem (hgsl_sharedmem_free shadow)) ;;
  destroy_created o prm ;;
  drop_record cfg (pr_devhandle prm) record added.

Definition create_v2_body (cfg : hgsl_cfg) (c : ptr) (prm : create_params) (pid : Z)
    (rec_buf_size_KB : Z) (shadow : ptr) : CM (Z * (option ptr * bool)) :=
  mem (set_node shadow (λ n, n <| mn_fd := -1 |>)) ;;
  ret ← mem (hgsl_sharedmem_alloc PAGE_SIZE 0 shadow);
  if negb (ret =? 0) then mret (ret, (None, false))
  else
    '(ret, (record, added)) ←
      (if has_flag (pr_flags prm) GSL_CONTEXT_FLAG_USES_PROTECTED then mret (0, (None, false))
       else create_v2_record cfg (pr_devhandle prm) rec_buf_size_KB);
    if negb (ret =? 0) then mret (ret, (record, added))
    else
      ret ← or_out (write_ctxt_create_data_fv c shadow record prm)
              (or_out (hyp (gsl_rpc_transact_ext RPC_CONTEXT_CREATE 2 c false))
                 (create_v2_reply c prm pid shadow record));
      mret (ret, (record, added)).

(** [rec_buf_size_KB] is gvm_settings[dev_id].ctxt_rec_buf_size_KB. *)
Definition hgsl_hyp_ctxt_create_v2 (cfg : hgsl_cfg) (o : option ptr) (prm : create_params)
    (pid rec_buf_size_KB : Z) : CM Z :=
  let dev_id := hgsl_hnd2id (pr_devhandle prm) in
  set_handle (u32 (-1)) ;;
  '(ret, (shadow, (record, added))) ←
    (if (HGSL_DEVICE_NUM <=? dev_id) || negb (pr_devhandle prm =? cf_active_devicehandle cfg)
     then mret (- EINVAL, (None, (None, false)))
     else
       match o with
       | None => mret (- EINVAL, (None, (None, false)))
       | Some c =>
           ret ← hyp (hgsl_rpc_parcel_reset c);
           if negb (ret =? 0) then mret (ret, (None, (None, false)))
           else
             p ← mem (hgsl_mem_node_zalloc (cf_iocoherency cfg) (cf_writecombine cfg));
             match p with
             | None => mret (- ENOMEM, (None, (None, false)))
             | Some p =>
                 '(ret, out) ← create_v2_body cfg c prm pid rec_buf_size_KB p;
                 mret (ret, (Some p, out))
             end
       end);
  when (negb (ret =? 0)) (create_v2_failed cfg o prm shadow record added) ;;
  mret ret.

(** ** The shadow timestamps of a context that is there *)

Definition _cleanup_shadow (o : option ptr) : CM unit :=
  cb ← ctxt;
  match cb_shadow_ts_node cb with
  | None => mret tt
  | Some p =>
      n ← mem (node p);
      (if is_null (mn_dma_buf n) then mret tt
       else
         when (negb (is_null (cb_shadow_ts cb)))
           (mem (dma_buf_vunmap (mn_dma_buf n) (cb_map cb)) ;;
            set_ctxt (λ cb, cb <| cb_shadow_ts := NULL |>)) ;;
         end_cpu_access (mn_dma_buf n)) ;;
      (if cb_is_fe_shadow cb then drop_mem_node o (Some p)
       else put_shadowts_mem o p ;; free_shadow_node p) ;;
      set_ctxt (λ cb, cb <| cb_shadow_ts_flags := 0 |> <| cb_is_fe_shadow := false |>
                         <| cb_shadow_ts_node := None |>)
  end.

(** The node is out of hgsl_zalloc; the buffer of the backend, when it has one, is
    imported by the call. *)
Definition hgsl_get_shadowts_mem (o : option ptr) : CM unit :=
  cb ← ctxt;
  match cb_shadow_ts_node cb with
  | Some _ => mret tt
  | None =>
      q ← mem (hgsl_mem_node_zalloc false false);
      match q with
      | None => mret tt
      | Some q =>
          set_ctxt (λ cb, cb <| cb_shadow_ts_node := Some q |>) ;;
          n ← mem (node q);
          '(ret, (flags, n')) ← hyp (hgsl_hyp_get_shadowts_mem o (cb_context_id cb) n);
          b ← mem (imported (match mn_dma_buf n' with PTR b => Some b | _ => None end));
          mem (set_node q (λ _, n' <| mn_dma_buf := b |>)) ;;
          set_ctxt (λ cb, cb <| cb_shadow_ts_flags ::= λ f, default f flags |>) ;;
          ret ← (if negb (ret =? 0) then mret ret
                 else if is_null b then mret 0
                 else
                   begin_cpu_access b ;;
                   '(ret, map) ← mem (dma_buf_vmap b);
                   (if ret =? 0
                    then set_ctxt (λ cb, cb <| cb_map := map |> <| cb_shadow_ts := map |>)
                    else mret tt) ;;
                   mret ret);
          when (negb (ret =? 0)) (_cleanup_shadow o)
      end
  end.
End create.

(** * Specification *)

(** No address from [sm_next] on is in use, not even for a mapping. *)
Record shm_fresh (s : shm) : Prop := {
  fr_ok : shm_ok s;
  fr_vmaps : ∀ v, v ∈ sm_vmaps s → (v < sm_next s)%positive }.

(** What every step that only allocates does to the addresses. *)
Definition still_fresh (s s' : shm) : Prop :=
  shm_fresh s → shm_fresh s' ∧ (sm_next s ≤ sm_next s')%positive.

#[export] Instance still_fresh_preorder : PreOrder still_fresh.
Proof.
  split; [intros s; by split|]. intros s1 s2 s3 H1 H2 (Hf2 & Hn2)%H1. destruct (H2 Hf2).
  split; [done|lia].
Qed.

(** [sh] is [base] with the buffer of one node on top, which has one reference. *)
Definition own `{SharedMem} (base sh : shm) (p : ptr) (n : hgsl_mem_node) : Prop :=
  ∃ sA n0 cs, added_node base sA p n0 ∧ holding sA sh p n cs ∧ locked sA sh n cs ∧
    exported sA sh p n.

(** The shadow timestamps of a context: none, in the buffer of the driver, in a buffer of
    the backend; the last two with the mapping of the buffer. *)
Inductive shadow_kind :=
| NoShadow
| FeShadow (b v : ptr)
| BeShadow (q : ptr) (nq : hgsl_mem_node) (b v : ptr).

(** What they add to the memory, the node of the front end apart. *)
Definition with_shadow (k : shadow_kind) (sh : shm) : shm :=
  match k with
  | NoShadow => sh
  | FeShadow b v => sh <| sm_vmaps ::= union {[v]} |>
  | BeShadow q nq b v =>
      sh <| sm_nodes ::= <[q := nq]> |>
         <| sm_bufs ::= <[b := {| db_refs := 1; db_priv := None |}]> |>
         <| sm_vmaps ::= union {[v]} |>
  end.

Definition new_shadow (k : shadow_kind) (sh : shm) : Prop :=
  match k with
  | NoShadow => True
  | FeShadow b v => v ∉ sm_vmaps sh
  | BeShadow q nq b v =>
      sm_nodes sh !! q = None ∧ mn_dma_buf nq = PTR b ∧ sm_bufs sh !! b = None ∧ v ∉ sm_vmaps sh
  end.

(** What the context says of them, [p] being the node of the front end; the buffers that
    the CPU may access. *)
Definition shadow_of (k : shadow_kind) (p : ptr) (cb : ctxt_back) (acc acc' : list ptr) : Prop :=
  match k with
  | NoShadow =>
      cb_shadow_ts cb = NULL ∧ cb_shadow_ts_node cb = None ∧ cb_is_fe_shadow cb = false ∧ acc' = acc
  | FeShadow b v =>
      cb_shadow_ts cb = PTR v ∧ cb_map cb = PTR v ∧ cb_shadow_ts_node cb = Some p ∧
      cb_is_fe_shadow cb = true ∧ acc' = b :: acc
  | BeShadow q nq b v =>
      cb_shadow_ts cb = PTR v ∧ cb_map cb = PTR v ∧ cb_shadow_ts_node cb = Some q ∧
      cb_is_fe_shadow cb = false ∧ acc' = b :: acc
  end.

(** What a failure leaves of them in the context: nothing, or, when the backend's answer
    about the queue is what has failed, the address of the driver's node, which has been
    freed. *)
Definition node_left (dbq_off : bool) (sh : shm) (cb : ctxt_back) : Prop :=
  cb_shadow_ts_node cb = None ∧ cb_is_fe_shadow cb = false ∨
  dbq_off = false ∧ cb_is_fe_shadow cb = true ∧
    ∃ p, cb_shadow_ts_node cb = Some p ∧ sm_nodes sh !! p = None.

(** The node of the front end, mapped or not. *)
Definition node_for (k : shadow_kind) (n : hgsl_mem_node) : Prop :=
  has_flag (mn_flags n) GSL_MEMFLAGS_PROTECTED = false ∧
  match k with
  | FeShadow b v => mn_dma_buf n = PTR b ∧ mn_vmapping n = PTR v ∧ mn_vmap_count n = 1
  | _ => mn_vmapping n = NULL ∧ mn_vmap_count n = 0
  end.

(** * Lemmas *)

Section fresh.
Context `{SharedMem}.

Abbreviation SM := (M shm).
Abbreviation Keeps := (Frames still_fresh).

Lemma keeps_modify (f : shm → shm) :
  (∀ s, sm_nodes (f s) = sm_nodes s ∧ sm_blocks (f s) = sm_blocks s ∧ sm_bufs (f s) = sm_bufs s ∧
    sm_sgts (f s) = sm_sgts s ∧ sm_protected (f s) = sm_protected s ∧ sm_vmaps (f s) = sm_vmaps s ∧
    sm_next (f s) = sm_next s) → Keeps (modify f).
Proof.
  intros Hf. apply frames_modify. intros s [[] ?]. destruct (Hf s) as (En & Eb & Eu & Es & Ep & Ev & Ex).
  split; [split; [split|]|]; rewrite ?En, ?Eb, ?Eu, ?Es, ?Ep, ?Ev, ?Ex; done || lia.
Qed.

#[export] Instance keeps_ask {A} (q : nat → A) : Keeps (SharedMem.ask q).
Proof. unfold SharedMem.ask. frames_tac. by apply keeps_modify. Qed.

#[export] Instance keeps_node p : Keeps (node p).
Proof. unfold node. frames_tac. Qed.

#[export] Instance keeps_set_node p f : Keeps (set_node p f).
Proof.
  intros s u s' E. unfold set_node in E. inv_run. unfold node in *. inv_run.
  match goal with E : of_option _ _ = _ |- _ => apply of_option_Some in E as [E ->] end.
  intros [[] ?]. split; [|done]. split; [split|]; try done. cbn.
  intros q. rewrite lookup_insert_is_Some. intros [->|[_ ?]]; eauto.
Qed.

(** A new address, and something put there. *)
Lemma keeps_fresh {A} (f : ptr → shm → shm) (k : ptr → SM A) :
  (∀ s p, shm_fresh s → sm_next s = p →
     shm_fresh (f p (s <| sm_next ::= Pos.succ |>)) ∧
     sm_next (f p (s <| sm_next ::= Pos.succ |>)) = Pos.succ p) →
  (∀ p, Keeps (k p)) → Keeps (p ← SharedMem.fresh; modify (f p) ;; k p).
Proof.
  intros Hf Hk s a s' E. unfold SharedMem.fresh in E. inv_run. intros Hs.
  destruct (Hf _ _ Hs eq_refl) as [Hf1 Hn1].
  match goal with E : k _ _ = _ |- _ => destruct (Hk _ _ _ _ E Hf1) as [? Hn] end.
  split; [done|]. cbn in *. rewrite Hn1 in Hn. lia.
Qed.

Ltac fresh_tac :=
  intros ? ? [[] ?] <-; split; [split; [split|]|]; cbn; try done;
  try solve [by apply shm_ok_old|by apply shm_ok_new|
    intros ? Hin; match goal with H : ∀ _, _ → (_ < _)%positive |- _ =>
      solve [specialize (H _ Hin); lia] end].

#[export] Instance keeps_alloc_pages o : Keeps (alloc_pages o).
Proof.
  unfold alloc_pages. apply frames_bind; [apply _..|]. intros []; [|apply _].
  apply keeps_fresh; [fresh_tac|apply _].
Qed.

#[export] Instance keeps_alloc_pages_loop o : Keeps (alloc_pages_loop o).
Proof. induction o; cbn [alloc_pages_loop]; frames_tac. Qed.

#[export] Instance keeps_hgsl_alloc_pages n : Keeps (hgsl_alloc_pages n).
Proof. unfold hgsl_alloc_pages, _dma_cache_op. frames_tac; by apply keeps_modify. Qed.

#[export] Instance keeps_sharedmem_loop n : ∀ req pages nents, Keeps (sharedmem_loop n req pages nents).
Proof. induction n; intros; cbn [sharedmem_loop]; frames_tac. Qed.

#[export] Instance keeps_export p : Keeps (hgsl_export_dma_buf p).
Proof.
  unfold hgsl_export_dma_buf. apply frames_bind; [apply _..|]. intros []; [|apply _]. cbn [negb].
  apply keeps_fresh; [fresh_tac|apply _].
Qed.

#[export] Instance keeps_zalloc io wc : Keeps (hgsl_mem_node_zalloc io wc).
Proof.
  unfold hgsl_mem_node_zalloc. apply frames_bind; [apply _..|]. intros []; [|apply _]. cbn [negb].
  apply keeps_fresh; [fresh_tac|apply _].
Qed.

#[export] Instance keeps_sharedmem_alloc size p : Keeps (hgsl_sharedmem_alloc size 0 p).
Proof.
  unfold hgsl_sharedmem_alloc. change (has_flag 0 GSL_MEMFLAGS_PROTECTED) with false. cbv iota zeta.
  frames_tac.
Qed.
End fresh.

(** ** One node more *)

Section own.
Context `{SharedMem}.

Lemma own_node base sh p n : own base sh p n → sm_nodes sh !! p = Some n.
Proof. intros (sA & n0 & cs & _ & Hh & _). exact (holding_node _ _ _ _ _ Hh). Qed.

Lemma own_new base sh p n : own base sh p n → sm_nodes base !! p = None.
Proof. intros (sA & n0 & cs & Ha & _). apply (ad_new _ _ _ _ Ha). Qed.

Lemma own_others base sh p n q : own base sh p n → q ≠ p → sm_nodes sh !! q = sm_nodes base !! q.
Proof.
  intros (sA & n0 & cs & Ha & Hh & _) Hq. rewrite (ho_nodes _ _ _ _ _ Hh), (ad_nodes _ _ _ _ Ha).
  by rewrite !lookup_insert_ne.
Qed.

Lemma own_bufs base sh p n :
  own base sh p n →
  match mn_dma_buf n with
  | NULL => sm_bufs sh = sm_bufs base
  | PTR b => sm_bufs sh = <[b := {| db_refs := 1; db_priv := Some p |}]> (sm_bufs base) ∧
      sm_bufs base !! b = None
  | ERR_PTR _ => False
  end.
Proof.
  intros (sA & n0 & cs & Ha & _ & _ & Hx). unfold exported in Hx.
  by destruct (mn_dma_buf n); [|done|]; rewrite (ad_bufs _ _ _ _ Ha) in Hx.
Qed.

Lemma own_vmaps base sh p n : own base sh p n → sm_vmaps sh = sm_vmaps base.
Proof.
  intros (sA & n0 & cs & Ha & Hh & _). by rewrite (ho_vmaps _ _ _ _ _ Hh), (ad_vmaps _ _ _ _ Ha).
Qed.

(** Fields of the node that say nothing of its memory. *)
Lemma own_update base sh p n n' :
  own base sh p n →
  mn_pages n' = mn_pages n → mn_page_count n' = mn_page_count n → mn_sgt n' = mn_sgt n →
  mn_sgt_refcount n' = mn_sgt_refcount n → mn_sgt_ext n' = mn_sgt_ext n → mn_flags n' = mn_flags n →
  mn_dma_buf n' = mn_dma_buf n →
  own base (sh <| sm_nodes ::= <[p := n']> |>) p n'.
Proof.
  intros (sA & n0 & cs & Ha & [] & Hl & Hx) E1 E2 E3 E4 E5 E6 E7. exists sA, n0, cs.
  split; [done|]. unfold locked, exported in *. rewrite E3, E4, E6, E7.
  split; [|by destruct (mn_sgt n), (mn_dma_buf n)].
  split; cbn; rewrite ?E1, ?E2, ?E5; try done. rewrite ho_nodes. apply insert_insert_eq.
Qed.

(** The base may change where the node is not. *)
Lemma own_vmap base sh p n f :
  own base sh p n → own (base <| sm_vmaps ::= f |>) (sh <| sm_vmaps ::= f |>) p n.
Proof.
  intros (sA & n0 & cs & [] & [] & Hl & Hx). exists (sA <| sm_vmaps ::= f |>), n0, cs.
  split_and!; try done; split; cbn; try done; congruence.
Qed.

Lemma own_other_node base sh p n q nq :
  own base sh p n → q ≠ p →
  own (base <| sm_nodes ::= <[q := nq]> |>) (sh <| sm_nodes ::= <[q := nq]> |>) p n.
Proof.
  intros (sA & n0 & cs & [] & [] & Hl & Hx) Hq.
  exists (sA <| sm_nodes ::= <[q := nq]> |>), n0, cs.
  split_and!; try done; split; cbn; try done.
  - by rewrite lookup_insert_ne.
  - rewrite ad_nodes. by apply insert_insert_ne.
  - rewrite ho_nodes. by apply insert_insert_ne.
Qed.

Lemma own_other_buf base sh p n b x :
  own base sh p n → mn_dma_buf n ≠ PTR b →
  own (base <| sm_bufs ::= <[b := x]> |>) (sh <| sm_bufs ::= <[b := x]> |>) p n.
Proof.
  intros (sA & n0 & cs & [] & [] & Hl & Hx) Hb.
  exists (sA <| sm_bufs ::= <[b := x]> |>), n0, cs.
  split_and!; try done; [by split; cbn; try done; congruence|]. unfold exported in *.
  destruct (mn_dma_buf n) as [| |b']; [cbn; congruence|done|]. destruct Hx as [Hx Hn]. cbn.
  assert (b ≠ b') by congruence. rewrite Hx, lookup_insert_ne by done. split; [|done].
  by apply insert_insert_ne.
Qed.

Lemma own_free_node base sh p n q :
  own base sh p n → q ≠ p →
  own (base <| sm_nodes ::= delete q |>) (sh <| sm_nodes ::= delete q |>) p n.
Proof.
  intros (sA & n0 & cs & [] & [] & Hl & Hx) Hq.
  exists (sA <| sm_nodes ::= delete q |>), n0, cs.
  split_and!; try done; split; cbn; try done.
  - by rewrite lookup_delete_ne.
  - rewrite ad_nodes. by apply delete_insert_ne.
  - rewrite ho_nodes. by apply delete_insert_ne.
Qed.

Lemma own_free_buf base sh p n b :
  own base sh p n → mn_dma_buf n ≠ PTR b →
  own (base <| sm_bufs ::= delete b |>) (sh <| sm_bufs ::= delete b |>) p n.
Proof.
  intros (sA & n0 & cs & [] & [] & Hl & Hx) Hb.
  exists (sA <| sm_bufs ::= delete b |>), n0, cs.
  split_and!; try done; [by split; cbn; try done; congruence|]. unfold exported in *.
  destruct (mn_dma_buf n) as [| |b']; [cbn; congruence|done|]. destruct Hx as [Hx Hn]. cbn.
  assert (b ≠ b') by congruence. rewrite Hx, lookup_delete_ne by done. split; [|done].
  by apply delete_insert_ne.
Qed.

(** Only these fields of the base count. *)
Record same_base (s s' : shm) : Prop := {
  sb_nodes : sm_nodes s' = sm_nodes s;
  sb_blocks : sm_blocks s' = sm_blocks s;
  sb_bufs : sm_bufs s' = sm_bufs s;
  sb_sgts : sm_sgts s' = sm_sgts s;
  sb_reclaimable : sm_reclaimable s' = sm_reclaimable s;
  sb_attached : sm_attached s' = sm_attached s;
  sb_vmaps : sm_vmaps s' = sm_vmaps s;
  sb_protected : sm_protected s' = sm_protected s }.

Lemma own_base base base' sh p n : own base sh p n → same_base base base' → own base' sh p n.
Proof.
  intros (sA & n0 & cs & [] & Hr) []. exists sA, n0, cs. split; [|done]. split; congruence.
Qed.

Lemma own_same base sh sh' p n : own base sh p n → same_base sh sh' → own base sh' p n.
Proof.
  intros (sA & n0 & cs & Ha & [] & Hl & Hx) [Sn Sb Su Sg Sr Sa Sv Sp]. exists sA, n0, cs. split; [done|].
  unfold locked, exported in *. rewrite Su, Sg, Sp.
  split; [|by destruct (mn_sgt n), (mn_dma_buf n)].
  split; rewrite ?Sn, ?Sb, ?Sr, ?Sa, ?Sv; done.
Qed.

Lemma own_free_run base sh p n :
  own base sh p n → ∃ sh', hgsl_sharedmem_free (Some p) sh = Some (tt, sh') ∧ same_memory base sh'.
Proof.
  intros (sA & n0 & cs & Ha & Hh & Hl & Hx).
  destruct (sharedmem_free_run _ _ _ _ _ Hh Hl Hx) as (sh' & E & Hr & Hp). exists sh'.
  split; [done|]. by eapply restored_same.
Qed.

Lemma own_alloc_run base sh p io wc fd size :
  shm_fresh sh → added_node base sh p (zeroed_node io wc) → is_u32 size →
  ∃ ret sh' n, hgsl_sharedmem_alloc size 0 p (sh <| sm_nodes ::= <[p := (zeroed_node io wc) <| mn_fd := fd |>]> |>) =
      Some (ret, sh') ∧ own base sh' p n ∧ shm_fresh sh' ∧ (sm_next sh ≤ sm_next sh')%positive ∧
    (ret = 0 → mn_dma_buf n ≠ NULL ∧ node_for NoShadow n ∧ mn_flags n = 0).
Proof.
  intros Hf Ha Hs. set (n0 := (zeroed_node io wc) <| mn_fd := fd |>).
  set (sA := sh <| sm_nodes ::= <[p := n0]> |>).
  pose proof (added_update _ _ _ _ n0 Ha) as HaA. fold sA in HaA.
  assert (shm_fresh sA) as HfA.
  { destruct Hf as [[] ?]. split; [split|]; try done. cbn. intros q.
    rewrite lookup_insert_is_Some. intros [->|[_ ?]]; [|eauto].
    apply so_nodes. rewrite (ad_nodes _ _ _ _ Ha), lookup_insert_eq. eauto. }
  destruct (sharedmem_alloc_run sA p n0 size 0) as (ret & sh' & n & cs & E & Hh & Hl & Hx & Hret); try done.
  { apply HfA. }
  { cbn. apply lookup_insert_eq. }
  exists ret, sh', n. split; [exact E|]. split; [by exists sA, n0, cs|].
  destruct (keeps_sharedmem_alloc _ _ _ _ _ E HfA) as [? Hle].
  split_and!; [done|exact Hle|]. intros ->. destruct (Hret eq_refl) as (? & Ef & _ & _ & _ & Ev & Ec).
  split; [done|]. split; [|done]. unfold node_for. by rewrite Ef, Ev, Ec.
Qed.
End own.

(** ** Mapping *)

Section map.
Context `{SharedMem}.

Lemma same_base_refl s : same_base s s.
Proof. by split. Qed.

Lemma shm_ask_run {A} (q : nat → A) (s : shm) :
  SharedMem.ask q s = Some (q (sm_clock s), s <| sm_clock ::= S |>).
Proof. done. Qed.

Lemma fresh_tick s : shm_fresh s → shm_fresh (s <| sm_clock ::= S |>).
Proof. intros [[] ?]. by split; [split|]. Qed.

Lemma fresh_set_node s p n n' :
  shm_fresh s → sm_nodes s !! p = Some n → shm_fresh (s <| sm_nodes ::= <[p := n']> |>).
Proof.
  intros Hf Hn. apply (keeps_set_node p (λ _, n') s tt); [|done]. by rewrite (set_node_run _ _ _ _ Hn).
Qed.

Lemma fresh_next (s s' : shm) :
  shm_fresh s → sm_nodes s' = sm_nodes s → sm_blocks s' = sm_blocks s → sm_bufs s' = sm_bufs s →
  sm_sgts s' = sm_sgts s → sm_protected s' = sm_protected s →
  sm_vmaps s' = sm_vmaps s ∪ {[sm_next s]} → sm_next s' = Pos.succ (sm_next s) → shm_fresh s'.
Proof.
  intros [[Hnn Hbb Huu Hss Hpp] Hvv] E1 E2 E3 E4 E5 E6 E7.
  split; [split|]; rewrite ?E1, ?E2, ?E3, ?E4, ?E5, ?E6, ?E7; try (by apply shm_ok_old).
  - intros q Hq. specialize (Hpp q Hq). lia.
  - intros v [Hv| ->%elem_of_singleton]%elem_of_union; [|lia]. specialize (Hvv v Hv). lia.
Qed.

Lemma fresh_vmap s : shm_fresh s → sm_next s ∉ sm_vmaps s.
Proof. intros [_ Hv] Hin. specialize (Hv _ Hin). lia. Qed.

Lemma vmap_own_run base sh p n b :
  shm_fresh sh → own base sh p n → node_for NoShadow n → mn_dma_buf n = PTR b →
  ∃ ret map sh' n', dma_buf_vmap (PTR b) sh = Some ((ret, map), sh') ∧ shm_fresh sh' ∧
    mn_dma_buf n' = PTR b ∧ mn_flags n' = mn_flags n ∧
    (ret ≠ 0 ∧ own base sh' p n' ∧ node_for NoShadow n' ∨
     ret = 0 ∧ ∃ v, map = PTR v ∧ (v ∉ sm_vmaps base) ∧
       own (with_shadow (FeShadow b v) base) sh' p n' ∧ node_for (FeShadow b v) n').
Proof.
  intros Hf Ho (Hfl & Hm & Hc) Hb. pose proof (own_node _ _ _ _ Ho) as Hn.
  pose proof (own_bufs _ _ _ _ Ho) as Hbuf. rewrite Hb in Hbuf. destruct Hbuf as [Hbuf _].
  unfold dma_buf_vmap.
  rewrite (bind_run _ _ sh (Some {| db_refs := 1; db_priv := Some p |}) sh)
    by (unfold gets; by rewrite Hbuf, lookup_insert_eq).
  rewrite (bind_run _ _ sh {| db_refs := 1; db_priv := Some p |} sh) by done. cbn [db_priv].
  unfold hgsl_mem_dma_buf_vmap. rewrite (bind_run _ _ _ _ _ (node_run _ _ _ Hn)).
  rewrite Hfl, Hm. cbn [IS_ERR_OR_NULL].
  set (sh1 := sh <| sm_clock ::= S |>).
  assert (own base sh1 p n) as Ho1 by (eapply own_same; [exact Ho|by split]).
  assert (shm_fresh sh1) as Hf1 by by apply fresh_tick.
  destruct (shm_vmap (sm_clock sh)) eqn:Ev.
  - set (v := sm_next sh). set (n1 := n <| mn_vmapping := PTR v |>).
    set (n2 := n1 <| mn_vmap_count ::= λ c, u32 (c + 1) |>).
    set (sh2 := sh1 <| sm_next ::= Pos.succ |> <| sm_vmaps ::= union {[v]} |>).
    set (sh3 := sh2 <| sm_nodes ::= <[p := n1]> |>).
    set (sh4 := sh3 <| sm_nodes ::= <[p := n2]> |>).
    assert (sm_nodes sh3 !! p = Some n1) as Hn3 by apply lookup_insert_eq.
    assert (sm_nodes sh4 !! p = Some n2) as Hn4 by apply lookup_insert_eq.
    exists 0, (PTR v), sh4, n2.
    assert (shm_fresh sh2) as Hf2 by (by apply (fresh_next sh); try done; cbn; rewrite (comm_L union)).
    split; [|split; [by eapply fresh_set_node, Hn3; eapply fresh_set_node, Hn|split_and!; try done]].
    + rewrite (bind_run _ _ sh tt sh3).
      2:{ rewrite (bind_run _ _ _ _ _ (shm_ask_run shm_vmap sh)), Ev.
          exact (set_node_run p _ sh2 n Hn). }
      rewrite (bind_run _ _ _ _ _ (node_run _ _ _ Hn3)).
      change (IS_ERR_OR_NULL (mn_vmapping n1)) with false. cbn [negb].
      rewrite (bind_run _ _ sh3 tt sh4) by exact (set_node_run p _ sh3 n1 Hn3).
      reflexivity.
    + right. split; [done|]. exists v. split; [done|]. split.
      { rewrite <- (own_vmaps _ _ _ _ Ho). by apply fresh_vmap. }
      split; [|split_and!; try done; cbn; by rewrite Hc].
      apply (own_update _ _ _ n1); [|done..]. apply (own_update _ _ _ n); [|done..].
      eapply own_same; [apply own_vmap, Ho|by split].
  - set (n1 := n <| mn_vmapping := NULL |>). set (sh2 := sh1 <| sm_nodes ::= <[p := n1]> |>).
    assert (sm_nodes sh2 !! p = Some n1) as Hn2 by apply lookup_insert_eq.
    exists (- ENOMEM), NULL, sh2, n1. split.
    + rewrite (bind_run _ _ sh tt sh2).
      2:{ rewrite (bind_run _ _ _ _ _ (shm_ask_run shm_vmap sh)), Ev. exact (set_node_run p _ sh1 n Hn). }
      rewrite (bind_run _ _ _ _ _ (node_run _ _ _ Hn2)).
      change (IS_ERR_OR_NULL (mn_vmapping n1)) with true. cbn [negb].
      by rewrite (bind_run _ _ sh2 tt sh2).
    + split; [by eapply fresh_set_node, Hn|]. split_and!; try done. left. split_and!; try done.
      by apply (own_update _ _ _ n).
Qed.

Lemma vunmap_own_run base sh p n b v map :
  shm_fresh sh → own (with_shadow (FeShadow b v) base) sh p n → node_for (FeShadow b v) n →
  v ∉ sm_vmaps base →
  ∃ sh' n', dma_buf_vunmap (PTR b) map sh = Some (tt, sh') ∧ shm_fresh sh' ∧
    own base sh' p n' ∧ node_for NoShadow n' ∧ mn_dma_buf n' = PTR b.
Proof.
  intros Hf Ho (Hfl & Hb & Hm & Hc) Hv. pose proof (own_node _ _ _ _ Ho) as Hn.
  pose proof (own_bufs _ _ _ _ Ho) as Hbuf. rewrite Hb in Hbuf. destruct Hbuf as [Hbuf _].
  unfold dma_buf_vunmap.
  rewrite (bind_run _ _ sh (Some {| db_refs := 1; db_priv := Some p |}) sh)
    by (unfold gets; by rewrite Hbuf, lookup_insert_eq).
  rewrite (bind_run _ _ sh {| db_refs := 1; db_priv := Some p |} sh) by done. cbn [db_priv].
  unfold hgsl_mem_dma_buf_vunmap. rewrite (bind_run _ _ _ _ _ (node_run _ _ _ Hn)).
  rewrite Hfl, Hm, Hc. change (1 =? 0) with false. cbv iota.
  set (n1 := n <| mn_vmap_count ::= Z.pred |>). set (n2 := n1 <| mn_vmapping := NULL |>).
  set (sh1 := sh <| sm_nodes ::= <[p := n1]> |>).
  rewrite (bind_run _ _ sh tt sh1) by exact (set_node_run p _ sh n Hn).
  change (1 - 1 =? 0) with true. cbv iota.
  set (sh2 := sh1 <| sm_vmaps ::= λ vs, vs ∖ {[v]} |>).
  set (sh3 := sh2 <| sm_nodes ::= <[p := n2]> |>).
  assert (sm_nodes sh2 !! p = Some n1) as Hn2 by apply lookup_insert_eq.
  exists sh3, n2. split.
  { rewrite (bind_run _ _ sh1 tt sh2) by done. exact (set_node_run p _ sh2 n1 Hn2). }
  split.
  { eapply fresh_set_node, Hn2. assert (shm_fresh sh1) as [[] Hvs] by by eapply fresh_set_node.
    split; [by split|]. intros w Hw. apply Hvs. cbn in Hw. set_solver. }
  split; [|split; [split; [exact Hfl|split; [done|]]|exact Hb]; cbn; rewrite Hc; done].
  apply (own_update _ _ _ n1); [|done..].
  apply (own_base ((with_shadow (FeShadow b v) base) <| sm_vmaps ::= λ vs, vs ∖ {[v]} |>)).
  - apply own_vmap. by apply (own_update _ _ _ n).
  - split; try done. cbn. set_solver.
Qed.

Lemma vmap_import_run sh b :
  sm_bufs sh !! b = Some {| db_refs := 1; db_priv := None |} →
  ∃ ret map sh', dma_buf_vmap (PTR b) sh = Some ((ret, map), sh') ∧
    (ret ≠ 0 ∧ sh' = sh <| sm_clock ::= S |> ∨
     ret = 0 ∧ map = PTR (sm_next sh) ∧
       sh' = sh <| sm_clock ::= S |> <| sm_next ::= Pos.succ |>
               <| sm_vmaps ::= union {[sm_next sh]} |>).
Proof.
  intros Hb. unfold dma_buf_vmap.
  rewrite (bind_run _ _ sh (Some {| db_refs := 1; db_priv := None |}) sh) by (unfold gets; by rewrite Hb).
  rewrite (bind_run _ _ sh {| db_refs := 1; db_priv := None |} sh) by done. cbn [db_priv].
  rewrite (bind_run _ _ _ _ _ (shm_ask_run shm_vmap sh)).
  destruct (shm_vmap (sm_clock sh)); cbn [negb].
  - eexists _, _, _. split; [reflexivity|]. by right.
  - eexists _, _, _. split; [reflexivity|]. by left.
Qed.

Lemma vunmap_import_run sh b v :
  sm_bufs sh !! b = Some {| db_refs := 1; db_priv := None |} →
  dma_buf_vunmap (PTR b) (PTR v) sh = Some (tt, sh <| sm_vmaps ::= λ vs, vs ∖ {[v]} |>).
Proof.
  intros Hb. unfold dma_buf_vunmap.
  rewrite (bind_run _ _ sh (Some {| db_refs := 1; db_priv := None |}) sh) by (unfold gets; by rewrite Hb).
  by rewrite (bind_run _ _ sh {| db_refs := 1; db_priv := None |} sh) by done.
Qed.
End map.

(** ** Steps *)

Section steps.
Context `{Rbtree} `{SharedMem} `{Hab} `{MemEnv}.

(** A channel held over several calls, in the middle of one of them. *)
Definition held_at (hy0 : hgsl_hyp_priv_t) (c : ptr) (P : hgsl_hab_channel_t → Prop)
    (hy : hgsl_hyp_priv_t) : Prop :=
  held hy0 c hy ∧ ∃ ch, hy_channels hy !! c = Some ch ∧ P ch.

Lemma held_at_step {A} (m : M _ A) c P ms Q hy0 hy :
  hoare c P ms m Q → (∀ a ch, Q a ch → idle ch) → held_at hy0 c P hy →
  ∃ a hy', m hy = Some (a, hy') ∧ held_at hy0 c (Q a) hy'.
Proof.
  intros Hm HQ [[Hset Hi Hb Hn (ch0 & Hc0 & _ & Hbu) Ho] (ch & Hc & HP)].
  rewrite Hc in Hc0. injection Hc0 as <-.
  destruct (Hm hy ch Hc HP) as (a & hy' & ch' & E & Hs & Hc' & Hq).
  destruct (so_chan _ _ _ _ Hs ch Hc) as (ch2 & Hc2 & _ & Hb2).
  rewrite Hc' in Hc2. injection Hc2 as <-.
  exists a, hy'. split; [done|]. split; [|by exists ch']. split; try done.
  - assert (idle ch') by by eapply HQ.
    eapply (pool_step [] c ms hy hy' ch); try done. right. rewrite Hb. set_solver.
  - by rewrite (so_busy _ _ _ _ Hs).
  - exists ch'. split_and!; [done|by eapply HQ|congruence].
  - intros c' Hin. rewrite (so_others _ _ _ _ Hs) by (by intros ->). by apply Ho.
Qed.

Lemma held_at_call {A} φ (m : M _ A) hy0 c P hy :
  held_ok φ c m → held_at hy0 c P hy → ∃ a hy', m hy = Some (a, hy') ∧ held_at hy0 c idle hy'.
Proof.
  intros Hm [Hh _]. destruct (held_call _ _ _ _ _ Hm Hh) as (a & hy' & E & Hh').
  exists a, hy'. split; [done|]. split; [done|]. destruct (hd_chan _ _ _ Hh') as (ch & ? & ? & _). by exists ch.
Qed.

Lemma held_at_mono hy0 c (P P' : _ → Prop) hy :
  held_at hy0 c P hy → (∀ ch, P ch → P' ch) → held_at hy0 c P' hy.
Proof. intros [? (ch & ? & ?)] HP. split; [done|]. exists ch. eauto. Qed.

(** A value that is not read is an error. *)
Lemma hoare_recv_strict {V} c type size n (f : list Z → V) m :
  m = ('(ret, v) ← read_arg type size; mret (ret, f <$> v)) →
  0 ≤ size → n + size + 20 ≤ 4096 →
  hoare c (reading n) no_sends (on_recv c (λ _, m))
    (λ r ch, (r.2 = None → r.1 ≠ 0) ∧ reading (n + size + 20) ch).
Proof.
  intros -> Hs Hn. apply hoare_on_recv. intros malloc ch _ [Hi Hp].
  destruct (read_arg_some type size (ch_recv_buf ch)) as (ret & v & p' & E & Hp' & Hpos & _ & Hnone);
    [apply Hi|done|lia|].
  eexists _, p'. split; [by rewrite (bind_run _ _ _ _ _ E)|]. split.
  - destruct v; [by intros [=]|intros _; by apply Hnone].
  - apply reading_recv; [done..|lia].
Qed.

Lemma hoare_int32_strict c n :
  n + 24 ≤ 4096 →
  hoare c (reading n) no_sends (recv_int32 c) (λ r ch, (r.2 = None → r.1 ≠ 0) ∧ reading (n + 24) ch).
Proof. intros Hn. replace (n + 24) with (n + 4 + 20) in * by lia. by eapply hoare_recv_strict. Qed.

Lemma hoare_uint32_strict c n :
  n + 24 ≤ 4096 →
  hoare c (reading n) no_sends (recv_uint32 c) (λ r ch, (r.2 = None → r.1 ≠ 0) ∧ reading (n + 24) ch).
Proof. intros Hn. replace (n + 24) with (n + 4 + 20) in * by lia. by eapply hoare_recv_strict. Qed.

Lemma hoare_blob_strict c n len :
  0 ≤ len → n + len + 20 ≤ 4096 →
  hoare c (reading n) no_sends (recv_blob c len)
    (λ r ch, (r.2 = None → r.1 ≠ 0) ∧ reading (n + len + 20) ch).
Proof.
  intros Hl Hn. apply hoare_on_recv. intros malloc ch _ [Hi Hp].
  destruct (read_arg_some GSL_RPC_BLOB_DATA len (ch_recv_buf ch))
    as (ret & v & p' & E & Hp' & Hpos & _ & Hnone); [apply Hi|done|lia|].
  eexists _, p'. split; [exact E|]. split; [exact Hnone|]. apply reading_recv; [done..|lia].
Qed.

Context (s0 : creation) (hy0 : hgsl_hyp_priv_t) (c : ptr).

(** The creation with its changing parts; the rest of the process is that of [s0]. *)
Definition st hy sh cb h i acc : creation :=
  {| cr_dev := (cr_dev s0) <| md_hyp := hy |> <| md_shm := sh |>; cr_ctxt := cb;
     cr_ctxthandle := h; cr_dbq_info := i; cr_access := acc |}.

Lemma hyp_st {A} (m : M _ A) hy sh cb h i acc a hy' :
  m hy = Some (a, hy') → hyp m (st hy sh cb h i acc) = Some (a, st hy' sh cb h i acc).
Proof. intros E. unfold hyp, on_dev, on_hyp. cbn. by rewrite E. Qed.

Lemma mem_st {A} (m : M _ A) hy sh cb h i acc a sh' :
  m sh = Some (a, sh') → mem m (st hy sh cb h i acc) = Some (a, st hy sh' cb h i acc).
Proof. intros E. unfold mem, on_dev, on_shm. cbn. by rewrite E. Qed.

Lemma wp_hyp {A B} (m : M _ A) (k : A → M creation B) P ms Q K hy sh cb h i acc :
  hoare c P ms m Q → (∀ a ch, Q a ch → idle ch) → held_at hy0 c P hy →
  (∀ a hy', held_at hy0 c (Q a) hy' → wp (k a) K (st hy' sh cb h i acc)) →
  wp (hyp m ≫= k) K (st hy sh cb h i acc).
Proof.
  intros Hm HQ Hh Hk. destruct (held_at_step _ _ _ _ _ _ _ Hm HQ Hh) as (a & hy' & E & Hh').
  unfold wp. rewrite (bind_run _ _ _ _ _ (hyp_st _ _ _ _ _ _ _ _ _ E)). by apply Hk.
Qed.

Lemma wp_call {A B} φ (m : M _ A) (k : A → M creation B) P K hy sh cb h i acc :
  held_ok φ c m → held_at hy0 c P hy →
  (∀ a hy', held_at hy0 c idle hy' → wp (k a) K (st hy' sh cb h i acc)) →
  wp (hyp m ≫= k) K (st hy sh cb h i acc).
Proof.
  intros Hm Hh Hk. destruct (held_at_call _ _ _ _ _ _ Hm Hh) as (a & hy' & E & Hh').
  unfold wp. rewrite (bind_run _ _ _ _ _ (hyp_st _ _ _ _ _ _ _ _ _ E)). by apply Hk.
Qed.

Lemma wp_mem {A B} (m : M _ A) (k : A → M creation B) K hy sh cb h i acc a sh' :
  m sh = Some (a, sh') → wp (k a) K (st hy sh' cb h i acc) →
  wp (mem m ≫= k) K (st hy sh cb h i acc).
Proof. intros E Hk. unfold wp. by rewrite (bind_run _ _ _ _ _ (mem_st _ _ _ _ _ _ _ _ _ E)). Qed.

Lemma wp_or_out (m k : M creation Z) K s :
  wp m (λ ret s', (ret = 0 → wp k K s') ∧ (ret ≠ 0 → K ret s')) s → wp (or_out m k) K s.
Proof.
  intros Hm. apply wp_bind. eapply wp_mono; [exact Hm|]. intros ret s' [Hz Hnz].
  destruct (Z.eqb_spec ret 0); [by apply Hz|by apply Hnz].
Qed.

Lemma wp_read {V} (m : M _ (Z * option V)) (k : V → M creation Z) P P' ms K hy sh cb h i acc :
  hoare c P ms m (λ r ch, (r.2 = None → r.1 ≠ 0) ∧ P' ch) → (∀ ch, P' ch → idle ch) →
  held_at hy0 c P hy →
  (∀ ret hy', ret ≠ 0 → held_at hy0 c P' hy' → K ret (st hy' sh cb h i acc)) →
  (∀ v hy', held_at hy0 c P' hy' → wp (k v) K (st hy' sh cb h i acc)) →
  wp (read_or_out (hyp m) k) K (st hy sh cb h i acc).
Proof.
  intros Hm HP Hh Hout Hk. eapply wp_hyp; [exact Hm|by intros ? ? [_ ?%HP]|done|].
  intros [ret [v|]] hy' Hh'.
  - apply Hk. eapply held_at_mono; [exact Hh'|]. by intros ? [].
  - destruct Hh' as [Hh' (ch & Hc & Hn & Hp)]. apply Hout; [by apply Hn|]. split; eauto.
Qed.

Lemma wp_begin {B} b (k : unit → M creation B) K hy sh cb h i acc :
  wp (k tt) K (st hy sh cb h i (b :: acc)) → wp (begin_cpu_access (PTR b) ≫= k) K (st hy sh cb h i acc).
Proof. done. Qed.

Lemma wp_end {B} b (k : unit → M creation B) K hy sh cb h i acc :
  wp (k tt) K (st hy sh cb h i acc) → wp (end_cpu_access (PTR b) ≫= k) K (st hy sh cb h i (b :: acc)).
Proof.
  intros Hk. unfold wp. rewrite (bind_run _ _ _ tt (st hy sh cb h i acc)); [done|].
  unfold end_cpu_access, modify, st. cbn. by rewrite decide_True.
Qed.

Lemma wp_end_ret b (K : unit → creation → Prop) hy sh cb h i acc :
  K tt (st hy sh cb h i acc) → wp (end_cpu_access (PTR b)) K (st hy sh cb h i (b :: acc)).
Proof. intros Hk. unfold wp, end_cpu_access, modify, st. cbn. by rewrite decide_True. Qed.

Lemma wp_set_ctxt {B} f (k : unit → M creation B) K hy sh cb h i acc :
  wp (k tt) K (st hy sh (f cb) h i acc) → wp (set_ctxt f ≫= k) K (st hy sh cb h i acc).
Proof. done. Qed.

Lemma wp_ctxt {B} (k : ctxt_back → M creation B) K hy sh cb h i acc :
  wp (k cb) K (st hy sh cb h i acc) → wp (ctxt ≫= k) K (st hy sh cb h i acc).
Proof. done. Qed.

Lemma wp_set_handle {B} h' (k : unit → M creation B) K hy sh cb h i acc :
  wp (k tt) K (st hy sh cb h' i acc) → wp (set_handle h' ≫= k) K (st hy sh cb h i acc).
Proof. done. Qed.

(** ** The first call *)

(** Between the allocation of the node at [p] and the label out. *)
Record creating (k : shadow_kind) (p : ptr) (sh : shm) (cb : ctxt_back) (acc : list ptr) : Prop := {
  cg_node : ∃ n, own (with_shadow k (md_shm (cr_dev s0))) sh p n ∧ node_for k n ∧
    mn_dma_buf n ≠ NULL;
  cg_new : new_shadow k (md_shm (cr_dev s0));
  cg_shadow : shadow_of k p cb (cr_access s0) acc;
  cg_fresh : shm_fresh sh }.

Lemma creating_clock k p sh sh' cb acc :
  creating k p sh cb acc → same_base sh sh' → shm_fresh sh' → creating k p sh' cb acc.
Proof.
  intros [(n & Ho & Hn) ? ? ?] Hs Hf. split; try done. exists n. split; [|done]. by eapply own_same.
Qed.

(** The node changes in what the backend says of it. *)
Lemma creating_described k p sh cb acc n n' :
  creating k p sh cb acc → sm_nodes sh !! p = Some n → described n n' →
  creating k p (sh <| sm_nodes ::= <[p := n']> |>) cb acc.
Proof.
  intros [(n1 & Ho & Hf & Hd) ? ? Hfr] Hn (? & ? & ? & ? & ? & ? & ? & ->).
  pose proof (own_node _ _ _ _ Ho) as Hn1. rewrite Hn in Hn1. injection Hn1 as <-.
  split; try done; [|by eapply fresh_set_node]. eexists. split; [by eapply own_update|]. by destruct k.
Qed.

Lemma creating_node k p sh cb acc :
  creating k p sh cb acc → ∃ n, sm_nodes sh !! p = Some n ∧ mn_dma_buf n ≠ NULL.
Proof. intros [(n & Ho & _ & Hd) _ _ _]. exists n. split; [by eapply own_node|done]. Qed.

Abbreviation Held := (held_at hy0 c).

Lemma assign_wp p hy sh cb h i acc (K : Z → creation → Prop) :
  creating NoShadow p sh cb acc →
  (∀ ret sh' cb' acc' k, creating k p sh' cb' acc' →
     (k = NoShadow ∧ cb' = cb ∧ ret ≠ 0 ∨
      ret = 0 ∧ ∃ b v, k = FeShadow b v ∧
        cb' = (set_shadow p (PTR v) GSL_FLAGS_INITIALIZED cb) <| cb_is_fe_shadow := true |>) →
     K ret (st hy sh' cb' h i acc')) →
  wp (assign_shadow_ts_cpu_addr_memstore p) K (st hy sh cb h i acc).
Proof.
  intros [(n & Ho & Hnf & Hd) Hnew Hsh Hf] HK. pose proof (own_node _ _ _ _ Ho) as Hn.
  pose proof (own_bufs _ _ _ _ Ho) as Hbuf.
  destruct (mn_dma_buf n) as [| |b] eqn:Eb; [done|done|].
  unfold assign_shadow_ts_cpu_addr_memstore. eapply wp_mem; [exact (node_run _ _ _ Hn)|].
  rewrite Eb. cbn [is_null]. apply (wp_begin b).
  destruct (vmap_own_run _ sh p n b Hf Ho Hnf Eb) as (ret & map & sh3 & n3 & E3 & Hf3 & Hb3 & _ & Hcase).
  eapply wp_mem; [exact E3|]. cbv beta iota.
  destruct Hcase as [(Hr & Ho3 & Hn3)|(-> & v & -> & Hv & Ho3 & Hn3)].
  - rewrite (proj2 (Z.eqb_neq _ _) Hr). cbn [negb]. apply (wp_end b), wp_ret.
    apply (HK (- EFAULT) sh3 cb acc NoShadow); [|by left].
    split; try done. exists n3. split; [done|]. split; [done|]. by rewrite Hb3.
  - change (negb (0 =? 0)) with false. cbv iota.
    apply wp_set_ctxt, wp_ret. set (cb' := (set_shadow p (PTR v) GSL_FLAGS_INITIALIZED cb) <| cb_is_fe_shadow := true |>).
    apply (HK 0 sh3 cb' (b :: acc) (FeShadow b v)); [|right; split; [done|by exists b, v]].
    destruct Hsh as (_ & _ & _ & ->). split; try done. exists n3. split; [done|]. split; [done|]. by rewrite Hb3.
Qed.

Lemma read_fe_wp p hy sh cb h i acc (K : Z → creation → Prop) n :
  Held (reading n) hy → n ≤ 1000 → creating NoShadow p sh cb acc →
  (∀ ret hy' sh' cb' acc' k, Held (reading (n + 200)) hy' → creating k p sh' cb' acc' →
     (k = NoShadow ∧ cb' = cb ∧ ret ≠ 0 ∨
      ret = 0 ∧ ∃ b v, k = FeShadow b v ∧
        cb' = (set_shadow p (PTR v) GSL_FLAGS_INITIALIZED cb) <| cb_is_fe_shadow := true |>) →
     K ret (st hy' sh' cb' h i acc')) →
  wp (read_shadowts_mem_fe c p) K (st hy sh cb h i acc).
Proof.
  intros Hh Hn Hc HK.
  assert (∀ m, m ≤ n + 200 → ∀ ch, reading m ch → reading (n + 200) ch) as Hle.
  { intros m Hm ch []. split; [done|lia]. }
  unfold read_shadowts_mem_fe.
  eapply wp_read; [apply (hoare_int32_strict _ n); lia|apply reading_idle_of|done| |].
  { intros ret hy' Hr Hh'. apply (HK ret hy' sh cb acc NoShadow); [|done|by left].
    eapply held_at_mono; [exact Hh'|apply Hle; lia]. }
  intros rval hy1 Hh1. destruct (negb (rval =? GSL_SUCCESS)).
  { apply wp_ret. apply (HK (- EINVAL) hy1 sh cb acc NoShadow); [|done|by left].
    eapply held_at_mono; [exact Hh1|apply Hle; lia]. }
  eapply wp_read; [apply (hoare_blob_strict _ (n + 24)); unfold sizeof_gsl_memdesc_t; lia|
    apply reading_idle_of|done| |].
  { intros ret hy' Hr Hh'. apply (HK ret hy' sh cb acc NoShadow); [|done|by left].
    eapply held_at_mono; [exact Hh'|apply Hle; unfold sizeof_gsl_memdesc_t; lia]. }
  intros memdesc hy2 Hh2.
  assert (Held (reading (n + 200)) hy2) as Hh2'.
  { eapply held_at_mono; [exact Hh2|apply Hle; unfold sizeof_gsl_memdesc_t; lia]. }
  destruct (creating_node _ _ _ _ _ Hc) as (n1 & Hn1 & Hd1).
  assert (described n1 (set_memdesc memdesc n1)) as Hde by (by exists (mn_export_id n1); repeat eexists).
  pose proof (creating_described _ _ _ _ _ _ _ Hc Hn1 Hde) as Hc2.
  eapply wp_mem; [exact (set_node_run p _ sh n1 Hn1)|].
  eapply wp_mem; [apply node_run, lookup_insert_eq|].
  change (mn_dma_buf (set_memdesc memdesc n1)) with (mn_dma_buf n1).
  destruct (is_null (mn_dma_buf n1)) eqn:Ez; [by destruct (mn_dma_buf n1)|].
  eapply assign_wp; [exact Hc2|]. intros ret sh3 cb3 acc3 k Hc3 Hcase. by eapply HK.
Qed.

(** A second node, for a buffer of the backend, and the buffer. *)
Definition with_node (q : ptr) (nq : hgsl_mem_node) (sh : shm) : shm :=
  sh <| sm_nodes ::= <[q := nq]> |>.

Definition with_import (q : ptr) (nq : hgsl_mem_node) (b : ptr) (sh : shm) : shm :=
  with_node q nq sh <| sm_bufs ::= <[b := {| db_refs := 1; db_priv := None |}]> |>.

(** The node of the front end, on what is now below it. *)
Record beside (base : shm) (p : ptr) (sh : shm) : Prop := {
  be_node : ∃ n, own base sh p n ∧ node_for NoShadow n ∧ mn_dma_buf n ≠ NULL;
  be_fresh : shm_fresh sh }.

Lemma beside_same base p sh sh' : beside base p sh → same_base sh sh' → shm_fresh sh' → beside base p sh'.
Proof. intros [(n & Ho & Hn) _] Hs Hf. split; [|done]. exists n. split; [by eapply own_same|done]. Qed.

Lemma beside_base base base' p sh : beside base p sh → same_base base base' → beside base' p sh.
Proof. intros [(n & Ho & Hn) ?] Hs. split; [|done]. exists n. split; [by eapply own_base|done]. Qed.

Lemma fresh_free_node s q : shm_fresh s → shm_fresh (s <| sm_nodes ::= delete q |>).
Proof.
  intros [[Hn ? ? ? ?] ?]. split; [split|]; try done. cbn. intros x [y Hx].
  apply Hn. apply lookup_delete_Some in Hx as [_ Hx]. eauto.
Qed.

Lemma fresh_free_buf s b : shm_fresh s → shm_fresh (s <| sm_bufs ::= delete b |>).
Proof.
  intros [[? ? Hb ? ?] ?]. split; [split|]; try done. cbn. intros x [y Hx].
  apply Hb. apply lookup_delete_Some in Hx as [_ Hx]. eauto.
Qed.

Lemma beside_free_node base p sh q nq :
  beside (with_node q nq base) p sh → sm_nodes base !! q = None →
  beside base p (sh <| sm_nodes ::= delete q |>).
Proof.
  intros [(n & Ho & Hn) Hf] Hq.
  assert (q ≠ p) as Hqp.
  { intros ->. pose proof (own_new _ _ _ _ Ho) as E. cbn in E. by rewrite lookup_insert_eq in E. }
  split; [|by apply fresh_free_node]. exists n. split; [|done].
  eapply own_base; [by apply own_free_node|]. split; try done. cbn. by rewrite delete_insert_id.
Qed.

Lemma beside_unimport base p sh q nq b :
  beside (with_import q nq b base) p sh → sm_bufs base !! b = None →
  beside (with_node q nq base) p (sh <| sm_bufs ::= delete b |>).
Proof.
  intros [(n & Ho & Hnf & Hd) Hf] Hb.
  assert (mn_dma_buf n ≠ PTR b) as Hnb.
  { intros E. pose proof (own_bufs _ _ _ _ Ho) as Ho'. rewrite E in Ho'. destruct Ho' as [_ E'].
    cbn in E'. by rewrite lookup_insert_eq in E'. }
  split; [|by apply fresh_free_buf]. exists n. split; [|done].
  eapply own_base; [by apply own_free_buf|]. split; try done. cbn. by rewrite delete_insert_id.
Qed.

Lemma beside_unimport_twice base p sh q nq b :
  beside (with_node q nq base) p sh → sm_bufs sh !! b = None →
  beside (with_node q nq base) p (sh <| sm_bufs ::= delete b |>).
Proof.
  intros Hb E. eapply beside_same; [exact Hb| |by apply fresh_free_buf, (be_fresh _ _ _ Hb)].
  split; try done. cbn. by rewrite delete_id.
Qed.

(** The node of the backend is set up. *)
Lemma beside_set_node base p sh q nq nq' :
  beside (with_node q nq base) p sh → sm_nodes sh !! q = Some nq →
  beside (with_node q nq' base) p (sh <| sm_nodes ::= <[q := nq']> |>).
Proof.
  intros [(n & Ho & Hn) Hf] Hq.
  assert (q ≠ p) as Hqp.
  { intros ->. pose proof (own_new _ _ _ _ Ho) as E. cbn in E. by rewrite lookup_insert_eq in E. }
  split; [|by eapply fresh_set_node]. exists n. split; [|done].
  eapply own_base; [exact (own_other_node _ _ _ _ q nq' Ho Hqp)|]. split; try done. cbn.
  by rewrite insert_insert_eq.
Qed.

Lemma beside_import base p sh q nq :
  beside (with_node q nq base) p sh →
  let b := sm_next sh in
  let sh' := sh <| sm_next ::= Pos.succ |> <| sm_bufs ::= <[b := {| db_refs := 1; db_priv := None |}]> |> in
  imported (Some b) sh = Some (PTR b, sh') ∧ beside (with_import q nq b base) p sh' ∧
  sm_bufs base !! b = None.
Proof.
  intros [(n & Ho & Hnf & Hd) Hf] b sh'. split; [reflexivity|].
  assert (sm_bufs sh !! b = None) as Hb.
  { destruct (sm_bufs sh !! b) eqn:E; [|done]. pose proof (so_bufs _ (fr_ok _ Hf) _ (mk_is_Some _ _ E)).
    subst b. lia. }
  pose proof (own_bufs _ _ _ _ Ho) as Hbufs.
  assert (mn_dma_buf n ≠ PTR b ∧ sm_bufs base !! b = None) as [Hnb Hbb].
  { destruct (mn_dma_buf n) as [| |b'] eqn:Eb; [done|done|]. destruct Hbufs as [E _].
    rewrite E in Hb. cbn in Hb. destruct (decide (b = b')) as [->|Hne].
    - by rewrite lookup_insert_eq in Hb.
    - rewrite lookup_insert_ne in Hb by done. split; [congruence|done]. }
  split; [|done]. split.
  - exists n. split; [|done]. eapply own_same; [exact (own_other_buf _ _ _ _ b {| db_refs := 1; db_priv := None |} Ho Hnb)|].
    by split.
  - destruct Hf as [[? ? Hbu ? Hp] Hv]. split; [split|]; cbn; try (by apply shm_ok_old); [by apply shm_ok_new|..].
    + intros x Hx. specialize (Hp x Hx). lia.
    + intros x Hx. specialize (Hv x Hx). lia.
Qed.

Lemma unimport_held c' φ n :
  φ (message RPC_PUT_SHADOWMEM 0 [Blob (params (u32s [mn_export_id n]))]) →
  held_ok φ c' (hgsl_hyp_put_shadowts_mem (Some c') n).
Proof.
  intros Hφ. apply (held_on_channel φ c' tt (λ c, _ ← habmm_unimport c (mn_export_id n);
    call tt RPC_PUT_SHADOWMEM c [Blob (params (u32s [mn_export_id n]))] (success tt c (mret (0, tt))))).
  apply body_ok_bind; [apply hoare_unimport|]. intros _. apply body_ok_call; [|done|].
  - unfold fits_message, encode. cbn -[frame params u32s le_bytes].
    rewrite app_nil_r, frame_length, params_length, u32s_length. cbn [length]. lia.
  - apply ro_success; [lia|apply ro_ret].
Qed.

(** The calls that are made on the node of the backend. *)
Lemma wp_put_shadowts {B} q nq (k : unit → M creation B) P K hy sh cb h i acc :
  Held P hy → sm_nodes sh !! q = Some nq →
  (∀ hy', Held idle hy' →
     wp (k tt) K (st hy' (match mn_dma_buf nq with PTR b => sh <| sm_bufs ::= delete b |> | _ => sh end) cb h i acc)) →
  wp (put_shadowts_mem (Some c) q ≫= k) K (st hy sh cb h i acc).
Proof.
  intros Hh Hq Hk. apply wp_bind. unfold put_shadowts_mem.
  eapply wp_mem; [exact (node_run _ _ _ Hq)|].
  eapply (wp_call (λ _, True)); [by apply unimport_held|done|]. intros r hy' Hh'.
  assert (mem (unimported (mn_dma_buf nq)) (st hy' sh cb h i acc) = Some (tt, st hy'
    (match mn_dma_buf nq with PTR b => sh <| sm_bufs ::= delete b |> | _ => sh end) cb h i acc)) as E.
  { apply mem_st. by destruct (mn_dma_buf nq). }
  unfold wp at 1. rewrite E. by apply Hk.
Qed.

Lemma wp_mem_ret {A} (m : M shm A) (K : A → creation → Prop) hy sh cb h i acc a sh' :
  m sh = Some (a, sh') → K a (st hy sh' cb h i acc) → wp (mem m) K (st hy sh cb h i acc).
Proof. intros E Hk. unfold wp. by rewrite (mem_st _ _ _ _ _ _ _ _ _ E). Qed.

(** What importing leaves, the node of the backend given back by the caller if it failed. *)
Lemma import_shadow_wp base p q nq shadow id hy sh cb h i acc (K : Z → creation → Prop) P :
  Held P hy → (∀ ch, P ch → idle ch) → beside (with_node q nq base) p sh →
  sm_nodes sh !! q = Some nq →
  (∀ ret hy' sh' nq', ret ≠ 0 → Held P hy' ∨ Held idle hy' →
     beside (with_node q nq' base) p sh' → sm_nodes sh' !! q = Some nq' →
     K ret (st hy' sh' cb h i acc)) →
  (∀ hy' sh' nq' b v, Held P hy' → v ∉ sm_vmaps base → sm_bufs base !! b = None →
     mn_dma_buf nq' = PTR b →
     beside ((with_import q nq' b base) <| sm_vmaps ::= union {[v]} |>) p sh' →
     K 0 (st hy' sh' (set_shadow q (PTR v) (shadow_flags shadow) cb) h i (b :: acc))) →
  wp (import_shadow c shadow id q) K (st hy sh cb h i acc).
Proof.
  intros Hh HP Hb Hq Hbad Hgood. unfold import_shadow.
  set (n1 := nq <| mn_size64 := shadow_sizebytes shadow |> <| mn_fd := -1 |>).
  set (sh1 := sh <| sm_nodes ::= <[q := n1]> |>).
  pose proof (beside_set_node _ _ _ _ _ n1 Hb Hq) as Hb1. fold sh1 in Hb1.
  assert (sm_nodes sh1 !! q = Some n1) as Hq1 by apply lookup_insert_eq.
  eapply (wp_mem _ _ _ _ _ _ _ _ _ _ sh1); [exact (set_node_run q _ sh nq Hq)|].
  eapply wp_hyp; [apply (hoare_import c P)|by intros ? ? ?%HP|done|]. intros [ret o] hy1 Hh1.
  destruct (Z.eqb_spec ret 0) as [->|Hr]; cbn [negb].
  2: { apply wp_ret. eapply Hbad; eauto. }
  destruct o as [x|].
  - destruct (beside_import _ _ _ _ _ Hb1) as (E2 & Hb2 & Hfree).
    set (b := sm_next sh1) in *.
    set (sh2 := sh1 <| sm_next ::= Pos.succ |> <| sm_bufs ::= <[b := {| db_refs := 1; db_priv := None |}]> |>) in *.
    eapply (wp_mem _ _ _ _ _ _ _ _ _ (PTR b) sh2); [exact E2|].
    set (n3 := n1 <| mn_dma_buf := PTR b |> <| mn_export_id := id |>).
    set (sh3 := sh2 <| sm_nodes ::= <[q := n3]> |>).
    assert (sm_nodes sh2 !! q = Some n1) as Hq2 by exact Hq1.
    assert (sm_nodes sh3 !! q = Some n3) as Hq3 by apply lookup_insert_eq.
    assert (beside (with_import q n3 b base) p sh3) as Hb3.
    { eapply beside_base; [apply (beside_set_node (base <| sm_bufs ::= <[b := {| db_refs := 1; db_priv := None |}]> |>) p sh2 q n1 n3)|];
        [eapply beside_base; [exact Hb2|by split]|exact Hq2|by split]. }
    eapply (wp_mem _ _ _ _ _ _ _ _ _ _ sh3); [exact (set_node_run q _ sh2 n1 Hq2)|].
    apply (wp_begin b).
    destruct (vmap_import_run sh3 b) as (ret & map & sh4 & E4 & Hcase); [apply lookup_insert_eq|].
    eapply wp_mem; [exact E4|]. cbv beta iota.
    destruct Hcase as [(Hr & ->)|(-> & -> & ->)].
    + rewrite (proj2 (Z.eqb_neq _ _) Hr). cbn [negb]. set (sh4 := sh3 <| sm_clock ::= S |>).
      assert (beside (with_import q n3 b base) p sh4) as Hb4.
      { eapply beside_same; [exact Hb3|by split|apply fresh_tick, (be_fresh _ _ _ Hb3)]. }
      apply (wp_end b). eapply (wp_put_shadowts q n3); [done|exact Hq3|]. intros hy5 Hh5.
      change (mn_dma_buf n3) with (PTR b). cbv iota. set (sh5 := sh4 <| sm_bufs ::= delete b |>).
      pose proof (beside_unimport _ _ _ _ _ _ Hb4 Hfree) as Hb5. fold sh5 in Hb5.
      eapply wp_hyp; [apply (hoare_unimport c idle)|by intros ? ?|done|]. intros r6 hy6 Hh6.
      eapply (wp_mem _ _ _ _ _ _ _ _ _ tt (sh5 <| sm_bufs ::= delete b |>)); [done|].
      apply wp_ret. eapply Hbad; [done|by right| |exact Hq3].
      apply beside_unimport_twice; [exact Hb5|]. cbn. apply lookup_delete_eq.
    + change (negb (0 =? 0)) with false. cbv iota. apply wp_set_ctxt, wp_ret.
      eapply (Hgood _ _ n3); [done| |exact Hfree|done|].
      { intros Hin. destruct (be_node _ _ _ Hb3) as (n & Ho & _).
        apply (fresh_vmap sh3 (be_fresh _ _ _ Hb3)). by rewrite (own_vmaps _ _ _ _ Ho). }
      destruct Hb3 as [(n & Ho & Hn) Hf]. split.
      * exists n. split; [|done]. eapply own_same; [exact (own_vmap _ _ _ _ (union {[sm_next sh3]}) Ho)|].
        by split.
      * apply (fresh_next sh3); try done. cbn. by rewrite (comm_L union).
  - eapply (wp_mem _ _ _ _ _ _ _ _ _ NULL sh1); [done|].
    set (n3 := n1 <| mn_dma_buf := NULL |> <| mn_export_id := id |>).
    set (sh3 := sh1 <| sm_nodes ::= <[q := n3]> |>).
    assert (sm_nodes sh3 !! q = Some n3) as Hq3 by apply lookup_insert_eq.
    pose proof (beside_set_node _ _ _ _ _ n3 Hb1 Hq1) as Hb3. fold sh3 in Hb3.
    eapply (wp_mem _ _ _ _ _ _ _ _ _ _ sh3); [exact (set_node_run q _ sh1 n1 Hq1)|].
    unfold begin_cpu_access. apply (wp_bind (mret tt)), wp_ret.
    eapply (wp_mem _ _ _ _ _ _ _ _ _ (- EINVAL, NULL) sh3); [done|]. cbv beta iota.
    change (negb (- EINVAL =? 0)) with true. cbv iota. unfold end_cpu_access.
    apply (wp_bind (mret tt)), wp_ret. eapply (wp_put_shadowts q n3); [done|exact Hq3|]. intros hy5 Hh5.
    eapply wp_hyp; [apply (hoare_unimport c idle)|by intros ? ?|done|]. intros r6 hy6 Hh6.
    eapply (wp_mem _ _ _ _ _ _ _ _ _ tt sh3); [done|].
    apply wp_ret. eapply Hbad; [done|by right|exact Hb3|exact Hq3].
Qed.

Lemma creating_beside p sh cb acc :
  creating NoShadow p sh cb acc → beside (md_shm (cr_dev s0)) p sh.
Proof. intros [? _ _ ?]. by split. Qed.

Lemma beside_creating p sh sh' cb acc :
  creating NoShadow p sh cb acc → beside (md_shm (cr_dev s0)) p sh' → creating NoShadow p sh' cb acc.
Proof. intros [_ ? ? _] []. by split. Qed.

Lemma read_be_wp cfg p hy sh cb h i acc (K : Z → creation → Prop) n :
  Held (reading n) hy → n ≤ 1000 → creating NoShadow p sh cb acc →
  (∀ ret hy' sh', ret ≠ 0 → Held idle hy' → creating NoShadow p sh' cb acc →
     K ret (st hy' sh' cb h i acc)) →
  (∀ hy' sh' cb' acc' k f, Held (reading (n + 200)) hy' → creating k p sh' cb' acc' →
     (k = NoShadow ∧ cb' = cb ∨ ∃ q nq b v, k = BeShadow q nq b v ∧ cb' = set_shadow q (PTR v) f cb) →
     K 0 (st hy' sh' cb' h i acc')) →
  wp (read_shadowts_mem_be cfg c) K (st hy sh cb h i acc).
Proof.
  intros Hh Hn Hc Hbad Hgood. unfold read_shadowts_mem_be.
  eapply wp_read; [apply (hoare_blob_strict _ n); unfold sizeof_shadowprop_t; lia|
    apply reading_idle_of|done| |].
  { intros ret hy' Hr Hh'. apply Hbad; [done|by eapply held_at_mono, reading_idle_of|done]. }
  intros shadow hy1 Hh1.
  eapply wp_read; [apply (hoare_uint32_strict _ (n + sizeof_shadowprop_t + 20)); unfold sizeof_shadowprop_t; lia|
    apply reading_idle_of|done| |].
  { intros ret hy' Hr Hh'. apply Hbad; [done|by eapply held_at_mono, reading_idle_of|done]. }
  intros id hy2 Hh2.
  assert (Held (reading (n + 200)) hy2) as Hh2'.
  { eapply held_at_mono; [exact Hh2|]. intros ch []. split; [done|]. unfold sizeof_shadowprop_t in *. lia. }
  destruct (has_flag (shadow_flags shadow) GSL_FLAGS_INITIALIZED); cbn [negb].
  2: { apply wp_ret. eapply (Hgood _ _ _ _ NoShadow 0); [done|exact Hc|by left]. }
  pose proof (cg_fresh _ _ _ _ _ Hc) as Hf.
  destruct (zalloc_run sh (cf_iocoherency cfg) (cf_writecombine cfg) (fr_ok _ Hf)) as (o & sh3 & E3 & Ho).
  pose proof (keeps_zalloc _ _ _ _ _ E3 Hf) as [Hf3 _].
  eapply wp_mem; [exact E3|]. destruct o as [q|].
  2: { apply wp_ret. apply Hbad; [done|by eapply held_at_mono, reading_idle_of|].
    destruct Hc as [(n1 & Ho1 & Hn1) ? ? _]. split; try done. exists n1. split; [|done].
    unfold hgsl_mem_node_zalloc in E3. rewrite (bind_run _ _ _ _ _ (shm_ask_run _ _)) in E3.
    destruct (shm_malloc (sm_clock sh)); cbn [negb] in E3; [done|]. injection E3 as <-.
    eapply own_same; [exact Ho1|by split]. }
  destruct Ho as [_ Had]. set (nq := zeroed_node _ _) in *. set (base := md_shm (cr_dev s0)).
  pose proof (creating_beside _ _ _ _ Hc) as Hb. fold base in Hb.
  destruct (be_node _ _ _ Hb) as (n1 & Ho1 & Hn1).
  assert (q ≠ p) as Hqp.
  { intros ->. pose proof (own_node _ _ _ _ Ho1) as E. by rewrite (ad_new _ _ _ _ Had) in E. }
  assert (sm_nodes base !! q = None) as Hqb.
  { rewrite <- (own_others _ _ _ _ _ Ho1 Hqp). apply (ad_new _ _ _ _ Had). }
  assert (beside (with_node q nq base) p sh3) as Hb3.
  { split; [|done]. exists n1. split; [|done].
    eapply own_same; [exact (own_other_node _ _ _ _ q nq Ho1 Hqp)|]. destruct Had. by split. }
  assert (sm_nodes sh3 !! q = Some nq) as Hq3 by (rewrite (ad_nodes _ _ _ _ Had); apply lookup_insert_eq).
  apply wp_bind. eapply (import_shadow_wp base p q nq); [exact Hh2'|intros ch ?; by eapply reading_idle_of|done..| |].
  - intros ret hy4 sh4 nq4 Hr Hh4 Hb4 Hq4. rewrite (proj2 (Z.eqb_neq _ _) Hr). cbn [negb when].
    eapply (wp_mem _ _ _ _ _ _ _ _ _ tt (sh4 <| sm_nodes ::= delete q |>)); [done|].
    apply wp_ret, Hbad; [done| |].
    + destruct Hh4 as [Hh4|]; [|done]. eapply held_at_mono; [exact Hh4|]. apply reading_idle_of.
    + eapply beside_creating; [exact Hc|]. by eapply beside_free_node.
  - intros hy4 sh4 nq4 b v Hh4 Hv Hbn Hnb [(n4 & Ho4 & (Hfl & Hm & Hct) & Hd4) Hf4].
    change (negb (0 =? 0)) with false. apply (wp_bind (mret tt)), wp_ret, wp_ret.
    eapply (Hgood _ _ _ _ (BeShadow q nq4 b v) (shadow_flags shadow)); [exact Hh4| |right; by repeat eexists].
    split; [by exists n4|by split_and!| |done].
    destruct (cg_shadow _ _ _ _ _ Hc) as (_ & _ & Hfe & ->). by split_and!.
Qed.

(** Everything the backend answers. *)
(** Once the driver's buffer has been mapped only the answer about the queue can fail. *)
Definition late_failure (dbq_off : bool) (k : shadow_kind) (ret : Z) : Prop :=
  ∀ b v, k = FeShadow b v → ret ≠ 0 → dbq_off = false.

Lemma late_done dbq_off k : late_failure dbq_off k 0.
Proof. by intros b v _ []. Qed.

Lemma late_queue k ret : late_failure false k ret.
Proof. done. Qed.

#[local] Hint Resolve late_done late_queue : core.

Lemma reply_wp cfg prm pid dbq_off p hy sh cb h i acc (K : Z → creation → Prop) :
  Held (reading 16) hy → creating NoShadow p sh cb acc → HGSL_CONTEXT_NUM ≤ h →
  (∀ ret hy' sh' cb' h' i' acc' k, Held idle hy' → creating k p sh' cb' acc' →
     (ret = 0 → h' < HGSL_CONTEXT_NUM ∧ cb_priv cb' = true ∧ cb_context_id cb' = h' ∧
        cb_devhandle cb' = pr_devhandle prm ∧ cb_pid cb' = pid ∧ cb_flags cb' = pr_flags prm) ∧
       late_failure dbq_off k ret →
     K ret (st hy' sh' cb' h' i' acc')) →
  wp (create_v1_reply cfg c prm pid dbq_off p) K (st hy sh cb h i acc).
Proof.
  intros Hh Hc Hnum HK. unfold create_v1_reply.
  eapply wp_read; [apply (hoare_uint32_strict _ 16); lia|apply reading_idle_of|done| |].
  { intros ret hy' Hr Hh'. apply (HK _ _ _ _ _ _ _ NoShadow); [by eapply held_at_mono, reading_idle_of|done|done]. }
  intros h1 hy1 Hh1. apply wp_set_handle. destruct (Z.leb_spec HGSL_CONTEXT_NUM h1) as [|Hlt].
  { apply wp_ret, (HK _ _ _ _ _ _ _ NoShadow); [by eapply held_at_mono, reading_idle_of|done|done]. }
  apply wp_set_ctxt. set (cb1 := set_created prm pid h1 cb).
  assert (creating NoShadow p sh cb1 acc) as Hc1.
  { destruct Hc as [? ? (? & ? & ? & ?) ?]. by split. }
  apply wp_bind. eapply (read_fe_wp p hy1 sh cb1 h1 i acc _ (16 + 24)); [exact Hh1|lia|done|].
  intros ret hy2 sh2 cb2 acc2 k2 Hh2 Hc2 Hcase.
  assert (∀ k3 hy3 sh3 cb3 acc3, Held (reading 1000) hy3 → creating k3 p sh3 cb3 acc3 →
    cb_priv cb3 = true ∧ cb_context_id cb3 = h1 ∧ cb_devhandle cb3 = pr_devhandle prm ∧
      cb_pid cb3 = pid ∧ cb_flags cb3 = pr_flags prm →
    wp (if dbq_off then mret 0
        else read_or_out (hyp (recv_int32 c)) (λ rval, if rval =? GSL_SUCCESS then
               read_or_out (hyp (recv_uint32 c)) (λ info,
                 modify (λ s, s <| cr_dbq_info := info |>) ;; mret 0)
             else mret 0)) K (st hy3 sh3 cb3 h1 i acc3)) as Htail.
  { intros k3 hy3 sh3 cb3 acc3 Hh3 Hc3 Hcb3. destruct dbq_off.
    { apply wp_ret. eapply HK; [by eapply held_at_mono, reading_idle_of|exact Hc3|by split; [|auto]]. }
    eapply wp_read; [apply (hoare_int32_strict _ 1000); lia|apply reading_idle_of|done| |].
    { intros ret' hy' Hr Hh'. eapply HK; [by eapply held_at_mono, reading_idle_of|exact Hc3|by split; [|auto]]. }
    intros rval hy4 Hh4. destruct (rval =? GSL_SUCCESS).
    2: { apply wp_ret. eapply HK; [by eapply held_at_mono, reading_idle_of|exact Hc3|by split; [|auto]]. }
    eapply wp_read; [apply (hoare_uint32_strict _ (1000 + 24)); lia|apply reading_idle_of|done| |].
    { intros ret' hy' Hr Hh'. eapply HK; [by eapply held_at_mono, reading_idle_of|exact Hc3|by split; [|auto]]. }
    intros info hy5 Hh5. eapply (HK 0 hy5 sh3 cb3 h1 info acc3 k3); [by eapply held_at_mono, reading_idle_of|done|by split; [|auto]]. }
  assert (∀ m, m ≤ 1000 → ∀ ch, reading m ch → reading 1000 ch) as Hle.
  { intros m Hm ch []. split; [done|lia]. }
  apply wp_or_out. destruct Hcase as [(-> & -> & Hr)|(-> & b & v & -> & ->)].
  - rewrite (proj2 (Z.eqb_neq _ _) Hr). cbn [negb].
    eapply (read_be_wp cfg p hy2 sh2 cb1 h1 i acc2 _ (16 + 24 + 200)); [exact Hh2|lia|done| |].
    + intros ret' hy3 sh3 Hr' Hh3 Hc3. split; [done|]. intros _. by eapply HK.
    + intros hy3 sh3 cb3 acc3 k3 f Hh3 Hc3 Hk3. split; [|done]. intros _.
      eapply (Htail k3); [eapply held_at_mono; [exact Hh3|by apply Hle]|exact Hc3|].
      by destruct Hk3 as [(_ & ->)|(? & ? & ? & ? & _ & ->)].
  - change (negb (0 =? 0)) with false. cbv iota. apply wp_ret. split; [|done]. intros _.
    eapply (Htail (FeShadow b v)); [eapply held_at_mono; [exact Hh2|by apply Hle]|exact Hc2|done].
Qed.

(** What the label out finds. *)
Record made (k : shadow_kind) (p : ptr) (sh : shm) (cb : ctxt_back) (acc : list ptr) : Prop := {
  ma_node : ∃ n, own (with_shadow k (md_shm (cr_dev s0))) sh p n ∧
    match k with NoShadow => True | _ => node_for k n ∧ mn_dma_buf n ≠ NULL end;
  ma_new : new_shadow k (md_shm (cr_dev s0));
  ma_shadow : shadow_of k p cb (cr_access s0) acc;
  ma_fresh : shm_fresh sh }.

Lemma creating_made k p sh cb acc : creating k p sh cb acc → made k p sh cb acc.
Proof. intros [(n & ? & ? & ?) ? ? ?]. split; try done. exists n. split; [done|]. by destruct k. Qed.

Lemma ctxt_destroy_held φ h id want export_id :
  φ (message RPC_CONTEXT_DESTROY 0 [Blob (params (u32s [h; id]))]) →
  held_ok φ c (hgsl_hyp_ctxt_destroy (Some c) h id want export_id).
Proof.
  intros Hφ. apply held_on_channel, body_ok_call; [|done|].
  - unfold fits_message, encode. cbn -[frame params u32s le_bytes].
    rewrite app_nil_r, frame_length, params_length, u32s_length. cbn [length]. lia.
  - apply ro_bind; [intros P; apply hoare_if; [apply hoare_unexport|by apply hoare_ret]|].
    intros ret. apply ro_if; [apply ro_uint32; [lia|intros ?]|]; apply ro_ret.
Qed.

Lemma destroy_created_wp prm K hy sh cb h i acc P :
  Held P hy → (∀ ch, P ch → idle ch) →
  (∀ hy' h', Held idle hy' → HGSL_CONTEXT_NUM ≤ h' → K tt (st hy' sh cb h' i acc)) →
  wp (destroy_created (Some c) prm) K (st hy sh cb h i acc).
Proof.
  intros Hh HP Hk. unfold destroy_created.
  apply (wp_bind (gets cr_ctxthandle)). unfold wp at 1, gets. cbn [cr_ctxthandle st].
  destruct (Z.ltb_spec h HGSL_CONTEXT_NUM); cbn [when].
  - apply wp_bind. unfold ctxt_destroy.
    eapply (wp_call (λ _, True)); [by apply ctxt_destroy_held|done|]. intros r hy' Hh'.
    apply wp_ret. unfold wp, set_handle, modify. by apply (Hk hy' (u32 (-1))).
  - apply wp_ret. apply Hk; [by eapply held_at_mono|done].
Qed.

Lemma wp_set_ctxt_ret f (K : unit → creation → Prop) hy sh cb h i acc :
  K tt (st hy sh (f cb) h i acc) → wp (set_ctxt f) K (st hy sh cb h i acc).
Proof. done. Qed.

(** The buffer of the backend, under the node of the front end. *)
Lemma be_lookups base p sh n q nq b v :
  own (with_shadow (BeShadow q nq b v) base) sh p n →
  sm_nodes sh !! q = Some nq ∧ sm_bufs sh !! b = Some {| db_refs := 1; db_priv := None |}.
Proof.
  intros Ho.
  assert (q ≠ p) as Hqp.
  { intros ->. pose proof (own_new _ _ _ _ Ho) as E. cbn in E. by rewrite lookup_insert_eq in E. }
  split; [rewrite (own_others _ _ _ _ _ Ho Hqp); cbn; apply lookup_insert_eq|].
  pose proof (own_bufs _ _ _ _ Ho) as Hx. destruct (mn_dma_buf n) as [| |b'].
  - rewrite Hx. apply lookup_insert_eq.
  - done.
  - destruct Hx as [-> Ex']. cbn in Ex'.
    destruct (decide (b = b')) as [->|Hne]; [by rewrite lookup_insert_eq in Ex'|].
    rewrite lookup_insert_ne by done. apply lookup_insert_eq.
Qed.

Lemma unmap_be_beside base p sh n q nq b v :
  shm_fresh sh → own (with_shadow (BeShadow q nq b v) base) sh p n → node_for NoShadow n →
  mn_dma_buf n ≠ NULL → v ∉ sm_vmaps base →
  beside (with_import q nq b base) p (sh <| sm_vmaps ::= λ vs, vs ∖ {[v]} |>).
Proof.
  intros Hf Ho Hnf Hd Hv. split.
  - exists n. split; [|done]. eapply own_base; [exact (own_vmap _ _ _ _ (λ vs, vs ∖ {[v]}) Ho)|].
    split; try done. cbn. set_solver.
  - destruct Hf as [[] Hvs]. split; [by split|]. intros w Hw. apply Hvs. cbn in Hw. set_solver.
Qed.

(** The mapping goes. *)
Lemma unmap_wp k p hy sh cb h i acc (K : unit → creation → Prop) :
  made k p sh cb acc →
  (∀ sh', match k with
     | BeShadow q nq b _ => beside (with_import q nq b (md_shm (cr_dev s0))) p sh' ∧
         sm_nodes sh' !! q = Some nq
     | _ => ∃ n, own (md_shm (cr_dev s0)) sh' p n
     end →
     K tt (st hy sh' (cb <| cb_shadow_ts := NULL |>) h i (cr_access s0))) →
  wp unmap_shadow_ts K (st hy sh cb h i acc).
Proof.
  intros [(n & Ho & Hnk) Hnew Hsh Hf] HK. unfold unmap_shadow_ts. apply wp_ctxt.
  destruct k as [|b v|q nq b v]; [|destruct Hnk as [Hnf Hd]..].
  - destruct Hsh as (E1 & _ & _ & ->). rewrite E1. cbn [is_null negb when]. apply wp_ret.
    assert (cb = cb <| cb_shadow_ts := NULL |>) as -> by (destruct cb; cbn in *; congruence). eauto.
  - destruct Hsh as (E1 & E2 & E3 & E4 & ->). pose proof Hnf as (_ & Hb & _).
    destruct (vunmap_own_run _ sh p n b v (PTR v) Hf Ho Hnf Hnew) as (sh' & n' & E & Hf' & Ho' & _).
    rewrite E1, E3. cbn [is_null negb when]. apply (wp_bind (mret p)), wp_ret. unfold unmap_shadow.
    eapply wp_mem; [exact (node_run _ _ _ (own_node _ _ _ _ Ho))|]. apply wp_ctxt. rewrite Hb, E2.
    eapply wp_mem; [exact E|]. apply (wp_end b), wp_set_ctxt_ret, HK. eauto.
  - destruct Hsh as (E1 & E2 & E3 & E4 & ->). destruct Hnew as (Hqb & Hqbuf & Hbb & Hv).
    destruct (be_lookups _ _ _ _ _ _ _ _ Ho) as [Hq Hbuf].
    rewrite E1, E3. cbn [is_null negb when]. apply (wp_bind (mret q)), wp_ret. unfold unmap_shadow.
    eapply wp_mem; [exact (node_run _ _ _ Hq)|]. apply wp_ctxt. rewrite Hqbuf, E2.
    eapply wp_mem; [exact (vunmap_import_run sh b v Hbuf)|]. apply (wp_end b), wp_set_ctxt_ret, HK.
    split; [by eapply unmap_be_beside|done].
Qed.

(** All is given back but the node of the front end. *)
Lemma failed_wp prm k p hy sh cb h i acc (K : unit → creation → Prop) :
  Held idle hy → made k p sh cb acc →
  (∀ hy' sh' cb' h' n, Held idle hy' → HGSL_CONTEXT_NUM ≤ h' → cb_shadow_ts cb' = NULL →
     own (md_shm (cr_dev s0)) sh' p n →
     (cb_shadow_ts_node cb' = None ∧ cb_is_fe_shadow cb' = false ∨
      (∃ b v, k = FeShadow b v) ∧ cb_shadow_ts_node cb' = Some p ∧ cb_is_fe_shadow cb' = true) →
     K tt (st hy' sh' cb' h' i (cr_access s0))) →
  wp (create_v1_failed (Some c) prm) K (st hy sh cb h i acc).
Proof.
  intros Hh Hm HK. unfold create_v1_failed. apply wp_bind. eapply unmap_wp; [exact Hm|]. intros sh1 Hsh1.
  apply wp_bind. unfold put_be_shadow. apply wp_ctxt.
  change (cb_shadow_ts_node (cb <| cb_shadow_ts := NULL |>)) with (cb_shadow_ts_node cb).
  change (cb_is_fe_shadow (cb <| cb_shadow_ts := NULL |>)) with (cb_is_fe_shadow cb).
  destruct Hm as [_ Hnew Hsh _]. destruct k as [|b v|q nq b v].
  - destruct Hsh as (_ & En & Efe & _), Hsh1 as (n & Ho). rewrite En. apply wp_ret.
    eapply destroy_created_wp; [exact Hh|done|]. intros. eapply HK; [done..|]. by left.
  - destruct Hsh as (_ & _ & En & Efe & _), Hsh1 as (n & Ho). rewrite En, Efe. cbn [negb when]. apply wp_ret.
    eapply destroy_created_wp; [exact Hh|done|]. intros. eapply HK; [done..|]. right. by split; [eauto|].
  - destruct Hsh as (_ & _ & En & Efe & _), Hsh1 as [Hb1 Hq1]. rewrite En, Efe. destruct Hnew as (Hqb & Hqbuf & Hbb & Hv).
    cbn [negb when]. eapply (wp_put_shadowts q nq); [exact Hh|exact Hq1|]. intros hy2 Hh2. rewrite Hqbuf.
    pose proof (beside_unimport _ _ _ _ _ _ Hb1 Hbb) as Hb2.
    destruct (beside_free_node _ _ _ _ _ Hb2 Hqb) as [(n3 & Ho3 & _) _].
    eapply (wp_mem _ _ _ _ _ _ _ _ _ tt (_ <| sm_nodes ::= delete q |>)); [done|].
    apply wp_set_ctxt_ret. eapply destroy_created_wp; [exact Hh2|done|]. intros. eapply HK; [done..|]. by left.
Qed.

(** ** The parameters are written and sent *)

Lemma shadow_map_bytes_length n : length (shadow_map_bytes n) = 40%nat.
Proof. unfold shadow_map_bytes. by rewrite params_length, !length_app, !u32s_length, !le_bytes_length. Qed.

Lemma export_fill_wp k p hy sh cb h i acc (K : Z * list Z → creation → Prop) P :
  Held P hy → (∀ ch, P ch → idle ch) → creating k p sh cb acc →
  (∀ ret hy' sh' bytes, Held P hy' → creating k p sh' cb acc →
     (ret = 0 → length bytes = 40%nat) → K (ret, bytes) (st hy' sh' cb h i acc)) →
  wp (export_fill_shadow_ts_buf c p) K (st hy sh cb h i acc).
Proof.
  intros Hh HP Hc HK. unfold export_fill_shadow_ts_buf.
  eapply wp_hyp; [apply (hoare_export c P)|by intros ? ? ?%HP|done|]. intros [ret id] hy1 Hh1.
  destruct (Z.eqb_spec ret 0) as [->|Hr]; cbn [negb].
  2: { apply wp_ret. by apply HK. }
  destruct (creating_node _ _ _ _ _ Hc) as (n & Hn & _).
  pose proof (creating_described _ _ _ _ _ _ _ Hc Hn (described_id n id)) as Hc2.
  eapply wp_mem; [exact (set_node_run p _ sh n Hn)|].
  eapply wp_mem; [apply node_run, lookup_insert_eq|].
  apply wp_ret. apply HK; [done|done|intros _; apply shadow_map_bytes_length].
Qed.

Lemma write_fe_wp prm dbq_off k p hy sh cb h i acc (K : Z → creation → Prop) :
  Held (writing []) hy → creating k p sh cb acc →
  (∀ ret hy' sh', ret ≠ 0 → Held idle hy' → creating k p sh' cb acc → K ret (st hy' sh' cb h i acc)) →
  (∀ hy' sh' args, Held (writing args) hy' → fits_message args → creating k p sh' cb acc →
     K 0 (st hy' sh' cb h i acc)) →
  wp (write_ctxt_shadowts_mem_fe c prm dbq_off p) K (st hy sh cb h i acc).
Proof.
  intros Hh Hc Hbad Hgood. unfold write_ctxt_shadowts_mem_fe.
  destruct (creating_node _ _ _ _ _ Hc) as (n & Hn & Hd).
  eapply wp_mem; [exact (node_run _ _ _ Hn)|]. destruct (is_null (mn_dma_buf n)).
  { apply wp_ret, Hbad; [done|by eapply held_at_mono, writing_idle_of|done]. }
  apply wp_bind. eapply export_fill_wp; [exact Hh|intros ch ?; by eapply writing_idle_of|done|].
  intros ret hy1 sh1 bytes Hh1 Hc1 Hl. destruct (Z.eqb_spec ret 0) as [->|Hr]; cbn [negb].
  2: { apply wp_ret, Hbad; [done|by eapply held_at_mono, writing_idle_of|done]. }
  destruct (creating_node _ _ _ _ _ Hc1) as (n1 & Hn1 & _).
  eapply wp_mem; [exact (node_run _ _ _ Hn1)|].
  set (args := [Blob _; Uint32 _]).
  assert (fits_message args) as Hfit.
  { unfold fits_message, encode, args. cbn -[frame params u32s le_bytes ctxt_create_bytes].
    rewrite app_nil_r, !length_app, !frame_length, params_length, !length_app, Hl by done.
    unfold ctxt_create_bytes. rewrite params_length, !u32s_length, !le_bytes_length. cbn [length]. lia. }
  destruct (held_at_step _ _ _ _ _ _ _ (hoare_send_args c args [] Hfit)
    ltac:(intros ret ch; cbn; destruct (decide (ret = 0)); [apply writing_idle_of|done]) Hh1) as (ret & hy2 & E2 & Hh2).
  unfold wp. rewrite (hyp_st _ _ _ _ _ _ _ _ _ E2). destruct (decide (ret = 0)) as [->|Hr].
  - by eapply Hgood.
  - by apply Hbad.
Qed.

(** From the node on to the label out. *)
Lemma body_wp cfg prm pid dbq_off p io wc hy sh cb h i (K : Z → creation → Prop) :
  Held (writing []) hy → shm_fresh sh → added_node (md_shm (cr_dev s0)) sh p (zeroed_node io wc) →
  cb_shadow_ts cb = NULL → cb_shadow_ts_node cb = None → cb_is_fe_shadow cb = false →
  HGSL_CONTEXT_NUM ≤ h →
  (∀ ret hy' sh' cb' h' i' acc' k, Held idle hy' → made k p sh' cb' acc' →
     (ret = 0 → creating k p sh' cb' acc' ∧
        h' < HGSL_CONTEXT_NUM ∧ cb_priv cb' = true ∧ cb_context_id cb' = h' ∧
        cb_devhandle cb' = pr_devhandle prm ∧ cb_pid cb' = pid ∧ cb_flags cb' = pr_flags prm) →
     late_failure dbq_off k ret → K ret (st hy' sh' cb' h' i' acc')) →
  wp (create_v1_body cfg c prm pid dbq_off p) K (st hy sh cb h i (cr_access s0)).
Proof.
  intros Hh Hf Had Ets En Efe Hnum HK. unfold create_v1_body. set (base := md_shm (cr_dev s0)) in *.
  assert (sm_nodes sh !! p = Some (zeroed_node io wc)) as Hn
    by (rewrite (ad_nodes _ _ _ _ Had); apply lookup_insert_eq).
  destruct (own_alloc_run base sh p io wc (-1) PAGE_SIZE Hf Had ltac:(done))
    as (ret & sh1 & n & E1 & Ho & Hf1 & _ & Hret).
  eapply wp_mem; [exact (set_node_run p _ sh _ Hn)|].
  apply wp_or_out. eapply wp_mem_ret; [exact E1|].
  assert (made NoShadow p sh1 cb (cr_access s0)) as Hm by (split; [by exists n|done|by split_and!|done]).
  split; intros Hr.
  2: { apply (HK _ _ _ _ _ _ _ NoShadow); [by eapply held_at_mono, writing_idle_of|done..]. }
  destruct (Hret Hr) as (Hd & Hnf & _).
  assert (creating NoShadow p sh1 cb (cr_access s0)) as Hc by (split; [by exists n|done|by split_and!|done]).
  apply wp_or_out. eapply write_fe_wp; [exact Hh|exact Hc| |].
  { intros ret2 hy2 sh2 Hr2 Hh2 Hc2. split; [done|]. intros _.
    apply (HK _ _ _ _ _ _ _ NoShadow); [done|by apply creating_made|done..]. }
  intros hy2 sh2 args Hh2 Hfit Hc2. split; [intros _|done].
  destruct (held_at_step _ _ _ _ _ _ _ (hoare_transact_ext RPC_CONTEXT_CREATE 1 c args false Hfit)
    ltac:(intros ? ch; apply reading_idle_of) Hh2) as (ret3 & hy3 & E3 & Hh3).
  apply wp_or_out. unfold wp at 1. rewrite (hyp_st _ _ _ _ _ _ _ _ _ E3). split.
  2: { intros Hr3. apply (HK _ _ _ _ _ _ _ NoShadow); [by eapply held_at_mono, reading_idle_of|by apply creating_made|done..]. }
  intros _. eapply reply_wp; [exact Hh3|exact Hc2|done|].
  intros ret4 hy4 sh4 cb4 h4 i4 acc4 k4 Hh4 Hc4 [H4 Hl4].
  apply (HK _ _ _ _ _ _ _ k4); [done|by apply creating_made| |done]. intros ->. split; [done|]. by apply H4.
Qed.

Lemma drop_mem_node_wp base p n hy sh cb h i acc (K : unit → creation → Prop) P :
  Held P hy → own base sh p n →
  (∀ hy' sh', Held idle hy' → same_memory base sh' → K tt (st hy' sh' cb h i acc)) →
  wp (drop_mem_node (Some c) (Some p)) K (st hy sh cb h i acc).
Proof.
  intros Hh Ho HK. unfold drop_mem_node, wp.
  destruct (unmap_smmu_run (cr_dev (st hy sh cb h i acc)) hy0 c p n (proj1 Hh) (own_node _ _ _ _ Ho))
    as (ret & hy' & E & Hh' & _).
  rewrite (bind_run _ _ _ ret (st hy' sh cb h i acc)) by (unfold on_dev; by rewrite E).
  destruct (own_free_run base sh p n Ho) as (sh' & E2 & Hs).
  rewrite (mem_st _ _ _ _ _ _ _ _ _ E2). apply HK; [|done]. split; [done|].
  destruct (hd_chan _ _ _ Hh') as (ch & ? & ? & _). by exists ch.
Qed.

(** What is there when the context has been created. *)
Definition shadowed (k : shadow_kind) (p : ptr) (sh : shm) : Prop :=
  match k with
  | FeShadow b v => ∃ n, own (with_shadow k (md_shm (cr_dev s0))) sh p n ∧ node_for k n
  | _ => same_memory (with_shadow k (md_shm (cr_dev s0))) sh
  end.

Lemma same_memory_refl sh : same_memory sh sh.
Proof. split; try done. by left. Qed.

Lemma create_v1_wp cfg prm pid dbq_off hy sh h i (K : Z → creation → Prop) :
  Held idle hy → md_shm (cr_dev s0) = sh → shm_fresh sh →
  (∀ ret hy' sh' cb' h' i', ret ≠ 0 → Held idle hy' → HGSL_CONTEXT_NUM ≤ h' → cb_shadow_ts cb' = NULL →
     same_memory sh sh' → node_left dbq_off sh' cb' → K ret (st hy' sh' cb' h' i' (cr_access s0))) →
  (∀ hy' sh' cb' h' i' acc' k p, Held idle hy' → h' < HGSL_CONTEXT_NUM → cb_priv cb' = true →
     cb_context_id cb' = h' → cb_devhandle cb' = pr_devhandle prm → cb_pid cb' = pid →
     cb_flags cb' = pr_flags prm → new_shadow k sh → shadow_of k p cb' (cr_access s0) acc' →
     shadowed k p sh' → (match k with FeShadow _ _ => shm_fresh sh' | _ => True end) →
     K 0 (st hy' sh' cb' h' i' acc')) →
  wp (hgsl_hyp_ctxt_create_v1 cfg (Some c) prm pid dbq_off) K (st hy sh zeroed_ctxt h i (cr_access s0)).
Proof.
  intros Hh Esh Hf Hbad Hgood. unfold hgsl_hyp_ctxt_create_v1. apply wp_set_handle.
  apply wp_bind.
  eapply wp_hyp; [apply (hoare_reset_ok c idle); done|by intros ? ? [_ ?%writing_idle_of]|done|].
  intros ret hy1 Hh1.
  assert (ret = 0 ∧ Held (writing []) hy1) as [-> Hw].
  { destruct Hh1 as [Hh1 (ch & Hc & -> & Hw)]. split; [done|]. split; [done|by exists ch]. }
  change (negb (0 =? 0)) with false. cbv iota.
  destruct (zalloc_run sh (cf_iocoherency cfg) (cf_writecombine cfg) (fr_ok _ Hf)) as (o & sh2 & E2 & Ho).
  pose proof (keeps_zalloc _ _ _ _ _ E2 Hf) as [Hf2 _].
  eapply wp_mem; [exact E2|]. destruct o as [p|].
  - destruct Ho as [_ Had]. rewrite <- Esh in Had.
    apply wp_bind. eapply body_wp; [exact Hw|exact Hf2|exact Had|done..|].
    intros ret hy3 sh3 cb3 h3 i3 acc3 k Hh3 Hm Hok Hlate. apply wp_ret. cbv beta iota.
    destruct (Z.eqb_spec ret 0) as [->|Hr]; cbn [negb when orb].
    + destruct (Hok eq_refl) as (Hc & Hlt & Hp & Hid & Hdev & Hpid & Hfl).
      apply (wp_bind (mret tt)), wp_ret, wp_ctxt.
      destruct Hc as [(n & Ho3 & Hnf & Hd) Hnew Hsh Hf3]. rewrite Esh in Hnew.
      destruct (cb_is_fe_shadow cb3) eqn:Efe; cbn [negb when].
      * apply (wp_bind (mret tt)), wp_ret, wp_ret.
        destruct k as [|b v|]; [by destruct Hsh as (_ & _ & E & _); rewrite E in Efe| |
          by destruct Hsh as (_ & _ & _ & E & _); rewrite E in Efe].
        eapply (Hgood _ _ _ _ _ _ (FeShadow b v) p); try done. exists n. by rewrite Esh in *.
      * apply wp_bind. eapply (drop_mem_node_wp _ _ _ _ _ _ _ _ _ _ _ Hh3 Ho3).
        intros hy4 sh4 Hh4 Hs4. apply wp_ret.
        destruct k as [|b v|]; [|by destruct Hsh as (_ & _ & _ & E & _); rewrite E in Efe|];
          (eapply Hgood; [exact Hh4|done|done|done|done|done|done|exact Hnew|exact Hsh|exact Hs4|done]).
    + apply wp_bind. eapply failed_wp; [exact Hh3|exact Hm|].
      intros hy4 sh4 cb4 h4 n Hh4 Hn4 Ets Ho4 Hleft. apply wp_ctxt. apply wp_bind.
      eapply (drop_mem_node_wp _ _ _ _ _ _ _ _ _ _ _ Hh4 Ho4). intros hy5 sh5 Hh5 Hs5. apply wp_ret.
      rewrite Esh in Hs5. eapply Hbad; [done..|].
      destruct Hleft as [?|((b & v & ->) & ? & ?)]; [by left|right].
      split; [by eapply Hlate|]. split; [done|]. exists p. split; [done|].
      rewrite (sy_nodes _ _ Hs5), <- Esh. exact (own_new _ _ _ _ Ho4).
  - apply wp_ret. cbv beta iota. change (negb (- ENOMEM =? 0)) with true. cbn [when orb].
    apply wp_bind. unfold create_v1_failed, unmap_shadow_ts, put_be_shadow.
    apply wp_bind, wp_ctxt, wp_ret, wp_bind, wp_ctxt, wp_ret.
    eapply destroy_created_wp; [exact Hh1|by intros ? [_ ?%writing_idle_of]|]. intros hy3 h3 Hh3 Hn3.
    apply wp_ctxt. apply wp_bind, wp_ret. eapply Hbad; [done..|]. by left.
Qed.

(** ** The second call, for a context that uses protected memory *)

Lemma write_fv_wp prm k p hy sh cb h i acc (K : Z → creation → Prop) :
  has_flag (pr_flags prm) GSL_CONTEXT_FLAG_USES_PROTECTED = true →
  Held (writing []) hy → creating k p sh cb acc →
  (∀ ret hy' sh', ret ≠ 0 → Held idle hy' → creating k p sh' cb acc → K ret (st hy' sh' cb h i acc)) →
  (∀ hy' sh' args, Held (writing args) hy' → fits_message args → creating k p sh' cb acc →
     K 0 (st hy' sh' cb h i acc)) →
  wp (write_ctxt_create_data_fv c p None prm) K (st hy sh cb h i acc).
Proof.
  intros Hfl Hh Hc Hbad Hgood. unfold write_ctxt_create_data_fv. rewrite Hfl.
  apply (wp_bind (mret (Some 0))), wp_ret. cbv beta iota.
  apply wp_bind. eapply export_fill_wp; [exact Hh|intros ch ?; by eapply writing_idle_of|done|].
  intros ret hy1 sh1 bytes Hh1 Hc1 Hl. destruct (Z.eqb_spec ret 0) as [->|Hr]; cbn [negb].
  2: { apply wp_ret, Hbad; [done|by eapply held_at_mono, writing_idle_of|done]. }
  destruct (creating_node _ _ _ _ _ Hc1) as (n1 & Hn1 & _).
  eapply wp_mem; [exact (node_run _ _ _ Hn1)|].
  set (args := [Blob _; Uint32 _]).
  assert (fits_message args) as Hfit.
  { unfold fits_message, encode, args. cbn -[frame params u32s le_bytes ctxt_create_bytes].
    rewrite app_nil_r, !length_app, !frame_length, params_length, !length_app, Hl, !le_bytes_length by done.
    unfold ctxt_create_bytes. rewrite params_length, !u32s_length. cbn [length]. lia. }
  destruct (held_at_step _ _ _ _ _ _ _ (hoare_send_args c args [] Hfit)
    ltac:(intros ret ch; cbn; destruct (decide (ret = 0)); [apply writing_idle_of|done]) Hh1) as (ret & hy2 & E2 & Hh2).
  unfold wp. rewrite (hyp_st _ _ _ _ _ _ _ _ _ E2). destruct (decide (ret = 0)) as [->|Hr].
  - by eapply Hgood.
  - by apply Hbad.
Qed.

(** What the answers of v2 leave. *)
Lemma reply_v2_wp prm pid p hy sh cb h i acc (K : Z → creation → Prop) :
  Held (reading 16) hy → creating NoShadow p sh cb acc → HGSL_CONTEXT_NUM ≤ h →
  (∀ ret hy' sh' cb' h' acc' k, Held idle hy' → creating k p sh' cb' acc' →
     (k = NoShadow ∧ ret ≠ 0 ∨ (∃ b v, k = FeShadow b v) ∧
        ret = 0 ∧ h' < HGSL_CONTEXT_NUM ∧ cb_priv cb' = true ∧ cb_context_id cb' = h' ∧
        cb_devhandle cb' = pr_devhandle prm ∧ cb_pid cb' = pid ∧ cb_flags cb' = pr_flags prm) →
     K ret (st hy' sh' cb' h' i acc')) →
  wp (create_v2_reply c prm pid p None) K (st hy sh cb h i acc).
Proof.
  intros Hh Hc Hnum HK. unfold create_v2_reply.
  eapply wp_read; [apply (hoare_uint32_strict _ 16); lia|apply reading_idle_of|done| |].
  { intros ret hy' Hr Hh'. apply (HK _ _ _ _ _ _ NoShadow); [by eapply held_at_mono, reading_idle_of|done|by left]. }
  intros h1 hy1 Hh1. apply wp_set_handle. destruct (Z.leb_spec HGSL_CONTEXT_NUM h1) as [|Hlt].
  { apply wp_ret, (HK _ _ _ _ _ _ NoShadow); [by eapply held_at_mono, reading_idle_of|done|by left]. }
  apply wp_set_ctxt. set (cb1 := (set_created prm pid h1 cb) <| cb_ctxt_record_mem_node := None |>).
  assert (creating NoShadow p sh cb1 acc) as Hc1 by (destruct Hc as [? ? (? & ? & ? & ?) ?]; by split).
  eapply wp_read; [apply (hoare_int32_strict _ (16 + 24)); lia|apply reading_idle_of|done| |].
  { intros ret hy' Hr Hh'. apply (HK _ _ _ _ _ _ NoShadow); [by eapply held_at_mono, reading_idle_of|done|by left]. }
  intros rval hy2 Hh2. destruct (negb (rval =? 0)).
  { apply wp_ret, (HK _ _ _ _ _ _ NoShadow); [by eapply held_at_mono, reading_idle_of|done|by left]. }
  eapply assign_wp; [exact Hc1|]. intros ret sh3 cb3 acc3 k Hc3 Hcase.
  apply (HK _ _ _ _ _ _ k); [by eapply held_at_mono, reading_idle_of|done|].
  destruct Hcase as [(-> & _ & ?)|(-> & b & v & -> & ->)]; [by left|]. right. by split; [eauto|].
Qed.

Lemma body_v2_wp prm pid size_KB p io wc hy sh cb h i (K : Z * (option ptr * bool) → creation → Prop) :
  has_flag (pr_flags prm) GSL_CONTEXT_FLAG_USES_PROTECTED = true →
  Held (writing []) hy → shm_fresh sh → added_node (md_shm (cr_dev s0)) sh p (zeroed_node io wc) →
  cb_shadow_ts cb = NULL → cb_shadow_ts_node cb = None → cb_is_fe_shadow cb = false →
  HGSL_CONTEXT_NUM ≤ h →
  (∀ ret hy' sh' cb' h' acc', ret ≠ 0 → Held idle hy' → made NoShadow p sh' cb' acc' →
     K (ret, (None, false)) (st hy' sh' cb' h' i acc')) →
  (∀ hy' sh' cb' h' acc' b v, Held idle hy' → creating (FeShadow b v) p sh' cb' acc' →
     h' < HGSL_CONTEXT_NUM → cb_priv cb' = true → cb_context_id cb' = h' →
     cb_devhandle cb' = pr_devhandle prm → cb_pid cb' = pid → cb_flags cb' = pr_flags prm →
     K (0, (None, false)) (st hy' sh' cb' h' i acc')) →
  ∀ cfg, wp (create_v2_body cfg c prm pid size_KB p) K (st hy sh cb h i (cr_access s0)).
Proof.
  intros Hfl Hh Hf Had Ets En Efe Hnum Hbad Hgood cfg. unfold create_v2_body.
  assert (sm_nodes sh !! p = Some (zeroed_node io wc)) as Hn
    by (rewrite (ad_nodes _ _ _ _ Had); apply lookup_insert_eq).
  destruct (own_alloc_run (md_shm (cr_dev s0)) sh p io wc (-1) PAGE_SIZE Hf Had ltac:(done))
    as (ret & sh1 & n & E1 & Ho & Hf1 & _ & Hret).
  eapply wp_mem; [exact (set_node_run p _ sh _ Hn)|]. eapply wp_mem; [exact E1|].
  assert (made NoShadow p sh1 cb (cr_access s0)) as Hm by (split; [by exists n|done|by split_and!|done]).
  destruct (Z.eqb_spec ret 0) as [->|Hr]; cbn [negb].
  2: { apply wp_ret, Hbad; [done|by eapply held_at_mono, writing_idle_of|done]. }
  destruct (Hret eq_refl) as (Hd & Hnf & _).
  assert (creating NoShadow p sh1 cb (cr_access s0)) as Hc by (split; [by exists n|done|by split_and!|done]).
  rewrite Hfl. apply (wp_bind (mret (0, (None, false)))), wp_ret. cbv beta iota.
  change (negb (0 =? 0)) with false. cbv iota.
  apply wp_bind, wp_or_out. eapply write_fv_wp; [exact Hfl|exact Hh|exact Hc| |].
  { intros ret2 hy2 sh2 Hr2 Hh2 Hc2. split; [done|]. intros _. apply wp_ret, Hbad; [done..|].
    by apply creating_made. }
  intros hy2 sh2 args Hh2 Hfit Hc2. split; [intros _|done].
  destruct (held_at_step _ _ _ _ _ _ _ (hoare_transact_ext RPC_CONTEXT_CREATE 2 c args false Hfit)
    ltac:(intros ? ch; apply reading_idle_of) Hh2) as (ret3 & hy3 & E3 & Hh3).
  apply wp_or_out. unfold wp at 1. rewrite (hyp_st _ _ _ _ _ _ _ _ _ E3). split.
  2: { intros Hr3. apply wp_ret, Hbad; [done|by eapply held_at_mono, reading_idle_of|by apply creating_made]. }
  intros _. eapply reply_v2_wp; [exact Hh3|exact Hc2|done|].
  intros ret4 hy4 sh4 cb4 h4 acc4 k4 Hh4 Hc4 [(-> & Hr4)|((b & v & ->) & -> & ? & ? & ? & ? & ? & ?)]; apply wp_ret.
  - by apply Hbad, creating_made.
  - by eapply Hgood.
Qed.

(** The error path; without a node there is nothing but the context to give up. *)
Lemma failed_v2_wp cfg prm o hy sh cb h i acc (K : unit → creation → Prop) :
  Held idle hy → cb_is_fe_shadow cb = false → cb_shadow_ts cb = NULL →
  match o with
  | Some p => ∃ n, own (md_shm (cr_dev s0)) sh p n
  | None => same_memory (md_shm (cr_dev s0)) sh
  end →
  (∀ hy' sh' h', Held idle hy' → HGSL_CONTEXT_NUM ≤ h' → same_memory (md_shm (cr_dev s0)) sh' →
     K tt (st hy' sh' cb h' i acc)) →
  wp (create_v2_failed cfg (Some c) prm o None false) K (st hy sh cb h i acc).
Proof.
  intros Hh Efe Ets Ho HK. unfold create_v2_failed, unmap_shadow_ts.
  apply wp_bind, wp_ctxt. rewrite Ets. apply wp_ret. apply wp_ctxt. rewrite Efe.
  assert (∃ sh', hgsl_sharedmem_free o sh = Some (tt, sh') ∧ same_memory (md_shm (cr_dev s0)) sh')
    as (sh' & E & Hs).
  { destruct o as [p|]; [|by exists sh]. destruct Ho as [n Ho]. by eapply own_free_run. }
  eapply wp_mem; [exact E|]. apply wp_bind.
  eapply destroy_created_wp; [exact Hh|done|]. intros hy2 h2 Hh2 Hn2. apply wp_ret. by apply HK.
Qed.

Lemma create_v2_wp cfg prm pid size_KB hy sh h i (K : Z → creation → Prop) :
  has_flag (pr_flags prm) GSL_CONTEXT_FLAG_USES_PROTECTED = true →
  Held idle hy → md_shm (cr_dev s0) = sh → shm_fresh sh →
  (∀ ret hy' sh' cb' h', ret ≠ 0 → Held idle hy' → HGSL_CONTEXT_NUM ≤ h' → cb_shadow_ts cb' = NULL →
     cb_shadow_ts_node cb' = None → cb_is_fe_shadow cb' = false → same_memory sh sh' → K ret (st hy' sh' cb' h' i (cr_access s0))) →
  (∀ hy' sh' cb' h' acc' b v p, Held idle hy' → h' < HGSL_CONTEXT_NUM → cb_priv cb' = true →
     cb_context_id cb' = h' → cb_devhandle cb' = pr_devhandle prm → cb_pid cb' = pid →
     cb_flags cb' = pr_flags prm → creating (FeShadow b v) p sh' cb' acc' →
     K 0 (st hy' sh' cb' h' i acc')) →
  wp (hgsl_hyp_ctxt_create_v2 cfg (Some c) prm pid size_KB) K (st hy sh zeroed_ctxt h i (cr_access s0)).
Proof.
  intros Hfl Hh Esh Hf Hbad Hgood. unfold hgsl_hyp_ctxt_create_v2. apply wp_set_handle.
  assert (∀ ret hy' sh' cb' h' o, ret ≠ 0 → Held idle hy' → cb_is_fe_shadow cb' = false →
    cb_shadow_ts cb' = NULL → cb_shadow_ts_node cb' = None →
    match o with
    | Some p => ∃ n, own (md_shm (cr_dev s0)) sh' p n
    | None => same_memory (md_shm (cr_dev s0)) sh'
    end →
    wp (when (negb (ret =? 0)) (create_v2_failed cfg (Some c) prm o None false) ;; mret ret) K
      (st hy' sh' cb' h' i (cr_access s0))) as Hfail.
  { intros ret hy' sh' cb' h' o Hr Hh' Efe Ets En Ho. rewrite (proj2 (Z.eqb_neq _ _) Hr). cbn [negb when].
    apply wp_bind. eapply failed_v2_wp; [exact Hh'|done|done|exact Ho|].
    intros hy2 sh2 h2 Hh2 Hn2 Hs2. apply wp_ret. rewrite Esh in Hs2. by apply Hbad. }
  destruct (_ || _).
  { apply (wp_bind (mret _)), wp_ret. apply (Hfail _ _ _ _ _ None); try done. rewrite Esh. apply same_memory_refl. }
  apply wp_bind. eapply wp_hyp; [apply (hoare_reset_ok c idle); done|by intros ? ? [_ ?%writing_idle_of]|done|].
  intros ret hy1 Hh1.
  assert (ret = 0 ∧ Held (writing []) hy1) as [-> Hw].
  { destruct Hh1 as [Hh1 (ch & Hc & -> & Hw)]. split; [done|]. split; [done|by exists ch]. }
  change (negb (0 =? 0)) with false. cbv iota.
  destruct (zalloc_run sh (cf_iocoherency cfg) (cf_writecombine cfg) (fr_ok _ Hf)) as (o & sh2 & E2 & Ho).
  pose proof (keeps_zalloc _ _ _ _ _ E2 Hf) as [Hf2 _].
  eapply wp_mem; [exact E2|]. destruct o as [p|].
  - destruct Ho as [_ Had]. rewrite <- Esh in Had.
    apply wp_bind. eapply body_v2_wp; [exact Hfl|exact Hw|exact Hf2|exact Had|done..| |].
    + intros ret hy3 sh3 cb3 h3 acc3 Hr Hh3 [(n & Ho & _) _ (Ets & En & Efe & ->) _].
      apply wp_ret. cbv beta iota. apply (Hfail _ _ _ _ _ (Some p)); try done. by exists n.
    + intros hy3 sh3 cb3 h3 acc3 b v Hh3 Hc3 ? ? ? ? ? ?. apply wp_ret. cbv beta iota.
      apply (wp_bind (mret tt)), wp_ret, wp_ret. by eapply Hgood.
  - apply wp_ret. cbv beta iota. apply (Hfail _ _ _ _ _ None); try done.
    + eapply held_at_mono; [exact Hw|]. apply writing_idle_of.
    + by rewrite Esh.
Qed.

(** What the clean-up makes of it. *)
Lemma cleanup_wp k p hy sh cb h i acc (K : unit → creation → Prop) :
  Held idle hy → new_shadow k (md_shm (cr_dev s0)) → shadow_of k p cb (cr_access s0) acc →
  shadowed k p sh → (match k with FeShadow _ _ => shm_fresh sh | _ => True end) →
  (∀ hy' sh' cb', Held idle hy' → same_memory (md_shm (cr_dev s0)) sh' →
     cb_shadow_ts cb' = NULL → cb_shadow_ts_node cb' = None →
     cb_ctxt_record_mem_node cb' = cb_ctxt_record_mem_node cb →
     K tt (st hy' sh' cb' h i (cr_access s0))) →
  wp (_cleanup_shadow (Some c)) K (st hy sh cb h i acc).
Proof.
  intros Hh Hnew Hsh Hs Hf HK. unfold _cleanup_shadow. apply wp_ctxt.
  set (base := md_shm (cr_dev s0)) in *. destruct k as [|b v|q nq b v].
  - destruct Hsh as (E1 & E2 & _ & ->). rewrite E2. apply wp_ret. by apply HK.
  - destruct Hsh as (E1 & E2 & -> & -> & ->), Hs as (n & Ho & Hnf). pose proof Hnf as (_ & Hb & _).
    destruct (vunmap_own_run base sh p n b v (PTR v) Hf Ho Hnf Hnew) as (sh' & n' & E & _ & Ho' & _).
    eapply wp_mem; [exact (node_run _ _ _ (own_node _ _ _ _ Ho))|]. rewrite Hb, E1. cbn [is_null negb when].
    apply wp_bind. apply wp_bind. eapply wp_mem; [rewrite E2; exact E|]. apply wp_set_ctxt_ret.
    apply (wp_end_ret b).
    apply wp_bind. eapply drop_mem_node_wp; [exact Hh|exact Ho'|]. intros hy2 sh2 Hh2 Hs2.
    apply wp_set_ctxt_ret. by apply HK.
  - destruct Hsh as (E1 & E2 & -> & -> & ->), Hnew as (Hqb & Hqbuf & Hbb & Hv). cbn [shadowed] in Hs.
    assert (sm_nodes sh !! q = Some nq) as Hq by (rewrite (sy_nodes _ _ Hs); apply lookup_insert_eq).
    assert (sm_bufs sh !! b = Some {| db_refs := 1; db_priv := None |}) as Hbuf
      by (rewrite (sy_bufs _ _ Hs); apply lookup_insert_eq).
    eapply wp_mem; [exact (node_run _ _ _ Hq)|]. rewrite Hqbuf, E1. cbn [is_null negb when].
    apply wp_bind. apply wp_bind. eapply wp_mem; [rewrite E2; exact (vunmap_import_run sh b v Hbuf)|].
    apply wp_set_ctxt_ret. set (sh1 := sh <| sm_vmaps ::= λ vs, vs ∖ {[v]} |>).
    apply (wp_end_ret b).
    apply wp_bind. eapply (wp_put_shadowts q nq); [exact Hh|exact Hq|]. intros hy2 Hh2. rewrite Hqbuf.
    eapply (wp_mem_ret _ _ _ _ _ _ _ _ tt); [reflexivity|]. apply wp_set_ctxt_ret.
    apply HK; [done| |done|done|done]. destruct Hs as [Sn Sb Su Sg Sr Sa Sv Sp].
    cbn in *. split; cbn; try done.
    + rewrite Sn. by apply delete_insert_id.
    + rewrite Su. by apply delete_insert_id.
    + rewrite Sv. set_solver.
Qed.
End steps.

(** * Properties *)

Section properties.
Context `{Rbtree} `{SharedMem} `{Hab} `{MemEnv} (cfg : hgsl_cfg).

(** A failure leaves nothing that the driver has: no number, no memory, no mapping, no
    access of the CPU, and the context has no shadow timestamps.  What [node_left] says of
    the pointer to their node is apart; and what the backend has been given, the export of
    the driver's buffer, is not part of this state. *)
Definition nothing_created (s s' : creation) : Prop :=
  HGSL_CONTEXT_NUM ≤ cr_ctxthandle s' ∧ cb_shadow_ts (cr_ctxt s') = NULL ∧
  same_memory (md_shm (cr_dev s)) (md_shm (cr_dev s')) ∧ cr_access s' = cr_access s.

(** A success has the number of a context, and shadow timestamps that are described. *)
Definition all_created (prm : create_params) (pid : Z) (s s' : creation) : Prop :=
  cr_ctxthandle s' < HGSL_CONTEXT_NUM ∧
  cb_priv (cr_ctxt s') = true ∧ cb_context_id (cr_ctxt s') = cr_ctxthandle s' ∧
  cb_devhandle (cr_ctxt s') = pr_devhandle prm ∧ cb_pid (cr_ctxt s') = pid ∧
  cb_flags (cr_ctxt s') = pr_flags prm ∧
  ∃ k p, new_shadow k (md_shm (cr_dev s)) ∧
    shadow_of k p (cr_ctxt s') (cr_access s) (cr_access s') ∧
    shadowed s k p (md_shm (cr_dev s')).

Lemma wp_creation {A} (m : M creation A) K s :
  wp m K (st s (md_hyp (cr_dev s)) (md_shm (cr_dev s)) (cr_ctxt s) (cr_ctxthandle s)
    (cr_dbq_info s) (cr_access s)) → wp m K s.
Proof. by destruct s as [[]]. Qed.

Lemma held_idle hy0 c hy : held hy0 c hy → held_at hy0 c idle hy.
Proof. intros Hh. split; [done|]. destruct (hd_chan _ _ _ Hh) as (ch & ? & ? & _). by exists ch. Qed.

(** C15. Creating a context in the backend ends whatever the backend and the kernel answer, and
    is all or nothing for what the driver has of it: a failure leaves no memory, no mapping
    and no access of the CPU behind, and no number of a context; a success has a valid
    number, and shadow timestamps that are one of three: none, the driver's buffer, mapped,
    or an imported buffer, mapped, and then the driver's buffer is gone.  After a failure
    the context has no node for the shadow timestamps either, except when the answer about
    the doorbell queue is what has failed: then it keeps the address of the node that has
    been freed (create_v1_dangling_node is such a run). *)
Theorem ctxt_create_v1_exact prm pid dbq_off s hy0 c :
  held hy0 c (md_hyp (cr_dev s)) → shm_fresh (md_shm (cr_dev s)) → cr_ctxt s = zeroed_ctxt →
  ∃ ret s', hgsl_hyp_ctxt_create_v1 cfg (Some c) prm pid dbq_off s = Some (ret, s') ∧
    held hy0 c (md_hyp (cr_dev s')) ∧ same_process (cr_dev s) (cr_dev s') ∧
    (ret ≠ 0 ∧ nothing_created s s' ∧ node_left dbq_off (md_shm (cr_dev s')) (cr_ctxt s') ∨
     ret = 0 ∧ all_created prm pid s s').
Proof.
  intros Hh Hf Ec.
  apply (wp_run (hgsl_hyp_ctxt_create_v1 cfg (Some c) prm pid dbq_off)
    (λ ret s', held hy0 c (md_hyp (cr_dev s')) ∧ same_process (cr_dev s) (cr_dev s') ∧
      (ret ≠ 0 ∧ nothing_created s s' ∧ node_left dbq_off (md_shm (cr_dev s')) (cr_ctxt s') ∨
       ret = 0 ∧ all_created prm pid s s')) s).
  apply wp_creation. rewrite Ec.
  eapply (create_v1_wp s hy0 c); [by apply held_idle|done|done| |].
  - intros ret hy' sh' cb' h' i' Hr [Hh' _] Hn Ets Hs Hleft. split; [done|]. split; [by split|]. by left.
  - intros hy' sh' cb' h' i' acc' k p [Hh' _] Hlt Hp Hid Hd Hpid Hfl Hnew Hsh Hs _.
    split; [done|]. split; [by split|]. right. split; [done|].
    repeat (split; [done|]). by exists k, p.
Qed.

(** C16. The clean-up of the shadow timestamps undoes what a creation has made: the memory and
    the mappings are those before it, every access of the CPU has ended, and the context
    has no shadow timestamps any more. *)
Theorem ctxt_create_cleanup prm pid dbq_off s hy0 c :
  held hy0 c (md_hyp (cr_dev s)) → shm_fresh (md_shm (cr_dev s)) → cr_ctxt s = zeroed_ctxt →
  ∃ ret s', hgsl_hyp_ctxt_create_v1 cfg (Some c) prm pid dbq_off s = Some (ret, s') ∧
    (ret = 0 → ∃ s'', _cleanup_shadow (Some c) s' = Some (tt, s'') ∧
       held hy0 c (md_hyp (cr_dev s'')) ∧
       same_memory (md_shm (cr_dev s)) (md_shm (cr_dev s'')) ∧ cr_access s'' = cr_access s ∧
       cb_shadow_ts (cr_ctxt s'') = NULL ∧ cb_shadow_ts_node (cr_ctxt s'') = None).
Proof.
  intros Hh Hf Ec.
  apply (wp_run (hgsl_hyp_ctxt_create_v1 cfg (Some c) prm pid dbq_off)
    (λ ret s', ret = 0 → ∃ s'', _cleanup_shadow (Some c) s' = Some (tt, s'') ∧
       held hy0 c (md_hyp (cr_dev s'')) ∧
       same_memory (md_shm (cr_dev s)) (md_shm (cr_dev s'')) ∧ cr_access s'' = cr_access s ∧
       cb_shadow_ts (cr_ctxt s'') = NULL ∧ cb_shadow_ts_node (cr_ctxt s'') = None) s).
  apply wp_creation. rewrite Ec.
  eapply (create_v1_wp s hy0 c); [by apply held_idle|done|done|done|].
  intros hy' sh' cb' h' i' acc' k p Hh' _ _ _ _ _ _ Hnew Hsh Hs Hfe _.
  destruct (wp_run (_cleanup_shadow (Some c)) (λ _ s'', held hy0 c (md_hyp (cr_dev s'')) ∧
       same_memory (md_shm (cr_dev s)) (md_shm (cr_dev s'')) ∧ cr_access s'' = cr_access s ∧
       cb_shadow_ts (cr_ctxt s'') = NULL ∧ cb_shadow_ts_node (cr_ctxt s'') = None)
     (st s hy' sh' cb' h' i' acc')) as ([] & s'' & E & ?); [|by exists s''].
  eapply (cleanup_wp s hy0 c k p); [done..|]. intros hy2 sh2 cb2 [Hh2 _] Hs2 Ets En _. done.
Qed.

(** C33. With full virtualisation the driver's buffer is the only one there is: creating a
    context that uses protected memory ends whatever the backend and the kernel answer, and
    either fails and leaves nothing on the driver's side, no number, no memory, no mapping
    and no pointer to the node, or has a context whose shadow timestamps are the driver's
    buffer, mapped once.  This is about the driver's side: a failure after the buffer has
    been exported frees it without taking the export back from the backend, which no part
    of this state shows. *)
Theorem ctxt_create_v2_protected prm pid size_KB s hy0 c :
  held hy0 c (md_hyp (cr_dev s)) → shm_fresh (md_shm (cr_dev s)) → cr_ctxt s = zeroed_ctxt →
  has_flag (pr_flags prm) GSL_CONTEXT_FLAG_USES_PROTECTED = true →
  ∃ ret s', hgsl_hyp_ctxt_create_v2 cfg (Some c) prm pid size_KB s = Some (ret, s') ∧
    held hy0 c (md_hyp (cr_dev s')) ∧ same_process (cr_dev s) (cr_dev s') ∧
    (ret ≠ 0 ∧ nothing_created s s' ∧ cb_shadow_ts_node (cr_ctxt s') = None ∧
       cb_is_fe_shadow (cr_ctxt s') = false ∨
     ret = 0 ∧ all_created prm pid s s' ∧ cb_is_fe_shadow (cr_ctxt s') = true).
Proof.
  intros Hh Hf Ec Hfl.
  apply (wp_run (hgsl_hyp_ctxt_create_v2 cfg (Some c) prm pid size_KB)
    (λ ret s', held hy0 c (md_hyp (cr_dev s')) ∧ same_process (cr_dev s) (cr_dev s') ∧
      (ret ≠ 0 ∧ nothing_created s s' ∧ cb_shadow_ts_node (cr_ctxt s') = None ∧
         cb_is_fe_shadow (cr_ctxt s') = false ∨
       ret = 0 ∧ all_created prm pid s s' ∧ cb_is_fe_shadow (cr_ctxt s') = true)) s).
  apply wp_creation. rewrite Ec.
  eapply (create_v2_wp s hy0 c); [done|by apply held_idle|done|done| |].
  - intros ret hy' sh' cb' h' Hr [Hh' _] Hn Ets En Efe Hs. split; [done|]. split; [by split|]. by left.
  - intros hy' sh' cb' h' acc' b v p [Hh' _] Hlt Hp Hid Hd Hpid Hfg [(n & Ho & Hn & _) Hnew Hsh _].
    split; [done|]. split; [by split|]. right. split; [done|].
    split; [|by destruct Hsh as (_ & _ & _ & ? & _)].
    repeat (split; [done|]). exists (FeShadow b v), p. split; [done|]. split; [done|]. by exists n.
Qed.
End properties.

(** * Concrete runs *)

(** A process that has a channel, and a new context. *)
Definition demo_creation : creation :=
  {| cr_dev := demo_process <| md_hyp := match @hgsl_hyp_channel_pool_get (demo_hab 0 []) 0 demo_pool with
                               Some (_, hy) => hy | None => demo_pool end |>;
     cr_ctxt := zeroed_ctxt; cr_ctxthandle := 0; cr_dbq_info := 0; cr_access := [] |}.

Lemma demo_held : held demo_pool 1%positive (md_hyp (cr_dev demo_creation)).
Proof.
  destruct (@held_get (demo_hab 0 []) demo_pool demo_settled) as (ret & o & s1 & E & Hc).
  assert (((λ x, x.1) <$> @hgsl_hyp_channel_pool_get (demo_hab 0 []) 0 demo_pool) =
    Some (0, Some 1%positive)) as Er by (vm_compute; reflexivity).
  unfold demo_creation. cbn [cr_dev]. rewrite E in *.
  cbn [fmap option_fmap option_map fst] in Er. injection Er as -> ->.
  destruct Hc as [(Hr & _)|(_ & c & Ec & Hc)]; [destruct (Hr eq_refl)|]. by injection Ec as <-.
Qed.

Lemma demo_fresh : shm_fresh (md_shm (cr_dev demo_creation)).
Proof. split; [apply demo_process_ok|]. intros v Hv. by vm_compute in Hv. Qed.

Definition demo_create_params : create_params := {| pr_devhandle := 1; pr_type := 2; pr_flags := 0 |}.

(** The answers of a backend that has context 4 for it, takes the driver's buffer, and has
    or has not something to say of a queue. *)
Definition demo_created : list Z :=
  message RPC_CONTEXT_CREATE 1
    [Uint32 4; Int32 GSL_SUCCESS; Blob (memdesc_bytes (mk_mem_node 65536 4096));
     Int32 GSL_SUCCESS; Uint32 3].

Definition demo_cut_short : list Z :=
  message RPC_CONTEXT_CREATE 1
    [Uint32 4; Int32 GSL_SUCCESS; Blob (memdesc_bytes (mk_mem_node 65536 4096))].

Definition demo_v1 (Hh : Hab) : M creation Z :=
  let _ := demo_shm in let _ := demo_mem in
  hgsl_hyp_ctxt_create_v1 demo_cfg (Some 1%positive) demo_create_params 100 false.

Lemma ctxt_create_v1_exact_witness :
  let _ := demo_shm in let _ := demo_hab 0 demo_created in let _ := demo_mem in
  ∃ s', demo_v1 _ demo_creation = Some (0, s') ∧
    all_created demo_create_params 100 demo_creation s' ∧ cr_dbq_info s' = 3.
Proof.
  intros Sh Hb En.
  destruct (ctxt_create_v1_exact demo_cfg demo_create_params 100 false demo_creation demo_pool 1
    demo_held demo_fresh eq_refl) as (ret & s' & E & _ & _ & Hc).
  assert (((λ x : Z * creation, (x.1, cr_dbq_info x.2)) <$> demo_v1 Hb demo_creation) =
    Some (0, 3)) as Er by (vm_compute; reflexivity).
  change (hgsl_hyp_ctxt_create_v1 _ _ _ _ _ _) with (demo_v1 Hb demo_creation) in E.
  rewrite E in Er. cbn [fmap option_fmap option_map fst snd] in Er. injection Er as -> Ei.
  destruct Hc as [(Hr & _)|(_ & Hc)]; [destruct (Hr eq_refl)|].
  exists s'. split; [exact E|]. split; [exact Hc|exact Ei].
Defined.

Lemma ctxt_create_cleanup_witness :
  let _ := demo_shm in let _ := demo_hab 0 demo_created in let _ := demo_mem in
  ∃ s' s'', demo_v1 _ demo_creation = Some (0, s') ∧
    _cleanup_shadow (Some 1%positive) s' = Some (tt, s'') ∧
    same_memory (md_shm (cr_dev demo_creation)) (md_shm (cr_dev s'')).
Proof.
  intros Sh Hb En.
  destruct (ctxt_create_cleanup demo_cfg demo_create_params 100 false demo_creation demo_pool 1
    demo_held demo_fresh eq_refl) as (ret & s' & E & Hc).
  assert (((λ x : Z * creation, x.1) <$> demo_v1 Hb demo_creation) = Some 0) as Er
    by (vm_compute; reflexivity).
  change (hgsl_hyp_ctxt_create_v1 _ _ _ _ _ _) with (demo_v1 Hb demo_creation) in E.
  rewrite E in Er. cbn [fmap option_fmap option_map fst snd] in Er. injection Er as ->.
  destruct (Hc eq_refl) as (s'' & E2 & _ & Hs & _).
  exists s', s''. split; [exact E|]. split; [exact E2|exact Hs].
Defined.

(** A reply that ends before the queue is spoken of: the node of the shadow timestamps has
    been freed, and the context still points to it.  The context that the old call makes
    then keeps it, because [hgsl_get_shadowts_mem] sees that there is one, and its clean-up
    reads the freed node. *)
Theorem create_v1_dangling_node :
  let _ := demo_shm in let _ := demo_hab 0 demo_cut_short in let _ := demo_mem in
  ('(ret, s) ← demo_v1 _ demo_creation;
   '(_, s2) ← hgsl_get_shadowts_mem (Some 1%positive) s;
   p ← cb_shadow_ts_node (cr_ctxt s2);
   Some (ret, cb_is_fe_shadow (cr_ctxt s2), bool_decide (sm_nodes (md_shm (cr_dev s2)) !! p = None),
         bool_decide (_cleanup_shadow (Some 1%positive) s2 = None))) =
  Some (- EINVAL, true, true, true).
Proof. vm_compute. reflexivity. Qed.

Definition demo_protected : create_params := {| pr_devhandle := 1; pr_type := 2; pr_flags := 0x20000 |}.

Lemma ctxt_create_v2_protected_witness :
  let _ := demo_shm in
  let _ := demo_hab 0 (message RPC_CONTEXT_CREATE 2 [Uint32 4; Int32 GSL_SUCCESS]) in
  let _ := demo_mem in
  ∃ s', hgsl_hyp_ctxt_create_v2 demo_cfg (Some 1%positive) demo_protected 100 64 demo_creation = Some (0, s') ∧
    all_created demo_protected 100 demo_creation s'.
Proof.
  intros Sh Hb En.
  destruct (ctxt_create_v2_protected demo_cfg demo_protected 100 64 demo_creation demo_pool 1
    demo_held demo_fresh eq_refl eq_refl) as (ret & s' & E & _ & _ & Hc).
  assert (((λ x : Z * creation, x.1) <$>
    hgsl_hyp_ctxt_create_v2 demo_cfg (Some 1%positive) demo_protected 100 64 demo_creation) = Some 0) as Er
    by (vm_compute; reflexivity).
  rewrite E in Er. cbn [fmap option_fmap option_map fst snd] in Er. injection Er as ->.
  destruct Hc as [(Hr & _)|(_ & Hc & _)]; [destruct (Hr eq_refl)|].
  exists s'. split; [exact E|exact Hc].
Defined.
