(* ===== verification/Forward.v ===== *)
(** The ioctls that forward a request to the backend (hgsl.c): the generic transaction, the
    wait for sync objects, the performance counters, the profiler, the system time.  They
    copy arrays in and out of user memory through buffers of the kernel, whose contents
    matter: what is not written keeps what was there before. *)

From S2P Require Import Prelude.
From S2P Require Import Bytes.
From S2P Require Import State.
From S2P Require Import Parcel.
From S2P Require Import Hyp.
From S2P Require Import HypPool.
From S2P Require Import HypCalls.
From S2P Require Import HypReply.

(** * State *)

Definition SIZE_MAX : Z := 18446744073709551615.
Definition HGSL_HYP_GENERAL_MAX_SIZE : Z := 4096.
Definition HGSL_HYP_GENERAL_MAX_SEND_NUM : Z := 2.
Definition HGSL_HYP_GENERAL_MAX_REPLY_NUM : Z := 1.

(** What hgsl_malloc gives out: bytes, or a structure of the profiler. *)
Inductive buffer := Raw (bytes : list Z) | PerProc (p : per_proc).

(** The channels of the process, the buffers that have not been freed, the address of the
    next one, what has been copied to the user and where, the count of questions. *)
Record requests := {
  rq_hyp : hgsl_hyp_priv_t;
  rq_buffers : gmap ptr buffer;
  rq_next : ptr;
  rq_to_user : list (Z * buffer);
  rq_clock : nat }.

#[export] Instance requests_eta : Eta requests := λ r,
  {| rq_hyp := rq_hyp r; rq_buffers := rq_buffers r; rq_next := rq_next r;
     rq_to_user := rq_to_user r; rq_clock := rq_clock r |}.

(** Memory of the kernel as it is allocated, and memory of the user, which may change at
    any time and may not be there. *)
Class UserMem := {
  us_malloc : nat → Z → option (list Z);
  us_per_proc : nat → option per_proc;
  us_from_user : nat → Z → Z → option (list Z);   (* at an address, so many bytes *)
  us_to_user : nat → bool;
  us_malloc_size : ∀ t n mem, us_malloc t n = Some mem → Z.of_nat (length mem) = n;
  us_from_user_size : ∀ t addr n mem, us_from_user t addr n = Some mem → Z.of_nat (length mem) = n }.

(** struct hgsl_ioctl_hyp_generic_transaction_params: the arrays have the constant lengths
    above. *)
Record generic_params := {
  gp_send_data : list Z;
  gp_reply_data : list Z;
  gp_send_size : list Z;
  gp_reply_size : list Z;
  gp_send_num : Z;
  gp_reply_num : Z;
  gp_cmd_id : Z;
  gp_ret_value : Z }.

(** struct hgsl_ioctl_syncobj_wait_multiple_params. *)
Record syncobj_params := {
  sp_num_syncobjs : Z;
  sp_rpc_syncobj : Z;
  sp_status : Z;
  sp_timeout_ms : Z;
  sp_result : Z }.

#[export] Instance syncobj_params_eta : Eta syncobj_params := λ r,
  {| sp_num_syncobjs := sp_num_syncobjs r; sp_rpc_syncobj := sp_rpc_syncobj r;
     sp_status := sp_status r; sp_timeout_ms := sp_timeout_ms r; sp_result := sp_result r |}.

(** struct hgsl_ioctl_perfcounter_select_params. *)
Record select_params := {
  ps_groups : Z;
  ps_counter_ids : Z;
  ps_counter_val_regs : Z;
  ps_counter_val_hi_regs : Z;
  ps_devhandle : Z;
  ps_ctxthandle : Z;
  ps_num_counters : Z;
  ps_rval : Z }.

#[export] Instance select_params_eta : Eta select_params := λ r,
  {| ps_groups := ps_groups r; ps_counter_ids := ps_counter_ids r;
     ps_counter_val_regs := ps_counter_val_regs r;
     ps_counter_val_hi_regs := ps_counter_val_hi_regs r; ps_devhandle := ps_devhandle r;
     ps_ctxthandle := ps_ctxthandle r; ps_num_counters := ps_num_counters r;
     ps_rval := ps_rval r |}.

(** struct hgsl_ioctl_perfcounter_deselect_params. *)
Record deselect_params := {
  pd_groups : Z;
  pd_counter_ids : Z;
  pd_devhandle : Z;
  pd_ctxthandle : Z;
  pd_timestamp : Z;
  pd_num_counters : Z }.

(** struct hgsl_ioctl_perfcounter_query_selections_params. *)
Record query_params := {
  pq_selections : Z;
  pq_devhandle : Z;
  pq_ctxthandle : Z;
  pq_num_counters : Z;
  pq_group : Z;
  pq_max_counters : Z }.

#[export] Instance query_params_eta : Eta query_params := λ r,
  {| pq_selections := pq_selections r; pq_devhandle := pq_devhandle r;
     pq_ctxthandle := pq_ctxthandle r; pq_num_counters := pq_num_counters r;
     pq_group := pq_group r; pq_max_counters := pq_max_counters r |}.

(** struct hgsl_ioctl_perfcounter_read_params. *)
Record counter_params := {
  pc_value : Z;
  pc_devhandle : Z;
  pc_group : Z;
  pc_counter : Z;
  pc_rval : Z }.

#[export] Instance counter_params_eta : Eta counter_params := λ r,
  {| pc_value := pc_value r; pc_devhandle := pc_devhandle r; pc_group := pc_group r;
     pc_counter := pc_counter r; pc_rval := pc_rval r |}.

(** struct hgsl_ioctl_gslprofiler_per_proc_gpu_busy_params, and the one for pmem without
    the sampling time. *)
Record profiler_params := {
  pf_data : Z;
  pf_sampling_time : Z;
  pf_channel_id : Z }.

#[export] Instance profiler_params_eta : Eta profiler_params := λ r,
  {| pf_data := pf_data r; pf_sampling_time := pf_sampling_time r;
     pf_channel_id := pf_channel_id r |}.

(** * Operations *)

Section forward.
Context `{Hab} `{UserMem}.

Abbreviation RM := (M requests).

Definition rq_ask {A} (q : nat → A) : RM A :=
  a ← gets (λ s, q (rq_clock s)); modify (λ s, s <| rq_clock ::= S |>) ;; mret a.

Definition to_backend {A} (m : M hgsl_hyp_priv_t A) : RM A := λ s,
  '(a, h) ← m (rq_hyp s); Some (a, s <| rq_hyp := h |>).

(** ** Buffers *)

Definition new_buffer (b : buffer) : RM ptr :=
  p ← gets rq_next;
  modify (λ s, s <| rq_next ::= Pos.succ |> <| rq_buffers ::= <[p := b]> |>) ;;
  mret p.

Definition hgsl_malloc (size : Z) : RM (option ptr) :=
  o ← rq_ask (λ t, us_malloc t size);
  match o with
  | None => mret None
  | Some mem => p ← new_buffer (Raw mem); mret (Some p)
  end.

Definition malloc_per_proc : RM (option ptr) :=
  o ← rq_ask us_per_proc;
  match o with
  | None => mret None
  | Some pp => p ← new_buffer (PerProc pp); mret (Some p)
  end.

(** A fault when it is not there any more. *)
Definition hgsl_free (o : option ptr) : RM unit :=
  match o with
  | None => mret tt
  | Some p =>
      b ← gets (λ s, rq_buffers s !! p);
      _ ← of_option b;
      modify (λ s, s <| rq_buffers ::= delete p |>)
  end.

Definition contents (p : ptr) : RM (list Z) :=
  b ← gets (λ s, rq_buffers s !! p);
  match b with Some (Raw mem) => mret mem | _ => fault end.

Definition write_buffer (p : ptr) (i : Z) (data : list Z) : RM unit :=
  mem ← contents p;
  mem ← of_option (memcpy mem (Z.to_nat i) data);
  modify (λ s, s <| rq_buffers ::= <[p := Raw mem]> |>).

(** An out-parameter that a call may not have set. *)
Definition write_out (p : ptr) (i : Z) (data : option (list Z)) : RM unit :=
  match data with Some data => write_buffer p i data | None => mret tt end.

Definition memset0 (p : ptr) (size : Z) : RM unit :=
  write_buffer p 0 (replicate (Z.to_nat size) 0).

(** Both say whether something could not be copied. *)
Definition copy_from_user (p : ptr) (i addr size : Z) : RM bool :=
  o ← rq_ask (λ t, us_from_user t addr size);
  match o with
  | None => mret true
  | Some data => write_buffer p i data ;; mret false
  end.

Definition copied_out (addr : Z) (b : buffer) : RM bool :=
  ok ← rq_ask us_to_user;
  if (ok : bool) then modify (λ s, s <| rq_to_user ::= (λ l, l ++ [(addr, b)]) |>) ;; mret false
  else mret true.

Definition copy_to_user (addr : Z) (p : ptr) (i size : Z) : RM bool :=
  mem ← contents p;
  data ← of_option (peek mem (Z.to_nat i) (Z.to_nat size));
  copied_out addr (Raw data).

(** [if (copy_...) { ret = -EFAULT; goto out; }] *)
Definition or_efault (m : RM bool) (k : RM Z) : RM Z :=
  bad ← m; if (bad : bool) then mret (- EFAULT) else k.

(** ** The generic transaction *)

(** The buffers that have been allocated, also when it fails. *)
Fixpoint copy_sends (prm : generic_params) (i n : nat) (pSend : list ptr) : RM (Z * list ptr) :=
  match n with
  | O => mret (0, pSend)
  | S n =>
      size ← of_option (gp_send_size prm !! i);
      if (HGSL_HYP_GENERAL_MAX_SIZE <? size) || (size =? 0) then mret (- EINVAL, pSend)
      else
        o ← hgsl_malloc size;
        match o with
        | None => mret (- ENOMEM, pSend)
        | Some p =>
            addr ← of_option (gp_send_data prm !! i);
            bad ← copy_from_user p 0 addr size;
            if (bad : bool) then mret (- EFAULT, pSend ++ [p])
            else copy_sends prm (S i) n (pSend ++ [p])
        end
  end.

Fixpoint make_replies (prm : generic_params) (i n : nat) (pReply : list ptr) : RM (Z * list ptr) :=
  match n with
  | O => mret (0, pReply)
  | S n =>
      size ← of_option (gp_reply_size prm !! i);
      if (HGSL_HYP_GENERAL_MAX_SIZE <? size) || (size =? 0) then mret (- EINVAL, pReply)
      else
        o ← hgsl_malloc size;
        match o with
        | None => mret (- ENOMEM, pReply)
        | Some p => memset0 p size ;; make_replies prm (S i) n (pReply ++ [p])
        end
  end.

Fixpoint all_contents (ps : list ptr) : RM (list (list Z)) :=
  match ps with
  | [] => mret []
  | p :: ps => mem ← contents p; mems ← all_contents ps; mret (mem :: mems)
  end.

(** What the call has read of the reply goes into the buffers, one after the other. *)
Fixpoint write_replies (ps : list ptr) (data : list (list Z)) : RM unit :=
  match ps, data with
  | p :: ps, mem :: data => write_buffer p 0 mem ;; write_replies ps data
  | _, [] => mret tt
  | [], _ :: _ => fault
  end.

Fixpoint copy_replies (prm : generic_params) (i : nat) (ps : list ptr) (k : RM Z) : RM Z :=
  match ps with
  | [] => k
  | p :: ps =>
      addr ← of_option (gp_reply_data prm !! i);
      size ← of_option (gp_reply_size prm !! i);
      or_efault (copy_to_user addr p 0 size) (copy_replies prm (S i) ps k)
  end.

(** [ret_value] is 0 unless the call sets it. *)
Definition transact (prm : generic_params) (pSend pReply : list ptr) : RM Z :=
  sends ← all_contents pSend;
  '(ret, (replies, rval)) ← to_backend (hgsl_hyp_generic_transaction (gp_cmd_id prm) sends
     (take (Z.to_nat (gp_reply_num prm)) (gp_reply_size prm)) (negb (gp_ret_value prm =? 0)));
  write_replies pReply replies ;;
  if negb (ret =? 0) then mret ret
  else
    copy_replies prm 0 pReply
      (if negb (gp_ret_value prm =? 0) then
         or_efault (copied_out (gp_ret_value prm) (Raw (le_bytes 4 (u32 (default 0 rval))))) (mret 0)
       else mret 0).

Definition hgsl_ioctl_hyp_generic_transaction (prm : generic_params) : RM Z :=
  if (HGSL_HYP_GENERAL_MAX_SEND_NUM <? gp_send_num prm) ||
     (HGSL_HYP_GENERAL_MAX_REPLY_NUM <? gp_reply_num prm) then mret (- EINVAL)
  else
    '(ret, pSend) ← copy_sends prm 0 (Z.to_nat (gp_send_num prm)) [];
    '(ret, pReply) ←
      (if negb (ret =? 0) then mret (ret, [])
       else make_replies prm 0 (Z.to_nat (gp_reply_num prm)) []);
    ret ← (if negb (ret =? 0) then mret ret else transact prm pSend pReply);
    for_each pSend (λ p, hgsl_free (Some p)) ;;
    for_each pReply (λ p, hgsl_free (Some p)) ;;
    mret ret.

(** ** Sync objects, and the time *)

Fixpoint u64s_at (n : nat) (mem : list Z) : list Z :=
  match n with
  | O => []
  | S n => le_value (take 8 mem) :: u64s_at n (drop 8 mem)
  end.

Definition syncobj_wait (prm : syncobj_params) (rpc_syncobj status : ptr) :
    RM (Z * syncobj_params) :=
  let num := sp_num_syncobjs prm in
  memset0 status (4 * num) ;;
  mem ← contents rpc_syncobj;
  '(ret, (st, result)) ← to_backend (hgsl_hyp_syncobj_wait_multiple
     (u64s_at (Z.to_nat num) mem) num (sp_timeout_ms prm));
  write_out status 0 st ;;
  let prm := match result with Some r => prm <| sp_result := u32 r |> | None => prm end in
  ret ← (if negb (ret =? 0) then mret ret
         else or_efault (copy_to_user (sp_status prm) status 0 (4 * num)) (mret 0));
  mret (ret, prm).

Definition hgsl_ioctl_syncobj_wait_multiple (prm : syncobj_params) : RM (Z * syncobj_params) :=
  let num := sp_num_syncobjs prm in
  if (num =? 0) || (SIZE_MAX / 8 <? num) || (SIZE_MAX / 4 <? num) then mret (- EINVAL, prm)
  else
    o ← hgsl_malloc (8 * num);
    '(ret, prm, status) ←
      match o with
      | None => mret (- ENOMEM, prm, None)
      | Some rpc_syncobj =>
          bad ← copy_from_user rpc_syncobj 0 (sp_rpc_syncobj prm) (8 * num);
          if (bad : bool) then mret (- EFAULT, prm, None)
          else
            st ← hgsl_malloc (4 * num);
            match st with
            | None => mret (- ENOMEM, prm, None)
            | Some status =>
                '(ret, prm) ← syncobj_wait prm rpc_syncobj status; mret (ret, prm, Some status)
            end
      end;
    hgsl_free o ;;
    hgsl_free status ;;
    mret (ret, prm).

(** The time takes the place of what it is asked for. *)
Definition hgsl_ioctl_get_system_time (param : Z) : RM (Z * Z) :=
  '(ret, time) ← to_backend (hgsl_hyp_get_system_time (u32 param));
  mret (ret, default param time).

(** ** Performance counters *)

(** The values that have been selected are handed back, when there are any. *)
Definition give_counters (prm : select_params) (groups : ptr) (ret : Z) : RM Z :=
  let size := 4 * ps_num_counters prm in
  if negb (ret =? 0) then mret ret
  else
    or_efault (copy_to_user (ps_counter_val_regs prm) groups (2 * size) size)
      (if negb (ps_counter_val_hi_regs prm =? 0) then
         or_efault (copy_to_user (ps_counter_val_hi_regs prm) groups (3 * size) size) (mret 0)
       else mret 0).

(** The four arrays are one after the other in the buffer. *)
Definition select_counters (prm : select_params) (groups : ptr) : RM (Z * select_params) :=
  let size := 4 * ps_num_counters prm in
  bad ← copy_from_user groups 0 (ps_groups prm) size;
  if (bad : bool) then mret (- EFAULT, prm)
  else
    bad ← copy_from_user groups size (ps_counter_ids prm) size;
    if (bad : bool) then mret (- EFAULT, prm)
    else
      mem ← contents groups;
      '(ret, (rval, val_regs, val_hi_regs)) ← to_backend
         (hgsl_hyp_perfcounter_select (ps_devhandle prm) (ps_ctxthandle prm)
            (ps_num_counters prm) mem (drop (Z.to_nat size) mem));
      write_out groups (2 * size) val_regs ;;
      write_out groups (3 * size) val_hi_regs ;;
      ret ← give_counters prm groups ret;
      mret (ret, match rval with Some r => prm <| ps_rval := u32 r |> | None => prm end).

Definition hgsl_ioctl_perfcounter_select (prm : select_params) : RM (Z * select_params) :=
  if (ps_num_counters prm <=? 0) || (SIZE_MAX / 16 <? ps_num_counters prm)
  then mret (- EINVAL, prm)
  else
    o ← hgsl_malloc (16 * ps_num_counters prm);
    '(ret, prm) ←
      match o with
      | None => mret (- ENOMEM, prm)
      | Some groups => select_counters prm groups
      end;
    hgsl_free o ;;
    mret (ret, prm).

Definition deselect_counters (prm : deselect_params) (groups : ptr) : RM Z :=
  let size := 4 * pd_num_counters prm in
  or_efault (copy_from_user groups 0 (pd_groups prm) size)
    (or_efault (copy_from_user groups size (pd_counter_ids prm) size)
      (mem ← contents groups;
       '(ret, _) ← to_backend
          (hgsl_hyp_perfcounter_deselect (pd_devhandle prm) (pd_ctxthandle prm) (pd_timestamp prm)
             (pd_num_counters prm) mem (drop (Z.to_nat size) mem));
       mret ret)).

Definition hgsl_ioctl_perfcounter_deselect (prm : deselect_params) : RM Z :=
  if (pd_num_counters prm <=? 0) || (SIZE_MAX / 8 <? pd_num_counters prm) then mret (- EINVAL)
  else
    o ← hgsl_malloc (8 * pd_num_counters prm);
    ret ← match o with
          | None => mret (- ENOMEM)
          | Some groups => deselect_counters prm groups
          end;
    hgsl_free o ;;
    mret ret.

Definition query_selections (prm : query_params) (selections : ptr) : RM (Z * query_params) :=
  let size := 4 * pq_num_counters prm in
  memset0 selections size ;;
  '(ret, (max_counters, data)) ← to_backend
     (hgsl_hyp_perfcounter_query_selections (pq_devhandle prm) (pq_ctxthandle prm) (pq_group prm)
        (pq_num_counters prm) true);
  write_out selections 0 data ;;
  let prm := match max_counters with Some m => prm <| pq_max_counters := u32 m |> | None => prm end in
  ret ← (if negb (ret =? 0) then mret ret
         else if negb (pq_selections prm =? 0) then
           or_efault (copy_to_user (pq_selections prm) selections 0 size) (mret 0)
         else mret 0);
  mret (ret, prm).

Definition hgsl_ioctl_perfcounter_query_selection (prm : query_params) : RM (Z * query_params) :=
  if (pq_num_counters prm <=? 0) || (SIZE_MAX / 4 <? pq_num_counters prm) then mret (- EINVAL, prm)
  else
    o ← hgsl_malloc (4 * pq_num_counters prm);
    '(ret, prm) ←
      match o with
      | None => mret (- ENOMEM, prm)
      | Some selections => query_selections prm selections
      end;
    hgsl_free o ;;
    mret (ret, prm).

Definition hgsl_ioctl_perfcounter_read (prm : counter_params) : RM (Z * counter_params) :=
  '(ret, (rval, value)) ← to_backend
     (hgsl_hyp_perfcounter_read (pc_devhandle prm) (pc_group prm) (pc_counter prm));
  let prm := match rval with Some r => prm <| pc_rval := u32 r |> | None => prm end in
  mret (ret, match value with Some v => prm <| pc_value := v |> | None => prm end).

(** ** The profiler

    The structure is handed to the user as it is, with what the call has written to it. *)

Definition profile (prm : profiler_params) (call : per_proc → M hgsl_hyp_priv_t (Z * per_proc)) :
    RM (Z * profiler_params) :=
  o ← malloc_per_proc;
  '(ret, prm) ←
    match o with
    | None => mret (- ENOMEM, prm)
    | Some p =>
        b ← gets (λ s, rq_buffers s !! p);
        match b with
        | Some (PerProc pp) =>
            '(ret, pp) ← to_backend (call (pp <| pp_channel_id := pf_channel_id prm |>));
            modify (λ s, s <| rq_buffers ::= <[p := PerProc pp]> |>) ;;
            let prm := prm <| pf_channel_id := pp_channel_id pp |> in
            if negb (ret =? 0) then mret (ret, prm)
            else
              ret ← or_efault (copied_out (pf_data prm) (PerProc pp)) (mret 0);
              mret (ret, prm)
        | _ => fault
        end
    end;
  hgsl_free o ;;
  mret (ret, prm).

Definition hgsl_ioctl_gslprofiler_per_proc_gpu_busy (prm : profiler_params) :
    RM (Z * profiler_params) :=
  profile prm (hgsl_hyp_gslprofiler_per_proc_gpu_busy (pf_sampling_time prm)).

Definition hgsl_ioctl_gslprofiler_per_proc_gpu_pmem (prm : profiler_params) :
    RM (Z * profiler_params) :=
  profile prm hgsl_hyp_gslprofiler_per_proc_gpu_pmem.
End forward.

(** * Specification *)

(** The buffers of a call, [l], over those of others, [base]; its channels and what the
    user has got. *)
Record holds (base l : gmap ptr buffer) (hy : hgsl_hyp_priv_t) (u : list (Z * buffer))
    (s : requests) : Prop := {
  ho_buffers : rq_buffers s = l ∪ base;
  ho_disjoint : l ##ₘ base;
  ho_next : ∀ p, is_Some (rq_buffers s !! p) → (p < rq_next s)%positive;
  ho_hyp : rq_hyp s = hy;
  ho_user : rq_to_user s = u }.

Definition requests_ok (s : requests) : Prop :=
  ∀ p, is_Some (rq_buffers s !! p) → (p < rq_next s)%positive.

(** The requests, by the ioctl that makes them. *)
Inductive forward :=
| Generic (prm : generic_params)
| SyncobjWait (prm : syncobj_params)
| SystemTime (param : Z)
| Select (prm : select_params)
| Deselect (prm : deselect_params)
| QuerySelection (prm : query_params)
| ReadCounter (prm : counter_params).

(** The sizes for which the calls behave.  An array that a request asks for fits into the
    buffer of the reply, or is larger than any such buffer and refused by the reader.  The
    user may ask for the sizes in between as well, which the ioctls accept; then the reader
    can run past the end of the buffer.  The numbers of counters and of sync objects are
    bounded such that the sizes of their arrays do not wrap around. *)
Definition forward_ok (f : forward) : Prop :=
  match f with
  | Generic prm =>
      length (gp_send_data prm) = 2%nat ∧ length (gp_send_size prm) = 2%nat ∧
      length (gp_reply_data prm) = 1%nat ∧ length (gp_reply_size prm) = 1%nat ∧
      Forall is_u32 (gp_send_size prm) ∧ 0 ≤ gp_send_num prm ∧ 0 ≤ gp_reply_num prm ∧
      Forall (λ size, reply_fits size 24) (gp_reply_size prm)
  | SyncobjWait prm => 0 ≤ sp_num_syncobjs prm ≤ 134217728 ∧ reply_fits (4 * sp_num_syncobjs prm) 24
  | SystemTime _ => True
  | Select prm => ps_num_counters prm ≤ 268435456 ∧
      (24 + 2 * (4 * ps_num_counters prm + 20) + 16 ≤ 4096 ∨ 4064 < 4 * ps_num_counters prm)
  | Deselect prm => pd_num_counters prm ≤ 268435456
  | QuerySelection prm => reply_fits (4 * pq_num_counters prm) 24
  | ReadCounter _ => True
  end.

Section specification.
Context `{Hab} `{UserMem}.

(** The request, and what it is when the call has set its results. *)
Definition run_forward (f : forward) : M requests (Z * forward) :=
  match f with
  | Generic prm => ret ← hgsl_ioctl_hyp_generic_transaction prm; mret (ret, f)
  | SyncobjWait prm =>
      '(ret, prm) ← hgsl_ioctl_syncobj_wait_multiple prm; mret (ret, SyncobjWait prm)
  | SystemTime param => '(ret, param) ← hgsl_ioctl_get_system_time param; mret (ret, SystemTime param)
  | Select prm => '(ret, prm) ← hgsl_ioctl_perfcounter_select prm; mret (ret, Select prm)
  | Deselect prm => ret ← hgsl_ioctl_perfcounter_deselect prm; mret (ret, f)
  | QuerySelection prm =>
      '(ret, prm) ← hgsl_ioctl_perfcounter_query_selection prm; mret (ret, QuerySelection prm)
  | ReadCounter prm => '(ret, prm) ← hgsl_ioctl_perfcounter_read prm; mret (ret, ReadCounter prm)
  end.

(** What the memory of the user has been at some time. *)
Definition from_user (addr size : Z) (mem : list Z) : Prop :=
  ∃ t, us_from_user t addr size = Some mem.

Definition zeros (size : Z) : list Z := replicate (Z.to_nat size) 0.

(** The call that a request stands for, with what has been read from the user; its return
    code and the channels after it; the results in the parameters, and the arrays for the
    user.  What a call has not set of an array is zero, but for [select], where it is what
    the memory held before. *)
Inductive forwards (hy : hgsl_hyp_priv_t) :
    forward → hyp_call → Z → hgsl_hyp_priv_t → forward → list (Z * buffer) → Prop :=
| ForwardsGeneric prm sends sizes want r replies rval hy' :
    length sends = Z.to_nat (gp_send_num prm) →
    (∀ i mem, sends !! i = Some mem → ∃ addr size,
       gp_send_data prm !! i = Some addr ∧ gp_send_size prm !! i = Some size ∧
       from_user addr size mem) →
    sizes = take (Z.to_nat (gp_reply_num prm)) (gp_reply_size prm) →
    want = negb (gp_ret_value prm =? 0) →
    hgsl_hyp_generic_transaction (gp_cmd_id prm) sends sizes want hy =
      Some ((r, (replies, rval)), hy') →
    forwards hy (Generic prm) (GenericTransaction (gp_cmd_id prm) sends sizes want) r hy' (Generic prm)
      (imap (λ i '(addr, size), (addr, Raw (default (zeros size) (replies !! i))))
         (zip (gp_reply_data prm) sizes) ++
       if want then [(gp_ret_value prm, Raw (le_bytes 4 (u32 (default 0 rval))))] else [])
| ForwardsSyncobj prm num objs mem r status result hy' :
    num = sp_num_syncobjs prm → from_user (sp_rpc_syncobj prm) (8 * num) mem →
    objs = u64s_at (Z.to_nat num) mem →
    hgsl_hyp_syncobj_wait_multiple objs num (sp_timeout_ms prm) hy =
      Some ((r, (status, result)), hy') →
    forwards hy (SyncobjWait prm) (SyncobjWaitMultiple objs num (sp_timeout_ms prm)) r hy'
      (SyncobjWait match result with Some x => prm <| sp_result := u32 x |> | None => prm end)
      [(sp_status prm, Raw (default (zeros (4 * num)) status))]
| ForwardsTime param r time hy' :
    hgsl_hyp_get_system_time (u32 param) hy = Some ((r, time), hy') →
    forwards hy (SystemTime param) (GetSystemTime (u32 param)) r hy'
      (SystemTime (default param time)) []
| ForwardsSelect prm num groups ids before before_hi r rval val_regs val_hi_regs hy' :
    num = ps_num_counters prm →
    from_user (ps_groups prm) (4 * num) groups → from_user (ps_counter_ids prm) (4 * num) ids →
    hgsl_hyp_perfcounter_select (ps_devhandle prm) (ps_ctxthandle prm) num
      (groups ++ ids ++ before ++ before_hi) (ids ++ before ++ before_hi) hy =
      Some ((r, (rval, val_regs, val_hi_regs)), hy') →
    forwards hy (Select prm)
      (PerfcounterSelect (ps_devhandle prm) (ps_ctxthandle prm) num
         (groups ++ ids ++ before ++ before_hi) (ids ++ before ++ before_hi)) r hy'
      (Select match rval with Some x => prm <| ps_rval := u32 x |> | None => prm end)
      ((ps_counter_val_regs prm, Raw (default before val_regs)) ::
       if negb (ps_counter_val_hi_regs prm =? 0)
       then [(ps_counter_val_hi_regs prm, Raw (default before_hi val_hi_regs))] else [])
| ForwardsDeselect prm num groups ids r hy' :
    num = pd_num_counters prm →
    from_user (pd_groups prm) (4 * num) groups → from_user (pd_counter_ids prm) (4 * num) ids →
    hgsl_hyp_perfcounter_deselect (pd_devhandle prm) (pd_ctxthandle prm) (pd_timestamp prm) num
      (groups ++ ids) ids hy = Some ((r, tt), hy') →
    forwards hy (Deselect prm)
      (PerfcounterDeselect (pd_devhandle prm) (pd_ctxthandle prm) (pd_timestamp prm) num
         (groups ++ ids) ids) r hy' (Deselect prm) []
| ForwardsQuery prm num r max_counters data hy' :
    num = pq_num_counters prm →
    hgsl_hyp_perfcounter_query_selections (pq_devhandle prm) (pq_ctxthandle prm) (pq_group prm)
      num true hy = Some ((r, (max_counters, data)), hy') →
    forwards hy (QuerySelection prm)
      (PerfcounterQuerySelections (pq_devhandle prm) (pq_ctxthandle prm) (pq_group prm) num true)
      r hy'
      (QuerySelection match max_counters with Some m => prm <| pq_max_counters := u32 m |> | None => prm end)
      (if negb (pq_selections prm =? 0)
       then [(pq_selections prm, Raw (default (zeros (4 * num)) data))] else [])
| ForwardsRead prm r rval value hy' :
    hgsl_hyp_perfcounter_read (pc_devhandle prm) (pc_group prm) (pc_counter prm) hy =
      Some ((r, (rval, value)), hy') →
    forwards hy (ReadCounter prm) (PerfcounterRead (pc_devhandle prm) (pc_group prm) (pc_counter prm))
      r hy'
      (ReadCounter (let prm := match rval with Some x => prm <| pc_rval := u32 x |> | None => prm end in
                    match value with Some v => prm <| pc_value := v |> | None => prm end)) [].

(** The parameters that the ioctls check, and refuse. *)
Definition malformed (f : forward) : Prop :=
  let bad_size size := HGSL_HYP_GENERAL_MAX_SIZE < size ∨ size = 0 in
  match f with
  | Generic prm =>
      HGSL_HYP_GENERAL_MAX_SEND_NUM < gp_send_num prm ∨
      HGSL_HYP_GENERAL_MAX_REPLY_NUM < gp_reply_num prm ∨
      Exists bad_size (take (Z.to_nat (gp_send_num prm)) (gp_send_size prm)) ∨
      Exists bad_size (take (Z.to_nat (gp_reply_num prm)) (gp_reply_size prm))
  | SyncobjWait prm => sp_num_syncobjs prm = 0 ∨ SIZE_MAX / 8 < sp_num_syncobjs prm
  | Select prm => ps_num_counters prm ≤ 0 ∨ SIZE_MAX / 16 < ps_num_counters prm
  | Deselect prm => pd_num_counters prm ≤ 0 ∨ SIZE_MAX / 8 < pd_num_counters prm
  | QuerySelection prm => pq_num_counters prm ≤ 0 ∨ SIZE_MAX / 4 < pq_num_counters prm
  | SystemTime _ | ReadCounter _ => False
  end.

(** Some memory could not be allocated; some memory of the user could not be read. *)
Definition no_memory : Prop := ∃ t size, us_malloc t size = None.
Definition unreadable : Prop := ∃ t addr size, us_from_user t addr size = None.

(** A request is refused for a cause. *)
Definition refusal (f : forward) (ret : Z) : Prop :=
  ret = - EINVAL ∧ malformed f ∨ ret = - ENOMEM ∧ no_memory ∨ ret = - EFAULT ∧ unreadable.

(** The request is refused before anything is sent, or its call is made, and then an error
    of the call is the error of the request; a success of the call gives all its arrays to
    the user, or those before the one that cannot be copied. *)
Definition answered_as (f : forward) (s : requests) (ret : Z) (f' : forward) (s' : requests) : Prop :=
  (rq_hyp s' = rq_hyp s ∧ rq_to_user s' = rq_to_user s ∧ f' = f ∧ refusal f ret) ∨
  ∃ k r arrays, forwards (rq_hyp s) f k r (rq_hyp s') f' arrays ∧ call_ok k ∧
    run_call k (rq_hyp s) = Some (r, rq_hyp s') ∧
    ∃ given rest, arrays = given ++ rest ∧
      (r ≠ 0 ∧ ret = r ∧ rq_to_user s' = rq_to_user s ∨
       r = 0 ∧ rq_to_user s' = rq_to_user s ++ given ∧
         (ret = 0 ∧ rest = [] ∨ ret = - EFAULT ∧ rest ≠ [])).
End specification.

(** * Lemmas *)

Section buffers.
Context `{Hab} `{UserMem}.

Abbreviation RM := (M requests).

Lemma wp_bind_ret {A} (m : RM A) Q s : wp (m ≫= mret) Q s → wp m Q s.
Proof. unfold wp, mbind, M_bind. by destruct (m s) as [[a s']|]. Qed.

Lemma wp_bind_assoc2 {A B} (m1 m2 : RM unit) (m3 : RM A) (k : A → RM B) Q s :
  wp ((m1 ;; m2 ;; m3) ≫= k) Q s → wp (m1 ;; m2 ;; m3 ≫= k) Q s.
Proof.
  unfold wp, mbind, M_bind. destruct (m1 s) as [[[] s1]|]; [|done]. by destruct (m2 s1) as [[[] s2]|].
Qed.

Lemma holds_clock base l hy u s f : holds base l hy u s → holds base l hy u (s <| rq_clock ::= f |>).
Proof. by intros []. Qed.

Lemma wp_rq_ask {A B} (q : nat → A) (k : A → RM B) K base l hy u s :
  holds base l hy u s →
  (∀ t s', holds base l hy u s' → wp (k (q t)) K s') → wp (rq_ask q ≫= k) K s.
Proof.
  intros Hs Hk. change (wp (k (q (rq_clock s))) K (s <| rq_clock ::= S |>)). by apply Hk, holds_clock.
Qed.

Lemma holds_lookup base l hy u s p b :
  holds base l hy u s → l !! p = Some b → rq_buffers s !! p = Some b.
Proof. intros [E _ _ _ _] Hp. rewrite E. by apply lookup_union_Some_l. Qed.

Lemma wp_new_buffer {B} b (k : ptr → RM B) K base l hy u s :
  holds base l hy u s →
  (∀ p s', l !! p = None → holds base (<[p := b]> l) hy u s' → wp (k p) K s') →
  wp (new_buffer b ≫= k) K s.
Proof.
  intros [E Hd Hn Hh Hu] Hk. set (p := rq_next s).
  assert (rq_buffers s !! p = None) as Hp.
  { destruct (rq_buffers s !! p) eqn:Ep; [|done]. by destruct (Pos.lt_irrefl p (Hn p ltac:(eauto))). }
  assert (l !! p = None ∧ base !! p = None) as [Hl Hb] by (apply lookup_union_None; by rewrite <- E).
  change (wp (k p) K (s <| rq_next ::= Pos.succ |> <| rq_buffers ::= <[p := b]> |>)).
  apply (Hk p); [done|]. split; cbn; [|by apply map_disjoint_insert_l_2| |done|done].
  - by rewrite E, insert_union_l.
  - subst p. intros q [->|[_ Hq]]%lookup_insert_is_Some; [lia|]. specialize (Hn q Hq). lia.
Qed.

Lemma wp_malloc {B} size (k : option ptr → RM B) K base l hy u s :
  holds base l hy u s →
  (∀ s', holds base l hy u s' → no_memory → wp (k None) K s') →
  (∀ p mem s', l !! p = None → Z.of_nat (length mem) = size →
     holds base (<[p := Raw mem]> l) hy u s' → wp (k (Some p)) K s') →
  wp (hgsl_malloc size ≫= k) K s.
Proof.
  intros Hs Hnone Hsome. unfold hgsl_malloc. apply wp_bind. eapply wp_rq_ask; [exact Hs|].
  intros t s1 Hs1. destruct (us_malloc t size) as [mem|] eqn:E.
  - eapply wp_new_buffer; [exact Hs1|]. intros p s2 Hp Hs2. apply wp_ret.
    by eapply Hsome; [|eapply us_malloc_size|].
  - apply wp_ret, Hnone; [done|]. by exists t, size.
Qed.

Lemma wp_free {B} p b (k : unit → RM B) K base l hy u s :
  holds base l hy u s → l !! p = Some b →
  (∀ s', holds base (delete p l) hy u s' → wp (k tt) K s') →
  wp (hgsl_free (Some p) ≫= k) K s.
Proof.
  intros Hs Hp Hk. unfold wp. rewrite (bind_run _ _ _ tt (s <| rq_buffers ::= delete p |>)).
  2:{ unfold hgsl_free. rewrite (bind_run _ _ s (Some b) s); [done|].
      unfold gets. by rewrite (holds_lookup _ _ _ _ _ _ _ Hs Hp). }
  apply Hk. destruct Hs as [E Hd Hn Hh Hu]. split; cbn; [|by apply map_disjoint_delete_l| |done|done].
  - rewrite E, delete_union. f_equal. apply delete_id. by eapply map_disjoint_Some_l.
  - intros q [x [_ Hq]%lookup_delete_Some]. apply Hn. eauto.
Qed.

Lemma wp_contents {B} p mem (k : list Z → RM B) K base l hy u s :
  holds base l hy u s → l !! p = Some (Raw mem) → wp (k mem) K s → wp (contents p ≫= k) K s.
Proof.
  intros Hs Hp Hk. unfold wp. rewrite (bind_run _ _ _ mem s); [done|].
  unfold contents. rewrite (bind_run _ _ s (Some (Raw mem)) s); [done|].
  unfold gets. by rewrite (holds_lookup _ _ _ _ _ _ _ Hs Hp).
Qed.

Lemma wp_write {B} p mem i data mem' (k : unit → RM B) K base l hy u s :
  holds base l hy u s → l !! p = Some (Raw mem) → memcpy mem (Z.to_nat i) data = Some mem' →
  (∀ s', holds base (<[p := Raw mem']> l) hy u s' → wp (k tt) K s') →
  wp (write_buffer p i data ≫= k) K s.
Proof.
  intros Hs Hp E Hk. unfold write_buffer. apply wp_bind. eapply wp_contents; [exact Hs|exact Hp|].
  rewrite E. change (wp (k tt) K (s <| rq_buffers ::= <[p := Raw mem']> |>)). apply Hk.
  pose proof (holds_lookup _ _ _ _ _ _ _ Hs Hp) as Hb. destruct Hs as [Eb Hd Hn Hh Hu].
  split; cbn; [by rewrite Eb, insert_union_l| | |done|done].
  - apply map_disjoint_insert_l_2; [|done]. by eapply map_disjoint_Some_l.
  - intros q [->|[_ ?]]%lookup_insert_is_Some; apply Hn; eauto.
Qed.

(** A copy from the user of [size] bytes after [pre]; the rest stays. *)
Lemma wp_copy_from {B} p pre mid post i addr size (k : bool → RM B) K base l hy u s :
  holds base l hy u s → l !! p = Some (Raw (pre ++ mid ++ post)) →
  Z.of_nat (length mid) = size → i = Z.of_nat (length pre) →
  (∀ s', holds base l hy u s' → unreadable → wp (k true) K s') →
  (∀ data s', from_user addr size data → length data = length mid →
     holds base (<[p := Raw (pre ++ data ++ post)]> l) hy u s' → wp (k false) K s') →
  wp (copy_from_user p i addr size ≫= k) K s.
Proof.
  intros Hs Hp Hl -> Hbad Hgood. unfold copy_from_user. apply wp_bind. eapply wp_rq_ask; [exact Hs|].
  intros t s1 Hs1. destruct (us_from_user t addr size) as [data|] eqn:E.
  - assert (length data = length mid) as Hd by (pose proof (us_from_user_size _ _ _ _ E); lia).
    eapply wp_write; [exact Hs1|exact Hp|rewrite Nat2Z.id; by apply memcpy_app|].
    intros s2 Hs2. apply wp_ret. eapply Hgood; [by exists t|done|exact Hs2].
  - apply wp_ret, Hbad; [done|]. by exists t, addr, size.
Qed.

Lemma wp_copied_out {B} addr b (k : bool → RM B) K base l hy u s :
  holds base l hy u s →
  (∀ s', holds base l hy u s' → wp (k true) K s') →
  (∀ s', holds base l hy (u ++ [(addr, b)]) s' → wp (k false) K s') →
  wp (copied_out addr b ≫= k) K s.
Proof.
  intros Hs Hbad Hgood. unfold copied_out. apply wp_bind. eapply wp_rq_ask; [exact Hs|].
  intros t s1 Hs1. destruct (us_to_user t).
  - change (wp (k false) K (s1 <| rq_to_user ::= λ l, l ++ [(addr, b)] |>)).
    apply Hgood. destruct Hs1 as [? ? ? ? Eu]. split; cbn; try done. by rewrite Eu.
  - by apply wp_ret, Hbad.
Qed.

Lemma wp_copy_to {B} addr p pre mid post i size (k : bool → RM B) K base l hy u s :
  holds base l hy u s → l !! p = Some (Raw (pre ++ mid ++ post)) →
  Z.of_nat (length mid) = size → i = Z.of_nat (length pre) →
  (∀ s', holds base l hy u s' → wp (k true) K s') →
  (∀ s', holds base l hy (u ++ [(addr, Raw mid)]) s' → wp (k false) K s') →
  wp (copy_to_user addr p i size ≫= k) K s.
Proof.
  intros Hs Hp <- -> Hbad Hgood. unfold copy_to_user. apply wp_bind. eapply wp_contents; [exact Hs|exact Hp|].
  rewrite !Nat2Z.id, peek_app. cbn [of_option]. apply (wp_bind (mret mid)), wp_ret.
  apply wp_bind_ret. eapply wp_copied_out; [exact Hs|exact Hbad|exact Hgood].
Qed.

(** The call on the channels. *)
Lemma wp_backend {A B} c (m : M _ (Z * A)) (R : Z * A → Prop) (k : Z * A → RM B) K base l hy u s :
  run_call c = code m → call_ok c → settled hy → returns R m → holds base l hy u s →
  (∀ r a hy' s', m hy = Some ((r, a), hy') → run_call c hy = Some (r, hy') → R (r, a) →
     holds base l hy' u s' → wp (k (r, a)) K s') →
  wp (to_backend m ≫= k) K s.
Proof.
  intros Em Hc Hset HR Hs Hk. pose proof Hs as [_ _ _ Eh _].
  destruct (call_runs_all c Hc hy Hset) as (r & hy' & E & _). pose proof E as Ec. rewrite Em in E.
  apply bind_Some in E as ([r' a] & h & E & [= -> ->]).
  unfold wp. rewrite (bind_run _ _ _ (r, a) (s <| rq_hyp := hy' |>)) by (unfold to_backend; by rewrite Eh, E).
  apply (Hk r a hy'); [done|done|by eapply HR|]. by destruct Hs.
Qed.
End buffers.

Section arrays.
Context `{Hab}.

(** What the calls may return: arrays of the lengths asked for. *)
Lemma returns_then {A B} (P : A → Prop) (R : B → Prop) (m : M hgsl_hyp_priv_t A) (k : A → M _ B) :
  returns P m → (∀ a, P a → returns R (k a)) → returns R (m ≫= k).
Proof. intros Hm Hk s b s' (a & s1 & E1 & E2)%bind_Some. eapply Hk; [|exact E2]. by eapply Hm. Qed.

Lemma returns_any {A} (m : M hgsl_hyp_priv_t A) : returns (λ _, True) m.
Proof. done. Qed.

Lemma returns_of_option {A B} (R : B → Prop) (o : option A) (k : A → M hgsl_hyp_priv_t B) :
  (∀ a, returns R (k a)) → returns R (of_option o ≫= k).
Proof. intros Hk. by apply returns_bind. Qed.

Lemma returns_blob c len :
  returns (λ r, ∀ data, r.2 = Some data → length data = Z.to_nat len) (recv_blob c len).
Proof.
  unfold recv_blob, on_recv. apply returns_bind. intros malloc. apply returns_bind. intros ch.
  intros s r s' ([a p] & s1 & E1 & E2)%bind_Some.
  destruct (gsl_rpc_read len (ch_recv_buf ch)) as [[a' p']|] eqn:E; [|done].
  cbn in E1. injection E1 as <- <- <-. apply bind_Some in E2 as (? & ? & _ & [= <- _]).
  unfold gsl_rpc_read, read_arg in E. apply bind_Some in E as ([ret pos] & p1 & _ & E).
  destruct (ret =? 0).
  - apply bind_Some in E as (bytes & p2 & E & [= <- _]). intros data [= <-].
    unfold read_at in E. apply bind_Some in E as (p & p3 & _ & (mem & p4 & _ & E)%bind_Some).
    destruct (peek mem (Z.to_nat pos) (Z.to_nat len)) as [l|] eqn:Ep; [|done]. injection E as <- _.
    unfold peek in Ep. destruct (Nat.leb_spec (Z.to_nat pos + Z.to_nat len) (length mem)); [|done].
    injection Ep as <-. rewrite length_take, length_drop. lia.
  - injection E as <- _. done.
Qed.

Lemma returns_read {V A} (P : V → Prop) (R : Z * A → Prop) (out : A) (m : M _ (Z * option V)) k :
  (∀ ret, R (ret, out)) → returns (λ r, ∀ v, r.2 = Some v → P v) m →
  (∀ v, P v → returns R (k v)) → returns R (try_read out m k).
Proof.
  intros Ho Hm Hk. eapply returns_then; [exact Hm|]. intros [ret [v|]] Hv; [by apply Hk, Hv|].
  apply returns_ret, Ho.
Qed.

Lemma returns_call {A} (R : Z * A → Prop) (out : A) opcode version c args reply :
  (∀ ret, R (ret, out)) → returns R reply → returns R (call_ext out opcode version c args reply).
Proof. intros Ho Hr. by apply returns_try_ret, returns_try_ret. Qed.

Lemma returns_with_channel {A} (R : Z * A → Prop) (out : A) body :
  (∀ ret, R (ret, out)) → (∀ c, returns R (body c)) → returns R (with_channel out body).
Proof.
  intros Ho Hb. apply returns_bind. intros [ret o]. eapply (returns_then R).
  - destruct (ret =? 0); [|apply returns_ret, Ho]. apply returns_of_option. intros c. apply Hb.
  - intros [ret' out'] Hr. apply returns_bind. intros []. by apply returns_ret.
Qed.

Definition sized (n : nat) (o : option (list Z)) : Prop := ∀ data, o = Some data → length data = n.

Lemma returns_select h id num groups ids :
  returns (λ '(ret, (rval, val_regs, val_hi_regs)),
      sized (Z.to_nat (4 * num)) val_regs ∧ sized (Z.to_nat (4 * num)) val_hi_regs)
    (hgsl_hyp_perfcounter_select h id num groups ids).
Proof.
  apply returns_with_channel; [done|]. intros c. apply returns_of_option. intros args.
  apply returns_call; [done|]. apply (returns_try_val); [done|]. intros rval.
  destruct (rval =? GSL_SUCCESS); [|by apply returns_ret].
  eapply returns_read; [done|apply returns_blob|]. intros regs Hregs.
  eapply returns_read; [by intros; split; [intros ? [= <-]|]|apply returns_blob|]. intros hi Hhi.
  apply returns_ret. by split; intros ? [= <-].
Qed.

Lemma returns_query h id group num want :
  returns (λ '(ret, (max_counters, selections)), sized (Z.to_nat (4 * num)) selections)
    (hgsl_hyp_perfcounter_query_selections h id group num want).
Proof.
  apply returns_with_channel; [done|]. intros c. apply returns_call; [done|].
  apply returns_try_val; [done|]. intros m. destruct (_ && _); [|by apply returns_ret].
  eapply returns_read; [done|apply returns_blob|]. intros sel Hsel.
  apply returns_ret. by intros ? [= <-].
Qed.

Lemma returns_syncobj objs num timeout :
  0 ≤ num → num < 4294967296 →
  returns (λ '(ret, (status, result)), sized (Z.to_nat (4 * num)) status)
    (hgsl_hyp_syncobj_wait_multiple objs num timeout).
Proof.
  intros Hn Hn'. apply returns_with_channel; [done|]. intros c. apply returns_of_option. intros args.
  apply returns_call; [done|]. rewrite u64_small by (unfold is_u64; lia).
  eapply returns_read; [done|apply returns_blob|]. intros st Hst.
  apply returns_try_val; [by intros ? ? [= <-]|]. intros r. apply returns_ret. by intros ? [= <-].
Qed.

(** The blobs of a generic transaction have the sizes of the buffers, one after the other. *)
Definition fills (sizes : list Z) (data : list (list Z)) : Prop :=
  ∀ i mem, data !! i = Some mem → ∃ size, sizes !! i = Some size ∧ length mem = Z.to_nat size.

Lemma returns_blobs c sizes (done_ : list Z) out (k : _ → M _ (Z * (list (list Z) * option Z))) all :
  fills all out → length out = length done_ → all = done_ ++ sizes →
  (∀ out', fills all out' → returns (λ r, fills all r.2.1) (k out')) →
  returns (λ r, fills all r.2.1) (read_blobs c sizes out k None).
Proof.
  revert done_ out. induction sizes as [|size sizes IH]; intros done_ out Ho Hl Ea Hk; [by apply Hk|].
  cbn [read_blobs]. eapply returns_read; [done|apply returns_blob|]. intros data Hd.
  apply (IH (done_ ++ [size])); [|rewrite !length_app, Hl; done|by rewrite <- (assoc_L app)|done].
  intros i mem [[_ Hi]|[-> <-]]%lookup_snoc_Some; [by apply Ho|]. exists size.
  split; [|done]. rewrite Ea, Hl. by rewrite lookup_app_r, Nat.sub_diag by lia.
Qed.

Lemma returns_generic cmd_id sends sizes want :
  returns (λ r, fills sizes r.2.1) (hgsl_hyp_generic_transaction cmd_id sends sizes want).
Proof.
  apply returns_with_channel; [done|]. intros c. apply returns_call; [done|].
  apply (returns_blobs c sizes [] []); [done..|]. intros out Ho. destruct want; [|by apply returns_ret].
  apply returns_try_val; [done|]. intros rval. by apply returns_ret.
Qed.
End arrays.

Section ioctls.
Context `{Hab} `{UserMem} (base : gmap ptr buffer) (hy : hgsl_hyp_priv_t) (u : list (Z * buffer)).
Hypothesis Hset : settled hy.

Abbreviation RM := (M requests).

(** [answered_as], and nothing is held. *)
Definition ends (f : forward) (ret : Z) (f' : forward) (s' : requests) : Prop :=
  (holds base ∅ hy u s' ∧ f' = f ∧ refusal f ret) ∨
  ∃ k r hy' u' arrays, holds base ∅ hy' u' s' ∧ forwards hy f k r hy' f' arrays ∧ call_ok k ∧
    run_call k hy = Some (r, hy') ∧
    ∃ given rest, arrays = given ++ rest ∧
      (r ≠ 0 ∧ ret = r ∧ u' = u ∨
       r = 0 ∧ u' = u ++ given ∧ (ret = 0 ∧ rest = [] ∨ ret = - EFAULT ∧ rest ≠ [])).

Lemma refused_inval f : malformed f → refusal f (- EINVAL).
Proof. by left. Qed.
Lemma refused_nomem f : no_memory → refusal f (- ENOMEM).
Proof. by right; left. Qed.
Lemma refused_fault f : unreadable → refusal f (- EFAULT).
Proof. by right; right. Qed.

Lemma refusal_nonzero f ret : refusal f ret → ret ≠ 0.
Proof. by intros [[-> _]|[[-> _]|[-> _]]]. Qed.

#[local] Hint Resolve refused_nomem refused_fault : core.

Lemma ends_refused f ret s' : holds base ∅ hy u s' → refusal f ret → ends f ret f s'.
Proof. by left. Qed.

Lemma ends_failed f k r hy' f' arrays s' :
  holds base ∅ hy' u s' → forwards hy f k r hy' f' arrays → call_ok k →
  run_call k hy = Some (r, hy') → r ≠ 0 → ends f r f' s'.
Proof. intros ? ? ? ? ?. right. exists k, r, hy', u, arrays. repeat (split; [done|]). exists [], arrays. auto. Qed.

Lemma ends_given f k hy' f' arrays s' :
  holds base ∅ hy' (u ++ arrays) s' → forwards hy f k 0 hy' f' arrays → call_ok k →
  run_call k hy = Some (0, hy') → ends f 0 f' s'.
Proof.
  intros ? ? ? ?. right. exists k, 0, hy', (u ++ arrays), arrays. repeat (split; [done|]).
  exists arrays, []. split; [by rewrite app_nil_r|]. right. auto.
Qed.

Lemma ends_cut f k hy' f' given a rest s' :
  holds base ∅ hy' (u ++ given) s' → forwards hy f k 0 hy' f' (given ++ a :: rest) → call_ok k →
  run_call k hy = Some (0, hy') → ends f (- EFAULT) f' s'.
Proof.
  intros ? ? ? ?. right. exists k, 0, hy', (u ++ given), (given ++ a :: rest). repeat (split; [done|]).
  exists given, (a :: rest). split; [done|]. right. auto.
Qed.

(** A call without arrays. *)
Lemma ends_returned f k r hy' f' s' :
  holds base ∅ hy' u s' → forwards hy f k r hy' f' [] → call_ok k → run_call k hy = Some (r, hy') →
  ends f r f' s'.
Proof.
  intros. destruct (decide (r = 0)) as [->|]; [|by eapply ends_failed].
  eapply ends_given; [by rewrite app_nil_r|done..].
Qed.

Lemma one_blob_fits data : (length data ≤ 100)%nat → fits_message [Blob data].
Proof.
  intros. unfold fits_message, encode. cbn -[frame]. rewrite app_nil_r, frame_length. lia.
Qed.

(** The only buffer goes. *)
Lemma wp_free_ret {A} p b (a : A) hy' u' s (K : A → requests → Prop) :
  holds base (<[p := b]> ∅) hy' u' s → (∀ s', holds base ∅ hy' u' s' → K a s') →
  wp (hgsl_free (Some p) ;; mret a) K s.
Proof.
  intros Hs HK. eapply wp_free; [exact Hs|apply lookup_insert_eq|]. intros s' Hs'. apply wp_ret, HK.
  by rewrite delete_insert_id in Hs'.
Qed.

Lemma wp_or_efault (m : RM bool) (k : RM Z) K s :
  wp (b ← m; if (b : bool) then mret (- EFAULT) else k) K s → wp (or_efault m k) K s.
Proof. done. Qed.

(** [n] bytes, and what is left. *)
Lemma split_off (n : Z) (mem : list Z) :
  0 ≤ n ≤ Z.of_nat (length mem) → ∃ a r, mem = a ++ r ∧ Z.of_nat (length a) = n.
Proof.
  intros Hn. exists (take (Z.to_nat n) mem), (drop (Z.to_nat n) mem).
  split; [by rewrite take_drop|]. rewrite length_take. lia.
Qed.

(** An out-parameter of [length mid] bytes after [pre]. *)
Lemma wp_write_out {B} p pre mid post i data l hy' u' (k : unit → RM B) K s :
  holds base l hy' u' s → l !! p = Some (Raw (pre ++ mid ++ post)) → i = Z.of_nat (length pre) →
  sized (length mid) data →
  (∀ s', holds base (<[p := Raw (pre ++ default mid data ++ post)]> l) hy' u' s' → wp (k tt) K s') →
  wp (write_out p i data ≫= k) K s.
Proof.
  intros Hs Hp -> Hd Hk. destruct data as [data|]; cbn [write_out default].
  - eapply wp_write; [exact Hs|exact Hp| |exact Hk]. rewrite Nat2Z.id. by apply memcpy_app, Hd.
  - apply (wp_bind (mret tt)), wp_ret, Hk. cbn. by rewrite insert_id.
Qed.

Lemma counter_args_fits head groups ids rest n :
  Z.of_nat (length groups) = 4 * n → Z.of_nat (length ids) = 4 * n →
  counter_args head (groups ++ ids ++ rest) (ids ++ rest) n = Some [Blob head; Blob groups; Blob ids].
Proof.
  intros Hg Hi. unfold counter_args.
  replace (Z.to_nat (4 * n)) with (length groups) at 1 by lia.
  rewrite (peek_app [] groups (ids ++ rest) : peek (groups ++ ids ++ rest) 0 _ = _). cbn [mbind option_bind].
  replace (Z.to_nat (4 * n)) with (length ids) by lia.
  by rewrite (peek_app [] ids rest : peek (ids ++ rest) 0 _ = _).
Qed.

Lemma counter_message_fits head groups ids n :
  0 ≤ n ≤ 268435456 → Z.of_nat (length groups) = 4 * n → Z.of_nat (length ids) = 4 * n →
  (length head ≤ 100)%nat → fits_message [Blob head; Blob groups; Blob ids].
Proof.
  intros Hn Hg Hi Hh. unfold fits_message, encode. cbn -[frame].
  rewrite app_nil_r, !length_app, !frame_length. lia.
Qed.

Lemma wp_answer {A} (m : RM (Z * A)) (g : A → forward) f s :
  wp m (λ r s', ends f r.1 (g r.2) s') s →
  wp ('(ret, a) ← m; mret (ret, g a)) (λ r, ends f r.1 r.2) s.
Proof. intros Hm. apply wp_bind. eapply wp_mono; [exact Hm|]. by intros [ret a] s' He. Qed.

Lemma wp_answer_code (m : RM Z) f s :
  wp m (λ ret s', ends f ret f s') s → wp (ret ← m; mret (ret, f)) (λ r, ends f r.1 r.2) s.
Proof. intros Hm. apply wp_bind. exact Hm. Qed.

(** What is done with the answer to a selection of counters: the values are in the last two
    of the four arrays. *)
Lemma select_answer_ends prm k p groups ids c d r regs hi hy' f' num s (K : Z → requests → Prop) :
  num = ps_num_counters prm → 0 < num → Z.of_nat (length groups) = 4 * num →
  Z.of_nat (length ids) = 4 * num → Z.of_nat (length c) = 4 * num → Z.of_nat (length d) = 4 * num →
  sized (length c) regs → sized (length d) hi →
  forwards hy (Select prm) k r hy' f'
    ((ps_counter_val_regs prm, Raw (default c regs)) ::
     if negb (ps_counter_val_hi_regs prm =? 0)
     then [(ps_counter_val_hi_regs prm, Raw (default d hi))] else []) →
  call_ok k → run_call k hy = Some (r, hy') →
  holds base (<[p := Raw (groups ++ ids ++ c ++ d)]> ∅) hy' u s →
  (∀ ret b u' s', holds base (<[p := Raw b]> ∅) hy' u' s' →
     (∀ s'', holds base ∅ hy' u' s'' → ends (Select prm) ret f' s'') → K ret s') →
  wp (write_out p (2 * (4 * num)) regs ;;
      write_out p (3 * (4 * num)) hi ;;
      give_counters prm p r) K s.
Proof.
  intros Hnum Hpos Hg Hi Hc Hd Hregs Hhi Hf Hk Er Hs HK.
  rewrite (assoc_L app groups ids) in Hs.
  eapply (wp_write_out p (groups ++ ids) c d); [exact Hs|apply lookup_insert_eq|rewrite length_app; lia|exact Hregs|].
  intros s5 Hs5. rewrite insert_insert_eq in Hs5.
  assert (length (default c regs) = length c) as Hrl by (destruct regs; [by apply Hregs|done]).
  assert (length (default d hi) = length d) as Hhl by (destruct hi; [by apply Hhi|done]).
  set (regs' := default c regs) in *.
  rewrite <- (app_nil_r d), (assoc_L app (groups ++ ids) regs') in Hs5.
  eapply (wp_write_out p ((groups ++ ids) ++ regs') d []); [exact Hs5|apply lookup_insert_eq|rewrite !length_app; lia|exact Hhi|].
  intros s6 Hs6. rewrite insert_insert_eq in Hs6. set (hi' := default d hi) in *.
  unfold give_counters. rewrite <- Hnum. destruct (Z.eqb_spec r 0) as [->|Hr]; cbn [negb].
  2:{ apply wp_ret. eapply HK; [exact Hs6|]. intros s7 Hs7. by eapply ends_failed. }
  apply wp_or_efault. rewrite <- (assoc_L app (groups ++ ids) regs') in Hs6.
  eapply (wp_copy_to _ p (groups ++ ids) regs' (hi' ++ [])); [exact Hs6|apply lookup_insert_eq|lia|rewrite length_app; lia| |].
  { intros s7 Hs7. apply wp_ret. eapply HK; [exact Hs7|]. intros s8 Hs8.
    eapply (ends_cut _ _ _ _ []); [by rewrite app_nil_r|exact Hf|done|done]. }
  intros s7 Hs7. rewrite (assoc_L app (groups ++ ids) regs') in Hs7.
  destruct (negb _).
  2:{ apply wp_ret. eapply HK; [exact Hs7|]. intros s8 Hs8. by eapply ends_given. }
  apply wp_or_efault.
  eapply (wp_copy_to _ p ((groups ++ ids) ++ regs') hi' []); [exact Hs7|apply lookup_insert_eq|lia|rewrite !length_app; lia| |];
    intros s8 Hs8; apply wp_ret; (eapply HK; [exact Hs8|]); intros s9 Hs9.
  - eapply (ends_cut _ _ _ _ [_]); [exact Hs9|exact Hf|done|done].
  - rewrite <- (assoc_L app) in Hs9. by eapply ends_given.
Qed.

Lemma select_ends prm s :
  forward_ok (Select prm) → holds base ∅ hy u s →
  wp (run_forward (Select prm)) (λ r, ends (Select prm) r.1 r.2) s.
Proof.
  intros [Hn Hfit] Hs. cbn [run_forward]. unfold hgsl_ioctl_perfcounter_select.
  set (n := ps_num_counters prm) in *. apply wp_answer.
  destruct (Z.leb_spec n 0) as [|Hpos]; cbn [orb].
  { apply wp_ret, ends_refused, refused_inval; [done|by left]. }
  destruct (Z.ltb_spec (SIZE_MAX / 16) n).
  { apply wp_ret, ends_refused, refused_inval; [done|by right]. }
  eapply wp_malloc; [exact Hs| |].
  { intros s1 Hs1 Hwhy. apply (wp_bind (mret _)), wp_ret, (wp_bind (mret tt)), wp_ret, wp_ret, ends_refused; auto. }
  intros p mem s1 _ Hl Hs1.
  destruct (split_off (4 * n) mem) as (a & r1 & -> & Ha); [lia|]. rewrite length_app in Hl.
  destruct (split_off (4 * n) r1) as (b & r2 & -> & Hb); [lia|]. rewrite length_app in Hl.
  destruct (split_off (4 * n) r2) as (c & d & -> & Hc); [lia|]. rewrite length_app in Hl.
  apply wp_bind. unfold select_counters. fold n.
  eapply (wp_copy_from p [] a); [exact Hs1|apply lookup_insert_eq|done|done| |].
  { intros s2 Hs2 Hwhy. apply wp_ret. eapply wp_free_ret; [exact Hs2|]. intros s3 Hs3. apply ends_refused; auto. }
  intros groups s2 Hg Hgl Hs2. rewrite insert_insert_eq in Hs2. cbn [app] in Hs2.
  eapply (wp_copy_from p groups b); [exact Hs2|apply lookup_insert_eq|done|lia| |].
  { intros s3 Hs3 Hwhy. apply wp_ret. eapply wp_free_ret; [exact Hs3|]. intros s4 Hs4. apply ends_refused; auto. }
  intros ids s3 Hi Hil Hs3. rewrite insert_insert_eq in Hs3.
  eapply wp_contents; [exact Hs3|apply lookup_insert_eq|].
  rewrite (drop_app_length' groups) by lia.
  set (k := PerfcounterSelect (ps_devhandle prm) (ps_ctxthandle prm) n
    (groups ++ ids ++ c ++ d) (ids ++ c ++ d)).
  assert (call_ok k) as Hk.
  { split; [|cbn; fold n; lia]. cbn [call_args k]. rewrite counter_args_fits by lia.
    eexists _, _, _. split; [done|]. eapply (counter_message_fits _ _ _ n); [lia..|].
    rewrite params_length, u32s_length. cbn. lia. }
  eapply (wp_backend k); [reflexivity|exact Hk|exact Hset|apply returns_select|exact Hs3|].
  intros r [[rval regs] hi] hy' s4 Em Er [Hregs Hhi] Hs4.
  replace (Z.to_nat (4 * n)) with (length c) in Hregs by lia.
  replace (Z.to_nat (4 * n)) with (length d) in Hhi by lia.
  pose proof (ForwardsSelect hy prm n groups ids c d r rval regs hi hy' eq_refl Hg Hi Em) as Hf.
  apply wp_bind_assoc2, wp_bind.
  eapply (select_answer_ends prm k p groups ids c d); [done|exact Hpos|lia|lia|exact Hc|lia|exact Hregs|exact Hhi|
    exact Hf|exact Hk|exact Er|exact Hs4|].
  intros ret b' u' s5 Hs5 He. apply wp_ret. by eapply wp_free_ret.
Qed.

Lemma deselect_ends prm s :
  forward_ok (Deselect prm) → holds base ∅ hy u s → wp (run_forward (Deselect prm)) (λ r, ends (Deselect prm) r.1 r.2) s.
Proof.
  intros Hn Hs. cbn [run_forward forward_ok] in *. unfold hgsl_ioctl_perfcounter_deselect.
  set (n := pd_num_counters prm) in *. apply wp_answer_code.
  destruct (Z.leb_spec n 0) as [|Hpos]; cbn [orb];
    [apply wp_ret, ends_refused, refused_inval; [done|by left]|].
  destruct (Z.ltb_spec (SIZE_MAX / 8) n);
    [apply wp_ret, ends_refused, refused_inval; [done|by right]|].
  eapply wp_malloc; [exact Hs| |].
  { intros s1 Hs1 Hwhy. apply (wp_bind (mret _)), wp_ret, (wp_bind (mret tt)), wp_ret, wp_ret, ends_refused; auto. }
  intros p mem s1 _ Hl Hs1.
  destruct (split_off (4 * n) mem) as (a & b & -> & Ha); [lia|]. rewrite length_app in Hl.
  apply wp_bind. unfold deselect_counters. fold n. apply wp_or_efault.
  eapply (wp_copy_from p [] a); [exact Hs1|apply lookup_insert_eq|done|done| |].
  { intros s2 Hs2 Hwhy. apply wp_ret. eapply wp_free_ret; [exact Hs2|]. intros s3 Hs3. apply ends_refused; auto. }
  intros groups s2 Hg Hgl Hs2. rewrite insert_insert_eq in Hs2. cbn [app] in Hs2. apply wp_or_efault.
  rewrite <- (app_nil_r b) in Hs2.
  eapply (wp_copy_from p groups b []); [exact Hs2|apply lookup_insert_eq|lia|lia| |].
  { intros s3 Hs3 Hwhy. apply wp_ret. eapply wp_free_ret; [exact Hs3|]. intros s4 Hs4. apply ends_refused; auto. }
  intros ids s3 Hi Hil Hs3. rewrite insert_insert_eq in Hs3.
  eapply wp_contents; [exact Hs3|apply lookup_insert_eq|].
  rewrite (drop_app_length' groups) by lia. rewrite app_nil_r in *.
  set (k := PerfcounterDeselect (pd_devhandle prm) (pd_ctxthandle prm) (pd_timestamp prm) n (groups ++ ids) ids).
  assert (call_ok k) as Hk.
  { split; [|done]. cbn [call_args k]. rewrite <- (app_nil_r ids), counter_args_fits by lia.
    eexists _, _, _. split; [done|]. eapply (counter_message_fits _ _ _ n); [lia..|].
    rewrite params_length, u32s_length. cbn. lia. }
  eapply (wp_backend k); [reflexivity|exact Hk|exact Hset|apply returns_any|exact Hs3|].
  intros r [] hy' s4 Em Er _ Hs4. apply wp_ret. eapply wp_free_ret; [exact Hs4|]. intros s5 Hs5.
  eapply ends_returned; [exact Hs5|by apply ForwardsDeselect|exact Hk|exact Er].
Qed.

(** A buffer that is cleared. *)
Lemma wp_memset {B} p mem size (k : unit → RM B) K l hy' u' s :
  holds base l hy' u' s → l !! p = Some (Raw mem) → Z.of_nat (length mem) = size →
  (∀ s', holds base (<[p := Raw (zeros size)]> l) hy' u' s' → wp (k tt) K s') →
  wp (memset0 p size ≫= k) K s.
Proof.
  intros Hs Hp Hl Hk. unfold memset0. eapply wp_write; [exact Hs|exact Hp| |exact Hk].
  change (memcpy mem (Z.to_nat 0)) with (memcpy mem (length (@nil Z))).
  rewrite <- (app_nil_r mem) at 1. rewrite (memcpy_app [] mem []) by (rewrite length_replicate; lia).
  by rewrite app_nil_r.
Qed.

(** An array handed back whole. *)
Lemma wp_copy_whole {B} addr p mem size (k : bool → RM B) K l hy' u' s :
  holds base l hy' u' s → l !! p = Some (Raw mem) → Z.of_nat (length mem) = size →
  (∀ s', holds base l hy' u' s' → wp (k true) K s') →
  (∀ s', holds base l hy' (u' ++ [(addr, Raw mem)]) s' → wp (k false) K s') →
  wp (copy_to_user addr p 0 size ≫= k) K s.
Proof.
  intros Hs Hp Hl. eapply (wp_copy_to _ p [] mem []); [exact Hs|by rewrite app_nil_r|done|done].
Qed.

(** ... and written whole, as far as the call has set it. *)
Lemma wp_write_whole {B} p mem data (k : unit → RM B) K l hy' u' s :
  holds base l hy' u' s → l !! p = Some (Raw mem) → sized (length mem) data →
  (∀ s', length (default mem data) = length mem →
     holds base (<[p := Raw (default mem data)]> l) hy' u' s' → wp (k tt) K s') →
  wp (write_out p 0 data ≫= k) K s.
Proof.
  intros Hs Hp Hd Hk. eapply (wp_write_out p [] mem []); [exact Hs|by rewrite app_nil_r|done|exact Hd|].
  intros s' Hs'. cbn [app] in Hs'. rewrite app_nil_r in Hs'. eapply Hk; [|exact Hs'].
  destruct data as [d|]; cbn; [by apply Hd|done].
Qed.

Lemma query_ends prm s :
  forward_ok (QuerySelection prm) → holds base ∅ hy u s →
  wp (run_forward (QuerySelection prm)) (λ r, ends (QuerySelection prm) r.1 r.2) s.
Proof.
  intros Hn Hs. cbn [run_forward forward_ok] in *. unfold hgsl_ioctl_perfcounter_query_selection.
  set (n := pq_num_counters prm) in *. apply wp_answer.
  destruct (Z.leb_spec n 0) as [|Hpos]; cbn [orb];
    [apply wp_ret, ends_refused, refused_inval; [done|by left]|].
  destruct (Z.ltb_spec (SIZE_MAX / 4) n);
    [apply wp_ret, ends_refused, refused_inval; [done|by right]|].
  eapply wp_malloc; [exact Hs| |].
  { intros s1 Hs1 Hwhy. apply (wp_bind (mret _)), wp_ret, (wp_bind (mret tt)), wp_ret, wp_ret, ends_refused; auto. }
  intros p mem s1 _ Hl Hs1. apply wp_bind. unfold query_selections. fold n.
  eapply wp_memset; [exact Hs1|apply lookup_insert_eq|exact Hl|]. intros s2 Hs2. rewrite insert_insert_eq in Hs2.
  set (k := PerfcounterQuerySelections (pq_devhandle prm) (pq_ctxthandle prm) (pq_group prm) n true).
  assert (call_ok k) as Hk.
  { split; [|exact Hn]. eexists _, _, _. split; [done|]. apply one_blob_fits.
    rewrite params_length, u32s_length. cbn. lia. }
  eapply (wp_backend k); [reflexivity|exact Hk|exact Hset|apply returns_query|exact Hs2|].
  intros r [m data] hy' s3 Em Er Hd Hs3.
  pose proof (ForwardsQuery hy prm n r m data hy' eq_refl Em) as Hf.
  eapply wp_write_whole; [exact Hs3|apply lookup_insert_eq|by unfold zeros; rewrite length_replicate|].
  intros s4 Hl' Hs4. rewrite insert_insert_eq in Hs4. unfold zeros in Hl' at 2. rewrite length_replicate in Hl'.
  cbv zeta. set (prm' := match m with Some _ => _ | None => _ end) in *.
  assert (pq_selections prm' = pq_selections prm) as Esel by by destruct m.
  apply wp_bind. destruct (Z.eqb_spec r 0) as [->|Hr]; cbn [negb].
  2:{ apply wp_ret, wp_ret. eapply wp_free_ret; [exact Hs4|]. intros s5 Hs5. by eapply ends_failed. }
  rewrite Esel. destruct (negb _).
  - apply wp_or_efault.
    eapply (wp_copy_whole _ p (default _ data)); [exact Hs4|apply lookup_insert_eq|lia|..];
      intros s5 Hs5; apply wp_ret, wp_ret; (eapply wp_free_ret; [exact Hs5|]); intros s6 Hs6.
    + eapply (ends_cut _ _ _ _ []); [by rewrite app_nil_r|exact Hf|done|done].
    + by eapply ends_given.
  - apply wp_ret, wp_ret. eapply wp_free_ret; [exact Hs4|]. intros s5 Hs5.
    eapply ends_given; [by rewrite app_nil_r|exact Hf|done|done].
Qed.

Lemma read_ends prm s :
  holds base ∅ hy u s → wp (run_forward (ReadCounter prm)) (λ r, ends (ReadCounter prm) r.1 r.2) s.
Proof.
  intros Hs. apply wp_answer. unfold hgsl_ioctl_perfcounter_read.
  set (k := PerfcounterRead (pc_devhandle prm) (pc_group prm) (pc_counter prm)).
  assert (call_ok k) as Hk.
  { split; [|done]. eexists _, _, _. split; [done|]. apply one_blob_fits.
    rewrite params_length, u32s_length. cbn. lia. }
  eapply (wp_backend k); [reflexivity|exact Hk|exact Hset|apply returns_any|exact Hs|].
  intros r [rval v] hy' s1 Em Er _ Hs1. apply wp_ret.
  eapply ends_returned; [exact Hs1|exact (ForwardsRead _ _ _ _ _ _ Em)|exact Hk|exact Er].
Qed.

Lemma time_ends param s :
  holds base ∅ hy u s → wp (run_forward (SystemTime param)) (λ r, ends (SystemTime param) r.1 r.2) s.
Proof.
  intros Hs. apply wp_answer. unfold hgsl_ioctl_get_system_time.
  set (k := GetSystemTime (u32 param)).
  assert (call_ok k) as Hk.
  { split; [|done]. eexists _, _, _. split; [done|]. apply one_blob_fits.
    rewrite params_length, u32s_length. cbn. lia. }
  eapply (wp_backend k); [reflexivity|exact Hk|exact Hset|apply returns_any|exact Hs|].
  intros r time hy' s1 Em Er _ Hs1. apply wp_ret.
  eapply ends_returned; [exact Hs1|by apply ForwardsTime|exact Hk|exact Er].
Qed.
Lemma u64s_at_length n mem : length (u64s_at n mem) = n.
Proof. revert mem. induction n; intros; [done|]. cbn. by rewrite IHn. Qed.

Lemma slice_whole (l : list Z) n : Z.of_nat (length l) = n → slice l 0 n = Some l.
Proof.
  intros <-. unfold slice. rewrite Nat2Z.id. apply mapM_Some, Forall2_same_length_lookup.
  split; [by rewrite length_seq|]. intros i x y [-> Hi]%lookup_seq Hy. done.
Qed.

Lemma wait_args_fit n timeout objs :
  0 ≤ n ≤ 134217728 → Z.of_nat (length objs) = n →
  ∃ args, syncobj_wait_args n timeout objs = Some args ∧ fits_message args.
Proof.
  intros Hn Hl. unfold syncobj_wait_args. rewrite slice_whole by done. eexists. split; [done|].
  unfold fits_message. rewrite encode_cons, length_app, frame_length. cbn [arg_data].
  rewrite params_length, length_app, le_bytes_length, u32s_length. cbn [length].
  assert (length (encode ((λ v, Blob (le_bytes 8 v)) <$> objs)) = (28 * length objs)%nat) as ->.
  { clear. induction objs as [|o objs IH]; [done|]. cbn [fmap list_fmap].
    rewrite encode_cons, length_app, frame_length, IH. cbn [arg_data]. rewrite le_bytes_length. cbn [length]. lia. }
  lia.
Qed.

(** Both buffers go. *)
Lemma wp_free_two {A} p q b b' (a : A) hy' u' s (K : A → requests → Prop) :
  holds base (<[q := b']> (<[p := b]> ∅)) hy' u' s → p ≠ q →
  (∀ s', holds base ∅ hy' u' s' → K a s') →
  wp (hgsl_free (Some p) ;; hgsl_free (Some q) ;; mret a) K s.
Proof.
  intros Hs Hne HK. eapply wp_free; [exact Hs|by rewrite lookup_insert_ne, lookup_insert_eq|].
  intros s1 Hs1. rewrite delete_insert_ne, delete_insert_id in Hs1 by done. by eapply wp_free_ret.
Qed.

Lemma syncobj_ends prm s :
  forward_ok (SyncobjWait prm) → holds base ∅ hy u s →
  wp (run_forward (SyncobjWait prm)) (λ r, ends (SyncobjWait prm) r.1 r.2) s.
Proof.
  intros [Hn Hfit] Hs. cbn [run_forward]. unfold hgsl_ioctl_syncobj_wait_multiple.
  set (n := sp_num_syncobjs prm) in *. apply wp_answer.
  destruct (_ || _) eqn:Eg.
  { apply wp_ret, ends_refused, refused_inval; [done|]. cbn. fold n.
    unfold SIZE_MAX in *. lia. }
  eapply wp_malloc; [exact Hs| |].
  { intros s1 Hs1 Hwhy. apply (wp_bind (mret _)), wp_ret, (wp_bind (mret tt)), wp_ret, (wp_bind (mret tt)), wp_ret,
      wp_ret, ends_refused; auto. }
  intros p mem s1 _ Hl Hs1. apply wp_bind. rewrite <- (app_nil_r mem) in Hs1.
  eapply (wp_copy_from p [] mem []); [exact Hs1|apply lookup_insert_eq|done|done| |].
  { intros s2 Hs2 Hwhy. apply wp_ret. eapply wp_free; [exact Hs2|apply lookup_insert_eq|]. intros s3 Hs3.
    rewrite delete_insert_id in Hs3 by done. apply (wp_bind (mret tt)), wp_ret, wp_ret, ends_refused; auto. }
  intros objs s2 Ho Hol Hs2. rewrite insert_insert_eq, app_nil_r in Hs2. cbn [app] in Hs2.
  eapply wp_malloc; [exact Hs2| |].
  { intros s3 Hs3 Hwhy. apply wp_ret. eapply wp_free; [exact Hs3|apply lookup_insert_eq|]. intros s4 Hs4.
    rewrite delete_insert_id in Hs4 by done. apply (wp_bind (mret tt)), wp_ret, wp_ret, ends_refused; auto. }
  intros q st s3 Hq Hsl Hs3.
  assert (p ≠ q) as Hpq by (intros ->; by rewrite lookup_insert_eq in Hq).
  apply wp_bind. unfold syncobj_wait. fold n.
  eapply wp_memset; [exact Hs3|apply lookup_insert_eq|exact Hsl|]. intros s4 Hs4. rewrite insert_insert_eq in Hs4.
  eapply wp_contents; [exact Hs4|by rewrite lookup_insert_ne, lookup_insert_eq|].
  set (k := SyncobjWaitMultiple (u64s_at (Z.to_nat n) objs) n (sp_timeout_ms prm)).
  assert (call_ok k) as Hk.
  { split; [|split; [exact Hfit|lia]].
    destruct (wait_args_fit n (sp_timeout_ms prm) (u64s_at (Z.to_nat n) objs)) as (args & Ea & Hf);
      [done|rewrite u64s_at_length; lia|]. eexists _, _, _. split; [|exact Hf]. cbn [call_args k]. by rewrite Ea. }
  eapply (wp_backend k); [reflexivity|exact Hk|exact Hset|apply returns_syncobj; lia|exact Hs4|].
  intros r [data result] hy' s5 Em Er Hd Hs5.
  pose proof (ForwardsSyncobj hy prm n _ objs r data result hy' eq_refl Ho eq_refl Em) as Hf.
  eapply wp_write_whole; [exact Hs5|apply lookup_insert_eq|by unfold zeros; rewrite length_replicate|].
  intros s6 Hl' Hs6. rewrite insert_insert_eq in Hs6. unfold zeros in Hl' at 2. rewrite length_replicate in Hl'.
  cbv zeta. set (prm' := match result with Some _ => _ | None => _ end) in *.
  assert (sp_status prm' = sp_status prm) as -> by by destruct result.
  apply wp_bind. destruct (Z.eqb_spec r 0) as [->|Hr]; cbn [negb].
  2:{ apply wp_ret, wp_ret, wp_ret. eapply wp_free_two; [exact Hs6|done|]. intros s7 Hs7. by eapply ends_failed. }
  apply wp_or_efault.
  eapply (wp_copy_whole _ q (default _ data)); [exact Hs6|apply lookup_insert_eq|lia|..];
    intros s7 Hs7; apply wp_ret, wp_ret, wp_ret; (eapply wp_free_two; [exact Hs7|done|]); intros s8 Hs8.
  - eapply (ends_cut _ _ _ _ []); [by rewrite app_nil_r|exact Hf|done|done].
  - by eapply ends_given.
Qed.

(** ** The generic transaction *)

(** The buffers are those of [ps], each full of the bytes that are there. *)
Definition buffers (ps : list ptr) (mems : list (list Z)) : gmap ptr buffer :=
  list_to_map (zip ps (Raw <$> mems)).

Record filled (ps : list ptr) (mems : list (list Z)) : Prop := {
  fi_nodup : NoDup ps;
  fi_length : length mems = length ps }.

Lemma buffers_lookup ps mems p b : filled ps mems → buffers ps mems !! p = Some b →
  ∃ i mem, ps !! i = Some p ∧ mems !! i = Some mem ∧ b = Raw mem.
Proof.
  intros [] E. apply elem_of_list_to_map_2 in E.
  apply list_elem_of_lookup in E as [i Hi]. apply lookup_zip_Some in Hi as [Hp Hb].
  apply list_lookup_fmap_Some in Hb as (mem & -> & Hm). eauto.
Qed.

Lemma buffers_at ps mems i p mem :
  filled ps mems → ps !! i = Some p → mems !! i = Some mem → buffers ps mems !! p = Some (Raw mem).
Proof.
  intros [Hnd Hl] Hp Hm. apply elem_of_list_to_map_1.
  - rewrite fst_zip by (rewrite length_fmap; lia). done.
  - apply list_elem_of_lookup. exists i. apply lookup_zip_Some. split; [done|].
    by rewrite list_lookup_fmap, Hm.
Qed.

Lemma buffers_snoc ps mems p mem :
  filled ps mems → p ∉ ps →
  <[p := Raw mem]> (buffers ps mems) = buffers (ps ++ [p]) (mems ++ [mem]) ∧ filled (ps ++ [p]) (mems ++ [mem]).
Proof.
  intros [Hnd Hl] Hp. split; [|split].
  - unfold buffers. rewrite fmap_app, zip_with_app by (rewrite length_fmap; done).
    cbn. rewrite list_to_map_snoc; [done|]. rewrite fst_zip by (rewrite length_fmap; lia). done.
  - apply NoDup_app. split_and!; [done|set_solver|apply NoDup_singleton].
  - rewrite !length_app, Hl. done.
Qed.

Lemma buffers_fresh ps mems p : filled ps mems → buffers ps mems !! p = None → p ∉ ps.
Proof.
  intros [Hnd Hl] Hp. apply not_elem_of_list_to_map in Hp. rewrite fst_zip in Hp by (rewrite length_fmap; lia).
  done.
Qed.

Lemma buffers_write ps mems i p mem :
  filled ps mems → ps !! i = Some p →
  <[p := Raw mem]> (buffers ps mems) = buffers ps (<[i := mem]> mems) ∧ filled ps (<[i := mem]> mems).
Proof.
  intros Hf Hp. pose proof Hf as [Hnd Hl].
  assert (filled ps (<[i := mem]> mems)) as Hf' by (split; [done|by rewrite length_insert]).
  split; [|done]. apply map_eq. intros q. destruct (decide (q = p)) as [->|Hq].
  - rewrite lookup_insert_eq. symmetry. eapply buffers_at; [done|done|].
    apply list_lookup_insert_eq. apply lookup_lt_Some in Hp. lia.
  - rewrite lookup_insert_ne by done. destruct (decide (q ∈ ps)) as [[j Hj]%list_elem_of_lookup|Hn].
    + assert (j < length mems)%nat as [m Hm]%lookup_lt_is_Some by (apply lookup_lt_Some in Hj; lia).
      assert (i ≠ j) by congruence.
      rewrite (buffers_at _ _ _ _ _ Hf Hj Hm). symmetry. eapply buffers_at; [done|done|].
      by rewrite list_lookup_insert_ne.
    + unfold buffers. rewrite !not_elem_of_list_to_map_1; [done|..];
        (rewrite fst_zip; [done|rewrite length_fmap, ?length_insert; lia]).
Qed.

Lemma wp_free_all ps qs mems hy' u' (K : unit → requests → Prop) s :
  filled (ps ++ qs) mems → holds base (buffers (ps ++ qs) mems) hy' u' s →
  (∀ s' mems', filled qs mems' → holds base (buffers qs mems') hy' u' s' → K tt s') →
  wp (for_each ps (λ p, hgsl_free (Some p))) K s.
Proof.
  revert mems s. induction ps as [|p ps IH]; intros mems s Hf Hs Hk.
  { apply wp_ret. by eapply Hk. }
  destruct mems as [|mem mems]; [by destruct Hf|]. cbn [app] in *.
  destruct Hf as [[Hp Hnd]%NoDup_cons Hl]. cbn in Hl. injection Hl as Hl.
  assert (filled (ps ++ qs) mems) as Hf by done.
  cbn [for_each]. eapply wp_free; [exact Hs|apply lookup_insert_eq|].
  intros s1 Hs1. change (buffers (p :: ps ++ qs) (mem :: mems)) with
    (<[p := Raw mem]> (buffers (ps ++ qs) mems)) in Hs1.
  rewrite delete_insert_id in Hs1.
  2:{ apply not_elem_of_list_to_map_1. rewrite fst_zip; [done|rewrite length_fmap; lia]. }
  by eapply IH.
Qed.

(** What has been read from the user for each of them. *)
Definition sent (prm : generic_params) (mems : list (list Z)) : Prop :=
  ∀ i mem, mems !! i = Some mem → ∃ addr size,
    gp_send_data prm !! i = Some addr ∧ gp_send_size prm !! i = Some size ∧
    from_user addr size mem ∧ (length mem ≤ 4096)%nat.

Lemma wp_copy_sends prm n i ps mems s :
  forward_ok (Generic prm) → (i + n ≤ 2)%nat → (i + n = Z.to_nat (gp_send_num prm))%nat → length ps = i →
  filled ps mems → sent prm mems → holds base (buffers ps mems) hy u s →
  wp (copy_sends prm i n ps) (λ r s', ∃ mems', filled r.2 mems' ∧
    holds base (buffers r.2 mems') hy u s' ∧
    (r.1 = 0 ∧ length r.2 = (i + n)%nat ∧ sent prm mems' ∨ refusal (Generic prm) r.1)) s.
Proof.
  intros (Hd & Hz & _ & _ & Hu & _). revert i ps mems s.
  induction n as [|n IH]; intros i ps mems s Hi Hin Hl Hf Hsent Hs.
  { apply wp_ret. exists mems. split; [done|]. split; [done|]. left. cbn. by rewrite Nat.add_0_r. }
  cbn [copy_sends].
  assert (i < length (gp_send_size prm))%nat as [size Esize]%lookup_lt_is_Some by lia.
  assert (i < length (gp_send_data prm))%nat as [addr Eaddr]%lookup_lt_is_Some by lia.
  rewrite Esize. apply (wp_bind (mret size)), wp_ret.
  assert (HGSL_HYP_GENERAL_MAX_SIZE < size ∨ size = 0 → malformed (Generic prm)) as Hbad.
  { intros Hsize. right; right; left. apply Exists_exists. exists size. split; [|exact Hsize].
    apply (list_elem_of_lookup_2 _ i). rewrite lookup_take_lt by lia. exact Esize. }
  destruct (Z.ltb_spec HGSL_HYP_GENERAL_MAX_SIZE size) as [|Hmax]; cbn [orb].
  { apply wp_ret. exists mems. split; [done|]. split; [done|]. right. left. auto. }
  destruct (Z.eqb_spec size 0).
  { apply wp_ret. exists mems. split; [done|]. split; [done|]. right. left. auto. }
  unfold HGSL_HYP_GENERAL_MAX_SIZE in Hmax.
  eapply wp_malloc; [exact Hs| |].
  { intros s1 Hs1 Hwhy. apply wp_ret. exists mems. split; [done|]. split; [done|]. right. auto. }
  intros p mem s1 Hp Hml Hs1. rewrite Eaddr. apply (wp_bind (mret addr)), wp_ret.
  destruct (buffers_snoc ps mems p mem Hf (buffers_fresh _ _ _ Hf Hp)) as [Eb Hf1]. rewrite Eb in Hs1.
  assert (buffers (ps ++ [p]) (mems ++ [mem]) !! p = Some (Raw ([] ++ mem ++ []))) as Hpm
    by (rewrite app_nil_r, <- Eb; apply lookup_insert_eq).
  eapply (wp_copy_from p [] mem []); [exact Hs1|exact Hpm|done|done| |].
  { intros s2 Hs2 Hwhy. apply wp_ret. exists (mems ++ [mem]). split; [done|]. split; [done|]. right. auto. }
  intros data s2 Hfrom Hdl Hs2. cbn [app] in Hs2. rewrite app_nil_r, <- Eb, insert_insert_eq in Hs2.
  destruct (buffers_snoc ps mems p data Hf (buffers_fresh _ _ _ Hf Hp)) as [Eb2 Hf2]. rewrite Eb2 in Hs2.
  eapply wp_mono; [apply (IH (S i) (ps ++ [p]) (mems ++ [data])); [lia|lia|rewrite length_app; cbn; lia|done| |exact Hs2]|].
  - intros j m [[_ Hj]|[-> <-]]%lookup_snoc_Some; [by apply Hsent|]. exists addr, size.
    replace (length mems) with i by (destruct Hf; lia). split_and!; [done|done|done|lia].
  - intros r s3 (mems3 & ? & ? & Hr). exists mems3. rewrite Nat.add_succ_r. done.
Qed.

(** What the buffers for the answers hold: what has been received, or zeros. *)
Definition received (prm : generic_params) (replies : list (list Z)) (ps : list ptr)
    (l : gmap ptr buffer) : Prop :=
  ∀ j p, ps !! j = Some p → ∃ size, gp_reply_size prm !! j = Some size ∧
    l !! p = Some (Raw (default (zeros size) (replies !! j))) ∧
    Z.of_nat (length (default (zeros size) (replies !! j))) = size.

Lemma received_one prm replies p size l :
  gp_reply_size prm !! 0%nat = Some size → l !! p = Some (Raw (default (zeros size) (replies !! 0%nat))) →
  Z.of_nat (length (default (zeros size) (replies !! 0%nat))) = size → received prm replies [p] l.
Proof. intros E Hp Hl [|j] q Hj; [|done]. injection Hj as <-. eauto. Qed.

Lemma zeros_length n : 0 ≤ n → Z.of_nat (length (zeros n)) = n.
Proof. intros. unfold zeros. rewrite length_replicate. lia. Qed.

Lemma wp_make_replies prm pS n mems s :
  forward_ok (Generic prm) → (n ≤ 1)%nat → n = Z.to_nat (gp_reply_num prm) → filled pS mems →
  holds base (buffers pS mems) hy u s →
  wp (make_replies prm 0 n []) (λ r s', ∃ mems', filled (pS ++ r.2) mems' ∧
    mems `prefix_of` mems' ∧ holds base (buffers (pS ++ r.2) mems') hy u s' ∧
    (r.1 = 0 ∧ length r.2 = n ∧ received prm [] r.2 (buffers (pS ++ r.2) mems') ∨ refusal (Generic prm) r.1)) s.
Proof.
  intros (_ & _ & _ & Hz & _) Hn Hnum Hf Hs. destruct n as [|[|]]; [| |lia].
  { apply wp_ret. exists mems. cbn [snd]. rewrite app_nil_r. repeat (split; [done|]). left. by split_and!. }
  cbn [make_replies].
  assert (0 < length (gp_reply_size prm))%nat as [size Esize]%lookup_lt_is_Some by lia.
  rewrite Esize. apply (wp_bind (mret size)), wp_ret.
  assert (∀ s' ret, holds base (buffers pS mems) hy u s' → refusal (Generic prm) ret →
    ∃ mems', filled (pS ++ []) mems' ∧ mems `prefix_of` mems' ∧
      holds base (buffers (pS ++ []) mems') hy u s' ∧
      (ret = 0 ∧ length (@nil ptr) = 1%nat ∧ received prm [] [] (buffers (pS ++ []) mems') ∨ refusal (Generic prm) ret)) as Hno.
  { intros s' ret Hs' Hr. exists mems. rewrite app_nil_r. repeat (split; [done|]). by right. }
  destruct (_ || _) eqn:Eg.
  { apply wp_ret, Hno; [exact Hs|]. apply refused_inval. do 3 right. apply Exists_exists. exists size.
    split; [|lia]. apply (list_elem_of_lookup_2 _ 0). rewrite lookup_take_lt by lia. exact Esize. }
  eapply wp_malloc; [exact Hs| |].
  { intros s1 Hs1 Hwhy. apply wp_ret, Hno; [exact Hs1|auto]. }
  intros p mem s1 Hp Hml Hs1.
  pose proof (buffers_fresh _ _ _ Hf Hp) as Hfr.
  eapply wp_memset; [exact Hs1|apply lookup_insert_eq|exact Hml|].
  intros s2 Hs2. rewrite insert_insert_eq in Hs2.
  destruct (buffers_snoc _ _ p (zeros size) Hf Hfr) as [Eb2 Hf2]. rewrite Eb2 in Hs2.
  apply wp_ret. exists (mems ++ [zeros size]). split; [done|]. split; [by apply prefix_app_r|]. split; [done|].
  left. split; [done|]. split; [done|]. cbn [app snd]. rewrite <- Eb2.
  apply (received_one _ _ _ size); [done|apply lookup_insert_eq|]. apply zeros_length. lia.
Qed.

Lemma wp_all_contents ps qs mems (K : list (list Z) → requests → Prop) hy' u' s :
  filled (ps ++ qs) mems → holds base (buffers (ps ++ qs) mems) hy' u' s →
  K (take (length ps) mems) s → wp (all_contents ps) K s.
Proof.
  intros Hf Hs.
  assert (∀ ps' rs, rs ++ ps' = ps → ∀ K' : list (list Z) → requests → Prop,
    K' (take (length ps') (drop (length rs) mems)) s → wp (all_contents ps') K' s) as Hind.
  { induction ps' as [|p ps' IH]; intros rs E K' HK; [exact HK|].
    pose proof Hf as [Hnd Hl]. rewrite <- E in Hl.
    assert (length rs < length mems)%nat as [mem Hm]%lookup_lt_is_Some by (rewrite Hl, !length_app; cbn; lia).
    cbn [all_contents]. eapply wp_contents; [exact Hs| |].
    { eapply buffers_at; [exact Hf| |exact Hm]. rewrite <- E, <- (assoc_L app).
      by rewrite lookup_app_r, Nat.sub_diag by lia. }
    rewrite (drop_S _ _ _ Hm) in HK. cbn [length take] in HK.
    apply wp_bind, (IH (rs ++ [p])); [by rewrite <- (assoc_L app)|].
    rewrite length_app, Nat.add_1_r. apply wp_ret. exact HK. }
  intros HK. apply (Hind ps []); [done|]. by rewrite drop_0.
Qed.

(** The answer goes into the only buffer there may be for it. *)
Lemma wp_write_replies prm pS ps mems data n (K : unit → requests → Prop) hy' u' s :
  (n ≤ 1)%nat → length ps = n → fills (take n (gp_reply_size prm)) data →
  filled (pS ++ ps) mems → holds base (buffers (pS ++ ps) mems) hy' u' s →
  received prm [] ps (buffers (pS ++ ps) mems) →
  (∀ s' mems', filled (pS ++ ps) mems' → holds base (buffers (pS ++ ps) mems') hy' u' s' →
     received prm data ps (buffers (pS ++ ps) mems') → K tt s') →
  wp (write_replies ps data) K s.
Proof.
  intros Hn Hl Hd Hf Hs Hall HK. destruct data as [|d data].
  { destruct ps; apply wp_ret; by eapply HK. }
  destruct (Hd 0%nat d eq_refl) as (size & E & Hdl).
  destruct ps as [|p [|? ?]]; cbn in Hl; [subst n; by rewrite take_0 in E|subst n|lia].
  destruct (Hall 0%nat p eq_refl) as (size' & E' & Hp & Hml).
  assert (size' = size) as ->.
  { destruct (gp_reply_size prm) as [|z zs]; [done|]. cbn in E, E'. congruence. }
  cbn [write_replies]. eapply wp_write; [exact Hs|exact Hp| |].
  { change (memcpy (default (zeros size) ([] !! 0%nat)) (Z.to_nat 0)) with
      (memcpy (zeros size) (length (@nil Z))).
    rewrite <- (app_nil_r (zeros size)) at 1. apply (memcpy_app [] (zeros size) []).
    cbn in Hml. lia. }
  intros s1 Hs1. cbn [app] in Hs1. rewrite app_nil_r in Hs1.
  destruct (buffers_write (pS ++ [p]) mems (length pS) p d Hf) as [Eb Hf1].
  { by rewrite lookup_app_r, Nat.sub_diag by lia. }
  rewrite Eb in Hs1. destruct data as [|d2 data].
  2:{ destruct (Hd 1%nat d2 eq_refl) as (z & Ez & _). apply lookup_lt_Some in Ez.
      rewrite length_take in Ez. lia. }
  apply wp_ret. eapply HK; [exact Hf1|exact Hs1|]. rewrite <- Eb.
  apply (received_one _ _ _ size); [done|apply lookup_insert_eq|]. cbn in Hml |- *. lia.
Qed.

Lemma generic_call_ok prm sends :
  forward_ok (Generic prm) → length sends = Z.to_nat (gp_send_num prm) → gp_send_num prm ≤ 2 →
  gp_reply_num prm ≤ 1 → sent prm sends →
  call_ok (GenericTransaction (gp_cmd_id prm) sends (take (Z.to_nat (gp_reply_num prm)) (gp_reply_size prm))
    (negb (gp_ret_value prm =? 0))).
Proof.
  intros (_ & _ & _ & Hz & _ & Hs0 & Hr0 & Hfit) Hl Hs Hr Hsent. split.
  - eexists _, _, _. split; [done|]. unfold fits_message.
    assert (∀ l, (∀ i mem, l !! i = Some mem → (length mem ≤ 4096)%nat) →
      (length (encode (Blob <$> l)) ≤ 4116 * length l)%nat) as Hlen.
    { induction l as [|m l IH]; intros Hm; [done|]. cbn [fmap list_fmap].
      rewrite encode_cons, length_app, frame_length. cbn [arg_data length].
      pose proof (Hm 0%nat m eq_refl). pose proof (IH (λ i, Hm (S i))). lia. }
    specialize (Hlen sends (λ i mem E, let '(ex_intro _ _ (ex_intro _ _ (conj _ (conj _ (conj _ H))))) := Hsent i mem E in H)).
    lia.
  - destruct (gp_reply_size prm) as [|z [|? ?]]; try done.
    rewrite Forall_singleton in Hfit. assert (Z.to_nat (gp_reply_num prm) = 0 ∨ Z.to_nat (gp_reply_num prm) = 1)%nat
      as [-> | ->] by lia; [exact I|exact Hfit].
Qed.

(** Whatever has been allocated goes. *)
Lemma wp_free_both ret pS pR mems hy' u' s (K : Z → requests → Prop) :
  filled (pS ++ pR) mems → holds base (buffers (pS ++ pR) mems) hy' u' s →
  (∀ s', holds base ∅ hy' u' s' → K ret s') →
  wp (for_each pS (λ p, hgsl_free (Some p)) ;; for_each pR (λ p, hgsl_free (Some p)) ;; mret ret) K s.
Proof.
  intros Hf Hs HK. apply wp_bind. eapply wp_free_all; [exact Hf|exact Hs|].
  intros s1 mems1 Hf1 Hs1. rewrite <- (app_nil_r pR) in Hf1, Hs1. apply wp_bind.
  eapply wp_free_all; [exact Hf1|exact Hs1|]. intros s2 mems2 _ Hs2. apply wp_ret, HK, Hs2.
Qed.

(** What is handed back when the call has succeeded. *)
Lemma wp_give prm k sizes pS pR mems replies rval hy' s (K : Z → requests → Prop) :
  forward_ok (Generic prm) → gp_reply_num prm ≤ 1 → length pR = Z.to_nat (gp_reply_num prm) →
  sizes = take (Z.to_nat (gp_reply_num prm)) (gp_reply_size prm) →
  forwards hy (Generic prm) k 0 hy' (Generic prm)
    (imap (λ i '(addr, size), (addr, Raw (default (zeros size) (replies !! i))))
       (zip (gp_reply_data prm) sizes) ++
     if negb (gp_ret_value prm =? 0)
     then [(gp_ret_value prm, Raw (le_bytes 4 (u32 (default 0 rval))))] else []) →
  call_ok k → run_call k hy = Some (0, hy') →
  holds base (buffers (pS ++ pR) mems) hy' u s → received prm replies pR (buffers (pS ++ pR) mems) →
  (∀ ret u' s', holds base (buffers (pS ++ pR) mems) hy' u' s' →
     (∀ s'', holds base ∅ hy' u' s'' → ends (Generic prm) ret (Generic prm) s'') → K ret s') →
  wp (copy_replies prm 0 pR
    (if negb (gp_ret_value prm =? 0)
     then or_efault (copied_out (gp_ret_value prm) (Raw (le_bytes 4 (u32 (default 0 rval))))) (mret 0)
     else mret 0)) K s.
Proof.
  intros (_ & _ & Hd & _) Hrn HlR Esizes Hfw Hk Er Hs Hall HK.
  set (value := Raw (le_bytes 4 (u32 (default 0 rval)))) in *.
  set (tail := if negb _ then [_] else []) in *.
  assert (∀ given s', forwards hy (Generic prm) k 0 hy' (Generic prm) (given ++ tail) →
    holds base (buffers (pS ++ pR) mems) hy' (u ++ given) s' →
    wp (if negb (gp_ret_value prm =? 0) then or_efault (copied_out (gp_ret_value prm) value) (mret 0)
        else mret 0) K s') as Htail.
  { intros given s' Hg Hs'. subst tail. destruct (negb _).
    - apply wp_or_efault. eapply wp_copied_out; [exact Hs'|..]; intros s5 Hs5; apply wp_ret;
        (eapply HK; [exact Hs5|]); intros s6 Hs6.
      + by eapply ends_cut.
      + rewrite <- (assoc_L app) in Hs6. by eapply ends_given.
    - apply wp_ret. eapply HK; [exact Hs'|]. intros s6 Hs6. rewrite app_nil_r in Hg. by eapply ends_given. }
  destruct (gp_reply_data prm) as [|addr [|? ?]] eqn:Edata; [done| |done].
  destruct pR as [|p [|? ?]]; cbn [copy_replies]; cbn [length] in HlR; [| |lia].
  { rewrite <- HlR in Esizes. rewrite take_0 in Esizes. rewrite Esizes in Hfw.
    eapply (Htail []); [exact Hfw|by rewrite (app_nil_r u)]. }
  destruct (Hall 0%nat p eq_refl) as (size & Esize & Hp & Hml).
  rewrite <- HlR in Esizes. destruct (gp_reply_size prm) as [|size' zs] eqn:Ezs; [done|].
  injection Esize as ->. cbn in Esizes. rewrite Esizes, take_0 in Hfw. cbn [zip zip_with imap app] in Hfw.
  rewrite Edata. apply (wp_bind (mret addr)), wp_ret, (wp_bind (mret size)), wp_ret, wp_or_efault.
  eapply (wp_copy_whole addr p); [exact Hs|exact Hp|exact Hml|..]; intros s5 Hs5.
  - apply wp_ret. eapply HK; [exact Hs5|]. intros s6 Hs6.
    eapply (ends_cut _ _ _ _ []); [by rewrite app_nil_r|exact Hfw|done|done].
  - eapply (Htail [_]); [exact Hfw|exact Hs5].
Qed.

Lemma generic_ends prm s :
  forward_ok (Generic prm) → holds base ∅ hy u s →
  wp (run_forward (Generic prm)) (λ r, ends (Generic prm) r.1 r.2) s.
Proof.
  intros Hok Hs. pose proof Hok as (_ & _ & _ & _ & _ & Hs0 & Hr0 & _).
  apply wp_answer_code. unfold hgsl_ioctl_hyp_generic_transaction.
  destruct (Z.ltb_spec HGSL_HYP_GENERAL_MAX_SEND_NUM (gp_send_num prm)) as [|Hsn]; cbn [orb].
  { apply wp_ret, ends_refused, refused_inval; [done|by left]. }
  destruct (Z.ltb_spec HGSL_HYP_GENERAL_MAX_REPLY_NUM (gp_reply_num prm)) as [|Hrn].
  { apply wp_ret, ends_refused, refused_inval; [done|by right; left]. }
  unfold HGSL_HYP_GENERAL_MAX_SEND_NUM in Hsn. unfold HGSL_HYP_GENERAL_MAX_REPLY_NUM in Hrn.
  apply wp_bind.
  eapply wp_mono; [apply (wp_copy_sends prm _ 0 [] []); [exact Hok|lia|done|done|by split; [constructor|]|done|exact Hs]|].
  intros [ret pS] s1 (mS & Hf1 & Hs1 & Hcase). cbn [fst snd] in *.
  destruct Hcase as [(-> & HlS & Hsent)|Href].
  2:{ rewrite (proj2 (Z.eqb_neq _ _) (refusal_nonzero _ _ Href)). cbn [negb].
      apply (wp_bind (mret _)), wp_ret. rewrite (proj2 (Z.eqb_neq _ _) (refusal_nonzero _ _ Href)). cbn [negb].
      apply (wp_bind (mret _)), wp_ret. rewrite <- (app_nil_r pS) in Hf1, Hs1.
      eapply wp_free_both; [exact Hf1|exact Hs1|]. intros s2 Hs2. by apply ends_refused. }
  change (negb (0 =? 0)) with false. cbv iota. apply wp_bind.
  eapply wp_mono; [apply (wp_make_replies prm pS _ mS); [exact Hok|lia|done|exact Hf1|exact Hs1]|].
  intros [ret pR] s2 (mems & Hf2 & [mR ->] & Hs2 & Hcase). cbn [fst snd] in *.
  destruct Hcase as [(-> & HlR & Hall)|Href].
  2:{ rewrite (proj2 (Z.eqb_neq _ _) (refusal_nonzero _ _ Href)). cbn [negb].
      apply (wp_bind (mret _)), wp_ret. eapply wp_free_both; [exact Hf2|exact Hs2|].
      intros s3 Hs3. by apply ends_refused. }
  change (negb (0 =? 0)) with false. cbv iota. apply wp_bind. unfold transact. apply wp_bind.
  eapply wp_all_contents; [exact Hf2|exact Hs2|].
  rewrite (take_app_length' mS) by (by destruct Hf1).
  set (sizes := take (Z.to_nat (gp_reply_num prm)) (gp_reply_size prm)).
  set (k := GenericTransaction (gp_cmd_id prm) mS sizes (negb (gp_ret_value prm =? 0))).
  assert (call_ok k) as Hk by (apply generic_call_ok; [done|by destruct Hf1; lia|done..]).
  eapply (wp_backend k); [reflexivity|exact Hk|exact Hset|apply returns_generic|exact Hs2|].
  intros r [replies rval] hy' s3 Em Er Hfill Hs3.
  eassert (Hfw : forwards hy (Generic prm) k r hy' (Generic prm) _).
  { apply (ForwardsGeneric hy prm mS sizes _ r replies rval hy'); [by destruct Hf1; lia| |done|done|exact Em].
    intros i mem Hi. destruct (Hsent i mem Hi) as (a & z & ? & ? & ? & _). eauto. }
  apply wp_bind.
  eapply (wp_write_replies prm pS pR _ replies); [|exact HlR|exact Hfill|exact Hf2|exact Hs3|exact Hall|]; [lia|].
  intros s4 mems4 Hf4 Hs4 Hall4.
  destruct (Z.eqb_spec r 0) as [->|Hr]; cbn [negb].
  2:{ apply wp_ret. eapply wp_free_both; [exact Hf4|exact Hs4|]. intros s5 Hs5. by eapply ends_failed. }
  eapply (wp_give prm k sizes pS pR mems4); [exact Hok|exact Hrn|exact HlR|done|exact Hfw|exact Hk|exact Er|
    exact Hs4|exact Hall4|].
  intros ret u' s' Hs' He. by eapply wp_free_both.
Qed.

Lemma forward_ends f s :
  forward_ok f → holds base ∅ hy u s → wp (run_forward f) (λ r, ends f r.1 r.2) s.
Proof.
  destruct f; auto using generic_ends, syncobj_ends, time_ends, select_ends, deselect_ends, query_ends, read_ends.
Qed.
End ioctls.

(** * Properties *)

Section properties.
Context `{Hab} `{UserMem}.

(** C3. A request that is forwarded to the backend always returns, whatever the user memory
    and the backend do, as long as each array that it asks for fits into the buffer of the
    reply or is larger than any such buffer ([forward_ok]; for the sizes in between, which
    the ioctls accept too, the reader of the reply can run past the buffer) and that there
    are at most 2^28 counters or 2^27 sync objects.  Either the request is refused before anything is sent and leaves the channels as they were: with
    EINVAL for parameters that the ioctl checks, ENOMEM when memory cannot be allocated,
    EFAULT when the user's memory cannot be read; or exactly its call is made, with the
    arrays the user memory held, and an error of the call is the error of the request.
    When the call succeeds the user gets all of its arrays, in order, or, when one of them
    cannot be copied, those before it, and EFAULT.  Every buffer that was allocated is freed
    again, and the channels are free for the next call. *)
Theorem forward_ioctls_exact f s :
  requests_ok s → settled (rq_hyp s) → forward_ok f →
  ∃ ret f' s', run_forward f s = Some ((ret, f'), s') ∧
    requests_ok s' ∧ rq_buffers s' = rq_buffers s ∧ settled (rq_hyp s') ∧
    answered_as f s ret f' s'.
Proof.
  intros Hok Hset Hf.
  assert (holds (rq_buffers s) ∅ (rq_hyp s) (rq_to_user s) s) as Hs.
  { split; [by rewrite (left_id_L ∅ (∪))|apply map_disjoint_empty_l|done..]. }
  pose proof (forward_ends _ _ _ Hset f s Hf Hs) as Hw. unfold wp in Hw.
  destruct (run_forward f s) as [[[ret f'] s']|]; [|done]. exists ret, f', s'. split; [done|].
  cbn [fst snd] in Hw.
  assert (∀ hy u', holds (rq_buffers s) ∅ hy u' s' → requests_ok s' ∧ rq_buffers s' = rq_buffers s) as Hend.
  { intros hy u' [E _ Hn _ _]. split; [exact Hn|]. by rewrite E, (left_id_L ∅ (∪)). }
  destruct Hw as [(Hs' & -> & Hr)|(k & r & hy' & u' & arrays & Hs' & Hfw & Hk & Er & Hg)];
    destruct (Hend _ _ Hs') as [Hok' Eb]; destruct Hs' as [_ _ _ Eh Eu].
  - split; [done|]. split; [done|]. split; [by rewrite Eh|]. left. auto.
  - split; [done|]. split; [done|]. rewrite Eh. split.
    { destruct (call_runs_all k Hk (rq_hyp s) Hset) as (r' & s1 & E1 & Hset1 & _).
      rewrite Er in E1. by injection E1 as <- <-. }
    right. exists k, r, arrays. rewrite Eh. split; [done|]. split; [done|]. split; [done|].
    destruct Hg as (given & rest & Ea & Hg). exists given, rest. split; [done|]. by rewrite Eu.
Qed.

(** The profiler's structure is allocated as it is; whatever the call makes of it is what
    the user gets, the whole of it, and it is freed. *)
Theorem profile_exact prm call s :
  requests_ok s →
  (∀ t pp, us_per_proc t = Some pp →
     is_Some (call (pp <| pp_channel_id := pf_channel_id prm |>) (rq_hyp s))) →
  ∃ ret prm' s', profile prm call s = Some ((ret, prm'), s') ∧
    requests_ok s' ∧ rq_buffers s' = rq_buffers s ∧
    (ret = - ENOMEM ∧ prm' = prm ∧ rq_hyp s' = rq_hyp s ∧ rq_to_user s' = rq_to_user s ∨
     ∃ t pp r pp', us_per_proc t = Some pp ∧
       call (pp <| pp_channel_id := pf_channel_id prm |>) (rq_hyp s) = Some ((r, pp'), rq_hyp s') ∧
       prm' = prm <| pf_channel_id := pp_channel_id pp' |> ∧
       (r ≠ 0 ∧ ret = r ∧ rq_to_user s' = rq_to_user s ∨
        r = 0 ∧ ret = 0 ∧ rq_to_user s' = rq_to_user s ++ [(pf_data prm, PerProc pp')] ∨
        r = 0 ∧ ret = - EFAULT ∧ rq_to_user s' = rq_to_user s)).
Proof.
  intros Hok Hcall.
  assert (holds (rq_buffers s) ∅ (rq_hyp s) (rq_to_user s) s) as Hs.
  { split; [by rewrite (left_id_L ∅ (∪))|apply map_disjoint_empty_l|done..]. }
  assert (wp (profile prm call) (λ r s', ∃ hy' u', holds (rq_buffers s) ∅ hy' u' s' ∧
    (r = (- ENOMEM, prm) ∧ hy' = rq_hyp s ∧ u' = rq_to_user s ∨
     ∃ t pp r0 pp', us_per_proc t = Some pp ∧
       call (pp <| pp_channel_id := pf_channel_id prm |>) (rq_hyp s) = Some ((r0, pp'), hy') ∧
       r.2 = prm <| pf_channel_id := pp_channel_id pp' |> ∧
       (r0 ≠ 0 ∧ r.1 = r0 ∧ u' = rq_to_user s ∨
        r0 = 0 ∧ r.1 = 0 ∧ u' = rq_to_user s ++ [(pf_data prm, PerProc pp')] ∨
        r0 = 0 ∧ r.1 = - EFAULT ∧ u' = rq_to_user s))) s) as Hw.
  { set (u := rq_to_user s) in *. set (hy := rq_hyp s) in *. set (base := rq_buffers s) in *.
    unfold profile, malloc_per_proc. apply wp_bind, wp_bind. eapply wp_rq_ask; [exact Hs|]. intros t s1 Hs1.
    destruct (us_per_proc t) as [pp|] eqn:Epp.
    2:{ apply wp_ret, (wp_bind (mret _)), wp_ret, (wp_bind (mret tt)), wp_ret, wp_ret. eauto 10. }
    eapply wp_new_buffer; [exact Hs1|]. intros p s2 _ Hs2. apply wp_ret, wp_bind, (wp_bind (gets _)).
    unfold wp at 1, gets. rewrite (holds_lookup _ _ _ _ _ _ _ Hs2 (lookup_insert_eq _ _ _)).
    destruct (Hcall t pp Epp) as [[[r pp'] hy'] E].
    apply wp_bind. unfold wp at 1, to_backend. rewrite (ho_hyp _ _ _ _ _ Hs2), E. cbn [mbind option_bind].
    pose proof (holds_lookup _ _ _ _ _ _ _ Hs2 (lookup_insert_eq _ _ _)) as Hb.
    set (s3 := s2 <| rq_hyp := hy' |> <| rq_buffers ::= <[p := PerProc pp']> |>).
    assert (holds base (<[p := PerProc pp']> ∅) hy' u s3) as Hs3.
    { destruct Hs2 as [Eb Hd Hn _ Eu]. split; cbn; [| | |done|done].
      - by rewrite Eb, !insert_union_l, insert_insert_eq.
      - rewrite <- (insert_insert_eq ∅ p (PerProc pp') (PerProc pp)).
        apply map_disjoint_insert_l_2; [|done]. eapply map_disjoint_Some_l; [exact Hd|apply lookup_insert_eq].
      - intros q [->|[_ ?]]%lookup_insert_is_Some; apply Hn; eauto. }
    apply wp_bind. unfold wp at 1, modify. fold s3. cbv zeta.
    set (prm' := prm <| pf_channel_id := pp_channel_id pp' |>).
    destruct (Z.eqb_spec r 0) as [->|Hr]; cbn [negb].
    - apply wp_bind, wp_or_efault. eapply wp_copied_out; [exact Hs3|..]; intros s4 Hs4;
        apply wp_ret, wp_ret; (eapply wp_free_ret; [exact Hs4|]); intros s5 Hs5;
        eexists _, _; (split; [exact Hs5|]); right; exists t, pp, 0, pp'; auto 10.
    - apply wp_ret. eapply wp_free_ret; [exact Hs3|]. intros s5 Hs5.
      eexists _, _; (split; [exact Hs5|]); right; exists t, pp, r, pp'; auto 10. }
  unfold wp in Hw. destruct (profile prm call s) as [[[ret prm'] s']|]; [|done].
  destruct Hw as (hy' & u' & [Eb _ Hn <- <-] & Hcase). exists ret, prm', s'. split; [done|].
  split; [exact Hn|]. split; [by rewrite Eb, (left_id_L ∅ (∪))|].
  destruct Hcase as [([= -> ->] & ? & ?)|Hc]; [left; auto|right; exact Hc].
Qed.
End properties.

(** * Witnesses *)

(** Memory that holds 77, memory of the user that holds 5. *)
#[program] Definition demo_user : UserMem := {|
  us_malloc _ n := if 0 <=? n then Some (replicate (Z.to_nat n) 77) else None;
  us_per_proc _ := None;
  us_from_user _ _ n := if 0 <=? n then Some (replicate (Z.to_nat n) 5) else None;
  us_to_user _ := true |}.
Next Obligation. intros t n mem; cbn; destruct (Z.leb_spec 0 n); [|done]. intros [= <-]. rewrite length_replicate. lia. Qed.
Next Obligation. intros t addr n mem; cbn; destruct (Z.leb_spec 0 n); [|done]. intros [= <-]. rewrite length_replicate. lia. Qed.

Definition demo_requests : requests :=
  {| rq_hyp := demo_pool; rq_buffers := ∅; rq_next := 1; rq_to_user := []; rq_clock := 0 |}.

Definition demo_select : select_params :=
  {| ps_groups := 1000; ps_counter_ids := 2000; ps_counter_val_regs := 3000;
     ps_counter_val_hi_regs := 0; ps_devhandle := 1; ps_ctxthandle := 2; ps_num_counters := 2;
     ps_rval := 0 |}.

(** The backend has no counters of the group. *)
Definition demo_no_counters : list Z := message RPC_PERFCOUNTER_SELECT 0 [Int32 GSL_FAILURE].

Lemma forward_ioctls_exact_witness :
  let _ := demo_hab 0 demo_no_counters in let _ := demo_user in
  ∃ ret f' s', run_forward (Select demo_select) demo_requests = Some ((ret, f'), s') ∧
    rq_buffers s' = ∅ ∧ settled (rq_hyp s') ∧
    answered_as (Select demo_select) demo_requests ret f' s'.
Proof.
  intros i1 i2.
  destruct (forward_ioctls_exact (Select demo_select) demo_requests) as (ret & f' & s' & E & _ & Eb & Hs & Ha).
  - intros p [b Hb]. discriminate Hb.
  - exact demo_settled.
  - cbn. lia.
  - exists ret, f', s'. split; [exact E|]. split; [exact Eb|]. split; [exact Hs|exact Ha].
Defined.

(** When the backend refuses the counters, the selection has succeeded all the same, and
    the user gets the memory of the buffer as it was allocated. *)
Theorem select_gives_unwritten_memory :
  let _ := demo_hab 0 demo_no_counters in let _ := demo_user in
  (λ x : Z * select_params * requests, (x.1.1, ps_rval x.1.2, rq_to_user x.2)) <$>
    hgsl_ioctl_perfcounter_select demo_select demo_requests =
  Some (0, u32 GSL_FAILURE, [(3000, Raw (replicate 8 77))]).
Proof. vm_compute. reflexivity. Qed.
