(* ===== verification/Dispatch.v ===== *)
(** The dispatcher of a context (hgsl_dispatch.c): the ring of draw objects that
    wait to be submitted, the retirement of sync objects, markers and timeline
    objects at its head, the submission of commands and their reclamation. *)

From S2P Require Import Prelude.
From S2P Require Import Rbtree.
From S2P Require Import MemTree.
From S2P Require Import State.
From S2P Require Import Timestamp.
From S2P Require Import Hsync.
From S2P Require Import Context.
From S2P Require Import Events.
From S2P Require Import Isync.
From S2P Require Import Drawobj.
From S2P Require Import Frames.
From S2P Require Import Ring.

(** * Definitions *)

(** ** The ring *)

Definition DRAWQUEUE_NEXT (i s : nat) : nat := (i + 1) `mod` s.

Definition _context_drawqueue_size : Z := Z.of_nat CONTEXT_DRAWQUEUE_SIZE - 1.

(** The operations under [drawq_lock], on the fields of the context. *)
Definition ring_pop (c : hgsl_context) : hgsl_context :=
  c <| c_drawq_head ::= (λ h, DRAWQUEUE_NEXT h CONTEXT_DRAWQUEUE_SIZE) |>
    <| c_queued ::= (λ q, q - 1) |>.

Definition ring_queue (drawobj : ptr) (c : hgsl_context) : hgsl_context :=
  c <| c_drawq ::= <[c_drawq_tail c := Some drawobj]> |>
    <| c_drawq_tail ::= (λ t, ((t + 1) `mod` CONTEXT_DRAWQUEUE_SIZE)%nat) |>
    <| c_queued ::= (λ q, q + 1) |>.

Definition ring_requeue (drawobj : ptr) (c : hgsl_context) : hgsl_context :=
  let prev := if (c_drawq_head c =? 0)%nat then (CONTEXT_DRAWQUEUE_SIZE - 1)%nat
              else (c_drawq_head c - 1)%nat in
  c <| c_drawq ::= <[prev := Some drawobj]> |>
    <| c_queued ::= (λ q, q + 1) |>
    <| c_drawq_head := prev |>.

Definition check_room (count : Z) (c : hgsl_context) : bool :=
  u32 (c_queued c + count) <? _context_drawqueue_size.

Definition hgsl_dispatch_requeue_drawobj (ctxt drawobj : ptr) : M world unit :=
  update w_contexts ctxt (ring_requeue drawobj).

Definition _pop_drawobj (ctxt : ptr) : M world unit :=
  update w_contexts ctxt ring_pop.

Definition _queue_drawobj (ctxt drawobj : ptr) : M world unit :=
  update w_contexts ctxt (ring_queue drawobj).

Definition _check_context_queue (ctxt : ptr) (count : Z) : M world bool :=
  c ← load w_contexts ctxt; mret (check_room count c).

Definition is_cmdobj (o : hgsl_drawobj) : bool := has_flag (o_type o) CMDOBJ_TYPE.

(** [ctxt->dispatch], which must not be NULL *)
Definition get_dispatch (ctxt : ptr) : M world hgsl_dispatch_context :=
  c ← load w_contexts ctxt; of_option (c_dispatch c).

Definition update_dispatch (ctxt : ptr)
    (f : hgsl_dispatch_context → hgsl_dispatch_context) : M world unit :=
  c ← load w_contexts ctxt;
  dispatch ← of_option (c_dispatch c);
  store w_contexts ctxt (c <| c_dispatch := Some (f dispatch) |>).

(** ** What the dispatcher asks of the submission path *)

(** static int hgsl_db_issue_cmd: the return code and the new [*timestamp].  The
    submission leaves the rings and the types of the draw objects alone. *)
Class IssueCmd := {
  hgsl_db_issue_cmd (priv ctxt : ptr) (num_ibs gmu_cmd_flags timestamp : Z)
    (ib_descs : list hgsl_fw_ib_desc) (user_profile_gpuaddr : Z)
    (update_queued_ts : bool) : M world (Z * Z);
  #[global] hgsl_db_issue_cmd_rings priv ctxt num_ibs flags ts descs profile upd ::
    Frames disp_frame (hgsl_db_issue_cmd priv ctxt num_ibs flags ts descs profile upd)
}.

Definition CMDBATCH_NOTIFY : Z := 0x20.
Definition HGSL_CMDBATCH_PROFILING : Z := 0x10.

(** ** The specification of the ring *)

(** The ring of [c] holds the queue [q], first element at the head. *)
Record ring_rep (c : hgsl_context) (q : list ptr) : Prop := {
  rr_size : length (c_drawq c) = CONTEXT_DRAWQUEUE_SIZE;
  rr_head : (c_drawq_head c < CONTEXT_DRAWQUEUE_SIZE)%nat;
  rr_tail : c_drawq_tail c = ((c_drawq_head c + length q) `mod` CONTEXT_DRAWQUEUE_SIZE)%nat;
  rr_room : (length q < CONTEXT_DRAWQUEUE_SIZE)%nat;
  rr_queued : c_queued c = Z.of_nat (length q);
  rr_slots k x : q !! k = Some x →
    c_drawq c !! ((c_drawq_head c + k) `mod` CONTEXT_DRAWQUEUE_SIZE)%nat = Some (Some x) }.

(** In [w], the ring of the context [p] holds [q], its tail at the index [t]. *)
Definition drawq_at (w : world) (p : ptr) (t : nat) (q : list ptr) : Prop :=
  ∃ c, w_contexts w !! p = Some c ∧ c_drawq_tail c = t ∧ ring_rep c q.

Definition drawq_is (w : world) (p : ptr) (q : list ptr) : Prop :=
  ∃ t, drawq_at w p t q.

Definition type_of (w : world) (obj : ptr) : option Z := o_type <$> w_drawobjs w !! obj.

(** The objects of [w'] were in [w], with their types. *)
Definition types_kept (w w' : world) : Prop :=
  ∀ x t, type_of w' x = Some t → type_of w x = Some t.

(** The marker [x] has its SKIP bit set. *)
Definition skipped (w : world) (x : ptr) : Prop :=
  ∃ o c, w_drawobjs w !! x = Some o ∧ o_body o = Cmd c ∧
    Z.testbit (cmd_priv c) CMDOBJ_SKIP = true.

(** The sync object [x] waits for an event, or waits for none. *)
Definition waits (w : world) (x : ptr) (b : bool) : Prop :=
  ∃ o s, w_drawobjs w !! x = Some o ∧ o_body o = Sync s ∧ hgsl_drawobj_events_pending s = b.

(** The timestamp that the marker [x] stands for is retired, or nobody has its context any
    more. *)
Definition marker_expired (w : world) (x : ptr) : Prop :=
  ∃ o cmd c s, w_drawobjs w !! x = Some o ∧ o_body o = Cmd cmd ∧
    w_contexts w !! o_context o = Some c ∧
    has_flag (o_flags o) HGSL_DRAWOBJ_MARKER = true ∧ c_shadow_ts c = Some s ∧
    (c_kref c = 0 ∨ hgsl_ts32_ge (eop s) (cmd_marker_timestamp cmd) = true).

(** What may go from the head of the queue without having been submitted. *)
Definition retired (w : world) (x : ptr) : Prop :=
  type_of w x = Some SYNCOBJ_TYPE ∧ waits w x false ∨
  type_of w x = Some MARKEROBJ_TYPE ∧ marker_expired w x ∨
  type_of w x = Some TIMELINEOBJ_TYPE.

(** What is to be submitted: a command, or a marker that must not be waited for. *)
Definition to_submit (w : world) (x : ptr) : Prop :=
  type_of w x = Some CMDOBJ_TYPE ∨
  type_of w x = Some MARKEROBJ_TYPE ∧ ¬ marker_expired w x ∧ skipped w x.

(** What stops everything behind it, with the error [e]. *)
Definition blocks (w : world) (x : ptr) (e : Z) : Prop :=
  type_of w x = Some SYNCOBJ_TYPE ∧ waits w x true ∧ e = - EAGAIN ∨
  type_of w x = Some MARKEROBJ_TYPE ∧ ¬ marker_expired w x ∧ ¬ skipped w x ∧ e = - EAGAIN ∨
  (∃ ty, type_of w x = Some ty ∧
     ty ∉ [CMDOBJ_TYPE; SYNCOBJ_TYPE; MARKEROBJ_TYPE; TIMELINEOBJ_TYPE]) ∧ e = - EINVAL.

(** A marker retires its timestamp in the context that it is of. *)
Definition retires_in (w : world) (x : ptr) : option ptr :=
  o ← w_drawobjs w !! x; if o_type o =? MARKEROBJ_TYPE then Some (o_context o) else None.

(** What a turn of the loop can make of the object [x] at the head of [q]. *)
Definition turn_ok (w w' : world) (p : ptr) (t : nat) (x : ptr) (q : list ptr)
    (r : option (Z + option ptr)) : Prop :=
  match r with
  | None => retired w x ∧ drop_frame x (retires_in w x) w w' ∧ drawq_at w' p t q
  | Some (inl e) => blocks w x e ∧ drop_frame x None w w' ∧ drawq_at w' p t (x :: q)
  | Some (inr None) => False
  | Some (inr (Some y)) =>
      y = x ∧ to_submit w x ∧ drop_frame x None w w' ∧ drawq_at w' p t (x :: q)
  end.

(** How the loop stops in front of the queue [q]: at its end, at an object to submit, or at
    one that blocks. *)
Definition stops (w : world) (q : list ptr) (w' : world) (r : Z + option ptr) : Prop :=
  match q with
  | [] => r = inr None ∧ w' = w
  | x :: _ =>
      drop_frame x None w w' ∧
      match r with
      | inl e => blocks w x e
      | inr (Some y) => y = x ∧ to_submit w x
      | inr None => False
      end
  end.

(** The objects in [dropped] go one after the other, each retired when its turn comes and
    none of them touching the others; then the loop stops in front of [q]. *)
Inductive drains : world → list ptr → list ptr → world → Z + option ptr → Prop :=
| drains_stop w q w' r : stops w q w' r → drains w [] q w' r
| drains_drop w x dropped w1 q w' r :
    retired w x → drop_frame x (retires_in w x) w w1 → types_kept w w1 →
    drains w1 dropped q w' r → drains w (x :: dropped) q w' r.

(** What the loop makes of the queue [q]. *)
Definition drawqueue_ok (w w' : world) (p : ptr) (t : nat) (q : list ptr)
    (r : Z + option ptr) : Prop :=
  ∃ dropped q', q = dropped ++ q' ∧ drawq_at w' p t q' ∧ types_kept w w' ∧
    drains w dropped q' w' r.

(** What the ioctls queue: sync and timeline objects first, then a command or a
    marker. *)
Definition plain (w : world) (x : ptr) : Prop :=
  type_of w x = Some SYNCOBJ_TYPE ∨ type_of w x = Some TIMELINEOBJ_TYPE.

Definition submitted (w : world) (x : ptr) : Prop :=
  type_of w x = Some CMDOBJ_TYPE ∨ type_of w x = Some MARKEROBJ_TYPE.

(** The last timestamp queued in the context [p] is retired, for the marker [x] that is to
    be queued there. *)
Definition retires_at_once (w : world) (p x : ptr) : Prop :=
  type_of w x = Some MARKEROBJ_TYPE ∧
  ∃ o c, w_drawobjs w !! x = Some o ∧ w_contexts w !! p = Some c ∧ c_shadow_ts c ≠ None ∧
    ∀ cx s, w_contexts w !! o_context o = Some cx → c_shadow_ts cx = Some s →
      c_kref cx ≠ 0 → hgsl_ts32_ge (eop s) (c_queued_ts c) = true.

(** How queueing [objs] behind [q] can end: all of them are in the ring; the loop
    was left with an error after the first [n]; or the first was a marker that
    retired on the spot, the ring being empty. *)
Definition queueing_ok (w w' : world) (p : ptr) (q objs : list ptr) (ret : Z)
    (out : bool) : Prop :=
  ∃ n, (n ≤ length objs)%nat ∧ drawq_is w' p (q ++ take n objs) ∧
    (out = false ∧ ret = 0 ∧ n = length objs ∨
     out = true ∧ ret ≠ 0 ∨
     out = true ∧ ret = 0 ∧ q = [] ∧ n = O ∧
       ∃ x, head objs = Some x ∧ retires_at_once w p x).

Section dispatch.
Context `{K : Kernel} `{I : IssueCmd}.

(** Writing more descriptors than were allocated is a fault; those not written
    hold whatever was in the memory. *)
Definition fill_ib_descs (numibs : Z) (cmdlist : list hgsl_memobj_node) :
  M world (list hgsl_fw_ib_desc) :=
  if numibs <? Z.of_nat (length cmdlist) then fault
  else
    u ← ask k_uninit;
    mret (map (λ ib, mk_ib_desc (mo_gpuaddr ib) (u32 (mo_size ib))) cmdlist ++
          replicate (Z.to_nat numibs - length cmdlist) (mk_ib_desc u u)).

(** int hgsl_issue_drawobj (hgsl.c) *)
Definition hgsl_issue_drawobj (drawobj : ptr) : M world Z :=
  o ← load w_drawobjs drawobj;
  cmdobj ← CMDOBJ drawobj;
  let issue descs profile flags :=
    '(ret, ts) ← hgsl_db_issue_cmd (o_priv o) (o_context o) (cmd_numibs cmdobj) flags
                   (o_timestamp o) descs profile false;
    update w_drawobjs drawobj (λ o, o <| o_timestamp := ts |>) ;;
    mret ret in
  if 0 <? cmd_numibs cmdobj
  then
    ok ← ask k_alloc;
    if negb ok then mret (- ENOMEM)
    else
      descs ← fill_ib_descs (cmd_numibs cmdobj) (cmd_cmdlist cmdobj);
      match has_flag (o_flags o) HGSL_OBJLIST_PROFILE, cmd_profiling cmdobj with
      | true, Some gpuaddr =>
          issue descs gpuaddr (Z.lor CMDBATCH_NOTIFY HGSL_CMDBATCH_PROFILING)
      | _, _ => issue descs 0 CMDBATCH_NOTIFY
      end
  else issue [] 0 CMDBATCH_NOTIFY.

(** ** Retirement at the head of the ring *)

Definition _retire_syncobj (drawobj ctxt : ptr) : M world Z :=
  s ← SYNCOBJ drawobj;
  if negb (hgsl_drawobj_events_pending s)
  then _pop_drawobj ctxt ;; hgsl_drawobj_destroy (Some drawobj) ;; mret 0
  else
    when (s_timeout_jiffies s =? 0)
      (j ← ask k_jiffies;
       let t := u64 (j + k_msecs_to_jiffies 5000) in
       update_sync drawobj (λ s, s <| s_timeout_jiffies := t |>) ;;
       emit (A_mod_timer drawobj t)) ;;
    mret (- EAGAIN).

Definition _marker_expired (markerobj : ptr) : M world bool :=
  drawobj ← load w_drawobjs markerobj;
  cmd ← CMDOBJ markerobj;
  c ← load w_contexts (o_context drawobj);
  if negb (has_flag (o_flags drawobj) HGSL_DRAWOBJ_MARKER) ||
     bool_decide (c_shadow_ts c = None)
  then mret false
  else
    got ← hgsl_context_get (Some (o_context drawobj));
    if negb got then mret true
    else
      expired ← hgsl_check_timestamp (o_context drawobj) (cmd_marker_timestamp cmd);
      hgsl_put_context (Some (o_context drawobj)) ;;
      mret expired.

Definition _retire_timestamp_only (drawobj : ptr) : M world unit :=
  o ← load w_drawobjs drawobj;
  set_context_shadow_ts (o_context o) GSL_TIMESTAMP_CONSUMED (o_timestamp o) ;;
  set_context_shadow_ts (o_context o) GSL_TIMESTAMP_RETIRED (o_timestamp o) ;;
  hgsl_process_event_group (o_context o).

Definition _retire_timestamp (drawobj : ptr) : M world unit :=
  _retire_timestamp_only drawobj ;;
  hgsl_drawobj_destroy (Some drawobj).

(** set_bit and test_bit on [cmdobj->priv] *)
Definition cmd_set_bit (bit : Z) (cmdobj : ptr) : M world unit :=
  update_cmd cmdobj (λ c, c <| cmd_priv ::= (λ p, Z.setbit p bit) |>).

Definition cmd_test_bit (bit : Z) (cmdobj : ptr) : M world bool :=
  c ← CMDOBJ cmdobj; mret (Z.testbit (cmd_priv c) bit).

Definition _retire_markerobj (cmdobj ctxt : ptr) : M world Z :=
  expired ← _marker_expired cmdobj;
  if expired : bool
  then
    cmd_set_bit CMDOBJ_MARKER_EXPIRED cmdobj ;;
    _pop_drawobj ctxt ;;
    _retire_timestamp cmdobj ;;
    mret 0
  else
    skip ← cmd_test_bit CMDOBJ_SKIP cmdobj;
    mret (if skip : bool then 1 else - EAGAIN).

Definition _retire_timelineobj (drawobj ctxt : ptr) : M world Z :=
  _pop_drawobj ctxt ;; hgsl_drawobj_destroy (Some drawobj) ;; mret 0.

(** ** Submission *)

Definition _sendcmd (drawobj : ptr) : M world Z :=
  o ← load w_drawobjs drawobj;
  let ctxt := o_context o in
  ok ← ask k_alloc;
  if negb ok then mret (- ENOMEM)
  else
    ret ← hgsl_issue_drawobj drawobj;
    if negb (ret =? 0) then mret ret
    else
      retired ← (if is_cmdobj o then cmd_test_bit CMDOBJ_MARKER_EXPIRED drawobj
                 else mret false);
      if retired : bool then hgsl_drawobj_destroy (Some drawobj) ;; mret 0
      else
        update_dispatch ctxt (λ d, d <| d_list ::= (λ l, l ++ [drawobj]) |>) ;;
        mret 0.

(** What one turn of the loop makes of the object at the ring's index [i]: the
    value to return, or None to go on. *)
Definition process_drawobj (drawobj ctxt : ptr) : M world (option (Z + option ptr)) :=
  o ← load w_drawobjs drawobj;
  let continue (m : M world Z) : M world (option (Z + option ptr)) :=
    ret ← m; mret (if ret =? 0 then None else Some (inl ret)) in
  if o_type o =? CMDOBJ_TYPE then mret (Some (inr (Some drawobj)))
  else if o_type o =? SYNCOBJ_TYPE then continue (_retire_syncobj drawobj ctxt)
  else if o_type o =? MARKEROBJ_TYPE
  then
    ret ← _retire_markerobj drawobj ctxt;
    if ret =? 1 then mret (Some (inr (Some drawobj))) else continue (mret ret)
  else if o_type o =? BINDOBJ_TYPE then mret None
  else if o_type o =? TIMELINEOBJ_TYPE then continue (_retire_timelineobj drawobj ctxt)
  else mret (Some (inl (- EINVAL))).

(** [inl e] is ERR_PTR(e), [inr None] is NULL.  One turn of the loop, at the index [i]: the
    value to return, or None to go on. *)
Definition drawqueue_turn (ctxt : ptr) (i : nat) : M world (option (Z + option ptr)) :=
  c ← load w_contexts ctxt;
  if (i =? c_drawq_tail c)%nat then mret (Some (inr None))
  else
    slot ← of_option (c_drawq c !! i);
    match slot with
    | None => mret (Some (inr None))
    | Some drawobj => process_drawobj drawobj ctxt
    end.

Fixpoint process_drawqueue (fuel : nat) (ctxt : ptr) (i : nat) :
  M world (Z + option ptr) :=
  match fuel with
  | O => fault
  | S fuel =>
      r ← drawqueue_turn ctxt i;
      match r with
      | Some r => mret r
      | None => process_drawqueue fuel ctxt (DRAWQUEUE_NEXT i CONTEXT_DRAWQUEUE_SIZE)
      end
  end.

Definition _process_drawqueue_get_next_drawobj (ctxt : ptr) : M world (Z + option ptr) :=
  c ← load w_contexts ctxt;
  process_drawqueue CONTEXT_DRAWQUEUE_SIZE ctxt (c_drawq_head c).

(** One turn of the loop of hgsl_dispatch_sendcmds: the last [ret], or None when an object
    has been submitted. *)
Definition sendcmds_turn (ctxt : ptr) : M world (option Z) :=
  next ← _process_drawqueue_get_next_drawobj ctxt;
  match next with
  | inl e => mret (Some e)
  | inr None => mret (Some 0)
  | inr (Some drawobj) =>
      _pop_drawobj ctxt ;;
      ret ← _sendcmd drawobj;
      if ret =? 0 then mret None
      else
        (if ret =? - ENOENT then hgsl_drawobj_destroy (Some drawobj)
         else hgsl_dispatch_requeue_drawobj ctxt drawobj) ;;
        mret (Some ret)
  end.

(** The last [ret] and [count]. *)
Fixpoint sendcmds_loop (fuel : nat) (ctxt : ptr) (count : Z) : M world (Z * Z) :=
  match fuel with
  | O => fault
  | S fuel =>
      r ← sendcmds_turn ctxt;
      match r with
      | Some ret => mret (ret, count)
      | None => sendcmds_loop fuel ctxt (count + 1)
      end
  end.

Definition hgsl_dispatch_sendcmds (ctxt : ptr) : M world Z :=
  '(ret, count) ← sendcmds_loop (S CONTEXT_DRAWQUEUE_SIZE) ctxt 0;
  room ← _check_context_queue ctxt 0;
  when room (emit (A_wake_up_drawq ctxt)) ;;
  mret (if ret =? 0 then count else ret).

(** *** What happens to the objects of a queue *)

(** An object is retired without having been submitted, is submitted, or is gone because
    its submission says so. *)
Inductive fate := Retired (x : ptr) | Submitted (x : ptr) | Gone (x : ptr).

Definition fate_obj (f : fate) : ptr := match f with Retired x | Submitted x | Gone x => x end.

Definition is_submitted (f : fate) : Prop := match f with Submitted _ => True | _ => False end.

#[export] Instance is_submitted_dec f : Decision (is_submitted f).
Proof. destruct f; apply _. Defined.

(** One turn of the loop, with the fates of the objects that it takes off the queue and the
    queue that it leaves. *)
Inductive turn_sends (p : ptr) (w : world) : list fate → list ptr → option Z → world → Prop :=
| turn_empty dropped w' :
    drains w dropped [] w' (inr None) → turn_sends p w (Retired <$> dropped) [] (Some 0) w'
| turn_blocked dropped q e w' :
    drains w dropped q w' (inl e) → turn_sends p w (Retired <$> dropped) q (Some e) w'
| turn_submitted dropped x q w1 w2 w' :
    drains w dropped (x :: q) w1 (inr (Some x)) → _pop_drawobj p w1 = Some (tt, w2) →
    _sendcmd x w2 = Some (0, w') →
    turn_sends p w ((Retired <$> dropped) ++ [Submitted x]) q None w'
| turn_gone dropped x q w1 w2 w3 w' :
    drains w dropped (x :: q) w1 (inr (Some x)) → _pop_drawobj p w1 = Some (tt, w2) →
    _sendcmd x w2 = Some (- ENOENT, w3) → hgsl_drawobj_destroy (Some x) w3 = Some (tt, w') →
    turn_sends p w ((Retired <$> dropped) ++ [Gone x]) q (Some (- ENOENT)) w'
| turn_put_back dropped x q w1 w2 e w3 w' :
    drains w dropped (x :: q) w1 (inr (Some x)) → _pop_drawobj p w1 = Some (tt, w2) →
    _sendcmd x w2 = Some (e, w3) → e ≠ 0 → e ≠ - ENOENT →
    hgsl_dispatch_requeue_drawobj p x w3 = Some (tt, w') →
    turn_sends p w (Retired <$> dropped) (x :: q) (Some e) w'.

(** Turn after turn, until one returns [ret]. *)
Inductive sends (p : ptr) : world → list fate → list ptr → Z → world → Prop :=
| sends_last w fates q ret w' :
    turn_sends p w fates q (Some ret) w' → sends p w fates q ret w'
| sends_more w fates1 q1 w1 fates2 q ret w' :
    turn_sends p w fates1 q1 None w1 → sends p w1 fates2 q ret w' →
    sends p w (fates1 ++ fates2) q ret w'.

(** ** Queueing *)

Definition _context_queue_wait : Z := 10000.

Definition _check_for_room_in_context_drawq (ctxt : ptr) (count : Z) : M world Z :=
  c ← load w_contexts ctxt;
  if _context_drawqueue_size - 1 <? u32 (c_queued c + count)
  then wait_event_interruptible_timeout (_check_context_queue ctxt count)
  else mret 0.

Definition set_timestamp (drawobj : ptr) (ts : Z) : M world unit :=
  update w_drawobjs drawobj (λ o, o <| o_timestamp := ts |>).

(** The loop of _queue_cmdobj over the ring, from the index [j]. *)
Fixpoint skip_markers (fuel : nat) (ctxt : ptr) (j : nat) : M world unit :=
  c ← load w_contexts ctxt;
  if (j =? c_drawq_tail c)%nat then mret tt
  else
    match fuel with
    | O => fault
    | S fuel =>
        slot ← of_option (c_drawq c !! j);
        obj ← of_option slot;
        o ← load w_drawobjs obj;
        when (o_type o =? MARKEROBJ_TYPE) (cmd_set_bit CMDOBJ_SKIP obj) ;;
        skip_markers fuel ctxt (DRAWQUEUE_NEXT j CONTEXT_DRAWQUEUE_SIZE)
    end.

(** The return code and the new [*timestamp], here and below. *)
Definition _queue_cmdobj (ctxt cmdobj : ptr) (timestamp user_ts : Z) : M world (Z * Z) :=
  c ← load w_contexts ctxt;
  let '(ret, ts) := hgsl_db_next_timestamp c user_ts in
  if negb (ret =? 0) then mret (ret, timestamp)
  else
    set_timestamp cmdobj ts ;;
    skip_markers CONTEXT_DRAWQUEUE_SIZE ctxt (c_drawq_head c) ;;
    update w_contexts ctxt (λ c, c <| c_queued_ts := ts |>) ;;
    _queue_drawobj ctxt cmdobj ;;
    mret (0, ts).

Definition _queue_syncobj (ctxt syncobj : ptr) : M world Z :=
  set_timestamp syncobj 0 ;;
  _queue_drawobj ctxt syncobj ;;
  mret 0.

Definition _queue_markerobj (ctxt markerobj : ptr) (timestamp user_ts : Z) :
  M world (Z * Z) :=
  c ← load w_contexts ctxt;
  let '(ret, ts) := hgsl_db_next_timestamp c user_ts in
  if negb (ret =? 0) then mret (ret, timestamp)
  else
    set_timestamp markerobj ts ;;
    o ← load w_drawobjs markerobj;
    let queue : M world (Z * Z) :=
      c ← load w_contexts ctxt;
      update_cmd markerobj (λ m, m <| cmd_marker_timestamp := c_queued_ts c |>) ;;
      update w_contexts ctxt (λ c, c <| c_queued_ts := ts |>) ;;
      _queue_drawobj ctxt markerobj ;;
      mret (0, ts) in
    match c_shadow_ts c with
    | Some _ =>
        expired ← (if c_queued c =? 0
                   then hgsl_check_timestamp (o_context o) (c_queued_ts c)
                   else mret false);
        if expired : bool
        then
          update w_contexts ctxt (λ c, c <| c_queued_ts := ts |>) ;;
          _retire_timestamp markerobj ;;
          mret (1, ts)
        else queue
    | None => cmd_set_bit CMDOBJ_SKIP markerobj ;; queue
    end.

Definition _queue_timelineobj (ctxt drawobj : ptr) : M world unit :=
  set_timestamp drawobj 0 ;;
  _queue_drawobj ctxt drawobj.

(** The [for] loop of hgsl_dispatch_queue_cmds.  The first component is the
    return code together with whether the loop was left by [goto out]. *)
Fixpoint queue_loop (ctxt : ptr) (drawobj : list ptr) (timestamp user_ts : Z) :
  M world ((Z * bool) * Z) :=
  match drawobj with
  | [] => mret ((0, false), timestamp)
  | obj :: rest =>
      o ← load w_drawobjs obj;
      if o_type o =? MARKEROBJ_TYPE
      then
        '(ret, timestamp) ← _queue_markerobj ctxt obj timestamp user_ts;
        if ret =? 1 then mret ((0, true), timestamp)
        else if negb (ret =? 0) then mret ((ret, true), timestamp)
        else queue_loop ctxt rest timestamp user_ts
      else if o_type o =? CMDOBJ_TYPE
      then
        '(ret, timestamp) ← _queue_cmdobj ctxt obj timestamp user_ts;
        if negb (ret =? 0) then mret ((ret, true), timestamp)
        else queue_loop ctxt rest timestamp user_ts
      else if o_type o =? SYNCOBJ_TYPE
      then
        timestamp ← _queue_syncobj ctxt obj;
        queue_loop ctxt rest timestamp user_ts
      else if o_type o =? BINDOBJ_TYPE then queue_loop ctxt rest timestamp user_ts
      else if o_type o =? TIMELINEOBJ_TYPE
      then _queue_timelineobj ctxt obj ;; queue_loop ctxt rest timestamp user_ts
      else mret ((- EINVAL, true), timestamp)
  end.

Definition hgsl_dispatch_queue_cmds (ctxt : option ptr) (drawobj : list ptr)
    (timestamp : Z) : M world (Z * Z) :=
  let count := Z.of_nat (length drawobj) in
  match ctxt with
  | None => mret (- EINVAL, timestamp)
  | Some ctxt =>
      if (count =? 0) || (_context_drawqueue_size - 1 <? count)
      then mret (- EINVAL, timestamp)
      else
        c ← load w_contexts ctxt;
        if c_in_destroy c then mret (- EINVAL, timestamp)
        else
          ret ← _check_for_room_in_context_drawq ctxt count;
          if negb (ret =? 0) then mret (ret, timestamp)
          else
            let user_ts := timestamp in
            only_sync ← match drawobj with
                        | [obj] => o ← load w_drawobjs obj; mret (o_type o =? SYNCOBJ_TYPE)
                        | _ => mret false
                        end;
            c ← load w_contexts ctxt;
            if negb only_sync &&
               has_flag (c_flags c) GSL_CONTEXT_FLAG_CLIENT_GENERATED_TS &&
               hgsl_ts32_ge (c_queued_ts c) user_ts
            then mret (- ERANGE, timestamp)
            else
              '((ret, out), timestamp) ← queue_loop ctxt drawobj timestamp user_ts;
              if out : bool then mret (ret, timestamp)
              else
                ret ← hgsl_dispatch_queue_context ctxt;
                mret (ret, timestamp)
  end.

(** ** Reclamation *)

(** The [list_for_each_entry_safe] loop of _retire_drawobjs: what stays. *)
Fixpoint retire_drawobjs (l : list ptr) : M world (list ptr) :=
  match l with
  | [] => mret []
  | drawobj :: l' =>
      o ← load w_drawobjs drawobj;
      expired ← hgsl_check_timestamp (o_context o) (o_timestamp o);
      if expired : bool
      then hgsl_drawobj_destroy (Some drawobj) ;; retire_drawobjs l'
      else rest ← retire_drawobjs l'; mret (drawobj :: rest)
  end.

Definition _retire_drawobjs (ctxt : ptr) : M world unit :=
  dispatch ← get_dispatch ctxt;
  rest ← retire_drawobjs (d_list dispatch);
  update_dispatch ctxt (λ d, d <| d_list := rest |>).

(** At most [fuel] turns; the result says that the list was emptied. *)
Fixpoint hgsl_reclaim_drawobjs (fuel : nat) (ctxt : ptr) : M world bool :=
  dispatch ← get_dispatch ctxt;
  match d_list dispatch, fuel with
  | [], _ => mret true
  | _, O => mret false
  | _, S fuel => _retire_drawobjs ctxt ;; gpu_step ;; hgsl_reclaim_drawobjs fuel ctxt
  end.

(** ** The work of the dispatcher's thread *)

(** The turns of the [for] loop from [i] on, [n] of them. *)
Fixpoint issuecmds_loop (ctxt : ptr) (i : Z) (n : nat) : M world unit :=
  match n with
  | O => mret tt
  | S n =>
      (if 0 <? i then hgsl_put_context (Some ctxt)
       else
         ret ← hgsl_dispatch_sendcmds ctxt;
         if (ret =? 0) || (ret =? - ENOENT) then hgsl_put_context (Some ctxt)
         else dispatch_count_inc ctxt ;; hgsl_dispatch_ctxt_schedule ctxt) ;;
      issuecmds_loop ctxt (i + 1) n
  end.

Definition hgsl_dispatch_ctxt_issuecmds (ctxt : ptr) : M world unit :=
  dispatch ← get_dispatch ctxt;
  update_dispatch ctxt (λ d, d <| d_count := 0 |>) ;;
  issuecmds_loop ctxt 0 (Z.to_nat (d_count dispatch)).

Definition hgsl_dispatch_ctxt_work (ctxt : ptr) : M world unit :=
  _retire_drawobjs ctxt ;;
  hgsl_process_event_group ctxt ;;
  hgsl_dispatch_ctxt_issuecmds ctxt.

(** The worker's thread takes the work off its queue and runs it. *)
Definition kthread_worker_run (ctxt : ptr) : M world unit :=
  update_dispatch ctxt (λ d, d <| d_work := false |>) ;;
  hgsl_dispatch_ctxt_work ctxt.

(** kthread_flush_worker: runs what is queued when it is called. *)
Definition kthread_flush_worker (ctxt : ptr) : M world unit :=
  dispatch ← get_dispatch ctxt;
  when (d_work dispatch) (kthread_worker_run ctxt).

Definition hgsl_dispatch_ctxt_init (ctxt : ptr) : M world Z :=
  c ← load w_contexts ctxt;
  match c_dispatch c with
  | Some _ => mret 0
  | None =>
      ok ← ask k_alloc;
      if negb ok then mret (- ENOMEM)
      else
        ret ← ask k_create_worker;
        if negb (ret =? 0) then mret ret
        else
          store w_contexts ctxt
            (c <| c_dispatch := Some (mk_dispatch 0 [] false) |>) ;;
          mret 0
  end.

Definition hgsl_dispatch_ctxt_deinit (ctxt : ptr) : M world unit :=
  hgsl_del_event_group ctxt ;;
  update w_contexts ctxt (λ c, c <| c_dispatch := None |>).

(** ** Detaching a context (hgsl_drawobj.c) *)

(** The [while] loop that empties the ring. *)
Fixpoint detach_loop (fuel : nat) (ctxt : ptr) : M world (list (option ptr)) :=
  c ← load w_contexts ctxt;
  if (c_drawq_head c =? c_drawq_tail c)%nat then mret []
  else
    match fuel with
    | O => fault
    | S fuel =>
        slot ← of_option (c_drawq c !! c_drawq_head c);
        store w_contexts ctxt
          (c <| c_drawq_head ::= (λ h, ((h + 1) `mod` CONTEXT_DRAWQUEUE_SIZE)%nat) |>) ;;
        rest ← detach_loop fuel ctxt;
        mret (slot :: rest)
    end.

(** [fuel] bounds the turns of hgsl_reclaim_drawobjs; false when it ran out. *)
Definition hgsl_ctxt_detach_drawobjs (fuel : nat) (ctxt : ptr) : M world bool :=
  got ← hgsl_context_get (Some ctxt);
  if negb got then mret true
  else
    emit (A_wake_up_drawq ctxt) ;;
    hgsl_flush_event_group ctxt ;;
    l ← detach_loop CONTEXT_DRAWQUEUE_SIZE ctxt;
    for_each l (λ slot,
      drawobj ← of_option slot;
      o ← load w_drawobjs drawobj;
      hgsl_cancel_events_timestamp ctxt (o_timestamp o) ;;
      hgsl_drawobj_destroy (Some drawobj)) ;;
    c ← load w_contexts ctxt;
    done ← match c_dispatch c with
           | Some _ =>
               hgsl_dispatch_ctxt_schedule ctxt ;;
               kthread_flush_worker ctxt ;;
               hgsl_reclaim_drawobjs fuel ctxt
           | None => mret true
           end;
    hgsl_put_context (Some ctxt) ;;
    mret done.

End dispatch.

(** ** A small world *)

(** A submission path that takes everything. *)
Definition quiet_issue : IssueCmd :=
  Build_IssueCmd (λ _ _ _ _ ts _ _ _, mret (0, ts)) (λ _ _ _ _ _ _ _ _, frames_ret _ _).

Definition ring_fill (c : hgsl_context) (q : list ptr) : hgsl_context :=
  foldl (λ c x, ring_queue x c) c q.

Definition small_context (q : list ptr) : hgsl_context :=
  (ring_fill (fresh_context 1 7 GSL_CONTEXT_FLAG_USER_GENERATED_TS (Some (mk_shadow 0 0))) q)
    <| c_kref := 9 |> <| c_dispatch := Some (mk_dispatch 2 [] false) |>.

Definition small_obj (type : Z) (b : drawobj_body) : hgsl_drawobj :=
  mk_drawobj 1 2 type 0 0 1 b.

(** Context 2 with its ring [q]; objects 10 (command), 11 (marker), 12 (sync object
    with a pending event), 13 (sync object without). *)
Definition small_world (q : list ptr) : world :=
  empty_world
    <| w_contexts := {[2%positive := small_context q]} |>
    <| w_drawobjs := {[
         10%positive := small_obj CMDOBJ_TYPE (Cmd (mk_cmd 0 [] [] 0 None 0));
         11%positive := small_obj MARKEROBJ_TYPE (Cmd (mk_cmd 0 [] [] 5 None 0));
         12%positive := small_obj SYNCOBJ_TYPE (Sync (mk_sync [zero_sync_event] 1 1 0));
         13%positive := small_obj SYNCOBJ_TYPE (Sync (mk_sync [] 0 0 0)) ]} |>
    <| w_next := 20%positive |>.

(** While the caller sleeps, the dispatcher empties the ring. *)
Definition draining_kernel : Kernel := quiet_kernel_with (λ _ _, small_world []).

(** * Lemmas *)

(** ** The ring *)

(** Linear arithmetic over the ring's indices. *)
Ltac ring_lia :=
  unfold DRAWQUEUE_NEXT, CONTEXT_DRAWQUEUE_SIZE in *;
  zify; Z.to_euclidean_division_equations; lia.

Lemma ring_pop_rep c x q : ring_rep c (x :: q) → ring_rep (ring_pop c) q.
Proof.
  intros [Hs Hh Ht Hr Hq Hslots]. cbn [length] in *.
  split; cbn -[Nat.modulo]; unfold DRAWQUEUE_NEXT; [done| | |lia|lia|].
  - apply Nat.mod_upper_bound. done.
  - ring_lia.
  - intros k y Hk. rewrite <-(Hslots (S k) y Hk). f_equal.
    apply lookup_lt_Some in Hk. ring_lia.
Qed.

Lemma ring_queue_rep c q obj :
  ring_rep c q → (length q < CONTEXT_DRAWQUEUE_SIZE - 1)%nat →
  ring_rep (ring_queue obj c) (q ++ [obj]).
Proof.
  intros [Hs Hh Ht Hr Hq Hslots] Hlen.
  split; cbn -[Nat.modulo]; rewrite ?length_insert, ?length_app; cbn [length]; try done.
  - ring_lia.
  - unfold CONTEXT_DRAWQUEUE_SIZE in *. lia.
  - lia.
  - intros k x [Hk|[Hk Hx]]%lookup_app_Some.
    + pose proof (lookup_lt_Some _ _ _ Hk). rewrite list_lookup_insert_ne; [auto|].
      rewrite Ht. ring_lia.
    + apply list_lookup_singleton_Some in Hx as [Hk0 <-].
      replace k with (length q) by lia. rewrite <-Ht.
      apply list_lookup_insert_eq. rewrite Hs, Ht. by apply Nat.mod_upper_bound.
Qed.

Lemma ring_requeue_rep c q obj :
  ring_rep c q → (length q < CONTEXT_DRAWQUEUE_SIZE - 1)%nat →
  ring_rep (ring_requeue obj c) (obj :: q).
Proof.
  intros [Hs Hh Ht Hr Hq Hslots] Hlen. unfold ring_requeue.
  set (prev := if (c_drawq_head c =? 0)%nat then _ else _).
  assert (Hp : (prev < CONTEXT_DRAWQUEUE_SIZE)%nat ∧
               c_drawq_head c = ((prev + 1) `mod` CONTEXT_DRAWQUEUE_SIZE)%nat).
  { unfold prev. destruct (Nat.eqb_spec (c_drawq_head c) 0); split; ring_lia. }
  destruct Hp as [Hp Hn]. rewrite Hn in Ht, Hslots. clearbody prev.
  split; cbn -[Nat.modulo]; rewrite ?length_insert; try done.
  - ring_lia.
  - unfold CONTEXT_DRAWQUEUE_SIZE in *. lia.
  - lia.
  - intros [|k] x Hk.
    + injection Hk as ->. rewrite Nat.add_0_r, Nat.mod_small by done.
      apply list_lookup_insert_eq. by rewrite Hs.
    + pose proof (lookup_lt_Some q k x Hk) as H.
      rewrite list_lookup_insert_ne by (clear -Hp Hlen H; ring_lia).
      rewrite <-(Hslots k x Hk). f_equal. clear -Hp. ring_lia.
Qed.

Lemma ring_fresh priv id flags shadow : ring_rep (fresh_context priv id flags shadow) [].
Proof.
  split; cbn; try done; try (unfold CONTEXT_DRAWQUEUE_SIZE; lia).
Qed.

Lemma ring_fill_rep c q q' :
  ring_rep c q → (length q + length q' < CONTEXT_DRAWQUEUE_SIZE)%nat →
  ring_rep (ring_fill c q') (q ++ q').
Proof.
  revert c q. induction q' as [|x q' IH]; intros c q Hc Hl; cbn in *.
  - by rewrite app_nil_r.
  - replace (q ++ x :: q') with ((q ++ [x]) ++ q') by by rewrite <-app_assoc.
    apply IH; [apply ring_queue_rep; [done|lia]|].
    rewrite length_app. cbn. lia.
Qed.

(** ** The ring of a context in the store *)

Lemma ring_rep_ring_of c c' q : ring_of c' = ring_of c → ring_rep c q → ring_rep c' q.
Proof.
  unfold ring_of. intros [= Ed Eh Et Eq] [Hs Hh Ht Hr Hq Hslots].
  split; rewrite ?Ed, ?Eh, ?Et, ?Eq; assumption.
Qed.

Lemma drawq_at_frame w w' p t q : disp_frame w w' → drawq_at w p t q → drawq_at w' p t q.
Proof.
  intros [R _] (c & Hc & Ht & Hq). destruct (R _ _ Hc) as (c' & Hc' & E).
  exists c'. split; [done|]. split; [|by apply ring_rep_ring_of with c].
  unfold ring_of in E. congruence.
Qed.

#[export] Instance types_kept_preorder : PreOrder types_kept.
Proof. split; unfold types_kept; [eauto | intros ???; eauto]. Qed.

Lemma disp_frame_types w w' : disp_frame w w' → types_kept w w'.
Proof.
  intros [_ T] x t. unfold type_of. rewrite !fmap_Some.
  intros (o' & Ho' & ->). destruct (T _ _ Ho') as (o & Ho & E). by exists o.
Qed.

(** What a framed computation keeps, in one step. *)
Lemma framed_run {A} (m : M world A) `{!Frames disp_frame m} w a w' :
  m w = Some (a, w') →
  types_kept w w' ∧ ∀ p t q, drawq_at w p t q → drawq_at w' p t q.
Proof.
  intros H. apply frames in H.
  split; [by apply disp_frame_types | intros p t q; by apply drawq_at_frame].
Qed.

(** An update of the ring of [p]. *)
Lemma update_ring_run p f w u w' t q t' q' :
  (∀ c, c_drawq_tail c = t → ring_rep c q → c_drawq_tail (f c) = t' ∧ ring_rep (f c) q') →
  drawq_at w p t q → update w_contexts p f w = Some (u, w') →
  types_kept w w' ∧ drawq_at w' p t' q'.
Proof.
  intros Hf (c & Hc & Ht & Hq) (c' & Hc' & ->)%update_Some. split; [by intros ??|].
  rewrite Hc in Hc'. injection Hc' as <-. exists (f c). cbn.
  rewrite lookup_insert_eq. split; [done | by apply Hf].
Qed.

Lemma pop_run p t x q w u w' :
  drawq_at w p t (x :: q) → _pop_drawobj p w = Some (u, w') →
  types_kept w w' ∧ drawq_at w' p t q.
Proof.
  apply update_ring_run. intros c Ht Hc. split; [done | by apply ring_pop_rep with x].
Qed.

Lemma queue_run p obj q w u w' :
  (length q < CONTEXT_DRAWQUEUE_SIZE - 1)%nat → drawq_is w p q →
  _queue_drawobj p obj w = Some (u, w') → types_kept w w' ∧ drawq_is w' p (q ++ [obj]).
Proof.
  intros Hl [t Hq] H.
  apply (update_ring_run _ _ _ _ _ t q ((t + 1) `mod` CONTEXT_DRAWQUEUE_SIZE)%nat
    (q ++ [obj])) in H as [T D]; [split; [done | by eexists] | | done].
  intros c <- Hc. split; [done | by apply ring_queue_rep].
Qed.

Lemma requeue_run p obj t q w u w' :
  (length q < CONTEXT_DRAWQUEUE_SIZE - 1)%nat → drawq_at w p t q →
  hgsl_dispatch_requeue_drawobj p obj w = Some (u, w') →
  types_kept w w' ∧ drawq_at w' p t (obj :: q).
Proof.
  intros Hl. apply update_ring_run. intros c Ht Hc.
  split; [done | by apply ring_requeue_rep].
Qed.

(** Steps the run [H] of a framed computation: what was known of the rings and
    types of its start holds at its end. *)
Ltac step_framed H :=
  let T := fresh "T" in let D := fresh "D" in
  pose proof (framed_run _ _ _ _ H) as [T D]; clear H.

(** Chains of [types_kept]. *)
Ltac kept :=
  lazymatch goal with
  | |- types_kept ?w ?w => reflexivity
  | |- types_kept ?w _ =>
      match goal with H : types_kept w _ |- _ => etransitivity; [exact H | kept] end
  end.

Section drawqueue.
Context `{K : Kernel} `{I : IssueCmd}.

#[export] Instance frames_get_dispatch p : Frames disp_frame (get_dispatch p).
Proof. unfold get_dispatch. frames_tac. Qed.

#[export] Instance frames_update_dispatch p f : Frames disp_frame (update_dispatch p f).
Proof. by apply frames_load_dispatch'. Qed.

#[export] Instance frames_marker_expired {R : world → world → Prop} `{!WorldFrame R} m :
  Frames R (_marker_expired m).
Proof. unfold _marker_expired. frames_tac. Qed.

#[export] Instance frames_cmd_set_bit {R : world → world → Prop} `{!WorldFrame R} b m
  `{!FramesObj R m} : Frames R (cmd_set_bit b m).
Proof. unfold cmd_set_bit. frames_tac. Qed.

#[export] Instance frames_cmd_test_bit {R : world → world → Prop} `{!WorldFrame R} b m :
  Frames R (cmd_test_bit b m).
Proof. unfold cmd_test_bit. frames_tac. Qed.

#[export] Instance frames_retire_timestamp_only o :
  Frames disp_frame (_retire_timestamp_only o).
Proof. unfold _retire_timestamp_only. frames_tac. Qed.

#[export] Instance frames_retire_timestamp o : Frames disp_frame (_retire_timestamp o).
Proof. unfold _retire_timestamp. frames_tac. Qed.

#[export] Instance frames_fill_ib_descs n l : Frames disp_frame (fill_ib_descs n l).
Proof. unfold fill_ib_descs. frames_tac. Qed.

#[export] Instance frames_issue_drawobj o : Frames disp_frame (hgsl_issue_drawobj o).
Proof. unfold hgsl_issue_drawobj. frames_tac. Qed.

#[export] Instance frames_sendcmd o : Frames disp_frame (_sendcmd o).
Proof. unfold _sendcmd. frames_tac. Qed.

#[export] Instance frames_check_queue p n : Frames disp_frame (_check_context_queue p n).
Proof. unfold _check_context_queue. frames_tac. Qed.

(** *** Only the object at the head changes *)

#[export] Instance drop_pop x oc p : Frames (drop_frame x oc) (_pop_drawobj p).
Proof.
  intros w [] w' (c & Hc & ->)%update_Some. split; [done|]. intros q d _ Hq. cbn.
  destruct (decide (p = q)) as [->|].
  - rewrite lookup_insert_eq. rewrite Hc in Hq. injection Hq as <-. by eexists.
  - rewrite lookup_insert_ne by done. eauto.
Qed.

Lemma drop_frame_more x oc w w' : drop_frame x None w w' → drop_frame x oc w w'.
Proof. intros [Ho Hs]. split; [done|]. intros p c _. by apply Hs. Qed.

(** A computation that frames the draw objects other than any one object frames them all. *)
Lemma frames_objs {A} (m : M world A) w a w' y :
  (∀ x, Frames (drop_frame x None) m) → m w = Some (a, w') →
  w_drawobjs w' !! y = w_drawobjs w !! y.
Proof. intros Hm H. by apply (Hm (Pos.succ y) _ _ _ H); lia. Qed.

Lemma CMDOBJ_Some x w c w' :
  CMDOBJ x w = Some (c, w') ↔
  w' = w ∧ ∃ o, w_drawobjs w !! x = Some o ∧ o_body o = Cmd c.
Proof.
  unfold CMDOBJ. rewrite bind_Some. setoid_rewrite load_Some. split.
  - intros (o & ? & [Ho ->] & H). destruct (o_body o) eqn:E; try discriminate.
    inv_run. eauto.
  - intros (-> & o & Ho & E). exists o, w. rewrite E. done.
Qed.

Lemma SYNCOBJ_Some x w s w' :
  SYNCOBJ x w = Some (s, w') ↔
  w' = w ∧ ∃ o, w_drawobjs w !! x = Some o ∧ o_body o = Sync s.
Proof.
  unfold SYNCOBJ. rewrite bind_Some. setoid_rewrite load_Some. split.
  - intros (o & ? & [Ho ->] & H). destruct (o_body o) eqn:E; try discriminate.
    inv_run. eauto.
  - intros (-> & o & Ho & E). exists o, w. rewrite E. done.
Qed.

Lemma ask_contexts {A} (f : nat → A) w a w' :
  ask f w = Some (a, w') → w_contexts w' = w_contexts w ∧ w_drawobjs w' = w_drawobjs w.
Proof. by intros [= <- <-]. Qed.

Lemma context_get_Some p w got w' :
  hgsl_context_get (Some p) w = Some (got, w') →
  ∃ c, w_contexts w !! p = Some c ∧
    (c_kref c = 0 ∧ got = false ∧ w' = w ∨
     c_kref c ≠ 0 ∧ got = true ∧ w' = with_context w p (c <| c_kref := c_kref c + 1 |>)).
Proof.
  unfold hgsl_context_get, kref_get_unless_zero.
  intros (c & w1 & [Hc ->]%load_Some & H)%bind_Some. exists c. split; [done|].
  destruct (Z.eqb_spec (c_kref c) 0); [left; by injection H as <- <-|right].
  split; [done|]. apply bind_Some in H as ([] & w1 & H1 & H).
  assert (store w_contexts p (c <| c_kref := c_kref c + 1 |>) w =
    Some (tt, with_context w p (c <| c_kref := c_kref c + 1 |>))) as E by done.
  rewrite E in H1. assert (got = true ∧ w' = w1) as [-> ->] by (by injection H as <- <-).
  split; [done|]. congruence.
Qed.

Lemma get_shadow_Some p type w r w' :
  get_context_shadow_ts p type w = Some (r, w') →
  w' = w ∧ ∀ c s, w_contexts w !! p = Some c → c_shadow_ts c = Some s → type = GSL_TIMESTAMP_RETIRED →
    r = (0, eop s).
Proof.
  intros (c & w1 & [Hc ->]%load_Some & H)%bind_Some. injection H as <- <-. split; [done|].
  intros c' s Hc' Hs ->. rewrite Hc in Hc'. injection Hc' as <-. by rewrite Hs.
Qed.

(** What the retired timestamp says, with a reference taken for the time of the look. *)
Lemma check_timestamp_Some p ts w b w' c s :
  w_contexts w !! p = Some c → c_shadow_ts c = Some s →
  hgsl_check_timestamp p ts w = Some (b, w') →
  (c_kref c = 0 → w_contexts w' = w_contexts w) ∧ (c_kref c ≠ 0 → b = hgsl_ts32_ge (eop s) ts).
Proof.
  intros Hc Hs H. unfold hgsl_check_timestamp in H.
  apply bind_Some in H as (u & w1 & [H1 _]%ask_contexts & H). rewrite <- H1 in *. clear H1 w.
  apply bind_Some in H as ([ret rt] & w2 & H2 & H). injection H as Hb ->.
  unfold hgsl_read_timestamp in H2. apply bind_Some in H2 as (got & w3 & H3 & H2).
  apply context_get_Some in H3 as (c' & Hc' & H3). rewrite Hc in Hc'. injection Hc' as <-.
  destruct H3 as [(Hk & -> & ->)|(Hk & -> & ->)]; cbn [negb] in H2.
  { split; [|done]. intros _. by injection H2 as _ _ ->. }
  split; [done|]. intros _. apply bind_Some in H2 as ([r0 ts0] & w5 & H5 & H2).
  apply get_shadow_Some in H5 as [-> H5].
  specialize (H5 _ s (with_context_lookup _ _ _) Hs eq_refl). injection H5 as -> ->.
  apply bind_Some in H2 as ([] & w7 & _ & H2). cbn [Z.eqb] in H2. injection H2 as <- <- _. by rewrite <- Hb.
Qed.

Lemma marker_expired_Some x w b w' :
  _marker_expired x w = Some (b, w') → b = true ↔ marker_expired w x.
Proof.
  intros H. unfold _marker_expired in H.
  apply bind_Some in H as (o & w1 & [Ho ->]%load_Some & H).
  apply bind_Some in H as (cmd & w1 & (-> & o' & Ho' & Eb)%CMDOBJ_Some & H).
  rewrite Ho in Ho'. injection Ho' as <-.
  apply bind_Some in H as (c & w1 & [Hc ->]%load_Some & H).
  assert (marker_expired w x ↔
    has_flag (o_flags o) HGSL_DRAWOBJ_MARKER = true ∧ ∃ s, c_shadow_ts c = Some s ∧
    (c_kref c = 0 ∨ hgsl_ts32_ge (eop s) (cmd_marker_timestamp cmd) = true)) as ->.
  { split; [|intros (Hf & s & Hs & Hk); by exists o, cmd, c, s].
    intros (o1 & cmd1 & c1 & s & Ho1 & Eb1 & Hc1 & Hf & Hs & Hk).
    rewrite Ho in Ho1. injection Ho1 as <-. rewrite Eb in Eb1. injection Eb1 as <-.
    rewrite Hc in Hc1. injection Hc1 as <-. eauto. }
  destruct (has_flag (o_flags o) HGSL_DRAWOBJ_MARKER) eqn:Ef; cbn [negb orb] in H.
  2:{ injection H as <- _. naive_solver. }
  destruct (c_shadow_ts c) as [s|] eqn:Es.
  2:{ rewrite bool_decide_eq_true_2 in H by done. injection H as <- _. naive_solver. }
  rewrite bool_decide_eq_false_2 in H by done.
  apply bind_Some in H as (got & w1 & H1 & H).
  apply context_get_Some in H1 as (c' & Hc' & H1). rewrite Hc in Hc'. injection Hc' as <-.
  destruct H1 as [(Hk & -> & _)|(Hk & -> & ->)]; cbn [negb] in H.
  { injection H as <- _. naive_solver. }
  apply bind_Some in H as (e & w2 & H2 & H).
  set (c1 := c <| c_kref := c_kref c + 1 |>) in H2.
  pose proof (check_timestamp_Some _ _ _ _ _ c1 s (with_context_lookup _ _ _) Es H2) as [Hz He].
  apply bind_Some in H as ([] & w3 & H3 & H). injection H as <- _.
  change (c_kref c1) with (c_kref c + 1) in Hz, He. destruct (Z.eqb_spec (c_kref c + 1) 0) as [E1|E1].
  - exfalso. specialize (Hz E1). unfold hgsl_put_context, kref_put in H3.
    apply bind_Some in H3 as (c2 & w4 & [Hc2 ->]%load_Some & H3). rewrite Hz, with_context_lookup in Hc2.
    assert (c2 = c1) as -> by congruence.
    change (c_kref c1) with (c_kref c + 1) in H3. by rewrite E1 in H3.
  - rewrite (He E1). naive_solver.
Qed.

(** *** One turn *)

Lemma retire_syncobj_run p t x q w r w' :
  drawq_at w p t (x :: q) → _retire_syncobj x p w = Some (r, w') →
  types_kept w w' ∧ drop_frame x None w w' ∧
  (r = 0 ∧ waits w x false ∧ drawq_at w' p t q ∨
   r = - EAGAIN ∧ waits w x true ∧ drawq_at w' p t (x :: q)).
Proof.
  intros Hq H.
  assert (Frames (drop_frame x None) (_retire_syncobj x p)) as Hf by (unfold _retire_syncobj; frames_tac).
  pose proof (Hf _ _ _ H) as F. clear Hf. unfold _retire_syncobj in H.
  apply bind_Some in H as (s & w1 & (-> & o & Ho & Eb)%SYNCOBJ_Some & H).
  destruct (hgsl_drawobj_events_pending s) eqn:Hp; cbn [negb] in H.
  - apply bind_Some in H as ([] & w2 & H2 & H). step_framed H2. inv_run.
    split; [kept|]. split; [done|]. right. split; [done|]. split; [by exists o, s|eauto].
  - apply bind_Some in H as ([] & w2 & H2 & H).
    eapply pop_run in H2 as [T2 D2]; [|eauto].
    apply bind_Some in H as ([] & w3 & H3 & H). step_framed H3. inv_run.
    split; [kept|]. split; [done|]. left. split; [done|]. split; [by exists o, s|eauto].
Qed.

(** The context of an object stays the same while its bits change. *)
Definition of_context (w : world) (x : ptr) (ctxt : ptr) : Prop :=
  ∃ o, w_drawobjs w !! x = Some o ∧ o_context o = ctxt.

Lemma retire_timestamp_drop x w u w' ctxt :
  of_context w x ctxt → _retire_timestamp x w = Some (u, w') → drop_frame x (Some ctxt) w w'.
Proof.
  intros (o & Ho & <-) H. unfold _retire_timestamp in H. apply bind_Some in H as ([] & w1 & H1 & H).
  unfold _retire_timestamp_only in H1. apply bind_Some in H1 as (o' & w2 & [Ho' ->]%load_Some & H1).
  rewrite Ho in Ho'. injection Ho' as <-. transitivity w1.
  - refine (@frames _ _ _ _ _ _ _ _ H1).
  - refine (@frames _ _ _ _ _ _ _ _ H).
Qed.

Lemma cmd_set_bit_context b x w u w' ctxt :
  of_context w x ctxt → cmd_set_bit b x w = Some (u, w') → of_context w' x ctxt.
Proof.
  intros (o & Ho & <-) H. unfold cmd_set_bit, update_cmd, set_body in H.
  apply bind_Some in H as (c & w1 & (-> & _)%CMDOBJ_Some & H).
  apply update_Some in H as (o' & Ho' & ->). rewrite Ho in Ho'. injection Ho' as <-.
  eexists. split; [apply lookup_insert_eq|done].
Qed.

Lemma retire_markerobj_run p t x q w r w' o :
  drawq_at w p t (x :: q) → w_drawobjs w !! x = Some o → _retire_markerobj x p w = Some (r, w') →
  types_kept w w' ∧
  (r = 0 ∧ marker_expired w x ∧ drop_frame x (Some (o_context o)) w w' ∧ drawq_at w' p t q ∨
   ¬ marker_expired w x ∧ drop_frame x None w w' ∧ drawq_at w' p t (x :: q) ∧
   (r = 1 ∧ skipped w x ∨ r = - EAGAIN ∧ ¬ skipped w x)).
Proof.
  intros Hq Ho H. unfold _retire_markerobj in H.
  apply bind_Some in H as (e & w1 & H1 & H). pose proof (marker_expired_Some _ _ _ _ H1) as He.
  pose proof (frames_objs _ _ _ _ x _ H1) as Ex. pose proof (frames (R := drop_frame x None) _ _ _ H1) as F1.
  step_framed H1. destruct e.
  - assert (of_context w1 x (o_context o)) as Hx by (exists o; by rewrite Ex).
    apply bind_Some in H as ([] & w2 & H2 & H). pose proof (cmd_set_bit_context _ _ _ _ _ _ Hx H2) as Hx2.
    pose proof (frames (R := drop_frame x None) _ _ _ H2) as F2. step_framed H2.
    apply bind_Some in H as ([] & w3 & H3 & H).
    pose proof (frames (R := drop_frame x None) _ _ _ H3) as F3. pose proof (frames_objs _ _ _ _ x _ H3) as Ex3.
    eapply pop_run in H3 as [T3 D3]; [|eauto].
    apply bind_Some in H as ([] & w4 & H4 & H).
    assert (of_context w3 x (o_context o)) as Hx3 by (unfold of_context; by rewrite Ex3).
    pose proof (retire_timestamp_drop _ _ _ _ _ Hx3 H4) as F4. step_framed H4. inv_run.
    split; [kept|]. left. split; [done|]. split; [by apply He|]. split; [|eauto].
    transitivity w3; [|done]. apply drop_frame_more. do 2 (etransitivity; [eassumption|]). done.
  - apply bind_Some in H as (skip & w2 & H2 & H).
    pose proof (frames (R := drop_frame x None) _ _ _ H2) as F2.
    unfold cmd_test_bit in H2. apply bind_Some in H2 as (c & w3 & (-> & o' & Ho' & Eb)%CMDOBJ_Some & H2).
    injection H2 as Hskip <-. inv_run. rewrite Ex, Ho in Ho'. injection Ho' as <-.
    split; [kept|]. right. split; [intros ?%He; done|]. split; [by etransitivity|]. split; [eauto|].
    assert (skip = true ↔ skipped w x) as Hs.
    { rewrite <- Hskip. split; [by exists o, c|]. intros (o1 & c1 & Ho1 & Eb1 & ?).
      rewrite Ho in Ho1. injection Ho1 as <-. rewrite Eb in Eb1. by injection Eb1 as <-. }
    destruct skip; [left; split; [done|by apply Hs]|right; split; [done|intros ?%Hs; done]].
Qed.

Lemma retire_timelineobj_run p t x q w r w' :
  drawq_at w p t (x :: q) → _retire_timelineobj x p w = Some (r, w') →
  types_kept w w' ∧ drop_frame x None w w' ∧ r = 0 ∧ drawq_at w' p t q.
Proof.
  intros Hq H.
  assert (Frames (drop_frame x None) (_retire_timelineobj x p)) as Hf
    by (unfold _retire_timelineobj; frames_tac).
  pose proof (Hf _ _ _ H) as F. clear Hf. unfold _retire_timelineobj in H.
  apply bind_Some in H as ([] & w2 & H2 & H).
  eapply pop_run in H2 as [T2 D2]; [|eauto].
  apply bind_Some in H as ([] & w3 & H3 & H). step_framed H3. inv_run.
  split; [kept|]. eauto.
Qed.

Lemma process_drawobj_run p t x q w r w' :
  drawq_at w p t (x :: q) → type_of w x ≠ Some BINDOBJ_TYPE →
  process_drawobj x p w = Some (r, w') →
  types_kept w w' ∧ turn_ok w w' p t x q r.
Proof.
  intros Hq Hb H. unfold process_drawobj in H.
  apply bind_Some in H as (o & w1 & [Ho ->]%load_Some & H).
  assert (type_of w x = Some (o_type o)) as Ht by (unfold type_of; by rewrite Ho).
  unfold turn_ok, retired, to_submit, blocks, retires_in. rewrite Ho, Ht in *. cbn [mbind option_bind].
  destruct (Z.eqb_spec (o_type o) CMDOBJ_TYPE) as [E|Hc].
  { inv_run. rewrite E. split; [done|]. split; [done|]. split; [by left|]. split; [reflexivity|done]. }
  destruct (Z.eqb_spec (o_type o) SYNCOBJ_TYPE) as [E|Hns].
  { apply bind_Some in H as (z & w1 & H1 & H). inv_run. rewrite E.
    apply (retire_syncobj_run _ _ _ _ _ _ _ Hq) in H1 as [T [F [(-> & Hw & D)|(-> & Hw & D)]]];
      cbn; (split; [done|]); (split; [by left|]); done. }
  destruct (Z.eqb_spec (o_type o) MARKEROBJ_TYPE) as [E|Hnm].
  { apply bind_Some in H as (z & w1 & H1 & H). rewrite E.
    apply (retire_markerobj_run _ _ _ _ _ _ _ _ Hq Ho) in H1
      as [T [(-> & Hm & F & D)|(Hm & F & D & [[-> Hs]|[-> Hs]])]];
      cbn in H; injection H as <- <-; (split; [done|]).
    - split; [right; by left|done].
    - split; [done|]. split; [by right|done].
    - split; [right; by left|done]. }
  destruct (Z.eqb_spec (o_type o) BINDOBJ_TYPE) as [E|_]; [congruence|].
  destruct (Z.eqb_spec (o_type o) TIMELINEOBJ_TYPE) as [E|Hnt].
  { apply bind_Some in H as (z & w1 & H1 & H). inv_run. rewrite E.
    apply (retire_timelineobj_run _ _ _ _ _ _ _ Hq) in H1 as (T & F & -> & D).
    split; [done|]. split; [by do 2 right|done]. }
  inv_run. split; [done|]. split; [|by split].
  do 2 right. split; [|done]. exists (o_type o). split; [done|]. set_solver.
Qed.

Lemma drawq_at_cons w p t q c :
  drawq_at w p t q → w_contexts w !! p = Some c →
  ring_rep c q ∧ c_drawq_tail c = t ∧
  match q with
  | [] => c_drawq_head c = t
  | x :: _ => c_drawq_head c ≠ t ∧ c_drawq c !! c_drawq_head c = Some (Some x)
  end.
Proof.
  intros (c' & Hc' & <- & Hq) Hc. rewrite Hc in Hc'. injection Hc' as <-.
  split; [done|]. split; [done|].
  destruct Hq as [Hs Hh Ht Hr Hn Hslots], q as [|x q]; cbn [length] in *.
  - ring_lia.
  - split; [ring_lia|]. pose proof (Hslots O x eq_refl) as Hx.
    by rewrite Nat.add_0_r, Nat.mod_small in Hx.
Qed.

(** The head moves with the loop's index. *)
Lemma drawq_at_next w w' p t x q c c' :
  drawq_at w p t (x :: q) → drawq_at w' p t q →
  w_contexts w !! p = Some c → w_contexts w' !! p = Some c' →
  c_drawq_head c' = DRAWQUEUE_NEXT (c_drawq_head c) CONTEXT_DRAWQUEUE_SIZE.
Proof.
  intros Hq Hq' Hc Hc'.
  apply (drawq_at_cons _ _ _ _ _ Hq) in Hc as ([_ Hh1 Ht1 Hr1 _ _] & <- & _).
  apply (drawq_at_cons _ _ _ _ _ Hq') in Hc' as ([_ Hh2 Ht2 Hr2 _ _] & Et & _).
  cbn [length] in *. ring_lia.
Qed.

Lemma types_kept_bind w w' (q : list ptr) :
  types_kept w w' → (∀ x, x ∈ q → type_of w x ≠ Some BINDOBJ_TYPE) →
  ∀ x, x ∈ q → type_of w' x ≠ Some BINDOBJ_TYPE.
Proof. intros T Hb x Hx E. by apply (Hb x Hx), T. Qed.

Lemma drawqueue_ok_stop w w' p t q r :
  drawq_at w' p t q → types_kept w w' → stops w q w' r → drawqueue_ok w w' p t q r.
Proof. intros D T Hr. exists [], q. by split_and!; [|..|constructor]. Qed.

Lemma drawqueue_ok_drop w w1 w' p t x q r :
  retired w x → drop_frame x (retires_in w x) w w1 → types_kept w w1 →
  drawqueue_ok w1 w' p t q r → drawqueue_ok w w' p t (x :: q) r.
Proof.
  intros Hx F T (dropped & q' & -> & D & T' & Hd). exists (x :: dropped), q'.
  split; [done|]. split; [done|]. split; [kept|]. by econstructor.
Qed.

(** A turn of the loop: at the end of the ring, or at the object at the index. *)
Lemma drawqueue_turn_cons p t q w c :
  drawq_at w p t q → w_contexts w !! p = Some c →
  drawqueue_turn p (c_drawq_head c) w =
    match q with [] => Some (Some (inr None), w) | x :: _ => process_drawobj x p w end.
Proof.
  intros Hq Hc. destruct (drawq_at_cons _ _ _ _ _ Hq Hc) as (_ & Ht & Hx).
  unfold drawqueue_turn. run_load Hc. rewrite Ht. destruct q as [|x q].
  - by rewrite Hx, Nat.eqb_refl.
  - destruct Hx as [Hne%Nat.eqb_neq Hslot]. by rewrite Hne, Hslot.
Qed.

(** The loop goes on with the rest of the queue, and with its index at the head. *)
Lemma drawqueue_turn_next p t q w c w1 :
  drawq_at w p t q → w_contexts w !! p = Some c → (∀ x, x ∈ q → type_of w x ≠ Some BINDOBJ_TYPE) →
  drawqueue_turn p (c_drawq_head c) w = Some (None, w1) →
  ∃ x q' c1, q = x :: q' ∧ retired w x ∧ drop_frame x (retires_in w x) w w1 ∧ types_kept w w1 ∧
    drawq_at w1 p t q' ∧ (∀ y, y ∈ q' → type_of w1 y ≠ Some BINDOBJ_TYPE) ∧
    w_contexts w1 !! p = Some c1 ∧
    c_drawq_head c1 = DRAWQUEUE_NEXT (c_drawq_head c) CONTEXT_DRAWQUEUE_SIZE.
Proof.
  intros Hq Hc Hb H. rewrite (drawqueue_turn_cons _ _ _ _ _ Hq Hc) in H. destruct q as [|x q]; [done|].
  apply (process_drawobj_run p t x q) in H as [T (Hx & F & D)]; [|done|set_solver].
  pose proof D as (c1 & Hc1 & _). exists x, q, c1. split_and!; try done.
  - eapply types_kept_bind; [exact T|]. set_solver.
  - exact (drawq_at_next _ _ _ _ _ _ _ _ Hq D Hc Hc1).
Qed.

Lemma process_drawqueue_run fuel p t q w c r w' :
  drawq_at w p t q → w_contexts w !! p = Some c →
  (∀ x, x ∈ q → type_of w x ≠ Some BINDOBJ_TYPE) →
  process_drawqueue fuel p (c_drawq_head c) w = Some (r, w') →
  drawqueue_ok w w' p t q r.
Proof.
  revert q w c. induction fuel as [|fuel IH]; intros q w c Hq Hc Hb H; [done|]. cbn [process_drawqueue] in H.
  apply bind_Some in H as (r1 & w1 & H1 & H). destruct r1 as [r1|].
  - inv_run. rewrite (drawqueue_turn_cons _ _ _ _ _ Hq Hc) in H1. destruct q as [|x q].
    { injection H1 as <- <-. by apply drawqueue_ok_stop. }
    apply (process_drawobj_run p t x q) in H1 as [T Hturn]; [|done|set_solver].
    destruct r1 as [e|[y|]]; [| |done]; cbn in Hturn; destruct_and?; by apply drawqueue_ok_stop.
  - destruct (drawqueue_turn_next p t q w c w1 Hq Hc Hb H1)
      as (x & q' & c1 & -> & Hx & F & T & D & Hb1 & Hc1 & Eh).
    rewrite <- Eh in H. eapply drawqueue_ok_drop; [done..|]. by eapply IH.
Qed.

(** *** Termination *)

(** The loop of _process_drawqueue_get_next_drawobj goes on, with the next index. *)
Definition drawqueue_step (p : ptr) (s s' : world * nat) : Prop :=
  drawqueue_turn p s.2 s.1 = Some (None, s'.1) ∧ s'.2 = DRAWQUEUE_NEXT s.2 CONTEXT_DRAWQUEUE_SIZE.

(** The loop of hgsl_dispatch_sendcmds goes on. *)
Definition sendcmds_step (p : ptr) (w w' : world) : Prop := sendcmds_turn p w = Some (None, w').

Lemma drawqueue_steps n p t q w c s :
  drawq_at w p t q → w_contexts w !! p = Some c → (∀ x, x ∈ q → type_of w x ≠ Some BINDOBJ_TYPE) →
  nsteps (drawqueue_step p) n (w, c_drawq_head c) s → (n ≤ length q)%nat.
Proof.
  revert q w c. induction n as [|n IH]; intros q w c Hq Hc Hb Hs; [lia|].
  inversion Hs as [|n' s0 [w1 i1] s2 [Ht Ei] Hs']. subst. cbn [fst snd] in *. subst i1.
  destruct (drawqueue_turn_next p t q w c w1 Hq Hc Hb Ht)
    as (x & q' & c1 & -> & _ & _ & _ & D & Hb1 & Hc1 & Eh).
  rewrite <- Eh in Hs'. specialize (IH q' w1 c1 D Hc1 Hb1 Hs'). cbn. lia.
Qed.

(** Without a result one of the turns has none, or there have been as many as the fuel. *)
Lemma process_drawqueue_None fuel p i w :
  process_drawqueue fuel p i w = None →
  (∃ n s, nsteps (drawqueue_step p) n (w, i) s ∧ drawqueue_turn p s.2 s.1 = None) ∨
  ∃ s, nsteps (drawqueue_step p) fuel (w, i) s.
Proof.
  revert i w. induction fuel as [|fuel IH]; intros i w H; [right; exists (w, i); constructor|].
  cbn [process_drawqueue] in H. unfold mbind, M_bind in H.
  destruct (drawqueue_turn p i w) as [[[r|] w1]|] eqn:E; [done| |].
  2:{ left. exists 0%nat, (w, i). split; [constructor|done]. }
  assert (drawqueue_step p (w, i) (w1, DRAWQUEUE_NEXT i CONTEXT_DRAWQUEUE_SIZE)) as Hs by done.
  destruct (IH _ _ H) as [(n & s & Hn & Hf)|[s Hn]].
  - left. exists (S n), s. split; [by econstructor|done].
  - right. exists s. by econstructor.
Qed.

Lemma drawq_at_short w p t q : drawq_at w p t q → (length q < CONTEXT_DRAWQUEUE_SIZE)%nat.
Proof. by intros (c & _ & _ & []). Qed.

Lemma drawqueue_faults p t q w c :
  drawq_at w p t q → w_contexts w !! p = Some c → (∀ x, x ∈ q → type_of w x ≠ Some BINDOBJ_TYPE) →
  _process_drawqueue_get_next_drawobj p w = None →
  ∃ n s, nsteps (drawqueue_step p) n (w, c_drawq_head c) s ∧ drawqueue_turn p s.2 s.1 = None.
Proof.
  intros Hq Hc Hb H. unfold _process_drawqueue_get_next_drawobj in H. revert H. run_load Hc. intros H.
  destruct (process_drawqueue_None _ _ _ _ H) as [?|[s Hs]]; [done|].
  pose proof (drawqueue_steps _ _ _ _ _ _ _ Hq Hc Hb Hs). pose proof (drawq_at_short _ _ _ _ Hq). lia.
Qed.

Lemma drawqueue_run p t q w r w' :
  drawq_at w p t q → (∀ x, x ∈ q → type_of w x ≠ Some BINDOBJ_TYPE) →
  _process_drawqueue_get_next_drawobj p w = Some (r, w') →
  drawqueue_ok w w' p t q r.
Proof.
  intros Hq Hb H. unfold _process_drawqueue_get_next_drawobj in H.
  apply bind_Some in H as (c & w1 & [Hc ->]%load_Some & H).
  by eapply process_drawqueue_run.
Qed.

Lemma no_bind_suffix w w' (dropped q' : list ptr) :
  types_kept w w' →
  (∀ x, x ∈ dropped ++ q' → type_of w x ≠ Some BINDOBJ_TYPE) →
  ∀ x, x ∈ q' → type_of w' x ≠ Some BINDOBJ_TYPE.
Proof. intros T Hb x Hx E. apply (Hb x); [set_solver | by apply T]. Qed.

Lemma drains_stops w dropped q w' r : drains w dropped q w' r → ∃ w1, stops w1 q w' r.
Proof. induction 1; [eauto|done]. Qed.

(** *** The loop of hgsl_dispatch_sendcmds *)

(** What a turn of the loop does to the queue [q]: it ends with a suffix of it, or goes on
    with a shorter one. *)
Lemma sendcmds_turn_run p t q w r w' :
  drawq_at w p t q → (∀ x, x ∈ q → type_of w x ≠ Some BINDOBJ_TYPE) →
  sendcmds_turn p w = Some (r, w') →
  ∃ fates q', q = (fate_obj <$> fates) ++ q' ∧ drawq_at w' p t q' ∧ turn_sends p w fates q' r w' ∧
    (r = None → types_kept w w').
Proof.
  intros Hq Hb H. unfold sendcmds_turn in H. apply bind_Some in H as (next & w1 & H1 & H).
  apply (drawqueue_run _ t q) in H1 as (dropped & q' & -> & D & T & Hd); [|done..].
  assert (dropped = fate_obj <$> (Retired <$> dropped)) as Ed
    by (rewrite <- list_fmap_compose; symmetry; apply list_fmap_id).
  destruct next as [e|[x|]].
  - inv_run. exists (Retired <$> dropped), q'. rewrite <- Ed. split; [done|]. split; [done|].
    split; [by apply turn_blocked|done].
  - assert (∃ q2, q' = x :: q2) as [q2 ->].
    { apply drains_stops in Hd as (w0 & Hs). destruct q' as [|y q2]; [by destruct Hs|].
      destruct Hs as [_ [-> _]]. by exists q2. }
    assert (length q2 < CONTEXT_DRAWQUEUE_SIZE - 1)%nat as Hl.
    { apply drawq_at_short in Hq. rewrite length_app in Hq. cbn in Hq. lia. }
    apply bind_Some in H as ([] & w2 & H2 & H). pose proof H2 as H2'.
    eapply pop_run in H2 as [T2 D2]; [|done].
    apply bind_Some in H as (ret & w3 & H3 & H). pose proof H3 as H3'. step_framed H3.
    destruct (Z.eqb_spec ret 0) as [->|Hr].
    { inv_run. exists ((Retired <$> dropped) ++ [Submitted x]), q2. split_and!.
      - rewrite fmap_app, <- Ed. cbn. by rewrite <- (assoc_L app).
      - by apply D0.
      - by eapply turn_submitted.
      - intros _. kept. }
    apply bind_Some in H as ([] & w4 & H4 & H). inv_run. destruct (Z.eqb_spec ret (- ENOENT)) as [->|Hne].
    + pose proof H4 as H4'. step_framed H4. exists ((Retired <$> dropped) ++ [Gone x]), q2. split_and!.
      * rewrite fmap_app, <- Ed. cbn. by rewrite <- (assoc_L app).
      * eauto.
      * by eapply turn_gone.
      * done.
    + pose proof H4 as H4'. eapply requeue_run in H4 as [T4 D4]; [|done|by apply D0].
      exists (Retired <$> dropped), (x :: q2). rewrite <- Ed. split; [done|]. split; [done|].
      split; [by eapply turn_put_back|done].
  - inv_run. apply drains_stops in Hd as Hs. destruct Hs as (w0 & Hs).
    destruct q' as [|y q2]; [|by destruct Hs as [_ []]].
    exists (Retired <$> dropped), []. rewrite <- Ed. split; [done|]. split; [done|].
    split; [by apply turn_empty|done].
Qed.

Lemma turn_sends_count p w fates q r w' :
  turn_sends p w fates q r w' →
  length (filter is_submitted fates) = match r with None => 1%nat | Some _ => 0%nat end.
Proof.
  assert (∀ l : list ptr, filter is_submitted (Retired <$> l) = []) as Hn.
  { intros l. induction l as [|x l IH]; [done|]. cbn [fmap list_fmap]. by rewrite filter_cons_False by exact id. }
  intros []; by rewrite ?filter_app, Hn.
Qed.

(** An object has gone into the submission in a turn that is not the last. *)
Lemma turn_sends_fates p w fates q r w' : turn_sends p w fates q r w' → r = None → (1 ≤ length fates)%nat.
Proof. intros []; try done. intros _. rewrite length_app. cbn. lia. Qed.

Lemma sendcmds_loop_run fuel p t q w count r w' :
  drawq_at w p t q → (∀ x, x ∈ q → type_of w x ≠ Some BINDOBJ_TYPE) →
  sendcmds_loop fuel p count w = Some (r, w') →
  ∃ fates q', q = (fate_obj <$> fates) ++ q' ∧ drawq_at w' p t q' ∧ sends p w fates q' r.1 w' ∧
    r.2 = count + Z.of_nat (length (filter is_submitted fates)).
Proof.
  revert q w count. induction fuel as [|fuel IH]; intros q w count Hq Hb H; [done|].
  cbn [sendcmds_loop] in H. apply bind_Some in H as (next & w1 & H1 & H).
  apply (sendcmds_turn_run p t q) in H1 as (fates & q1 & -> & D & Hs & T); [|done..].
  pose proof (turn_sends_count _ _ _ _ _ _ Hs) as Hn. destruct next as [ret|].
  - inv_run. exists fates, q1. split; [done|]. split; [done|]. split; [by constructor|]. cbn. rewrite Hn. lia.
  - apply (IH q1) in H as (fates2 & q2 & -> & D2 & Hs2 & Hn2); [|done|].
    + exists (fates ++ fates2), q2. split; [by rewrite fmap_app, (assoc_L app)|]. split; [done|].
      split; [by econstructor|]. rewrite filter_app, length_app, Hn, Hn2. lia.
    + eapply no_bind_suffix; [by apply T|exact Hb].
Qed.

Lemma sendcmds_steps n p t q w w' :
  drawq_at w p t q → (∀ x, x ∈ q → type_of w x ≠ Some BINDOBJ_TYPE) →
  nsteps (sendcmds_step p) n w w' → (n ≤ length q)%nat ∧ ∃ q', drawq_at w' p t q' ∧
    ∀ x, x ∈ q' → type_of w' x ≠ Some BINDOBJ_TYPE.
Proof.
  revert q w. induction n as [|n IH]; intros q w Hq Hb Hs.
  { inversion Hs. subst. split; [lia|eauto]. }
  inversion Hs as [|n' w0 w1 w2 Ht Hs']. subst.
  apply (sendcmds_turn_run p t q) in Ht as (fates & q1 & -> & D & Hts & T); [|done..].
  pose proof (turn_sends_fates _ _ _ _ _ _ Hts eq_refl).
  apply (IH q1) in Hs' as [Hn Hq']; [|done|by eapply no_bind_suffix; [apply T|exact Hb]].
  split; [|done]. rewrite length_app, length_fmap. lia.
Qed.

Lemma sendcmds_loop_None fuel p count w :
  sendcmds_loop fuel p count w = None →
  (∃ n w1, nsteps (sendcmds_step p) n w w1 ∧ sendcmds_turn p w1 = None) ∨
  ∃ w1, nsteps (sendcmds_step p) fuel w w1.
Proof.
  revert count w. induction fuel as [|fuel IH]; intros count w H; [right; exists w; constructor|].
  cbn [sendcmds_loop] in H. unfold mbind, M_bind in H.
  destruct (sendcmds_turn p w) as [[[r|] w1]|] eqn:E; [done| |].
  2:{ left. exists 0%nat, w. split; [constructor|done]. }
  destruct (IH _ _ H) as [(n & w2 & Hn & Hf)|[w2 Hn]].
  - left. exists (S n), w2. split; [by econstructor|done].
  - right. exists w2. by econstructor.
Qed.

(** ** Queueing *)

#[export] Instance frames_set_timestamp o ts : Frames disp_frame (set_timestamp o ts).
Proof. unfold set_timestamp. frames_tac. Qed.

#[export] Instance frames_skip_markers n p j : Frames disp_frame (skip_markers n p j).
Proof. revert j. induction n; intros; cbn [skip_markers]; frames_tac. Qed.

Lemma update_cmd_Some x f w u w' :
  update_cmd x f w = Some (u, w') ↔
  ∃ o c, w_drawobjs w !! x = Some o ∧ o_body o = Cmd c ∧
    w' = w <| w_drawobjs ::= <[x := o <| o_body := Cmd (f c) |>]> |>.
Proof.
  unfold update_cmd, set_body. rewrite bind_Some. setoid_rewrite CMDOBJ_Some. split.
  - intros (c & ? & (-> & o & Ho & E) & (o' & Ho' & ->)%update_Some).
    rewrite Ho in Ho'. injection Ho' as <-. eauto.
  - intros (o & c & Ho & E & ->). exists c, w. split; [eauto|].
    apply update_Some. eauto.
Qed.

Lemma cmd_set_bit_run b x w u w' :
  0 ≤ b → cmd_set_bit b x w = Some (u, w') →
  (∀ y, skipped w y → skipped w' y) ∧ (b = CMDOBJ_SKIP → skipped w' x) ∧
  w_contexts w' = w_contexts w.
Proof.
  intros Hb (o & c & Ho & E & ->)%update_cmd_Some. split; [|split; [|done]].
  - intros y (oy & cy & Hy & Ey & By). destruct (decide (x = y)) as [->|].
    + rewrite Ho in Hy. injection Hy as <-. rewrite E in Ey. injection Ey as <-.
      eexists _, _. cbn. rewrite lookup_insert_eq. split; [done|]. split; [done|].
      change (Z.testbit (Z.setbit (cmd_priv c) b) CMDOBJ_SKIP = true).
      rewrite Z.setbit_eqb, By by done. apply orb_true_r.
    + exists oy, cy. cbn. rewrite lookup_insert_ne by done. done.
  - intros ->. eexists _, _. cbn. rewrite lookup_insert_eq.
    split; [done|]. split; [done|].
    change (Z.testbit (Z.setbit (cmd_priv c) CMDOBJ_SKIP) CMDOBJ_SKIP = true).
    by rewrite Z.setbit_eq.
Qed.

(** The loop visits every object from its index to the tail. *)
Lemma skip_markers_run fuel p t q pre todo w c w' u :
  drawq_at w p t q → q = pre ++ todo → w_contexts w !! p = Some c →
  skip_markers fuel p ((c_drawq_head c + length pre) `mod` CONTEXT_DRAWQUEUE_SIZE)%nat w
    = Some (u, w') →
  (∀ y, skipped w y → skipped w' y) ∧
  (∀ x, x ∈ todo → type_of w' x = Some MARKEROBJ_TYPE → skipped w' x) ∧
  w_contexts w' = w_contexts w.
Proof.
  revert pre todo w. induction fuel as [|fuel IH]; intros pre todo w Hq -> Hc H;
    cbn [skip_markers] in H;
    apply bind_Some in H as (c0 & w1 & [Hc0 ->]%load_Some & H);
    rewrite Hc in Hc0; injection Hc0 as <-;
    destruct (drawq_at_cons _ _ _ _ _ Hq Hc) as ([Hs Hh Ht Hr Hn Hslots] & Et & _);
    (destruct todo as [|x todo];
     [rewrite app_nil_r in *; rewrite <-Ht, Nat.eqb_refl in H; inv_run;
      split; [done|]; split; [set_solver|done]
     |rewrite length_app in Ht, Hr; cbn [length] in Ht, Hr;
      rewrite (proj2 (Nat.eqb_neq _ _)) in H by ring_lia]); [done|].
  apply bind_Some in H as (slot & w1 & [Hslot ->]%of_option_Some & H).
  rewrite (Hslots (length pre) x) in Hslot by by apply list_lookup_middle.
  injection Hslot as <-.
  apply bind_Some in H as (? & w1 & [[= <-] ->]%of_option_Some & H).
  apply bind_Some in H as (o & w1 & [Ho ->]%load_Some & H).
  apply bind_Some in H as ([] & w1 & H1 & H).
  assert (T1 : types_kept w w1 ∧ ∀ p t q, drawq_at w p t q → drawq_at w1 p t q)
    by exact (framed_run _ _ _ _ H1).
  assert (S1 : (∀ y, skipped w y → skipped w1 y) ∧
    (o_type o = MARKEROBJ_TYPE → skipped w1 x) ∧ w_contexts w1 = w_contexts w).
  { destruct (Z.eqb_spec (o_type o) MARKEROBJ_TYPE); cbn in H1.
    - apply cmd_set_bit_run in H1 as (? & ? & ?); [auto|done].
    - injection H1 as <-. split; [done|]. split; [congruence|done]. }
  destruct T1 as [T1 D1], S1 as (S1 & X1 & C1).
  replace (DRAWQUEUE_NEXT _ _) with
    ((c_drawq_head c + length (pre ++ [x])) `mod` CONTEXT_DRAWQUEUE_SIZE)%nat in H
    by (rewrite length_app; cbn [length]; ring_lia).
  assert (T2 : types_kept w1 w') by exact (proj1 (framed_run _ _ _ _ H)).
  apply (IH (pre ++ [x]) todo) in H as (S2 & X2 & C2);
    [|by apply D1|by rewrite <-app_assoc|by rewrite C1].
  split; [auto|]. split; [|by rewrite C2].
  intros y [->|Hy]%elem_of_cons Ty; [|auto]. apply S2, X1.
  apply T2, T1 in Ty. unfold type_of in Ty. rewrite Ho in Ty. by injection Ty.
Qed.

Lemma db_next_timestamp_ret c ts :
  (hgsl_db_next_timestamp c ts).1 = 0 ∨
  hgsl_db_next_timestamp c ts = (- ERANGE, ts).
Proof. unfold hgsl_db_next_timestamp. repeat case_match; auto. Qed.

(** The timestamp of a submission is refused. *)
Definition refused_at (w : world) (p : ptr) (user_ts : Z) : Prop :=
  ∃ c, w_contexts w !! p = Some c ∧ (hgsl_db_next_timestamp c user_ts).1 ≠ 0.

Lemma queue_cmdobj_run p q x w timestamp user_ts ret ts w' :
  drawq_is w p q → (length q < CONTEXT_DRAWQUEUE_SIZE - 1)%nat →
  _queue_cmdobj p x timestamp user_ts w = Some ((ret, ts), w') →
  types_kept w w' ∧
  (ret = 0 ∧ drawq_is w' p (q ++ [x]) ∨
   ret = - ERANGE ∧ drawq_is w' p q ∧ refused_at w p user_ts).
Proof.
  intros [t Hq] Hl H. unfold _queue_cmdobj in H.
  apply bind_Some in H as (c & w1 & [Hc ->]%load_Some & H).
  destruct (hgsl_db_next_timestamp c user_ts) as [r ts1] eqn:E.
  destruct (db_next_timestamp_ret c user_ts) as [E'|E']; rewrite E in E'.
  - cbn in E'. subst r. cbn [negb Z.eqb] in H.
    apply bind_Some in H as ([] & w1 & H1 & H). step_framed H1.
    apply bind_Some in H as ([] & w2 & H2 & H). step_framed H2.
    apply bind_Some in H as ([] & w3 & H3 & H). step_framed H3.
    apply bind_Some in H as ([] & w4 & H4 & H). inv_run.
    apply (queue_run _ _ q) in H4 as [T4 D4]; [|done|by exists t; auto].
    split; [kept|]. auto.
  - injection E' as -> ->. change (- ERANGE =? 0) with false in H.
    cbn [negb] in H. inv_run.
    split; [done|]. right. split; [done|]. split; [by exists t|].
    exists c. by rewrite E.
Qed.

Lemma queue_plain_run p q x w u w' :
  drawq_is w p q → (length q < CONTEXT_DRAWQUEUE_SIZE - 1)%nat →
  (set_timestamp x 0 ;; _queue_drawobj p x) w = Some (u, w') →
  types_kept w w' ∧ drawq_is w' p (q ++ [x]).
Proof.
  intros [t Hq] Hl H. apply bind_Some in H as ([] & w1 & H1 & H). step_framed H1.
  apply (queue_run _ _ q) in H as [T2 D2]; [|done|by exists t; auto].
  split; [kept | done].
Qed.

(** The part of _queue_markerobj that puts the marker in the ring. *)
Lemma queue_marker_tail_run p q x ts w r w' :
  drawq_is w p q → (length q < CONTEXT_DRAWQUEUE_SIZE - 1)%nat →
  (c ← load w_contexts p;
   update_cmd x (λ m, m <| cmd_marker_timestamp := c_queued_ts c |>) ;;
   update w_contexts p (λ c, c <| c_queued_ts := ts |>) ;;
   _queue_drawobj p x ;; mret (0, ts)) w = Some (r, w') →
  types_kept w w' ∧ r = (0, ts) ∧ drawq_is w' p (q ++ [x]).
Proof.
  intros [t Hq] Hl H.
  apply bind_Some in H as (c & w1 & H1 & H). step_framed H1.
  apply bind_Some in H as ([] & w2 & H2 & H). step_framed H2.
  apply bind_Some in H as ([] & w3 & H3 & H). step_framed H3.
  apply bind_Some in H as ([] & w4 & H4 & H). inv_run.
  apply (queue_run _ _ q) in H4 as [T4 D4]; [|done|by exists t; auto].
  split; [kept|]. auto.
Qed.

Lemma queue_markerobj_run p q x w timestamp user_ts ret ts w' :
  drawq_is w p q → (length q < CONTEXT_DRAWQUEUE_SIZE - 1)%nat →
  _queue_markerobj p x timestamp user_ts w = Some ((ret, ts), w') →
  types_kept w w' ∧
  (ret = 0 ∧ drawq_is w' p (q ++ [x]) ∨
   ret = 1 ∧ q = [] ∧ drawq_is w' p [] ∧ (type_of w x = Some MARKEROBJ_TYPE → retires_at_once w p x) ∨
   ret = - ERANGE ∧ drawq_is w' p q ∧ refused_at w p user_ts).
Proof.
  intros [t Hq] Hl H. unfold _queue_markerobj in H.
  apply bind_Some in H as (c & w1 & [Hc ->]%load_Some & H).
  destruct (drawq_at_cons _ _ _ _ _ Hq Hc) as ([_ _ _ _ Hn _] & _).
  destruct (hgsl_db_next_timestamp c user_ts) as [r ts1] eqn:E.
  destruct (db_next_timestamp_ret c user_ts) as [E'|E']; rewrite E in E'.
  2:{ injection E' as -> ->. change (- ERANGE =? 0) with false in H.
    cbn [negb] in H. inv_run.
    split; [done|]. right; right. split; [done|]. split; [by exists t|].
    exists c. by rewrite E. }
  cbn in E'. subst r. cbn [negb Z.eqb] in H.
  apply bind_Some in H as ([] & w1 & H1 & H).
  assert (w_contexts w1 = w_contexts w ∧ ∃ o0, w_drawobjs w !! x = Some o0 ∧
    w_drawobjs w1 !! x = Some (o0 <| o_timestamp := ts1 |>)) as (Ew & o0 & Ho0 & Ho1).
  { unfold set_timestamp in H1. apply update_Some in H1 as (o0 & Ho & ->).
    split; [done|]. exists o0. split; [done|]. cbn. apply lookup_insert_eq. }
  step_framed H1.
  apply bind_Some in H as (o & w2 & H2 & H). pose proof H2 as [Ho2 Ew2]%load_Some.
  rewrite Ho1 in Ho2. injection Ho2 as <-. step_framed H2.
  destruct (c_shadow_ts c) eqn:Esh.
  - apply bind_Some in H as (expired & w3 & H3 & H).
    assert (Ha : expired = true → type_of w x = Some MARKEROBJ_TYPE → retires_at_once w p x).
    { intros -> Ht. split; [done|]. exists o0, c. do 2 (split; [done|]). split; [by rewrite Esh|].
      intros cx sh Hcx Hs Hk. destruct (c_queued c =? 0); [|by inv_run].
      rewrite <- Ew, <- Ew2 in Hcx. symmetry. by eapply check_timestamp_Some in H3 as [_ H3]; [apply H3|..]. }
    assert (He : expired = true → q = []).
    { intros ->. destruct (Z.eqb_spec (c_queued c) 0); [|by inv_run].
      destruct q; [done|]. cbn in *. lia. }
    step_framed H3. destruct expired.
    + apply bind_Some in H as ([] & w4 & H4 & H). step_framed H4.
      apply bind_Some in H as ([] & w5 & H5 & H). step_framed H5. inv_run.
      split; [kept|]. right; left.
      rewrite He in * by done. split; [done|]. split; [done|]. split; [exists t; auto 8|auto].
    + apply (queue_marker_tail_run _ q) in H as (T4 & [= -> ->] & D4);
        [|by exists t; auto|done].
      split; [kept|]. auto.
  - apply bind_Some in H as ([] & w3 & H3 & H). step_framed H3.
    apply (queue_marker_tail_run _ q) in H as (T4 & [= -> ->] & D4);
      [|by exists t; auto|done].
    split; [kept|]. auto.
Qed.

Lemma queueing_ok_stop w w' p q objs ret :
  drawq_is w' p q → ret ≠ 0 → queueing_ok w w' p q objs ret true.
Proof.
  intros D Hr. exists O. rewrite take_0, app_nil_r. split; [lia|]. auto.
Qed.

Lemma queueing_ok_cons w w1 w' p q x objs ret out :
  queueing_ok w1 w' p (q ++ [x]) objs ret out → queueing_ok w w' p q (x :: objs) ret out.
Proof.
  intros (n & Hn & D & H). exists (S n). rewrite <-app_assoc in D. cbn in *.
  split; [lia|]. split; [done|].
  destruct H as [(-> & -> & ->)|[[-> H]|(_ & _ & Hq & _)]]; [auto|auto|].
  by apply app_eq_nil in Hq as [_ ?].
Qed.

Lemma queue_loop_run p q objs w timestamp user_ts ret out ts w' :
  drawq_is w p q → (length q + length objs < CONTEXT_DRAWQUEUE_SIZE)%nat →
  (∀ x, x ∈ objs → type_of w x ≠ Some BINDOBJ_TYPE) →
  queue_loop p objs timestamp user_ts w = Some (((ret, out), ts), w') →
  queueing_ok w w' p q objs ret out.
Proof.
  revert q w timestamp. induction objs as [|x objs IH];
    intros q w timestamp Hq Hl Hb H; cbn [queue_loop length] in *.
  { inv_run. exists O. rewrite app_nil_r. auto 6. }
  assert (Hl1 : (length q < CONTEXT_DRAWQUEUE_SIZE - 1)%nat) by lia.
  assert (Next : ∀ w1 timestamp, types_kept w w1 → drawq_is w1 p (q ++ [x]) →
    queue_loop p objs timestamp user_ts w1 = Some (((ret, out), ts), w') →
    queueing_ok w w' p q (x :: objs) ret out).
  { intros w1 ts1 T D Hrun. apply queueing_ok_cons with w1.
    apply (IH (q ++ [x])) in Hrun; [done|done| |].
    - rewrite length_app. cbn. lia.
    - apply (types_kept_bind w); [done|]. set_solver. }
  clear IH.
  apply bind_Some in H as (o & w1 & [Ho ->]%load_Some & H).
  assert (Ht : type_of w x = Some (o_type o)) by (unfold type_of; by rewrite Ho).
  destruct (Z.eqb_spec (o_type o) MARKEROBJ_TYPE) as [E|_].
  { apply bind_Some in H as ([r1 ts1] & w1 & H1 & H).
    apply (queue_markerobj_run p q) in H1 as [T [[-> D]|[(-> & -> & D & Ha)|(-> & D & _)]]];
      [exact (Next _ _ T D H)| | |done|done].
    - cbn in H. inj_subst H. exists O. split; [lia|]. split; [done|].
      rewrite E in Ht. right; right. eauto 9.
    - change (- ERANGE =? 1) with false in H. change (- ERANGE =? 0) with false in H.
      cbn [negb] in H. inv_run. by apply queueing_ok_stop. }
  destruct (Z.eqb_spec (o_type o) CMDOBJ_TYPE) as [E|_].
  { apply bind_Some in H as ([r1 ts1] & w1 & H1 & H).
    apply (queue_cmdobj_run p q) in H1 as [T [[-> D]|(-> & D & _)]];
      [exact (Next _ _ T D H)| |done|done].
    change (- ERANGE =? 0) with false in H. cbn [negb] in H. inv_run.
    by apply queueing_ok_stop. }
  destruct (Z.eqb_spec (o_type o) SYNCOBJ_TYPE) as [E|_].
  { apply bind_Some in H as (ts1 & w1 & H1 & H).
    unfold _queue_syncobj in H1. apply bind_Some in H1 as ([] & w2 & H2 & H1).
    apply bind_Some in H1 as ([] & w3 & H3 & H1). inv_run.
    destruct (queue_plain_run p q x w tt _ Hq Hl1
      (proj2 (bind_Some _ _ _ _ _) (ex_intro _ _ (ex_intro _ _ (conj H2 H3))))) as [T D].
    exact (Next _ _ T D H). }
  destruct (Z.eqb_spec (o_type o) BINDOBJ_TYPE) as [E|_].
  { exfalso. apply (Hb x); [set_solver|congruence]. }
  destruct (Z.eqb_spec (o_type o) TIMELINEOBJ_TYPE) as [E|_].
  { apply bind_Some in H as ([] & w1 & H1 & H).
    apply (queue_plain_run p q) in H1 as [T D]; [exact (Next _ _ T D H)|done..]. }
  inv_run. by apply queueing_ok_stop.
Qed.

(** ** Calls that fail *)

Lemma queue_plain_same p x w u w' c :
  w_contexts w !! p = Some c → (set_timestamp x 0 ;; _queue_drawobj p x) w = Some (u, w') →
  types_kept w w' ∧ ∃ c', w_contexts w' !! p = Some c' ∧
    c_flags c' = c_flags c ∧ c_queued_ts c' = c_queued_ts c.
Proof.
  intros Hc H. apply bind_Some in H as ([] & w1 & H1 & H2).
  pose proof (proj1 (framed_run _ _ _ _ H1)) as T.
  unfold set_timestamp in H1. apply update_Some in H1 as (o & Ho & ->).
  unfold _queue_drawobj in H2. apply update_Some in H2 as (c1 & Hc1 & ->).
  cbn in Hc1. rewrite Hc in Hc1. injection Hc1 as <-. split; [exact T|].
  eexists. split; [apply lookup_insert_eq|]. done.
Qed.

(** Whether the timestamp the loop is given is refused. *)
Definition refused (c : hgsl_context) (user_ts : Z) : bool :=
  has_flag (c_flags c) GSL_CONTEXT_FLAG_CLIENT_GENERATED_TS &&
  hgsl_ts32_ge (c_queued_ts c) user_ts.

Lemma next_timestamp_accepts c user_ts :
  refused c user_ts = false → (hgsl_db_next_timestamp c user_ts).1 = 0.
Proof.
  unfold refused, hgsl_db_next_timestamp. destruct (negb _); [done|].
  destruct (has_flag _ _); [|done]. cbn. by intros ->.
Qed.

Lemma not_refused_at w p c user_ts :
  w_contexts w !! p = Some c → refused c user_ts = false → ¬ refused_at w p user_ts.
Proof.
  intros Hc Ha%next_timestamp_accepts (c' & Hc' & Hr). rewrite Hc in Hc'.
  by injection Hc' as <-.
Qed.

(** The last object, when the timestamp is accepted. *)
Lemma queue_last_succeeds p q x w0 w timestamp user_ts ret out ts w' c :
  drawq_is w p q → (length q < CONTEXT_DRAWQUEUE_SIZE - 1)%nat →
  submitted w0 x → types_kept w0 w →
  w_contexts w !! p = Some c → refused c user_ts = false →
  queue_loop p [x] timestamp user_ts w = Some (((ret, out), ts), w') → ret = 0.
Proof.
  intros Hq Hl Hs T Hc Ha H. pose proof (not_refused_at _ _ _ _ Hc Ha) as Hn.
  cbn [queue_loop] in H.
  apply bind_Some in H as (o & w1 & [Ho ->]%load_Some & H).
  assert (Ht : o_type o = CMDOBJ_TYPE ∨ o_type o = MARKEROBJ_TYPE).
  { assert (Ht : type_of w x = Some (o_type o)) by (unfold type_of; by rewrite Ho).
    apply T in Ht. destruct Hs as [Hs|Hs]; rewrite Hs in Ht; injection Ht; auto. }
  destruct Ht as [Ht|Ht]; rewrite Ht in H.
  - change (CMDOBJ_TYPE =? MARKEROBJ_TYPE) with false in H.
    change (CMDOBJ_TYPE =? CMDOBJ_TYPE) with true in H. cbv iota in H.
    apply bind_Some in H as ([r1 ts1] & w1 & H1 & H).
    apply (queue_cmdobj_run p q) in H1 as [_ [[-> _]|(_ & _ & ?)]]; [|done..].
    cbn [negb Z.eqb queue_loop] in H. by inv_run.
  - change (MARKEROBJ_TYPE =? MARKEROBJ_TYPE) with true in H. cbv iota in H.
    apply bind_Some in H as ([r1 ts1] & w1 & H1 & H).
    apply (queue_markerobj_run p q) in H1 as [_ [[-> _]|[(-> & _)|(_ & _ & ?)]]]; [| |done..];
      cbn in H; by inv_run.
Qed.

Lemma queue_loop_succeeds p q objs last w0 w timestamp user_ts ret out ts w' c :
  drawq_is w p q → (length q + length (objs ++ last) < CONTEXT_DRAWQUEUE_SIZE)%nat →
  Forall (plain w0) objs → (length last ≤ 1)%nat → Forall (submitted w0) last →
  types_kept w0 w → w_contexts w !! p = Some c → (last ≠ [] → refused c user_ts = false) →
  queue_loop p (objs ++ last) timestamp user_ts w = Some (((ret, out), ts), w') → ret = 0.
Proof.
  revert q w timestamp c. induction objs as [|x objs IH];
    intros q w timestamp c Hq Hn Ho Hl1 Hl T Hc Ha H.
  { destruct last as [|x [|]]; cbn in *; [by inv_run| |lia].
    apply Forall_cons in Hl as [Hx _].
    eapply queue_last_succeeds; [exact Hq|lia|done..|by apply Ha|exact H]. }
  apply Forall_cons in Ho as [Hx Ho]. cbn [app queue_loop length] in *.
  apply bind_Some in H as (o & w1 & [Hxo ->]%load_Some & H).
  assert (Ht : o_type o = SYNCOBJ_TYPE ∨ o_type o = TIMELINEOBJ_TYPE).
  { assert (Ht : type_of w x = Some (o_type o)) by (unfold type_of; by rewrite Hxo).
    apply T in Ht. destruct Hx as [Hx|Hx]; rewrite Hx in Ht; injection Ht; auto. }
  assert (Next : ∀ u w1 timestamp, (set_timestamp x 0 ;; _queue_drawobj p x) w = Some (u, w1) →
    queue_loop p (objs ++ last) timestamp user_ts w1 = Some (((ret, out), ts), w') → ret = 0).
  { intros u w1 ts1 H1 H2.
    pose proof (queue_plain_same _ _ _ _ _ _ Hc H1) as [T1 (c1 & Hc1 & Ef & Eq)].
    apply (queue_plain_run p q) in H1 as [_ D1]; [|done|lia].
    eapply (IH (q ++ [x]) w1 ts1 c1); [done| |done..| |done| |exact H2].
    - rewrite length_app. cbn. lia.
    - kept.
    - intros Hne. unfold refused. rewrite Ef, Eq. by apply Ha. }
  destruct Ht as [Ht|Ht]; rewrite Ht in H.
  - change (SYNCOBJ_TYPE =? MARKEROBJ_TYPE) with false in H.
    change (SYNCOBJ_TYPE =? CMDOBJ_TYPE) with false in H.
    change (SYNCOBJ_TYPE =? SYNCOBJ_TYPE) with true in H. cbv iota in H.
    apply bind_Some in H as (ts1 & w1 & H1 & H).
    unfold _queue_syncobj in H1. apply bind_Some in H1 as ([] & w2 & H2 & H1).
    apply bind_Some in H1 as ([] & w3 & H3 & H1). inv_run.
    eapply (Next tt); [|exact H]. apply bind_Some. eauto.
  - change (TIMELINEOBJ_TYPE =? MARKEROBJ_TYPE) with false in H.
    change (TIMELINEOBJ_TYPE =? CMDOBJ_TYPE) with false in H.
    change (TIMELINEOBJ_TYPE =? SYNCOBJ_TYPE) with false in H.
    change (TIMELINEOBJ_TYPE =? BINDOBJ_TYPE) with false in H.
    change (TIMELINEOBJ_TYPE =? TIMELINEOBJ_TYPE) with true in H. cbv iota in H.
    apply bind_Some in H as (u & w1 & H1 & H). by eapply Next.
Qed.

(** The look at a single sync object changes nothing. *)
Lemma only_sync_run objs last w b w' :
  (match objs ++ last with
   | [obj] => o ← load w_drawobjs obj; mret (o_type o =? SYNCOBJ_TYPE)
   | _ => mret false
   end) w = Some (b, w') →
  Forall (submitted w) last → w' = w ∧ (last ≠ [] → b = false).
Proof.
  intros H Hl. destruct objs as [|x [|]]; cbn in H.
  - destruct last as [|y [|]]; [by inv_run| |by inv_run].
    apply bind_Some in H as (o & w1 & [Ho ->]%load_Some & H). inv_run.
    split; [done|]. intros _. apply Forall_cons in Hl as [Hy _].
    unfold submitted, type_of in Hy. rewrite Ho in Hy.
    destruct Hy as [[= ->]|[= ->]]; done.
  - destruct last; [|by inv_run]. inv_st. done.
  - by inv_run.
Qed.

Lemma retire_syncobj_blocked p x w o s :
  w_drawobjs w !! x = Some o → o_body o = Sync s → hgsl_drawobj_events_pending s = true →
  ∃ w1, _retire_syncobj x p w = Some (- EAGAIN, w1) ∧ w_contexts w1 = w_contexts w.
Proof.
  intros Ho Eb Hp. unfold _retire_syncobj.
  rewrite (bind_run _ _ _ _ _ (SYNCOBJ_run _ _ _ _ Ho Eb)), Hp. cbn [negb].
  destruct (s_timeout_jiffies s =? 0); [|by exists w].
  unfold when, ask, tick, update_sync, set_body, update, SYNCOBJ, load, get, mbind, M_bind.
  cbn. rewrite Ho. cbn. rewrite Eb. cbn. rewrite Ho. cbn. eauto.
Qed.

Lemma process_drawqueue_blocked n p t x q w c o s :
  drawq_at w p t (x :: q) → w_contexts w !! p = Some c →
  w_drawobjs w !! x = Some o → o_type o = SYNCOBJ_TYPE →
  o_body o = Sync s → hgsl_drawobj_events_pending s = true →
  ∃ w1, process_drawqueue (S n) p (c_drawq_head c) w = Some (inl (- EAGAIN), w1) ∧
    w_contexts w1 = w_contexts w.
Proof.
  intros Hq Hc Ho Et Eb Hp.
  destruct (retire_syncobj_blocked p x w o s Ho Eb Hp) as (w1 & Hr & Hw1).
  exists w1. split; [|done].
  assert (Hd : process_drawobj x p w = Some (Some (inl (- EAGAIN)), w1)).
  { unfold process_drawobj. run_load Ho. rewrite Et.
    change (SYNCOBJ_TYPE =? CMDOBJ_TYPE) with false.
    change (SYNCOBJ_TYPE =? SYNCOBJ_TYPE) with true. cbv iota zeta.
    by rewrite (bind_run _ _ _ _ _ Hr). }
  cbn [process_drawqueue]. unfold mbind, M_bind.
  by rewrite (drawqueue_turn_cons _ _ _ _ _ Hq Hc), Hd.
Qed.

(** With room for [n] more, the room check neither waits nor fails. *)
Lemma room_run p q n w r w' :
  drawq_is w p q → (length q + n < CONTEXT_DRAWQUEUE_SIZE - 1)%nat →
  _check_for_room_in_context_drawq p (Z.of_nat n) w = Some (r, w') → r = 0 ∧ w' = w.
Proof.
  intros (t & c & Hc & _ & [_ _ _ _ Hn _]) Hl H.
  unfold _check_for_room_in_context_drawq in H.
  apply bind_Some in H as (c' & w1 & [Hc' ->]%load_Some & H).
  rewrite Hc in Hc'. injection Hc' as <-. revert H.
  rewrite Hn, u32_small by (unfold is_u32, CONTEXT_DRAWQUEUE_SIZE in *; lia).
  destruct (Z.ltb_spec (_context_drawqueue_size - 1) (Z.of_nat (length q) + Z.of_nat n))
    as [Hlt|_]; [|intros H; by inv_run].
  unfold _context_drawqueue_size in Hlt. unfold CONTEXT_DRAWQUEUE_SIZE in *. lia.
Qed.

Lemma queue_context_ret p w r w' : hgsl_dispatch_queue_context p w = Some (r, w') → r = 0.
Proof.
  unfold hgsl_dispatch_queue_context. intros H.
  apply bind_Some in H as (got & w1 & _ & H). destruct got; cbn [negb] in H; [|by inv_run].
  apply bind_Some in H as ([] & w2 & _ & H).
  apply bind_Some in H as ([] & w3 & _ & H). by inv_run.
Qed.

Lemma sendcmds_blocked p x q w o s :
  drawq_is w p (x :: q) → w_drawobjs w !! x = Some o → o_type o = SYNCOBJ_TYPE →
  o_body o = Sync s → hgsl_drawobj_events_pending s = true →
  ∃ w', hgsl_dispatch_sendcmds p w = Some (- EAGAIN, w') ∧
    w_contexts w' = w_contexts w ∧ drawq_is w' p (x :: q).
Proof.
  intros [t Hq] Ho Et Eb Hp. pose proof Hq as (c & Hc & _).
  destruct (process_drawqueue_blocked 127 p t x q w c o s Hq Hc Ho Et Eb Hp)
    as (w1 & Hr & Hw1).
  assert (Hc1 : w_contexts w1 !! p = Some c) by by rewrite Hw1.
  assert (Hg : _process_drawqueue_get_next_drawobj p w = Some (inl (- EAGAIN), w1)).
  { unfold _process_drawqueue_get_next_drawobj. run_load Hc. exact Hr. }
  assert (Ht : sendcmds_turn p w = Some (Some (- EAGAIN), w1)).
  { unfold sendcmds_turn. by rewrite (bind_run _ _ _ _ _ Hg). }
  unfold hgsl_dispatch_sendcmds. cbn [sendcmds_loop].
  erewrite bind_run; [|by rewrite (bind_run _ _ _ _ _ Ht)].
  unfold _check_context_queue. erewrite bind_run; [|run_load Hc1; reflexivity].
  change (- EAGAIN =? 0) with false. cbv iota.
  destruct (check_room 0 c); (eexists; split; [reflexivity|]; cbn; split; [done|]);
    exists t, c; cbn; rewrite Hc1; destruct Hq as (c' & Hc' & Ht' & Hrep);
    rewrite Hc in Hc'; injection Hc' as <-; done.
Qed.

Lemma sendcmds_empty p w :
  drawq_is w p [] →
  ∃ w', hgsl_dispatch_sendcmds p w = Some (0, w') ∧ w_contexts w' = w_contexts w.
Proof.
  intros [t Hq]. pose proof Hq as (c & Hc & _).
  assert (Hg : _process_drawqueue_get_next_drawobj p w = Some (inr None, w)).
  { unfold _process_drawqueue_get_next_drawobj. run_load Hc.
    change CONTEXT_DRAWQUEUE_SIZE with 128%nat. cbn [process_drawqueue].
    by rewrite (bind_run _ _ _ _ _ (drawqueue_turn_cons _ _ _ _ _ Hq Hc)). }
  assert (Ht : sendcmds_turn p w = Some (Some 0, w)).
  { unfold sendcmds_turn. by rewrite (bind_run _ _ _ _ _ Hg). }
  unfold hgsl_dispatch_sendcmds. cbn [sendcmds_loop].
  rewrite (bind_run _ _ w (0, 0) w) by (by rewrite (bind_run _ _ _ _ _ Ht)).
  unfold _check_context_queue.
  rewrite (bind_run _ _ w (check_room 0 c) w) by (by run_load Hc).
  destruct (check_room 0 c); by eexists.
Qed.

(** The turns of the job loop after the first only drop references. *)
Lemma issuecmds_puts p n i w c :
  0 < i → w_contexts w !! p = Some c → Z.of_nat n < c_kref c →
  ∃ w', issuecmds_loop p i n w = Some (tt, w') ∧
    w_contexts w' !! p = Some (c <| c_kref := c_kref c - Z.of_nat n |>).
Proof.
  revert i w c. induction n as [|n IH]; intros i w c Hi Hc Hk; cbn [issuecmds_loop].
  - exists w. split; [done|]. rewrite Hc. cbn. rewrite Z.sub_0_r. by destruct c.
  - destruct (Z.ltb_spec 0 i); [|lia].
    rewrite (bind_run _ _ _ _ _ (put_context_run w p c Hc ltac:(lia))).
    destruct (IH (i + 1) (w <| w_contexts ::= <[p := c <| c_kref := c_kref c - 1 |>]> |>)
      (c <| c_kref := c_kref c - 1 |>)) as (w' & H1 & H2); [lia| |cbn; lia|].
    { cbn. apply lookup_insert_eq. }
    exists w'. split; [done|]. rewrite H2.
    replace (c_kref c - Z.of_nat (S n)) with (c_kref c - 1 - Z.of_nat n) by lia. done.
Qed.

End drawqueue.

(** * Properties *)

Section properties.
Context `{K : Kernel} `{I : IssueCmd}.

(** C20. The ring of draw objects is a FIFO queue with put-back: queueing an object
    appends it, popping takes the head off, requeueing puts an object back in
    front; the indices stay inside the array and [queued] stays the length of the
    queue.  The room the code keeps free (one slot) is what the two insertions
    need. *)
Theorem ring_refines_queue c q obj :
  ring_rep c q →
  (∀ x q', q = x :: q' → ring_rep (ring_pop c) q') ∧
  ((length q < CONTEXT_DRAWQUEUE_SIZE - 1)%nat →
   ring_rep (ring_queue obj c) (q ++ [obj]) ∧ ring_rep (ring_requeue obj c) (obj :: q)).
Proof.
  intros Hc. split.
  - intros x q' ->. by apply ring_pop_rep with x.
  - intros Hl. split; [by apply ring_queue_rep | by apply ring_requeue_rep].
Qed.

(** C18. _process_drawqueue_get_next_drawobj takes objects off the queue in order, and only
    objects that are retired: sync objects that wait for nothing, markers whose timestamp
    is retired, timeline objects; each is looked at when its turn comes, and none touches
    the others.  It stops in front of a command, or of a marker that is not retired but
    must not be waited for, and returns it; in front of a sync object that waits or of a
    marker that is not retired, with -EAGAIN; or at the end of the queue, with NULL.  The
    ring holds what is left.  No bind objects are queued: the driver makes none, and the
    loop would step over them without taking them off. *)
Theorem process_drawqueue_in_order p q w r w' :
  drawq_is w p q → (∀ x, x ∈ q → type_of w x ≠ Some BINDOBJ_TYPE) →
  _process_drawqueue_get_next_drawobj p w = Some (r, w') →
  ∃ dropped q', q = dropped ++ q' ∧ drains w dropped q' w' r ∧ drawq_is w' p q'.
Proof.
  intros [t Hq] Hb H. apply (drawqueue_run _ t q) in H as (dropped & q' & Eq & D & _ & Hd); [|done..].
  exists dropped, q'. split; [done|]. split; [done|by exists t].
Qed.

(** C2. The submission loop neither loses nor reorders what waits.  Each object that
    hgsl_dispatch_sendcmds takes off the queue is, in the order of the queue, retired, or
    handed to the submission with success, or destroyed because the submission answers
    -ENOENT; what the submission refuses with another error is put back at the head.  The
    ring holds the rest of the queue, and the loop stops only at its end, at an object
    that blocks, or at such an error, which it returns; otherwise it returns how many
    objects were submitted.  Only the waiters for room are woken after that.  As in C18, no
    bind objects are queued. *)
Theorem sendcmds_keeps_order p q w r w' :
  drawq_is w p q → (∀ x, x ∈ q → type_of w x ≠ Some BINDOBJ_TYPE) →
  hgsl_dispatch_sendcmds p w = Some (r, w') →
  ∃ fates q' ret w1, q = (fate_obj <$> fates) ++ q' ∧ drawq_is w' p q' ∧
    sends p w fates q' ret w1 ∧
    r = (if ret =? 0 then Z.of_nat (length (filter is_submitted fates)) else ret) ∧
    (w' = w1 ∨ w' = w1 <| w_trace ::= λ l, l ++ [A_wake_up_drawq p] |>).
Proof.
  intros [t Hq] Hb H. unfold hgsl_dispatch_sendcmds in H.
  apply bind_Some in H as ([ret count] & w1 & H1 & H).
  apply (sendcmds_loop_run _ _ t q) in H1 as (fates & q' & Eq & D & Hs & Hn); [|done..]. cbn in Hs, Hn.
  apply bind_Some in H as (room & w2 & H2 & H). unfold _check_context_queue in H2.
  apply bind_Some in H2 as (c & w3 & [_ ->]%load_Some & H2). injection H2 as _ <-.
  apply bind_Some in H as ([] & w3 & H3 & H). pose proof H3 as H3'. step_framed H3'. inv_run.
  exists fates, q', ret, w1. split; [done|]. split; [exists t; eauto|]. split; [done|].
  split; [by rewrite Hn|]. destruct room; [right|left]; by injection H3.
Qed.

(** C40. Both loops of the dispatcher terminate.  However often one goes on, it goes on at
    most once for each object that was queued; so the fuel that they are run with, the
    size of the ring, is never used up: without a result one of their turns has none.  As in
    C18, no bind objects are queued. *)
Theorem dispatch_loops_terminate p q w c :
  drawq_is w p q → w_contexts w !! p = Some c →
  (∀ x, x ∈ q → type_of w x ≠ Some BINDOBJ_TYPE) →
  (∀ n s, nsteps (drawqueue_step p) n (w, c_drawq_head c) s → (n ≤ length q)%nat) ∧
  (∀ n w', nsteps (sendcmds_step p) n w w' → (n ≤ length q)%nat) ∧
  (_process_drawqueue_get_next_drawobj p w = None →
   ∃ n s, nsteps (drawqueue_step p) n (w, c_drawq_head c) s ∧ drawqueue_turn p s.2 s.1 = None) ∧
  (hgsl_dispatch_sendcmds p w = None →
   ∃ n w', nsteps (sendcmds_step p) n w w' ∧ sendcmds_turn p w' = None).
Proof.
  intros [t Hq] Hc Hb. split_and!.
  - intros n s. by eapply drawqueue_steps.
  - intros n w' Hs. by eapply sendcmds_steps.
  - by eapply drawqueue_faults.
  - intros H. unfold hgsl_dispatch_sendcmds in H.
    destruct (sendcmds_loop (S CONTEXT_DRAWQUEUE_SIZE) p 0 w) as [[[ret count] w1]|] eqn:E.
    + exfalso. pose proof E as E'.
      apply (sendcmds_loop_run _ _ t q) in E' as (_ & q' & _ & (c1 & Hc1 & _) & _); [|done..].
      rewrite (bind_run _ _ _ _ _ E) in H. unfold _check_context_queue in H.
      rewrite (bind_run _ _ w1 (check_room 0 c1) w1) in H by (by run_load Hc1).
      by destruct (check_room 0 c1).
    + destruct (sendcmds_loop_None _ _ _ _ E) as [?|[w1 Hs]]; [done|].
      apply (sendcmds_steps _ _ t q) in Hs as [Hs _]; [|done..]. apply drawq_at_short in Hq. lia.
Qed.

(** C21. A sync object with pending events blocks its queue: submission returns
    -EAGAIN, and the context is exactly as it was, with the sync object still at
    the head of the queue and everything behind it still waiting. *)
Theorem pending_sync_blocks p x q w o s :
  drawq_is w p (x :: q) → w_drawobjs w !! x = Some o → o_type o = SYNCOBJ_TYPE →
  o_body o = Sync s → hgsl_drawobj_events_pending s = true →
  ∃ w', hgsl_dispatch_sendcmds p w = Some (- EAGAIN, w') ∧
    w_contexts w' = w_contexts w ∧ drawq_is w' p (x :: q).
Proof. apply sendcmds_blocked. Qed.

(** Queueing a real command sets the SKIP bit of every marker that waits before
    it (so that they are submitted and time stays linear), appends the command,
    and records its timestamp as the last queued one. *)
Theorem queue_cmdobj_skips_markers p q obj w timestamp user_ts ts w' :
  drawq_is w p q → (length q < CONTEXT_DRAWQUEUE_SIZE - 1)%nat →
  _queue_cmdobj p obj timestamp user_ts w = Some ((0, ts), w') →
  drawq_is w' p (q ++ [obj]) ∧
  (∀ x, x ∈ q → type_of w' x = Some MARKEROBJ_TYPE → skipped w' x) ∧
  (∃ c', w_contexts w' !! p = Some c' ∧ c_queued_ts c' = ts).
Proof.
  intros Hq Hl H. split.
  { apply (queue_cmdobj_run p q) in H as [_ [[_ D]|[[=] _]]]; done. }
  destruct Hq as [t Hq]. unfold _queue_cmdobj in H.
  apply bind_Some in H as (c & w1 & [Hc ->]%load_Some & H).
  destruct (hgsl_db_next_timestamp c user_ts) as [r ts1].
  destruct (Z.eqb_spec r 0) as [->|]; cbn [negb] in H; [|inv_run; done].
  apply bind_Some in H as ([] & w1 & (o & Ho & ->)%update_Some & H).
  apply bind_Some in H as ([] & w2 & H2 & H).
  rewrite <-(Nat.mod_small (c_drawq_head c) CONTEXT_DRAWQUEUE_SIZE) in H2
    by by destruct (drawq_at_cons _ _ _ _ _ Hq Hc) as ([] & _).
  replace (c_drawq_head c) with (c_drawq_head c + length (@nil ptr))%nat in H2
    by (cbn; lia).
  eapply (skip_markers_run _ p t q [] q) in H2 as (_ & Hsk & Hc2); [|done..|exact Hc].
  apply bind_Some in H as ([] & w3 & (c2 & Hc2' & ->)%update_Some & H).
  apply bind_Some in H as ([] & w4 & (c3 & Hc3 & ->)%update_Some & H).
  cbn in Hc3. rewrite lookup_insert_eq in Hc3. inv_run.
  split; [exact Hsk|]. eexists. cbn. rewrite lookup_insert_eq. split; [done|].
  by injection Hc3 as <-.
Qed.

(** C22. hgsl_dispatch_queue_cmds on a ring with room: either every object ends up
    behind what was queued, in order, with return code 0; or the call fails and
    only a prefix was queued; or the ring was empty and the first object is a
    marker, which retires on the spot because the last timestamp queued has. *)
Theorem queue_cmds_appends p q objs w timestamp ret ts w' :
  drawq_is w p q → (∀ x, x ∈ objs → type_of w x ≠ Some BINDOBJ_TYPE) →
  (length q + length objs < CONTEXT_DRAWQUEUE_SIZE - 1)%nat →
  hgsl_dispatch_queue_cmds (Some p) objs timestamp w = Some ((ret, ts), w') →
  ∃ out, queueing_ok w w' p q objs ret out.
Proof.
  intros Hq Hb Hl H.
  assert (Stop : ∀ r w1, r ≠ 0 → drawq_is w1 p q → ∃ out, queueing_ok w w1 p q objs r out)
    by (intros r w1 Hr D; exists true; by apply queueing_ok_stop).
  unfold hgsl_dispatch_queue_cmds in H.
  destruct (_ || _); [inv_run; by apply Stop|].
  apply bind_Some in H as (c & w1 & [Hc ->]%load_Some & H).
  destruct (c_in_destroy c); [inv_run; by apply Stop|].
  apply bind_Some in H as (room & w1 & H1 & H).
  apply (room_run p q) in H1 as [-> ->]; [|done|lia].
  cbn [negb Z.eqb] in H. apply bind_Some in H as (only & w1 & H1 & H).
  assert (w1 = w) as ->.
  { destruct objs as [|? [|]]; inv_st; done. }
  clear H1. apply bind_Some in H as (c' & w1 & [Hc' ->]%load_Some & H).
  destruct (_ && _); [inv_run; by apply Stop|].
  apply bind_Some in H as ([[r out] ts1] & w1 & H1 & H).
  apply (queue_loop_run p q) in H1 as (n & Hn & [t D] & Hcase); [|done|lia|done].
  exists out. exists n. split; [done|]. destruct out.
  - inv_run. split; [by exists t | naive_solver].
  - destruct Hcase as [(_ & -> & ->)|[[? _]|[? _]]]; [|done..].
    apply bind_Some in H as (r2 & w2 & H2 & H). inj_subst H.
    assert (r2 = 0) as -> by by eapply queue_context_ret.
    step_framed H2. split; [exists t; auto|]. auto.
Qed.

(** C23. For the lists the ioctls build, sync and timeline objects and then at most one
    command or marker, with room for them in the ring: the call queues all of them, in
    order, and returns 0; or the only object is a marker, the ring is empty and the last
    timestamp queued is retired already, and then the marker is retired on the spot; or it fails and queues nothing, which happens only without
    objects, when the context goes, or when the user's timestamp is not after the last one.
    What such a call returns an error for, the ioctls destroy, so no destroyed object is
    left in the ring; the check of the user's timestamp in front of the loop makes the one
    in the loop succeed. *)
Theorem queue_cmds_all_or_nothing p q objs last w c timestamp ret ts w' :
  drawq_is w p q → w_contexts w !! p = Some c →
  Forall (plain w) objs → (length last ≤ 1)%nat → Forall (submitted w) last →
  (length q + length (objs ++ last) < CONTEXT_DRAWQUEUE_SIZE - 1)%nat →
  hgsl_dispatch_queue_cmds (Some p) (objs ++ last) timestamp w = Some ((ret, ts), w') →
  ret = 0 ∧ drawq_is w' p (q ++ objs ++ last) ∨
  ret = 0 ∧ q = [] ∧ objs = [] ∧ drawq_is w' p [] ∧
    (∃ x, last = [x] ∧ retires_at_once w p x) ∨
  ret ≠ 0 ∧ drawq_is w' p q ∧
    (objs ++ last = [] ∨ c_in_destroy c = true ∨ refused c timestamp = true).
Proof.
  intros Hq Hc Ho Hl1 Hl Hn H. unfold hgsl_dispatch_queue_cmds in H.
  destruct (Z.eqb_spec (Z.of_nat (length (objs ++ last))) 0) as [E0|E0].
  { cbn [orb] in H. inv_run. do 2 right. split; [done|]. split; [done|]. left.
    apply nil_length_inv. lia. }
  destruct (Z.ltb_spec (_context_drawqueue_size - 1) (Z.of_nat (length (objs ++ last)))) as [Hmax|_].
  { exfalso. unfold _context_drawqueue_size in Hmax. lia. }
  cbn [orb] in H. apply bind_Some in H as (c' & w1 & [Hc' ->]%load_Some & H).
  rewrite Hc in Hc'. injection Hc' as <-.
  destruct (c_in_destroy c); [inv_run; do 2 right; by split_and!; [| |right; left]|].
  apply bind_Some in H as (room & w1 & H1 & H).
  apply (room_run p q) in H1 as [-> ->]; [|done|lia].
  cbn [negb Z.eqb] in H. apply bind_Some in H as (only & w1 & H1 & H).
  apply only_sync_run in H1 as [-> Honly]; [|done].
  apply bind_Some in H as (c' & w1 & [Hc' ->]%load_Some & H).
  rewrite Hc in Hc'. injection Hc' as <-.
  destruct (negb only && _ && _) eqn:Echeck.
  { inv_run. do 2 right. split; [done|]. split; [done|]. do 2 right. unfold refused.
    by destruct (has_flag _ _), (hgsl_ts32_ge _ _), only. }
  apply bind_Some in H as ([[r out] ts1] & w1 & H1 & H).
  assert (r = 0) as ->.
  { eapply (queue_loop_succeeds p q objs last w w); [done|lia|done..| |exact H1].
    intros Hne. rewrite Honly in Echeck by done. exact Echeck. }
  assert (∀ x, x ∈ objs ++ last → type_of w x ≠ Some BINDOBJ_TYPE) as Hb.
  { intros x [Hx|Hx]%elem_of_app E.
    - rewrite Forall_forall in Ho. destruct (Ho x Hx) as [E'|E']; by rewrite E in E'.
    - rewrite Forall_forall in Hl. destruct (Hl x Hx) as [E'|E']; by rewrite E in E'. }
  apply (queue_loop_run p q) in H1 as (n & _ & [t D] & Hcase); [|done|lia|done].
  destruct Hcase as [(-> & _ & ->)|[[_ ?]|(-> & _ & -> & -> & x & Hx & Tx)]]; [|done|].
  - left. apply bind_Some in H as (r2 & w2 & H2 & H). inj_subst H.
    assert (r2 = 0) as -> by by eapply queue_context_ret.
    step_framed H2. split; [done|]. exists t. rewrite take_ge in D by done. auto.
  - inv_run. right; left. split; [done|]. split; [done|]. destruct objs as [|y objs].
    + split; [done|]. split; [by exists t|]. cbn in Hx. destruct last as [|z [|]]; cbn in *; [done| |lia].
      injection Hx as ->. by exists x.
    + cbn in Hx. injection Hx as ->. destruct Tx as [Tx _].
      apply Forall_cons in Ho as [[E'|E'] _]; by rewrite Tx in E'.
Qed.

(** When the ring has no room and the caller sleeps until there is, the
    positive value wait_event_interruptible_timeout then returns is taken for an
    error: nothing is queued and the number of jiffies left is returned. *)
Theorem queue_cmds_wait_success_queues_nothing p objs timestamp w c c1 :
  objs ≠ [] → Z.of_nat (length objs) ≤ _context_drawqueue_size - 1 →
  w_contexts w !! p = Some c → c_in_destroy c = false →
  _context_drawqueue_size - 1 < u32 (c_queued c + Z.of_nat (length objs)) →
  let w1 := k_interfere (w_clock w) (w <| w_clock := S (w_clock w) |>) in
  w_contexts w1 !! p = Some c1 → check_room (Z.of_nat (length objs)) c1 = true →
  ∃ ret w', hgsl_dispatch_queue_cmds (Some p) objs timestamp w = Some ((ret, timestamp), w') ∧
    0 < ret ∧ w_contexts w' = w_contexts w1 ∧ w_drawobjs w' = w_drawobjs w1.
Proof.
  intros Hn Hmax Hc Hd Hroom w1 Hc1 Hok.
  set (ret := Z.max 1 (k_wait (w_clock w1))).
  exists ret, (w1 <| w_clock := S (w_clock w1) |>). split; [|split; [lia|done]].
  unfold hgsl_dispatch_queue_cmds.
  destruct (Z.eqb_spec (Z.of_nat (length objs)) 0) as [E|_];
    [by destruct objs|].
  destruct (Z.ltb_spec (_context_drawqueue_size - 1) (Z.of_nat (length objs))) as [?|_]; [lia|].
  cbn [orb]. run_load Hc. rewrite Hd.
  rewrite (bind_run _ _ w ret (w1 <| w_clock := S (w_clock w1) |>)).
  - destruct (Z.eqb_spec ret 0); [lia|done].
  - unfold _check_for_room_in_context_drawq. run_load Hc.
    destruct (Z.ltb_spec (_context_drawqueue_size - 1)
      (u32 (c_queued c + Z.of_nat (length objs)))) as [_|?]; [|lia].
    unfold wait_event_interruptible_timeout.
    rewrite (bind_run _ _ w (w_clock w) (w <| w_clock := S (w_clock w) |>)) by done.
    rewrite (bind_run _ _ _ tt w1) by done.
    rewrite (bind_run _ _ w1 true w1); [done|].
    unfold _check_context_queue. run_load Hc1. by rewrite Hok.
Qed.

(** What hgsl_dispatch_queue_cmds refuses, it refuses without touching
    anything: no context, no objects, more objects than the ring takes, a context
    that is being destroyed. *)
Theorem queue_cmds_rejects ctxt objs timestamp w :
  (match ctxt with
   | None => True
   | Some p => objs = [] ∨ _context_drawqueue_size - 1 < Z.of_nat (length objs) ∨
       ∃ c, w_contexts w !! p = Some c ∧ c_in_destroy c = true
   end) →
  hgsl_dispatch_queue_cmds ctxt objs timestamp w = Some ((- EINVAL, timestamp), w).
Proof.
  destruct ctxt as [p|]; [|done]. intros Hr. unfold hgsl_dispatch_queue_cmds.
  destruct (Z.eqb_spec (Z.of_nat (length objs)) 0) as [|Hn]; [done|].
  destruct (Z.ltb_spec (_context_drawqueue_size - 1) (Z.of_nat (length objs))); [done|].
  destruct Hr as [->|[?|(c & Hc & Hd)]]; [done|lia|].
  cbn [orb]. run_load Hc. by rewrite Hd.
Qed.

(** The jobs of a context hold a reference each, and running them gives the
    references back.  With nothing to submit, all [n] go and the count is zero;
    with a sync object blocking the queue one stays, for the job that is put back
    at once. *)
Theorem issuecmds_accounts p q w c d n :
  drawq_is w p q → w_contexts w !! p = Some c → c_dispatch c = Some d →
  d_count d = Z.of_nat (S n) → Z.of_nat (S n) < c_kref c →
  match q with
  | [] => True
  | x :: _ => ∃ o s, w_drawobjs w !! x = Some o ∧ o_type o = SYNCOBJ_TYPE ∧
      o_body o = Sync s ∧ hgsl_drawobj_events_pending s = true
  end →
  ∃ w' c', hgsl_dispatch_ctxt_issuecmds p w = Some (tt, w') ∧
    w_contexts w' !! p = Some c' ∧
    match q with
    | [] => c_kref c' = c_kref c - Z.of_nat (S n) ∧
        c_dispatch c' = Some (d <| d_count := 0 |>)
    | _ => c_kref c' = c_kref c - Z.of_nat n ∧
        c_dispatch c' = Some (d <| d_count := 1 |> <| d_work := true |>)
    end.
Proof.
  intros Hq Hc Hd Hn Hk Hhead.
  set (c0 := c <| c_dispatch := Some (d <| d_count := 0 |>) |>).
  set (w0 := w <| w_contexts ::= <[p := c0]> |>).
  assert (Hu : update_dispatch p (λ d, d <| d_count := 0 |>) w = Some (tt, w0)).
  { unfold update_dispatch. run_load Hc. by rewrite Hd. }
  assert (Hc0 : w_contexts w0 !! p = Some c0) by (cbn; apply lookup_insert_eq).
  assert (Hq0 : drawq_is w0 p q).
  { destruct Hq as (t & c' & Hc' & Ht & Hr). rewrite Hc in Hc'. injection Hc' as <-.
    exists t, c0. split; [done|]. split; [done|]. by apply ring_rep_ring_of with c. }
  unfold hgsl_dispatch_ctxt_issuecmds.
  rewrite (bind_run _ _ w d w) by (unfold get_dispatch; run_load Hc; by rewrite Hd).
  rewrite (bind_run _ _ _ _ _ Hu), Hn, Nat2Z.id. cbn [issuecmds_loop].
  change (0 <? 0) with false. cbv iota.
  destruct q as [|x q].
  - destruct (sendcmds_empty p w0 Hq0) as (w1 & Hs & Hw1).
    assert (Hc1 : w_contexts w1 !! p = Some c0) by by rewrite Hw1.
    set (c2 := c0 <| c_kref := c_kref c0 - 1 |>).
    set (w2 := w1 <| w_contexts ::= <[p := c2]> |>).
    rewrite (bind_run _ _ _ tt w2).
    2:{ rewrite (bind_run _ _ _ _ _ Hs). cbn [Z.eqb orb].
        apply put_context_run; [exact Hc1 | cbn; lia]. }
    destruct (issuecmds_puts p n 1 w2 c2) as (w' & H1 & H2); [done| | |].
    1:{ cbn. apply lookup_insert_eq. }
    1:{ cbn. lia. }
    exists w', (c2 <| c_kref := c_kref c2 - Z.of_nat n |>).
    split; [done|]. split; [done|]. cbn. split; [lia|done].
  - destruct Hhead as (o & s & Ho & Et & Eb & Hp).
    destruct (sendcmds_blocked p x q w0 o s Hq0 Ho Et Eb Hp) as (w1 & Hs & Hw1 & _).
    assert (Hc1 : w_contexts w1 !! p = Some c0) by by rewrite Hw1.
    set (c2 := c0 <| c_dispatch := Some (d <| d_count := 1 |>) |>).
    set (w2 := w1 <| w_contexts ::= <[p := c2]> |>).
    assert (Hc2 : w_contexts w2 !! p = Some c2) by (cbn; apply lookup_insert_eq).
    set (c3 := c2 <| c_dispatch := Some (d <| d_count := 1 |> <| d_work := true |>) |>).
    set (w3 := w2 <| w_contexts ::= <[p := c3]> |>).
    rewrite (bind_run _ _ _ tt w3).
    2:{ rewrite (bind_run _ _ _ _ _ Hs).
        change ((- EAGAIN =? 0) || (- EAGAIN =? - ENOENT)) with false. cbv iota.
        rewrite (bind_run _ _ w1 tt w2) by (unfold dispatch_count_inc; by run_load Hc1).
        unfold hgsl_dispatch_ctxt_schedule. by run_load Hc2. }
    destruct (issuecmds_puts p n 1 w3 c3) as (w' & H1 & H2); [done| | |].
    1:{ cbn. apply lookup_insert_eq. }
    1:{ cbn. lia. }
    exists w', (c3 <| c_kref := c_kref c3 - Z.of_nat n |>). done.
Qed.

End properties.

(** * The properties on the small world *)

Section witnesses.
#[local] Existing Instance quiet_kernel.
#[local] Existing Instance quiet_issue.

Lemma small_drawq q :
  (length q < CONTEXT_DRAWQUEUE_SIZE)%nat → drawq_is (small_world q) 2 q.
Proof.
  intros Hl. exists (c_drawq_tail (small_context q)), (small_context q).
  split; [done|]. split; [done|].
  apply ring_rep_ring_of with (ring_fill (fresh_context 1 7
    GSL_CONTEXT_FLAG_USER_GENERATED_TS (Some (mk_shadow 0 0))) q); [done|].
  apply (ring_fill_rep _ []); [apply ring_fresh | done].
Qed.

(** Evaluates a property of each element of a list of constants. *)
Ltac each_elem :=
  let x := fresh "x" in let Hx := fresh "Hx" in
  intros x Hx;
  repeat (apply elem_of_cons in Hx as [->|Hx]; [vm_compute; discriminate|]);
  by apply elem_of_nil in Hx.

Lemma ring_refines_queue_witness :
  ring_rep (ring_requeue 9 (ring_pop (small_context [11; 12]%positive))) [9; 12]%positive.
Proof.
  assert (H : ring_rep (small_context [11; 12]%positive) [11; 12]%positive).
  { destruct (small_drawq [11; 12]%positive) as (t & c & Hc & _ & H); [by apply Nat.ltb_lt|].
    vm_compute in Hc. injection Hc as <-. exact H. }
  apply (ring_refines_queue _ _ 9) in H as [H _].
  specialize (H _ _ eq_refl). apply (ring_refines_queue _ _ 9) in H as [_ H].
  apply H. by apply Nat.ltb_lt.
Defined.

Lemma process_drawqueue_in_order_witness :
  ∃ w' dropped q', _process_drawqueue_get_next_drawobj 2 (small_world [13; 10; 11]%positive) =
      Some (inr (Some 10%positive), w') ∧ [13; 10; 11]%positive = dropped ++ q' ∧
    drains (small_world [13; 10; 11]%positive) dropped q' w' (inr (Some 10%positive)).
Proof.
  assert (E : ∃ w', _process_drawqueue_get_next_drawobj 2 (small_world [13; 10; 11]%positive) =
    Some (inr (Some 10%positive), w')) by (eexists; vm_compute; reflexivity).
  destruct E as [w' E]. exists w'.
  destruct (process_drawqueue_in_order 2 [13; 10; 11]%positive _ _ w'
    (small_drawq [13; 10; 11]%positive ltac:(by apply Nat.ltb_lt)) ltac:(each_elem) E)
    as (dropped & q' & Eq & Hd & _).
  by exists dropped, q'.
Defined.

Lemma sendcmds_keeps_order_witness :
  ∃ w' fates q', hgsl_dispatch_sendcmds 2 (small_world [13; 10; 12; 10]%positive) =
      Some (- EAGAIN, w') ∧
    [13; 10; 12; 10]%positive = (fate_obj <$> fates) ++ q' ∧ drawq_is w' 2 q'.
Proof.
  assert (E : ∃ w', hgsl_dispatch_sendcmds 2 (small_world [13; 10; 12; 10]%positive) =
    Some (- EAGAIN, w')) by (eexists; vm_compute; reflexivity).
  destruct E as [w' E]. exists w'.
  destruct (sendcmds_keeps_order 2 [13; 10; 12; 10]%positive _ _ w'
    (small_drawq [13; 10; 12; 10]%positive ltac:(by apply Nat.ltb_lt)) ltac:(each_elem) E)
    as (fates & q' & ret & w1 & Eq & D & _).
  by exists fates, q'.
Defined.

Lemma dispatch_loops_terminate_witness :
  drawq_is (small_world [13; 10]%positive) 2 [13; 10]%positive ∧
  (∀ n w', nsteps (sendcmds_step 2) n (small_world [13; 10]%positive) w' → (n ≤ 2)%nat).
Proof.
  pose proof (small_drawq [13; 10]%positive ltac:(by apply Nat.ltb_lt)) as D. split; [done|].
  destruct (dispatch_loops_terminate 2 [13; 10]%positive _ (small_context [13; 10]%positive)
    D eq_refl ltac:(each_elem)) as (_ & H & _).
  exact H.
Defined.

Lemma pending_sync_blocks_witness :
  ∃ w', hgsl_dispatch_sendcmds 2 (small_world [12; 10]%positive) = Some (- EAGAIN, w') ∧
    w_contexts w' = w_contexts (small_world [12; 10]%positive) ∧
    drawq_is w' 2 [12; 10]%positive.
Proof.
  eapply (pending_sync_blocks 2 12 [10]%positive);
    [by apply small_drawq, Nat.ltb_lt|reflexivity..].
Defined.

Lemma queue_cmdobj_skips_markers_witness :
  ∃ w', _queue_cmdobj 2 10 0 3 (small_world [11]%positive) = Some ((0, 1), w') ∧
    drawq_is w' 2 [11; 10]%positive ∧ skipped w' 11.
Proof.
  assert (E : ∃ w', _queue_cmdobj 2 10 0 3 (small_world [11]%positive) = Some ((0, 1), w'))
    by (eexists; vm_compute; reflexivity).
  destruct E as [w' E]. exists w'. split; [done|].
  destruct (queue_cmdobj_skips_markers 2 [11]%positive 10 _ 0 3 1 w'
    (small_drawq [11]%positive ltac:(by apply Nat.ltb_lt)) ltac:(by apply Nat.ltb_lt) E)
    as (D & Hs & _).
  split; [done|]. apply Hs; [set_solver|].
  vm_compute in E. injection E as <-. by vm_compute.
Defined.

Lemma queue_cmds_appends_witness :
  ∃ ret ts w' out, hgsl_dispatch_queue_cmds (Some 2%positive) [12; 10]%positive 3
      (small_world [11]%positive) = Some ((ret, ts), w') ∧
    queueing_ok (small_world [11]%positive) w' 2 [11]%positive [12; 10]%positive ret out.
Proof.
  assert (E : ∃ w', hgsl_dispatch_queue_cmds (Some 2%positive) [12; 10]%positive 3
      (small_world [11]%positive) = Some ((0, 1), w')) by (eexists; vm_compute; reflexivity).
  destruct E as [w' E]. exists 0, 1, w'.
  destruct (queue_cmds_appends 2 [11]%positive [12; 10]%positive _ 3 0 1 w'
    (small_drawq [11]%positive ltac:(by apply Nat.ltb_lt)) ltac:(each_elem)
    ltac:(by apply Nat.ltb_lt) E) as [out H].
  by exists out.
Defined.

(** The same context with timestamps of the client's, the last of them 5. *)
#[local] Definition client_context (q : list ptr) : hgsl_context :=
  (small_context q) <| c_flags := Z.lor GSL_CONTEXT_FLAG_USER_GENERATED_TS
                                        GSL_CONTEXT_FLAG_CLIENT_GENERATED_TS |>
    <| c_queued_ts := 5 |>.

#[local] Definition client_world (q : list ptr) : world :=
  (small_world q) <| w_contexts := {[2%positive := client_context q]} |>.

Lemma client_drawq q :
  (length q < CONTEXT_DRAWQUEUE_SIZE)%nat → drawq_is (client_world q) 2 q.
Proof.
  intros Hl. destruct (small_drawq q Hl) as (t & c & Hc & Ht & []).
  assert (c = small_context q) as -> by (cbn in Hc; by rewrite lookup_singleton_eq in Hc; injection Hc).
  exists t, (client_context q). split; [apply lookup_singleton_eq|]. split; [done|]. by split.
Qed.

Lemma queue_cmds_all_or_nothing_witness :
  ∃ w', hgsl_dispatch_queue_cmds (Some 2%positive) [12; 10]%positive 5
          (client_world [11]%positive) = Some ((- ERANGE, 5), w') ∧
    drawq_is w' 2 [11]%positive.
Proof.
  assert (E : ∃ w', hgsl_dispatch_queue_cmds (Some 2%positive) [12; 10]%positive 5
      (client_world [11]%positive) = Some ((- ERANGE, 5), w'))
    by (eexists; vm_compute; reflexivity).
  destruct E as [w' E]. exists w'. split; [exact E|].
  destruct (queue_cmds_all_or_nothing 2 [11]%positive [12]%positive [10]%positive
    (client_world [11]%positive) (client_context [11]%positive) 5 (- ERANGE) 5 w')
    as [[? _]|[[? _]|(_ & D & _)]]; [|reflexivity|constructor; [|done]|cbn; lia|
    constructor; [|done]|by apply Nat.ltb_lt|exact E|done|done|exact D].
  - by apply client_drawq, Nat.ltb_lt.
  - by left.
  - by left.
Defined.

Lemma queue_cmds_rejects_witness :
  hgsl_dispatch_queue_cmds (Some 2%positive) [] 3 (small_world []) =
    Some ((- EINVAL, 3), small_world []).
Proof. apply (queue_cmds_rejects (Some 2%positive) [] 3 (small_world [])). by left. Defined.

Lemma issuecmds_accounts_witness :
  ∃ w' c', hgsl_dispatch_ctxt_issuecmds 2 (small_world [12]%positive) = Some (tt, w') ∧
    w_contexts w' !! 2%positive = Some c' ∧ c_kref c' = 8.
Proof.
  destruct (issuecmds_accounts 2 [12]%positive (small_world [12]%positive)
    (small_context [12]%positive) (mk_dispatch 2 [] false) 1) as (w' & c' & H1 & H2 & H3 & _).
  1: by apply small_drawq, Nat.ltb_lt.
  1-4: by vm_compute.
  1: eexists _, _; split; [vm_compute; reflexivity|by repeat split].
  by exists w', c'.
Defined.

End witnesses.

Lemma queue_cmds_wait_success_queues_nothing_witness :
  let full := small_world (repeat 10%positive 126) in
  ∃ ret w', @hgsl_dispatch_queue_cmds draining_kernel (Some 2%positive)
      [10%positive] 3 full = Some ((ret, 3), w') ∧ 0 < ret ∧
    w_contexts w' = w_contexts (small_world []) ∧ w_drawobjs w' = w_drawobjs (small_world []).
Proof.
  apply (@queue_cmds_wait_success_queues_nothing draining_kernel 2 [10%positive] 3
    (small_world (repeat 10%positive 126)) (small_context (repeat 10%positive 126))
    (small_context [])); by vm_compute.
Defined.
