(* ===== verification/Doorbell.v ===== *)
(** Command submission (hgsl.c): the doorbell queue shared with the GMU and the
    queue of one's own that a context may have; waiting for room in them, sending,
    the buffers for indirect submissions. *)

From S2P Require Import Prelude.
From S2P Require Import Bytes.
From S2P Require Import Rbtree.
From S2P Require Import MemTree.
From S2P Require Import State.
From S2P Require Import Timestamp.
From S2P Require Import Hsync.
From S2P Require Import Context.
From S2P Require Import Events.
From S2P Require Import Isync.
From S2P Require Import Drawobj.
From S2P Require Import Frames.
From S2P Require Import Dispatch.
From S2P Require Import Ring.

(** * Definitions *)

(** ** The layout of a doorbell queue's memory, in dwords *)

Definition HGSL_DBQ_HFI_Q_INDEX_BASE_OFFSET_IN_DWORD : Z := 384.
Definition HGSL_DBQ_CONTEXT_INFO_BASE_OFFSET_IN_DWORD : Z := 512.
Definition HGSL_DBQ_COOPERATIVE_RESET_INFO_BASE_OFFSET_IN_DWORD : Z := 1408.
Definition HGSL_DBQ_IBDESC_BASE_OFFSET_IN_DWORD : Z := 1536.
Definition HGSL_DBQ_METADATA_CTXT_TOTAL_ENTITY_NUM : Z := 3.

Definition HGSL_DBQ_CONTEXT_ANY : Z := 0.
Definition HGSL_DBQ_WRITE_INDEX_OFFSET_IN_DWORD : Z := 0.
Definition HGSL_DBQ_READ_INDEX_OFFSET_IN_DWORD : Z := 1.
Definition HGSL_DBQ_HOST_TO_GVM_HARDRESET_REQ : Z := 0.
Definition HGSL_DBQ_GVM_TO_HOST_HARDRESET_DISPATCH_IN_BUSY : Z := 1.
Definition HGSL_DBQ_CONTEXT_CONTEXT_ID_OFFSET_IN_DWORD : Z := 0.
Definition HGSL_DBQ_CONTEXT_TIMESTAMP_OFFSET_IN_DWORD : Z := 1.

Definition HGSL_QFREE_MAX_RETRY_COUNT : nat := 500.
Definition HGSL_SEND_MSG_MAX_RETRY_COUNT : nat := 150.

Inductive dbq_metadata :=
| HGSL_DBQ_METADATA_CONTEXT_INFO
| HGSL_DBQ_METADATA_QUEUE_INDEX
| HGSL_DBQ_METADATA_COOPERATIVE_RESET.

(** [dest - va_base] in hgsl_dbq_get_state_info and hgsl_dbq_set_state_info. *)
Definition get_state_index (command : dbq_metadata) (ctxt_id offset : Z) : Z :=
  match command with
  | HGSL_DBQ_METADATA_QUEUE_INDEX => HGSL_DBQ_HFI_Q_INDEX_BASE_OFFSET_IN_DWORD + offset
  | HGSL_DBQ_METADATA_CONTEXT_INFO =>
      HGSL_DBQ_CONTEXT_INFO_BASE_OFFSET_IN_DWORD +
      HGSL_DBQ_METADATA_CTXT_TOTAL_ENTITY_NUM * ctxt_id + offset
  | HGSL_DBQ_METADATA_COOPERATIVE_RESET =>
      HGSL_DBQ_COOPERATIVE_RESET_INFO_BASE_OFFSET_IN_DWORD + offset
  end.

Definition set_state_index (command : dbq_metadata) (ctxt_id offset : Z) : Z :=
  match command with
  | HGSL_DBQ_METADATA_QUEUE_INDEX =>
      HGSL_DBQ_HFI_Q_INDEX_BASE_OFFSET_IN_DWORD +
      HGSL_DBQ_METADATA_CTXT_TOTAL_ENTITY_NUM * ctxt_id + offset
  | HGSL_DBQ_METADATA_CONTEXT_INFO =>
      HGSL_DBQ_CONTEXT_INFO_BASE_OFFSET_IN_DWORD +
      HGSL_DBQ_METADATA_CTXT_TOTAL_ENTITY_NUM * ctxt_id + offset
  | HGSL_DBQ_METADATA_COOPERATIVE_RESET =>
      HGSL_DBQ_COOPERATIVE_RESET_INFO_BASE_OFFSET_IN_DWORD + offset
  end.

(** A dword outside the mapping is a fault. *)
Definition hgsl_dbq_get_state_info (dbq : ptr) (command : dbq_metadata)
    (ctxt_id offset : Z) : M world Z :=
  q ← load w_dbq dbq;
  of_option (q_mem q !! Z.to_nat (get_state_index command ctxt_id offset)).

Definition hgsl_dbq_set_state_info (dbq : ptr) (command : dbq_metadata)
    (ctxt_id offset value : Z) : M world unit :=
  q ← load w_dbq dbq;
  let i := Z.to_nat (set_state_index command ctxt_id offset) in
  if (i <? length (q_mem q))%nat
  then store w_dbq dbq (q <| q_mem ::= <[i := value]> |>)
  else fault.

(** ** Free space *)

Definition db_queue_freedwords (dbq : ptr) : M world Z :=
  wptr ← hgsl_dbq_get_state_info dbq HGSL_DBQ_METADATA_QUEUE_INDEX HGSL_DBQ_CONTEXT_ANY
           HGSL_DBQ_WRITE_INDEX_OFFSET_IN_DWORD;
  rptr ← hgsl_dbq_get_state_info dbq HGSL_DBQ_METADATA_QUEUE_INDEX HGSL_DBQ_CONTEXT_ANY
           HGSL_DBQ_READ_INDEX_OFFSET_IN_DWORD;
  q ← load w_dbq dbq;
  if q_dwords q =? 0 then fault else mret (ring_freedwords (q_dwords q) wptr rptr).

Definition db_get_busy_state (dbq : ptr) : M world Z :=
  hgsl_dbq_get_state_info dbq HGSL_DBQ_METADATA_COOPERATIVE_RESET HGSL_DBQ_CONTEXT_ANY
    HGSL_DBQ_GVM_TO_HOST_HARDRESET_DISPATCH_IN_BUSY.

Definition db_set_busy_state (dbq : ptr) (in_busy : Z) : M world unit :=
  hgsl_dbq_set_state_info dbq HGSL_DBQ_METADATA_COOPERATIVE_RESET HGSL_DBQ_CONTEXT_ANY
    HGSL_DBQ_GVM_TO_HOST_HARDRESET_DISPATCH_IN_BUSY in_busy.

Definition hard_reset_requested (dbq : ptr) : M world Z :=
  hgsl_dbq_get_state_info dbq HGSL_DBQ_METADATA_COOPERATIVE_RESET HGSL_DBQ_CONTEXT_ANY
    HGSL_DBQ_HOST_TO_GVM_HARDRESET_REQ.

Section doorbell.
Context `{K : Kernel}.

(** The [do] loop of db_queue_wait_freewords, [retries] more turns after this
    one. *)
Fixpoint wait_freewords_loop (retries : nat) (dbq : ptr) (size : Z) : M world Z :=
  hard_reset_req ← hard_reset_requested dbq;
  done ← (if hard_reset_req =? 1
          then
            busy ← db_get_busy_state dbq;
            when (busy =? 1) (db_set_busy_state dbq 0) ;;
            mret false
          else
            free ← db_queue_freedwords dbq;
            if size <=? free then db_set_busy_state dbq 1 ;; mret true
            else mret false);
  if done : bool then mret 0
  else
    interrupted ← msleep_interruptible;
    if interrupted : bool then mret (- EINTR)
    else
      match retries with
      | O => mret (- ETIMEDOUT)
      | S retries => wait_freewords_loop retries dbq size
      end.

Definition db_queue_wait_freewords (dbq : option ptr) (size : Z) : M world Z :=
  if size =? 0 then mret 0
  else
    match dbq with
    | None => mret (- EINVAL)
    | Some dbq => wait_freewords_loop HGSL_QFREE_MAX_RETRY_COUNT dbq size
    end.

(** The queue of the context itself: NULL pointers on the way are faults. *)
Definition get_dbcq (ctxt : ptr) : M world doorbell_context_queue :=
  c ← load w_contexts ctxt; of_option (c_dbcq c).

Definition update_dbcq (ctxt : ptr)
    (f : doorbell_context_queue → doorbell_context_queue) : M world unit :=
  update w_contexts ctxt (λ c, c <| c_dbcq ::= fmap f |>).

Definition get_ctx_queue (ctxt : ptr) : M world ctx_queue :=
  dbcq ← get_dbcq ctxt; of_option (cq_queue dbcq).

Definition update_ctx_queue (ctxt : ptr) (f : ctx_queue → ctx_queue) : M world unit :=
  update_dbcq ctxt (λ q, q <| cq_queue ::= fmap f |>).

Definition db_context_queue_freedwords (ctxt : ptr) : M world Z :=
  h ← get_ctx_queue ctxt;
  if h_dwSize h =? 0 then fault
  else mret (ring_freedwords (h_dwSize h) (h_writeIdx h) (h_readIdx h)).

Fixpoint dbcq_wait_loop (retries : nat) (ctxt : ptr) (size : Z) : M world Z :=
  free ← db_context_queue_freedwords ctxt;
  if size <=? free then mret 0
  else
    interrupted ← msleep_interruptible;
    if interrupted : bool then mret (- EINTR)
    else
      match retries with
      | O => mret (- ETIMEDOUT)
      | S retries => dbcq_wait_loop retries ctxt size
      end.

Definition dbcq_queue_wait_freewords (ctxt : ptr) (size : Z) : M world Z :=
  dbcq_wait_loop HGSL_QFREE_MAX_RETRY_COUNT ctxt size.

End doorbell.

(** ** Sending *)

Definition DB_SIGNAL_GLOBAL_0 : Z := 1.
Definition HGSL_TCSR_NUM : Z := 4.
Definition GLB_DB_SRC_ISSUEIB_IRQ_ID_0 : Z := 0.
Definition GLB_DB_DEST_TS_RETIRE_IRQ_ID : Z := 8.

Definition HGSL_DB_SIGNAL_NONE : Z := 0.
Definition HGSL_DB_SIGNAL_GMU_GOS_0 : Z := 5.
Definition HGSL_DB_SIGNAL_GMU_GOS_7 : Z := 12.
Definition HGSL_DB_SIGNAL_MAX : Z := 12.

Definition is_gmugos (db_signal : Z) : bool :=
  (HGSL_DB_SIGNAL_GMU_GOS_0 <=? db_signal) && (db_signal <=? HGSL_DB_SIGNAL_GMU_GOS_7).

Definition is_global_db (tcsr_idx : Z) : bool := 0 <=? tcsr_idx.

Definition gmu_ring_local_db (value : Z) : M world unit := emit (A_ring_local_db value).

Definition tcsr_ring_global_db (tcsr_idx dbq_idx : Z) : M world unit :=
  when (tcsr_idx <? HGSL_TCSR_NUM)
    (emit (A_ring_global_db tcsr_idx (GLB_DB_SRC_ISSUEIB_IRQ_ID_0 + dbq_idx))).

Section submission.
Context `{K : Kernel}.

(** The [do] loop at the start of db_send_msg: 0 once no hard reset is requested. *)
Fixpoint wait_hard_reset (retries : nat) (dbq : ptr) : M world Z :=
  hard_reset_req ← hard_reset_requested dbq;
  if hard_reset_req =? 0 then mret 0
  else
    interrupted ← msleep_interruptible;
    if interrupted : bool then mret (- EINTR)
    else
      match retries with
      | O => mret (- ETIMEDOUT)
      | S retries => wait_hard_reset retries dbq
      end.

(** The two memcpys and the updates of the shared words. *)
Definition db_write_msg (dbq : ptr) (msg : list Z) (cmds : hgsl_db_cmds) (msg_size_align : Z) :
  M world unit :=
  wptr ← hgsl_dbq_get_state_info dbq HGSL_DBQ_METADATA_QUEUE_INDEX HGSL_DBQ_CONTEXT_ANY
           HGSL_DBQ_WRITE_INDEX_OFFSET_IN_DWORD;
  q ← load w_dbq dbq;
  mem ← of_option (ring_write (q_mem q) (q_data q) (Z.to_nat (q_dwords q)) (Z.to_nat wptr) msg);
  store w_dbq dbq (q <| q_mem := mem |>) ;;
  hgsl_dbq_set_state_info dbq HGSL_DBQ_METADATA_QUEUE_INDEX HGSL_DBQ_CONTEXT_ANY
    HGSL_DBQ_WRITE_INDEX_OFFSET_IN_DWORD (u32 (wptr + msg_size_align) mod q_dwords q) ;;
  hgsl_dbq_set_state_info dbq HGSL_DBQ_METADATA_CONTEXT_INFO (dc_ctx_id cmds)
    HGSL_DBQ_CONTEXT_CONTEXT_ID_OFFSET_IN_DWORD (dc_ctx_id cmds) ;;
  hgsl_dbq_set_state_info dbq HGSL_DBQ_METADATA_CONTEXT_INFO (dc_ctx_id cmds)
    HGSL_DBQ_CONTEXT_TIMESTAMP_OFFSET_IN_DWORD (dc_timestamp cmds).

(** -ETIMEDOUT becomes -EAGAIN, for the caller to try again. *)
Definition send_ret (ret : Z) : Z := if ret =? - ETIMEDOUT then - EAGAIN else ret.

Definition db_send_msg (ctxt : ptr) (msg_dwords : Z) (cmds : hgsl_db_cmds) : M world Z :=
  c ← load w_contexts ctxt;
  dbq ← of_option (c_dbq c);
  reset ← wait_hard_reset (S HGSL_SEND_MSG_MAX_RETRY_COUNT) dbq;
  ret ← (if negb (reset =? 0) then mret reset
         else
           db_set_busy_state dbq 1 ;;
           let msg_size_align := ALIGN msg_dwords 4 in
           ret ← db_queue_wait_freewords (Some dbq) msg_size_align;
           if ret <? 0 then mret ret
           else
             db_write_msg dbq (take (Z.to_nat msg_dwords) (db_cmds_dwords cmds)) cmds
               msg_size_align ;;
             q ← load w_dbq dbq;
             (if is_global_db (c_tcsr_idx c)
              then tcsr_ring_global_db (c_tcsr_idx c) (q_dbq_idx q)
              else gmu_ring_local_db (q_dbq_idx q)) ;;
             mret ret);
  db_set_busy_state dbq 0 ;;
  mret (send_ret ret).

Definition dbcq_write_msg (ctxt : ptr) (msg : list Z) (msg_size_align : Z) : M world unit :=
  h ← get_ctx_queue ctxt;
  body ← of_option (ring_write (h_body h) 0 (Z.to_nat (h_dwSize h))
                      (Z.to_nat (h_writeIdx h)) msg);
  update_ctx_queue ctxt (λ h, h <| h_body := body |>
    <| h_writeIdx := u32 (h_writeIdx h + msg_size_align) mod h_dwSize h |>).

Definition dbcq_send_msg (ctxt : ptr) (msg_dwords : Z) (cmds : hgsl_db_cmds) : M world Z :=
  c ← load w_contexts ctxt;
  dbcq ← of_option (c_dbcq c);
  let dev_id := hgsl_hnd2id (c_devhandle c) in
  ret ← (if HGSL_DEVICE_NUM <=? dev_id then mret (- EINVAL)
         else
           let msg_size_align := ALIGN msg_dwords 4 in
           ret ← dbcq_queue_wait_freewords ctxt msg_size_align;
           if negb (ret =? 0) then mret ret
           else
             dbcq_write_msg ctxt (take (Z.to_nat msg_dwords) (db_cmds_dwords cmds))
               msg_size_align ;;
             (if is_gmugos (c_db_signal c)
              then emit (A_irq_gmugos dev_id (cq_db_signal dbcq - HGSL_DB_SIGNAL_GMU_GOS_0)
                           (cq_irq_bit_idx dbcq))
              else if is_global_db (c_tcsr_idx c)
              then tcsr_ring_global_db (c_tcsr_idx c) (cq_irq_bit_idx dbcq)
              else gmu_ring_local_db (cq_irq_bit_idx dbcq)) ;;
             mret 0);
  mret (send_ret ret).

(** ** The memory of a context queue *)

Definition HGSL_CTXT_QUEUE_BODY_DWSIZE : Z := 256.
Definition HGSL_CTXT_QUEUE_BODY_OFFSET : Z := 48.
Definition HGSL_CTXT_QUEUE_INDIRECT_IB_DWSIZE : Z := 6000.
Definition HGSL_CTXT_QUEUE_INDIRECT_IB_SIZE : Z := 24000.
Definition HGSL_CTXT_QUEUE_INDIRECT_IB_OFFSET : Z :=
  ALIGN (HGSL_CTXT_QUEUE_BODY_OFFSET + HGSL_CTXT_QUEUE_BODY_DWSIZE * 4) 16.

Definition fresh_ctx_queue : ctx_queue :=
  mk_ctx_queue HGSL_CTXT_QUEUE_BODY_DWSIZE 0 0
    (replicate (Z.to_nat HGSL_CTXT_QUEUE_BODY_DWSIZE) 0)
    (replicate (Z.to_nat HGSL_CTXT_QUEUE_INDIRECT_IB_DWSIZE) 0).

Definition hgsl_dbcq_close (ctxt : ptr) : M world unit :=
  update w_contexts ctxt (λ c, c <| c_dbcq := None |>).

(** The allocation and the mapping of the queue's memory, its registration with the
    hypervisor; any failure closes the queue and is reported as -EPERM. *)
Definition hgsl_dbcq_open (ctxt : ptr) : M world Z :=
  c ← load w_contexts ctxt;
  match c_dbcq c with
  | None => mret (- EPERM)
  | Some dbcq =>
      match cq_queue dbcq with
      | Some _ => mret 0
      | None =>
          let err : M world Z := hgsl_dbcq_close ctxt ;; mret (- EPERM) in
          ret ← ask k_hyp_channel_get;
          if ret =? - EINTR then mret ret
          else if negb (ret =? 0) then err
          else
            node ← ask k_alloc;
            if negb node then err
            else
              ret ← ask k_queue_mem;
              if negb (ret =? 0) then err
              else
                ret ← ask k_vmap;
                if negb (ret =? 0) then err
                else
                  update_dbcq ctxt (λ q, q <| cq_queue := Some fresh_ctx_queue |>) ;;
                  '(ret, export_id) ← ask k_register_dbcq;
                  match export_id with
                  | Some id => update w_contexts ctxt (λ c, c <| c_dbcq_export_id := id |>)
                  | None => mret tt
                  end ;;
                  if negb (ret =? 0) then err else mret 0
      end
  end.

(** ** The buffer for indirect submissions *)

Inductive ibdesc_request :=
| HGSL_DBQ_IBDESC_REQUEST_ACQUIRE
| HGSL_DBQ_IBDESC_REQUEST_RELEASE.

Definition dbq_check_ibdesc_state (c : hgsl_context) (q : doorbell_queue)
    (request : ibdesc_request) : bool :=
  if negb (q_buf_inuse q) then false
  else
    match request with
    | HGSL_DBQ_IBDESC_REQUEST_RELEASE => c_context_id c =? q_ib_context_id q
    | HGSL_DBQ_IBDESC_REQUEST_ACQUIRE => true
    end.

Definition HGSL_DBQ_IBDESC_SHORT_WAIT_MSEC : Z := 5.
Definition HGSL_DBQ_IBDESC_LONG_WAIT_MSEC : Z := 30000.

(** The polling loop of dbq_wait_free_ibdesc: [ret] and [expired] as it leaves
    them.  [turns] bounds the turns; the time limit is read after each of them. *)
Fixpoint ibdesc_poll (turns : nat) (ctxt dbq : ptr) (start timeout : Z) :
  M world (Z * bool) :=
  q ← load w_dbq dbq;
  '(ret, expired) ← hgsl_check_shadow_timestamp ctxt GSL_TIMESTAMP_RETIRED (q_ib_timestamp q);
  let expired := default false expired in
  if negb (ret =? 0) || expired then mret (ret, expired)
  else
    interrupted ← msleep_interruptible;
    if interrupted : bool then mret (- EINTR, false)
    else
      now ← ask k_jiffies;
      match turns with
      | O => mret (ret, false)
      | S turns =>
          if now - start <? timeout then ibdesc_poll turns ctxt dbq start timeout
          else mret (ret, false)
      end.

Definition dbq_wait_free_ibdesc (turns : nat) (context : ptr) (request : ibdesc_request)
    (short_wait : bool) : M world Z :=
  c ← load w_contexts context;
  match c_dbq c with
  | None => mret 0
  | Some dbq =>
      q ← load w_dbq dbq;
      if negb (dbq_check_ibdesc_state c q request) then mret 0
      else
        ctxt ← hgsl_get_context GSL_HANDLE_DEV0 (q_ib_context_id q);
        match ctxt with
        | None => mret (- EINVAL)
        | Some p =>
            let timeout := k_msecs_to_jiffies
              (if short_wait then HGSL_DBQ_IBDESC_SHORT_WAIT_MSEC
               else HGSL_DBQ_IBDESC_LONG_WAIT_MSEC) in
            start ← ask k_jiffies;
            '(ret, expired) ← ibdesc_poll turns p dbq start timeout;
            ret ← (if expired : bool
                   then update w_dbq dbq (λ q, q <| q_buf_inuse := false |>) ;; mret ret
                   else mret (if ret =? 0 then - EAGAIN else ret));
            hgsl_put_context (Some p) ;;
            mret ret
        end
  end.

(** list_del of the wait that was added: the first one with its contents. *)
Fixpoint remove_wait (x : ptr * Z) (l : list (ptr * Z)) : list (ptr * Z) :=
  match l with
  | [] => []
  | y :: l' => if bool_decide (x = y) then l' else y :: remove_wait x l'
  end.

(** int hgsl_wait_timestamp, on the context and the timestamp of its parameter. *)
Definition hgsl_use_gmugos_or_global_dbq (c : hgsl_context) : bool :=
  bool_decide (c_shadow_ts c ≠ None) &&
  (bool_decide (c_dbq c ≠ None) || bool_decide (c_dbcq c ≠ None)) &&
  (is_global_db (c_tcsr_idx c) || is_gmugos (c_db_signal c)).

Definition hgsl_ctxt_use_dbq (c : hgsl_context) : bool :=
  (bool_decide (c_dbq c ≠ None) || bool_decide (c_dbcq c ≠ None)) &&
  (bool_decide (c_shadow_ts c ≠ None) || negb (is_global_db (c_tcsr_idx c))).

Definition hgsl_wait_timestamp (ctxt : ptr) (timestamp : Z) : M world Z :=
  c ← load w_contexts ctxt;
  if negb (hgsl_use_gmugos_or_global_dbq c) then mret (- EPERM)
  else
    ok ← ask k_alloc;
    if negb ok then mret (- ENOMEM)
    else
      modify (λ w, w <| w_active_wait ::= (λ l, l ++ [(ctxt, timestamp)]) |>) ;;
      ret ← wait_event_interruptible_timeout
        (retired ← _timestamp_retired ctxt timestamp;
         c ← load w_contexts ctxt;
         mret (retired || c_in_destroy c));
      modify (λ w, w <| w_active_wait ::= remove_wait (ctxt, timestamp) |>) ;;
      mret (if ret =? 0 then - ETIMEDOUT
            else if ret =? - ERESTARTSYS then - EINTR else 0).

Definition dbcq_get_free_indirect_ib_buffer (ctxt : ptr) (ts timeout_in_ms : Z) :
  M world Z :=
  dbcq ← get_dbcq ctxt;
  let claim (ret : Z) : M world Z :=
    update_dbcq ctxt (λ q, q <| cq_indirect_ib_ts := ts |>) ;; mret ret in
  if cq_indirect_ib_ts dbcq =? 0 then claim 0
  else
    '(ret, expired) ← hgsl_check_shadow_timestamp ctxt GSL_TIMESTAMP_RETIRED
                        (cq_indirect_ib_ts dbcq);
    if (ret =? 0) && default false expired then claim 0
    else
      ret ← (if negb (ret =? 0) then ask k_hyp_wait
             else if negb (timeout_in_ms =? 0)
             then hgsl_wait_timestamp ctxt (cq_indirect_ib_ts dbcq)
             else mret ret);
      if negb (ret =? 0) then mret (send_ret ret) else claim ret.

(** ** Issuing a command *)

Definition CMDBATCH_INDIRECT : Z := 0x200.
Definition HGSL_DBCQ_IBDESC_SHORT_WAIT_MSEC : Z := 5000.
Definition IB_DESC_SIZE : Z := 12.

(** A killed context: the timestamp retires at once. *)
Definition retire_killed (ctxt : ptr) (timestamp : Z) : M world unit :=
  set_context_shadow_ts ctxt GSL_TIMESTAMP_CONSUMED timestamp ;;
  set_context_shadow_ts ctxt GSL_TIMESTAMP_RETIRED timestamp ;;
  c ← load w_contexts ctxt;
  _signal_contexts (c_devhandle c).

(** hgsl_db_next_timestamp when the caller wants the queued timestamp updated. *)
Definition next_timestamp_if (update_queued_ts : bool) (ctxt : ptr) (timestamp : Z) :
  M world (Z * Z) :=
  c ← load w_contexts ctxt;
  mret (if update_queued_ts then hgsl_db_next_timestamp c timestamp else (0, timestamp)).

Definition hgsl_dbcq_issue_cmd (ctxt : ptr) (num_ibs gmu_cmd_flags timestamp : Z)
    (ib_descs : list hgsl_fw_ib_desc) (user_profile_gpuaddr : Z)
    (update_queued_ts : bool) : M world (Z * Z) :=
  ret ← hgsl_dbcq_open ctxt;
  if negb (ret =? 0) then mret (ret, timestamp)
  else
    dbcq ← get_dbcq ctxt;
    let seq_no := cq_seq_num dbcq in
    update_dbcq ctxt (λ q, q <| cq_seq_num ::= (λ n, u32 (n + 1)) |>) ;;
    if (ECP_MAX_NUM_IB1 <? num_ibs) ||
       (HGSL_CTXT_QUEUE_INDIRECT_IB_SIZE <? num_ibs * IB_DESC_SIZE)
    then mret (- EINVAL, timestamp)
    else
      let full := if 0 <? num_ibs then MSG_ISSUE_INF_SZ + MSG_ISSUE_IBS_SZ num_ibs
                  else MSG_ISSUE_INF_SZ in
      let is_batch_ibdesc :=
        (HGSL_CTXT_QUEUE_BODY_DWSIZE <=? ALIGN full 4) ||
        (Z.shiftr MSG_SZ_MASK MSG_SZ_SHIFT <? ALIGN full 4) in
      let msg_dwords := if is_batch_ibdesc then MSG_ISSUE_INF_SZ else full in
      '(ret, ts) ← next_timestamp_if update_queued_ts ctxt timestamp;
      if negb (ret =? 0) then mret (ret, ts)
      else
        ok ← ask k_alloc;
        if negb ok then mret (- ENOMEM, ts)
        else
          c ← load w_contexts ctxt;
          ret ← (if is_batch_ibdesc
                 then dbcq_get_free_indirect_ib_buffer ctxt ts HGSL_DBCQ_IBDESC_SHORT_WAIT_MSEC
                 else mret 0);
          if negb (ret =? 0) then mret (ret, ts)
          else
            (if is_batch_ibdesc
             then
               h ← get_ctx_queue ctxt;
               mem ← of_option (memcpy (h_indirect h) 0 (ib_descs ≫= ib_desc_dwords));
               update_ctx_queue ctxt (λ h, h <| h_indirect := mem |>)
             else mret tt) ;;
            let cmds := mk_db_cmds (HFI_ISSUE_IB_HEADER msg_dwords seq_no) (c_context_id c)
              (if is_batch_ibdesc then Z.lor gmu_cmd_flags CMDBATCH_INDIRECT
               else gmu_cmd_flags) ts user_profile_gpuaddr num_ibs
              (if is_batch_ibdesc
               then u32 (cq_header_gmuaddr dbcq + HGSL_CTXT_QUEUE_INDIRECT_IB_OFFSET) else 0)
              (if is_batch_ibdesc then [] else ib_descs) in
            ret ← (if c_is_killed c then retire_killed ctxt ts ;; mret 0
                   else dbcq_send_msg ctxt msg_dwords cmds);
            (if ret =? 0
             then
               when update_queued_ts
                 (update w_contexts ctxt (λ c, c <| c_queued_ts := ts |>)) ;;
               when (negb is_batch_ibdesc)
                 (dbcq_get_free_indirect_ib_buffer ctxt 0 0 ;; mret tt)
             else mret tt) ;;
            mret (ret, ts).

End submission.

Section issue.
Context `{K : Kernel}.

(** The part of hgsl_db_issue_cmd that uses the doorbell queue [dbq]; [turns]
    bounds the polls of the buffer for indirect submissions. *)
Definition dbq_issue_cmd (turns : nat) (ctxt dbq : ptr)
    (num_ibs gmu_cmd_flags timestamp : Z) (ib_descs : list hgsl_fw_ib_desc)
    (user_profile_gpuaddr : Z) (update_queued_ts : bool) : M world (Z * Z) :=
  update w_dbq dbq (λ q, q <| q_seq_num ::= (λ n, u32 (n + 1)) |>) ;;
  q ← load w_dbq dbq;
  let seq_no := q_seq_num q in
  if (UINT_MAX / 3 <? num_ibs) || (UINT_MAX - MSG_ISSUE_IBS_SZ num_ibs <? MSG_ISSUE_INF_SZ)
  then mret (- EINVAL, timestamp)
  else
    let full := MSG_ISSUE_INF_SZ + MSG_ISSUE_IBS_SZ num_ibs in
    if ECP_MAX_NUM_IB1 <? num_ibs then mret (- EINVAL, timestamp)
    else
      let is_batch_ibdesc :=
        (q_dwords q <=? ALIGN full 4) || (Z.shiftr MSG_SZ_MASK MSG_SZ_SHIFT <? ALIGN full 4) in
      if is_batch_ibdesc && (q_ibdesc_max_size q <? Z.shiftl (MSG_ISSUE_IBS_SZ num_ibs) 2)
      then mret (- EINVAL, timestamp)
      else
        let msg_dwords := if is_batch_ibdesc then MSG_ISSUE_INF_SZ else full in
        '(ret, ts) ← next_timestamp_if update_queued_ts ctxt timestamp;
        if negb (ret =? 0) then mret (ret, ts)
        else
          ok ← ask k_alloc;
          if negb ok then mret (- ENOMEM, ts)
          else
            c ← load w_contexts ctxt;
            ret ← (if is_batch_ibdesc
                   then dbq_wait_free_ibdesc turns ctxt HGSL_DBQ_IBDESC_REQUEST_ACQUIRE true
                   else mret 0);
            if negb (ret =? 0) then mret (ret, ts)
            else
              (if is_batch_ibdesc
               then
                 q ← load w_dbq dbq;
                 mem ← of_option (memcpy (q_mem q)
                   (Z.to_nat HGSL_DBQ_IBDESC_BASE_OFFSET_IN_DWORD) (ib_descs ≫= ib_desc_dwords));
                 store w_dbq dbq (q <| q_mem := mem |> <| q_buf_inuse := true |>
                   <| q_ib_context_id := c_context_id c |> <| q_ib_timestamp := ts |>)
               else mret tt) ;;
              let cmds := mk_db_cmds (HFI_ISSUE_IB_HEADER msg_dwords seq_no) (c_context_id c)
                (if is_batch_ibdesc then Z.lor gmu_cmd_flags CMDBATCH_INDIRECT
                 else gmu_cmd_flags) ts user_profile_gpuaddr num_ibs
                (if is_batch_ibdesc
                 then u32 (q_gmuaddr q + Z.shiftl HGSL_DBQ_IBDESC_BASE_OFFSET_IN_DWORD 2) else 0)
                (if is_batch_ibdesc then [] else ib_descs) in
              ret ← (if c_is_killed c then retire_killed ctxt ts ;; mret 0
                     else db_send_msg ctxt msg_dwords cmds);
              when ((ret =? 0) && update_queued_ts)
                (update w_contexts ctxt (λ c, c <| c_queued_ts := ts |>)) ;;
              mret (ret, ts).

(** The context queue first; without one, the doorbell queue. *)
Definition db_issue_cmd (turns : nat) (ctxt : ptr) (num_ibs gmu_cmd_flags timestamp : Z)
    (ib_descs : list hgsl_fw_ib_desc) (user_profile_gpuaddr : Z)
    (update_queued_ts : bool) : M world (Z * Z) :=
  c ← load w_contexts ctxt;
  '(ret, ts) ← hgsl_dbcq_issue_cmd ctxt num_ibs gmu_cmd_flags timestamp ib_descs
                 user_profile_gpuaddr update_queued_ts;
  if negb (ret =? - EPERM) then mret (ret, ts)
  else
    match c_dbq c with
    | None => mret (- EPERM, ts)
    | Some dbq => dbq_issue_cmd turns ctxt dbq num_ibs gmu_cmd_flags ts ib_descs
                    user_profile_gpuaddr update_queued_ts
    end.

End issue.


(** ** What the properties say of a doorbell queue *)

Definition with_dbq (w : world) (p : ptr) (q : doorbell_queue) : world :=
  w <| w_dbq ::= <[p := q]> |>.

Definition write_index : nat := 384.
Definition read_index : nat := 385.
Definition hard_reset_word : nat := 1408.
Definition busy_word : nat := 1409.
Definition context_word (ctx_id : Z) (offset : nat) : nat := (512 + 3 * Z.to_nat ctx_id + offset)%nat.

(** A mapped queue: the ring of [size] dwords lies in the area of the IBs, in front
    of the indices; the indices are inside the ring. *)
Record dbq_ok (q : doorbell_queue) (size wptr rptr : nat) : Prop := {
  dq_size : q_dwords q = Z.of_nat size ∧ (0 < size)%nat;
  dq_ring : (q_data q + size ≤ write_index)%nat;
  dq_mapped : (1536 ≤ length (q_mem q))%nat;
  dq_wptr : q_mem q !! write_index = Some (Z.of_nat wptr) ∧ (wptr < size)%nat;
  dq_rptr : q_mem q !! read_index = Some (Z.of_nat rptr) ∧ (rptr < size)%nat }.

(** The doorbell db_send_msg rings. *)
Definition doorbell (tcsr_idx dbq_idx : Z) : list action :=
  if is_global_db tcsr_idx
  then if tcsr_idx <? HGSL_TCSR_NUM
       then [A_ring_global_db tcsr_idx (GLB_DB_SRC_ISSUEIB_IRQ_ID_0 + dbq_idx)] else []
  else [A_ring_local_db dbq_idx].

(** * Lemmas *)

(** ** The submission path keeps to its frame *)

Section dispatch_frame.
Context `{K : Kernel}.

#[export] Instance frames_dbq_get_state p m i o :
  Frames disp_frame (hgsl_dbq_get_state_info p m i o).
Proof. framed hgsl_dbq_get_state_info. Qed.

#[export] Instance frames_dbq_set_state p m i o v :
  Frames disp_frame (hgsl_dbq_set_state_info p m i o v).
Proof. framed hgsl_dbq_set_state_info. Qed.

#[export] Instance frames_queue_freedwords p : Frames disp_frame (db_queue_freedwords p).
Proof. framed db_queue_freedwords. Qed.

#[export] Instance frames_get_busy p : Frames disp_frame (db_get_busy_state p).
Proof. framed db_get_busy_state. Qed.

#[export] Instance frames_set_busy p b : Frames disp_frame (db_set_busy_state p b).
Proof. framed db_set_busy_state. Qed.

#[export] Instance frames_hard_reset p : Frames disp_frame (hard_reset_requested p).
Proof. framed hard_reset_requested. Qed.

#[export] Instance frames_msleep : Frames disp_frame msleep_interruptible.
Proof. framed msleep_interruptible. Qed.

#[export] Instance frames_wait_freewords_loop n p s :
  Frames disp_frame (wait_freewords_loop n p s).
Proof. induction n; cbn [wait_freewords_loop]; frames_tac. Qed.

#[export] Instance frames_wait_freewords p s :
  Frames disp_frame (db_queue_wait_freewords p s).
Proof. framed db_queue_wait_freewords. Qed.

#[export] Instance frames_get_dbcq p : Frames disp_frame (get_dbcq p).
Proof. framed get_dbcq. Qed.

#[export] Instance frames_update_dbcq p f : Frames disp_frame (update_dbcq p f).
Proof. framed update_dbcq. Qed.

#[export] Instance frames_get_ctx_queue p : Frames disp_frame (get_ctx_queue p).
Proof. framed get_ctx_queue. Qed.

#[export] Instance frames_update_ctx_queue p f : Frames disp_frame (update_ctx_queue p f).
Proof. framed update_ctx_queue. Qed.

#[export] Instance frames_context_freedwords p :
  Frames disp_frame (db_context_queue_freedwords p).
Proof. framed db_context_queue_freedwords. Qed.

#[export] Instance frames_dbcq_wait_loop n p s : Frames disp_frame (dbcq_wait_loop n p s).
Proof. induction n; cbn [dbcq_wait_loop]; frames_tac. Qed.

#[export] Instance frames_wait_hard_reset n p : Frames disp_frame (wait_hard_reset n p).
Proof. induction n; cbn [wait_hard_reset]; frames_tac. Qed.

#[export] Instance frames_db_write_msg p m c n : Frames disp_frame (db_write_msg p m c n).
Proof. framed db_write_msg. Qed.

#[export] Instance frames_ring_global i b : Frames disp_frame (tcsr_ring_global_db i b).
Proof. framed tcsr_ring_global_db. Qed.

#[export] Instance frames_ring_local v : Frames disp_frame (gmu_ring_local_db v).
Proof. framed gmu_ring_local_db. Qed.

#[export] Instance frames_db_send_msg p n c : Frames disp_frame (db_send_msg p n c).
Proof. framed db_send_msg. Qed.

#[export] Instance frames_dbcq_write_msg p m n : Frames disp_frame (dbcq_write_msg p m n).
Proof. framed dbcq_write_msg. Qed.

#[export] Instance frames_dbcq_send_msg p n c : Frames disp_frame (dbcq_send_msg p n c).
Proof. unfold dbcq_send_msg, dbcq_queue_wait_freewords. frames_tac. Qed.

#[export] Instance frames_dbcq_close p : Frames disp_frame (hgsl_dbcq_close p).
Proof. framed hgsl_dbcq_close. Qed.

#[export] Instance frames_dbcq_open p : Frames disp_frame (hgsl_dbcq_open p).
Proof. framed hgsl_dbcq_open. Qed.

#[export] Instance frames_ibdesc_poll n c q s t : Frames disp_frame (ibdesc_poll n c q s t).
Proof. induction n; cbn [ibdesc_poll]; frames_tac. Qed.

#[export] Instance frames_wait_free_ibdesc n c r s :
  Frames disp_frame (dbq_wait_free_ibdesc n c r s).
Proof. framed dbq_wait_free_ibdesc. Qed.

#[export] Instance frames_retire_killed c t : Frames disp_frame (retire_killed c t).
Proof. framed retire_killed. Qed.

#[export] Instance frames_next_timestamp_if u c t :
  Frames disp_frame (next_timestamp_if u c t).
Proof. framed next_timestamp_if. Qed.

#[export] Instance frames_timestamp_retired c t : Frames disp_frame (_timestamp_retired c t).
Proof. unfold _timestamp_retired, get_context_retired_ts. frames_tac. Qed.

#[export] Instance frames_dbq_issue_cmd n c q i f t d u q' :
  Frames disp_frame (dbq_issue_cmd n c q i f t d u q').
Proof. framed dbq_issue_cmd. Qed.

(** What the other threads do while one waits. *)
Context (interfere_frames : ∀ n w, disp_frame w (k_interfere n w)).

#[local] Instance frames_wait_interfere condition :
  Frames disp_frame condition →
  Frames disp_frame (wait_event_interruptible_timeout condition).
Proof. intros H. by apply frames_wait. Qed.

#[local] Instance frames_wait_timestamp c t : Frames disp_frame (hgsl_wait_timestamp c t).
Proof. framed hgsl_wait_timestamp. Qed.

#[local] Instance frames_indirect_buffer c t n :
  Frames disp_frame (dbcq_get_free_indirect_ib_buffer c t n).
Proof. framed dbcq_get_free_indirect_ib_buffer. Qed.

#[local] Instance frames_dbcq_issue_cmd c i f t d u q :
  Frames disp_frame (hgsl_dbcq_issue_cmd c i f t d u q).
Proof. framed hgsl_dbcq_issue_cmd. Qed.

#[local] Instance frames_db_issue_cmd n c i f t d u q :
  Frames disp_frame (db_issue_cmd n c i f t d u q).
Proof. framed db_issue_cmd. Qed.

(** The dispatcher's interface is implemented by this file. *)
Definition doorbell_issue (turns : nat) : IssueCmd :=
  Build_IssueCmd (λ _, db_issue_cmd turns) (λ _, frames_db_issue_cmd turns).

End dispatch_frame.

(** ** The shared words of a doorbell queue *)

Section words.
Context `{K : Kernel}.

Lemma with_dbq_lookup w p q : w_dbq (with_dbq w p q) !! p = Some q.
Proof. apply lookup_insert_eq. Qed.

Lemma with_dbq_twice w p q q' : with_dbq (with_dbq w p q) p q' = with_dbq w p q'.
Proof. unfold with_dbq. cbn. by rewrite insert_insert_eq. Qed.

Lemma get_state_run w p q m i o k v :
  w_dbq w !! p = Some q → Z.to_nat (get_state_index m i o) = k → q_mem q !! k = Some v →
  hgsl_dbq_get_state_info p m i o w = Some (v, w).
Proof.
  intros Hq Hk Hv. unfold hgsl_dbq_get_state_info. run_load Hq.
  by rewrite Hk, Hv.
Qed.

Lemma set_state_run w p q m i o k v :
  w_dbq w !! p = Some q → Z.to_nat (set_state_index m i o) = k → (k < length (q_mem q))%nat →
  hgsl_dbq_set_state_info p m i o v w =
    Some (tt, with_dbq w p (q <| q_mem ::= <[k := v]> |>)).
Proof.
  intros Hq Hk Hl. unfold hgsl_dbq_set_state_info. run_load Hq. cbv zeta. rewrite Hk.
  destruct (Nat.ltb_spec k (length (q_mem q))); [done|lia].
Qed.

Lemma set_state_index_context m ctx_id o :
  m = HGSL_DBQ_METADATA_CONTEXT_INFO → 0 ≤ ctx_id →
  Z.to_nat (set_state_index m ctx_id (Z.of_nat o)) = context_word ctx_id o.
Proof.
  intros -> Hc. unfold set_state_index, context_word, HGSL_DBQ_CONTEXT_INFO_BASE_OFFSET_IN_DWORD,
    HGSL_DBQ_METADATA_CTXT_TOTAL_ENTITY_NUM. lia.
Qed.

Lemma freedwords_run w p q size wptr rptr :
  w_dbq w !! p = Some q → dbq_ok q size wptr rptr →
  db_queue_freedwords p w =
    Some (ring_freedwords (Z.of_nat size) (Z.of_nat wptr) (Z.of_nat rptr), w).
Proof.
  intros Hq [[Hs Hs0] ? ? [Hw ?] [Hr ?]]. unfold db_queue_freedwords.
  rewrite (bind_run _ _ w (Z.of_nat wptr) w)
    by (by apply (get_state_run w p q _ _ _ write_index)).
  rewrite (bind_run _ _ w (Z.of_nat rptr) w)
    by (by apply (get_state_run w p q _ _ _ read_index)).
  run_load Hq. rewrite Hs. by destruct (Z.eqb_spec (Z.of_nat size) 0); [lia|].
Qed.

(** Writing a word behind the ring keeps the queue in order. *)
Lemma dbq_ok_set q size wptr rptr k v :
  dbq_ok q size wptr rptr → (read_index < k)%nat →
  dbq_ok (q <| q_mem ::= <[k := v]> |>) size wptr rptr.
Proof.
  unfold read_index. intros [? ? ? [] []] Hk. unfold write_index, read_index in *.
  split; cbn; unfold write_index, read_index; rewrite ?length_insert,
    ?list_lookup_insert_ne by lia; auto.
Qed.

Lemma busy_run w p q v :
  w_dbq w !! p = Some q → (1536 ≤ length (q_mem q))%nat →
  db_set_busy_state p v w = Some (tt, with_dbq w p (q <| q_mem ::= <[busy_word := v]> |>)).
Proof. intros Hq Hl. apply set_state_run; [done|done|]. unfold busy_word. lia. Qed.

(** Dwords behind the ring are none of the ring's. *)
Lemma ring_appended_words q size wptr rptr mem n msg k v :
  dbq_ok q size wptr rptr → (write_index ≤ k)%nat →
  ring_appended (q_mem q) mem (q_data q) size rptr wptr n msg →
  ring_appended (q_mem q) (<[k := v]> mem) (q_data q) size rptr wptr n msg.
Proof.
  intros [[_ Hs] Hr _ _ _] Hk (pad & Hl & E). exists pad. split; [done|]. rewrite <- E.
  apply ring_contents_frame; [done|]. intros i Hi.
  rewrite list_lookup_insert_ne; [done|]. unfold write_index in *. lia.
Qed.

Definition db_write_msg_mem (mem : list Z) (windex : nat) (cmds : hgsl_db_cmds) : list Z :=
  <[context_word (dc_ctx_id cmds) 1 := dc_timestamp cmds]>
    (<[context_word (dc_ctx_id cmds) 0 := dc_ctx_id cmds]>
       (<[write_index := Z.of_nat windex]> mem)).

Lemma db_write_msg_exec w p q size wptr rptr msg cmds n mem :
  w_dbq w !! p = Some q → dbq_ok q size wptr rptr →
  0 ≤ dc_ctx_id cmds < HGSL_CONTEXT_NUM → (n < size)%nat → length mem = length (q_mem q) →
  ring_write (q_mem q) (q_data q) size wptr msg = Some mem →
  db_write_msg p msg cmds (Z.of_nat n) w =
    Some (tt, with_dbq w p (q <| q_mem := db_write_msg_mem mem ((wptr + n) mod size) cmds |>)).
Proof.
  intros Hq [[Hs Hs0] Hr Hm [Hw Hw'] [Hrp Hr']] Hc Hn Hl E.
  unfold HGSL_CONTEXT_NUM in Hc. unfold write_index in Hr. unfold db_write_msg.
  rewrite (bind_run _ _ w (Z.of_nat wptr) w)
    by (by apply (get_state_run w p q _ _ _ write_index)).
  run_load Hq. rewrite Hs, !Nat2Z.id, E.
  rewrite (bind_run _ _ w mem w) by done.
  set (q1 := q <| q_mem := mem |>).
  rewrite (bind_run _ _ w tt (with_dbq w p q1)) by done.
  assert (Ei : u32 (Z.of_nat wptr + Z.of_nat n) mod Z.of_nat size =
               Z.of_nat ((wptr + n) mod size)).
  { rewrite u32_small by (unfold is_u32; lia). rewrite Nat2Z.inj_mod. f_equal. lia. }
  rewrite Ei. set (q2 := q1 <| q_mem ::= <[write_index := Z.of_nat ((wptr + n) mod size)]> |>).
  rewrite (bind_run _ _ _ tt (with_dbq w p q2)).
  2:{ rewrite (set_state_run _ p q1 _ _ _ write_index); [by rewrite with_dbq_twice|..].
      - apply with_dbq_lookup.
      - done.
      - cbn. unfold write_index. lia. }
  set (q3 := q2 <| q_mem ::= <[context_word (dc_ctx_id cmds) 0 := dc_ctx_id cmds]> |>).
  rewrite (bind_run _ _ _ tt (with_dbq w p q3)).
  2:{ rewrite (set_state_run _ p q2 _ _ _ (context_word (dc_ctx_id cmds) 0));
        [by rewrite with_dbq_twice|..].
      - apply with_dbq_lookup.
      - apply (set_state_index_context _ _ 0); [done|lia].
      - cbn. rewrite length_insert. unfold context_word. lia. }
  rewrite (set_state_run _ p q3 _ _ _ (context_word (dc_ctx_id cmds) 1));
    [by rewrite with_dbq_twice|..].
  - apply with_dbq_lookup.
  - apply (set_state_index_context _ _ 1); [done|lia].
  - cbn. rewrite !length_insert. unfold context_word. lia.
Qed.

(** What is in the words after the write. *)
Lemma db_write_msg_mem_ok q size wptr rptr mem n msg cmds :
  dbq_ok q size wptr rptr → 0 ≤ dc_ctx_id cmds < HGSL_CONTEXT_NUM →
  length mem = length (q_mem q) →
  (∀ j, (j < q_data q ∨ q_data q + size ≤ j)%nat → mem !! j = q_mem q !! j) →
  ring_appended (q_mem q) mem (q_data q) size rptr wptr n msg →
  let wptr' := ((wptr + n) mod size)%nat in
  let mem' := db_write_msg_mem mem wptr' cmds in
  dbq_ok (q <| q_mem := mem' |>) size wptr' rptr ∧
  ring_appended (q_mem q) mem' (q_data q) size rptr wptr n msg ∧
  mem' !! context_word (dc_ctx_id cmds) 0 = Some (dc_ctx_id cmds) ∧
  mem' !! context_word (dc_ctx_id cmds) 1 = Some (dc_timestamp cmds) ∧
  length mem' = length (q_mem q) ∧
  (∀ j, (hard_reset_word ≤ j)%nat → mem' !! j = q_mem q !! j).
Proof.
  intros Hq Hc Hl Hout Happ. unfold HGSL_CONTEXT_NUM in Hc.
  set (wptr' := ((wptr + n) mod size)%nat). cbv zeta. unfold db_write_msg_mem.
  pose proof Hq as [[Hs Hs0] Hr Hm [Hw Hw'] [Hrp Hr']].
  assert (Hb : (wptr' < size)%nat) by (apply Nat.mod_upper_bound; lia).
  unfold context_word, write_index, read_index, hard_reset_word in *.
  split; [|split; [|split; [|split; [|split]]]].
  - split; cbn; unfold write_index, read_index; rewrite ?length_insert, ?Hl; try done.
    + rewrite !list_lookup_insert_ne by lia. rewrite list_lookup_insert_eq by lia. done.
    + rewrite !list_lookup_insert_ne by lia. rewrite Hout by lia. done.
  - repeat (apply ring_appended_words; [done|unfold write_index; lia|]). done.
  - rewrite list_lookup_insert_ne by lia. apply list_lookup_insert_eq.
    rewrite length_insert. lia.
  - apply list_lookup_insert_eq. rewrite !length_insert. lia.
  - by rewrite !length_insert.
  - intros j Hj. rewrite !list_lookup_insert_ne by lia. apply Hout. lia.
Qed.

(** The waits when nothing holds them up. *)
Lemma wait_hard_reset_run n w p q :
  w_dbq w !! p = Some q → q_mem q !! hard_reset_word = Some 0 →
  wait_hard_reset n p w = Some (0, w).
Proof.
  intros Hq Hh. destruct n; cbn [wait_hard_reset];
    rewrite (bind_run _ _ w 0 w) by (by apply (get_state_run w p q _ _ _ hard_reset_word));
    done.
Qed.

Lemma wait_freewords_run w p q size wptr rptr n :
  w_dbq w !! p = Some q → dbq_ok q size wptr rptr → q_mem q !! hard_reset_word = Some 0 →
  n ≠ 0 → n ≤ ring_freedwords (Z.of_nat size) (Z.of_nat wptr) (Z.of_nat rptr) →
  db_queue_wait_freewords (Some p) n w =
    Some (0, with_dbq w p (q <| q_mem ::= <[busy_word := 1]> |>)).
Proof.
  intros Hq Hok Hh Hn Hf. unfold db_queue_wait_freewords.
  destruct (Z.eqb_spec n 0); [lia|]. cbn [wait_freewords_loop HGSL_QFREE_MAX_RETRY_COUNT].
  rewrite (bind_run _ _ w 0 w) by (by apply (get_state_run w p q _ _ _ hard_reset_word)).
  change (0 =? 1) with false. cbv iota.
  rewrite (bind_run _ _ w true (with_dbq w p (q <| q_mem ::= <[busy_word := 1]> |>))); [done|].
  rewrite (bind_run _ _ _ _ _ (freedwords_run w p q _ _ _ Hq Hok)).
  destruct (Z.leb_spec n (ring_freedwords (Z.of_nat size) (Z.of_nat wptr) (Z.of_nat rptr)));
    [|lia].
  rewrite (bind_run _ _ _ _ _ (busy_run w p q 1 Hq (dq_mapped _ _ _ _ Hok))). done.
Qed.

End words.

(** ** Sending through a doorbell queue *)

Section sending.
Context `{K : Kernel}.

Definition ring_bell (w : world) (tcsr_idx dbq_idx : Z) : world :=
  w <| w_trace ::= (λ t, t ++ doorbell tcsr_idx dbq_idx) |>.

Lemma doorbell_run w tcsr_idx dbq_idx :
  (if is_global_db tcsr_idx then tcsr_ring_global_db tcsr_idx dbq_idx
   else gmu_ring_local_db dbq_idx) w = Some (tt, ring_bell w tcsr_idx dbq_idx).
Proof.
  unfold ring_bell, doorbell, tcsr_ring_global_db, gmu_ring_local_db, emit, when.
  destruct (is_global_db tcsr_idx); [|done].
  destruct (tcsr_idx <? HGSL_TCSR_NUM); [done|].
  unfold mret, M_ret. do 2 f_equal. destruct w; cbn. by rewrite app_nil_r.
Qed.

(** The contents of the ring do not change with the words behind it. *)
Lemma ring_appended_before q size wptr rptr k v mem n msg :
  dbq_ok q size wptr rptr → (write_index ≤ k)%nat →
  ring_appended (<[k := v]> (q_mem q)) mem (q_data q) size rptr wptr n msg →
  ring_appended (q_mem q) mem (q_data q) size rptr wptr n msg.
Proof.
  intros [[_ Hs] Hr _ _ _] Hk (pad & Hl & E). exists pad. split; [done|]. rewrite E. f_equal.
  apply ring_contents_frame; [done|]. intros i Hi.
  rewrite list_lookup_insert_ne; [done|]. unfold write_index in *. lia.
Qed.

(** Waiting for room and writing: [q1] is the queue with the busy word set. *)
Lemma send_write_run w d q size wptr rptr cmds msg n :
  w_dbq w !! d = Some q → dbq_ok q size wptr rptr → q_mem q !! hard_reset_word = Some 0 →
  0 ≤ dc_ctx_id cmds < HGSL_CONTEXT_NUM → (length msg ≤ n)%nat → n ≠ 0%nat →
  Z.of_nat n ≤ ring_freedwords (Z.of_nat size) (Z.of_nat wptr) (Z.of_nat rptr) →
  let q1 := q <| q_mem ::= <[busy_word := 1]> |> in
  ∃ mem, db_queue_wait_freewords (Some d) (Z.of_nat n) w = Some (0, with_dbq w d q1) ∧
    db_write_msg d msg cmds (Z.of_nat n) (with_dbq w d q1) =
      Some (tt, with_dbq w d (q <| q_mem := mem |>)) ∧
    dbq_ok (q <| q_mem := mem |>) size ((wptr + n) mod size) rptr ∧
    ring_appended (q_mem q) mem (q_data q) size rptr wptr n msg ∧
    mem !! context_word (dc_ctx_id cmds) 0 = Some (dc_ctx_id cmds) ∧
    mem !! context_word (dc_ctx_id cmds) 1 = Some (dc_timestamp cmds) ∧
    length mem = length (q_mem q) ∧ mem !! hard_reset_word = Some 0.
Proof.
  intros Hq Hok Hh Hc Hl Hn Hf. pose proof Hok as [[Hs Hs0] Hr Hm [Hw Hw'] [Hrp Hr']].
  set (q1 := q <| q_mem ::= <[busy_word := 1]> |>).
  assert (Hok1 : dbq_ok q1 size wptr rptr)
    by (apply dbq_ok_set; [done|unfold busy_word, read_index; lia]).
  pose proof Hf as Hf'.
  rewrite ring_freedwords_used in Hf' by (unfold write_index in *; lia).
  destruct (ring_write_appends (q_mem q1) (q_data q1) size rptr wptr msg n)
    as (mem & E & L & A & _ & O); try (done || (cbn; unfold write_index in *; lia)).
  { cbn. rewrite length_insert. unfold write_index in *; lia. }
  destruct (db_write_msg_mem_ok q1 size wptr rptr mem n msg cmds)
    as (Ok & A' & C0 & C1 & L' & H'); [done..|].
  set (mem2 := db_write_msg_mem mem ((wptr + n) mod size) cmds) in *.
  exists mem2. split; [apply (wait_freewords_run w d q size wptr rptr); (done || lia)|].
  split.
  { rewrite (db_write_msg_exec _ _ q1 size wptr rptr _ _ _ mem);
      [by rewrite with_dbq_twice|..]; try done; [apply with_dbq_lookup | lia]. }
  split; [exact Ok|]. split.
  { apply (ring_appended_before _ _ _ _ busy_word 1); [done|unfold busy_word, write_index; lia|].
    exact A'. }
  split; [done|]. split; [done|]. split.
  - rewrite L'. cbn. by rewrite length_insert.
  - rewrite H' by done. cbn. rewrite list_lookup_insert_ne by done. done.
Qed.

End sending.

(** ** What waiting leaves alone *)

(** No doorbell rings, and the queues stay what they are but for their memory. *)
Definition waits (w w' : world) : Prop :=
  w_trace w' = w_trace w ∧
  ∀ p q, w_dbq w !! p = Some q →
    ∃ q', w_dbq w' !! p = Some q' ∧ q_dbq_idx q' = q_dbq_idx q.

#[export] Instance waits_preorder : PreOrder waits.
Proof.
  split.
  - intros w. split; eauto.
  - intros w1 w2 w3 [T1 Q1] [T2 Q2]. split; [congruence|]. intros p q Hq.
    destruct (Q1 _ _ Hq) as (q2 & Hq2 & E). destruct (Q2 _ _ Hq2) as (q3 & ? & ?).
    exists q3. split; congruence.
Qed.

Section waiting.
Context `{K : Kernel}.

#[export] Instance waits_tick : Frames waits tick.
Proof. intros w a w' [= <- <-]. split; eauto. Qed.

#[export] Instance waits_ask {A} (f : nat → A) : Frames waits (ask f).
Proof. unfold ask. frames_tac. Qed.

#[export] Instance waits_load {V} (proj : world → gmap ptr V) p : Frames waits (load proj p).
Proof. intros w a w' [_ ->]%load_Some. reflexivity. Qed.

#[export] Instance waits_gpu_step : Frames waits gpu_step.
Proof.
  unfold gpu_step. apply frames_bind; [apply _..|]. intros n. apply frames_modify.
  intros w. split; [done|]. intros p q Hq. cbn. rewrite map_lookup_imap, Hq.
  eexists; split; [done|]. done.
Qed.

#[export] Instance waits_msleep : Frames waits msleep_interruptible.
Proof. framed msleep_interruptible. Qed.

#[export] Instance waits_get_state p m i o : Frames waits (hgsl_dbq_get_state_info p m i o).
Proof. framed hgsl_dbq_get_state_info. Qed.

#[export] Instance waits_set_state p m i o v :
  Frames waits (hgsl_dbq_set_state_info p m i o v).
Proof.
  unfold hgsl_dbq_set_state_info. intros w a w' (q & w1 & [Hq ->]%load_Some & H)%bind_Some.
  cbv zeta in H. case_match; [|discriminate]. injection H as <- <-. split; [done|].
  intros p' q' Hq'. cbn. destruct (decide (p = p')) as [->|].
  - rewrite lookup_insert_eq. eexists; split; [done|]. cbn. congruence.
  - rewrite lookup_insert_ne by done. eauto.
Qed.

#[export] Instance waits_set_busy p b : Frames waits (db_set_busy_state p b).
Proof. framed db_set_busy_state. Qed.

#[export] Instance waits_freewords_loop n p s : Frames waits (wait_freewords_loop n p s).
Proof.
  induction n; cbn [wait_freewords_loop];
    unfold hard_reset_requested, db_get_busy_state, db_queue_freedwords; frames_tac.
Qed.

#[export] Instance waits_wait_freewords p s : Frames waits (db_queue_wait_freewords p s).
Proof. framed db_queue_wait_freewords. Qed.

#[export] Instance waits_hard_reset n p : Frames waits (wait_hard_reset n p).
Proof. induction n; cbn [wait_hard_reset]; unfold hard_reset_requested; frames_tac. Qed.

#[export] Instance waits_write_msg p m c n : Frames waits (db_write_msg p m c n).
Proof.
  unfold db_write_msg. apply frames_bind; [apply _..|]. intros wptr.
  intros w a w' (q & w1 & [Hq ->]%load_Some & H)%bind_Some.
  apply bind_Some in H as (mem & w1 & [_ ->]%of_option_Some & H).
  apply bind_Some in H as ([] & w1 & [= <-] & H).
  set (q1 := q <| q_mem := mem |>) in *.
  transitivity (with_dbq w p q1).
  { split; [done|]. intros p' q' Hq'. cbn. destruct (decide (p = p')) as [->|].
    - rewrite lookup_insert_eq. eexists; split; [done|]. cbn. congruence.
    - rewrite lookup_insert_ne by done. eauto. }
  revert H. apply (frames (R := waits)).
Qed.

(** The outcomes of the waits. *)
Lemma wait_hard_reset_ret n p w r w' :
  wait_hard_reset n p w = Some (r, w') → r = 0 ∨ r = - EINTR ∨ r = - ETIMEDOUT.
Proof.
  revert w. induction n as [|n IH]; intros w; cbn [wait_hard_reset]; intros H;
    inv_st; repeat case_match; inv_st; repeat case_match; inv_st; eauto.
Qed.

Lemma wait_freewords_ret n p s w r w' :
  wait_freewords_loop n p s w = Some (r, w') → r = 0 ∨ r = - EINTR ∨ r = - ETIMEDOUT.
Proof.
  revert w. induction n as [|n IH]; intros w; cbn [wait_freewords_loop]; intros H;
    apply bind_Some in H as (h & w1 & _ & H); apply bind_Some in H as ([] & w2 & _ & H);
    inv_st; eauto; repeat case_match; inv_st; eauto.
Qed.

End waiting.

(** * Properties *)

Section properties.
Context `{K : Kernel}.

(** C24. Sending a message through the doorbell queue when no reset is requested and
    the aligned message fits: the call succeeds without a fault, the reader finds
    the message behind what was waiting, the write index moves by the aligned
    size, the context's words hold its id and the timestamp, the busy flag is
    clear again, the doorbell of the queue has rung once, and nothing else of the
    driver's state has changed. *)
Theorem db_send_msg_delivers p d w c q size wptr rptr cmds msg_dwords :
  w_contexts w !! p = Some c → c_dbq c = Some d → w_dbq w !! d = Some q →
  dbq_ok q size wptr rptr → q_mem q !! hard_reset_word = Some 0 →
  0 ≤ dc_ctx_id cmds < HGSL_CONTEXT_NUM → 0 < msg_dwords →
  ALIGN msg_dwords 4 ≤ ring_freedwords (Z.of_nat size) (Z.of_nat wptr) (Z.of_nat rptr) →
  let n := Z.to_nat (ALIGN msg_dwords 4) in
  let msg := take (Z.to_nat msg_dwords) (db_cmds_dwords cmds) in
  ∃ mem, db_send_msg p msg_dwords cmds w =
      Some (0, ring_bell (with_dbq w d (q <| q_mem := mem |>)) (c_tcsr_idx c) (q_dbq_idx q)) ∧
    dbq_ok (q <| q_mem := mem |>) size ((wptr + n) mod size) rptr ∧
    ring_appended (q_mem q) mem (q_data q) size rptr wptr n msg ∧
    mem !! context_word (dc_ctx_id cmds) 0 = Some (dc_ctx_id cmds) ∧
    mem !! context_word (dc_ctx_id cmds) 1 = Some (dc_timestamp cmds) ∧
    mem !! busy_word = Some 0.
Proof.
  intros Hc Hd Hq Hok Hh Hid Hm Hf. cbv zeta.
  destruct (ALIGN_spec msg_dwords 4 ltac:(lia)) as [Ha _].
  set (n := Z.to_nat (ALIGN msg_dwords 4)).
  assert (En : ALIGN msg_dwords 4 = Z.of_nat n) by (unfold n; lia).
  set (msg := take (Z.to_nat msg_dwords) (db_cmds_dwords cmds)).
  set (q0 := q <| q_mem ::= <[busy_word := 1]> |>). set (w0 := with_dbq w d q0).
  assert (Hok0 : dbq_ok q0 size wptr rptr)
    by (apply dbq_ok_set; [done|unfold busy_word, read_index; lia]).
  destruct (send_write_run w0 d q0 size wptr rptr cmds msg n)
    as (mem & E1 & E2 & Ok & App & C0 & C1 & L & Hh'); try done.
  { apply with_dbq_lookup. }
  { cbn. by rewrite list_lookup_insert_ne by done. }
  { unfold msg. rewrite length_take. lia. }
  { lia. }
  { by rewrite <- En. }
  unfold w0 in E1, E2. rewrite with_dbq_twice in E1, E2.
  set (q1 := q0 <| q_mem ::= <[busy_word := 1]> |>) in *.
  set (q2 := q0 <| q_mem := mem |>) in *. rewrite with_dbq_twice in E2.
  exists (<[busy_word := 0]> mem). split.
  - unfold db_send_msg. run_load Hc. rewrite Hd.
    rewrite (bind_run _ _ w d w) by done.
    rewrite (bind_run _ _ _ _ _ (wait_hard_reset_run _ _ _ _ Hq Hh)). cbn [Z.eqb negb].
    rewrite (bind_run _ _ _ 0 (ring_bell (with_dbq w d q2) (c_tcsr_idx c) (q_dbq_idx q))).
    2:{ rewrite (bind_run _ _ _ _ _ (busy_run w d q 1 Hq (dq_mapped _ _ _ _ Hok))).
        fold q0. rewrite En, (bind_run _ _ _ _ _ E1). cbn [Z.ltb Z.compare]. fold msg.
        rewrite (bind_run _ _ _ _ _ E2). run_load (with_dbq_lookup w d q2).
        by rewrite (bind_run _ _ _ _ _ (doorbell_run _ _ _)). }
    set (w2 := ring_bell (with_dbq w d q2) (c_tcsr_idx c) (q_dbq_idx q)).
    assert (Hq2 : w_dbq w2 !! d = Some q2) by apply with_dbq_lookup.
    rewrite (bind_run _ _ _ _ _ (busy_run w2 d q2 0 Hq2 (dq_mapped _ _ _ _ Ok))).
    change (send_ret 0) with 0. unfold mret, M_ret. do 2 f_equal. unfold w2, ring_bell, with_dbq. cbn.
    by rewrite insert_insert_eq.
  - split; [|split; [|split; [|split]]].
    + apply (dbq_ok_set q2); [exact Ok|unfold busy_word, read_index; lia].
    + apply (ring_appended_before q size wptr rptr busy_word 1);
        [done|unfold busy_word, write_index; lia|].
      apply (ring_appended_words q0); [done|unfold busy_word, write_index; lia|exact App].
    + rewrite list_lookup_insert_ne; [done|].
      unfold busy_word, context_word, HGSL_CONTEXT_NUM in *. lia.
    + rewrite list_lookup_insert_ne; [done|].
      unfold busy_word, context_word, HGSL_CONTEXT_NUM in *. lia.
    + apply list_lookup_insert_eq. destruct Ok as [_ _ Hlen _ _]. cbn in Hlen.
      unfold busy_word. lia.
Qed.

(** On every run of db_send_msg, whatever the GMU, signals and resets do
    meanwhile: it succeeds, was interrupted, or asks the caller to try again (a
    time-out never gets out as such); the doorbell rings exactly when it
    succeeded; and the busy flag is clear when it returns. *)
Theorem db_send_msg_outcome p d w c q cmds msg_dwords ret w' :
  w_contexts w !! p = Some c → c_dbq c = Some d → w_dbq w !! d = Some q →
  db_send_msg p msg_dwords cmds w = Some (ret, w') →
  ret ∈ [0; - EINTR; - EAGAIN] ∧
  w_trace w' = w_trace w ++ (if ret =? 0 then doorbell (c_tcsr_idx c) (q_dbq_idx q) else []) ∧
  ∃ q', w_dbq w' !! d = Some q' ∧ q_mem q' !! busy_word = Some 0.
Proof.
  intros Hc Hd Hq H. unfold db_send_msg in H.
  apply bind_Some in H as (c' & w1 & [Hc' ->]%load_Some & H). rewrite Hc in Hc'. injection Hc' as <-.
  rewrite Hd in H. apply bind_Some in H as (? & w1 & [= <- <-] & H).
  apply bind_Some in H as (reset & w1 & H1 & H).
  pose proof (wait_hard_reset_ret _ _ _ _ _ H1) as Hreset.
  apply frames in H1 as [T1 Q1]. destruct (Q1 _ _ Hq) as (q1 & Hq1 & E1).
  apply bind_Some in H as (r & w2 & H2 & H).
  assert (B : (r = 0 ∨ r = - EINTR ∨ r = - ETIMEDOUT) ∧
    w_trace w2 = w_trace w ++ (if r =? 0 then doorbell (c_tcsr_idx c) (q_dbq_idx q) else [])).
  { destruct (reset =? 0) eqn:Er; cbn [negb] in H2.
    2:{ inv_run. destruct Hreset as [->| [->| ->]]; [done| |];
        rewrite T1, app_nil_r; eauto. }
    apply bind_Some in H2 as ([] & w3 & H3 & H2). apply frames in H3 as [T3 Q3].
    destruct (Q3 _ _ Hq1) as (q3 & Hq3 & E3).
    apply bind_Some in H2 as (r' & w4 & H4 & H2).
    assert (Hr' : r' = 0 ∨ r' = - EINTR ∨ r' = - ETIMEDOUT).
    { unfold db_queue_wait_freewords in H4.
      destruct (ALIGN msg_dwords 4 =? 0); [inv_run; eauto|]. by eapply wait_freewords_ret. }
    apply frames in H4 as [T4 Q4]. destruct (Q4 _ _ Hq3) as (q4 & Hq4 & E4).
    destruct Hr' as [->|Hr'].
    - cbn [Z.ltb Z.compare] in H2.
      apply bind_Some in H2 as ([] & w5 & H5 & H2). apply frames in H5 as [T5 Q5].
      destruct (Q5 _ _ Hq4) as (q5 & Hq5 & E5).
      apply bind_Some in H2 as (q6 & w6 & [Hq6 ->]%load_Some & H2).
      rewrite Hq5 in Hq6. injection Hq6 as <-.
      rewrite (bind_run _ _ _ _ _ (doorbell_run _ _ _)) in H2. inv_run.
      split; [eauto|]. cbn. rewrite T5, T4, T3, T1. do 2 f_equal. congruence.
    - assert (Hl : (r' <? 0) = true) by by destruct Hr' as [->| ->].
      rewrite Hl in H2. inv_run. split; [eauto|].
      rewrite T4, T3, T1. by destruct Hr' as [->| ->]; rewrite app_nil_r. }
  destruct B as [Hr HT]. apply bind_Some in H as ([] & w3 & H3 & H).
  unfold db_set_busy_state, hgsl_dbq_set_state_info in H3.
  apply bind_Some in H3 as (q3 & w4 & [Hq3 ->]%load_Some & H3).
  change (Z.to_nat _) with busy_word in H3. cbv zeta in H3.
  destruct (Nat.ltb_spec busy_word (length (q_mem q3))); [|discriminate].
  injection H3 as <-. inv_run. split; [|split].
  - destruct Hr as [->| [->| ->]]; cbn; set_solver.
  - cbn. rewrite HT. by destruct Hr as [->| [->| ->]].
  - eexists. split; [apply lookup_insert_eq|]. cbn. by apply list_lookup_insert_eq.
Qed.

(** The check after a direct submission gives the buffer for indirect
    submissions away while the GPU may still read it: although the timestamp that
    uses it has not retired, with a timeout of 0 the function returns success and
    records the buffer as free. *)
Theorem indirect_buffer_released_early p w c dbcq s :
  w_contexts w !! p = Some c → c_dbcq c = Some dbcq → c_shadow_ts c = Some s →
  cq_indirect_ib_ts dbcq ≠ 0 → hgsl_ts32_ge (eop s) (cq_indirect_ib_ts dbcq) = false →
  dbcq_get_free_indirect_ib_buffer p 0 0 w =
    Some (0, w <| w_contexts ::= <[p := c <| c_dbcq := Some (dbcq <| cq_indirect_ib_ts := 0 |>) |>]> |>).
Proof.
  intros Hc Hd Hs Hts Hr. unfold dbcq_get_free_indirect_ib_buffer.
  rewrite (bind_run _ _ w dbcq w) by (unfold get_dbcq; run_load Hc; by rewrite Hd).
  destruct (Z.eqb_spec (cq_indirect_ib_ts dbcq) 0); [done|].
  rewrite (bind_run _ _ w (0, Some false) w).
  2:{ unfold hgsl_check_shadow_timestamp, get_context_shadow_ts.
      rewrite (bind_run _ _ w (0, eop s) w); [by rewrite Hr|].
      run_load Hc. by rewrite Hs. }
  cbn [Z.eqb default andb negb]. cbv [id]. cbv iota.
  rewrite (bind_run _ _ w 0 w) by done. cbn [Z.eqb negb].
  unfold update_dbcq. rewrite (bind_run _ _ _ _ _ (update_run _ _ _ _ _ Hc)).
  unfold mret, M_ret. do 2 f_equal. cbn. by rewrite Hd.
Qed.

End properties.

(** * Witnesses *)

Section witnesses.
#[local] Existing Instance quiet_kernel.

(** A queue of 64 dwords, 6 of them waiting, and a context that uses it. *)
Definition small_dbq : doorbell_queue :=
  mk_dbq (replicate 384 0 ++ [60; 54] ++ replicate 1200 0) 0 64 4096 3 false 0 0 3072 7.

Definition doorbell_context : hgsl_context :=
  (fresh_context 1 7 GSL_CONTEXT_FLAG_USER_GENERATED_TS (Some (mk_shadow 4 4)))
    <| c_dbq := Some 2%positive |> <| c_tcsr_idx := 0 |>
    <| c_dbcq := Some (mk_dbcq 1 0 4096 3 5 (Some fresh_ctx_queue)) |>.

Definition doorbell_world : world :=
  empty_world <| w_contexts := {[ 1%positive := doorbell_context ]} |>
              <| w_dbq := {[ 2%positive := small_dbq ]} |>.

Definition small_cmds : hgsl_db_cmds :=
  mk_db_cmds (HFI_ISSUE_IB_HEADER 11 7) 7 CMDBATCH_NOTIFY 5 0 1 0 [mk_ib_desc 65536 64].

Lemma db_send_msg_delivers_witness :
  ∃ mem, db_send_msg 1 11 small_cmds doorbell_world =
      Some (0, ring_bell (with_dbq doorbell_world 2 (small_dbq <| q_mem := mem |>)) 0 3) ∧
    dbq_ok (small_dbq <| q_mem := mem |>) 64 ((60 + 12) mod 64) 54 ∧
    ring_appended (q_mem small_dbq) mem 0 64 54 60 12 (db_cmds_dwords small_cmds) ∧
    mem !! context_word 7 0 = Some 7 ∧ mem !! context_word 7 1 = Some 5 ∧
    mem !! busy_word = Some 0.
Proof.
  apply (db_send_msg_delivers 1 2 doorbell_world doorbell_context small_dbq 64 60 54 small_cmds 11);
    [vm_compute; reflexivity..| |vm_compute; reflexivity| |lia|vm_compute; discriminate].
  - split; vm_compute; repeat split; lia.
  - vm_compute. split; [discriminate|reflexivity].
Defined.

Lemma db_send_msg_outcome_witness :
  ∃ ret w', db_send_msg 1 11 small_cmds doorbell_world = Some (ret, w') ∧
  ret ∈ [0; - EINTR; - EAGAIN] ∧
  w_trace w' = w_trace doorbell_world ++ (if ret =? 0 then doorbell 0 3 else []) ∧
  ∃ q', w_dbq w' !! 2%positive = Some q' ∧ q_mem q' !! busy_word = Some 0.
Proof.
  destruct (db_send_msg 1 11 small_cmds doorbell_world) as [[ret w']|] eqn:E.
  - exists ret, w'. split; [done|].
    apply (db_send_msg_outcome 1 2 doorbell_world doorbell_context small_dbq small_cmds 11);
      [vm_compute; reflexivity..|exact E].
  - vm_compute in E. discriminate E.
Defined.

Lemma indirect_buffer_released_early_witness :
  ∃ w', dbcq_get_free_indirect_ib_buffer 1 0 0 doorbell_world = Some (0, w').
Proof.
  eexists. apply (indirect_buffer_released_early 1 doorbell_world doorbell_context
    (mk_dbcq 1 0 4096 3 5 (Some fresh_ctx_queue)) (mk_shadow 4 4));
    vm_compute; done.
Defined.

End witnesses.
