(* ===== verification/Irq.v ===== *)
(** The interrupts between the GMU and the driver: those of the GMU-GOS doorbells
    (hgsl_gmugos.c), those of the TCSR doorbells (hgsl_tcsr.c), and how the driver
    asks for them and gives them back (hgsl.c). *)

From S2P Require Import Prelude.
From S2P Require Import State.
From S2P Require Import Context.
From S2P Require Import Events.
From S2P Require Import Doorbell.

(** * State *)

Definition HGSL_GMUGOS_IRQ_NUM : Z := 8.
Definition GMUGOS_REG_SET : Z := 0.
Definition GMUGOS_REG_STATUS : Z := 4.
Definition GMUGOS_REG_CLR : Z := 8.
Definition GMUGOS_REG_MASK : Z := 12.
Definition TCSR_GLB_CFG_COMPUTE_SIGNALING_REG : Z := 0.
Definition TCSR_COMPUTE_SIGNALING_REG : Z := 0.
Definition TCSR_COMPUTE_SIGNAL_STATUS_REG : Z := 0.
Definition TCSR_COMPUTE_SIGNAL_CLEAR_REG : Z := 1024.
Definition TCSR_COMPUTE_SIGNAL_MASK_REG : Z := 2048.
Definition TCSR_DEST_IRQ_MASK_0 : Z := BIT 8.
Definition TCSR_DEST_IRQ_MASK_1 : Z := BIT 9.
Definition GMUGOS_IRQ_MASK : Z := TCSR_DEST_IRQ_MASK_0.
Definition RGSGOS_IRQ_MASK : Z := TCSR_DEST_IRQ_MASK_1.
Definition GLB_DB_DEST_TS_RETIRE_IRQ_MASK : Z := TCSR_DEST_IRQ_MASK_0.

Inductive irqreturn := IRQ_NONE | IRQ_HANDLED | IRQ_WAKE_THREAD.

(** enum hgsl_tcsr_role *)
Inductive hgsl_tcsr_role := HGSL_TCSR_ROLE_SENDER | HGSL_TCSR_ROLE_RECEIVER.

#[export] Instance role_eq_dec : EqDecision hgsl_tcsr_role.
Proof. solve_decision. Defined.

(** struct hgsl_gmugos_irq *)
Record hgsl_gmugos_irq := {
  gi_regmap : eptr;
  gi_id : Z;
  gi_num : Z;
  gi_irq_work : bool;       (* INIT_WORK has been done *)
  gi_irq_workqueue : eptr }.

#[export] Instance gmugos_irq_eta : Eta hgsl_gmugos_irq := λ r,
  {| gi_regmap := gi_regmap r; gi_id := gi_id r; gi_num := gi_num r;
     gi_irq_work := gi_irq_work r; gi_irq_workqueue := gi_irq_workqueue r |}.

Definition zeroed_gmugos_irq : hgsl_gmugos_irq :=
  {| gi_regmap := NULL; gi_id := 0; gi_num := 0; gi_irq_work := false; gi_irq_workqueue := NULL |}.

(** struct hgsl_tcsr; the only handler that is ever given is the one of hgsl.c. *)
Record hgsl_tcsr := {
  tc_client_dev : bool;
  tc_regmap : eptr;
  tc_glb_regmap : eptr;
  tc_role : hgsl_tcsr_role;
  tc_enable_count : Z;
  tc_irq_num : Z;
  tc_isr : bool }.

#[export] Instance tcsr_eta : Eta hgsl_tcsr := λ r,
  {| tc_client_dev := tc_client_dev r; tc_regmap := tc_regmap r;
     tc_glb_regmap := tc_glb_regmap r; tc_role := tc_role r;
     tc_enable_count := tc_enable_count r; tc_irq_num := tc_irq_num r; tc_isr := tc_isr r |}.

(** Who has a handler on a line: an interrupt of a device's GMU-GOS block, or a TCSR. *)
Inductive irq_user := GmugosIrq (dev_id irq_idx : Z) | TcsrIrq (tcsr : ptr).

#[export] Instance irq_user_eq_dec : EqDecision irq_user.
Proof. solve_decision. Defined.

(** A line of the interrupt controller: its handlers, and how often it is disabled. *)
Record irq_line := { il_users : list irq_user; il_depth : Z }.

#[export] Instance irq_line_eta : Eta irq_line := λ r,
  {| il_users := il_users r; il_depth := il_depth r |}.

(** What the driver has done to the world. *)
Inductive irq_event :=
| RegWrite (regmap : ptr) (offset value : Z)
| QueueIpcq (dev_id irq_idx : Z)          (* queue_work of hgsl_gmugos_handle_ipcq_msg *)
| QueueRetire                             (* queue_work of ts_retire_worker *)
| Unbalanced (num : Z).                   (* the warning of enable_irq *)

(** struct reg *)
Record mapped_reg := { rg_paddr : Z; rg_size : Z; rg_vaddr : eptr }.

(** The interrupts of hgsl->gmugos by device and index, with activated_irq; the probed
    TCSRs, hgsl->tcsr by index and role, whether hgsl->wq is there, the registers of the
    local doorbell; the lines; what has been written to the registers, everything that
    was done, the count of questions. *)
Record irq_dev := {
  ir_irq : gmap (Z * Z) hgsl_gmugos_irq;
  ir_activated_irq : gmap (Z * Z) Z;
  ir_dev_hnd : gmap Z Z;
  ir_tcsrs : gmap ptr hgsl_tcsr;
  ir_tcsr : Z → hgsl_tcsr_role → option ptr;
  ir_wq : bool;
  ir_reg_dbidx : mapped_reg;
  ir_lines : gmap Z irq_line;
  ir_regs : gmap (ptr * Z) Z;
  ir_log : list irq_event;
  ir_clock : nat }.

#[export] Instance irq_dev_eta : Eta irq_dev := λ r,
  {| ir_irq := ir_irq r; ir_activated_irq := ir_activated_irq r; ir_dev_hnd := ir_dev_hnd r;
     ir_tcsrs := ir_tcsrs r; ir_tcsr := ir_tcsr r; ir_wq := ir_wq r;
     ir_reg_dbidx := ir_reg_dbidx r; ir_lines := ir_lines r; ir_regs := ir_regs r; ir_log := ir_log r; ir_clock := ir_clock r |}.

(** What the device tree and the kernel answer.  A look-up of registers gives an error or
    a map, never NULL. *)
Class IrqKernel := {
  irq_byname : nat → Z;               (* platform_get_irq_byname *)
  irq_request : nat → Z;              (* request_irq, devm_request_threaded_irq *)
  irq_syscon : nat → Z + ptr;         (* the look-ups of a syscon *)
  irq_alloc_wq : nat → option ptr;
  irq_parse : nat → Z;                (* irq_of_parse_and_map *)
  irq_status : nat → Z;               (* a register that others write *)
  irq_reset : ptr → Z → Z;            (* a register before the first write *)
  irq_find_tcsr : nat → option ptr;   (* of_parse_phandle and of_find_device_by_node *)
  irq_resource : nat → option (Z * Z);  (* start and size of a resource *)
  irq_region : nat → bool;            (* devm_request_mem_region *)
  irq_ioremap : nat → option ptr }.

(** * Operations *)

Section irq.
Context `{IrqKernel}.

Abbreviation IM := (M irq_dev).

Definition irq_ask {A} (q : nat → A) : IM A :=
  a ← gets (λ s, q (ir_clock s)); modify (λ s, s <| ir_clock ::= S |>) ;; mret a.

Definition irq_did (e : irq_event) : IM unit := modify (λ s, s <| ir_log ::= λ l, l ++ [e] |>).

(** ** The kernel *)

(** A line without a handler is disabled. *)
Definition line (s : irq_dev) (num : Z) : irq_line :=
  default {| il_users := []; il_depth := 1 |} (ir_lines s !! num).

Definition set_line (num : Z) (f : irq_line → irq_line) : IM unit :=
  modify (λ s, s <| ir_lines ::= <[num := f (line s num)]> |>).

(** The first handler enables its line; a line is shared only if all its handlers say so. *)
Definition request_irq (num : Z) (u : irq_user) (shared : bool) : IM Z :=
  ret ← irq_ask irq_request;
  if negb (ret =? 0) then mret ret
  else
    l ← gets (λ s, line s num);
    match il_users l with
    | [] => set_line num (λ _, {| il_users := [u]; il_depth := 0 |}) ;; mret 0
    | GmugosIrq _ _ :: _ =>
        if shared then set_line num (λ l, l <| il_users ::= cons u |>) ;; mret 0
        else mret (- EBUSY)
    | TcsrIrq _ :: _ => mret (- EBUSY)
    end.

Definition disable_irq (num : Z) : IM unit := set_line num (λ l, l <| il_depth ::= Z.succ |>).

Definition enable_irq (num : Z) : IM unit :=
  l ← gets (λ s, line s num);
  if il_depth l =? 0 then irq_did (Unbalanced num)
  else set_line num (λ l, l <| il_depth ::= Z.pred |>).

(** The last handler disables its line. *)
Definition free_irq (num : Z) (u : irq_user) : IM unit :=
  set_line num (λ l,
    match filter (u ≠.) (il_users l) with
    | [] => {| il_users := []; il_depth := 1 |}
    | us => l <| il_users := us |>
    end).

Definition reg (s : irq_dev) (r : ptr) (offset : Z) : Z :=
  default (irq_reset r offset) (ir_regs s !! (r, offset)).

(** hgsl_regmap_read of a register that only the driver writes, and hgsl_regmap_write. *)
Definition hgsl_regmap_read (regmap : eptr) (offset : Z) : IM Z :=
  match regmap with PTR r => gets (λ s, reg s r offset) | _ => fault end.

Definition hgsl_regmap_write (regmap : eptr) (offset value : Z) : IM unit :=
  match regmap with
  | PTR r => modify (λ s, s <| ir_regs ::= <[(r, offset) := value]> |>) ;;
             irq_did (RegWrite r offset value)
  | _ => fault
  end.

(** hgsl_regmap_read of a register that others write. *)
Definition read_volatile (regmap : eptr) : IM Z :=
  match regmap with PTR _ => irq_ask irq_status | _ => fault end.

(** ** GMU-GOS *)

Definition gmugos_irq (s : irq_dev) (k : Z * Z) : hgsl_gmugos_irq :=
  default zeroed_gmugos_irq (ir_irq s !! k).

Definition activated (s : irq_dev) (k : Z * Z) : Z := default 0 (ir_activated_irq s !! k).

Definition set_irq (k : Z * Z) (f : hgsl_gmugos_irq → hgsl_gmugos_irq) : IM unit :=
  modify (λ s, s <| ir_irq ::= <[k := f (gmugos_irq s k)]> |>).

Definition hgsl_gmugos_isr (k : Z * Z) : IM irqreturn :=
  irq ← gets (λ s, gmugos_irq s k);
  val ← read_volatile (gi_regmap irq);
  hgsl_regmap_write (gi_regmap irq) GMUGOS_REG_CLR val ;;
  if has_flag val RGSGOS_IRQ_MASK then
    match gi_irq_workqueue irq, gi_irq_work irq with
    | PTR _, true =>
        irq_did (QueueIpcq k.1 k.2) ;;
        mret (if val =? RGSGOS_IRQ_MASK then IRQ_HANDLED else IRQ_WAKE_THREAD)
    | _, _ => fault
    end
  else mret IRQ_WAKE_THREAD.

Definition hgsl_gmugos_request_irq (k : Z * Z) : IM Z :=
  num ← irq_ask irq_byname;
  if num <? 0 then mret num
  else
    ret ← request_irq num (GmugosIrq k.1 k.2) true;
    if negb (ret =? 0) then mret ret
    else disable_irq num ;; mret num.

Definition hgsl_syscon_node_regmap (k : Z * Z) : IM Z :=
  irq ← gets (λ s, gmugos_irq s k);
  if negb (is_null (gi_regmap irq)) then mret 0
  else
    regmap ← irq_ask irq_syscon;
    match regmap with
    | inl e => mret e
    | inr r => set_irq k (λ i, i <| gi_regmap := PTR r |>) ;; mret 0
    end.

Definition hgsl_gmugos_irq_enable (k : Z * Z) (mask_bits : Z) : IM unit :=
  irq ← gets (λ s, gmugos_irq s k);
  if gi_num irq =? 0 then mret tt
  else
    hgsl_regmap_write (gi_regmap irq) GMUGOS_REG_CLR mask_bits ;;
    val ← hgsl_regmap_read (gi_regmap irq) GMUGOS_REG_MASK;
    hgsl_regmap_write (gi_regmap irq) GMUGOS_REG_MASK (Z.lor val mask_bits).

Definition hgsl_gmugos_irq_trigger (dev_id irq_idx bit_id : Z) : IM unit :=
  if HGSL_GMUGOS_IRQ_NUM <=? irq_idx then mret tt
  else
    irq ← gets (λ s, gmugos_irq s (dev_id, irq_idx));
    if gi_num irq =? 0 then mret tt
    else hgsl_regmap_write (gi_regmap irq) GMUGOS_REG_SET (u32 (BIT bit_id)).

Definition hgsl_gmugos_irq_free (k : Z * Z) : IM unit :=
  irq ← gets (λ s, gmugos_irq s k);
  if gi_num irq =? 0 then mret tt
  else
    disable_irq (gi_num irq) ;;
    when (negb (IS_ERR_OR_NULL (gi_irq_workqueue irq)))
      (set_irq k (λ i, i <| gi_irq_workqueue := NULL |>)) ;;
    free_irq (gi_num irq) (GmugosIrq k.1 k.2) ;;
    set_irq k (λ i, i <| gi_num := 0 |>).

(** The queue for the messages, when the mask asks for them. *)
Definition init_workqueue (k : Z * Z) (mask_bits : Z) : IM Z :=
  if has_flag mask_bits RGSGOS_IRQ_MASK then
    irq ← gets (λ s, gmugos_irq s k);
    if negb (is_null (gi_irq_workqueue irq)) then mret 0
    else
      wq ← irq_ask irq_alloc_wq;
      match wq with
      | None => mret (- ENOMEM)
      | Some w =>
          set_irq k (λ i, i <| gi_irq_workqueue := PTR w |> <| gi_irq_work := true |>) ;; mret 0
      end
  else if has_flag mask_bits GMUGOS_IRQ_MASK then mret 0
  else mret (- EFAULT).

Definition hgsl_init_gmugos (devhandle irq_idx mask_bits : Z) : IM Z :=
  let dev_id := hgsl_hnd2id devhandle in
  if HGSL_DEVICE_NUM <=? dev_id then mret (- EFAULT)
  else if HGSL_GMUGOS_IRQ_NUM <=? irq_idx then mret (- EFAULT)
  else
    let k := (dev_id, irq_idx) in
    act ← gets (λ s, activated s k);
    if Z.land act mask_bits =? mask_bits then mret 0
    else
      ret ← hgsl_syscon_node_regmap k;
      if negb (ret =? 0) then mret ret
      else
        modify (λ s, s <| ir_dev_hnd ::= <[dev_id := devhandle]> |>) ;;
        ret ← init_workqueue k mask_bits;
        if negb (ret =? 0) then mret ret
        else
          ok ← (if negb (act =? 0) then mret true
                else
                  irq_num ← hgsl_gmugos_request_irq k;
                  if irq_num <? 0 then mret false
                  else
                    set_irq k (λ i, i <| gi_id := irq_idx |> <| gi_num := irq_num |>) ;;
                    enable_irq irq_num ;; mret true);
          when ok
            (hgsl_gmugos_irq_enable k mask_bits ;;
             modify (λ s, s <| ir_activated_irq ::= <[k := Z.lor act mask_bits]> |>)) ;;
          mret 0.

(** The loops of removing the driver. *)
Definition all_irqs : list (Z * Z) :=
  ((λ i, (0, Z.of_nat i)) <$> seq 0 8) ++ ((λ i, (1, Z.of_nat i)) <$> seq 0 8).

Definition free_all_irqs : IM unit :=
  for_each all_irqs (λ k,
    hgsl_gmugos_irq_free k ;;
    modify (λ s, s <| ir_activated_irq ::= <[k := 0]> |>)).

(** ** TCSR *)

Definition tcsr (p : ptr) : IM hgsl_tcsr :=
  t ← gets (λ s, ir_tcsrs s !! p); of_option t.

Definition set_tcsr (p : ptr) (f : hgsl_tcsr → hgsl_tcsr) : IM unit :=
  t ← tcsr p; modify (λ s, s <| ir_tcsrs ::= <[p := f t]> |>).

(** The handler that the driver gives (hgsl_tcsr_isr of hgsl.c): it queues the worker
    that signals the contexts. *)
Definition tcsr_client_isr (status : Z) : IM irqreturn :=
  if Z.land status GLB_DB_DEST_TS_RETIRE_IRQ_MASK =? 0 then mret IRQ_NONE
  else
    wq ← gets ir_wq;
    if wq : bool then irq_did QueueRetire ;; mret IRQ_HANDLED else fault.

Definition hgsl_tcsr_isr (p : ptr) : IM irqreturn :=
  t ← tcsr p;
  status ← read_volatile (tc_regmap t);
  hgsl_regmap_write (tc_regmap t) TCSR_COMPUTE_SIGNAL_CLEAR_REG status ;;
  if tc_isr t then tcsr_client_isr status else mret IRQ_HANDLED.

(** A look-up that fails leaves its error in the place of the map. *)
Definition eptr_of (x : Z + ptr) : eptr :=
  match x with inl e => ERR_PTR e | inr r => PTR r end.

Definition hgsl_tcsr_init_sender (p : ptr) : IM Z :=
  t ← tcsr p;
  if negb (is_null (tc_glb_regmap t)) then mret 0
  else
    regmap ← irq_ask irq_syscon;
    set_tcsr p (λ t, t <| tc_regmap := eptr_of regmap |>) ;;
    match regmap with
    | inl _ => mret (- ENODEV)
    | inr _ =>
        glb ← irq_ask irq_syscon;
        match glb with
        | inl _ => set_tcsr p (λ t, t <| tc_glb_regmap := NULL |>) ;; mret (- ENODEV)
        | inr r => set_tcsr p (λ t, t <| tc_glb_regmap := PTR r |>) ;; mret 0
        end
    end.

Definition hgsl_tcsr_init_receiver (p : ptr) : IM Z :=
  t ← tcsr p;
  if negb (tc_irq_num t =? 0) then mret 0
  else
    regmap ← irq_ask irq_syscon;
    set_tcsr p (λ t, t <| tc_regmap := eptr_of regmap |>) ;;
    match regmap with
    | inl _ => mret (- ENODEV)
    | inr _ =>
        num ← irq_ask irq_parse;
        set_tcsr p (λ t, t <| tc_irq_num := num |>) ;;
        if num =? 0 then mret (- ENODEV)
        else
          ret ← request_irq num (TcsrIrq p) false;
          if ret <? 0 then set_tcsr p (λ t, t <| tc_irq_num := 0 |>) ;; mret ret
          else disable_irq num ;; mret 0
    end.

Definition is_receiver (role : hgsl_tcsr_role) : bool :=
  bool_decide (role = HGSL_TCSR_ROLE_RECEIVER).

(** [isr] is whether a handler is given.  After a failure the code writes to the members
    of the error that it is about to return. *)
Definition hgsl_tcsr_request (p : option ptr) (role : hgsl_tcsr_role) (isr : bool) : IM (Z + ptr) :=
  match p with
  | None => mret (inl (- ENODEV))
  | Some p =>
      t ← tcsr p;
      if negb (bool_decide (tc_role t = role)) then mret (inl (- EINVAL))
      else if tc_client_dev t then mret (inl (- EBUSY))
      else if is_receiver role then
        if tc_isr t then mret (inl (- EBUSY))
        else if negb isr then mret (inl (- EINVAL))
        else
          set_tcsr p (λ t, t <| tc_client_dev := true |> <| tc_isr := true |>) ;;
          ret ← hgsl_tcsr_init_receiver p;
          if negb (ret =? 0) then fault else mret (inr p)
      else
        if isr then mret (inl (- EINVAL))
        else
          set_tcsr p (λ t, t <| tc_client_dev := true |>) ;;
          ret ← hgsl_tcsr_init_sender p;
          if negb (ret =? 0) then fault else mret (inr p)
  end.

Definition hgsl_tcsr_free (p : ptr) : IM unit :=
  t ← tcsr p;
  when (is_receiver (tc_role t) && negb (tc_irq_num t =? 0) && tc_isr t)
    (free_irq (tc_irq_num t) (TcsrIrq p)) ;;
  set_tcsr p (λ t, t <| tc_client_dev := false |> <| tc_isr := false |>).

Definition hgsl_tcsr_enable (p : ptr) : IM Z :=
  t ← tcsr p;
  when (negb (0 <? tc_enable_count t) && negb (tc_irq_num t =? 0)) (enable_irq (tc_irq_num t)) ;;
  set_tcsr p (λ t, t <| tc_enable_count ::= λ c, u32 (c + 1) |>) ;;
  mret 0.

Definition hgsl_tcsr_disable (p : ptr) : IM unit :=
  set_tcsr p (λ t, t <| tc_enable_count ::= λ c, u32 (c - 1) |>) ;;
  t ← tcsr p;
  when (negb (0 <? tc_enable_count t) && negb (tc_irq_num t =? 0)) (disable_irq (tc_irq_num t)).

Definition hgsl_tcsr_is_enabled (t : hgsl_tcsr) : bool := 0 <? tc_enable_count t.

(** The configuration is a number of bits to shift by; C leaves a shift by the width of
    the integer or more undefined. *)
Definition hgsl_tcsr_irq_trigger (p : ptr) (irq_id : Z) : IM unit :=
  t ← tcsr p;
  cfg ← read_volatile (tc_glb_regmap t);
  if (cfg <? 0) || (32 <=? cfg) then fault
  else hgsl_regmap_write (tc_regmap t) TCSR_COMPUTE_SIGNALING_REG (u32 (Z.shiftl irq_id cfg)).

Definition hgsl_tcsr_irq_enable (p : ptr) (mask : Z) (enable : bool) : IM unit :=
  t ← tcsr p;
  val ← hgsl_regmap_read (tc_regmap t) TCSR_COMPUTE_SIGNAL_MASK_REG;
  hgsl_regmap_write (tc_regmap t) TCSR_COMPUTE_SIGNAL_MASK_REG
    (if enable then Z.lor val mask else Z.land val (u32 (Z.lnot mask))).

(** ** The driver *)

(** Any failure destroys the queue that all receivers share. *)
Definition hgsl_init_global_db (role : hgsl_tcsr_role) (idx : Z) : IM Z :=
  let is_sender := negb (is_receiver role) in
  have ← gets (λ s, ir_tcsr s idx role);
  match have with
  | Some _ => mret 0
  | None =>
      pdev ← irq_ask irq_find_tcsr;
      match pdev with
      | None => mret (- ENODEV)
      | Some pdev =>
          wq ← gets ir_wq;
          ok ← (if negb is_sender && negb wq then
                  wq ← irq_ask irq_alloc_wq;
                  match wq with
                  | None => mret false
                  | Some _ => modify (λ s, s <| ir_wq := true |>) ;; mret true
                  end
                else mret true);
          if negb ok then mret (- ENOMEM)
          else
            t ← hgsl_tcsr_request (Some pdev) role (negb is_sender);
            match t with
            | inl ret => modify (λ s, s <| ir_wq := false |>) ;; mret ret
            | inr t =>
                ret ← hgsl_tcsr_enable t;
                if negb (ret =? 0) then
                  hgsl_tcsr_free t ;; modify (λ s, s <| ir_wq := false |>) ;; mret ret
                else
                  when (negb is_sender)
                    (hgsl_tcsr_irq_enable t GLB_DB_DEST_TS_RETIRE_IRQ_MASK true) ;;
                  modify (λ s, s <| ir_tcsr := λ i r,
                    if decide (i = idx ∧ r = role) then Some t else ir_tcsr s i r |>) ;;
                  mret 0
            end
      end
  end.

Definition hgsl_reg_map : IM Z :=
  res ← irq_ask irq_resource;
  match res with
  | None => mret (- EINVAL)
  | Some (start, size) =>
      if (start =? 0) || (size =? 0) then mret (- EINVAL)
      else
        modify (λ s, s <| ir_reg_dbidx ::= λ r,
          {| rg_paddr := start; rg_size := size; rg_vaddr := rg_vaddr r |} |>) ;;
        region ← irq_ask irq_region;
        if negb region then mret (- ENODEV)
        else
          vaddr ← irq_ask irq_ioremap;
          modify (λ s, s <| ir_reg_dbidx ::= λ r,
            {| rg_paddr := rg_paddr r; rg_size := rg_size r;
               rg_vaddr := from_option PTR NULL vaddr |} |>) ;;
          mret match vaddr with Some _ => 0 | None => - ENODEV end
  end.

Definition hgsl_init_local_db : IM Z :=
  r ← gets ir_reg_dbidx;
  if negb (is_null (rg_vaddr r)) then mret 0 else hgsl_reg_map.

Definition hgsl_init_db_signal (tcsr_idx : Z) : IM Z :=
  if is_global_db tcsr_idx then
    ret ← hgsl_init_global_db HGSL_TCSR_ROLE_SENDER tcsr_idx;
    ret' ← hgsl_init_global_db HGSL_TCSR_ROLE_RECEIVER tcsr_idx;
    mret (Z.lor ret ret')
  else hgsl_init_local_db.

(** What coming back from suspend does when the memory was kept and nothing else. *)
Definition hgsl_resume : IM unit :=
  for_each (Z.of_nat <$> seq 0 (Z.to_nat HGSL_TCSR_NUM)) (λ tcsr_idx,
    t ← gets (λ s, ir_tcsr s tcsr_idx HGSL_TCSR_ROLE_RECEIVER);
    match t with
    | Some t => hgsl_tcsr_irq_enable t GLB_DB_DEST_TS_RETIRE_IRQ_MASK true
    | None => mret tt
    end) ;;
  for_each all_irqs (λ k, hgsl_gmugos_irq_enable k GMUGOS_IRQ_MASK) ;;
  wq ← gets ir_wq;
  when wq (irq_did QueueRetire).

(** The part of removing the driver that gives the TCSRs back. *)
Definition free_all_tcsrs : IM unit :=
  for_each (Z.of_nat <$> seq 0 (Z.to_nat HGSL_TCSR_NUM)) (λ i,
    sender ← gets (λ s, ir_tcsr s i HGSL_TCSR_ROLE_SENDER);
    receiver ← gets (λ s, ir_tcsr s i HGSL_TCSR_ROLE_RECEIVER);
    match sender with
    | Some t => hgsl_tcsr_disable t ;; hgsl_tcsr_free t
    | None => mret tt
    end ;;
    match receiver with
    | Some t => hgsl_tcsr_disable t ;; hgsl_tcsr_free t
    | None => mret tt
    end).
End irq.

(** The bottom half of the GMU-GOS interrupt, on the contexts. *)
Definition hgsl_gmugos_ts_retire `{Kernel} (dev_hnd : Z) : M world irqreturn :=
  if HGSL_DEVICE_NUM <=? hgsl_hnd2id dev_hnd then mret IRQ_HANDLED
  else hgsl_retire_common dev_hnd ;; mret IRQ_HANDLED.

(** * Specification *)

Section spec.
Context `{IrqKernel}.

(** An interrupt with activated bits has its registers and a handler on its line, the
    line is enabled, the bits are in the mask register, and the queue is there when the
    messages of the IPC queue are among them; one without is not requested.  A line with
    handlers of this kind is enabled. *)
Record irqs_ok (s : irq_dev) : Prop := {
  io_active : ∀ k, activated s k ≠ 0 → ∃ r,
    gi_regmap (gmugos_irq s k) = PTR r ∧ gi_num (gmugos_irq s k) ≠ 0 ∧
    GmugosIrq k.1 k.2 ∈ il_users (line s (gi_num (gmugos_irq s k))) ∧
    Z.land (reg s r GMUGOS_REG_MASK) (activated s k) = activated s k;
  io_queue : ∀ k, has_flag (activated s k) RGSGOS_IRQ_MASK = true →
    (∃ w, gi_irq_workqueue (gmugos_irq s k) = PTR w) ∧ gi_irq_work (gmugos_irq s k) = true;
  io_work : ∀ k, gi_irq_workqueue (gmugos_irq s k) ≠ NULL →
    (∃ w, gi_irq_workqueue (gmugos_irq s k) = PTR w) ∧ gi_irq_work (gmugos_irq s k) = true;
  io_regmap : ∀ k, gi_regmap (gmugos_irq s k) ≠ NULL → ∃ r, gi_regmap (gmugos_irq s k) = PTR r;
  io_idle : ∀ k, activated s k = 0 → gi_num (gmugos_irq s k) = 0;
  io_lines : ∀ n i j, GmugosIrq i j ∈ il_users (line s n) → il_depth (line s n) = 0 }.

(** Interrupts come only for what has been activated. *)
Inductive gmugos_step : irq_dev → irq_dev → Prop :=
| StepInit devhandle irq_idx mask_bits s ret s' :
    hgsl_init_gmugos devhandle irq_idx mask_bits s = Some (ret, s') → gmugos_step s s'
| StepTrigger dev_id irq_idx bit_id s s' :
    hgsl_gmugos_irq_trigger dev_id irq_idx bit_id s = Some (tt, s') → gmugos_step s s'
| StepIsr k s ret s' :
    hgsl_gmugos_isr k s = Some (ret, s') → gmugos_step s s'
| StepResume k s s' :
    hgsl_gmugos_irq_enable k GMUGOS_IRQ_MASK s = Some (tt, s') → gmugos_step s s'.

Definition blank_irq_dev (tcsrs : gmap ptr hgsl_tcsr) : irq_dev :=
  {| ir_irq := ∅; ir_activated_irq := ∅; ir_dev_hnd := ∅; ir_tcsrs := tcsrs;
     ir_tcsr := λ _ _, None; ir_wq := false;
     ir_reg_dbidx := {| rg_paddr := 0; rg_size := 0; rg_vaddr := NULL |};
     ir_lines := ∅; ir_regs := ∅; ir_log := []; ir_clock := 0 |}.

(** What the kernel promises: errors are not 0, an interrupt that was found is not 0. *)
Record answers_ok : Prop := {
  ao_byname : ∀ t, irq_byname t ≠ 0;
  ao_request : ∀ t, irq_request t ≤ 0;
  ao_syscon : ∀ t e, irq_syscon t = inl e → e ≠ 0 }.

(** * Lemmas *)

Lemma line_insert s n l m :
  line (s <| ir_lines ::= <[n := l]> |>) m = if decide (m = n) then l else line s m.
Proof.
  unfold line. cbn. case_decide as E; [subst; by rewrite lookup_insert_eq|by rewrite lookup_insert_ne].
Qed.

Lemma irq_insert s k i k' :
  gmugos_irq (s <| ir_irq ::= <[k := i]> |>) k' = if decide (k' = k) then i else gmugos_irq s k'.
Proof.
  unfold gmugos_irq. cbn.
  case_decide as E; [subst; by rewrite lookup_insert_eq|by rewrite lookup_insert_ne].
Qed.

Lemma activated_insert s k v k' :
  activated (s <| ir_activated_irq ::= <[k := v]> |>) k' = if decide (k' = k) then v else activated s k'.
Proof.
  unfold activated. cbn.
  case_decide as E; [subst; by rewrite lookup_insert_eq|by rewrite lookup_insert_ne].
Qed.

Lemma reg_insert s r o v r' o' :
  reg (s <| ir_regs ::= <[(r, o) := v]> |>) r' o' = if decide ((r', o') = (r, o)) then v else reg s r' o'.
Proof.
  unfold reg. cbn. case_decide as E; [rewrite E, lookup_insert_eq; done|by rewrite lookup_insert_ne].
Qed.

Lemma set_line_run n f s :
  set_line n f s = Some (tt, s <| ir_lines ::= <[n := f (line s n)]> |>).
Proof. done. Qed.

Lemma set_irq_run k f s :
  set_irq k f s = Some (tt, s <| ir_irq ::= <[k := f (gmugos_irq s k)]> |>).
Proof. done. Qed.

Lemma request_irq_run n u shared s :
  ∃ ret s', request_irq n u shared s = Some (ret, s') ∧
    (ret ≠ 0 ∧ s' = s <| ir_clock ::= S |> ∨
     ret = 0 ∧ ∃ l, s' = s <| ir_clock ::= S |> <| ir_lines ::= <[n := l]> |> ∧
       il_users l = u :: il_users (line s n) ∧
       (il_users (line s n) = [] ∧ il_depth l = 0 ∨
        shared = true ∧ (∃ i j us, il_users (line s n) = GmugosIrq i j :: us) ∧
          il_depth l = il_depth (line s n))).
Proof.
  unfold request_irq, irq_ask. set (s1 := s <| ir_clock ::= S |>).
  rewrite (bind_run _ _ s (irq_request (ir_clock s)) s1) by done.
  destruct (Z.eqb_spec (irq_request (ir_clock s)) 0) as [E|E]; cbn [negb].
  2: { eexists _, _. split; [reflexivity|]. by left. }
  rewrite (bind_run _ _ s1 (line s n) s1) by done.
  destruct (il_users (line s n)) as [|[i j|p] us] eqn:Eu.
  - eexists 0, _. split; [reflexivity|]. right. split; [done|]. eexists. split; [reflexivity|].
    cbn. auto.
  - destruct shared.
    + eexists 0, _. split; [reflexivity|]. right. split; [done|]. eexists. split; [reflexivity|].
      change (line s1 n) with (line s n). cbn. rewrite Eu. split; [done|]. right. eauto 10.
    + exists (- EBUSY), s1. split; [done|]. by left.
  - exists (- EBUSY), s1. split; [done|]. by left.
Qed.

Lemma land_sub v a m : Z.land v a = a → Z.land (Z.lor v m) a = a.
Proof.
  intros E. apply Z.bits_inj'. intros n Hn. rewrite Z.land_spec, Z.lor_spec.
  apply (f_equal (λ z, Z.testbit z n)) in E. rewrite Z.land_spec in E.
  by destruct (Z.testbit v n), (Z.testbit a n), (Z.testbit m n).
Qed.

Lemma land_add v a m : Z.land v a = a → Z.land (Z.lor v m) (Z.lor a m) = Z.lor a m.
Proof.
  intros E. apply Z.bits_inj'. intros n Hn. rewrite Z.land_spec, !Z.lor_spec.
  apply (f_equal (λ z, Z.testbit z n)) in E. rewrite Z.land_spec in E.
  by destruct (Z.testbit v n), (Z.testbit a n), (Z.testbit m n).
Qed.

Lemma lor_sub a m : Z.land a m = m → Z.lor a m = a.
Proof.
  intros E. apply Z.bits_inj'. intros n Hn. rewrite Z.lor_spec.
  apply (f_equal (λ z, Z.testbit z n)) in E. rewrite Z.land_spec in E.
  by destruct (Z.testbit a n), (Z.testbit m n).
Qed.

Lemma has_flag_lor a m f : has_flag (Z.lor a m) f = has_flag a f || has_flag m f.
Proof.
  unfold has_flag. rewrite Z.land_lor_distr_l.
  destruct (Z.eqb_spec (Z.land a f) 0) as [->|Ha], (Z.eqb_spec (Z.land m f) 0) as [->|Hm]; cbn;
    try done.
  - by rewrite (proj2 (Z.eqb_neq _ _)).
  - rewrite Z.lor_0_r. by rewrite (proj2 (Z.eqb_neq _ _)).
  - apply negb_true_iff, Z.eqb_neq. intros [? ?]%Z.lor_eq_0_iff. done.
Qed.

(** ** Steps that keep the invariant *)

Lemma ok_ext s s' :
  irqs_ok s → ir_irq s' = ir_irq s → ir_activated_irq s' = ir_activated_irq s →
  ir_lines s' = ir_lines s →
  (∀ r a, Z.land (reg s r GMUGOS_REG_MASK) a = a → Z.land (reg s' r GMUGOS_REG_MASK) a = a) →
  irqs_ok s'.
Proof.
  intros Hok E1 E2 E3 E4.
  assert (∀ k, gmugos_irq s' k = gmugos_irq s k) as F1 by (intros; unfold gmugos_irq; by rewrite E1).
  assert (∀ k, activated s' k = activated s k) as F2 by (intros; unfold activated; by rewrite E2).
  assert (∀ n, line s' n = line s n) as F3 by (intros; unfold line; by rewrite E3).
  destruct Hok as [H1 H2 H3 H4 H5 H6]. split.
  - intros k. rewrite F1, F2, F3. intros Hk. destruct (H1 k Hk) as (r & ? & ? & ? & ?). exists r. auto.
  - intros k. rewrite F1, F2. apply H2.
  - intros k. rewrite F1. apply H3.
  - intros k. rewrite F1. apply H4.
  - intros k. rewrite F1, F2. apply H5.
  - intros n i j. rewrite F3. apply H6.
Qed.

Lemma ok_regmap s k r :
  irqs_ok s → gi_regmap (gmugos_irq s k) = NULL →
  irqs_ok (s <| ir_irq ::= <[k := (gmugos_irq s k) <| gi_regmap := PTR r |>]> |>).
Proof.
  intros [H1 H2 H3 H4 H5 H6] E. set (s' := s <| ir_irq ::= _ |>).
  split; try exact H6; intros k'; unfold s'; rewrite irq_insert; case_decide as Ek; subst; cbn;
    try apply H1; try apply H2; try apply H3; try apply H4; try apply H5.
  - intros Ha. destruct (H1 k Ha) as (r' & Er & _). congruence.
  - by exists r.
Qed.

Lemma ok_workqueue s k w :
  irqs_ok s →
  irqs_ok (s <| ir_irq ::= <[k := (gmugos_irq s k) <| gi_irq_workqueue := PTR w |> <| gi_irq_work := true |>]> |>).
Proof.
  intros [H1 H2 H3 H4 H5 H6]. set (s' := s <| ir_irq ::= _ |>).
  split; try exact H6; intros k'; unfold s'; rewrite irq_insert; case_decide as Ek; subst; cbn;
    try apply H1; try apply H2; try apply H3; try apply H4; try apply H5.
  - intros _. split; [by exists w|done].
  - intros _. split; [by exists w|done].
Qed.

(** A handler on its line, which is enabled. *)
Lemma ok_requested s k n l :
  irqs_ok s → activated s k = 0 → il_users l = GmugosIrq k.1 k.2 :: il_users (line s n) → il_depth l = 0 →
  ∀ k', activated s k' ≠ 0 →
    GmugosIrq k'.1 k'.2 ∈
      il_users (line (s <| ir_lines ::= <[n := l]> |>) (gi_num (gmugos_irq s k'))).
Proof.
  intros Hok Hk Hu Hd k' Hk'. destruct (io_active _ Hok k' Hk') as (r & _ & _ & Hin & _).
  rewrite line_insert. case_decide as E; [|done]. rewrite E in Hin. rewrite Hu. set_solver.
Qed.

Lemma request_irq_neg n u shared s ret s' :
  (∀ t, irq_request t ≤ 0) → request_irq n u shared s = Some (ret, s') → ret ≤ 0.
Proof.
  intros Hr E. unfold request_irq, set_line, irq_ask in E. inv_run.
  repeat (case_match; inv_run); first [apply Hr|unfold EBUSY; lia].
Qed.

Lemma gmugos_request_run k s :
  answers_ok →
  ∃ num s', hgsl_gmugos_request_irq k s = Some (num, s') ∧
    (num < 0 ∧ (∃ c, s' = s <| ir_clock := c |>) ∨
     0 < num ∧ ∃ c l, s' = s <| ir_clock := c |> <| ir_lines ::= <[num := l]> |> ∧
       il_users l = GmugosIrq k.1 k.2 :: il_users (line s num) ∧
       (il_users (line s num) = [] ∧ il_depth l = 1 ∨
        (∃ i j us, il_users (line s num) = GmugosIrq i j :: us) ∧
        il_depth l = il_depth (line s num) + 1)).
Proof.
  intros [Hn Hr _]. unfold hgsl_gmugos_request_irq, irq_ask. set (s1 := s <| ir_clock ::= S |>).
  set (num := irq_byname (ir_clock s)).
  rewrite (bind_run _ _ s num s1) by done.
  destruct (Z.ltb_spec num 0) as [Hneg|Hpos].
  { exists num, s1. split; [done|]. left. split; [done|]. by eexists. }
  destruct (request_irq_run num (GmugosIrq k.1 k.2) true s1) as (ret & s2 & E & Hcase).
  pose proof (request_irq_neg _ _ _ _ _ _ Hr E) as Hret.
  rewrite (bind_run _ _ _ _ _ E).
  destruct Hcase as [(Hne & ->)|(-> & l & -> & Hu & Hd)].
  - rewrite (proj2 (Z.eqb_neq _ _) Hne). cbn [negb]. eexists ret, _. split; [reflexivity|].
    left. split; [lia|]. by eexists.
  - change (negb (0 =? 0)) with false. cbv iota. unfold disable_irq.
    rewrite (bind_run _ _ _ _ _ (set_line_run _ _ _)).
    eexists num, _. split; [reflexivity|]. right. specialize (Hn (ir_clock s)). fold num in Hn. split; [lia|].
    eexists _, ((line (s1 <| ir_clock ::= S |> <| ir_lines ::= <[num := l]> |>) num) <| il_depth ::= Z.succ |>).
    rewrite line_insert, decide_True by done.
    split; [|split; [exact Hu|]].
    + cbn. by rewrite insert_insert_eq.
    + cbn. change (line s1 num) with (line s num) in Hd. destruct Hd as [[? ->]|(_ & ? & ->)]; [by left|right].
      split; [done|lia].
Qed.

(** Between the states, nothing was activated or requested. *)
Record prepared (s s' : irq_dev) : Prop := {
  pr_ok : irqs_ok s';
  pr_activated : ir_activated_irq s' = ir_activated_irq s;
  pr_lines : ir_lines s' = ir_lines s;
  pr_regs : ir_regs s' = ir_regs s;
  pr_log : ir_log s' = ir_log s;
  pr_num : ∀ k, gi_num (gmugos_irq s' k) = gi_num (gmugos_irq s k);
  pr_regmap : ∀ k r, gi_regmap (gmugos_irq s k) = PTR r → gi_regmap (gmugos_irq s' k) = PTR r }.

Lemma prepared_refl s : irqs_ok s → prepared s s.
Proof. by split. Qed.

Lemma prepared_trans s1 s2 s3 : prepared s1 s2 → prepared s2 s3 → prepared s1 s3.
Proof.
  intros [] []. split; try congruence; auto.
Qed.

Lemma prepared_clock s c h : irqs_ok s → prepared s (s <| ir_clock := c |> <| ir_dev_hnd := h |>).
Proof. intros Hok. split; try done. by eapply ok_ext. Qed.

Lemma syscon_run k s :
  answers_ok → irqs_ok s →
  ∃ ret s', hgsl_syscon_node_regmap k s = Some (ret, s') ∧ prepared s s' ∧
    (ret = 0 → ∃ r, gi_regmap (gmugos_irq s' k) = PTR r).
Proof.
  intros Ha Hok. unfold hgsl_syscon_node_regmap, irq_ask.
  rewrite (bind_run _ _ s (gmugos_irq s k) s) by done.
  destruct (is_null (gi_regmap (gmugos_irq s k))) eqn:En; cbn [negb].
  2: { exists 0, s. split; [done|]. split; [by apply prepared_refl|]. intros _.
       apply (io_regmap _ Hok). intros E. by rewrite E in En. }
  assert (gi_regmap (gmugos_irq s k) = NULL) as Enull by by destruct (gi_regmap (gmugos_irq s k)).
  set (s1 := s <| ir_clock ::= S |>).
  assert (prepared s s1) as Hp1 by exact (prepared_clock s (S (ir_clock s)) (ir_dev_hnd s) Hok).
  rewrite (bind_run _ _ s (irq_syscon (ir_clock s)) s1) by done.
  destruct (irq_syscon (ir_clock s)) as [e|r] eqn:Es.
  { exists e, s1. split; [done|]. split; [done|]. intros ->. by destruct (ao_syscon Ha _ _ Es). }
  eexists 0, _. split; [reflexivity|]. cbv beta iota.
  set (s2 := s1 <| ir_irq ::= _ |>).
  assert (irqs_ok s2) as Hok2 by exact (ok_regmap s1 k r (pr_ok _ _ Hp1) Enull).
  split.
  - split; try done; intros k'; unfold s2; rewrite irq_insert; case_decide as Ek; subst; try done.
    intros r' Er. change (gmugos_irq s1 k) with (gmugos_irq s k) in *. congruence.
  - intros _. exists r. unfold s2. by rewrite irq_insert, decide_True by done.
Qed.

Lemma init_workqueue_run k mask_bits s :
  irqs_ok s →
  ∃ ret s', init_workqueue k mask_bits s = Some (ret, s') ∧ prepared s s' ∧
    (ret = 0 → mask_bits ≠ 0 ∧
       (has_flag mask_bits RGSGOS_IRQ_MASK = true → gi_irq_workqueue (gmugos_irq s' k) ≠ NULL)).
Proof.
  intros Hok. unfold init_workqueue, irq_ask.
  assert (mask_bits = 0 → has_flag mask_bits RGSGOS_IRQ_MASK = false ∧
    has_flag mask_bits GMUGOS_IRQ_MASK = false) as H0 by by intros ->.
  destruct (has_flag mask_bits RGSGOS_IRQ_MASK) eqn:Er.
  - rewrite (bind_run _ _ s (gmugos_irq s k) s) by done.
    destruct (is_null (gi_irq_workqueue (gmugos_irq s k))) eqn:En; cbn [negb].
    2: { exists 0, s. split; [done|]. split; [by apply prepared_refl|]. intros _.
         split; [by intros [? _]%H0|]. intros _ E. by rewrite E in En. }
    set (s1 := s <| ir_clock ::= S |>).
    assert (prepared s s1) as Hp1 by exact (prepared_clock s (S (ir_clock s)) (ir_dev_hnd s) Hok).
    rewrite (bind_run _ _ s (irq_alloc_wq (ir_clock s)) s1) by done.
    destruct (irq_alloc_wq (ir_clock s)) as [w|].
    2: { exists (- ENOMEM), s1. split; [done|]. split; [done|]. done. }
    eexists 0, _. split; [reflexivity|]. cbv beta iota. set (s2 := s1 <| ir_irq ::= _ |>).
    assert (irqs_ok s2) as Hok2 by exact (ok_workqueue s1 k w (pr_ok _ _ Hp1)).
    split.
    + split; try done; intros k'; unfold s2; rewrite irq_insert; case_decide as Ek; by subst.
    + intros _. split; [by intros [? _]%H0|]. intros _. unfold s2.
      by rewrite irq_insert, decide_True by done.
  - destruct (has_flag mask_bits GMUGOS_IRQ_MASK) eqn:Eg.
    + exists 0, s. split; [done|]. split; [by apply prepared_refl|]. intros _. split; [|done].
      by intros [_ ?]%H0.
    + exists (- EFAULT), s. split; [done|]. split; [by apply prepared_refl|]. done.
Qed.

(** Enabling an interrupt that has its handler, and noting its bits. *)
Lemma irq_enable_run k mask_bits s r :
  gi_regmap (gmugos_irq s k) = PTR r → gi_num (gmugos_irq s k) ≠ 0 →
  ∃ s', hgsl_gmugos_irq_enable k mask_bits s = Some (tt, s') ∧
    ir_irq s' = ir_irq s ∧ ir_activated_irq s' = ir_activated_irq s ∧ ir_lines s' = ir_lines s ∧
    ir_log s' = ir_log s ++ [RegWrite r GMUGOS_REG_CLR mask_bits;
      RegWrite r GMUGOS_REG_MASK (Z.lor (reg s r GMUGOS_REG_MASK) mask_bits)] ∧
    ∀ r', reg s' r' GMUGOS_REG_MASK =
      if decide (r' = r) then Z.lor (reg s r GMUGOS_REG_MASK) mask_bits else reg s r' GMUGOS_REG_MASK.
Proof.
  intros Er En. unfold hgsl_gmugos_irq_enable.
  rewrite (bind_run _ _ s (gmugos_irq s k) s) by done.
  rewrite (proj2 (Z.eqb_neq _ _) En), Er. cbn [hgsl_regmap_write hgsl_regmap_read].
  set (s1 := s <| ir_regs ::= <[(r, GMUGOS_REG_CLR) := mask_bits]> |>
               <| ir_log ::= λ l, l ++ [RegWrite r GMUGOS_REG_CLR mask_bits] |>).
  rewrite (bind_run _ _ s tt s1) by done.
  rewrite (bind_run _ _ s1 (reg s1 r GMUGOS_REG_MASK) s1) by done.
  eexists. split; [reflexivity|].
  assert (∀ r', reg s1 r' GMUGOS_REG_MASK = reg s r' GMUGOS_REG_MASK) as E1.
  { intros r'. change (reg s1 r' GMUGOS_REG_MASK) with
      (reg (s <| ir_regs ::= <[(r, GMUGOS_REG_CLR) := mask_bits]> |>) r' GMUGOS_REG_MASK).
    rewrite reg_insert. by rewrite decide_False by by intros [=]. }
  split_and!; try done.
  - cbn. rewrite <- app_assoc, <- E1. done.
  - intros r'. set (v := Z.lor _ _).
    match goal with |- reg ?x _ _ = _ => change (reg x r' GMUGOS_REG_MASK) with
      (reg (s1 <| ir_regs ::= <[(r, GMUGOS_REG_MASK) := v]> |>) r' GMUGOS_REG_MASK) end.
    rewrite reg_insert. unfold v. rewrite !E1. repeat case_decide; congruence.
Qed.

(** The state after enabling [k] with a handler that is on its line. *)
Lemma ok_enabled s s' k mask_bits r num :
  irqs_ok s →
  gi_regmap (gmugos_irq s' k) = PTR r → gi_num (gmugos_irq s' k) = num → num ≠ 0 →
  gi_irq_workqueue (gmugos_irq s' k) = gi_irq_workqueue (gmugos_irq s k) →
  gi_irq_work (gmugos_irq s' k) = gi_irq_work (gmugos_irq s k) →
  (∀ k', k' ≠ k → gmugos_irq s' k' = gmugos_irq s k') →
  GmugosIrq k.1 k.2 ∈ il_users (line s' num) →
  (∀ n u, u ∈ il_users (line s n) → u ∈ il_users (line s' n)) →
  (∀ n i j, GmugosIrq i j ∈ il_users (line s' n) → il_depth (line s' n) = 0) →
  (∀ k', activated s' k' = if decide (k' = k) then Z.lor (activated s k) mask_bits else activated s k') →
  (∀ r', reg s' r' GMUGOS_REG_MASK =
     if decide (r' = r) then Z.lor (reg s r GMUGOS_REG_MASK) mask_bits else reg s r' GMUGOS_REG_MASK) →
  (activated s k ≠ 0 → gi_regmap (gmugos_irq s k) = PTR r) → mask_bits ≠ 0 →
  (has_flag mask_bits RGSGOS_IRQ_MASK = true → gi_irq_workqueue (gmugos_irq s k) ≠ NULL) →
  irqs_ok s'.
Proof.
  intros Hok Er En Hn Ew Ewk Eother Hin Husers Hlines Hact Hreg Hold Hm Hq.
  destruct Hok as [H1 H2 H3 H4 H5 H6].
  assert (Z.lor (activated s k) mask_bits ≠ 0) as Hnz by by intros [_ ?]%Z.lor_eq_0_iff.
  split; try exact Hlines; intros k'.
  - rewrite Hact. case_decide as Ek; [subst k'|].
    + intros _. exists r. split_and!; [done|by rewrite En|by rewrite En|].
      rewrite Hreg, decide_True by done. destruct (decide (activated s k = 0)) as [E0|E0].
      * rewrite E0, Z.lor_0_l.
        apply Z.bits_inj'. intros i Hi. rewrite Z.land_spec, Z.lor_spec.
        by destruct (Z.testbit mask_bits i), (Z.testbit (reg s r GMUGOS_REG_MASK) i).
      * destruct (H1 k E0) as (r' & Er' & _ & _ & Hl). rewrite (Hold E0) in Er'. injection Er' as <-.
        by apply land_add.
    + intros Ha. destruct (H1 k' Ha) as (r' & ? & ? & ? & Hl). rewrite Eother by done.
      exists r'. split_and!; try done; [by apply Husers|]. rewrite Hreg. case_decide as E; [subst|done].
      by apply land_sub.
  - rewrite Hact. case_decide as Ek; [subst k'|rewrite Eother by done; apply H2].
    rewrite has_flag_lor, Ew, Ewk. intros [Hf|Hf]%orb_prop; [by apply H2|by apply H3, Hq].
  - destruct (decide (k' = k)) as [->|Ek]; [rewrite Ew, Ewk|rewrite Eother by done]; apply H3.
  - destruct (decide (k' = k)) as [->|Ek]; [by rewrite Er; exists r|rewrite Eother by done; apply H4].
  - rewrite Hact. case_decide as Ek; [done|]. rewrite Eother by done. apply H5.
Qed.


(** Every answer of the kernel and every state: what has been activated stays so, and a
    new success adds exactly the bits asked for - or reports a success without them when
    the handler could not be had. *)
Lemma init_gmugos_run devhandle irq_idx mask_bits s :
  answers_ok → irqs_ok s →
  let k := (hgsl_hnd2id devhandle, irq_idx) in
  ∃ ret s', hgsl_init_gmugos devhandle irq_idx mask_bits s = Some (ret, s') ∧ irqs_ok s' ∧
    (∀ k', k' ≠ k → activated s' k' = activated s k') ∧
    (ret = 0 ∧ activated s' k = Z.lor (activated s k) mask_bits ∨
     activated s' k = activated s k ∧ ir_lines s' = ir_lines s ∧ ir_log s' = ir_log s ∧
       (ret = 0 → activated s k = 0)).
Proof.
  intros Ha Hok k. unfold hgsl_init_gmugos. fold k.
  assert (∀ ret s', prepared s s' → ret ≠ 0 ∨ activated s k = 0 →
    irqs_ok s' ∧ (∀ k', k' ≠ k → activated s' k' = activated s k') ∧
    (ret = 0 ∧ activated s' k = Z.lor (activated s k) mask_bits ∨
     activated s' k = activated s k ∧ ir_lines s' = ir_lines s ∧ ir_log s' = ir_log s ∧
       (ret = 0 → activated s k = 0))) as Hprep.
  { intros ret s' [Hok' Ea El Er Elog _ _] Hret.
    assert (∀ k', activated s' k' = activated s k') as Ea' by (intros; unfold activated; by rewrite Ea).
    split; [done|]. split; [by intros|]. right. split_and!; try done. by destruct Hret. }
  destruct (HGSL_DEVICE_NUM <=? hgsl_hnd2id devhandle).
  { eexists (- EFAULT), s. split; [done|]. apply Hprep; [by apply prepared_refl|by left]. }
  destruct (HGSL_GMUGOS_IRQ_NUM <=? irq_idx).
  { eexists (- EFAULT), s. split; [done|]. apply Hprep; [by apply prepared_refl|by left]. }
  rewrite (bind_run _ _ s (activated s k) s) by done.
  destruct (Z.eqb_spec (Z.land (activated s k) mask_bits) mask_bits) as [Em|Em].
  { exists 0, s. split; [done|]. split; [done|]. split; [by intros|]. left. split; [done|].
    by rewrite (lor_sub _ _ Em). }
  destruct (syscon_run k s Ha Hok) as (ret & s1 & E1 & Hp1 & Hr1).
  rewrite (bind_run _ _ _ _ _ E1). destruct (Z.eqb_spec ret 0) as [->|Hr]; cbn [negb].
  2: { exists ret, s1. split; [done|]. apply Hprep; [done|by left]. }
  destruct (Hr1 eq_refl) as (r & Er1).
  set (s2 := s1 <| ir_dev_hnd ::= <[hgsl_hnd2id devhandle := devhandle]> |>).
  assert (prepared s s2) as Hp2.
  { eapply prepared_trans; [exact Hp1|].
    exact (prepared_clock s1 (ir_clock s1) (<[hgsl_hnd2id devhandle := devhandle]> (ir_dev_hnd s1)) (pr_ok _ _ Hp1)). }
  rewrite (bind_run _ _ s1 tt s2) by done.
  destruct (init_workqueue_run k mask_bits s2 (pr_ok _ _ Hp2)) as (ret & s3 & E3 & Hp3 & Hr3).
  assert (prepared s s3) as Hp by by eapply prepared_trans.
  rewrite (bind_run _ _ _ _ _ E3). destruct (Z.eqb_spec ret 0) as [->|Hr]; cbn [negb].
  2: { exists ret, s3. split; [done|]. apply Hprep; [done|by left]. }
  destruct (Hr3 eq_refl) as (Hm & Hwq).
  assert (gi_regmap (gmugos_irq s3 k) = PTR r) as Er3 by by apply (pr_regmap _ _ Hp3).
  assert (∀ k', activated s3 k' = activated s k') as Ea3
    by (intros; unfold activated; by rewrite (pr_activated _ _ Hp)).
  pose proof (pr_ok _ _ Hp) as Hok3.
  (* what remains once the handler is there *)
  assert (∀ s5, gi_regmap (gmugos_irq s5 k) = PTR r → gi_num (gmugos_irq s5 k) ≠ 0 →
    gi_irq_workqueue (gmugos_irq s5 k) = gi_irq_workqueue (gmugos_irq s3 k) →
    gi_irq_work (gmugos_irq s5 k) = gi_irq_work (gmugos_irq s3 k) →
    (∀ k', k' ≠ k → gmugos_irq s5 k' = gmugos_irq s3 k') →
    GmugosIrq k.1 k.2 ∈ il_users (line s5 (gi_num (gmugos_irq s5 k))) →
    (∀ n u, u ∈ il_users (line s3 n) → u ∈ il_users (line s5 n)) →
    (∀ n i j, GmugosIrq i j ∈ il_users (line s5 n) → il_depth (line s5 n) = 0) →
    ir_activated_irq s5 = ir_activated_irq s3 → ir_regs s5 = ir_regs s3 →
    ∃ s', (hgsl_gmugos_irq_enable k mask_bits ;;
        modify (λ s0, s0 <| ir_activated_irq ::= <[k := Z.lor (activated s k) mask_bits]> |>)) s5 =
        Some (tt, s') ∧ irqs_ok s' ∧ (∀ k', k' ≠ k → activated s' k' = activated s k') ∧
      activated s' k = Z.lor (activated s k) mask_bits) as Hfinish.
  { intros s5 Er5 En5 Ew5 Ewk5 Eo5 Hin5 Hu5 Hl5 Ea5 Eg5.
    destruct (irq_enable_run k mask_bits s5 r Er5 En5) as (s6 & E6 & F1 & F2 & F3 & F4 & F5).
    rewrite (bind_run _ _ _ _ _ E6). eexists. split; [reflexivity|].
    set (s7 := s6 <| ir_activated_irq ::= _ |>).
    assert (∀ k', gmugos_irq s7 k' = gmugos_irq s5 k') as G1 by (intros; unfold gmugos_irq; cbn; by rewrite F1).
    assert (∀ n, line s7 n = line s5 n) as G3 by (intros; unfold line; cbn; by rewrite F3).
    assert (∀ k', activated s7 k' =
      if decide (k' = k) then Z.lor (activated s k) mask_bits else activated s k') as G2.
    { intros k'. unfold s7. rewrite activated_insert. case_decide; [done|].
      rewrite <- Ea3. unfold activated. by rewrite F2, Ea5. }
    split_and!; [|intros k' Hk'; by rewrite G2, decide_False|by rewrite G2, decide_True].
    eapply (ok_enabled s3 s7 k mask_bits r (gi_num (gmugos_irq s5 k)) Hok3); rewrite ?G1, ?Ea3; try done.
    - intros k' Hk'. rewrite G1. by apply Eo5.
    - by rewrite G3.
    - intros n u. rewrite G3. apply Hu5.
    - intros n. rewrite G3. apply Hl5.
    - intros k'. by rewrite G2, Ea3.
    - intros r'. change (reg s7 r' GMUGOS_REG_MASK) with (reg s6 r' GMUGOS_REG_MASK). rewrite F5.
      unfold reg. by rewrite Eg5. }
  destruct (Z.eqb_spec (activated s k) 0) as [E0|E0]; cbn [negb].
  - destruct (gmugos_request_run k s3 Ha) as (num & s4 & E4 & [(Hneg & c & ->)|(Hpos & c & l & -> & Hu & Hd)]).
    + set (s4 := s3 <| ir_clock := c |>).
      rewrite (bind_run _ _ s3 false s4).
      2: { rewrite (bind_run _ _ _ _ _ E4). by rewrite (proj2 (Z.ltb_lt _ _) Hneg). }
      cbn [when]. rewrite (bind_run _ _ s4 tt s4) by done. exists 0, s4. split; [done|].
      apply Hprep; [|by right]. eapply prepared_trans; [exact Hp|].
      exact (prepared_clock s3 c (ir_dev_hnd s3) Hok3).
    + set (s4 := s3 <| ir_clock := c |> <| ir_lines ::= <[num := l]> |>) in *.
      set (s5 := s4 <| ir_irq ::= <[k := (gmugos_irq s3 k) <| gi_id := irq_idx |> <| gi_num := num |>]> |>).
      set (s6 := s5 <| ir_lines ::= <[num := l <| il_depth ::= Z.pred |>]> |>).
      rewrite (bind_run _ _ s3 true s6).
      2: { rewrite (bind_run _ _ _ _ _ E4). rewrite (proj2 (Z.ltb_ge _ _)) by lia.
           rewrite (bind_run _ _ s4 tt s5) by done.
           rewrite (bind_run _ _ s5 tt s6); [done|]. unfold enable_irq.
           assert (line s5 num = l) as El.
           { change (line s5 num) with (line s4 num). unfold s4. by rewrite line_insert, decide_True. }
           rewrite (bind_run _ _ s5 l s5) by (unfold gets; by rewrite El).
           assert (il_depth l ≠ 0) as Hd0.
           { destruct Hd as [[_ ->]|((i & j & us & Eus) & ->)]; [done|].
             rewrite (io_lines _ Hok3 num i j) by (rewrite Eus; left). done. }
           rewrite (proj2 (Z.eqb_neq _ _) Hd0), set_line_run. by rewrite El. }
      cbn [when].
      assert (gmugos_irq s6 k = (gmugos_irq s3 k) <| gi_id := irq_idx |> <| gi_num := num |>) as Ei6.
      { change (gmugos_irq s6 k) with (gmugos_irq s5 k). unfold s5. by rewrite irq_insert, decide_True. }
      assert (∀ n, line s6 n = if decide (n = num) then l <| il_depth ::= Z.pred |> else line s3 n) as El6.
      { intros n. unfold s6. rewrite line_insert. case_decide; [done|].
        change (line s5 n) with (line s4 n). unfold s4. by rewrite line_insert, decide_False. }
      destruct (Hfinish s6) as (s' & E' & Hok' & Ho & Hk); rewrite ?Ei6; try done.
      * cbn. lia.
      * intros k' Hk'. change (gmugos_irq s6 k') with (gmugos_irq s5 k'). unfold s5.
        by rewrite irq_insert, decide_False.
      * cbn. rewrite El6, decide_True by done. cbn. rewrite Hu. by left.
      * intros n u Hin. rewrite El6. case_decide; [subst; cbn; rewrite Hu; by right|done].
      * intros n i j. rewrite El6. case_decide as En; [|by apply (io_lines _ Hok3)]. subst n. cbn.
        intros _. destruct Hd as [[_ ->]|((i' & j' & us' & Eus) & ->)]; [done|].
        rewrite (io_lines _ Hok3 num i' j') by (rewrite Eus; left). done.
      * rewrite (bind_run _ _ _ _ _ E'). exists 0, s'. split; [done|]. split; [done|].
        split; [done|]. by left.
  - destruct (io_active _ Hok3 k ltac:(by rewrite Ea3)) as (r' & Er' & En' & Hin' & _).
    rewrite (bind_run _ _ s3 true s3) by done. cbn [when].
    destruct (Hfinish s3) as (s' & E' & Hok' & Ho & Hk); try done; [by apply (io_lines _ Hok3)|].
    rewrite (bind_run _ _ _ _ _ E'). exists 0, s'. split; [done|]. split; [done|].
    split; [done|]. by left.
Qed.

Lemma ok_irq_enable k mask_bits s s' :
  irqs_ok s → hgsl_gmugos_irq_enable k mask_bits s = Some (tt, s') → irqs_ok s'.
Proof.
  intros Hok E. destruct (Z.eq_dec (gi_num (gmugos_irq s k)) 0) as [En|En].
  { unfold hgsl_gmugos_irq_enable in E. rewrite (bind_run _ _ s (gmugos_irq s k) s) in E by done.
    rewrite En in E. by injection E as <-. }
  destruct (decide (activated s k = 0)) as [E0|E0]; [by rewrite (io_idle _ Hok k E0) in En|].
  destruct (io_active _ Hok k E0) as (r & Er & _).
  destruct (irq_enable_run k mask_bits s r Er En) as (s1 & E1 & F1 & F2 & F3 & _ & F5).
  rewrite E1 in E. injection E as <-. eapply ok_ext; try done. intros r' a Ha. rewrite F5.
  case_decide; [subst; by apply land_sub|done].
Qed.

(** Writing a register that is not a mask. *)
Lemma ok_write s r offset v :
  irqs_ok s → offset ≠ GMUGOS_REG_MASK →
  irqs_ok (s <| ir_regs ::= <[(r, offset) := v]> |> <| ir_log ::= λ l, l ++ [RegWrite r offset v] |>).
Proof.
  intros Hok Ho. eapply ok_ext; try done. intros r' a Ha.
  change (Z.land (reg (s <| ir_regs ::= <[(r, offset) := v]> |>) r' GMUGOS_REG_MASK) a = a).
  rewrite reg_insert. case_decide as E; [by injection E|done].
Qed.

(** The status that an interrupt reads has the bits of messages only if they are enabled. *)
Lemma isr_run k s :
  irqs_ok s → activated s k ≠ 0 →
  let val := irq_status (ir_clock s) in
  (has_flag val RGSGOS_IRQ_MASK = true → has_flag (activated s k) RGSGOS_IRQ_MASK = true) →
  ∃ r s', gi_regmap (gmugos_irq s k) = PTR r ∧
    hgsl_gmugos_isr k s =
      Some (if has_flag val RGSGOS_IRQ_MASK && (val =? RGSGOS_IRQ_MASK)
            then IRQ_HANDLED else IRQ_WAKE_THREAD, s') ∧
    irqs_ok s' ∧
    ir_log s' = ir_log s ++ RegWrite r GMUGOS_REG_CLR val ::
      (if has_flag val RGSGOS_IRQ_MASK then [QueueIpcq k.1 k.2] else []) ∧
    ir_irq s' = ir_irq s ∧ ir_activated_irq s' = ir_activated_irq s ∧ ir_lines s' = ir_lines s.
Proof.
  intros Hok Hk val Hval. destruct (io_active _ Hok k Hk) as (r & Er & _). exists r.
  unfold hgsl_gmugos_isr. rewrite (bind_run _ _ s (gmugos_irq s k) s) by done. rewrite Er.
  set (s1 := s <| ir_clock ::= S |>). unfold read_volatile, irq_ask.
  rewrite (bind_run _ _ s val s1) by done.
  set (s2 := s1 <| ir_regs ::= <[(r, GMUGOS_REG_CLR) := val]> |>
                <| ir_log ::= λ l, l ++ [RegWrite r GMUGOS_REG_CLR val] |>).
  rewrite (bind_run _ _ s1 tt s2) by done.
  assert (irqs_ok s2) as Hok2.
  { apply ok_write; [|done]. by eapply ok_ext. }
  destruct (has_flag val RGSGOS_IRQ_MASK) eqn:Ef; cbn [andb].
  - destruct (io_queue _ Hok k (Hval eq_refl)) as ((w & Ew) & Ewk). rewrite Ew, Ewk.
    set (s3 := s2 <| ir_log ::= λ l, l ++ [QueueIpcq k.1 k.2] |>).
    rewrite (bind_run _ _ s2 tt s3) by done. exists s3. split; [done|]. split; [done|].
    split_and!; try done; [by eapply ok_ext|]. cbn. by rewrite <- app_assoc.
  - exists s2. by split_and!.
Qed.

Lemma step_ok s s' : answers_ok → irqs_ok s → gmugos_step s s' → irqs_ok s'.
Proof.
  intros Ha Hok Hstep. revert Hok.
  destruct Hstep as [devhandle irq_idx mask_bits s0 ret s1 E|dev_id irq_idx bit_id s0 s1 E|k s0 ret s1 E|k s0 s1 E];
    intros Hok.
  - destruct (init_gmugos_run devhandle irq_idx mask_bits s0 Ha Hok) as (ret' & s2 & E2 & Hok2 & _).
    rewrite E in E2. by injection E2 as _ ->.
  - unfold hgsl_gmugos_irq_trigger in E. destruct (_ <=? _); [by injection E as <-|].
    rewrite (bind_run _ _ s0 (gmugos_irq s0 (dev_id, irq_idx)) s0) in E by done.
    destruct (_ =? _); [by injection E as <-|]. unfold hgsl_regmap_write in E.
    destruct (gi_regmap _) as [| |r]; try discriminate. injection E as <-. by apply ok_write.
  - unfold hgsl_gmugos_isr, read_volatile, irq_ask, irq_did in E.
    rewrite (bind_run _ _ s0 (gmugos_irq s0 k) s0) in E by done.
    destruct (gi_regmap _) as [| |r]; try discriminate.
    assert (irqs_ok (s0 <| ir_clock ::= S |>)) as Hok' by by eapply ok_ext.
    apply (ok_write _ r GMUGOS_REG_CLR (irq_status (ir_clock s0))) in Hok'; [|done].
    unfold hgsl_regmap_write, irq_did in E. inv_run.
    destruct (has_flag _ _); [|inv_run; by eapply ok_ext].
    repeat (case_match; try discriminate); inv_run; by eapply ok_ext.
  - by eapply ok_irq_enable.
Qed.

(** ** TCSR *)

(** A receiver from its request on, with the enables that are not yet undone. *)
Inductive tcsr_use (p : ptr) : irq_dev → Z → Prop :=
| UseRequest s t s' :
    ir_tcsrs s !! p = Some t → tc_irq_num t = 0 → tc_enable_count t = 0 →
    hgsl_tcsr_request (Some p) HGSL_TCSR_ROLE_RECEIVER true s = Some (inr p, s') → tcsr_use p s' 0
| UseEnable s n ret s' :
    tcsr_use p s n → n < U32_MAX → hgsl_tcsr_enable p s = Some (ret, s') → tcsr_use p s' (n + 1)
| UseDisable s n s' :
    tcsr_use p s n → 0 < n → hgsl_tcsr_disable p s = Some (tt, s') → tcsr_use p s' (n - 1)
| UseMask s n mask enable s' :
    tcsr_use p s n → hgsl_tcsr_irq_enable p mask enable s = Some (tt, s') → tcsr_use p s' n
| UseIsr s n ret s' :
    tcsr_use p s n → hgsl_tcsr_isr p s = Some (ret, s') → tcsr_use p s' n.

(** The count is the one of the receiver, and its line is enabled as it says. *)
Record counted (p : ptr) (s : irq_dev) (n : Z) (t : hgsl_tcsr) : Prop := {
  ct_tcsr : ir_tcsrs s !! p = Some t;
  ct_range : 0 ≤ n ≤ U32_MAX;
  ct_count : tc_enable_count t = n;
  ct_num : tc_irq_num t ≠ 0;
  ct_isr : tc_isr t = true;
  ct_users : il_users (line s (tc_irq_num t)) = [TcsrIrq p];
  ct_depth : il_depth (line s (tc_irq_num t)) = if 0 <? n then 0 else 1 }.

Lemma counted_ext p s s' n t :
  counted p s n t → ir_tcsrs s' = ir_tcsrs s → ir_lines s' = ir_lines s → counted p s' n t.
Proof. intros [] E1 E2. split; unfold line; rewrite ?E1, ?E2; done. Qed.

Lemma tcsr_run p t s : ir_tcsrs s !! p = Some t → tcsr p s = Some (t, s).
Proof. intros E. unfold tcsr. rewrite (bind_run _ _ s (Some t) s) by (unfold gets; by rewrite E). done. Qed.

Lemma set_tcsr_run p f t s :
  ir_tcsrs s !! p = Some t → set_tcsr p f s = Some (tt, s <| ir_tcsrs ::= <[p := f t]> |>).
Proof. intros E. unfold set_tcsr. by rewrite (bind_run _ _ _ _ _ (tcsr_run _ _ _ E)). Qed.

Lemma tcsr_enable_run p s n t :
  counted p s n t → n < U32_MAX →
  ∃ s', hgsl_tcsr_enable p s = Some (0, s') ∧ counted p s' (n + 1) (t <| tc_enable_count := n + 1 |>).
Proof.
  intros [Et Hn Ec En Ei Eu Ed] Hlt. unfold hgsl_tcsr_enable, U32_MAX in *.
  rewrite (bind_run _ _ _ _ _ (tcsr_run _ _ _ Et)), Ec, (proj2 (Z.eqb_neq _ _) En).
  assert (u32 (n + 1) = n + 1) as Hu by (apply u32_small; unfold is_u32; lia).
  destruct (Z.ltb_spec 0 n) as [Hpos|Hzero]; cbn [negb andb when].
  - rewrite (bind_run _ _ s tt s) by done. rewrite (bind_run _ _ _ _ _ (set_tcsr_run _ _ _ _ Et)).
    eexists. split; [reflexivity|]. cbn. rewrite Ec, Hu. split; cbn; try done; [apply lookup_insert_eq|unfold U32_MAX; lia|].
    change (il_depth (line s (tc_irq_num t)) = if 0 <? n + 1 then 0 else 1).
    rewrite Ed, (proj2 (Z.ltb_lt _ _)) by lia. done.
  - assert (n = 0) as -> by lia.
    set (s1 := s <| ir_lines ::= <[tc_irq_num t := (line s (tc_irq_num t)) <| il_depth ::= Z.pred |>]> |>).
    rewrite (bind_run _ _ s tt s1).
    2: { unfold enable_irq. rewrite (bind_run _ _ s (line s (tc_irq_num t)) s) by done. by rewrite Ed. }
    assert (ir_tcsrs s1 !! p = Some t) as Et1 by exact Et.
    rewrite (bind_run _ _ _ _ _ (set_tcsr_run _ _ _ _ Et1)).
    eexists. split; [reflexivity|]. cbn. rewrite Ec, Hu. split; cbn; try done; [apply lookup_insert_eq| |].
    + change (il_users (line s1 (tc_irq_num t)) = [TcsrIrq p]). unfold s1.
      by rewrite line_insert, decide_True.
    + change (il_depth (line s1 (tc_irq_num t)) = 0). unfold s1. rewrite line_insert, decide_True by done.
      cbn. by rewrite Ed.
Qed.

Lemma tcsr_disable_run p s n t :
  counted p s n t → 0 < n →
  ∃ s', hgsl_tcsr_disable p s = Some (tt, s') ∧ counted p s' (n - 1) (t <| tc_enable_count := n - 1 |>).
Proof.
  intros [Et Hn Ec En Ei Eu Ed] Hlt. unfold hgsl_tcsr_disable, U32_MAX in *.
  assert (u32 (n - 1) = n - 1) as Hu by (apply u32_small; unfold is_u32; lia).
  rewrite (bind_run _ _ _ _ _ (set_tcsr_run _ _ _ _ Et)). cbn. rewrite Ec, Hu.
  set (t' := t <| tc_enable_count := n - 1 |>). set (s1 := s <| ir_tcsrs ::= <[p := t']> |>).
  assert (ir_tcsrs s1 !! p = Some t') as Et1 by apply lookup_insert_eq.
  rewrite (bind_run _ _ _ _ _ (tcsr_run _ _ s1 Et1)).
  change (tc_irq_num t') with (tc_irq_num t). change (tc_enable_count t') with (n - 1).
  rewrite (proj2 (Z.eqb_neq _ _) En).
  rewrite (proj2 (Z.ltb_lt 0 n) Hlt) in Ed.
  destruct (Z.ltb_spec 0 (n - 1)) as [Hpos|Hzero]; cbn [negb andb when].
  - exists s1. split; [done|]. split; try done; [unfold U32_MAX; lia|].
    change (il_depth (line s (tc_irq_num t)) = if 0 <? n - 1 then 0 else 1).
    by rewrite Ed, (proj2 (Z.ltb_lt _ _)) by lia.
  - eexists. split; [apply set_line_run|].
    split; try done; [unfold U32_MAX; lia| |]; change (tc_irq_num t') with (tc_irq_num t);
      rewrite line_insert, decide_True by done; cbn; [done|].
    change (Z.succ (il_depth (line s (tc_irq_num t))) = if 0 <? n - 1 then 0 else 1).
    rewrite Ed, (proj2 (Z.ltb_ge _ _)) by lia. done.
Qed.

(** The request leaves the line disabled. *)
Lemma tcsr_request_run p s t s' :
  (∀ i, irq_request i ≤ 0) →
  ir_tcsrs s !! p = Some t → tc_irq_num t = 0 → tc_enable_count t = 0 →
  hgsl_tcsr_request (Some p) HGSL_TCSR_ROLE_RECEIVER true s = Some (inr p, s') →
  ∃ t', counted p s' 0 t'.
Proof.
  intros Hr Et En Ec. unfold hgsl_tcsr_request. rewrite (bind_run _ _ _ _ _ (tcsr_run _ _ _ Et)).
  destruct (bool_decide (tc_role t = HGSL_TCSR_ROLE_RECEIVER)); [|done].
  destruct (tc_client_dev t); [done|]. destruct (tc_isr t); [done|]. cbn [negb is_receiver].
  set (t1 := t <| tc_client_dev := true |> <| tc_isr := true |>).
  change (is_receiver HGSL_TCSR_ROLE_RECEIVER) with true. cbv iota.
  rewrite (bind_run _ _ _ _ _ (set_tcsr_run _ _ _ _ Et)).
  set (s1 := s <| ir_tcsrs ::= <[p := t1]> |>).
  assert (ir_tcsrs s1 !! p = Some t1) as Et1 by apply lookup_insert_eq.
  unfold hgsl_tcsr_init_receiver, irq_ask.
  intros (ret & s9 & E & Eend)%bind_Some.
  rewrite (bind_run _ _ _ _ _ (tcsr_run _ _ s1 Et1)) in E.
  change (tc_irq_num t1) with (tc_irq_num t) in E. rewrite En in E. cbn [Z.eqb negb] in E.
  set (s2 := s1 <| ir_clock ::= S |>) in *.
  rewrite (bind_run _ _ s1 (irq_syscon (ir_clock s1)) s2) in E by done.
  destruct (irq_syscon (ir_clock s1)) as [e|r]; cbn [eptr_of] in E.
  { rewrite (bind_run _ _ _ _ _ (set_tcsr_run p _ t1 s2 Et1)) in E. by injection E as <- <-. }
  rewrite (bind_run _ _ _ _ _ (set_tcsr_run p _ t1 s2 Et1)) in E.
  set (t3 := t1 <| tc_regmap := PTR r |>) in *. set (s3 := s2 <| ir_tcsrs ::= <[p := t3]> |>) in *.
  assert (ir_tcsrs s3 !! p = Some t3) as Et3 by apply lookup_insert_eq.
  set (num := irq_parse (ir_clock s3)) in *. set (s4 := s3 <| ir_clock ::= S |>) in *.
  rewrite (bind_run _ _ s3 num s4) in E by done.
  rewrite (bind_run _ _ _ _ _ (set_tcsr_run p _ t3 s4 Et3)) in E.
  set (t5 := t3 <| tc_irq_num := num |>) in *. set (s5 := s4 <| ir_tcsrs ::= <[p := t5]> |>) in *.
  assert (ir_tcsrs s5 !! p = Some t5) as Et5 by apply lookup_insert_eq.
  destruct (Z.eqb_spec num 0) as [Hz|Hnum]; [by injection E as <- <-|].
  destruct (request_irq_run num (TcsrIrq p) false s5) as (ret6 & s6 & E6 & Hcase).
  pose proof (request_irq_neg _ _ _ _ _ _ Hr E6) as Hneg.
  rewrite (bind_run _ _ _ _ _ E6) in E.
  destruct Hcase as [(Hne & ->)|(-> & l & -> & Hu & Hd)].
  { rewrite (proj2 (Z.ltb_lt _ _)) in E by lia.
    set (s6 := s5 <| ir_clock ::= S |>) in *.
    rewrite (bind_run _ _ _ _ _ (set_tcsr_run p _ t5 s6 Et5)) in E. injection E as <- <-.
    rewrite (proj2 (Z.eqb_neq _ _) Hne) in Eend. done. }
  change (0 <? 0) with false in E. cbv iota in E.
  destruct Hd as [[Hnil Hd]|(? & _)]; [|done].
  set (s6 := s5 <| ir_clock ::= S |> <| ir_lines ::= <[num := l]> |>) in *.
  unfold disable_irq in E. rewrite (bind_run _ _ _ _ _ (set_line_run num _ s6)) in E.
  injection E as <- <-. injection Eend as <-. exists t5.
  assert (∀ s7, s7 = s6 <| ir_lines ::= <[num := (line s6 num) <| il_depth ::= Z.succ |>]> |> →
    line s7 num = l <| il_depth ::= Z.succ |>) as El.
  { intros s7 ->. rewrite line_insert, decide_True by done. unfold s6.
    by rewrite line_insert, decide_True. }
  split; try done.
  - etrans; [exact (f_equal il_users (El _ eq_refl))|]. cbn. by rewrite Hu, Hnil.
  - etrans; [exact (f_equal il_depth (El _ eq_refl))|]. cbn. by rewrite Hd.
Qed.

Lemma tcsr_use_counted p s n :
  (∀ i, irq_request i ≤ 0) → tcsr_use p s n → ∃ t, counted p s n t.
Proof.
  intros Hr Huse. induction Huse as [s t s' Et En Ec E|s n ret s' _ (t & IH) Hn E|
    s n s' _ (t & IH) Hn E|s n mask enable s' _ (t & IH) E|s n ret s' _ (t & IH) E].
  - by eapply tcsr_request_run.
  - destruct (tcsr_enable_run _ _ _ _ IH Hn) as (s1 & E1 & Hc). rewrite E1 in E.
    injection E as _ <-. by eexists.
  - destruct (tcsr_disable_run _ _ _ _ IH Hn) as (s1 & E1 & Hc). rewrite E1 in E.
    injection E as <-. by eexists.
  - exists t. unfold hgsl_tcsr_irq_enable in E.
    rewrite (bind_run _ _ _ _ _ (tcsr_run _ _ _ (ct_tcsr _ _ _ _ IH))) in E.
    unfold hgsl_regmap_read, hgsl_regmap_write, irq_did in E.
    destruct (tc_regmap t) as [| |r]; try discriminate. inv_run. by eapply counted_ext.
  - exists t. unfold hgsl_tcsr_isr in E.
    rewrite (bind_run _ _ _ _ _ (tcsr_run _ _ _ (ct_tcsr _ _ _ _ IH))) in E.
    unfold hgsl_regmap_read, hgsl_regmap_write, irq_did, read_volatile, irq_ask in E.
    destruct (tc_regmap t) as [| |r]; try discriminate. clear Hr. inv_run.
    unfold tcsr_client_isr, irq_did in *.
    repeat (case_match; inv_run); by eapply counted_ext.
Qed.

(** ** The driver *)

(** A failure once the device has been found, other than of the queue itself. *)
Lemma init_global_db_fails role idx pdev s ret s' :
  ir_tcsr s idx role = None → irq_find_tcsr (ir_clock s) = Some pdev → ir_wq s = true →
  hgsl_init_global_db role idx s = Some (ret, s') → ret ≠ 0 → ir_wq s' = false.
Proof.
  intros Eold Efind Ewq E Hret. unfold hgsl_init_global_db in E.
  rewrite (bind_run _ _ s (ir_tcsr s idx role) s), Eold in E by done.
  unfold irq_ask at 1 in E. set (s1 := s <| ir_clock ::= S |>) in *.
  rewrite (bind_run _ _ s (irq_find_tcsr (ir_clock s)) s1), Efind in E by done.
  rewrite (bind_run _ _ s1 (ir_wq s1) s1) in E by done.
  change (ir_wq s1) with (ir_wq s) in E. rewrite Ewq, andb_false_r in E.
  rewrite (bind_run _ _ s1 true s1) in E by done. cbn [negb] in E.
  apply bind_Some in E as ([e|t] & s2 & E1 & E2); [inv_run; done|].
  apply bind_Some in E2 as (r & s3 & E2 & E3).
  assert (r = 0) as -> by (unfold hgsl_tcsr_enable in E2; by inv_run).
  change (negb (0 =? 0)) with false in E3. cbv iota in E3. inv_run. done.
Qed.
End spec.

(** * Properties *)

Section properties.
Context `{IrqKernel}.

(** C36. Asking for interrupts of the GMU-GOS block ends for all answers of the kernel and
    keeps the state in order; a request that adds bits has its handler on a line that is
    enabled, and the bits in the mask register; a request that fails changes no other
    interrupt, and a request that reports success without its bits does so only where
    nothing had been activated. *)
Theorem gmugos_init_exact devhandle irq_idx mask_bits s :
  answers_ok → irqs_ok s →
  let k := (hgsl_hnd2id devhandle, irq_idx) in
  ∃ ret s', hgsl_init_gmugos devhandle irq_idx mask_bits s = Some (ret, s') ∧ irqs_ok s' ∧
    (∀ k', k' ≠ k → activated s' k' = activated s k') ∧
    (ret = 0 ∧ activated s' k = Z.lor (activated s k) mask_bits ∧
       (mask_bits ≠ 0 → ∃ r, gi_regmap (gmugos_irq s' k) = PTR r ∧
          Z.land (reg s' r GMUGOS_REG_MASK) mask_bits = mask_bits ∧
          let l := line s' (gi_num (gmugos_irq s' k)) in
          GmugosIrq k.1 k.2 ∈ il_users l ∧ il_depth l = 0) ∨
     activated s' k = activated s k ∧ ir_lines s' = ir_lines s ∧ ir_log s' = ir_log s ∧
       (ret = 0 → activated s k = 0)).
Proof.
  intros Ha Hok k. destruct (init_gmugos_run devhandle irq_idx mask_bits s Ha Hok)
    as (ret & s' & E & Hok' & Ho & Hc). fold k in Ho, Hc.
  exists ret, s'. split_and!; try done. destruct Hc as [[-> Eact]|Hc]; [left|by right].
  split; [done|]. split; [done|]. intros Hm.
  assert (activated s' k ≠ 0) as Hk by (rewrite Eact; by intros [_ ?]%Z.lor_eq_0_iff).
  destruct (io_active _ Hok' k Hk) as (r & Er & En & Hin & Hl). exists r.
  split; [done|]. split; [|split; [exact Hin|exact (io_lines _ Hok' _ _ _ Hin)]].
  rewrite Eact in Hl. apply Z.bits_inj'. intros i Hi. rewrite Z.land_spec.
  apply (f_equal (λ z, Z.testbit z i)) in Hl. rewrite Z.land_spec, Z.lor_spec in Hl.
  by destruct (Z.testbit (reg s' r GMUGOS_REG_MASK) i), (Z.testbit mask_bits i),
    (Z.testbit (activated s k) i).
Qed.

(** C35. Over all sequences of requests, triggers, interrupts and wake-ups: every activated
    interrupt keeps its handler, its enabled line and its mask, and when it comes, with
    bits that are enabled, its handler clears exactly the bits that it has read, queues
    the reader of the IPC queue exactly if the bit of messages is among them, and leaves
    the rest to the thread unless that was the only one. *)
Theorem gmugos_reachable_ok tcsrs s :
  answers_ok → rtc gmugos_step (blank_irq_dev tcsrs) s →
  irqs_ok s ∧
  ∀ k, activated s k ≠ 0 →
    let val := irq_status (ir_clock s) in
    (has_flag val RGSGOS_IRQ_MASK = true → has_flag (activated s k) RGSGOS_IRQ_MASK = true) →
    ∃ r s', gi_regmap (gmugos_irq s k) = PTR r ∧
      hgsl_gmugos_isr k s =
        Some (if has_flag val RGSGOS_IRQ_MASK && (val =? RGSGOS_IRQ_MASK)
              then IRQ_HANDLED else IRQ_WAKE_THREAD, s') ∧
      ir_log s' = ir_log s ++ RegWrite r GMUGOS_REG_CLR val ::
        (if has_flag val RGSGOS_IRQ_MASK then [QueueIpcq k.1 k.2] else []) ∧
      ir_irq s' = ir_irq s ∧ ir_activated_irq s' = ir_activated_irq s ∧ ir_lines s' = ir_lines s.
Proof.
  intros Ha Hreach.
  assert (irqs_ok s) as Hok.
  { remember (blank_irq_dev tcsrs) as s0 eqn:E0.
    assert (irqs_ok s0) as H0.
    { subst s0. split; try done. intros n i j Hin. by apply elem_of_nil in Hin. }
    clear E0. induction Hreach as [|s0 s1 s Hstep _ IH]; [done|]. apply IH. by eapply step_ok. }
  split; [done|]. intros k Hk val Hval.
  destruct (isr_run k s Hok Hk Hval) as (r & s' & ? & ? & _ & ?). by exists r, s'.
Qed.

(** C37. The interrupt of a TCSR receiver is on exactly while it is used: over all
    sequences of enabling and disabling, each disabling undoing one enabling, with masks
    changed and interrupts handled in between, the line is enabled if and only if some
    enabling is not yet undone, which is what hgsl_tcsr_is_enabled says; and both calls
    return. *)
Theorem tcsr_enabled_exact p s n :
  (∀ i, irq_request i ≤ 0) → tcsr_use p s n →
  ∃ t, ir_tcsrs s !! p = Some t ∧ tc_enable_count t = n ∧
    hgsl_tcsr_is_enabled t = (0 <? n) ∧
    il_users (line s (tc_irq_num t)) = [TcsrIrq p] ∧
    il_depth (line s (tc_irq_num t)) = (if 0 <? n then 0 else 1) ∧
    (n < U32_MAX → ∃ s', hgsl_tcsr_enable p s = Some (0, s')) ∧
    (0 < n → ∃ s', hgsl_tcsr_disable p s = Some (tt, s')).
Proof.
  intros Hr Huse. destruct (tcsr_use_counted p s n Hr Huse) as (t & Hc). exists t.
  pose proof Hc as [Et Hn Ec En Ei Eu Ed]. unfold hgsl_tcsr_is_enabled. rewrite Ec.
  split_and!; try done.
  - intros Hlt. destruct (tcsr_enable_run p s n t Hc Hlt) as (s' & E & _). by exists s'.
  - intros Hlt. destruct (tcsr_disable_run p s n t Hc Hlt) as (s' & E & _). by exists s'.
Qed.

(** A TCSR that cannot be had takes the queue from all the others: afterwards every
    receiver that gets its interrupt queues its work on a queue that is gone. *)
Theorem failed_tcsr_stops_receivers role idx pdev s ret s' :
  ir_tcsr s idx role = None → irq_find_tcsr (ir_clock s) = Some pdev → ir_wq s = true →
  hgsl_init_global_db role idx s = Some (ret, s') → ret ≠ 0 →
  ∀ p t r, ir_tcsrs s' !! p = Some t → tc_isr t = true → tc_regmap t = PTR r →
    Z.land (irq_status (ir_clock s')) GLB_DB_DEST_TS_RETIRE_IRQ_MASK ≠ 0 →
    hgsl_tcsr_isr p s' = None.
Proof.
  intros Eold Efind Ewq E Hret p t r Et Ei Er Hst.
  pose proof (init_global_db_fails _ _ _ _ _ _ Eold Efind Ewq E Hret) as Ewq'.
  unfold hgsl_tcsr_isr. rewrite (bind_run _ _ _ _ _ (tcsr_run _ _ _ Et)), Er, Ei.
  unfold read_volatile, irq_ask, hgsl_regmap_write, irq_did.
  unfold mbind, M_bind, gets, modify, mret, M_ret. cbn.
  unfold tcsr_client_isr. rewrite (proj2 (Z.eqb_neq _ _) Hst).
  unfold mbind, M_bind, gets, modify, mret, M_ret, fault. cbn. by rewrite Ewq'.
Qed.
End properties.

(** * Concrete runs *)

(** A kernel with one line for all, and interrupts with both bits. *)
#[local] Instance demo_irq : IrqKernel :=
  {| irq_byname := λ _, 33; irq_request := λ _, 0; irq_syscon := λ _, inr 7%positive;
     irq_alloc_wq := λ _, Some 8%positive; irq_parse := λ _, 40; irq_status := λ _, 768;
     irq_reset := λ _ _, 0; irq_find_tcsr := λ _, Some 1%positive;
     irq_resource := λ _, Some (4096, 4096); irq_region := λ _, true;
     irq_ioremap := λ _, Some 9%positive |}.

Lemma demo_answers_ok : answers_ok.
Proof. by split; cbn. Qed.

Definition demo_receiver : hgsl_tcsr :=
  {| tc_client_dev := false; tc_regmap := NULL; tc_glb_regmap := NULL;
     tc_role := HGSL_TCSR_ROLE_RECEIVER; tc_enable_count := 0; tc_irq_num := 0; tc_isr := false |}.

Definition demo_irq_dev : irq_dev := blank_irq_dev {[1%positive := demo_receiver]}.

Lemma blank_ok tcsrs : irqs_ok (blank_irq_dev tcsrs).
Proof. split; try done. intros n i j Hin. by apply elem_of_nil in Hin. Qed.

Lemma gmugos_init_exact_witness :
  ∃ s', hgsl_init_gmugos GSL_HANDLE_DEV1 2 RGSGOS_IRQ_MASK demo_irq_dev = Some (0, s') ∧
    irqs_ok s'.
Proof.
  destruct (gmugos_init_exact GSL_HANDLE_DEV1 2 RGSGOS_IRQ_MASK demo_irq_dev demo_answers_ok
    (blank_ok _)) as (ret & s' & E & Hok & _).
  exists s'. split; [|exact Hok].
  assert (fst <$> hgsl_init_gmugos GSL_HANDLE_DEV1 2 RGSGOS_IRQ_MASK demo_irq_dev = Some 0) as E'
    by (vm_compute; reflexivity).
  rewrite E in E'. cbn [fmap option_fmap option_map fst] in E'. injection E' as ->. exact E.
Defined.

Lemma gmugos_reachable_ok_witness :
  ∃ s, rtc gmugos_step demo_irq_dev s ∧ irqs_ok s ∧ activated s (1, 2) = RGSGOS_IRQ_MASK ∧
    ∃ r s', hgsl_gmugos_isr (1, 2) s = Some (IRQ_WAKE_THREAD, s') ∧
      ir_log s' = ir_log s ++ [RegWrite r GMUGOS_REG_CLR 768; QueueIpcq 1 2].
Proof.
  destruct (hgsl_init_gmugos GSL_HANDLE_DEV1 2 RGSGOS_IRQ_MASK demo_irq_dev) as [[ret s]|] eqn:E;
    [|vm_compute in E; discriminate].
  assert ((λ x : Z * irq_dev, activated x.2 (1, 2)) <$>
    hgsl_init_gmugos GSL_HANDLE_DEV1 2 RGSGOS_IRQ_MASK demo_irq_dev = Some RGSGOS_IRQ_MASK) as Ea
    by (vm_compute; reflexivity).
  rewrite E in Ea. cbn [fmap option_fmap option_map snd] in Ea. injection Ea as Ea.
  assert (rtc gmugos_step demo_irq_dev s) as Hr by (eapply rtc_once, StepInit, E).
  destruct (gmugos_reachable_ok _ s demo_answers_ok Hr) as [Hok Hisr]. exists s.
  split; [exact Hr|]. split; [exact Hok|]. split; [exact Ea|].
  destruct (Hisr (1, 2)) as (r & s' & _ & E1 & E2 & _).
  - rewrite Ea. vm_compute. discriminate.
  - rewrite Ea. intros _. reflexivity.
  - exists r, s'. split; [exact E1|exact E2].
Defined.

Lemma tcsr_enabled_exact_witness :
  ∃ s t, tcsr_use 1 s 1 ∧ ir_tcsrs s !! 1%positive = Some t ∧ hgsl_tcsr_is_enabled t = true ∧
    il_depth (line s (tc_irq_num t)) = 0.
Proof.
  destruct (hgsl_tcsr_request (Some 1%positive) HGSL_TCSR_ROLE_RECEIVER true demo_irq_dev)
    as [[[e|q] s0]|] eqn:E0; try (vm_compute in E0; discriminate).
  assert (q = 1%positive) as -> by (vm_compute in E0; congruence).
  assert (tcsr_use 1 s0 0) as H0 by by eapply UseRequest, E0.
  destruct (tcsr_enabled_exact 1 s0 0 (ao_request demo_answers_ok) H0) as (t0 & _ & _ & _ & _ & _ & Hen & _).
  destruct Hen as (s1 & E1); [done|].
  assert (tcsr_use 1 s1 1) as H1 by by eapply (UseEnable 1 s0 0), E1.
  destruct (tcsr_enabled_exact 1 s1 1 (ao_request demo_answers_ok) H1) as (t1 & Et & _ & Hi & _ & Hd & _).
  exists s1, t1. split; [exact H1|]. split; [exact Et|]. split; [exact Hi|exact Hd].
Defined.

(** A request for a TCSR whose interrupt cannot be had does not return: the code writes
    to the error in the place of the device. *)
Theorem failed_request_faults :
  let kernel := {| irq_byname := λ _, 33; irq_request := λ _, - EBUSY; irq_syscon := λ _, inr 7%positive;
     irq_alloc_wq := λ _, Some 8%positive; irq_parse := λ _, 40; irq_status := λ _, 768;
     irq_reset := λ _ _, 0; irq_find_tcsr := λ _, Some 1%positive;
     irq_resource := λ _, Some (4096, 4096); irq_region := λ _, true;
     irq_ioremap := λ _, Some 9%positive |} in
  @hgsl_tcsr_request kernel (Some 1%positive) HGSL_TCSR_ROLE_RECEIVER true demo_irq_dev = None.
Proof. vm_compute. reflexivity. Qed.
