(* ===== verification/CtxtIoctl.v ===== *)
(** The life of a context (hgsl.c): the ioctls that create and destroy one, over all the
    parts it has: its entry in the table, its events and its hardware timeline, its half
    in the backend with the shadow timestamps, its doorbell queue, its channel. *)

From S2P Require Import Prelude.
From S2P Require Import Rbtree.
From S2P Require Import MemTree.
From S2P Require Import State.
From S2P Require Import Timestamp.
From S2P Require Import Hsync.
From S2P Require Import Context.
From S2P Require Import Events.
From S2P Require Import Dispatch.
From S2P Require Import Irq.
From S2P Require Import Doorbell.
From S2P Require Import Gpuaddr.
From S2P Require Import Bytes.
From S2P Require Import Parcel.
From S2P Require Import Hyp.
From S2P Require Import HypPool.
From S2P Require Import HypCalls.
From S2P Require Import SharedMem.
From S2P Require Import Mmu.
From S2P Require Import MemIoctl.
From S2P Require Import CtxtCreate.

(** * State *)

Definition GSL_CONTEXT_FLAG_BIND : Z := 0x00040000.
Definition HGSL_SYNC_TYPE_HSYNC : Z := 1.
Definition HGSL_SYNC_TYPE_ISYNC : Z := 2.
Definition HGSL_DBQ_CONTEXT_DESTROY_OFFSET_IN_DWORD : Z := 2.
Definition HGSL_CTXT_QUEUE_TOTAL_SIZE : Z :=
  ALIGN (HGSL_CTXT_QUEUE_INDIRECT_IB_SIZE + HGSL_CTXT_QUEUE_INDIRECT_IB_OFFSET) 4096.
Definition MAX_DB_QUEUE : Z := 9.
Definition DB_SIGNAL_INVALID : Z := 0.
Definition DB_SIGNAL_LOCAL : Z := 3.
Definition DB_SIGNAL_MAX : Z := DB_SIGNAL_LOCAL.

Inductive dbq_state := DB_STATE_Q_UNINIT | DB_STATE_Q_FAULT | DB_STATE_Q_INIT_DONE.

#[export] Instance dbq_state_eq_dec : EqDecision dbq_state.
Proof. solve_decision. Defined.

(** The part of struct doorbell_queue that is about setting it up, with its entry of
    hgsl->dbq_info; the rest is at [qs_queue] in [w_dbq]. *)
Record dbq_setup := {
  qs_state : dbq_state;
  qs_dma : option ptr;
  qs_vbase : bool;              (* vbase is not NULL *)
  qs_tcsr_idx : Z;
  qs_queue : ptr;
  qs_info : hgsl_dbq_info }.

#[export] Instance dbq_setup_eta : Eta dbq_setup := λ r,
  {| qs_state := qs_state r; qs_dma := qs_dma r; qs_vbase := qs_vbase r;
     qs_tcsr_idx := qs_tcsr_idx r; qs_queue := qs_queue r; qs_info := qs_info r |}.

(** The driver as a request of one process finds it.  A context has one half in the world
    and one in [dr_backs], at the same address; [dr_held] are the buffers of doorbell
    queues that have been imported, [dr_open] those that the CPU has access to.
    params->ctxthandle of the request, and its dbq_info. *)
Record driver := {
  dr_world : world;
  dr_dev : mem_dev;
  dr_backs : gmap ptr ctxt_back;
  dr_access : list ptr;
  dr_irqs : irq_dev;
  dr_global : hgsl_hyp_priv_t;
  dr_global_inited : bool;
  dr_dbqs : gmap Z dbq_setup;
  dr_held : list ptr;
  dr_open : list ptr;
  dr_ctxthandle : Z;
  dr_dbq_info : Z;
  dr_clock : nat }.

#[export] Instance driver_eta : Eta driver := λ r,
  {| dr_world := dr_world r; dr_dev := dr_dev r; dr_backs := dr_backs r;
     dr_access := dr_access r; dr_irqs := dr_irqs r; dr_global := dr_global r;
     dr_global_inited := dr_global_inited r; dr_dbqs := dr_dbqs r; dr_held := dr_held r;
     dr_open := dr_open r; dr_ctxthandle := dr_ctxthandle r; dr_dbq_info := dr_dbq_info r;
     dr_clock := dr_clock r |}.

(** What the kernel answers, and what the memory of the backend holds. *)
Class DriverEnv := {
  drv_alloc : nat → bool;                (* hgsl_zalloc *)
  drv_vmap : nat → Z;                    (* dma_buf_vmap_unlocked of a doorbell queue *)
  drv_queue : nat → list Z;              (* the dwords of it *)
  drv_shadow : nat → shadow_ts;          (* the shadow timestamps as they are mapped *)
  drv_dma_buf_fd : nat → Z }.

(** struct qcom_hgsl, what of it the requests do not change. *)
Record driver_cfg := {
  dc_mem : hgsl_cfg;
  dc_rec_buf_size_KB : Z → Z }.          (* gvm_settings[].ctxt_rec_buf_size_KB *)

(** Out of hgsl_zalloc; nobody looks at the owner before it is set. *)
Definition zeroed_context (priv : ptr) : hgsl_context :=
  (fresh_context priv 0 0 None) <| c_devhandle := 0 |> <| c_kref := 0 |> <| c_tcsr_idx := 0 |>.

(** * Operations *)

Section driver.
Context `{Rbtree} `{SharedMem} `{Hab} `{MemEnv} `{IrqKernel} `{DriverEnv} `{K : Kernel} `{I : IssueCmd}.

Abbreviation DV := (M driver).

Definition drv_ask {A} (q : nat → A) : DV A :=
  a ← gets (λ s, q (dr_clock s)); modify (λ s, s <| dr_clock ::= S |>) ;; mret a.

(** ** The parts *)

Definition in_world {A} (m : M world A) : DV A := λ s,
  '(a, w) ← m (dr_world s); Some (a, s <| dr_world := w |>).

Definition in_dev {A} (m : M mem_dev A) : DV A := λ s,
  '(a, d) ← m (dr_dev s); Some (a, s <| dr_dev := d |>).

Definition in_hyp {A} (m : M hgsl_hyp_priv_t A) : DV A := in_dev (on_hyp m).

Definition in_irqs {A} (m : M irq_dev A) : DV A := λ s,
  '(a, i) ← m (dr_irqs s); Some (a, s <| dr_irqs := i |>).

Definition in_global {A} (m : M hgsl_hyp_priv_t A) : DV A := λ s,
  '(a, hy) ← m (dr_global s); Some (a, s <| dr_global := hy |>).

(** ctxt->shadow_ts is in both halves. *)
Definition shared_shadow (t : nat) (cb : ctxt_back) (c : hgsl_context) : hgsl_context :=
  c <| c_shadow_ts :=
         if is_null (cb_shadow_ts cb) then None
         else Some (default (drv_shadow t) (c_shadow_ts c)) |>.

Definition on_back {A} (p : ptr) (m : M creation A) : DV A := λ s,
  cb ← dr_backs s !! p;
  '(a, r) ← m {| cr_dev := dr_dev s; cr_ctxt := cb; cr_ctxthandle := dr_ctxthandle s;
                 cr_dbq_info := dr_dbq_info s; cr_access := dr_access s |};
  Some (a, s <| dr_dev := cr_dev r |> <| dr_backs ::= <[p := cr_ctxt r]> |>
             <| dr_ctxthandle := cr_ctxthandle r |> <| dr_dbq_info := cr_dbq_info r |>
             <| dr_access := cr_access r |>
             <| dr_world ::= λ w, w <| w_contexts ::=
                  alter (shared_shadow (dr_clock s) (cr_ctxt r)) p |> |>
             <| dr_clock ::= S |>).

Definition back (p : ptr) : DV ctxt_back := o ← gets (λ s, dr_backs s !! p); of_option o.

Definition the_context (p : ptr) : DV hgsl_context := in_world (load w_contexts p).

Definition free_context (p : ptr) : DV unit :=
  in_world (free w_contexts p) ;; modify (λ s, s <| dr_backs ::= delete p |>).

(** ** The doorbell queues of the device *)

Definition dbq (i : Z) : DV dbq_setup := o ← gets (λ s, dr_dbqs s !! i); of_option o.

Definition set_dbq (i : Z) (f : dbq_setup → dbq_setup) : DV unit :=
  q ← dbq i; modify (λ s, s <| dr_dbqs ::= <[i := f q]> |>).

Definition hgsl_reset_dbq (i : Z) : DV unit :=
  q ← dbq i;
  match qs_dma q with
  | None => mret tt
  | Some b =>
      modify (λ s, s <| dr_open ::= end_access b |>) ;;
      when (qs_vbase q)
        (in_world (update w_dbq (qs_queue q) (λ q, q <| q_mem := [] |>)) ;;
         set_dbq i (λ q, q <| qs_vbase := false |>)) ;;
      modify (λ s, s <| dr_held ::= end_access b |>) ;;
      set_dbq i (λ q, q <| qs_dma := None |>)
  end ;;
  set_dbq i (λ q, q <| qs_state := DB_STATE_Q_UNINIT |>).

(** The buffer is there from the moment the call has imported it. *)
Definition get_dbq_info (i : Z) : DV Z :=
  q ← dbq i;
  '(ret, info) ← in_global (hgsl_hyp_get_dbq_info i (qs_info q));
  set_dbq i (λ q, q <| qs_info := info |>) ;;
  when (ret =? 0)
    (modify (λ s, s <| dr_held ::= λ l, match di_dma_buf info with Some b => b :: l | None => l end |>)) ;;
  mret ret.

(** dbq->data; what lies past the mapping is not there. *)
Definition map_queue (info : hgsl_dbq_info) (mem : list Z) (q : doorbell_queue) : doorbell_queue :=
  q <| q_mem := mem |> <| q_data := Z.to_nat (di_queue_off_dwords info) |>
    <| q_dwords := di_queue_dwords info |>.

(** The queue that has been asked for is mapped and its doorbell is set up. *)
Definition open_dbq (i db_signal : Z) : DV Z :=
  q ← dbq i;
  let info := qs_info q in
  set_dbq i (λ q, q <| qs_state := DB_STATE_Q_FAULT |> <| qs_dma := di_dma_buf info |>) ;;
  in_world (update w_dbq (qs_queue q) (λ q,
    q <| q_dbq_idx := i |> <| q_gmuaddr := di_gmuaddr info |>
      <| q_ibdesc_max_size := di_ibdesc_max_size info |> <| q_seq_num := 0 |>)) ;;
  ret ← match di_dma_buf info with
        | None => mret (- EINVAL)
        | Some b => modify (λ s, s <| dr_open ::= cons b |>) ;; drv_ask drv_vmap
        end;
  if negb (ret =? 0) then mret ret
  else
    mem ← drv_ask drv_queue;
    set_dbq i (λ q, q <| qs_vbase := true |>) ;;
    in_world (update w_dbq (qs_queue q) (map_queue info mem)) ;;
    let tcsr_idx := if negb (db_signal =? DB_SIGNAL_LOCAL) then db_signal - DB_SIGNAL_GLOBAL_0
                    else -1 in
    ret ← in_irqs (hgsl_init_db_signal tcsr_idx);
    when (ret =? 0)
      (set_dbq i (λ q, q <| qs_tcsr_idx := tcsr_idx |> <| qs_state := DB_STATE_Q_INIT_DONE |>)) ;;
    mret ret.

Definition hgsl_dbq_init (dbq_idx db_signal : Z) : DV Z :=
  if (db_signal <=? DB_SIGNAL_INVALID) || (DB_SIGNAL_MAX <? db_signal) then mret (- EINVAL)
  else if MAX_DB_QUEUE <=? dbq_idx then mret (- EINVAL)
  else if (dbq_idx =? GLB_DB_DEST_TS_RETIRE_IRQ_ID) && negb (db_signal =? DB_SIGNAL_LOCAL)
  then mret (- EINVAL)
  else
    q ← dbq dbq_idx;
    if decide (qs_state q = DB_STATE_Q_INIT_DONE) then mret 0
    else
      ret ← get_dbq_info dbq_idx;
      ret ← (if negb (ret =? 0) then mret ret else open_dbq dbq_idx db_signal);
      when (negb (ret =? 0)) (hgsl_reset_dbq dbq_idx) ;;
      mret ret.

(** ** The queue of a context *)

Definition hgsl_dbcq_init (ctxt : ptr) (db_signal gmuaddr irq_bit_idx : Z) : DV unit :=
  if (db_signal <=? HGSL_DB_SIGNAL_NONE) || (HGSL_DB_SIGNAL_MAX <? db_signal) ||
     (gmuaddr =? 0) || (irq_bit_idx =? GLB_DB_DEST_TS_RETIRE_IRQ_ID)
  then mret tt
  else
    alloc ← in_world (State.ask k_alloc);
    if negb alloc then mret tt
    else
      c ← the_context ctxt;
      '(ret, tcsr_idx) ←
        (if is_gmugos db_signal then
           ret ← in_irqs (hgsl_init_gmugos (c_devhandle c) (db_signal - HGSL_DB_SIGNAL_GMU_GOS_0)
                            GMUGOS_IRQ_MASK);
           mret (ret, -1)
         else
           ret ← in_irqs (hgsl_init_db_signal (db_signal - DB_SIGNAL_GLOBAL_0));
           mret (ret, db_signal - DB_SIGNAL_GLOBAL_0));
      when (ret =? 0)
        (in_world (update w_contexts ctxt (λ c,
           c <| c_tcsr_idx := tcsr_idx |>
             <| c_dbcq := Some (mk_dbcq db_signal 0 gmuaddr irq_bit_idx 0 None) |>
             <| c_db_signal := db_signal |>))).

Definition u32_minus_1 : Z := 4294967295.

(** The context gets the queue that its information names. *)
Definition use_dbq (ctxt : ptr) (dbq_info : Z) : DV Z :=
  if dbq_info =? u32_minus_1 then mret (- EINVAL)
  else
    let dbq_idx := Z.shiftr dbq_info 16 in
    let db_signal := Z.land dbq_info 0xFFFF in
    ret ← hgsl_dbq_init dbq_idx db_signal;
    if negb (ret =? 0) then mret ret
    else
      q ← dbq dbq_idx;
      in_world (update w_contexts ctxt (λ c,
        c <| c_dbq := Some (qs_queue q) |> <| c_tcsr_idx := qs_tcsr_idx q |>
          <| c_db_signal := db_signal |>)) ;;
      c ← the_context ctxt;
      in_world (hgsl_dbq_set_state_info (qs_queue q) HGSL_DBQ_METADATA_CONTEXT_INFO (c_context_id c)
                  HGSL_DBQ_CONTEXT_DESTROY_OFFSET_IN_DWORD 0) ;;
      mret 0.

Definition hgsl_ctxt_create_dbq (o : option ptr) (ctxt : ptr) (dbq_info : Z)
    (dbq_info_checked : bool) : DV Z :=
  c ← the_context ctxt;
  '(ret, l) ← in_hyp (hgsl_hyp_query_dbcq o (c_devhandle c) (c_context_id c) HGSL_CTXT_QUEUE_TOTAL_SIZE);
  if ret =? 0 then
    match l with
    | [db_signal; queue_gmuaddr; irq_bit_idx] =>
        hgsl_dbcq_init ctxt db_signal queue_gmuaddr irq_bit_idx ;; mret 0
    | _ => fault
    end
  else if dbq_info_checked then use_dbq ctxt dbq_info
  else
    '(ret, info) ← in_hyp (hgsl_hyp_dbq_create o (c_context_id c));
    if negb (ret =? 0) then mret ret else use_dbq ctxt (default dbq_info info).

(** ** Destroying a context *)

(** The context of a doorbell queue gives its buffer for indirect submissions back; it is
    taken from it where the caller cannot retry. *)
Definition release_ibdesc (turns : nat) (ctxt dbq : ptr) (can_retry : bool) : DV Z :=
  ret ← in_world (dbq_wait_free_ibdesc turns ctxt HGSL_DBQ_IBDESC_REQUEST_RELEASE false);
  when (negb (ret =? 0) && negb can_retry)
    (in_world (update w_dbq dbq (λ q, q <| q_buf_inuse := false |>))) ;;
  mret ret.

(** [while (!ctxt->destroyed) cpu_relax()]: others run until the last reference goes. *)
Fixpoint wait_destroyed (turns : nat) (ctxt : ptr) : DV unit :=
  c ← the_context ctxt;
  if c_destroyed c then mret tt
  else
    match turns with
    | O => fault
    | S turns =>
        n ← in_world tick;
        in_world (modify (k_interfere n)) ;;
        wait_destroyed turns ctxt
    end.

(** The record of the context, out of the tree of the process first. *)
Definition drop_ctxt_record (cfg : driver_cfg) (ctxt : ptr) (dev_hnd : Z) : DV unit :=
  cb ← back ctxt;
  match cb_ctxt_record_mem_node cb with
  | None => mret tt
  | Some r =>
      in_dev (erase_node Allocated r) ;;
      in_dev (mmu_put_gpuaddr (dc_mem cfg) true (Some r)) ;;
      _ ← in_dev (hgsl_mmu_unmap (dc_mem cfg) true (Some r) true dev_hnd);
      in_dev (on_shm (hgsl_sharedmem_free (Some r))) ;;
      on_back ctxt (set_ctxt (λ cb, cb <| cb_ctxt_record_mem_node := None |>))
  end.

(** What a context has in the backend: the shadow timestamps go first when they are the
    backend's and last when they are the driver's. *)
Definition destroy_back (cfg : driver_cfg) (o : option ptr) (ctxt : ptr) (dev_hnd : Z)
    (want_rval : bool) : DV (Z * option Z) :=
  cb ← back ctxt;
  when (negb (cb_is_fe_shadow cb)) (on_back ctxt (_cleanup_shadow o)) ;;
  c ← the_context ctxt;
  r ← in_hyp (hgsl_hyp_ctxt_destroy o (c_devhandle c) (c_context_id c) want_rval (c_dbcq_export_id c));
  drop_ctxt_record cfg ctxt dev_hnd ;;
  in_world (hgsl_dbcq_close ctxt) ;;
  cb ← back ctxt;
  when (cb_is_fe_shadow cb) (on_back ctxt (_cleanup_shadow o)) ;;
  free_context ctxt ;;
  mret r.

(** Nobody finds the context any more, and nobody is left who has. *)
Definition retire_context (fuel turns : nat) (ctxt : ptr) : DV unit :=
  in_world (update w_contexts ctxt (λ c, c <| c_in_destroy := true |>)) ;;
  _ ← in_world (hgsl_ctxt_detach_drawobjs fuel ctxt);
  in_world (emit (A_wake_up_waiters ctxt)) ;;
  in_world (hgsl_put_context (Some ctxt)) ;;
  wait_destroyed turns ctxt ;;
  in_world (hgsl_dispatch_ctxt_deinit ctxt).

(** [hab_channel] is the caller's, or none: then there is one for the time of the call,
    and without it the context goes and what it has stays. *)
Definition destroy_rest (cfg : driver_cfg) (hab_channel : option ptr) (ctxt : ptr) (dev_hnd : Z)
    (want_rval : bool) : DV (Z * option Z) :=
  match hab_channel with
  | Some _ => destroy_back cfg hab_channel ctxt dev_hnd want_rval
  | None =>
      '(ret, o) ← in_hyp (hgsl_hyp_channel_pool_get 0);
      if negb (ret =? 0) then free_context ctxt ;; mret (ret, None)
      else
        r ← destroy_back cfg o ctxt dev_hnd want_rval;
        in_hyp (hgsl_hyp_channel_pool_put o) ;;
        mret r
  end.

Definition hgsl_ctxt_destroy (cfg : driver_cfg) (turns fuel : nat) (priv : ptr)
    (hab_channel : option ptr) (dev_hnd context_id : Z) (want_rval can_retry : bool) :
    DV (Z * option Z) :=
  found ← in_world (hgsl_get_context dev_hnd context_id);
  match found with
  | None => mret (- EINVAL, None)
  | Some p =>
      c ← the_context p;
      busy ← match c_dbq c with
             | None => mret 0
             | Some dbq => release_ibdesc turns p dbq can_retry
             end;
      in_world (hgsl_put_context (Some p)) ;;
      if negb (busy =? 0) && can_retry then mret (busy, None)
      else
        found ← in_world (hgsl_remove_context priv dev_hnd context_id);
        match found with
        | None => mret (- EINVAL, None)
        | Some p =>
            retire_context fuel turns p ;; destroy_rest cfg hab_channel p dev_hnd want_rval
        end
  end.

Definition hgsl_ioctl_ctxt_destroy (cfg : driver_cfg) (turns fuel : nat) (priv : ptr)
    (devhandle ctxthandle : Z) : DV (Z * option Z) :=
  '(ret, o) ← in_hyp (hgsl_hyp_channel_pool_get 0);
  r ← (if negb (ret =? 0) then mret (ret, None)
       else hgsl_ctxt_destroy cfg turns fuel priv o devhandle ctxthandle true true);
  in_hyp (hgsl_hyp_channel_pool_put o) ;;
  mret r.

(** ** Creating a context *)

(** The flags as the backend gets them. *)
Definition create_flags (flags : Z) : Z :=
  let flags := if has_flag flags GSL_CONTEXT_FLAG_CLIENT_GENERATED_TS
               then Z.lor flags GSL_CONTEXT_FLAG_USER_GENERATED_TS else flags in
  if has_flag flags GSL_CONTEXT_FLAG_BIND
  then Z.lor (Z.land flags (u32 (Z.lnot GSL_CONTEXT_FLAG_CLIENT_GENERATED_TS)))
             GSL_CONTEXT_FLAG_USER_GENERATED_TS
  else flags.

Definition set_handle_of (h : Z) : DV unit := modify (λ s, s <| dr_ctxthandle := h |>).

(** The call that older backends have. *)
Definition create_legacy (o : option ptr) (ctxt : ptr) (prm : create_params) (pid : Z) : DV Z :=
  '(ret, h) ← in_hyp (hgsl_hyp_ctxt_create o (pr_devhandle prm) (pr_type prm) (pr_flags prm));
  match h with Some h => set_handle_of h | None => mret tt end ;;
  if negb (ret =? 0) then mret ret
  else
    h ← gets dr_ctxthandle;
    if HGSL_CONTEXT_NUM <=? h then mret (- EINVAL)
    else on_back ctxt (set_ctxt (set_created prm pid h)) ;; mret 0.

(** The context in the backend, and whether the backend has spoken of a queue. *)
Definition create_back (cfg : driver_cfg) (o : option ptr) (ctxt : ptr) (prm : create_params)
    (pid : Z) (dbq_off : bool) : DV (Z * bool) :=
  let dev_id := hgsl_hnd2id (pr_devhandle prm) in
  ret ← on_back ctxt
    (if get_fv_status (dc_mem cfg) dev_id
     then hgsl_hyp_ctxt_create_v2 (dc_mem cfg) o prm pid (dc_rec_buf_size_KB cfg dev_id)
     else hgsl_hyp_ctxt_create_v1 (dc_mem cfg) o prm pid dbq_off);
  if negb (ret =? 0) then ret ← create_legacy o ctxt prm pid; mret (ret, false)
  else mret (0, true).

(** The half in the world is set up from the other one. *)
Definition init_context (ctxt : ptr) : DV unit :=
  cb ← back ctxt;
  in_world (update w_contexts ctxt (λ c,
    c <| c_context_id := cb_context_id cb |> <| c_devhandle := cb_devhandle cb |>
      <| c_flags := cb_flags cb |> <| c_kref := 1 |>)) ;;
  in_world (hgsl_add_event_group ctxt).

(** The entry of the table; the number of a context is one of it. *)
Definition enter_context (dev_id : Z) (ctxt : ptr) : DV bool :=
  c ← the_context ctxt;
  table ← gets (λ s, w_table (dr_world s));
  if negb ((0 <=? c_context_id c) && (c_context_id c <? HGSL_CONTEXT_NUM)) then fault
  else
    match table !! (dev_id, c_context_id c) with
    | Some _ => mret false
    | None =>
        in_world (modify (λ w, w <| w_table ::= <[(dev_id, c_context_id c) := ctxt]> |>)) ;;
        mret true
    end.

(** The return code, whether the context is in the table, and params->sync_type. *)
Definition register_context (o : option ptr) (ctxt : ptr) (dev_id : Z) (dbq_off checked : bool) :
    DV (Z * bool * Z) :=
  init_context ctxt ;;
  on_back ctxt (hgsl_get_shadowts_mem o) ;;
  dbq_info ← gets dr_dbq_info;
  when (negb dbq_off) (_ ← hgsl_ctxt_create_dbq o ctxt dbq_info checked; mret tt) ;;
  c ← the_context ctxt;
  ret ← (if hgsl_use_gmugos_or_global_dbq c then in_world (hgsl_hsync_timeline_create ctxt)
         else mret 0);
  c ← the_context ctxt;
  let sync_type := match c_timeline c with
                   | Some _ => HGSL_SYNC_TYPE_HSYNC
                   | None => HGSL_SYNC_TYPE_ISYNC
                   end in
  entered ← enter_context dev_id ctxt;
  mret (if (entered : bool) then ret else - EBUSY, entered, sync_type).

(** What is done about a context that could not be created: it is destroyed in the backend
    by the numbers it has by then, if params->ctxthandle is the number of a context. *)
Definition drop_created (cfg : driver_cfg) (turns fuel : nat) (priv : ptr) (o : option ptr)
    (ctxt : ptr) (devhandle : Z) (created : bool) : DV unit :=
  h ← gets dr_ctxthandle;
  if created then _ ← hgsl_ctxt_destroy cfg turns fuel priv o devhandle h false false; mret tt
  else if h <? HGSL_CONTEXT_NUM then
    cb ← back ctxt;
    when (negb (cb_is_fe_shadow cb)) (on_back ctxt (_cleanup_shadow o)) ;;
    c ← the_context ctxt;
    cb ← back ctxt;
    _ ← in_hyp (hgsl_hyp_ctxt_destroy o (cb_devhandle cb) (cb_context_id cb) false (c_dbcq_export_id c));
    in_world (hgsl_dbcq_close ctxt) ;;
    when (cb_is_fe_shadow cb) (on_back ctxt (_cleanup_shadow o)) ;;
    free_context ctxt
  else mret tt.

Definition new_context (priv : ptr) : DV (option ptr) :=
  ok ← drv_ask drv_alloc;
  if negb (ok : bool) then mret None
  else
    p ← in_world fresh_ptr;
    in_world (store w_contexts p (zeroed_context priv)) ;;
    modify (λ s, s <| dr_backs ::= <[p := zeroed_ctxt]> |>) ;;
    mret (Some p).

Definition create_on (cfg : driver_cfg) (turns fuel : nat) (priv : ptr) (pid : Z) (o : option ptr)
    (prm : create_params) : DV (Z * option Z) :=
  inited ← gets dr_global_inited;
  let dbq_off := negb inited || k_db_off in
  p ← new_context priv;
  match p with
  | None => mret (- ENOMEM, None)
  | Some p =>
      let prm := {| pr_devhandle := pr_devhandle prm; pr_type := pr_type prm;
                    pr_flags := create_flags (pr_flags prm) |} in
      '(ret, checked) ← create_back cfg o p prm pid dbq_off;
      '(ret, created, sync_type) ←
        (if negb (ret =? 0) then mret (ret, false, None)
         else
           '(ret, created, sync_type) ←
             register_context o p (hgsl_hnd2id (pr_devhandle prm)) dbq_off checked;
           mret (ret, created, Some sync_type));
      when (negb (ret =? 0)) (drop_created cfg turns fuel priv o p (pr_devhandle prm) created) ;;
      mret (ret, sync_type)
  end.

(** The number in params->ctxthandle is what the user has written there, until the backend
    gives one. *)
Definition hgsl_ioctl_ctxt_create (cfg : driver_cfg) (turns fuel : nat) (priv : ptr) (pid : Z)
    (prm : create_params) (ctxthandle : Z) : DV (Z * option Z) :=
  modify (λ s, s <| dr_ctxthandle := ctxthandle |> <| dr_dbq_info := u32_minus_1 |>) ;;
  if HGSL_DEVICE_NUM <=? hgsl_hnd2id (pr_devhandle prm) then mret (- EINVAL, None)
  else
    '(ret, o) ← in_hyp (hgsl_hyp_channel_pool_get 0);
    r ← (if negb (ret =? 0) then mret (ret, None)
         else create_on cfg turns fuel priv pid o prm);
    in_hyp (hgsl_hyp_channel_pool_put o) ;;
    mret r.

(** ** Shadow timestamps of the user *)

(** params->flags, size and fd. *)
Definition hgsl_ioctl_get_shadowts_mem (priv : ptr) (devhandle ctxthandle : Z) :
    DV (Z * option (Z * Z * Z)) :=
  let devhandle := if devhandle =? 0 then GSL_HANDLE_DEV0 else devhandle in
  p ← in_world (hgsl_get_context_owner priv devhandle ctxthandle);
  match p with
  | None => mret (- EINVAL, None)
  | Some p =>
      cb ← back p;
      r ← match cb_shadow_ts_node cb with
          | None => mret (- ENODEV, None)
          | Some q =>
              n ← in_dev (on_shm (node q));
              match mn_dma_buf n with
              | NULL => mret (0, Some (cb_shadow_ts_flags cb, mn_size64 n, -1))
              | ERR_PTR _ => fault
              | PTR b =>
                  in_dev (on_shm (get_dma_buf b)) ;;
                  fd ← drv_ask drv_dma_buf_fd;
                  if fd <? 0 then
                    in_dev (on_shm (dma_buf_put b)) ;;
                    mret (- ENOMEM, Some (cb_shadow_ts_flags cb, mn_size64 n, fd))
                  else
                    in_dev (modify (λ s, s <| md_files ::= <[fd := b]> |>)) ;;
                    mret (0, Some (cb_shadow_ts_flags cb, mn_size64 n, fd))
              end
          end;
      in_world (hgsl_put_context (Some p)) ;;
      mret r
  end.

Definition hgsl_ioctl_put_shadowts_mem (priv : ptr) (devhandle ctxthandle : Z) : DV Z :=
  let devhandle := if devhandle =? 0 then GSL_HANDLE_DEV0 else devhandle in
  p ← in_world (hgsl_get_context_owner priv devhandle ctxthandle);
  match p with
  | Some p => in_world (hgsl_put_context (Some p)) ;; mret 0
  | None => mret (- EINVAL)
  end.
End driver.

(** * Lemmas *)

(** [w'] is [w] with [c] as the context at [p]; only the trace and the count of questions
    have gone on. *)
Definition steps_to (p : ptr) (c : hgsl_context) (w w' : world) : Prop :=
  ∃ tr cl, w' = (with_context w p c) <| w_trace := tr |> <| w_clock := cl |>.

Section retire.
Context `{K : Kernel} `{I : IssueCmd}.

Lemma steps_to_context p c w w' : steps_to p c w w' → w_contexts w' !! p = Some c.
Proof. intros (tr & cl & ->). apply lookup_insert_eq. Qed.

Lemma steps_to_trans p c1 c2 w w1 w2 : steps_to p c1 w w1 → steps_to p c2 w1 w2 → steps_to p c2 w w2.
Proof.
  intros (t1 & k1 & ->) (t2 & k2 & ->). exists t2, k2. unfold with_context. cbn.
  by rewrite insert_insert_eq.
Qed.

Lemma steps_to_with p c w : steps_to p c w (with_context w p c).
Proof. exists (w_trace w), (w_clock w). by destruct w. Qed.

Lemma steps_to_refl p c w : w_contexts w !! p = Some c → steps_to p c w w.
Proof. intros Hc. pose proof (steps_to_with p c w) as H. by rewrite with_context_id in H. Qed.

Lemma steps_to_tick p c w n : w_contexts w !! p = Some c → steps_to p c w (w <| w_clock := n |>).
Proof.
  intros Hc. exists (w_trace w), n. rewrite with_context_id by done. by destruct w.
Qed.

Lemma steps_to_emit p c w t : w_contexts w !! p = Some c → steps_to p c w (w <| w_trace := t |>).
Proof.
  intros Hc. exists t, (w_clock w). rewrite with_context_id by done. by destruct w.
Qed.

Lemma read_timestamp_steps p c type old w :
  w_contexts w !! p = Some c → 0 < c_kref c →
  ∃ r w', hgsl_read_timestamp p type old w = Some (r, w') ∧ steps_to p c w w'.
Proof.
  intros Hc Hk. unfold hgsl_read_timestamp.
  rewrite (bind_run _ _ _ _ _ (context_get_run w p c Hc ltac:(lia))). cbn [negb].
  set (c1 := c <| c_kref := c_kref c + 1 |>). set (w1 := with_context w p c1).
  assert (∃ r ts, get_context_shadow_ts p type w1 = Some ((r, ts), w1)) as (r & ts & E).
  { unfold get_context_shadow_ts. run_load (with_context_lookup w p c1). unfold mret, M_ret.
    destruct (c_shadow_ts c1); [|by eexists _, _]. repeat case_match; by eexists _, _. }
  rewrite (bind_run _ _ _ _ _ E), (bind_run _ _ _ _ _ (get_put_id w p c Hc Hk)).
  destruct (r =? 0).
  - eexists _, w. split; [reflexivity|]. by apply steps_to_refl.
  - run_load Hc. eexists _, _. split; [reflexivity|]. by apply steps_to_tick.
Qed.

(** A context that nobody else uses and that has nothing to do. *)
Record idle_context (c : hgsl_context) : Prop := {
  ic_kref : c_kref c = 1;
  ic_alive : c_destroyed c = false;
  ic_events : eg_events (c_event_group c) = [];
  ic_drawq : c_drawq_head c = c_drawq_tail c;
  ic_dispatch : c_dispatch c = None;
  ic_timeline : c_timeline c = None;
  ic_dbq : c_dbq c = None }.

(** What the backend knows it by. *)
Definition same_back_end (c c' : hgsl_context) : Prop :=
  c_devhandle c' = c_devhandle c ∧ c_context_id c' = c_context_id c ∧
  c_dbcq_export_id c' = c_dbcq_export_id c ∧ c_priv c' = c_priv c.

Lemma flush_steps p c w :
  w_contexts w !! p = Some c → 0 < c_kref c → eg_events (c_event_group c) = [] →
  ∃ retired w', hgsl_flush_event_group p w = Some (tt, w') ∧
    steps_to p (c <| c_event_group := mk_group [] retired |>) w w'.
Proof.
  intros Hc Hk He. unfold hgsl_flush_event_group, _process_event_group.
  rewrite (bind_run _ _ _ _ _ (context_get_run w p c Hc ltac:(lia))). cbn [negb].
  set (c1 := c <| c_kref := c_kref c + 1 |>). set (w1 := with_context w p c1).
  rewrite (bind_run _ _ w1 _ (w1 <| w_clock := S (w_clock w1) |>)) by reflexivity.
  set (w2 := w1 <| w_clock := _ |>).
  assert (Hs2 : steps_to p c1 w w2).
  { eapply steps_to_trans; [apply steps_to_with|]. apply steps_to_tick, with_context_lookup. }
  destruct (read_timestamp_steps p c1 GSL_TIMESTAMP_RETIRED (k_uninit (w_clock w1)) w2)
    as ([ret retired] & w3 & E3 & Hs3); [by eapply steps_to_context|cbn; lia|].
  rewrite (bind_run _ _ _ _ _ E3). pose proof (steps_to_trans _ _ _ _ _ _ Hs2 Hs3) as Hs.
  pose proof (steps_to_context _ _ _ _ Hs) as Hc3. run_load Hc3. cbn [negb andb when].
  change (c_event_group c1) with (c_event_group c). rewrite He.
  set (c4 := c1 <| c_event_group := mk_group [] retired |>).
  rewrite (bind_run _ _ w3 tt (with_context w3 p c4)).
  2:{ rewrite (bind_run _ _ w3 [] w3) by done. unfold set_events.
      rewrite (bind_run _ _ _ _ _ (update_run _ _ _ _ _ Hc3)).
      rewrite (update_run _ _ _ _ (c1 <| c_event_group ::= λ g, g <| eg_events := [] |> |>))
        by apply lookup_insert_eq.
      f_equal. f_equal. unfold with_context, upd. cbn. by rewrite insert_insert_eq. }
  eexists retired, _. split; [apply (put_context_run _ p c4); [apply with_context_lookup|cbn; lia]|].
  eapply steps_to_trans; [exact Hs|]. rewrite with_context_twice.
  replace (c4 <| c_kref := c_kref c4 - 1 |>) with (c <| c_event_group := mk_group [] retired |>).
  - apply steps_to_with.
  - unfold c4, c1. destruct c. cbn. f_equal. lia.
Qed.

Lemma detach_steps fuel p c w :
  w_contexts w !! p = Some c → 0 < c_kref c → eg_events (c_event_group c) = [] →
  c_drawq_head c = c_drawq_tail c → c_dispatch c = None →
  ∃ retired w', hgsl_ctxt_detach_drawobjs fuel p w = Some (true, w') ∧
    steps_to p (c <| c_event_group := mk_group [] retired |>) w w'.
Proof.
  intros Hc Hk He Hq Hd. unfold hgsl_ctxt_detach_drawobjs.
  rewrite (bind_run _ _ _ _ _ (context_get_run w p c Hc ltac:(lia))). cbn [negb].
  set (c1 := c <| c_kref := c_kref c + 1 |>). set (w1 := with_context w p c1).
  rewrite (bind_run _ _ w1 tt (w1 <| w_trace ::= λ t, t ++ [A_wake_up_drawq p] |>)) by reflexivity.
  set (w2 := w1 <| w_trace ::= _ |>).
  assert (Hs2 : steps_to p c1 w w2).
  { eapply steps_to_trans; [apply steps_to_with|]. apply steps_to_emit, with_context_lookup. }
  destruct (flush_steps p c1 w2) as (retired & w3 & E3 & Hs3);
    [by eapply steps_to_context|cbn; lia|exact He|].
  rewrite (bind_run _ _ _ _ _ E3). pose proof (steps_to_trans _ _ _ _ _ _ Hs2 Hs3) as Hs.
  pose proof (steps_to_context _ _ _ _ Hs) as Hc3. set (c3 := c1 <| c_event_group := _ |>) in *.
  rewrite (bind_run _ _ w3 [] w3).
  2:{ change CONTEXT_DRAWQUEUE_SIZE with (S 127). cbn [detach_loop]. run_load Hc3.
      change (c_drawq_head c3) with (c_drawq_head c). change (c_drawq_tail c3) with (c_drawq_tail c).
      by rewrite Hq, Nat.eqb_refl. }
  rewrite (bind_run _ _ w3 tt w3) by done. run_load Hc3.
  change (c_dispatch c3) with (c_dispatch c). rewrite Hd. rewrite (bind_run _ _ w3 true w3) by done.
  rewrite (bind_run _ _ w3 tt _ (put_context_run _ p c3 Hc3 ltac:(cbn; lia))).
  eexists retired, _. split; [reflexivity|]. eapply steps_to_trans; [exact Hs|].
  replace (c3 <| c_kref := c_kref c3 - 1 |>) with (c <| c_event_group := mk_group [] retired |>).
  - apply steps_to_with.
  - unfold c3, c1. destruct c. cbn. f_equal. lia.
Qed.

(** The last reference goes, and nothing has to be undone. *)
Lemma put_last_steps p c w :
  w_contexts w !! p = Some c → c_kref c = 1 → c_timeline c = None → c_dbq c = None →
  ∃ w', hgsl_put_context (Some p) w = Some (tt, w') ∧
    steps_to p (c <| c_kref := 0 |> <| c_destroyed := true |>) w w'.
Proof.
  intros Hc Hk Ht Hd. unfold hgsl_put_context, kref_put. run_load Hc. rewrite Hk.
  change (1 =? 0) with false. cbv iota. set (c1 := c <| c_kref := 1 - 1 |>).
  set (w1 := with_context w p c1). rewrite (bind_run _ _ w tt w1) by done.
  change (1 - 1 =? 0) with true. cbn [when]. unfold _destroy_context.
  pose proof (with_context_lookup w p c1 : w_contexts w1 !! p = Some c1) as Hc1.
  run_load Hc1. change (c_timeline c1) with (c_timeline c). rewrite Ht.
  rewrite (bind_run _ _ w1 tt w1) by done. change (c_dbq c1) with (c_dbq c). rewrite Hd.
  rewrite (bind_run _ _ w1 tt w1) by done.
  eexists. split; [apply (update_run _ _ _ _ _ Hc1)|].
  eapply steps_to_trans; [apply steps_to_with|]. apply steps_to_with.
Qed.

(** The look-up that gives the context, and the one that takes it out of the table. *)
Lemma get_put_context_run dev_hnd id p c w :
  hgsl_hnd2id dev_hnd < HGSL_DEVICE_NUM → id < HGSL_CONTEXT_NUM →
  w_table w !! (hgsl_hnd2id dev_hnd, id) = Some p → w_contexts w !! p = Some c → 0 < c_kref c →
  hgsl_get_context dev_hnd id w =
    Some (Some p, with_context w p (c <| c_kref := c_kref c + 1 |>)).
Proof.
  intros Hd Hi Ht Hc Hk. unfold hgsl_get_context.
  destruct (Z.leb_spec HGSL_DEVICE_NUM (hgsl_hnd2id dev_hnd)); [lia|].
  destruct (Z.ltb_spec id HGSL_CONTEXT_NUM); [|lia].
  rewrite (bind_run _ _ w (w_table w) w), Ht by done.
  rewrite (bind_run _ _ w tt (with_context w p (c <| c_kref := c_kref c + 1 |>))); [done|].
  unfold kref_get. run_load Hc. by destruct (Z.eqb_spec (c_kref c) 0); [lia|].
Qed.

Lemma remove_context_run priv dev_hnd id p c w :
  hgsl_hnd2id dev_hnd < HGSL_DEVICE_NUM → 0 ≤ id < HGSL_CONTEXT_NUM →
  w_table w !! (hgsl_hnd2id dev_hnd, id) = Some p → w_contexts w !! p = Some c → c_priv c = priv →
  hgsl_remove_context priv dev_hnd id w =
    Some (Some p, w <| w_table ::= delete (hgsl_hnd2id dev_hnd, id) |>).
Proof.
  intros Hd Hi Ht Hc Hp. unfold hgsl_remove_context.
  destruct (Z.leb_spec HGSL_DEVICE_NUM (hgsl_hnd2id dev_hnd)); [lia|].
  destruct (Z.leb_spec 0 id); [|lia]. destruct (Z.ltb_spec id HGSL_CONTEXT_NUM); [|lia]. cbn [andb negb].
  rewrite (bind_run _ _ w (w_table w) w), Ht by done. run_load Hc.
  rewrite bool_decide_eq_true_2 by done.
  by rewrite (bind_run _ _ w tt (w <| w_table ::= delete (hgsl_hnd2id dev_hnd, id) |>)) by done.
Qed.
End retire.

Section steps.
Context `{Rbtree} `{SharedMem} `{Hab} `{MemEnv} `{IrqKernel} `{DriverEnv} `{K : Kernel} `{I : IssueCmd}.

Abbreviation DV := (M driver).

Lemma wp_in_world {A B} (m : M world A) (k : A → DV B) P s a w :
  m (dr_world s) = Some (a, w) → wp (k a) P (s <| dr_world := w |>) → wp (in_world m ≫= k) P s.
Proof. intros E Hk. unfold wp. rewrite (bind_run _ _ s a (s <| dr_world := w |>)); [done|]. unfold in_world. by rewrite E. Qed.

Lemma wp_in_world_last {A} (m : M world A) P s a w :
  m (dr_world s) = Some (a, w) → P a (s <| dr_world := w |>) → wp (in_world m) P s.
Proof. intros E HP. unfold wp, in_world. by rewrite E. Qed.

Lemma wp_in_hyp {A B} (m : M hgsl_hyp_priv_t A) (k : A → DV B) P s a hy :
  m (md_hyp (dr_dev s)) = Some (a, hy) →
  wp (k a) P (s <| dr_dev ::= λ d, d <| md_hyp := hy |> |>) → wp (in_hyp m ≫= k) P s.
Proof.
  intros E Hk. unfold wp. rewrite (bind_run _ _ s a (s <| dr_dev ::= λ d, d <| md_hyp := hy |> |>)); [done|].
  unfold in_hyp, in_dev, on_hyp. by rewrite E.
Qed.

Lemma wp_the_context {B} p c (k : hgsl_context → DV B) P s :
  w_contexts (dr_world s) !! p = Some c → wp (k c) P s → wp (the_context p ≫= k) P s.
Proof.
  intros Hc Hk. eapply wp_in_world; [exact (load_run _ _ _ _ Hc)|]. by destruct s.
Qed.

Lemma wp_back {B} p cb (k : ctxt_back → DV B) P s :
  dr_backs s !! p = Some cb → wp (k cb) P s → wp (back p ≫= k) P s.
Proof.
  intros Hc Hk. unfold wp. rewrite (bind_run _ _ s cb s); [done|].
  unfold back. rewrite (bind_run _ _ s (Some cb) s); [done|]. unfold gets. by rewrite Hc.
Qed.

Definition creation_of (s : driver) (cb : ctxt_back) : creation :=
  {| cr_dev := dr_dev s; cr_ctxt := cb; cr_ctxthandle := dr_ctxthandle s;
     cr_dbq_info := dr_dbq_info s; cr_access := dr_access s |}.

Definition after_back (p : ptr) (s : driver) (r : creation) : driver :=
  s <| dr_dev := cr_dev r |> <| dr_backs ::= <[p := cr_ctxt r]> |>
    <| dr_ctxthandle := cr_ctxthandle r |> <| dr_dbq_info := cr_dbq_info r |>
    <| dr_access := cr_access r |>
    <| dr_world ::= λ w, w <| w_contexts ::=
         alter (shared_shadow (dr_clock s) (cr_ctxt r)) p |> |>
    <| dr_clock ::= S |>.

Lemma wp_on_back {A B} p cb (m : M creation A) (k : A → DV B) P s :
  dr_backs s !! p = Some cb →
  wp m (λ a r, wp (k a) P (after_back p s r)) (creation_of s cb) → wp (on_back p m ≫= k) P s.
Proof.
  intros Hc Hm. apply wp_run in Hm as (a & r & E & Hk). unfold wp.
  rewrite (bind_run _ _ s a (after_back p s r)); [done|].
  unfold on_back. rewrite Hc. cbn [mbind option_bind]. unfold creation_of in E. by rewrite E.
Qed.

(** The clean-up, as [cleanup_wp] has it. *)
Definition before_shadow (base : shm) (acc : list ptr) (s : driver) : creation :=
  {| cr_dev := (dr_dev s) <| md_shm := base |>; cr_ctxt := zeroed_ctxt; cr_ctxthandle := 0;
     cr_dbq_info := 0; cr_access := acc |}.

Record shadow_ready (k : shadow_kind) (q : ptr) (base : shm) (acc : list ptr) (cb : ctxt_back)
    (s : driver) : Prop := {
  sr_new : new_shadow k base;
  sr_ctxt : shadow_of k q cb acc (dr_access s);
  sr_mem : shadowed (before_shadow base acc s) k q (md_shm (dr_dev s));
  sr_fresh : match k with FeShadow _ _ => shm_fresh (md_shm (dr_dev s)) | _ => True end }.

Lemma dev_eta (d : mem_dev) base :
  d = d <| md_shm := base |> <| md_hyp := md_hyp d |> <| md_shm := md_shm d |>.
Proof. by destruct d. Qed.

Lemma wp_cleanup {B} p c hy0 k q base acc cb (kk : unit → DV B) P s :
  dr_backs s !! p = Some cb → held hy0 c (md_hyp (dr_dev s)) → shadow_ready k q base acc cb s →
  (∀ hy' sh' cb' s', held hy0 c hy' → same_memory base sh' → cb_shadow_ts_node cb' = None →
     cb_ctxt_record_mem_node cb' = cb_ctxt_record_mem_node cb →
     s' = after_back p s {| cr_dev := (dr_dev s) <| md_hyp := hy' |> <| md_shm := sh' |>; cr_ctxt := cb';
       cr_ctxthandle := dr_ctxthandle s; cr_dbq_info := dr_dbq_info s; cr_access := acc |} →
     wp (kk tt) P s') →
  wp (on_back p (_cleanup_shadow (Some c)) ≫= kk) P s.
Proof.
  intros Hb Hh [Hnew Hctx Hmem Hfr] Hk. eapply wp_on_back; [exact Hb|].
  unfold creation_of. rewrite (dev_eta (dr_dev s) base) at 1.
  eapply (cleanup_wp (before_shadow base acc s) hy0 c k q); [by apply held_idle|exact Hnew|exact Hctx|exact Hmem|exact Hfr|].
  intros hy' sh' cb' [Hh' _] Hs Ets En Er. by eapply (Hk hy' sh' cb').
Qed.

(** Nothing is left of the shadow timestamps: the clean-up does nothing. *)
Lemma wp_cleanup_none {B} p c cb (kk : unit → DV B) P s :
  dr_backs s !! p = Some cb → cb_shadow_ts_node cb = None →
  wp (kk tt) P (after_back p s (creation_of s cb)) →
  wp (on_back p (_cleanup_shadow (Some c)) ≫= kk) P s.
Proof.
  intros Hb Hn Hk. eapply wp_on_back; [exact Hb|]. unfold _cleanup_shadow. apply (wp_bind (gets cr_ctxt)).
  unfold wp at 1, gets. cbn [cr_ctxt creation_of]. rewrite Hn. by apply wp_ret.
Qed.

(** Everything that is not of the context at [p], its memory apart. *)
Record elsewhere (p : ptr) (s s' : driver) : Prop := {
  el_contexts : delete p (w_contexts (dr_world s')) = delete p (w_contexts (dr_world s));
  el_table : w_table (dr_world s') = w_table (dr_world s);
  el_groups : w_event_groups (dr_world s') = w_event_groups (dr_world s);
  el_backs : delete p (dr_backs s') = delete p (dr_backs s);
  el_dbqs : dr_dbqs s' = dr_dbqs s;
  el_irqs : dr_irqs s' = dr_irqs s;
  el_isync : w_isync (dr_world s') = w_isync (dr_world s);
  el_idr : w_isync_idr (dr_world s') = w_isync_idr (dr_world s);
  el_allocated : md_allocated (dr_dev s') = md_allocated (dr_dev s);
  el_mapped : md_mapped (dr_dev s') = md_mapped (dr_dev s);
  el_global : dr_global s' = dr_global s }.

#[export] Instance elsewhere_preorder p : PreOrder (elsewhere p).
Proof. split; [by split|]. intros s1 s2 s3 [] []. split; congruence. Qed.

Lemma elsewhere_back p s r :
  md_allocated (cr_dev r) = md_allocated (dr_dev s) → md_mapped (cr_dev r) = md_mapped (dr_dev s) →
  elsewhere p s (after_back p s r).
Proof.
  intros Ea Em. split; cbn; try done; [|apply delete_insert_eq]. apply map_eq. intros q.
  destruct (decide (q = p)) as [->|?]; [by rewrite !lookup_delete_eq|].
  by rewrite !lookup_delete_ne, lookup_alter_ne by done.
Qed.

Lemma elsewhere_hyp p s hy : elsewhere p s (s <| dr_dev ::= λ d, d <| md_hyp := hy |> |>).
Proof. done. Qed.

Lemma elsewhere_context p c s :
  elsewhere p s (s <| dr_world := with_context (dr_world s) p c |>).
Proof. split; cbn; try done. apply delete_insert_eq. Qed.

Lemma elsewhere_steps p c s w :
  steps_to p c (dr_world s) w → elsewhere p s (s <| dr_world := w |>).
Proof. intros (tr & cl & ->). split; cbn; try done. apply delete_insert_eq. Qed.

(** What is left once the context is gone. *)
Record gone (p c : ptr) (hy0 : hgsl_hyp_priv_t) (base : shm) (acc : list ptr) (s s' : driver) : Prop := {
  gn_held : held hy0 c (md_hyp (dr_dev s'));
  gn_memory : same_memory base (md_shm (dr_dev s'));
  gn_access : dr_access s' = acc;
  gn_back : dr_backs s' !! p = None;
  gn_context : w_contexts (dr_world s') !! p = None;
  gn_elsewhere : elsewhere p s s' }.

Lemma wp_free_context p c hy0 base acc s0 s (r : Z * option Z) (P : Z * option Z → driver → Prop) :
  held hy0 c (md_hyp (dr_dev s)) → same_memory base (md_shm (dr_dev s)) → dr_access s = acc →
  elsewhere p s0 s → (∀ s', gone p c hy0 base acc s0 s' → P r s') →
  wp (free_context p ;; mret r : DV (Z * option Z)) P s.
Proof.
  intros Hh Hm Ha He HP. unfold wp. 
  set (s' := s <| dr_world ::= λ w, w <| w_contexts ::= delete p |> |> <| dr_backs ::= delete p |>).
  rewrite (bind_run _ _ s tt s') by done. apply HP. split; [done..| | |].
  - cbn. apply lookup_delete_eq.
  - cbn. apply lookup_delete_eq.
  - etrans; [exact He|]. split; cbn; try done; apply delete_delete_eq.
Qed.

(** The end of it: with the driver's own buffer there is a clean-up left to do. *)
Lemma wp_destroy_tail cfg c p hy0 k q base acc cb ctx dev_hnd (r : Z * option Z) s0 s
    (P : Z * option Z → driver → Prop) :
  dr_backs s !! p = Some cb → w_contexts (dr_world s) !! p = Some ctx →
  held hy0 c (md_hyp (dr_dev s)) → cb_ctxt_record_mem_node cb = None → elsewhere p s0 s →
  (shadow_ready k q base acc cb s ∨
   cb_shadow_ts_node cb = None ∧ same_memory base (md_shm (dr_dev s)) ∧ dr_access s = acc) →
  (cb_is_fe_shadow cb = false → cb_shadow_ts_node cb = None) →
  (∀ s', gone p c hy0 base acc s0 s' → P r s') →
  wp (drop_ctxt_record cfg p dev_hnd ;;
      in_world (hgsl_dbcq_close p) ;;
      cb ← back p;
      when (cb_is_fe_shadow cb) (on_back p (_cleanup_shadow (Some c))) ;;
      free_context p ;;
      mret r) P s.
Proof.
  intros Hb Hc Hh Hr He Hsh Hfe HP. unfold drop_ctxt_record.
  apply wp_bind. eapply wp_back; [exact Hb|]. rewrite Hr. apply wp_ret.
  eapply wp_in_world; [exact (update_run _ _ _ _ _ Hc)|].
  set (w1 := upd w_contexts _ _). set (s1 := s <| dr_world := w1 |>).
  assert (elsewhere p s0 s1) as He1 by (etrans; [exact He|apply elsewhere_context]).
  eapply (wp_back p cb); [exact Hb|].
  assert (cb_shadow_ts_node cb = None → same_memory base (md_shm (dr_dev s)) → dr_access s = acc →
    wp (when (cb_is_fe_shadow cb) (on_back p (_cleanup_shadow (Some c))) ;;
        free_context p ;; mret r) P s1) as Hnone.
  { intros Hn Hm Ha. destruct (cb_is_fe_shadow cb); cbn [when].
    - eapply wp_cleanup_none; [exact Hb|exact Hn|].
      eapply (wp_free_context p c hy0 base acc s0); [exact Hh|exact Hm|exact Ha| |exact HP].
      etrans; [exact He1|by apply elsewhere_back].
    - apply (wp_bind (mret tt)), wp_ret.
      eapply (wp_free_context p c hy0 base acc s0); [exact Hh|exact Hm|exact Ha|exact He1|exact HP]. }
  destruct Hsh as [Hsh|(Hn & Hm & Ha)]; [|by apply Hnone].
  destruct (cb_is_fe_shadow cb) eqn:Efe.
  - cbn [when]. eapply (wp_cleanup p c hy0 k q base acc cb); [exact Hb|exact Hh|by destruct Hsh; split|].
    intros hy' sh' cb' s' Hh' Hm' _ _ ->.
    eapply (wp_free_context p c hy0 base acc s0); [exact Hh'|exact Hm'|done| |exact HP].
    etrans; [exact He1|by apply elsewhere_back].
  - destruct Hsh as [_ Hctx Hmem _]. specialize (Hfe eq_refl).
    destruct k as [|b v|qq nq b v]; cbn in Hctx; destruct Hctx as (? & ?); destruct_and?; try congruence.
    by apply Hnone.
Qed.

Lemma wp_destroy_back cfg c p hy0 k q base acc cb ctx dev_hnd want s0 s (P : Z * option Z → driver → Prop) :
  dr_backs s !! p = Some cb → w_contexts (dr_world s) !! p = Some ctx →
  held hy0 c (md_hyp (dr_dev s)) → cb_ctxt_record_mem_node cb = None →
  shadow_ready k q base acc cb s → elsewhere p s0 s →
  (∀ r s' hy1 hy2, gone p c hy0 base acc s0 s' →
     hgsl_hyp_ctxt_destroy (Some c) (c_devhandle ctx) (c_context_id ctx) want (c_dbcq_export_id ctx) hy1 =
       Some (r, hy2) → P r s') →
  wp (destroy_back cfg (Some c) p dev_hnd want) P s.
Proof.
  intros Hb Hc Hh Hr Hsh He HP. unfold destroy_back. eapply wp_back; [exact Hb|].
  assert (∀ hy, held hy0 c hy → ∃ r hy', hgsl_hyp_ctxt_destroy (Some c) (c_devhandle ctx)
    (c_context_id ctx) want (c_dbcq_export_id ctx) hy = Some (r, hy') ∧ held hy0 c hy') as Hcall.
  { intros hy Hhy. eapply held_call; [|exact Hhy]. by apply (ctxt_destroy_held c (λ _, True)). }
  destruct (cb_is_fe_shadow cb) eqn:Efe; cbn [negb when].
  - apply (wp_bind (mret tt)), wp_ret. eapply wp_the_context; [exact Hc|].
    destruct (Hcall _ Hh) as (r & hy' & E & Hh'). eapply wp_in_hyp; [exact E|].
    eapply (wp_destroy_tail cfg c p hy0 k q base acc cb ctx); [exact Hb|exact Hc|exact Hh'|exact Hr|
      etrans; [exact He|apply elsewhere_hyp]|left; by destruct Hsh; split|by rewrite Efe|].
    intros s' Hg. by eapply HP.
  - eapply (wp_cleanup p c hy0 k q base acc cb); [exact Hb|exact Hh|exact Hsh|].
    intros hy1 sh1 cb1 s1 Hh1 Hm1 Hn1 Hr1 Es1.
    assert (w_contexts (dr_world s1) !! p = Some (shared_shadow (dr_clock s) cb1 ctx)) as Hc1.
    { subst s1. cbn. by rewrite lookup_alter_eq, Hc. }
    assert (dr_backs s1 !! p = Some cb1) as Hb1 by (subst s1; apply lookup_insert_eq).
    assert (md_hyp (dr_dev s1) = hy1 ∧ md_shm (dr_dev s1) = sh1 ∧ dr_access s1 = acc) as (Eh & Em & Ea)
      by by subst s1.
    assert (elsewhere p s0 s1) as He1 by (etrans; [exact He|subst s1; by apply elsewhere_back]).
    clear Es1. subst hy1 sh1. eapply wp_the_context; [exact Hc1|].
    destruct (Hcall _ Hh1) as (r & hy' & E & Hh'). eapply wp_in_hyp; [exact E|].
    set (s2 := s1 <| dr_dev ::= _ |>).
    assert (elsewhere p s0 s2) as He2 by (etrans; [exact He1|apply elsewhere_hyp]).
    eapply (wp_destroy_tail cfg c p hy0 k q base acc cb1 _ dev_hnd r s0 s2); [exact Hb1|exact Hc1|exact Hh'|
      by rewrite Hr1|exact He2|by right|by intros _|intros s' Hg; by eapply HP].
Qed.
End steps.

(** The call of older front ends makes no record of the context. *)
Section records.
Context `{Rbtree} `{SharedMem} `{Hab} `{MemEnv}.

Definition same_record (s s' : creation) : Prop :=
  cb_ctxt_record_mem_node (cr_ctxt s') = cb_ctxt_record_mem_node (cr_ctxt s).

#[export] Instance same_record_preorder : PreOrder same_record.
Proof. split; [done|]. intros s1 s2 s3 E1 E2. unfold same_record in *. congruence. Qed.

Abbreviation Keeps := (Frames same_record).

#[export] Instance record_on_dev {A} (m : M mem_dev A) : Keeps (on_dev m).
Proof. intros s a s' E. unfold on_dev in E. by destruct (m (cr_dev s)) as [[a' d]|]; [injection E as <- <-|]. Qed.

#[export] Instance record_mem {A} (m : M shm A) : Keeps (mem m).
Proof. apply record_on_dev. Qed.

#[export] Instance record_hyp {A} (m : M hgsl_hyp_priv_t A) : Keeps (hyp m).
Proof. apply record_on_dev. Qed.

#[export] Instance record_ctxt : Keeps ctxt.
Proof. by intros s a s' [= <- <-]. Qed.

#[export] Instance record_set_handle h : Keeps (set_handle h).
Proof. by intros s a s' [= <- <-]. Qed.

Lemma record_set_ctxt f :
  (∀ cb, cb_ctxt_record_mem_node (f cb) = cb_ctxt_record_mem_node cb) → Keeps (set_ctxt f).
Proof. intros Hf s a s' [= <- <-]. apply Hf. Qed.

#[export] Instance record_read_or_out {V} (m : M creation (Z * option V)) k :
  Keeps m → (∀ v, Keeps (k v)) → Keeps (read_or_out m k).
Proof. intros. unfold read_or_out. frames_tac. Qed.

#[export] Instance record_or_out m k : Keeps m → Keeps k → Keeps (or_out m k).
Proof. intros. unfold or_out. frames_tac. Qed.

#[export] Instance record_begin b : Keeps (begin_cpu_access b).
Proof. unfold begin_cpu_access. frames_tac. all: by intros ? ? ? [= <- <-]. Qed.

#[export] Instance record_end b : Keeps (end_cpu_access b).
Proof. unfold end_cpu_access. frames_tac. all: by intros ? ? ? [= <- <-]. Qed.

Ltac record_tac :=
  repeat first [progress frames_tac | by apply record_set_ctxt | by intros ? ? ? [= <- <-]].

#[export] Instance record_create_v1 cfg o prm pid dbq_off :
  Keeps (hgsl_hyp_ctxt_create_v1 cfg o prm pid dbq_off).
Proof.
  unfold hgsl_hyp_ctxt_create_v1, create_v1_body, create_v1_reply, create_v1_failed,
    write_ctxt_shadowts_mem_fe, export_fill_shadow_ts_buf, read_shadowts_mem_fe,
    assign_shadow_ts_cpu_addr_memstore, read_shadowts_mem_be, import_shadow, put_shadowts_mem,
    unmap_shadow_ts, unmap_shadow, put_be_shadow, free_shadow_node, destroy_created, ctxt_destroy,
    drop_mem_node.
  record_tac.
Qed.
End records.

(** * Properties *)

(** A context of the process that is in the table and idle. *)
Record destroyable (priv : ptr) (dev_hnd id : Z) (p : ptr) (c : hgsl_context) (s : driver) : Prop := {
  de_device : hgsl_hnd2id dev_hnd < HGSL_DEVICE_NUM;
  de_number : 0 ≤ id < HGSL_CONTEXT_NUM;
  de_entry : w_table (dr_world s) !! (hgsl_hnd2id dev_hnd, id) = Some p;
  de_context : w_contexts (dr_world s) !! p = Some c;
  de_owner : c_priv c = priv;
  de_idle : idle_context c }.

Section properties.
Context `{Rbtree} `{SharedMem} `{Hab} `{MemEnv} `{IrqKernel} `{DriverEnv} `{K : Kernel} `{I : IssueCmd}.

Abbreviation DV := (M driver).

(** The world once nobody finds the context any more and nobody uses it. *)
Definition retired_from (key : Z * Z) (p : ptr) (w w' : world) : Prop :=
  w_table w' = delete key (w_table w) ∧
  w_event_groups w' = filter (λ q, q ≠ p) (w_event_groups w) ∧
  delete p (w_contexts w') = delete p (w_contexts w) ∧
  w_isync w' = w_isync w ∧ w_isync_idr w' = w_isync_idr w.

Lemma retire_wp fuel turns priv dev_hnd id p c s (P : unit → driver → Prop) :
  destroyable priv dev_hnd id p c s →
  (∀ w' c', retired_from (hgsl_hnd2id dev_hnd, id) p (dr_world s) w' →
     w_contexts w' !! p = Some c' → same_back_end c c' → P tt (s <| dr_world := w' |>)) →
  wp (retire_context fuel turns p) P
    (s <| dr_world ::= λ w, w <| w_table ::= delete (hgsl_hnd2id dev_hnd, id) |> |>).
Proof.
  intros [Hd Hn Ht Hc Hp [Hk Ha He Hq Hdi Hti Hdb]] HP. unfold retire_context.
  set (key := (hgsl_hnd2id dev_hnd, id)) in *.
  set (w0 := (dr_world s) <| w_table ::= delete key |>).
  set (c1 := c <| c_in_destroy := true |>). set (w1 := with_context w0 p c1).
  eapply (wp_in_world _ _ _ _ tt w1); [exact (update_run w_contexts p _ w0 c Hc)|].
  pose proof (with_context_lookup w0 p c1 : w_contexts w1 !! p = Some c1) as Hc1.
  destruct (detach_steps fuel p c1 w1 Hc1) as (r & w2 & E2 & Hs2); [cbn; lia|done..|].
  eapply wp_in_world; [exact E2|]. set (c2 := c1 <| c_event_group := _ |>) in *.
  set (w3 := w2 <| w_trace ::= λ t, t ++ [A_wake_up_waiters p] |>).
  eapply (wp_in_world _ _ _ _ tt w3); [reflexivity|].
  assert (steps_to p c2 w0 w3) as Hs3.
  { eapply steps_to_trans; [apply steps_to_with|]. eapply steps_to_trans; [exact Hs2|].
    eapply steps_to_emit, steps_to_context, Hs2. }
  destruct (put_last_steps p c2 w3) as (w4 & E4 & Hs4); [by eapply steps_to_context|done..|].
  eapply wp_in_world; [exact E4|]. pose proof (steps_to_trans _ _ _ _ _ _ Hs3 Hs4) as Hs.
  pose proof (steps_to_context _ _ _ _ Hs) as Hc4. set (c4 := c2 <| c_kref := 0 |> <| c_destroyed := true |>) in *.
  apply wp_bind. destruct turns; cbn [wait_destroyed]; (eapply (wp_the_context p c4); [exact Hc4|]);
    apply wp_ret; unfold wp, in_world, hgsl_dispatch_ctxt_deinit, hgsl_del_event_group; cbn -[update];
    rewrite (bind_run _ _ w4 tt (w4 <| w_event_groups ::= filter (λ q, q ≠ p) |>)) by reflexivity;
    rewrite (update_run w_contexts p _ _ c4) by exact Hc4;
    (eapply (HP _ (c4 <| c_dispatch := None |>)); [|cbn; apply lookup_insert_eq|done]);
    destruct Hs as (tr & cl & ->); (split; [done|]); (split; [done|]);
    (split; [|done]); cbn; by rewrite !delete_insert_eq.
Qed.

(** The context is gone, and everything that was made for it. *)
Record destroyed_ctxt (key : Z * Z) (p : ptr) (base : shm) (acc : list ptr) (s s' : driver) : Prop := {
  dd_table : w_table (dr_world s') = delete key (w_table (dr_world s));
  dd_groups : w_event_groups (dr_world s') = filter (λ q, q ≠ p) (w_event_groups (dr_world s));
  dd_contexts : w_contexts (dr_world s') = delete p (w_contexts (dr_world s));
  dd_backs : dr_backs s' = delete p (dr_backs s);
  dd_memory : same_memory base (md_shm (dr_dev s'));
  dd_access : dr_access s' = acc;
  dd_dbqs : dr_dbqs s' = dr_dbqs s;
  dd_isync : w_isync (dr_world s') = w_isync (dr_world s);
  dd_idr : w_isync_idr (dr_world s') = w_isync_idr (dr_world s);
  dd_allocated : md_allocated (dr_dev s') = md_allocated (dr_dev s);
  dd_mapped : md_mapped (dr_dev s') = md_mapped (dr_dev s);
  dd_global : dr_global s' = dr_global s }.

Lemma gone_destroyed key p c hy0 base acc s w s' :
  retired_from key p (dr_world s) w → gone p c hy0 base acc (s <| dr_world := w |>) s' →
  destroyed_ctxt key p base acc s s'.
Proof.
  intros (Et & Eg & Ec & Ei & Er) [_ Hm Ha Hb Hc [Hce Het Heg Hbe Hdq _ Hii Hir Hal Hmp Hgl]].
  split; try done; [by rewrite Het|by rewrite Heg| | |by rewrite Hii|by rewrite Hir].
  - rewrite <- (delete_id _ _ Hc), Hce. exact Ec.
  - rewrite <- (delete_id _ _ Hb). exact Hbe.
Qed.

(** The pool of the process has no channel; the request for one leaves it [hy]. *)
Definition no_channel (s : driver) (r : Z * option Z) (hy : hgsl_hyp_priv_t) : Prop :=
  r.1 ≠ 0 ∧ r.2 = None ∧ hgsl_hyp_channel_pool_get 0 (md_hyp (dr_dev s)) = Some ((r.1, None), hy).

(** The pool gives a channel, and what the backend answers on it to destroying [c] is [r]. *)
Definition destroy_answer (c : hgsl_context) (s : driver) (r : Z * option Z) : Prop :=
  ∃ ch hy hy1 hy2, hgsl_hyp_channel_pool_get 0 (md_hyp (dr_dev s)) = Some ((0, Some ch), hy) ∧
    hgsl_hyp_ctxt_destroy (Some ch) (c_devhandle c) (c_context_id c) true (c_dbcq_export_id c) hy1 =
      Some (r, hy2).

(** What destroying an idle context does: nothing without a channel, and everything with
    one. *)
Definition destroy_outcome (devhandle id : Z) (p : ptr) (c : hgsl_context) (base : shm)
    (acc : list ptr) (s : driver) (r : Z * option Z) (s' : driver) : Prop :=
  settled (md_hyp (dr_dev s')) ∧ hy_busy (md_hyp (dr_dev s')) = hy_busy (md_hyp (dr_dev s)) ∧
  ((∃ hy, no_channel s r hy ∧ s' = s <| dr_dev ::= λ d, d <| md_hyp := hy |> |>) ∨
   destroy_answer c s r ∧ destroyed_ctxt (hgsl_hnd2id devhandle, id) p base acc s s').

Lemma ctxt_destroy_wp cfg turns fuel priv o dev_hnd id want can_retry p c s
    (P : Z * option Z → driver → Prop) :
  destroyable priv dev_hnd id p c s →
  (∀ w' c', retired_from (hgsl_hnd2id dev_hnd, id) p (dr_world s) w' →
     w_contexts w' !! p = Some c' → same_back_end c c' →
     wp (destroy_rest cfg o p dev_hnd want) P (s <| dr_world := w' |>)) →
  wp (hgsl_ctxt_destroy cfg turns fuel priv o dev_hnd id want can_retry) P s.
Proof.
  intros Hde HP. pose proof Hde as [Hd Hn Ht Hc Hp Hi]. unfold hgsl_ctxt_destroy.
  set (c1 := c <| c_kref := c_kref c + 1 |>). set (w1 := with_context (dr_world s) p c1).
  eapply (wp_in_world _ _ _ _ (Some p) w1).
  { apply get_put_context_run; [done|lia|done|done|]. rewrite (ic_kref _ Hi). lia. }
  pose proof (with_context_lookup (dr_world s) p c1 : w_contexts w1 !! p = Some c1) as Hc1.
  eapply (wp_the_context p c1); [exact Hc1|]. change (c_dbq c1) with (c_dbq c). rewrite (ic_dbq _ Hi).
  apply (wp_bind (mret 0)), wp_ret. cbn [Z.eqb negb andb].
  eapply (wp_in_world _ _ _ _ tt (dr_world s)).
  { apply get_put_id; [done|]. rewrite (ic_kref _ Hi). lia. }
  change (negb true && can_retry) with false. cbv iota.
  eapply (wp_in_world _ _ _ _ (Some p)); [exact (remove_context_run priv dev_hnd id p c (dr_world s) Hd Hn Ht Hc Hp)|].
  apply wp_bind. eapply (retire_wp fuel turns priv dev_hnd id p c s); [exact Hde|].
  intros w' c' Hw Hc' Hs. exact (HP w' c' Hw Hc' Hs).
Qed.

Lemma destroy_wp cfg turns fuel priv devhandle id s p c cb k q base acc :
  settled (md_hyp (dr_dev s)) → destroyable priv devhandle id p c s →
  dr_backs s !! p = Some cb → cb_ctxt_record_mem_node cb = None →
  shadow_ready k q base acc cb s →
  wp (hgsl_ioctl_ctxt_destroy cfg turns fuel priv devhandle id)
    (destroy_outcome devhandle id p c base acc s) s.
Proof.
  intros Hset Hde Hb Hr Hsh. pose proof Hde as [Hd Hn Ht Hc Hp Hi].
  set (key := (hgsl_hnd2id devhandle, id)) in *. set (hy := md_hyp (dr_dev s)) in *.
  destruct (held_get hy Hset) as (ret & o & hy1 & E1 & Hcase).
  unfold hgsl_ioctl_ctxt_destroy. eapply wp_in_hyp; [exact E1|].
  destruct Hcase as [(Hret & -> & Hset1 & Eb1)|(-> & ch & -> & Hh)].
  { rewrite (proj2 (Z.eqb_neq _ _) Hret). cbn [negb]. apply (wp_bind (mret _)), wp_ret.
    eapply wp_in_hyp; [reflexivity|]. apply wp_ret. split; [exact Hset1|]. split; [exact Eb1|].
    left. exists hy1. by split_and!. }
  change (negb (0 =? 0)) with false. cbv iota. set (s1 := s <| dr_dev ::= _ |>).
  assert (destroyable priv devhandle id p c s1) as Hde1 by (split; assumption).
  apply wp_bind. apply (ctxt_destroy_wp cfg turns fuel priv (Some ch) devhandle id true true p c s1 _ Hde1).
  intros w' c' Hw Hc' (Hdh & Hid & Hex & _).
  set (s2 := s1 <| dr_world := w' |>).
  change (destroy_rest cfg (Some ch)) with (destroy_back cfg (Some ch)).
  eapply (wp_destroy_back cfg ch p hy k q base acc cb c' devhandle true s2 s2);
    [exact Hb|exact Hc'|exact Hh|exact Hr|by destruct Hsh; split|reflexivity|].
  intros r s3 hya hyb Hg Hcall.
  destruct (held_put hy ch _ (gn_held _ _ _ _ _ _ _ Hg)) as (hy4 & E4 & Hset4 & Eb4).
  eapply wp_in_hyp; [exact E4|]. apply wp_ret. split; [exact Hset4|]. split; [exact Eb4|].
  right. split.
  - exists ch, hy1, hya, hyb. split; [exact E1|]. by rewrite <- Hdh, <- Hid, <- Hex.
  - pose proof (gone_destroyed _ _ _ _ _ _ s1 _ _ Hw Hg) as []. by split.
Qed.

(** C14. Destroying a context that the process owns always returns, whatever the backend
    answers, when the context is idle (one reference, no events, no draw objects, no
    worker, timeline or doorbell queue, [idle_context]) and without a context record (only
    full virtualisation makes one).  When the pool of the process has no channel, and only then, nothing has
    changed and the request returns the error of the pool.  Otherwise the call that
    destroys this context is made on the channel of the pool, and its results are those of
    the request, even an error; the context is no longer in the table nor among the event
    groups, both its halves are freed, the memory, the mappings and the accesses of the CPU
    are those from before its shadow timestamps were made, whichever of the three kinds
    they are, and the channel is back in the pool. *)
Theorem ctxt_destroy_exact cfg turns fuel priv devhandle id s p c cb k q base acc :
  settled (md_hyp (dr_dev s)) → destroyable priv devhandle id p c s →
  dr_backs s !! p = Some cb → cb_ctxt_record_mem_node cb = None →
  shadow_ready k q base acc cb s →
  ∃ ret rval s', hgsl_ioctl_ctxt_destroy cfg turns fuel priv devhandle id s = Some ((ret, rval), s') ∧
    settled (md_hyp (dr_dev s')) ∧ hy_busy (md_hyp (dr_dev s')) = hy_busy (md_hyp (dr_dev s)) ∧
    ((∃ hy, no_channel s (ret, rval) hy ∧ s' = s <| dr_dev ::= λ d, d <| md_hyp := hy |> |>) ∨
     destroy_answer c s (ret, rval) ∧ destroyed_ctxt (hgsl_hnd2id devhandle, id) p base acc s s').
Proof.
  intros Hset Hde Hb Hr Hsh.
  pose proof (destroy_wp cfg turns fuel _ _ _ _ _ _ _ _ _ _ _ Hset Hde Hb Hr Hsh) as Hw.
  apply wp_run in Hw as ([ret rval] & s' & E & Hres). by exists ret, rval, s'.
Qed.

(** The process gets a channel and the memory for the context, and the backend creates the
    context on it, with shadow timestamps. *)
Definition created_by (cfg : driver_cfg) (prm : create_params) (pid h : Z) (s : driver)
    (c : ptr) (hy1 : hgsl_hyp_priv_t) (r : creation) : Prop :=
  get_fv_status (dc_mem cfg) (hgsl_hnd2id (pr_devhandle prm)) = false ∧
  drv_alloc (dr_clock s) = true ∧
  hgsl_hyp_channel_pool_get 0 (md_hyp (dr_dev s)) = Some ((0, Some c), hy1) ∧
  hgsl_hyp_ctxt_create_v1 (dc_mem cfg) (Some c)
    {| pr_devhandle := pr_devhandle prm; pr_type := pr_type prm;
       pr_flags := create_flags (pr_flags prm) |} pid true
    {| cr_dev := (dr_dev s) <| md_hyp := hy1 |>; cr_ctxt := zeroed_ctxt; cr_ctxthandle := h;
       cr_dbq_info := u32_minus_1; cr_access := dr_access s |} = Some (0, r) ∧
  cb_shadow_ts_node (cr_ctxt r) ≠ None.

(** The context has the number that the request gets, on its device. *)
Definition made_number (prm : create_params) (r : creation) : Prop :=
  cb_context_id (cr_ctxt r) = cr_ctxthandle r ∧ cb_devhandle (cr_ctxt r) = pr_devhandle prm.

(** What the backend has created: its number, and shadow timestamps that can be undone. *)
Record made_back (prm : create_params) (s : driver) (c : ptr) (r : creation) (k : shadow_kind)
    (q : ptr) : Prop := {
  mb_held : held (md_hyp (dr_dev s)) c (md_hyp (cr_dev r));
  mb_number : made_number prm r ∧ cr_ctxthandle r < HGSL_CONTEXT_NUM;
  mb_record : cb_ctxt_record_mem_node (cr_ctxt r) = None;
  mb_new : new_shadow k (md_shm (dr_dev s));
  mb_ctxt : shadow_of k q (cr_ctxt r) (dr_access s) (cr_access r);
  mb_mem : shadowed (before_shadow (md_shm (dr_dev s)) (dr_access s) s) k q (md_shm (cr_dev r));
  mb_fresh : match k with FeShadow _ _ => shm_fresh (md_shm (cr_dev r)) | _ => True end }.

Lemma made_back_of cfg prm pid h s c hy1 r :
  settled (md_hyp (dr_dev s)) → shm_fresh (md_shm (dr_dev s)) → created_by cfg prm pid h s c hy1 r →
  ∃ k q, made_back prm s c r k q ∧ cr_dev r = (dr_dev s) <| md_hyp := md_hyp (cr_dev r) |>
    <| md_shm := md_shm (cr_dev r) |>.
Proof.
  intros Hset Hf (_ & _ & Eg & Ev & _).
  destruct (held_get _ Hset) as (ret & o & hy & E & Hc). rewrite Eg in E. injection E as <- <- <-.
  destruct Hc as [(Hr & _)|(_ & c' & [= <-] & Hh)]; [by destruct Hr|].
  set (base := md_shm (dr_dev s)) in *. set (acc := dr_access s) in *.
  set (s0 := before_shadow base acc s).
  set (prm' := {| pr_devhandle := _; pr_type := _; pr_flags := _ |}) in Ev.
  pose proof (record_create_v1 (dc_mem cfg) (Some c) prm' pid true _ _ _ Ev) as Hrec.
  assert (wp (hgsl_hyp_ctxt_create_v1 (dc_mem cfg) (Some c) prm' pid true) (λ ret r, ret = 0 → ∃ k q,
    held (md_hyp (dr_dev s)) c (md_hyp (cr_dev r)) ∧ cr_ctxthandle r < HGSL_CONTEXT_NUM ∧
    cb_context_id (cr_ctxt r) = cr_ctxthandle r ∧ cb_devhandle (cr_ctxt r) = pr_devhandle prm ∧
    new_shadow k base ∧ shadow_of k q (cr_ctxt r) acc (cr_access r) ∧
    shadowed s0 k q (md_shm (cr_dev r)) ∧
    (match k with FeShadow _ _ => shm_fresh (md_shm (cr_dev r)) | _ => True end) ∧
    cr_dev r = (dr_dev s) <| md_hyp := md_hyp (cr_dev r) |> <| md_shm := md_shm (cr_dev r) |>)
    (st s0 hy1 base zeroed_ctxt h u32_minus_1 acc)) as Hw.
  { eapply (create_v1_wp s0 (md_hyp (dr_dev s)) c); [by apply held_idle|done|done| |].
    - intros ret hy2 sh2 cb2 h2 i2 Hr _ _ _ _ _ Hz. destruct (Hr Hz).
    - intros hy' sh' cb' h' i' acc' k q [Hh' _] Hlt _ Hid Hd _ _ Hnew Hctx Hmem Hfr _.
      exists k, q. split_and!; try done. }
  unfold wp in Hw. replace (st s0 hy1 base zeroed_ctxt h u32_minus_1 acc) with
    {| cr_dev := (dr_dev s) <| md_hyp := hy1 |>; cr_ctxt := zeroed_ctxt; cr_ctxthandle := h;
       cr_dbq_info := u32_minus_1; cr_access := acc |} in Hw.
  2:{ unfold st. cbn. f_equal. }
  rewrite Ev in Hw. destruct (Hw eq_refl) as (k & q & ? & ? & ? & ? & ? & ? & ? & ? & Ed).
  exists k, q. split; [|exact Ed]. by split.
Qed.

(** A new context: its halves, its entry, its event group. *)
Record entered (priv : ptr) (prm : create_params) (p : ptr) (r : creation) (s s' : driver) : Prop := {
  en_context : ∃ c, destroyable priv (pr_devhandle prm) (cr_ctxthandle r) p c s' ∧
    c_devhandle c = pr_devhandle prm ∧ c_context_id c = cr_ctxthandle r;
  en_back : dr_backs s' !! p = Some (cr_ctxt r);
  en_table : w_table (dr_world s') =
    <[(hgsl_hnd2id (pr_devhandle prm), cr_ctxthandle r) := p]> (w_table (dr_world s));
  en_groups : w_event_groups (dr_world s') = w_event_groups (dr_world s) ++ [p];
  en_contexts : delete p (w_contexts (dr_world s')) = delete p (w_contexts (dr_world s));
  en_backs : delete p (dr_backs s') = delete p (dr_backs s);
  en_memory : md_shm (dr_dev s') = md_shm (cr_dev r);
  en_access : dr_access s' = cr_access r;
  en_dbqs : dr_dbqs s' = dr_dbqs s;
  en_global : dr_global s' = dr_global s }.

(** The half in the world after the creation in the backend, of which it takes the numbers. *)
Definition fresh_half (priv : ptr) (t t' : nat) (r : creation) : hgsl_context :=
  let cb := cr_ctxt r in
  shared_shadow t' cb
    (((shared_shadow t cb (zeroed_context priv)) <| c_context_id := cb_context_id cb |>
        <| c_devhandle := cb_devhandle cb |> <| c_flags := cb_flags cb |> <| c_kref := 1 |>)
       <| c_event_group ::= λ g, g <| eg_events := [] |> |>).

Lemma register_wp p c priv t dev_id checked r s (P : Z * bool * Z → driver → Prop) :
  dr_backs s !! p = Some (cr_ctxt r) → creation_of s (cr_ctxt r) = r →
  w_contexts (dr_world s) !! p = Some (shared_shadow t (cr_ctxt r) (zeroed_context priv)) →
  cb_shadow_ts_node (cr_ctxt r) ≠ None → 0 ≤ cb_context_id (cr_ctxt r) < HGSL_CONTEXT_NUM →
  w_table (dr_world s) !! (dev_id, cb_context_id (cr_ctxt r)) = None →
  (∀ s', dr_world s' = (dr_world s) <| w_contexts ::= <[p := fresh_half priv t (dr_clock s) r]> |>
       <| w_event_groups ::= (λ l, l ++ [p]) |>
       <| w_table ::= <[(dev_id, cb_context_id (cr_ctxt r)) := p]> |> →
     dr_dev s' = dr_dev s → dr_backs s' = dr_backs s → dr_access s' = dr_access s →
     dr_dbqs s' = dr_dbqs s → dr_global s' = dr_global s → dr_ctxthandle s' = dr_ctxthandle s →
     P (0, true, HGSL_SYNC_TYPE_ISYNC) s') →
  wp (register_context (Some c) p dev_id true checked) P s.
Proof.
  intros Hb Hr Hc Hn Hid Ht HP. unfold register_context, init_context.
  apply wp_bind. eapply wp_back; [exact Hb|].
  eapply wp_in_world; [exact (update_run _ _ _ _ _ Hc)|]. set (cb := cr_ctxt r) in *.
  set (c1 := (shared_shadow t cb (zeroed_context priv)) <| c_context_id := cb_context_id cb |>
    <| c_devhandle := cb_devhandle cb |> <| c_flags := cb_flags cb |> <| c_kref := 1 |>).
  change (upd w_contexts _ _) with (with_context (dr_world s) p c1).
  set (w1 := with_context (dr_world s) p c1).
  assert (w_contexts w1 !! p = Some c1) as Hc1 by apply lookup_insert_eq.
  set (c2 := c1 <| c_event_group ::= λ g, g <| eg_events := [] |> |>).
  set (w2 := (with_context w1 p c2) <| w_event_groups ::= (λ l, l ++ [p]) |>).
  assert (hgsl_add_event_group p w1 = Some (tt, w2)) as E2.
  { unfold hgsl_add_event_group, set_events.
    by rewrite (bind_run _ _ _ _ _ (update_run _ _ _ _ _ Hc1)). }
  eapply wp_in_world_last; [exact E2|].
  eapply wp_on_back; [exact Hb|]. unfold hgsl_get_shadowts_mem. apply (wp_bind (gets cr_ctxt)).
  unfold wp at 1, gets. cbn [cr_ctxt creation_of].
  destruct (cb_shadow_ts_node cb) as [q|] eqn:En; [|done]. apply wp_ret.
  apply (wp_bind (gets dr_dbq_info)). unfold wp at 1, gets. cbn [negb when].
  apply (wp_bind (mret tt)), wp_ret. set (s3 := after_back _ _ _).
  assert (w_contexts (dr_world s3) !! p = Some (fresh_half priv t (dr_clock s) r)) as Hc3.
  { cbn. by rewrite lookup_alter_eq, lookup_insert_eq. }
  eapply wp_the_context; [exact Hc3|]. cbn [hgsl_use_gmugos_or_global_dbq].
  replace (hgsl_use_gmugos_or_global_dbq (fresh_half priv t (dr_clock s) r)) with false.
  2:{ unfold hgsl_use_gmugos_or_global_dbq. cbn. by destruct (is_null _). }
  apply (wp_bind (mret 0)), wp_ret. eapply wp_the_context; [exact Hc3|]. cbv zeta.
  apply wp_bind. unfold enter_context. eapply wp_the_context; [exact Hc3|].
  apply (wp_bind (gets _)). unfold wp at 1, gets.
  change (c_context_id (fresh_half priv t (dr_clock s) r)) with (cb_context_id cb).
  destruct (Z.leb_spec 0 (cb_context_id cb)); [|lia].
  destruct (Z.ltb_spec (cb_context_id cb) HGSL_CONTEXT_NUM); [|lia]. cbn [andb negb].
  change (w_table (dr_world s3)) with (w_table (dr_world s)). rewrite Ht.
  eapply wp_in_world; [reflexivity|]. apply wp_ret, wp_ret. apply HP; try done.
  - unfold s3, w2, w1, with_context, upd. cbn. f_equal.
    rewrite !insert_insert_eq. apply map_eq. intros j. destruct (decide (j = p)) as [->|?].
    + by rewrite lookup_alter_eq, !lookup_insert_eq.
    + by rewrite lookup_alter_ne, !lookup_insert_ne.
  - cbn. rewrite insert_id; [done|]. exact Hb.
Qed.

(** The address that the context gets, and its number, are free; and the driver has no
    connection of its own to the backend (global_hyp_inited), so that the request stops
    before the doorbell queues: hgsl_ctxt_create_dbq is not run. *)
Record place_for (prm : create_params) (id : Z) (p : ptr) (s : driver) : Prop := {
  pl_next : w_next (dr_world s) = p;
  pl_device : hgsl_hnd2id (pr_devhandle prm) < HGSL_DEVICE_NUM;
  pl_number : 0 ≤ id;
  pl_table : w_table (dr_world s) !! (hgsl_hnd2id (pr_devhandle prm), id) = None;
  pl_contexts : w_contexts (dr_world s) !! p = None;
  pl_backs : dr_backs s !! p = None;
  pl_groups : p ∉ w_event_groups (dr_world s);
  pl_queues : dr_global_inited s = false }.

Lemma fresh_half_idle priv t t' r : idle_context (fresh_half priv t t' r).
Proof. by split. Qed.

(** The new context is zeroed, in both its halves. *)
Definition with_new (priv p : ptr) (s : driver) : driver :=
  s <| dr_clock ::= S |>
    <| dr_world ::= λ w, w <| w_next := Pos.succ p |> <| w_contexts ::= <[p := zeroed_context priv]> |> |>
    <| dr_backs ::= <[p := zeroed_ctxt]> |>.

Lemma new_context_run priv s :
  drv_alloc (dr_clock s) = true →
  new_context priv s = Some (Some (w_next (dr_world s)), with_new priv (w_next (dr_world s)) s).
Proof.
  intros Ha. unfold new_context, drv_ask.
  set (s1 := s <| dr_clock ::= S |>).
  rewrite (bind_run _ _ s true s1); [reflexivity|].
  unfold mbind, M_bind, gets, modify, mret, M_ret. by rewrite Ha.
Qed.

Lemma created_entered priv prm p r s s2 s' t t' :
  place_for prm (cr_ctxthandle r) p s → made_number prm r → cr_ctxthandle r < HGSL_CONTEXT_NUM →
  dr_world s' = (dr_world s2) <| w_contexts ::= <[p := fresh_half priv t t' r]> |>
       <| w_event_groups ::= (λ l, l ++ [p]) |>
       <| w_table ::= <[(hgsl_hnd2id (pr_devhandle prm), cr_ctxthandle r) := p]> |> →
  dr_world s2 = dr_world (after_back p (with_new priv p s) r) →
  dr_backs s' = <[p := cr_ctxt r]> (dr_backs s) → md_shm (dr_dev s') = md_shm (cr_dev r) →
  dr_access s' = cr_access r → dr_dbqs s' = dr_dbqs s → dr_global s' = dr_global s →
  entered priv prm p r s s'.
Proof.
  intros [_ Hd Hnum _ _ _ _ _] [Hid Hdev] Hlt Ew E2 Eb Em Ea Eq Eg.
  split; [| | | | | |done..]; rewrite ?Ew, ?E2, ?Eb; cbn; try done.
  - exists (fresh_half priv t t' r). split; [|done]. split; [done..| | |done|apply fresh_half_idle];
      rewrite Ew; cbn; apply lookup_insert_eq.
  - apply lookup_insert_eq.
  - rewrite delete_insert_eq. apply map_eq. intros j.
    destruct (decide (j = p)) as [->|?]; [by rewrite !lookup_delete_eq|].
    by rewrite !lookup_delete_ne, lookup_alter_ne, lookup_insert_ne by done.
  - apply delete_insert_eq.
Qed.

Lemma create_wp cfg turns fuel priv prm pid h s c hy1 r k q p :
  created_by cfg prm pid h s c hy1 r → made_back prm s c r k q →
  place_for prm (cr_ctxthandle r) p s →
  wp (hgsl_ioctl_ctxt_create cfg turns fuel priv pid prm h)
    (λ res s', res = (0, Some HGSL_SYNC_TYPE_ISYNC) ∧ entered priv prm p r s s' ∧
       settled (md_hyp (dr_dev s')) ∧ hy_busy (md_hyp (dr_dev s')) = hy_busy (md_hyp (dr_dev s))) s.
Proof.
  intros (Hfv & Ha & Eg & Ev & Hn) Hmade Hpl.
  pose proof (mb_held _ _ _ _ _ _ Hmade) as Hh. destruct (mb_number _ _ _ _ _ _ Hmade) as [[Hid Hdev] Hlt].
  unfold hgsl_ioctl_ctxt_create.
  apply (wp_bind (modify _)). unfold wp at 1, modify. set (sa := s <| dr_ctxthandle := h |> <| dr_dbq_info := _ |>).
  destruct (Z.leb_spec HGSL_DEVICE_NUM (hgsl_hnd2id (pr_devhandle prm))) as [?|_];
    [pose proof (pl_device _ _ _ _ Hpl); lia|].
  eapply wp_in_hyp; [exact Eg|]. cbn [Z.eqb negb]. apply wp_bind. unfold create_on.
  set (sb := sa <| dr_dev ::= _ |>).
  apply (wp_bind (gets dr_global_inited)). unfold wp at 1, gets.
  change (dr_global_inited sb) with (dr_global_inited s).
  rewrite (pl_queues _ _ _ _ Hpl). cbn [negb orb].
  pose proof (new_context_run priv sb Ha) as En.
  change (w_next (dr_world sb)) with (w_next (dr_world s)) in En. rewrite (pl_next _ _ _ _ Hpl) in En.
  unfold wp at 1. rewrite (bind_run _ _ _ _ _ En). cbv zeta iota.
  set (sc := with_new priv p sb).
  assert (creation_of sc zeroed_ctxt = {| cr_dev := (dr_dev s) <| md_hyp := hy1 |>; cr_ctxt := zeroed_ctxt;
    cr_ctxthandle := h; cr_dbq_info := u32_minus_1; cr_access := dr_access s |}) as Ecr by reflexivity.
  apply wp_bind. unfold create_back. cbn [pr_devhandle]. rewrite Hfv.
  apply (wp_on_back p zeroed_ctxt); [apply lookup_insert_eq|]. rewrite Ecr. unfold wp at 1. rewrite Ev.
  cbn [Z.eqb negb]. apply wp_ret. cbv iota. set (se := after_back p sc r).
  apply wp_bind. cbn [Z.eqb negb]. apply wp_bind.
  eapply (register_wp p c priv (S (dr_clock s)) _ _ r se).
  - apply lookup_insert_eq.
  - by destruct r.
  - cbn. by rewrite lookup_alter_eq, lookup_insert_eq.
  - exact Hn.
  - rewrite Hid. pose proof (pl_number _ _ _ _ Hpl). lia.
  - rewrite Hid. exact (pl_table _ _ _ _ Hpl).
  - intros s' Ew Ed Eb Ea Eq Egl _. rewrite Hid in Ew. cbv iota. apply wp_ret. cbn [Z.eqb negb when].
    apply (wp_bind (mret tt)), wp_ret, wp_ret.
    destruct (held_put _ _ _ Hh) as (hy4 & E4 & Hset4 & Eb4).
    eapply wp_in_hyp; [by rewrite Ed|]. apply wp_ret. split; [done|]. split; [|by split].
    eapply (created_entered priv prm p r s se); [exact Hpl|by split|exact Hlt|exact Ew|done|..].
    all: cbn; rewrite ?Eb, ?Ea, ?Eq, ?Egl, ?Ed; try done.
    unfold se, sc. cbn. by rewrite insert_insert_eq.
Qed.

(** The driver has no trace of the context. *)
Record undone (s s' : driver) : Prop := {
  un_table : w_table (dr_world s') = w_table (dr_world s);
  un_groups : w_event_groups (dr_world s') = w_event_groups (dr_world s);
  un_contexts : w_contexts (dr_world s') = w_contexts (dr_world s);
  un_backs : dr_backs s' = dr_backs s;
  un_memory : same_memory (md_shm (dr_dev s)) (md_shm (dr_dev s'));
  un_access : dr_access s' = dr_access s }.

Lemma destroyed_undone priv prm p r s s1 s2 :
  place_for prm (cr_ctxthandle r) p s → entered priv prm p r s s1 →
  destroyed_ctxt (hgsl_hnd2id (pr_devhandle prm), cr_ctxthandle r) p (md_shm (dr_dev s)) (dr_access s) s1 s2 →
  undone s s2.
Proof.
  intros [_ _ _ Ht Hc Hb Hg _] [_ _ Et Eg Ec Eb _ _ _ _] [Et2 Eg2 Ec2 Eb2 Em2 Ea2 _ _].
  split; [| | | |done|done].
  - rewrite Et2, Et. by apply delete_insert_id.
  - rewrite Eg2, Eg. by apply without_snoc.
  - rewrite Ec2, Ec. by apply delete_id.
  - rewrite Eb2, Eb. by apply delete_id.
Qed.

(** C8. On a device without full virtualisation and without a connection of the driver's own
    to the backend, so without doorbell queues, a context that the first of the backend's
    two calls creates with shadow timestamps, at a number that is free, is in the table,
    idle, with the number and the device that the backend has given it; and when the
    process destroys it again nothing is left of it: the table, the event groups, the
    contexts, the memory, the mappings and the accesses of the CPU are those from before
    its creation, and the result is that of the backend's call.  When the pool has no
    channel to destroy it on, and only then, it is still there, and the request returns the
    error of the pool. *)
Theorem ctxt_create_destroy cfg turns fuel priv prm pid h s c hy1 r p :
  settled (md_hyp (dr_dev s)) → shm_fresh (md_shm (dr_dev s)) →
  created_by cfg prm pid h s c hy1 r → place_for prm (cr_ctxthandle r) p s →
  ∃ s1 ret rval s2,
    hgsl_ioctl_ctxt_create cfg turns fuel priv pid prm h s = Some ((0, Some HGSL_SYNC_TYPE_ISYNC), s1) ∧
    entered priv prm p r s s1 ∧
    hgsl_ioctl_ctxt_destroy cfg turns fuel priv (pr_devhandle prm) (cr_ctxthandle r) s1 =
      Some ((ret, rval), s2) ∧
    settled (md_hyp (dr_dev s2)) ∧ hy_busy (md_hyp (dr_dev s2)) = hy_busy (md_hyp (dr_dev s)) ∧
    ((∃ hy, no_channel s1 (ret, rval) hy) ∧ entered priv prm p r s s2 ∨
     (∃ cx, w_contexts (dr_world s1) !! p = Some cx ∧ c_context_id cx = cr_ctxthandle r ∧
        destroy_answer cx s1 (ret, rval)) ∧ undone s s2).
Proof.
  intros Hset Hf Hcr Hpl. destruct (made_back_of _ _ _ _ _ _ _ _ Hset Hf Hcr) as (k & q & Hmade & _).
  pose proof (create_wp cfg turns fuel priv prm pid h s c hy1 r k q p Hcr Hmade Hpl) as Hw.
  apply wp_run in Hw as (res & s1 & E1 & -> & Hen & Hset1 & Eb1). exists s1.
  pose proof Hen as [(cx & Hde & Hdev & Hid) Hb _ _ _ _ Em Ea _ _].
  destruct Hmade as [_ _ Hrec Hnew Hctx Hmem Hfr].
  pose proof (destroy_wp cfg turns fuel priv (pr_devhandle prm) _ s1 p cx (cr_ctxt r) k q
    (md_shm (dr_dev s)) (dr_access s) Hset1 Hde Hb Hrec) as Hw.
  apply wp_run in Hw as ([ret rval] & s2 & E2 & Hset2 & Eb2 & Hres).
  2:{ split; [done|by rewrite Ea|by rewrite Em|by rewrite Em]. }
  exists ret, rval, s2. split_and!; try done; [by rewrite Eb2|].
  destruct Hres as [(hy & Hno & ->)|(Han & Hd)]; [left|right].
  2:{ split; [|by eapply destroyed_undone]. exists cx. split; [by destruct Hde|by split]. }
  split; [by exists hy|]. destruct Hen as [(cx' & [] & ?) ? ? ? ? ? ? ? ? ?]. split; try done. by exists cx'; split.
Qed.
End properties.

(** * Concrete runs *)

Definition demo_driver_env : DriverEnv := {|
  drv_alloc := λ _, true; drv_vmap := λ _, 0; drv_queue := λ _, replicate 4096 0;
  drv_shadow := λ _, mk_shadow 0 0; drv_dma_buf_fd := λ _, 6 |}.

(** A process that has no context yet, on a device without doorbell queues. *)
Definition demo_driver : driver :=
  {| dr_world := empty_world; dr_dev := demo_process; dr_backs := ∅; dr_access := [];
     dr_irqs := demo_irq_dev; dr_global := demo_pool; dr_global_inited := false; dr_dbqs := ∅;
     dr_held := []; dr_open := []; dr_ctxthandle := 0; dr_dbq_info := 0; dr_clock := 0 |}.

Definition demo_driver_cfg : driver_cfg := {| dc_mem := demo_cfg; dc_rec_buf_size_KB := λ _, 0 |}.

Definition demo_create (Hh : Hab) : M driver (Z * option Z) :=
  let _ := demo_shm in let _ := demo_mem in let _ := demo_irq in let _ := demo_driver_env in
  let _ := quiet_kernel in let _ := quiet_issue in
  hgsl_ioctl_ctxt_create demo_driver_cfg 0 0 9 100 demo_create_params 0.

Definition demo_destroy (Hh : Hab) : M driver (Z * option Z) :=
  let _ := demo_shm in let _ := demo_mem in let _ := demo_irq in let _ := demo_driver_env in
  let _ := quiet_kernel in let _ := quiet_issue in
  hgsl_ioctl_ctxt_destroy demo_driver_cfg 0 0 9 1 4.

(** The context 4 of the process, without shadow timestamps. *)
Definition demo_with_context : driver :=
  demo_driver <| dr_world ::= λ w, w <| w_table := {[(0, 4) := 1%positive]} |>
                   <| w_contexts := {[1%positive := fresh_context 9 4 0 None]} |> |>
    <| dr_backs := {[1%positive := zeroed_ctxt]} |>.

Lemma ctxt_destroy_exact_witness :
  let _ := demo_hab 0 [] in
  ∃ ret rval s', demo_destroy _ demo_with_context = Some ((ret, rval), s') ∧ settled (md_hyp (dr_dev s')).
Proof.
  intros Hh. pose demo_shm as Sh. pose demo_mem as En. pose demo_irq as Ik. pose demo_driver_env as Ev.
  pose quiet_kernel as Qk. pose quiet_issue as Qi.
  destruct (ctxt_destroy_exact demo_driver_cfg 0 0 9 1 4 demo_with_context 1
    (fresh_context 9 4 0 None) zeroed_ctxt NoShadow 1 (md_shm demo_process) []) as (ret & rval & s' & E & Hs & _).
  - exact demo_settled.
  - by split.
  - reflexivity.
  - reflexivity.
  - split; try done. apply same_memory_refl.
  - exists ret, rval, s'. split; [exact E|exact Hs].
Defined.

Lemma ctxt_create_destroy_witness :
  let _ := demo_hab 0 demo_created in
  ∃ s1 ret rval s2, demo_create _ demo_driver = Some ((0, Some HGSL_SYNC_TYPE_ISYNC), s1) ∧
    demo_destroy _ s1 = Some ((ret, rval), s2) ∧
    w_contexts (dr_world s2) = ∅ ∧ w_event_groups (dr_world s2) = [] ∧ dr_access s2 = [].
Proof.
  intros Hh. pose demo_shm as Sh. pose demo_mem as En. pose demo_irq as Ik. pose demo_driver_env as Ev.
  pose quiet_kernel as Qk. pose quiet_issue as Qi.
  assert (((λ x, x.1) <$> hgsl_hyp_channel_pool_get 0 demo_pool) = Some (0, Some 1%positive)) as Eg
    by (vm_compute; reflexivity).
  apply fmap_Some in Eg as ([? hy1] & Eg & [= <-]).
  set (m := hgsl_hyp_ctxt_create_v1 demo_cfg (Some 1%positive) demo_create_params 100 true
    {| cr_dev := demo_process <| md_hyp := match hgsl_hyp_channel_pool_get 0 demo_pool with
                                            | Some (_, hy) => hy | None => demo_pool end |>;
       cr_ctxt := zeroed_ctxt; cr_ctxthandle := 0; cr_dbq_info := u32_minus_1; cr_access := [] |}).
  assert (((λ x, (x.1, cr_ctxthandle x.2, bool_decide (is_Some (cb_shadow_ts_node (cr_ctxt x.2))))) <$> m) =
    Some (0, 4, true)) as Ec by (vm_compute; reflexivity).
  apply fmap_Some in Ec as ([ret r] & Ec & Ex). cbn [fst snd] in Ex. injection Ex as <- Eh Es.
  symmetry in Es. apply bool_decide_eq_true_1 in Es as [q Es]. unfold m in Ec. rewrite Eg in Ec.
  destruct (ctxt_create_destroy demo_driver_cfg 0 0 9 demo_create_params 100 0 demo_driver 1 hy1 r 1)
    as (s1 & ret & rval & s2 & E1 & _ & E2 & _ & _ & Hres).
  - exact demo_settled.
  - exact demo_fresh.
  - split_and!; [reflexivity|reflexivity|exact Eg|exact Ec|by rewrite Es].
  - rewrite <- Eh. split; try reflexivity; [done|apply not_elem_of_nil].
  - rewrite <- Eh in E2. exists s1, ret, rval, s2. split; [exact E1|]. split; [exact E2|].
    destruct Hres as [(_ & Hen)|[_ [_ Hg Hc _ _ Ha]]]; [exfalso|split_and!; [exact Hc|exact Hg|exact Ha]].
    assert (((λ x, map_to_list (w_table (dr_world x.2))) <$> (demo_create Hh ;; demo_destroy Hh) demo_driver) =
      Some []) as Et by (vm_compute; reflexivity).
    rewrite (bind_run _ _ _ _ _ (E1 : demo_create Hh demo_driver = _)) in Et.
    rewrite (E2 : demo_destroy Hh s1 = _) in Et. cbn [fmap option_fmap option_map snd] in Et.
    injection Et as Et. apply map_to_list_empty_iff in Et. rewrite (en_table _ _ _ _ _ _ Hen) in Et.
    by apply insert_non_empty in Et.
Defined.

(** When neither call of the backend gives a number, nobody frees the new context. *)
Example failed_create_leaks :
  (λ x, (x.1, bool_decide (is_Some (w_contexts (dr_world x.2) !! 1%positive)),
         map_to_list (w_table (dr_world x.2)))) <$> demo_create (demo_hab 0 []) demo_driver =
  Some ((- EINVAL, None), true, []).
Proof. vm_compute. reflexivity. Qed.

(** A backend that gives a number twice: the second request fails, and its context stays
    among the event groups when it has been freed. *)
Example busy_number_leaves_event_group :
  (λ x, (x.1, map_to_list (w_table (dr_world x.2)), w_event_groups (dr_world x.2),
         bool_decide (is_Some (w_contexts (dr_world x.2) !! 2%positive)))) <$>
    (demo_create (demo_hab 0 demo_created) ;; demo_create (demo_hab 0 demo_created)) demo_driver =
  Some ((- EBUSY, Some HGSL_SYNC_TYPE_ISYNC), [((0, 4), 1%positive)], [1; 2]%positive, false).
Proof. vm_compute. reflexivity. Qed.
