(* ===== verification/Process.v ===== *)
(** Processes (hgsl.c): opening and closing the device, the clean-up after a process, which
    device it works with, and the driver's own connection to the backend. *)

From stdpp Require Import gmultiset.
From S2P Require Import Prelude.
From S2P Require Import Rbtree.
From S2P Require Import Gpuaddr.
From S2P Require Import SharedMem.
From S2P Require Import State.
From S2P Require Import Context.
From S2P Require Import Isync.
From S2P Require Import Dispatch.
From S2P Require Import Hyp.
From S2P Require Import HypPool.
From S2P Require Import HypCalls.
From S2P Require Import Mmu.
From S2P Require Import MemIoctl.
From S2P Require Import CtxtCreate.
From S2P Require Import Irq.
From S2P Require Import CtxtIoctl.

(** * State *)

(** struct hgsl_priv: its channels to the backend, its trees of nodes and its page table,
    which are those of [mem_dev] while a request of the process runs. *)
Record process := {
  pv_pid : Z;
  pv_open_count : Z;
  pv_active_devicehandle : Z;
  pv_is_device_activated : bool;
  pv_dev_open_count : Z;
  pv_hyp : hgsl_hyp_priv_t;
  pv_allocated : tree ptr;
  pv_mapped : tree ptr;
  pv_pagetable : option hgsl_pagetable;
  pv_entries : Z }.

#[export] Instance process_eta : Eta process := λ r,
  {| pv_pid := pv_pid r; pv_open_count := pv_open_count r;
     pv_active_devicehandle := pv_active_devicehandle r;
     pv_is_device_activated := pv_is_device_activated r; pv_dev_open_count := pv_dev_open_count r;
     pv_hyp := pv_hyp r; pv_allocated := pv_allocated r; pv_mapped := pv_mapped r;
     pv_pagetable := pv_pagetable r; pv_entries := pv_entries r |}.

(** The device: its driver, the processes, the lists active_list and release_list, the
    handles of the backend, and whether release_work is queued. *)
Record device := {
  dv_driver : driver;
  dv_procs : gmap ptr process;
  dv_active : list ptr;
  dv_release : list ptr;
  dv_device_handle : gmap Z Z;
  dv_work : bool;
  dv_next : ptr;
  dv_clock : nat }.

#[export] Instance device_eta : Eta device := λ r,
  {| dv_driver := dv_driver r; dv_procs := dv_procs r; dv_active := dv_active r;
     dv_release := dv_release r; dv_device_handle := dv_device_handle r; dv_work := dv_work r;
     dv_next := dv_next r; dv_clock := dv_clock r |}.

(** hgsl_zalloc of a process. *)
Class ProcEnv := { proc_alloc : nat → bool }.

(** Out of hgsl_zalloc. *)
Definition zeroed_hyp : hgsl_hyp_priv_t :=
  {| hy_free := []; hy_busy := []; hy_conn_id := 0; hy_client_name := replicate RPC_CLIENT_NAME_SIZE 0;
     hy_client_pid := 0; hy_idr := ∅; hy_channels := ∅; hy_log := []; hy_clock := 0 |}.

Definition zeroed_process : process :=
  {| pv_pid := 0; pv_open_count := 0; pv_active_devicehandle := 0; pv_is_device_activated := false;
     pv_dev_open_count := 0; pv_hyp := zeroed_hyp; pv_allocated := Leaf; pv_mapped := Leaf;
     pv_pagetable := None; pv_entries := 0 |}.

(** * Operations *)

Section process.
Context `{Rbtree} `{SharedMem} `{Hab} `{MemEnv} `{IrqKernel} `{DriverEnv} `{ProcEnv} `{K : Kernel} `{I : IssueCmd}.

Abbreviation PM := (M device).
Abbreviation DV := (M driver).

Definition in_driver {A} (m : DV A) : PM A := λ s,
  '(a, d) ← m (dv_driver s); Some (a, s <| dv_driver := d |>).

Definition proc (p : ptr) : PM process := o ← gets (λ s, dv_procs s !! p); of_option o.

Definition set_proc (p : ptr) (f : process → process) : PM unit :=
  pv ← proc p; modify (λ s, s <| dv_procs ::= <[p := f pv]> |>).

(** ** Requests of a process *)

Definition load_process (pv : process) (d : driver) : driver :=
  d <| dr_dev ::= λ m, m <| md_hyp := pv_hyp pv |> <| md_allocated := pv_allocated pv |>
         <| md_mapped := pv_mapped pv |> <| md_pagetable := pv_pagetable pv |>
         <| md_entries := pv_entries pv |> |>.

Definition save_process (d : driver) (pv : process) : process :=
  let m := dr_dev d in
  pv <| pv_hyp := md_hyp m |> <| pv_allocated := md_allocated m |> <| pv_mapped := md_mapped m |>
     <| pv_pagetable := md_pagetable m |> <| pv_entries := md_entries m |>.

(** A request runs on the parts that the process has of its own and on those of the device. *)
Definition on_process {A} (p : ptr) (m : DV A) : PM A := λ s,
  pv ← dv_procs s !! p;
  '(a, d) ← m (load_process pv (dv_driver s));
  Some (a, s <| dv_driver := d |> <| dv_procs ::= <[p := save_process d pv]> |>).

(** The configuration, as the process makes it. *)
Definition cfg_for (cfg : driver_cfg) (pv : process) : driver_cfg :=
  let c := dc_mem cfg in
  {| dc_mem :=
       {| cf_fv_on := cf_fv_on c; cf_feature_mask := cf_feature_mask c; cf_mmutype := cf_mmutype c;
          cf_use_single_pt := cf_use_single_pt c; cf_iocoherency := cf_iocoherency c;
          cf_writecombine := cf_writecombine c;
          cf_active_devicehandle := pv_active_devicehandle pv;
          cf_dev_open_count := pv_dev_open_count pv;
          cf_is_device_activated := pv_is_device_activated pv |};
     dc_rec_buf_size_KB := dc_rec_buf_size_KB cfg |}.

(** ** Opening the device *)

(** The entry of the active list with this pid. *)
Fixpoint find_pid (l : list ptr) (pid : Z) : PM (option ptr) :=
  match l with
  | [] => mret None
  | p :: l => pv ← proc p; if pv_pid pv =? pid then mret (Some p) else find_pid l pid
  end.

Definition new_process (pid : Z) : PM (option ptr) :=
  t ← gets dv_clock;
  modify (λ s, s <| dv_clock ::= S |>) ;;
  if negb (proc_alloc t) then mret None
  else
    p ← gets dv_next;
    modify (λ s, s <| dv_next ::= Pos.succ |>
                   <| dv_procs ::= <[p := zeroed_process <| pv_pid := pid |>]> |>) ;;
    mret (Some p).

(** [task] is the pid and the name of the task, if it is still there; the result is also
    filep->private_data. *)
Definition hgsl_open (task : option (Z * list Z)) : PM (Z * option ptr) :=
  match task with
  | None => mret (- EINVAL, None)
  | Some (pid, comm) =>
      active ← gets dv_active;
      found ← find_pid active pid;
      match found with
      | Some p =>
          set_proc p (λ pv, pv <| pv_open_count ::= λ n, n + 1 |>) ;;
          mret (0, Some p)
      | None =>
          o ← new_process pid;
          match o with
          | None => mret (- ENOMEM, None)
          | Some p =>
              ret ← on_process p (in_hyp (hgsl_hyp_init pid comm));
              if negb (ret =? 0) then
                modify (λ s, s <| dv_procs ::= delete p |>) ;; mret (ret, None)
              else
                set_proc p (λ pv, pv <| pv_open_count := 1 |>
                  <| pv_active_devicehandle := GSL_HANDLE_NULL |>
                  <| pv_is_device_activated := false |>) ;;
                modify (λ s, s <| dv_active ::= cons p |>) ;;
                mret (0, Some p)
          end
      end
  end.

(** ** Closing it *)

(** list_move: out of the list that it is in, to the front of release_list. *)
Definition move_to_release (p : ptr) : PM unit :=
  modify (λ s, s <| dv_active ::= without p |> <| dv_release ::= λ l, p :: without p l |>).

Definition hgsl_release (p : ptr) : PM unit :=
  pv ← proc p;
  if pv_open_count pv <? 1 then mret tt
  else
    set_proc p (λ pv, pv <| pv_open_count ::= λ n, n - 1 |>) ;;
    when (pv_open_count pv - 1 =? 0)
      (move_to_release p ;; modify (λ s, s <| dv_work := true |>)).

(** The entries of the table, row by row. *)
Definition table_keys : list (Z * Z) :=
  dev_id ← seqZ 0 HGSL_DEVICE_NUM; (λ i, (dev_id, i)) <$> seqZ 0 HGSL_CONTEXT_NUM.

(** The context of one entry, if it is of the process. *)
Definition destroy_entry (cfg : driver_cfg) (turns fuel : nat) (p : ptr) (dev_id i : Z) : PM unit :=
  o ← gets (λ s, w_table (dr_world (dv_driver s)) !! (dev_id, i));
  match o with
  | None => mret tt
  | Some c =>
      ctxt ← in_driver (the_context c);
      when (bool_decide (c_priv ctxt = p))
        (pv ← proc p;
         _ ← on_process p (hgsl_ctxt_destroy (cfg_for cfg pv) turns fuel p None
                             (c_devhandle ctxt) i false false);
         mret tt)
  end.

Fixpoint destroy_contexts (cfg : driver_cfg) (turns fuel : nat) (p : ptr) (keys : list (Z * Z)) :
    PM unit :=
  match keys with
  | [] => mret tt
  | (dev_id, i) :: keys =>
      destroy_entry cfg turns fuel p dev_id i ;; destroy_contexts cfg turns fuel p keys
  end.

(** hgsl_hyp_close waits until nobody uses a channel, [looks] times here. *)
Definition close_hyp (looks : nat) (p : ptr) : PM unit :=
  closed ← on_process p (in_hyp (hgsl_hyp_close looks));
  if (closed : bool) then mret tt else fault.

(** hgsl_mmu_putpagetable has nothing to give back: see [hgsl_mmu_getpagetable]. *)
Definition _hgsl_release (cfg : driver_cfg) (turns fuel looks : nat) (p : ptr) : PM Z :=
  destroy_contexts cfg turns fuel p table_keys ;;
  in_driver (in_world (hgsl_isync_fini p)) ;;
  pv ← proc p;
  ret ← on_process p (in_dev (hgsl_cleanup (dc_mem (cfg_for cfg pv))));
  if negb (ret =? 0) then mret ret
  else
    close_hyp looks p ;;
    modify (λ s, s <| dv_procs ::= delete p |>) ;;
    mret 0.

(** [n] turns of the worker, and whether it has come to the end of the list. *)
Fixpoint hgsl_release_worker (cfg : driver_cfg) (turns fuel looks n : nat) : PM bool :=
  l ← gets dv_release;
  match l with
  | [] => mret true
  | p :: l =>
      match n with
      | O => mret false
      | S n =>
          modify (λ s, s <| dv_release := l |>) ;;
          ret ← _hgsl_release cfg turns fuel looks p;
          when (ret =? - ETIMEDOUT) (modify (λ s, s <| dv_release ::= λ l, l ++ [p] |>)) ;;
          hgsl_release_worker cfg turns fuel looks n
      end
  end.

(** ** The device of a process *)

(** hgsl_mmu_getpagetable: without CONFIG_PER_PROCESS_PT nothing is ever put into the list
    of page tables, and hgsl_iopgtbl_pagetable makes none. *)
Definition hgsl_mmu_getpagetable : option hgsl_pagetable := None.

(** What the process is with the handle that the backend has given it. *)
Definition opened (dev_handle : Z) (pv : process) : process :=
  let n := if negb (pv_active_devicehandle pv =? dev_handle) then pv_dev_open_count pv + 1
           else pv_dev_open_count pv in
  pv <| pv_dev_open_count := n |>
     <| pv_active_devicehandle :=
          if (n =? 1) && negb (pv_is_device_activated pv) && negb (pv_active_devicehandle pv =? dev_handle)
          then dev_handle else pv_active_devicehandle pv |>.

Definition hgsl_ioctl_device_open (cfg : driver_cfg) (p : ptr) (flags device_id : Z) : PM Z :=
  '(ret, h) ← on_process p (in_hyp (hgsl_hyp_device_open flags device_id));
  let dev_handle := default GSL_HANDLE_NULL h in
  if negb (ret =? 0) then mret ret
  else if negb (dev_handle =? GSL_HANDLE_DEV0) && negb (dev_handle =? GSL_HANDLE_DEV1)
  then mret (- EINVAL)
  else
    ok ← on_process p (in_dev (dev_ask env_copy));
    if negb (ok : bool) then
      _ ← on_process p (in_hyp (hgsl_hyp_device_close device_id));
      mret (- EFAULT)
    else
      set_proc p (opened dev_handle) ;;
      when (get_fv_status (dc_mem cfg) (hgsl_hnd2id dev_handle) &&
            is_iommu (hgsl_mmu_get_mmutype (dc_mem cfg)) && negb (cf_use_single_pt (dc_mem cfg)))
        (set_proc p (λ pv, pv <| pv_pagetable := hgsl_mmu_getpagetable |>)) ;;
      mret 0.

Definition hgsl_ioctl_activate_device (p : ptr) (devhandle : Z) : PM Z :=
  pv ← proc p;
  if pv_is_device_activated pv && (pv_active_devicehandle pv =? devhandle) then mret 0
  else
    '(ret, _) ← on_process p (in_hyp (hgsl_hyp_activate_device_handle devhandle));
    if negb (ret =? 0) then mret ret
    else
      set_proc p (λ pv, pv <| pv_active_devicehandle := devhandle |>
                           <| pv_is_device_activated := true |>) ;;
      mret 0.

(** ** The driver's own connection *)

Definition global {A} (m : M hgsl_hyp_priv_t A) : PM A := in_driver (in_global m).

Definition set_inited (b : bool) : PM unit := in_driver (modify (λ d, d <| dr_global_inited := b |>)).

Definition close_global (looks : nat) : PM unit :=
  closed ← global (hgsl_hyp_close looks);
  if (closed : bool) then mret tt else fault.

Definition hgsl_close_global_hyp_and_gsl_lib (looks : nat) : PM unit :=
  inited ← in_driver (gets dr_global_inited);
  when inited (_ ← global (hgsl_hyp_lib_close 0); set_inited false) ;;
  close_global looks.

(** [retry_count] more calls while the backend says -EAGAIN; [rval] is what the last answer
    that there was has left. *)
Fixpoint lib_open_loop (retry_count : nat) (rval : Z) : PM (Z * Z) :=
  '(ret, r) ← global (hgsl_hyp_lib_open 0);
  let rval := default rval r in
  match retry_count with
  | S n => if ret =? - EAGAIN then lib_open_loop n rval else mret (ret, rval)
  | O => mret (ret, rval)
  end.

Definition GSL_DEVICE_0 : Z := 4.
Definition GSL_DEVICE_1 : Z := 5.

(** The return codes of the calls, one per device. *)
Fixpoint open_devices (handles : list Z) (rval : Z) : PM (list Z) :=
  match handles with
  | [] => mret []
  | dev_hnd :: handles =>
      let device_id := if dev_hnd =? GSL_HANDLE_DEV0 then GSL_DEVICE_0 else GSL_DEVICE_1 in
      '(ret, r) ← global (hgsl_hyp_device_open 0 device_id);
      let rval := default rval r in
      when ((ret =? 0) && (dev_hnd =? rval))
        (modify (λ s, s <| dv_device_handle ::= <[hgsl_hnd2id dev_hnd := rval]> |>)) ;;
      l ← open_devices handles rval;
      mret (ret :: l)
  end.

Definition hgsl_init_global_hyp_channel (looks : nat) (name : list Z) : PM Z :=
  ret ← global (hgsl_hyp_init 0 name);
  if negb (ret =? 0) then mret ret
  else
    '(_, rval) ← lib_open_loop 5 0;
    if negb (rval =? 0) then close_global looks ;; mret (- EINVAL)
    else
      rets ← open_devices (seqZ GSL_HANDLE_DEV0 HGSL_DEVICE_NUM) rval;
      if forallb (λ ret, negb (ret =? 0)) rets then
        hgsl_close_global_hyp_and_gsl_lib looks ;; mret (- EINVAL)
      else set_inited true ;; mret 0.
End process.

(** * Specification *)

(** What opening and closing the device know of a process: its pid and its open_count. *)
Definition ident (pv : process) : Z * Z := (pv_pid pv, pv_open_count pv).

Definition ids (d : device) : gmap ptr (Z * Z) := ident <$> dv_procs d.

(** A device and the files that are open on it, each with the process that is its
    private_data. *)
Abbreviation files := (gmultiset ptr).

Record processes_ok (d : device) (fs : files) : Prop := {
  po_nodup : NoDup (dv_active d ++ dv_release d);
  po_there : ∀ p, p ∈ dv_active d ++ dv_release d → is_Some (ids d !! p);
  po_count : ∀ p pid n, p ∈ dv_active d → ids d !! p = Some (pid, n) →
    n = Z.of_nat (multiplicity p fs) ∧ 0 < n;
  po_released : ∀ p pid n, p ∈ dv_release d → ids d !! p = Some (pid, n) → n = 0;
  po_files : ∀ p, p ∈ fs → p ∈ dv_active d;
  po_pids : ∀ p q pid n m, p ∈ dv_active d → q ∈ dv_active d →
    ids d !! p = Some (pid, n) → ids d !! q = Some (pid, m) → p = q;
  po_fresh : ∀ p, is_Some (ids d !! p) → (p < dv_next d)%positive }.

Section steps.
Context `{Rbtree} `{SharedMem} `{Hab} `{MemEnv} `{IrqKernel} `{DriverEnv} `{ProcEnv} `{K : Kernel} `{I : IssueCmd}.
Context (cfg : driver_cfg) (turns fuel looks : nat).

Abbreviation PM := (M device).
Abbreviation DV := (M driver).

(** What happens to a device: files are opened and closed, processes make requests on the
    files that they have, of whatever kind, and the worker runs. *)
Inductive step : device * files → device * files → Prop :=
| S_open d fs task p d' :
    hgsl_open task d = Some ((0, Some p), d') → step (d, fs) (d', fs ⊎ {[+ p +]})
| S_open_failed d fs task ret d' :
    hgsl_open task d = Some ((ret, None), d') → step (d, fs) (d', fs)
| S_close d fs p d' :
    p ∈ fs → hgsl_release p d = Some (tt, d') → step (d, fs) (d', fs ∖ {[+ p +]})
| S_request d fs p A (m : DV A) a d' :
    p ∈ fs → on_process p m d = Some (a, d') → step (d, fs) (d', fs)
| S_device_open d fs p flags device_id ret d' :
    p ∈ fs → hgsl_ioctl_device_open cfg p flags device_id d = Some (ret, d') → step (d, fs) (d', fs)
| S_activate d fs p devhandle ret d' :
    p ∈ fs → hgsl_ioctl_activate_device p devhandle d = Some (ret, d') → step (d, fs) (d', fs)
| S_worker d fs n b d' :
    hgsl_release_worker cfg turns fuel looks n d = Some (b, d') → step (d, fs) (d', fs).

(** * Lemmas *)

(** Nothing that concerns opening and closing has changed. *)
Record same_processes (d d' : device) : Prop := {
  ss_active : dv_active d' = dv_active d;
  ss_release : dv_release d' = dv_release d;
  ss_next : dv_next d' = dv_next d;
  ss_ids : ids d' = ids d }.

#[export] Instance same_processes_preorder : PreOrder same_processes.
Proof. split; [by split|]. intros d1 d2 d3 [] []. split; congruence. Qed.

Lemma processes_ok_same d d' fs : same_processes d d' → processes_ok d fs → processes_ok d' fs.
Proof.
  intros [Ea Er En Ei] [H1' H2' H3' H4' H5' H6' H7'].
  split; rewrite ?Ea, ?Er, ?En, ?Ei; assumption.
Qed.

Abbreviation Keeps := (Frames same_processes).

Lemma ids_insert d p pv pv' :
  dv_procs d !! p = Some pv → ident pv' = ident pv →
  ids (d <| dv_procs ::= <[p := pv']> |>) = ids d.
Proof.
  intros Hp E. unfold ids. cbn. rewrite fmap_insert, E, insert_id; [done|].
  by rewrite lookup_fmap, Hp.
Qed.

#[export] Instance keeps_driver {A} (m : DV A) : Keeps (in_driver m).
Proof. intros d a d' E. unfold in_driver in E. destruct (m _) as [[a' s]|]; [|done]. by injection E as <- <-. Qed.

#[export] Instance keeps_global {A} (m : M hgsl_hyp_priv_t A) : Keeps (global m).
Proof. apply keeps_driver. Qed.

#[export] Instance keeps_on_process {A} p (m : DV A) : Keeps (on_process p m).
Proof.
  intros d a d' E. unfold on_process in E. destruct (dv_procs d !! p) as [pv|] eqn:Hp; [|done].
  cbn in E. destruct (m _) as [[a' s]|]; [|done]. injection E as <- <-. split; try done.
  change (ids (d <| dv_driver := s |> <| dv_procs ::= <[p := save_process s pv]> |>) = ids d).
  rewrite (ids_insert (d <| dv_driver := s |>) p pv); done.
Qed.

#[export] Instance keeps_proc p : Keeps (proc p).
Proof. unfold proc. frames_tac. Qed.

Lemma keeps_set_proc p f : (∀ pv, ident (f pv) = ident pv) → Keeps (set_proc p f).
Proof.
  intros Hf d a d' E. unfold set_proc, proc in E. apply bind_Some in E as (pv & d1 & E1 & E2).
  apply bind_Some in E1 as (o & d2 & E1 & E3). injection E1 as <- <-.
  destruct (dv_procs d !! p) as [pv'|] eqn:Hp; [|done]. injection E3 as -> ->.
  injection E2 as <- <-. split; try done. rewrite <- (ids_insert d1 p pv (f pv)); done.
Qed.

#[local] Hint Extern 1 (Frames same_processes (set_proc _ _)) =>
  (apply keeps_set_proc; done) : typeclass_instances.

#[export] Instance keeps_entry p dev_id i : Keeps (destroy_entry cfg turns fuel p dev_id i).
Proof. unfold destroy_entry. frames_tac. Qed.

#[export] Instance keeps_destroy p keys : Keeps (destroy_contexts cfg turns fuel p keys).
Proof. induction keys as [|[dev_id i] keys IH]; cbn [destroy_contexts]; frames_tac. Qed.

#[export] Instance keeps_close_hyp p : Keeps (close_hyp looks p).
Proof. unfold close_hyp. frames_tac. Qed.

#[export] Instance keeps_device_open p flags device_id :
  Keeps (hgsl_ioctl_device_open cfg p flags device_id).
Proof. unfold hgsl_ioctl_device_open. frames_tac. Qed.

#[export] Instance keeps_activate p devhandle : Keeps (hgsl_ioctl_activate_device p devhandle).
Proof. unfold hgsl_ioctl_activate_device. frames_tac. Qed.

Lemma proc_Some p d pv d' : proc p d = Some (pv, d') → d' = d ∧ dv_procs d !! p = Some pv.
Proof.
  intros E. unfold proc in E. apply bind_Some in E as (o & d1 & E1 & E2). injection E1 as <- <-.
  destruct (dv_procs d !! p); [|done]. by injection E2 as -> ->.
Qed.

Lemma set_proc_Some p f d d' :
  set_proc p f d = Some (tt, d') →
  ∃ pv, dv_procs d !! p = Some pv ∧ d' = d <| dv_procs ::= <[p := f pv]> |>.
Proof.
  intros E. unfold set_proc in E. apply bind_Some in E as (pv & d1 & E1 & E2).
  apply proc_Some in E1 as [-> Hp]. injection E2 as <-. by exists pv.
Qed.

Lemma find_pid_Some l pid d o d' :
  find_pid l pid d = Some (o, d') →
  d' = d ∧ match o with
           | Some p => p ∈ l ∧ ∃ n, ids d !! p = Some (pid, n)
           | None => ∀ p n, p ∈ l → ids d !! p ≠ Some (pid, n)
           end.
Proof.
  induction l as [|q l IH]; cbn [find_pid].
  { intros [= <- <-]. split; [done|]. by intros p n ?%elem_of_nil. }
  intros (pv & d1 & E1 & E2)%bind_Some. apply proc_Some in E1 as [-> Hq].
  assert (ids d !! q = Some (ident pv)) as Hi by (unfold ids; by rewrite lookup_fmap, Hq).
  destruct (Z.eqb_spec (pv_pid pv) pid) as [<-|Hne].
  - injection E2 as <- <-. split; [done|]. split; [left|]. by exists (pv_open_count pv).
  - apply IH in E2 as [-> Ho]. split; [done|]. destruct o as [p|].
    + destruct Ho as [Hin Hid]. split; [by right|done].
    + intros p n [->|Hin]%elem_of_cons; [|by apply Ho]. rewrite Hi. unfold ident. naive_solver.
Qed.

(** The process is gone, or it is there and there was an error. *)
Lemma release_Some p d ret d' :
  _hgsl_release cfg turns fuel looks p d = Some (ret, d') →
  dv_active d' = dv_active d ∧ dv_release d' = dv_release d ∧ dv_next d' = dv_next d ∧
  ids d' = if ret =? 0 then delete p (ids d) else ids d.
Proof.
  unfold _hgsl_release. intros ([] & d1 & E1 & E2)%bind_Some. apply keeps_destroy in E1.
  apply bind_Some in E2 as ([] & d2 & E2 & E3). apply keeps_driver in E2.
  apply bind_Some in E3 as (pv & d3 & E3 & E4). apply keeps_proc in E3.
  apply bind_Some in E4 as (r & d4 & E4 & E5). apply keeps_on_process in E4.
  assert (same_processes d d4) as [Ha Hr Hn Hi] by (do 3 (etrans; [eassumption|]); done).
  destruct (r =? 0) eqn:Er; cbn [negb] in E5.
  - apply bind_Some in E5 as ([] & d5 & E5 & E6). apply keeps_close_hyp in E5 as [Ha5 Hr5 Hn5 Hi5].
    apply bind_Some in E6 as ([] & d6 & E6 & E7). injection E6 as <-. injection E7 as <- <-. cbn.
    split_and!; try congruence. rewrite <- Hi, <- Hi5. unfold ids. cbn. apply fmap_delete.
  - injection E5 as <- <-. by rewrite Er.
Qed.

Lemma processes_ok_worker d d' fs p l :
  processes_ok d fs → dv_release d = p :: l → dv_active d' = dv_active d → dv_next d' = dv_next d →
  (ids d' = delete p (ids d) ∧ dv_release d' = l ∨
   ids d' = ids d ∧ (dv_release d' = l ∨ dv_release d' = l ++ [p])) →
  processes_ok d' fs.
Proof.
  intros [Hnd Hth Hct Hre Hfi Hpi Hfr] Er Ea En Hcase. rewrite Er in *.
  assert (p ∉ dv_active d) as Hpa.
  { intros Hp. apply NoDup_app in Hnd as (_ & Hnd & _). apply (Hnd p Hp). left. }
  assert ((p ∉ l) ∧ NoDup (dv_active d ++ l)) as [Hpl Hnl].
  { rewrite <- Permutation_middle in Hnd. apply NoDup_cons in Hnd as [Hp Hnd]. set_solver. }
  assert (∀ q, q ∈ dv_active d ++ l → ids d' !! q = ids d !! q) as Hsame.
  { intros q Hq. destruct Hcase as [[-> _]|[-> _]]; [|done]. rewrite lookup_delete_ne; [done|].
    intros <-. set_solver. }
  assert (∀ q x, ids d' !! q = Some x → ids d !! q = Some x) as Hsub.
  { intros q x. destruct Hcase as [[-> _]|[-> _]]; [|done]. by intros [_ ?]%lookup_delete_Some. }
  assert (∀ q, q ∈ dv_release d' → q ∈ l ∨ q = p ∧ ids d' = ids d) as Hrel.
  { intros q. destruct Hcase as [[_ ->]|[Ei [-> | ->]]]; set_solver. }
  split; rewrite ?Ea, ?En.
  - destruct Hcase as [[_ ->]|[_ [-> | ->]]]; [done..|]. rewrite (assoc_L app). apply NoDup_app.
    split; [done|]. split; [set_solver|apply NoDup_singleton].
  - intros q [Hq|[Hq|[-> Ei]]%Hrel]%elem_of_app.
    + rewrite Hsame by set_solver. apply Hth. set_solver.
    + rewrite Hsame by set_solver. apply Hth. set_solver.
    + rewrite Ei. apply Hth. set_solver.
  - intros q pid n Hq E. apply Hsub in E. by eapply Hct.
  - intros q pid n Hq E. apply Hsub in E. apply (Hre q pid n); [|done].
    apply Hrel in Hq. set_solver.
  - done.
  - intros q r pid n m Hq Hr E1 E2. apply Hsub in E1, E2. by eapply Hpi.
  - intros q [x E]. apply Hsub in E. by apply Hfr.
Qed.

Lemma worker_ok n d b d' fs :
  hgsl_release_worker cfg turns fuel looks n d = Some (b, d') → processes_ok d fs → processes_ok d' fs.
Proof.
  revert d. induction n as [|n IH]; intros d; cbn [hgsl_release_worker];
    intros (l & d1 & E1 & E2)%bind_Some; injection E1 as <- <-;
    destruct (dv_release d) as [|p l] eqn:Hrel; try (injection E2 as <- <-; done).
  intros Hok. apply bind_Some in E2 as ([] & d1 & E1 & E2). injection E1 as <-.
  apply bind_Some in E2 as (ret & d2 & E2 & E3).
  apply release_Some in E2 as (Ha & Hr & Hn & Hi). cbn in Ha, Hr, Hn.
  change (ids (d <| dv_release := l |>)) with (ids d) in Hi.
  apply bind_Some in E3 as ([] & d3 & E3 & E4). apply IH in E4; [done|]. clear IH E4.
  destruct (Z.eqb_spec ret (- ETIMEDOUT)) as [->|Hne].
  - injection E3 as <-. change (- ETIMEDOUT =? 0) with false in Hi.
    eapply (processes_ok_worker d _ fs p l); [done..|]. right. split; [done|]. right. cbn. by rewrite Hr.
  - injection E3 as <-. eapply (processes_ok_worker d _ fs p l); [done..|].
    destruct (ret =? 0); [by left|]. right. split; [done|by left].
Qed.

(** A file of a process that is there already. *)
Lemma processes_ok_again d d' fs p pid n :
  processes_ok d fs → p ∈ dv_active d → ids d !! p = Some (pid, n) →
  ids d' = <[p := (pid, n + 1)]> (ids d) → dv_active d' = dv_active d →
  dv_release d' = dv_release d → dv_next d' = dv_next d →
  processes_ok d' (fs ⊎ {[+ p +]}).
Proof.
  intros [Hnd Hth Hct Hre Hfi Hpi Hfr] Hp Hpid Ei Ea Er En.
  assert (∀ q pid' m, ids d' !! q = Some (pid', m) →
    ∃ m', ids d !! q = Some (pid', m') ∧ m = if decide (q = p) then m' + 1 else m') as Hback.
  { intros q pid' m. rewrite Ei. intros [[<- [= <- <-]]|[Hq E]]%lookup_insert_Some.
    - exists n. by rewrite decide_True.
    - exists m. by rewrite decide_False. }
  split; rewrite ?Ea, ?Er, ?En; try done.
  - intros q Hq. rewrite Ei, lookup_insert_is_Some. destruct (decide (p = q)); [by left|right].
    split; [done|by apply Hth].
  - intros q pid' m Hq E. apply Hback in E as (m' & E & ->). destruct (Hct q pid' m' Hq E) as [Hm ?].
    rewrite multiplicity_disj_union. destruct (decide (q = p)) as [->|Hne].
    + rewrite multiplicity_singleton_eq. lia.
    + rewrite multiplicity_singleton_ne by done. lia.
  - intros q pid' m Hq E. apply Hback in E as (m' & E & ->).
    rewrite decide_False; [by eapply Hre|]. intros ->.
    apply NoDup_app in Hnd as (_ & Hnd & _). by apply (Hnd p).
  - intros q [Hq|Hq]%gmultiset_elem_of_disj_union; [by apply Hfi|].
    apply gmultiset_elem_of_singleton in Hq as ->. done.
  - intros q r pid' m1 m2 Hq Hr E1 E2. apply Hback in E1 as (? & E1 & _), E2 as (? & E2 & _).
    by eapply Hpi.
  - intros q [[pid' m] E]. apply Hback in E as (? & E & _). by apply Hfr.
Qed.

(** The first file of a process. *)
Lemma processes_ok_new d d' fs p pid :
  processes_ok d fs → dv_next d = p → (∀ q n, q ∈ dv_active d → ids d !! q ≠ Some (pid, n)) →
  ids d' = <[p := (pid, 1)]> (ids d) → dv_active d' = p :: dv_active d →
  dv_release d' = dv_release d → dv_next d' = Pos.succ p →
  processes_ok d' (fs ⊎ {[+ p +]}).
Proof.
  intros [Hnd Hth Hct Hre Hfi Hpi Hfr] Hp Hpid Ei Ea Er En.
  assert (ids d !! p = None) as Hnone.
  { destruct (ids d !! p) eqn:E; [|done]. specialize (Hfr p ltac:(by eexists)). lia. }
  assert (p ∉ dv_active d ++ dv_release d) as Hpn.
  { intros Hin. apply Hth in Hin. rewrite Hnone in Hin. by destruct Hin. }
  assert (multiplicity p fs = 0%nat) as Hmp.
  { destruct (decide (p ∈ fs)) as [Hin|Hin]; [apply Hfi in Hin; set_solver|].
    rewrite elem_of_multiplicity in Hin. lia. }
  assert (∀ q x, q ≠ p → ids d' !! q = Some x → ids d !! q = Some x) as Hother.
  { intros q x Hq. by rewrite Ei, lookup_insert_ne. }
  assert (ids d' !! p = Some (pid, 1)) as Hnew by (rewrite Ei; apply lookup_insert_eq).
  split; rewrite ?Ea, ?Er, ?En.
  - by constructor.
  - intros q Hq. rewrite Ei, lookup_insert_is_Some. destruct (decide (p = q)); [by left|right].
    split; [done|]. apply Hth. set_solver.
  - intros q pid' m Hq E. rewrite multiplicity_disj_union. destruct (decide (q = p)) as [->|Hne].
    + rewrite Hnew in E. injection E as <- <-. rewrite multiplicity_singleton_eq, Hmp. lia.
    + apply Hother in E; [|done]. rewrite multiplicity_singleton_ne, Nat.add_0_r by done.
      apply (Hct q pid'); [set_solver|done].
  - intros q pid' m Hq E. apply Hother in E; [by eapply Hre|]. intros ->. set_solver.
  - intros q [Hq|Hq]%gmultiset_elem_of_disj_union; [right; by apply Hfi|].
    apply gmultiset_elem_of_singleton in Hq as ->. left.
  - intros q r pid' m1 m2 Hq Hr E1 E2. destruct (decide (q = p)) as [->|Hqp], (decide (r = p)) as [->|Hrp].
    + done.
    + rewrite Hnew in E1. injection E1 as <- <-. apply Hother in E2; [|done]. destruct (Hpid r m2); set_solver.
    + rewrite Hnew in E2. injection E2 as <- <-. apply Hother in E1; [|done]. destruct (Hpid q m1); set_solver.
    + apply Hother in E1, E2; [|done..]. apply (Hpi q r pid' m1 m2); set_solver.
  - intros q [x E]. destruct (decide (q = p)) as [->|Hqp]; [lia|]. apply Hother in E; [|done].
    specialize (Hfr q ltac:(by eexists)). lia.
Qed.

Definition with_process (pid : Z) (d : device) : device :=
  d <| dv_clock ::= S |> <| dv_next ::= Pos.succ |>
    <| dv_procs ::= <[dv_next d := zeroed_process <| pv_pid := pid |>]> |>.

Lemma new_process_Some pid d o d' :
  new_process pid d = Some (o, d') →
  (o = None ∧ same_processes d d') ∨ (o = Some (dv_next d) ∧ d' = with_process pid d).
Proof.
  unfold new_process, mbind, M_bind, gets, modify, mret, M_ret.
  destruct (negb (proc_alloc (dv_clock d))); intros E; injection E as <- <-; [left|right]; done.
Qed.

Lemma on_process_Some {A} p (m : DV A) d a d' :
  on_process p m d = Some (a, d') →
  ∃ pv s, dv_procs d !! p = Some pv ∧ m (load_process pv (dv_driver d)) = Some (a, s) ∧
    d' = d <| dv_driver := s |> <| dv_procs ::= <[p := save_process s pv]> |>.
Proof.
  unfold on_process. destruct (dv_procs d !! p) as [pv|]; [|done]. cbn.
  destruct (m _) as [[a' s]|] eqn:E; [|done]. intros [= <- <-]. by exists pv, s.
Qed.

Lemma hyp_init_ret pid comm (s : driver) r s' :
  in_hyp (hgsl_hyp_init pid comm) s = Some (r, s') → r = 0.
Proof. by intros [= <- _]. Qed.

Lemma ids_lookup d p pv : dv_procs d !! p = Some pv → ids d !! p = Some (ident pv).
Proof. intros Hp. unfold ids. by rewrite lookup_fmap, Hp. Qed.

Lemma open_ok task d ret o d' fs :
  hgsl_open task d = Some ((ret, o), d') → processes_ok d fs →
  processes_ok d' (match o with Some p => fs ⊎ {[+ p +]} | None => fs end).
Proof.
  intros E Hok. unfold hgsl_open in E. destruct task as [[pid comm]|]; [|by injection E as <- <- <-].
  apply bind_Some in E as (l & d1 & E1 & E2). injection E1 as <- <-.
  apply bind_Some in E2 as (found & d1 & E1 & E2). apply find_pid_Some in E1 as [-> Hf].
  destruct found as [p|].
  - destruct Hf as [Hp [n Hn]]. apply bind_Some in E2 as ([] & d1 & E1 & E2). injection E2 as <- <- <-.
    apply set_proc_Some in E1 as (pv & Hpv & ->).
    pose proof Hn as Hn'. rewrite (ids_lookup d p pv Hpv) in Hn'. injection Hn' as Epid En.
    apply (processes_ok_again d _ fs p pid n); try done. unfold ids. cbn.
    by rewrite fmap_insert, <- Epid, <- En.
  - apply bind_Some in E2 as (o' & d1 & E1 & E2).
    apply new_process_Some in E1 as [[-> Hs]|[-> ->]].
    { injection E2 as <- <- <-. by eapply processes_ok_same. }
    set (p := dv_next d) in *. apply bind_Some in E2 as (r & d2 & E1 & E2).
    apply on_process_Some in E1 as (pv & s & Hpv & Er & ->). apply hyp_init_ret in Er as ->.
    cbn [Z.eqb negb] in E2. change (dv_procs (with_process pid d)) with
      (<[p := zeroed_process <| pv_pid := pid |>]> (dv_procs d)) in Hpv.
    rewrite lookup_insert_eq in Hpv. injection Hpv as <-.
    apply bind_Some in E2 as ([] & d3 & E1 & E2). apply set_proc_Some in E1 as (pv & Hpv & ->).
    injection E2 as <- <- <-. cbn [dv_procs] in Hpv.
    apply (processes_ok_new d _ fs p pid); try done. unfold ids. cbn.
    cbn in Hpv. rewrite !insert_insert_eq, lookup_insert_eq in Hpv. injection Hpv as <-.
    rewrite !insert_insert_eq. by rewrite fmap_insert.
Qed.

(** The last file goes, or one of several. *)
Lemma close_ok p d d' fs :
  p ∈ fs → hgsl_release p d = Some (tt, d') → processes_ok d fs → processes_ok d' (fs ∖ {[+ p +]}).
Proof.
  intros Hin E Hok. pose proof Hok as [Hnd Hth Hct Hre Hfi Hpi Hfr].
  pose proof (Hfi p Hin) as Hpa. unfold hgsl_release in E.
  apply bind_Some in E as (pv & d1 & E1 & E2). apply proc_Some in E1 as [-> Hpv].
  pose proof (ids_lookup d p pv Hpv) as Hid. destruct (Hct p (pv_pid pv) (pv_open_count pv) Hpa Hid) as [Hn Hpos].
  destruct (Z.ltb_spec (pv_open_count pv) 1); [lia|].
  apply bind_Some in E2 as ([] & d1 & E1 & E2). apply set_proc_Some in E1 as (pv' & Hpv' & ->).
  rewrite Hpv in Hpv'. injection Hpv' as <-.
  set (pv1 := pv <| pv_open_count ::= λ n, n - 1 |>) in *.
  assert (ids (d <| dv_procs ::= <[p := pv1]> |>) = <[p := (pv_pid pv, pv_open_count pv - 1)]> (ids d)) as Hi1
    by (unfold ids; cbn; by rewrite fmap_insert).
  set (d1 := d <| dv_procs ::= <[p := pv1]> |>) in *.
  assert (∀ q x, q ≠ p → ids d1 !! q = Some x → ids d !! q = Some x) as Hother.
  { intros q x Hq. by rewrite Hi1, lookup_insert_ne. }
  assert (ids d1 !! p = Some (pv_pid pv, pv_open_count pv - 1)) as Hp1 by (rewrite Hi1; apply lookup_insert_eq).
  assert (∀ q, is_Some (ids d1 !! q) ↔ is_Some (ids d !! q)) as Hdom.
  { intros q. rewrite Hi1, lookup_insert_is_Some. destruct (decide (p = q)) as [<-|]; [|naive_solver].
    rewrite Hid. naive_solver. }
  assert (∀ q, q ≠ p → multiplicity q (fs ∖ {[+ p +]}) = multiplicity q fs) as Hmq.
  { intros q Hq. rewrite multiplicity_difference, multiplicity_singleton_ne by done. lia. }
  assert (Z.of_nat (multiplicity p (fs ∖ {[+ p +]})) = pv_open_count pv - 1) as Hmp.
  { rewrite multiplicity_difference, multiplicity_singleton_eq. lia. }
  assert (∀ q, q ∈ fs ∖ {[+ p +]} → q ∈ fs) as Hsub.
  { intros q. rewrite !elem_of_multiplicity, multiplicity_difference. lia. }
  assert (∀ q r pid n m, q ∈ dv_active d → r ∈ dv_active d → ids d1 !! q = Some (pid, n) →
    ids d1 !! r = Some (pid, m) → q = r) as Hpids.
  { intros q r pid n m Hq Hr E1 E3. destruct (decide (q = p)) as [->|Hqp], (decide (r = p)) as [->|Hrp].
    - done.
    - rewrite Hp1 in E1. injection E1 as <- <-. apply Hother in E3; [|done]. by eapply (Hpi p r).
    - rewrite Hp1 in E3. injection E3 as <- <-. apply Hother in E1; [|done]. by eapply (Hpi q p).
    - apply Hother in E1, E3; [|done..]. by eapply (Hpi q r). }
  assert (p ∉ dv_release d) as Hpr.
  { intros Hp. apply NoDup_app in Hnd as (_ & Hnd & _). by apply (Hnd p). }
  destruct (Z.eqb_spec (pv_open_count pv - 1) 0) as [E0|E0]; cbn [when] in E2.
  - apply bind_Some in E2 as ([] & d2 & E1 & E2). injection E1 as <-. injection E2 as <-.
    match goal with |- processes_ok ?x _ => set (d' := x) end.
    assert (dv_active d' = without p (dv_active d)) as Ea by done.
    assert (dv_release d' = p :: dv_release d) as Er by (cbn; by rewrite without_id).
    assert (ids d' = ids d1) as Ei by done. assert (dv_next d' = dv_next d) as En by done. clearbody d'.
    split; rewrite ?Ea, ?Er, ?Ei, ?En.
    + apply NoDup_app in Hnd as (Hna & Hnd & Hnr). apply NoDup_app. split; [by apply NoDup_filter|].
      split; [|by constructor]. intros q [Hq Hqp]%elem_of_without. set_solver.
    + intros q Hq. rewrite Hdom. apply Hth.
      apply elem_of_app in Hq as [[Hq _]%elem_of_without|Hq]; set_solver.
    + intros q pid n [Hq Hqp]%elem_of_without E. apply Hother in E; [|done]. rewrite Hmq by done. by eapply Hct.
    + intros q pid n [->|Hq]%elem_of_cons E.
      * rewrite Hp1 in E. by injection E as _ <-.
      * apply Hother in E; [by eapply Hre|]. by intros ->.
    + intros q Hq. apply elem_of_without. split; [by apply Hfi, Hsub|]. intros ->.
      rewrite elem_of_multiplicity in Hq. lia.
    + intros q r pid n m [Hq _]%elem_of_without [Hr _]%elem_of_without. by apply Hpids.
    + intros q Hq. apply Hdom in Hq. by apply Hfr.
  - injection E2 as <-. split.
    + done.
    + intros q Hq. rewrite Hdom. by apply Hth.
    + intros q pid n Hq E. destruct (decide (q = p)) as [->|Hqp].
      * rewrite Hp1 in E. injection E as <- <-. rewrite Hmp. lia.
      * apply Hother in E; [|done]. rewrite Hmq by done. by eapply Hct.
    + intros q pid n Hq E. apply Hother in E; [by eapply Hre|]. by intros ->.
    + intros q Hq. by apply Hfi, Hsub.
    + exact Hpids.
    + intros q Hq. apply Hdom in Hq. by apply Hfr.
Qed.

Lemma release_returns p d : is_Some (dv_procs d !! p) → ∃ d', hgsl_release p d = Some (tt, d').
Proof.
  intros [pv Hp]. unfold hgsl_release, set_proc.
  assert (proc p d = Some (pv, d)) as E.
  { unfold proc. rewrite (bind_run _ _ d (Some pv) d); [done|]. unfold gets. by rewrite Hp. }
  rewrite (bind_run _ _ _ _ _ E). destruct (pv_open_count pv <? 1); [by eexists|].
  rewrite (bind_run _ _ d tt (d <| dv_procs ::= <[p := pv <| pv_open_count ::= λ n, n - 1 |>]> |>)).
  - destruct (_ =? 0); by eexists.
  - by rewrite (bind_run _ _ _ _ _ E).
Qed.

Lemma process_step_ok s s' : step s s' → processes_ok s.1 s.2 → processes_ok s'.1 s'.2.
Proof.
  intros Hs Hok. destruct Hs as [d fs task p d' E|d fs task ret d' E|d fs p d' Hp E|d fs p A m a d' Hp E|
    d fs p fl id ret d' Hp E|d fs p h ret d' Hp E|d fs n b d' E]; cbn [fst snd] in *.
  - exact (open_ok _ _ _ _ _ _ E Hok).
  - exact (open_ok _ _ _ _ _ _ E Hok).
  - by eapply close_ok.
  - apply keeps_on_process in E. by eapply processes_ok_same.
  - apply keeps_device_open in E. by eapply processes_ok_same.
  - apply keeps_activate in E. by eapply processes_ok_same.
  - by eapply worker_ok.
Qed.

(** C13. Whatever processes do with the device, and whenever the worker runs: each open file
    has its process, which has not been freed, is in the list of active ones and counts
    exactly its open files; no two active processes have the same pid; a process that the
    worker may free has no file, and is in its list once.  So closing a file never warns
    about a count below one. *)
Theorem process_reachable_ok d0 d fs :
  dv_procs d0 = ∅ → dv_active d0 = [] → dv_release d0 = [] →
  rtc step (d0, ∅) (d, fs) →
  processes_ok d fs ∧
  ∀ p, p ∈ fs → ∃ pv d', dv_procs d !! p = Some pv ∧ 1 ≤ pv_open_count pv ∧
    hgsl_release p d = Some (tt, d').
Proof.
  intros Hp Ha Hr Hs.
  assert (processes_ok d0 ∅) as Hok0.
  { unfold ids in *. split; rewrite ?Ha, ?Hr; unfold ids; rewrite ?Hp, ?fmap_empty; try (by intros; set_solver).
    - apply NoDup_nil_2.
    - intros p [x Hx]. by rewrite lookup_empty in Hx. }
  assert (∀ s s', rtc step s s' → processes_ok s.1 s.2 → processes_ok s'.1 s'.2) as Hall.
  { induction 1 as [|x y z Hxy _ IH]; [done|]. intros Hok. by eapply IH, process_step_ok. }
  pose proof (Hall _ _ Hs Hok0) as Hok. cbn [fst snd] in Hok. split; [done|].
  intros p Hin. pose proof (po_files _ _ Hok p Hin) as Hpa.
  destruct (po_there _ _ Hok p) as [[pid n] Hid]; [set_solver|].
  destruct (po_count _ _ Hok p pid n Hpa Hid) as [_ Hn].
  unfold ids in Hid. rewrite lookup_fmap in Hid. destruct (dv_procs d !! p) as [pv|] eqn:Hpv; [|done].
  injection Hid as <- <-. destruct (release_returns p d) as [d' E]; [by rewrite Hpv|].
  exists pv, d'. split; [done|]. split; [lia|done].
Qed.
End steps.

(** * Concrete runs *)

Definition demo_proc_env : ProcEnv := {| proc_alloc := λ _, true |}.

(** A device that nobody has opened. *)
Definition demo_device : device :=
  {| dv_driver := demo_driver; dv_procs := ∅; dv_active := []; dv_release := [];
     dv_device_handle := ∅; dv_work := false; dv_next := 1; dv_clock := 0 |}.

Definition demo_open (task : option (Z * list Z)) : M device (Z * option ptr) :=
  let _ := demo_shm in let _ := demo_hab 0 [] in let _ := demo_mem in let _ := demo_irq in
  let _ := demo_driver_env in let _ := demo_proc_env in hgsl_open task.

(** Two threads of the same process open the device: one process, with two files. *)
Lemma process_reachable_ok_witness :
  let _ := demo_shm in let _ := demo_mem in let _ := demo_irq in let _ := demo_driver_env in
  let _ := demo_proc_env in let _ := quiet_kernel in let _ := quiet_issue in
  ∃ d pv d', processes_ok d {[+ 1%positive; 1%positive +]} ∧ dv_procs d !! 1%positive = Some pv ∧
    1 ≤ pv_open_count pv ∧ hgsl_release 1 d = Some (tt, d').
Proof.
  intros Sh En Ik Ev Pe Qk Qi. pose (demo_hab 0 []) as Hh.
  assert (∃ d1, demo_open (Some (100, [97])) demo_device = Some ((0, Some 1%positive), d1) ∧
    ∃ d2, demo_open (Some (100, [97])) d1 = Some ((0, Some 1%positive), d2)) as (d1 & E1 & d2 & E2).
  { eexists. split; [vm_compute; reflexivity|]. eexists. vm_compute. reflexivity. }
  assert (rtc (step demo_driver_cfg 0 0 1) (demo_device, ∅) (d2, ∅ ⊎ {[+ 1%positive +]} ⊎ {[+ 1%positive +]})) as Hr.
  { eapply rtc_l; [exact (S_open _ _ _ _ _ _ _ _ _ E1)|]. apply rtc_once. exact (S_open _ _ _ _ _ _ _ _ _ E2). }
  destruct (process_reachable_ok demo_driver_cfg 0 0 1 demo_device d2 _ eq_refl eq_refl eq_refl Hr) as [Hok Hall].
  rewrite (left_id_L ∅ (⊎)) in Hok, Hall.
  destruct (Hall 1%positive) as (pv & d' & Hp & Hn & E).
  { apply gmultiset_elem_of_disj_union. left. by apply gmultiset_elem_of_singleton. }
  exists d2, pv, d'. split; [exact Hok|]. split; [exact Hp|]. split; [exact Hn|exact E].
Defined.
