(* ===== verification/Release.v ===== *)
(** The clean-up after a process (hgsl.c): what _hgsl_release does to the device when the
    process has left nothing in use behind. *)

From S2P Require Import Prelude.
From S2P Require Import Rbtree.
From S2P Require Import Gpuaddr.
From S2P Require Import SharedMem.
From S2P Require Import State.
From S2P Require Import Context.
From S2P Require Import Isync.
From S2P Require Import Dispatch.
From S2P Require Import Hyp.
From S2P Require Import HypPool.
From S2P Require Import HypCalls.
From S2P Require Import Mmu.
From S2P Require Import MemIoctl.
From S2P Require Import CtxtCreate.
From S2P Require Import Irq.
From S2P Require Import CtxtIoctl.
From S2P Require Import Process.

(** * Specification *)

(** The process that a context is of. *)
Definition owner (s : driver) (c : ptr) : option ptr := c_priv <$> w_contexts (dr_world s) !! c.

(** Nobody uses the context, it has no shadow timestamps and no record, and it is the one
    that its handle and its number name. *)
Record leaves_nothing (k : Z * Z) (ctx : hgsl_context) (cb : ctxt_back) : Prop := {
  ln_idle : idle_context ctx;
  ln_device : hgsl_hnd2id (c_devhandle ctx) = k.1;
  ln_record : cb_ctxt_record_mem_node cb = None;
  ln_shadow : cb_shadow_ts cb = NULL ∧ cb_shadow_ts_node cb = None ∧ cb_is_fe_shadow cb = false }.

(** The contexts and the timelines of a process that may go: the table and the contexts
    agree, and the process has no timeline. *)
Record may_go (p : ptr) (s : driver) : Prop := {
  mg_there : ∀ k c, w_table (dr_world s) !! k = Some c → is_Some (w_contexts (dr_world s) !! c);
  mg_once : ∀ k k' c, w_table (dr_world s) !! k = Some c → w_table (dr_world s) !! k' = Some c → k = k';
  mg_named : ∀ c, owner s c = Some p → ∃ k, k ∈ table_keys ∧ w_table (dr_world s) !! k = Some c;
  mg_idle : ∀ k c ctx, w_table (dr_world s) !! k = Some c → w_contexts (dr_world s) !! c = Some ctx →
    c_priv ctx = p → ∃ cb, dr_backs s !! c = Some cb ∧ leaves_nothing k ctx cb;
  mg_isync : ∀ id t, w_isync_idr (dr_world s) !! id = Some t →
    ∃ tl, w_isync (dr_world s) !! t = Some tl ∧ it_priv tl ≠ p }.

(** [s'] is [s] without the contexts in [gone], which are of [p]. *)
Record contexts_gone `{SharedMem} (p : ptr) (gone : list ptr) (s s' : driver) : Prop := {
  cg_owned : ∀ c, c ∈ gone → owner s c = Some p;
  cg_table : w_table (dr_world s') = filter (λ kc, kc.2 ∉ gone) (w_table (dr_world s));
  cg_groups : w_event_groups (dr_world s') = filter (λ c, c ∉ gone) (w_event_groups (dr_world s));
  cg_contexts : w_contexts (dr_world s') = filter (λ kc, kc.1 ∉ gone) (w_contexts (dr_world s));
  cg_backs : dr_backs s' = filter (λ kc, kc.1 ∉ gone) (dr_backs s);
  cg_memory : same_memory (md_shm (dr_dev s)) (md_shm (dr_dev s'));
  cg_access : dr_access s' = dr_access s;
  cg_dbqs : dr_dbqs s' = dr_dbqs s;
  cg_isync : w_isync (dr_world s') = w_isync (dr_world s);
  cg_idr : w_isync_idr (dr_world s') = w_isync_idr (dr_world s);
  cg_global : dr_global s' = dr_global s }.

(** What of a device only opening and closing it touch, the processes apart. *)
Record same_lists (d d' : device) : Prop := {
  sl_active : dv_active d' = dv_active d;
  sl_release : dv_release d' = dv_release d;
  sl_device_handle : dv_device_handle d' = dv_device_handle d;
  sl_work : dv_work d' = dv_work d;
  sl_next : dv_next d' = dv_next d;
  sl_clock : dv_clock d' = dv_clock d }.

(** The process has no call under way and no memory. *)
Record at_rest (pv : process) : Prop := {
  ar_settled : settled (pv_hyp pv);
  ar_busy : hy_busy (pv_hyp pv) = [];
  ar_mapped : inorder (pv_mapped pv) = [];
  ar_allocated : inorder (pv_allocated pv) = [] }.

(** Some contexts of [p] are gone, and nothing of others. *)
Record cleaned `{SharedMem} (p : ptr) (gone : list ptr) (d d' : device) : Prop := {
  cl_driver : contexts_gone p gone (dv_driver d) (dv_driver d');
  cl_proc : ∃ pv, dv_procs d' = <[p := pv]> (dv_procs d) ∧ at_rest pv;
  cl_same : same_lists d d' }.

(** * Lemmas *)

Section release.
Context `{Rbtree} `{SharedMem} `{Hab} `{MemEnv} `{IrqKernel} `{DriverEnv} `{ProcEnv} `{K : Kernel} `{I : IssueCmd}.

Abbreviation PM := (M device).
Abbreviation DV := (M driver).

Lemma same_memory_trans a b c : same_memory a b → same_memory b c → same_memory a c.
Proof.
  intros [? ? ? ? ? ? ? Ha] [? ? ? ? ? ? ? Hb]. split; [congruence..|].
  destruct Ha as [Ha|?]; [|by right]. destruct Hb as [Hb|?]; [|by right]. left. congruence.
Qed.

(** ** One context *)

Lemma gone_without_channel key c s w :
  retired_from key c (dr_world s) w →
  destroyed_ctxt key c (md_shm (dr_dev s)) (dr_access s) s
    (s <| dr_world := w <| w_contexts ::= delete c |> |> <| dr_backs ::= delete c |>).
Proof. intros (Et & Eg & Ec & Ei & Er). split; try done. apply same_memory_refl. Qed.

Lemma destroy_none_wp cfg turns fuel p dev_hnd id c ctx cb s :
  settled (md_hyp (dr_dev s)) → destroyable p dev_hnd id c ctx s → dr_backs s !! c = Some cb →
  leaves_nothing (hgsl_hnd2id dev_hnd, id) ctx cb →
  wp (hgsl_ctxt_destroy cfg turns fuel p None dev_hnd id false false) (λ _ s',
    settled (md_hyp (dr_dev s')) ∧ hy_busy (md_hyp (dr_dev s')) = hy_busy (md_hyp (dr_dev s)) ∧
    destroyed_ctxt (hgsl_hnd2id dev_hnd, id) c (md_shm (dr_dev s)) (dr_access s) s s') s.
Proof.
  intros Hset Hde Hb [_ _ Hr (Hs1 & Hs2 & Hs3)].
  eapply ctxt_destroy_wp; [exact Hde|]. intros w' c' Hw Hc' _. unfold destroy_rest.
  set (s1 := s <| dr_world := w' |>). set (hy := md_hyp (dr_dev s)) in *.
  destruct (held_get hy Hset) as (ret & o & hy1 & E1 & Hcase).
  eapply wp_in_hyp; [exact E1|]. set (s2 := s1 <| dr_dev ::= _ |>).
  destruct Hcase as [(Hret & -> & Hset1 & Eb1)|(-> & ch & -> & Hh)].
  - rewrite (proj2 (Z.eqb_neq _ _) Hret). cbn [negb]. unfold wp.
    rewrite (bind_run _ _ s2 tt (s2 <| dr_world ::= λ w, w <| w_contexts ::= delete c |> |>
      <| dr_backs ::= delete c |>)) by done.
    split; [exact Hset1|]. split; [exact Eb1|].
    pose proof (gone_without_channel (hgsl_hnd2id dev_hnd, id) c s w' Hw) as []. by split.
  - change (negb (0 =? 0)) with false. cbv iota. apply wp_bind.
    eapply (wp_destroy_back cfg ch c hy NoShadow c (md_shm (dr_dev s)) (dr_access s) cb c' dev_hnd false s2 s2);
      [exact Hb|exact Hc'|exact Hh|exact Hr| |reflexivity|].
    { split; [done|done| |done]. apply same_memory_refl. }
    intros r s3 hya hyb Hg _.
    destruct (held_put hy ch _ (gn_held _ _ _ _ _ _ _ Hg)) as (hy4 & E4 & Hset4 & Eb4).
    eapply wp_in_hyp; [exact E4|]. apply wp_ret. split; [exact Hset4|]. split; [exact Eb4|].
    set (s0 := s <| dr_dev ::= λ d, d <| md_hyp := hy1 |> |>).
    assert (s2 = s0 <| dr_world := w' |>) as Es2 by reflexivity. rewrite Es2 in Hg.
    pose proof (gone_destroyed _ _ _ _ _ _ s0 w' _ Hw Hg) as []. by split.
Qed.

(** ** All of them *)

Lemma owner_Some s c ctx : w_contexts (dr_world s) !! c = Some ctx → owner s c = Some (c_priv ctx).
Proof. intros Hc. unfold owner. by rewrite Hc. Qed.

Lemma contexts_gone_nil p s : contexts_gone p [] s s.
Proof.
  assert (∀ (m : gmap (Z * Z) ptr), m = filter (λ kc, kc.2 ∉ @nil ptr) m) as Hf2.
  { intros m. symmetry. apply map_filter_id. intros k c _. apply not_elem_of_nil. }
  assert (∀ V (m : gmap ptr V), m = filter (λ kc, kc.1 ∉ @nil ptr) m) as Hf1.
  { intros V m. symmetry. apply map_filter_id. intros k c _. apply not_elem_of_nil. }
  split; try done.
  - intros c Hc. by apply elem_of_nil in Hc.
  - induction (w_event_groups (dr_world s)) as [|c l IH]; [done|].
    rewrite filter_cons_True by apply not_elem_of_nil. by f_equal.
  - apply same_memory_refl.
Qed.

Lemma filter_cons_delete {V} (l : list ptr) c (m : gmap ptr V) :
  delete c (filter (λ kv, kv.1 ∉ l) m) = filter (λ kv, kv.1 ∉ c :: l) m.
Proof.
  apply map_eq. intros q. apply option_eq. intros v.
  rewrite lookup_delete_Some, !map_lookup_filter_Some. cbn. rewrite not_elem_of_cons. naive_solver.
Qed.

Lemma contexts_gone_snoc p gone s s1 s2 key c :
  contexts_gone p gone s s1 → owner s c = Some p → w_table (dr_world s) !! key = Some c →
  (∀ k, w_table (dr_world s) !! k = Some c → k = key) →
  destroyed_ctxt key c (md_shm (dr_dev s1)) (dr_access s1) s1 s2 →
  contexts_gone p (c :: gone) s s2.
Proof.
  intros [Ho Ht Hg Hc Hb Hm Ha Hq Hi Hr Hl] Hown Hk Honce [Dt Dg Dc Db Dm Da Dq Di Dr _ _ Dl].
  split; try congruence.
  - intros q [->|Hin]%elem_of_cons; [done|by apply Ho].
  - rewrite Dt, Ht. apply map_eq. intros k. apply option_eq. intros q.
    rewrite lookup_delete_Some, !map_lookup_filter_Some. cbn. rewrite not_elem_of_cons.
    split; [|naive_solver]. intros (Hne & Hq' & Hin). split; [done|]. split; [|done].
    intros ->. by apply Hne, eq_sym, Honce.
  - rewrite Dg, Hg, list_filter_filter. apply list_filter_iff. intros q. rewrite not_elem_of_cons. naive_solver.
  - rewrite Dc, Hc. apply filter_cons_delete.
  - rewrite Db, Hb. apply filter_cons_delete.
  - eapply same_memory_trans; [exact Hm|exact Dm].
Qed.

(** ** The process *)

Lemma on_process_run {A} p (m : DV A) d pv a s :
  dv_procs d !! p = Some pv → m (load_process pv (dv_driver d)) = Some (a, s) →
  on_process p m d = Some (a, d <| dv_driver := s |> <| dv_procs ::= <[p := save_process s pv]> |>).
Proof. intros Hp E. unfold on_process. rewrite Hp. cbn. by rewrite E. Qed.

Lemma proc_run p d pv : dv_procs d !! p = Some pv → proc p d = Some (pv, d).
Proof. intros Hp. unfold proc. rewrite (bind_run _ _ d (Some pv) d); [done|]. unfold gets. by rewrite Hp. Qed.

Lemma elem_of_table_keys k :
  k ∈ table_keys ↔ 0 ≤ k.1 < HGSL_DEVICE_NUM ∧ 0 ≤ k.2 < HGSL_CONTEXT_NUM.
Proof.
  unfold table_keys. rewrite list_elem_of_bind. destruct k as [i j]. cbn. split.
  - intros (x & (y & E & Hy)%list_elem_of_fmap & Hx). injection E as -> ->.
    apply elem_of_seqZ in Hx, Hy. lia.
  - intros [Hi Hj]. exists i. split; [|by apply elem_of_seqZ]. apply list_elem_of_fmap.
    exists j. split; [done|]. by apply elem_of_seqZ.
Qed.

Lemma contexts_gone_load p gone s s1 pv :
  contexts_gone p gone s s1 → contexts_gone p gone s (load_process pv s1).
Proof. intros []. by split. Qed.

Lemma destroy_one cfg turns fuel p gone d d1 k c ctx :
  may_go p (dv_driver d) → cleaned p gone d d1 → k ∈ table_keys → c ∉ gone →
  w_table (dr_world (dv_driver d)) !! k = Some c →
  w_contexts (dr_world (dv_driver d)) !! c = Some ctx → c_priv ctx = p →
  ∃ pv r d2, dv_procs d1 !! p = Some pv ∧
    on_process p (hgsl_ctxt_destroy (cfg_for cfg pv) turns fuel p None (c_devhandle ctx) k.2 false false) d1 =
      Some (r, d2) ∧ cleaned p (c :: gone) d d2.
Proof.
  intros Hgo [Hd (pv & Ep & [Hset Hbu Hm Ha]) Hl] Hk Hng Ht Hc Hp.
  destruct (mg_idle _ _ Hgo k c ctx Ht Hc Hp) as (cb & Hb & Hln).
  assert (dv_procs d1 !! p = Some pv) as Hpv by (rewrite Ep; apply lookup_insert_eq).
  apply (contexts_gone_load _ _ _ _ pv) in Hd. pose proof Hd as [_ Et _ Ec Eb _ _ _ _ _ _].
  set (s1 := load_process pv (dv_driver d1)) in *.
  pose proof (ln_device _ _ _ Hln) as Edev. apply elem_of_table_keys in Hk as [Hk1 Hk2].
  assert (k = (hgsl_hnd2id (c_devhandle ctx), k.2)) as Ek by (rewrite Edev; by destruct k).
  pose proof (destroy_none_wp (cfg_for cfg pv) turns fuel p (c_devhandle ctx) k.2 c ctx cb s1) as Hw.
  apply wp_run in Hw as (r & s2 & E & Hset2 & Eb2 & Hdd).
  - exists pv, r. eexists. split; [done|]. split; [exact (on_process_run _ _ _ _ _ _ Hpv E)|].
    rewrite <- Ek in Hdd. split; cbn.
    + eapply contexts_gone_snoc; [exact Hd|by rewrite (owner_Some _ _ _ Hc), Hp|exact Ht| |exact Hdd].
      intros k' Hk'. by eapply mg_once.
    + exists (save_process s2 pv). split; [by rewrite Ep, insert_insert_eq|].
      destruct Hdd as [_ _ _ _ _ _ _ _ _ Eal Emp _]. split; cbn; [done|by rewrite Eb2|..].
      * by rewrite Emp.
      * by rewrite Eal.
    + by destruct Hl.
  - exact Hset.
  - split; [lia|done| | |done|by destruct Hln].
    + rewrite <- Ek, Et. by apply map_lookup_filter_Some.
    + rewrite Ec. by apply map_lookup_filter_Some.
  - rewrite Eb. by apply map_lookup_filter_Some.
  - by rewrite <- Ek.
Qed.

(** Every context that the process has under one of these keys is gone. *)
Definition covers (p : ptr) (d : device) (keys : list (Z * Z)) (gone : list ptr) : Prop :=
  ∀ k c, k ∈ keys → w_table (dr_world (dv_driver d)) !! k = Some c →
    owner (dv_driver d) c = Some p → c ∈ gone.

Lemma destroy_entry_run cfg turns fuel p d dev_id i gone d1 :
  may_go p (dv_driver d) → cleaned p gone d d1 → (dev_id, i) ∈ table_keys →
  ∃ gone' d2, destroy_entry cfg turns fuel p dev_id i d1 = Some (tt, d2) ∧ cleaned p gone' d d2 ∧
    gone ⊆ gone' ∧ covers p d [(dev_id, i)] gone'.
Proof.
  intros Hgo Hcl Hk. pose proof Hcl as [[_ Et _ Ec _ _ _ _ _ _ _] _ _]. unfold destroy_entry.
  rewrite (bind_run _ _ d1 (w_table (dr_world (dv_driver d1)) !! (dev_id, i)) d1) by done.
  destruct (w_table (dr_world (dv_driver d1)) !! (dev_id, i)) as [c|] eqn:E1; rewrite Et in E1.
  2:{ exists gone, d1. split_and!; try done. intros k c ->%list_elem_of_singleton Ht Ho.
      rewrite map_lookup_filter_None in E1. destruct E1 as [E1|E1]; [congruence|].
      specialize (E1 c Ht). cbn in E1. destruct (decide (c ∈ gone)); [done|by destruct E1]. }
  apply map_lookup_filter_Some in E1 as [Ht Hng]. cbn in Hng.
  destruct (mg_there _ _ Hgo _ _ Ht) as [ctx Hc].
  assert (in_driver (the_context c) d1 = Some (ctx, d1)) as E2.
  { unfold in_driver, the_context, in_world. rewrite (load_run w_contexts c _ ctx); [by destruct d1 as [[]]|].
    rewrite Ec. by apply map_lookup_filter_Some. }
  rewrite (bind_run _ _ _ _ _ E2). case_bool_decide as Hp; cbn [when].
  - destruct (destroy_one cfg turns fuel p gone d d1 _ c ctx Hgo Hcl Hk Hng Ht Hc Hp)
      as (pv & r & d2 & Hpv & E & Hcl2).
    rewrite (bind_run _ _ _ _ _ (proc_run _ _ _ Hpv)). cbn [snd] in E. rewrite (bind_run _ _ _ _ _ E).
    exists (c :: gone), d2. split_and!; [done|done|set_solver|].
    intros k c' ->%list_elem_of_singleton Ht' _. rewrite Ht in Ht'. injection Ht' as ->. left.
  - exists gone, d1. split_and!; try done. intros k c' ->%list_elem_of_singleton Ht' Ho.
    rewrite Ht in Ht'. injection Ht' as ->. rewrite (owner_Some _ _ _ Hc) in Ho. congruence.
Qed.

Lemma destroy_contexts_run cfg turns fuel p d keys gone d1 :
  may_go p (dv_driver d) → cleaned p gone d d1 → keys ⊆ table_keys →
  ∃ gone' d2, destroy_contexts cfg turns fuel p keys d1 = Some (tt, d2) ∧ cleaned p gone' d d2 ∧
    gone ⊆ gone' ∧ covers p d keys gone'.
Proof.
  intros Hgo. revert gone d1. induction keys as [|[dev_id i] keys IH]; intros gone d1 Hcl Hks.
  { exists gone, d1. split_and!; try done. intros k c Hk. by apply elem_of_nil in Hk. }
  assert ((dev_id, i) ∈ table_keys) as Hk by (apply Hks; left).
  assert (keys ⊆ table_keys) as Hks' by (intros k Hin; apply Hks; by right). cbn [destroy_contexts].
  destruct (destroy_entry_run cfg turns fuel p d dev_id i gone d1 Hgo Hcl Hk) as (g2 & d2 & E2 & Hcl2 & Hs2 & Hc2).
  rewrite (bind_run _ _ _ _ _ E2).
  destruct (IH g2 d2 Hcl2 Hks') as (g3 & d3 & E3 & Hcl3 & Hs3 & Hc3).
  exists g3, d3. split; [done|]. split; [done|]. split; [by etrans|].
  intros k c [->|Hin]%elem_of_cons Ht Ho; [|by eapply Hc3].
  apply Hs3, (Hc2 (dev_id, i) c); [by apply list_elem_of_singleton|done|done].
Qed.

(** A process without timelines has none to destroy. *)
Lemma isync_fini_collect_none p l flist w :
  (∀ id t, (id, t) ∈ l → ∃ tl, w_isync w !! t = Some tl ∧ it_priv tl ≠ p) →
  isync_fini_collect p l flist w = Some (flist, w).
Proof.
  induction l as [|[id t] l IH]; intros Hl; cbn [isync_fini_collect]; [done|].
  destruct (Hl id t) as (tl & Ht & Hp); [left|]. rewrite (bind_run _ _ _ _ _ (load_run _ _ _ _ Ht)).
  rewrite bool_decide_eq_false_2 by done. apply IH. intros id' t' Hin. apply (Hl id'). by right.
Qed.

Lemma isync_fini_none p w :
  (∀ id t, w_isync_idr w !! id = Some t → ∃ tl, w_isync w !! t = Some tl ∧ it_priv tl ≠ p) →
  hgsl_isync_fini p w = Some (tt, w).
Proof.
  intros Hw. unfold hgsl_isync_fini. rewrite (bind_run _ _ w (w_isync_idr w) w) by done.
  rewrite (bind_run _ _ w [] w); [done|]. apply isync_fini_collect_none. intros id t Hin. apply (Hw id).
  unfold idr_entries in Hin. rewrite merge_sort_Permutation in Hin. by apply elem_of_map_to_list in Hin.
Qed.

Lemma hyp_close_idle looks hy :
  (0 < looks)%nat → settled hy → hy_busy hy = [] →
  ∃ hy', hgsl_hyp_close looks hy = Some (true, hy').
Proof.
  intros Hl [Hi _] Hb. destruct looks as [|n]; [lia|]. unfold hgsl_hyp_close. cbn [channel_pool_close_looks].
  assert (∃ hy', hgsl_hyp_channel_pool_close hy = Some (true, hy')) as [hy' E].
  { unfold hgsl_hyp_channel_pool_close.
    destruct (put_waiting_run hy Hi) as (s1 & E1 & Hi1 & _ & _ & Hb1).
    assert (hy_busy s1 = []) as Eb.
    { destruct (hy_busy s1) as [|c l]; [done|]. exfalso. destruct (proj1 (Hb1 c) ltac:(left)) as [Hin _].
      rewrite Hb in Hin. by apply elem_of_nil in Hin. }
    rewrite (bind_run _ _ _ _ _ E1), (bind_run _ _ s1 (hy_busy s1) s1) by done.
    rewrite bool_decide_eq_true_2 by done. cbn [negb]. rewrite (bind_run _ _ s1 (hy_free s1) s1) by done.
    destruct (close_free_loop (hy_free s1) s1 Hi1 eq_refl Eb) as (s2 & ev & E2 & _).
    eexists. rewrite (bind_run _ _ _ _ _ E2). reflexivity. }
  exists hy'. by rewrite (bind_run _ _ _ _ _ E).
Qed.

Lemma cleanup_run p d pv cfg :
  dv_procs d !! p = Some pv → at_rest pv →
  ∃ d', on_process p (in_dev (hgsl_cleanup cfg)) d = Some (0, d') ∧
    dv_driver d' = load_process pv (dv_driver d) ∧
    dv_procs d' = <[p := pv]> (dv_procs d) ∧ same_lists d d'.
Proof.
  intros Hp [_ _ Hm Ha]. eexists. split.
  - eapply on_process_run; [exact Hp|]. unfold in_dev, hgsl_cleanup.
    set (m := dr_dev (load_process pv (dv_driver d))).
    rewrite (bind_run _ _ m (md_mapped m) m), (bind_run _ _ m (md_allocated m) m) by done.
    change (md_mapped m) with (pv_mapped pv). change (md_allocated m) with (pv_allocated pv).
    rewrite Hm, Ha. reflexivity.
  - split; [by destruct (dv_driver d)|]. split; [|done]. cbn. f_equal. by destruct pv.
Qed.

Lemma close_hyp_run p d pv looks :
  dv_procs d !! p = Some pv → at_rest pv → (0 < looks)%nat →
  ∃ pv' s d', close_hyp looks p d = Some (tt, d') ∧ dv_driver d' = s ∧
    s = (load_process pv (dv_driver d)) <| dr_dev ::= λ m, m <| md_hyp := pv_hyp pv' |> |> ∧
    dv_procs d' = <[p := pv']> (dv_procs d) ∧ same_lists d d'.
Proof.
  intros Hp [Hset Hb _ _] Hl. destruct (hyp_close_idle looks (pv_hyp pv) Hl Hset Hb) as [hy' E].
  set (s := (load_process pv (dv_driver d)) <| dr_dev ::= λ m, m <| md_hyp := hy' |> |>).
  assert (in_hyp (hgsl_hyp_close looks) (load_process pv (dv_driver d)) = Some (true, s)) as E1.
  { unfold in_hyp, in_dev, on_hyp. change (md_hyp (dr_dev (load_process pv (dv_driver d)))) with (pv_hyp pv).
    by rewrite E. }
  eexists (save_process s pv), s, _. unfold close_hyp.
  rewrite (bind_run _ _ _ _ _ (on_process_run _ _ _ _ _ _ Hp E1)). split; [reflexivity|]. by split_and!.
Qed.

(** * Properties *)

(** What a device is without the process [p]. *)
Record process_gone (p : ptr) (d d' : device) : Prop := {
  pg_procs : dv_procs d' = delete p (dv_procs d);
  pg_lists : same_lists d d';
  pg_table : w_table (dr_world (dv_driver d')) =
    filter (λ kc, owner (dv_driver d) kc.2 ≠ Some p) (w_table (dr_world (dv_driver d)));
  pg_groups : w_event_groups (dr_world (dv_driver d')) =
    filter (λ c, owner (dv_driver d) c ≠ Some p) (w_event_groups (dr_world (dv_driver d)));
  pg_contexts : w_contexts (dr_world (dv_driver d')) =
    filter (λ kc, c_priv kc.2 ≠ p) (w_contexts (dr_world (dv_driver d)));
  pg_backs : dr_backs (dv_driver d') =
    filter (λ kc, owner (dv_driver d) kc.1 ≠ Some p) (dr_backs (dv_driver d));
  pg_memory : same_memory (md_shm (dr_dev (dv_driver d))) (md_shm (dr_dev (dv_driver d')));
  pg_access : dr_access (dv_driver d') = dr_access (dv_driver d);
  pg_dbqs : dr_dbqs (dv_driver d') = dr_dbqs (dv_driver d);
  pg_isync : w_isync (dr_world (dv_driver d')) = w_isync (dr_world (dv_driver d));
  pg_idr : w_isync_idr (dr_world (dv_driver d')) = w_isync_idr (dr_world (dv_driver d));
  pg_global : dr_global (dv_driver d') = dr_global (dv_driver d) }.

Lemma process_gone_of p d d' gone :
  contexts_gone p gone (dv_driver d) (dv_driver d') → (∀ c, owner (dv_driver d) c = Some p → c ∈ gone) →
  dv_procs d' = delete p (dv_procs d) → same_lists d d' → process_gone p d d'.
Proof.
  intros [Ho Ht Hg Hc Hb Hm Ha Hq Hi Hr Hgl] Hall Hp Hl.
  assert (∀ c, c ∉ gone ↔ owner (dv_driver d) c ≠ Some p) as Hiff by (intros c; naive_solver).
  split; try done.
  - rewrite Ht. apply map_filter_ext. intros k c _. apply Hiff.
  - rewrite Hg. apply list_filter_iff. intros c. apply Hiff.
  - rewrite Hc. apply map_filter_ext. intros c ctx Hx. cbn. rewrite Hiff, (owner_Some _ _ _ Hx). naive_solver.
  - rewrite Hb. apply map_filter_ext. intros c cb _. apply Hiff.
Qed.

(** C12. Cleaning up after a process that has neither memory nor timelines nor calls under
    way, and whose contexts nobody uses, always ends, whatever the backend answers and even
    when no channel can be had: the process is freed; exactly its contexts are out of the
    table, out of the event groups and freed in both halves; the contexts of other
    processes, the doorbell queues, the timelines, the memory and its mappings and the
    driver's own connection are what they were; and no list of processes changes. *)
Theorem release_exact cfg turns fuel looks p d pv :
  dv_procs d !! p = Some pv → at_rest pv → may_go p (dv_driver d) → (0 < looks)%nat →
  ∃ d', _hgsl_release cfg turns fuel looks p d = Some (0, d') ∧ process_gone p d d'.
Proof.
  intros Hp Hr Hgo Hl. unfold _hgsl_release.
  destruct (destroy_contexts_run cfg turns fuel p d table_keys [] d Hgo) as (gone & d1 & E1 & Hcl & _ & Hcov);
    [|done|].
  { split; [apply contexts_gone_nil| |done]. exists pv. by rewrite insert_id. }
  rewrite (bind_run _ _ _ _ _ E1). destruct Hcl as [Hg (pv1 & Ep1 & Hr1) Hl1].
  assert (in_driver (in_world (hgsl_isync_fini p)) d1 = Some (tt, d1)) as E2.
  { unfold in_driver, in_world. rewrite isync_fini_none; [by destruct d1 as [[]]|].
    intros id t. rewrite (cg_idr _ _ _ _ Hg), (cg_isync _ _ _ _ Hg). apply (mg_isync _ _ Hgo). }
  rewrite (bind_run _ _ _ _ _ E2). clear E1 E2.
  assert (dv_procs d1 !! p = Some pv1) as Hp1 by (rewrite Ep1; apply lookup_insert_eq).
  rewrite (bind_run _ _ _ _ _ (proc_run _ _ _ Hp1)).
  destruct (cleanup_run p d1 pv1 (dc_mem (cfg_for cfg pv1)) Hp1 Hr1) as (d2 & E2 & Ed2 & Ep2 & Hl2).
  rewrite (bind_run _ _ _ _ _ E2). cbn [Z.eqb negb].
  assert (dv_procs d2 !! p = Some pv1) as Hp2 by (rewrite Ep2; apply lookup_insert_eq).
  destruct (close_hyp_run p d2 pv1 looks Hp2 Hr1 Hl) as (pv3 & s3 & d3 & E3 & Ed3 & Es3 & Ep3 & Hl3).
  rewrite (bind_run _ _ _ _ _ E3). eexists. split; [reflexivity|].
  apply (process_gone_of p d _ gone).
  - cbn. rewrite Ed3, Es3, Ed2. destruct Hg. by split.
  - intros c Ho. destruct (mg_named _ _ Hgo c Ho) as (k & Hk & Ht). by apply (Hcov k c).
  - cbn. by rewrite Ep3, Ep2, Ep1, !insert_insert_eq, delete_insert_eq.
  - destruct Hl1, Hl2, Hl3. split; cbn; congruence.
Qed.
End release.

(** * Concrete runs *)

(** A process with one context, next to one of another process. *)
Definition demo_leaver : process := zeroed_process <| pv_pid := 100 |>.

Definition demo_two_contexts : driver :=
  demo_driver <| dr_world ::= λ w, w <| w_table := {[(0, 4) := 1%positive; (0, 5) := 2%positive]} |>
      <| w_contexts := {[1%positive := fresh_context 1 4 0 None; 2%positive := fresh_context 9 5 0 None]} |>
      <| w_event_groups := [2%positive; 1%positive] |> |>
    <| dr_backs := {[1%positive := zeroed_ctxt; 2%positive := zeroed_ctxt]} |>.

Definition demo_leaving : device :=
  demo_device <| dv_driver := demo_two_contexts |> <| dv_procs := {[1%positive := demo_leaver]} |>.

Lemma demo_at_rest : at_rest demo_leaver.
Proof.
  assert (∀ c, c ∉ @nil ptr) as Hnil by (intros c; apply not_elem_of_nil).
  split; try done. split; [|by intros c ch Hin%Hnil]. split; cbn.
  - apply NoDup_nil_2.
  - intros c. rewrite lookup_empty. split; [by intros ?%Hnil|by intros []].
  - by intros c ch Hin%Hnil.
  - by intros c ch Hin%Hnil.
  - intros id c E. by rewrite lookup_empty in E.
  - intros c ch E. by rewrite lookup_empty in E.
  - by intros c ch Hin%Hnil.
Qed.

Lemma demo_contexts c ctx :
  w_contexts (dr_world demo_two_contexts) !! c = Some ctx →
  c = 1%positive ∧ ctx = fresh_context 1 4 0 None ∨ c = 2%positive ∧ ctx = fresh_context 9 5 0 None.
Proof.
  cbn. intros [[<- <-]|[_ [<- <-]%lookup_singleton_Some]]%lookup_insert_Some; [by left|by right].
Qed.

Lemma demo_table k c :
  w_table (dr_world demo_two_contexts) !! k = Some c →
  k = (0, 4) ∧ c = 1%positive ∨ k = (0, 5) ∧ c = 2%positive.
Proof.
  cbn. intros [[<- <-]|[_ [<- <-]%lookup_singleton_Some]]%lookup_insert_Some; [by left|by right].
Qed.

Lemma demo_may_go : may_go 1 demo_two_contexts.
Proof.
  split.
  - intros k c [[-> ->]|[-> ->]]%demo_table; by eexists.
  - intros k k' c H1 H2. apply demo_table in H1, H2. naive_solver.
  - intros c Hc. unfold owner in Hc. destruct (w_contexts _ !! c) as [ctx|] eqn:E; [|done].
    apply demo_contexts in E as [[-> ->]|[-> ->]]; [|done]. exists (0, 4).
    split; [by apply elem_of_table_keys|done].
  - intros k c ctx [[-> ->]|[-> ->]]%demo_table E; apply demo_contexts in E as [[? ->]|[? ->]]; try done.
    intros _. exists zeroed_ctxt. split; [done|]. by split.
  - intros id t E. change (w_isync_idr (dr_world demo_two_contexts)) with (∅ : gmap Z ptr) in E.
    by rewrite lookup_empty in E.
Qed.

Lemma release_exact_witness :
  let _ := demo_shm in let _ := demo_hab 0 [] in let _ := demo_mem in let _ := demo_irq in
  let _ := demo_driver_env in let _ := quiet_kernel in let _ := quiet_issue in
  ∃ d', _hgsl_release demo_driver_cfg 0 0 1 1 demo_leaving = Some (0, d') ∧ process_gone 1 demo_leaving d'.
Proof.
  intros Sh Hh En Ik Ev Qk Qi.
  exact (release_exact demo_driver_cfg 0 0 1 1 demo_leaving demo_leaver eq_refl demo_at_rest demo_may_go
    (le_n 1)).
Defined.
