(* ===== verification/Submission.v ===== *)
(** Memory safety of submissions through the queue of a context
    (hgsl_dbcq_issue_cmd): whatever the GMU writes in the read index and the shadow
    timestamps, and whatever the number of descriptors, no write leaves the ring or
    the buffer for indirect submissions, and the queue stays well formed.  The
    rules below are total: a run that faults satisfies none of them. *)

From S2P Require Import Prelude.
From S2P Require Import Bytes.
From S2P Require Import State.
From S2P Require Import Timestamp.
From S2P Require Import Context.
From S2P Require Import Events.
From S2P Require Import Ring.
From S2P Require Import Dispatch.
From S2P Require Import Doorbell.

(** * Definitions *)

(** The memory of a context queue as hgsl_dbcq_open lays it out, its write index in
    the ring.  Nothing is said of the read index. *)
Record ctx_queue_ok (h : ctx_queue) : Prop := {
  cqo_size : h_dwSize h = HGSL_CTXT_QUEUE_BODY_DWSIZE;
  cqo_body : length (h_body h) = Z.to_nat HGSL_CTXT_QUEUE_BODY_DWSIZE;
  cqo_indirect : length (h_indirect h) = Z.to_nat HGSL_CTXT_QUEUE_INDIRECT_IB_DWSIZE;
  cqo_write : 0 ≤ h_writeIdx h < HGSL_CTXT_QUEUE_BODY_DWSIZE }.

(** A live context with a queue of its own and its shadow timestamps mapped. *)
Record submitter (c : hgsl_context) : Prop := {
  sub_queue : ∃ q h, c_dbcq c = Some q ∧ cq_queue q = Some h ∧ ctx_queue_ok h;
  sub_shadow : ∃ s, c_shadow_ts c = Some s;
  sub_alive : c_is_killed c = false }.

Definition submits (p : ptr) (w : world) : Prop :=
  ∃ c, w_contexts w !! p = Some c ∧ submitter c.

(** [m] neither faults nor breaks the context [p], and its result satisfies [Q]. *)
Definition safe {A} (p : ptr) (m : M world A) (Q : A → Prop) : Prop :=
  ∀ w, submits p w → wp m (λ a w', submits p w' ∧ Q a) w.

(** * Lemmas *)

Section rules.
Context `{K : Kernel} (p : ptr).

Lemma safe_ret {A} (a : A) (Q : A → Prop) : Q a → safe p (mret a) Q.
Proof. intros Ha w Hw. by apply wp_ret. Qed.

Lemma safe_bind {A B} (m : M world A) (k : A → M world B) P Q :
  safe p m P → (∀ a, P a → safe p (k a) Q) → safe p (m ≫= k) Q.
Proof.
  intros Hm Hk w Hw. apply wp_bind. eapply wp_mono; [by apply Hm|].
  intros a w' [Hw' Ha]. by apply Hk.
Qed.

Lemma safe_seq {A B} (m : M world A) (k : A → M world B) Q :
  safe p m (λ _, True) → (∀ a, safe p (k a) Q) → safe p (m ≫= k) Q.
Proof. intros Hm Hk. eapply safe_bind; [exact Hm|auto]. Qed.

Lemma safe_mono {A} (m : M world A) (P Q : A → Prop) :
  safe p m P → (∀ a, P a → Q a) → safe p m Q.
Proof.
  intros Hm HPQ w Hw. eapply wp_mono; [by apply Hm|]. intros a w' []. auto.
Qed.

Lemma safe_load {B} (k : hgsl_context → M world B) Q :
  (∀ c, submitter c → safe p (k c) Q) → safe p (c ← load w_contexts p; k c) Q.
Proof.
  intros Hk w Hw. pose proof Hw as (c & Hc & Hs). unfold wp. run_load Hc. by apply Hk.
Qed.

Lemma safe_ask {A} (f : nat → A) : safe p (ask f) (λ _, True).
Proof. intros w Hw. done. Qed.

Lemma safe_emit a : safe p (emit a) (λ _, True).
Proof. intros w Hw. done. Qed.

Lemma safe_update f :
  (∀ c, submitter c → submitter (f c)) → safe p (update w_contexts p f) (λ _, True).
Proof.
  intros Hf w (c & Hc & Hs). unfold wp. rewrite (update_run _ _ _ _ _ Hc). split; [|done].
  exists (f c). split; [apply lookup_insert_eq|auto].
Qed.

(** The GPU may move the read index and the shadow timestamps. *)
Lemma submitter_gpu n c : submitter c → submitter (gpu_context n p c).
Proof.
  intros [(q & h & Hq & Hh & []) (s & Hs) Ha]. unfold gpu_context. split; [|..|done].
  - cbn. rewrite Hq. cbn. do 2 eexists. split; [done|]. cbn. rewrite Hh. split; [done|].
    by split.
  - cbn. rewrite Hs. by eexists.
Qed.

Lemma safe_gpu_step : safe p gpu_step (λ _, True).
Proof.
  intros w (c & Hc & Hs). unfold wp, gpu_step, tick, modify, mbind, M_bind. split; [|done].
  eexists. split; [|by apply submitter_gpu]. cbn. by rewrite map_lookup_imap, Hc.
Qed.

Lemma safe_msleep : safe p msleep_interruptible (λ _, True).
Proof. apply safe_seq; [apply safe_gpu_step|]. intros _. apply safe_ask. Qed.

Lemma safe_if {A} (b : bool) (m1 m2 : M world A) Q :
  (b = true → safe p m1 Q) → (b = false → safe p m2 Q) → safe p (if b then m1 else m2) Q.
Proof. destruct b; auto. Qed.

Lemma safe_when (b : bool) (m : M world unit) :
  safe p m (λ _, True) → safe p (when b m) (λ _, True).
Proof. destruct b; [done|]. intros _. by apply safe_ret. Qed.

Lemma submitter_queue c q h q' h' :
  submitter c → c_dbcq c = Some q → cq_queue q = Some h →
  cq_queue q' = Some h' → ctx_queue_ok h' → submitter (c <| c_dbcq := Some q' |>).
Proof. intros [_ Hs Ha] _ _ Hh' Hok. split; [|done|done]. cbn. eauto. Qed.

Lemma safe_update_dbcq f :
  (∀ q, cq_queue (f q) = cq_queue q) → safe p (update_dbcq p f) (λ _, True).
Proof.
  intros Hf. apply safe_update. intros c Hc.
  pose proof (sub_queue _ Hc) as (q & h & Hq & Hh & Hok).
  cbn. rewrite Hq. cbn. eapply submitter_queue; [done..| |done]. by rewrite Hf.
Qed.

Lemma safe_update_ctx_queue f :
  (∀ h, ctx_queue_ok h → ctx_queue_ok (f h)) → safe p (update_ctx_queue p f) (λ _, True).
Proof.
  intros Hf. apply safe_update. intros c Hc.
  pose proof (sub_queue _ Hc) as (q & h & Hq & Hh & Hok).
  cbn. rewrite Hq. cbn. eapply (submitter_queue c q h); [done..| |by apply Hf].
  cbn. by rewrite Hh.
Qed.

Lemma safe_get_dbcq {B} (k : doorbell_context_queue → M world B) Q :
  (∀ q h, cq_queue q = Some h → safe p (k q) Q) → safe p (q ← get_dbcq p; k q) Q.
Proof.
  intros Hk. intros w Hw. pose proof Hw as (c & Hc & Hs).
  destruct (sub_queue _ Hs) as (q & h & Hq & Hh & Hok). unfold wp.
  rewrite (bind_run _ _ w q w); [by eapply Hk|].
  unfold get_dbcq. run_load Hc. by rewrite Hq.
Qed.

Lemma safe_get_ctx_queue {B} (k : ctx_queue → M world B) Q :
  (∀ h, ctx_queue_ok h → safe p (k h) Q) → safe p (h ← get_ctx_queue p; k h) Q.
Proof.
  intros Hk. intros w Hw. pose proof Hw as (c & Hc & Hs).
  destruct (sub_queue _ Hs) as (q & h & Hq & Hh & Hok). unfold wp.
  rewrite (bind_run _ _ w h w); [by eapply Hk|].
  unfold get_ctx_queue, get_dbcq.
  rewrite (bind_run _ _ w q w) by (run_load Hc; by rewrite Hq). by rewrite Hh.
Qed.

Lemma safe_of_option {A B} (o : option A) a (k : A → M world B) Q :
  o = Some a → safe p (k a) Q → safe p (x ← of_option o; k x) Q.
Proof. intros ->. intros Hk w Hw. by apply Hk. Qed.

Lemma safe_modify (f : world → world) :
  (∀ w, w_contexts (f w) = w_contexts w) → safe p (modify f) (λ _, True).
Proof. intros Hf w (c & Hc & Hs). split; [|done]. exists c. by rewrite Hf. Qed.

(** ** Waiting *)

Lemma safe_dbcq_wait_loop n size : safe p (dbcq_wait_loop n p size) (λ _, True).
Proof.
  induction n as [|n IH]; cbn [dbcq_wait_loop].
  all: apply safe_seq;
    [unfold db_context_queue_freedwords; apply safe_get_ctx_queue; intros h Hh;
     rewrite (cqo_size _ Hh); by apply safe_ret|].
  all: intros free; apply safe_if; intros _; [by apply safe_ret|].
  all: apply safe_seq; [apply safe_msleep|]; intros b; apply safe_if; intros _;
    [by apply safe_ret|].
  - by apply safe_ret.
  - apply IH.
Qed.

Lemma safe_check_shadow type ts :
  safe p (hgsl_check_shadow_timestamp p type ts) (λ _, True).
Proof.
  apply safe_seq; [|intros []; by apply safe_ret].
  apply safe_load. intros c _. by apply safe_ret.
Qed.

Lemma safe_timestamp_retired ts : safe p (_timestamp_retired p ts) (λ _, True).
Proof.
  apply safe_seq; [|intros r; by apply safe_ret].
  apply safe_load. intros c Hc. destruct (sub_shadow _ Hc) as (s & Hs).
  apply (safe_of_option _ s); [done|]. by apply safe_ret.
Qed.

Context (interfere_submits : ∀ n w, submits p w → submits p (k_interfere n w)).

Lemma safe_wait condition :
  safe p condition (λ _, True) →
  safe p (wait_event_interruptible_timeout condition) (λ _, True).
Proof.
  intros Hc. apply safe_seq; [intros w Hw; done|]. intros n.
  apply safe_seq; [intros w Hw; split; [by apply interfere_submits|done]|]. intros _.
  apply safe_seq; [done|]. intros c. apply safe_seq; [apply safe_ask|]. intros left.
  by apply safe_ret.
Qed.

Lemma safe_wait_timestamp ts : safe p (hgsl_wait_timestamp p ts) (λ _, True).
Proof.
  apply safe_load. intros c _. apply safe_if; intros _; [by apply safe_ret|].
  apply safe_seq; [apply safe_ask|]. intros ok. apply safe_if; intros _; [by apply safe_ret|].
  apply safe_seq; [by apply safe_modify|]. intros _. apply safe_seq.
  { apply safe_wait. apply safe_seq; [apply safe_timestamp_retired|]. intros r.
    apply safe_load. intros c' _. by apply safe_ret. }
  intros ret. apply safe_seq; [by apply safe_modify|]. intros _. by apply safe_ret.
Qed.

Lemma safe_claim ts ret :
  safe p (update_dbcq p (λ q, q <| cq_indirect_ib_ts := ts |>) ;; mret ret) (λ _ : Z, True).
Proof.
  apply safe_seq; [by apply safe_update_dbcq|]. intros _. by apply safe_ret.
Qed.

Lemma safe_indirect_buffer ts ms :
  safe p (dbcq_get_free_indirect_ib_buffer p ts ms) (λ _, True).
Proof.
  unfold dbcq_get_free_indirect_ib_buffer. apply safe_get_dbcq. intros q h _.
  apply safe_if; intros _; [apply safe_claim|].
  apply safe_seq; [apply safe_check_shadow|]. intros [ret expired].
  apply safe_if; intros _; [apply safe_claim|]. apply safe_seq.
  { apply safe_if; intros _; [apply safe_ask|].
    apply safe_if; intros _; [apply safe_wait_timestamp|by apply safe_ret]. }
  intros ret'. apply safe_if; intros _; [by apply safe_ret|apply safe_claim].
Qed.

(** ** Sending *)

Lemma ctx_queue_write h msg :
  ctx_queue_ok h → (length msg < 256)%nat →
  ∃ body, ring_write (h_body h) 0 (Z.to_nat (h_dwSize h)) (Z.to_nat (h_writeIdx h)) msg = Some body ∧
    length body = length (h_body h).
Proof.
  intros [Hs Hb _ Hw] Hm. unfold HGSL_CTXT_QUEUE_BODY_DWSIZE in *.
  destruct (ring_write_run (h_body h) 0 (Z.to_nat (h_dwSize h)) (Z.to_nat (h_writeIdx h)) msg)
    as (body & E & L & _); [lia..|]. eauto.
Qed.

Lemma safe_write_msg msg n :
  (length msg < 256)%nat → safe p (dbcq_write_msg p msg n) (λ _, True).
Proof.
  intros Hm. apply safe_get_ctx_queue. intros h Hh.
  destruct (ctx_queue_write h msg Hh Hm) as (body & E & L).
  apply (safe_of_option _ body); [done|]. apply safe_update_ctx_queue.
  intros h' [Hs Hb Hi Hw]. split; cbn; [done| |done|].
  - rewrite L. apply Hh.
  - rewrite Hs. apply Z.mod_pos_bound. done.
Qed.

Lemma safe_send_msg msg_dwords cmds :
  msg_dwords < 256 → safe p (dbcq_send_msg p msg_dwords cmds) (λ _, True).
Proof.
  intros Hm. apply safe_load. intros c Hc. pose proof (sub_queue _ Hc) as (q & _ & Hq & _).
  apply (safe_of_option _ q); [done|]. apply safe_seq; [|intros r; by apply safe_ret].
  apply safe_if; intros _; [by apply safe_ret|]. cbv zeta.
  apply safe_seq; [apply safe_dbcq_wait_loop|]. intros ret.
  apply safe_if; intros _; [by apply safe_ret|].
  apply safe_seq.
  { apply safe_write_msg. rewrite length_take. lia. }
  intros _. apply safe_seq; [|intros _; by apply safe_ret].
  apply safe_if; intros _; [apply safe_emit|].
  apply safe_if; intros _; [apply safe_when|]; apply safe_emit.
Qed.

(** ** Issuing *)

Lemma descs_length descs : length (descs ≫= ib_desc_dwords) = (3 * length descs)%nat.
Proof. induction descs as [|d l IH]; [done|]. cbn. rewrite IH. lia. Qed.

Lemma safe_fill_indirect descs :
  (length descs ≤ 2000)%nat →
  safe p (h ← get_ctx_queue p;
          mem ← of_option (memcpy (h_indirect h) 0 (descs ≫= ib_desc_dwords));
          update_ctx_queue p (λ h, h <| h_indirect := mem |>)) (λ _, True).
Proof.
  intros Hl. apply safe_get_ctx_queue. intros h Hh. pose proof (cqo_indirect _ Hh) as Hi.
  unfold HGSL_CTXT_QUEUE_INDIRECT_IB_DWSIZE in Hi.
  destruct (memcpy_run (h_indirect h) 0 (descs ≫= ib_desc_dwords)) as (mem & E & L & _).
  { rewrite descs_length. lia. }
  apply (safe_of_option _ mem); [done|]. apply safe_update_ctx_queue.
  intros h' []. split; try done. cbn. rewrite L. apply Hh.
Qed.

Lemma safe_dbcq_open : safe p (hgsl_dbcq_open p) (λ r, r = 0).
Proof.
  apply safe_load. intros c Hc. pose proof (sub_queue _ Hc) as (q & h & Hq & Hh & _).
  rewrite Hq, Hh. by apply safe_ret.
Qed.

Lemma safe_dbcq_issue num_ibs flags ts descs profile upd :
  0 ≤ num_ibs → length descs = Z.to_nat num_ibs →
  safe p (hgsl_dbcq_issue_cmd p num_ibs flags ts descs profile upd) (λ _, True).
Proof.
  intros Hn Hl. unfold hgsl_dbcq_issue_cmd.
  eapply safe_bind; [apply safe_dbcq_open|]. intros ? ->. cbn [Z.eqb negb].
  apply safe_get_dbcq. intros q h _. cbv zeta.
  apply safe_seq; [by apply safe_update_dbcq|]. intros _.
  apply safe_if; [intros _; by apply safe_ret|]. intros Hmax.
  apply orb_false_iff in Hmax as [Hmax%Z.ltb_ge _]. unfold ECP_MAX_NUM_IB1 in Hmax.
  set (full := if 0 <? num_ibs then _ else _).
  destruct (_ || _) eqn:Eb; [set (msg_dwords := MSG_ISSUE_INF_SZ)|set (msg_dwords := full)].
  all: assert (Hm : msg_dwords < 256);
    [first [done | apply orb_false_iff in Eb as [_ Eb%Z.ltb_ge];
       change (Z.shiftr MSG_SZ_MASK MSG_SZ_SHIFT) with 255 in Eb;
       destruct (ALIGN_spec full 4 ltac:(lia)) as [? _]; unfold msg_dwords; lia]|].
  all: apply safe_seq; [apply safe_load; intros c _; by apply safe_ret|].
  all: intros [ret ts']; apply safe_if; intros _; [by apply safe_ret|].
  all: apply safe_seq; [apply safe_ask|]; intros ok; apply safe_if; intros _; [by apply safe_ret|].
  all: apply safe_load; intros c Hc.
  all: apply safe_seq; [first [apply safe_indirect_buffer | by apply safe_ret]|].
  all: intros ret'; apply safe_if; intros _; [by apply safe_ret|].
  all: apply safe_seq; [first [apply safe_fill_indirect; lia | by apply safe_ret]|]; intros _.
  all: rewrite (sub_alive _ Hc).
  all: apply safe_seq; [by apply safe_send_msg|]; intros r.
  all: apply safe_seq; [|intros _; by apply safe_ret].
  all: apply safe_if; intros _; [|by apply safe_ret].
  all: apply safe_seq.
  1, 3: apply safe_when, safe_update; intros c' [? ? ?]; by split.
  all: intros _; apply safe_when.
  all: apply safe_seq; [apply safe_indirect_buffer|]; intros _; by apply safe_ret.
Qed.

End rules.

(** * Properties *)

Section properties.
Context `{K : Kernel}.

(** C25. Submitting through the queue of a live context is memory safe and
    returns: for every number of descriptors, every read index the GMU leaves and
    every course of the waits, hgsl_dbcq_issue_cmd comes back with a result, all
    writes stayed inside the ring and the buffer for indirect submissions, and the
    queue is again well formed. *)
Theorem dbcq_issue_cmd_safe p num_ibs flags ts descs profile upd w :
  (∀ n w, submits p w → submits p (k_interfere n w)) →
  submits p w → 0 ≤ num_ibs → length descs = Z.to_nat num_ibs →
  ∃ r w', hgsl_dbcq_issue_cmd p num_ibs flags ts descs profile upd w = Some (r, w') ∧
    submits p w'.
Proof.
  intros Hi Hw Hn Hl.
  destruct (wp_run _ _ _ (safe_dbcq_issue p Hi num_ibs flags ts descs profile upd Hn Hl w Hw))
    as (r & w' & E & Hw' & _). eauto.
Qed.

End properties.

(** * Witnesses *)

Section witnesses.
#[local] Existing Instance quiet_kernel.

Lemma small_submits : submits 1 doorbell_world.
Proof.
  exists doorbell_context. split; [done|]. split; [|by eexists|done].
  do 2 eexists. split; [done|]. split; [done|]. by split.
Qed.

(** One hundred descriptors do not fit the ring and go through the buffer. *)
Lemma dbcq_issue_cmd_safe_witness :
  ∃ r w', hgsl_dbcq_issue_cmd 1 100 CMDBATCH_NOTIFY 0 (replicate 100 (mk_ib_desc 65536 64)) 0
            true doorbell_world = Some (r, w') ∧ submits 1 w'.
Proof.
  apply (dbcq_issue_cmd_safe 1 100 CMDBATCH_NOTIFY 0 (replicate 100 (mk_ib_desc 65536 64)) 0 true);
    [done|apply small_submits|lia|reflexivity].
Defined.

End witnesses.
