(* ===== verification/Ioctl.v ===== *)
(** The ioctls (hgsl.c) that submit commands, wait for timestamps and operate on
    timelines, the fences of hardware timelines as files (hgsl_sync.c), and the
    worker that runs the callbacks of events (hgsl_events.c). *)

From S2P Require Import Prelude.
From S2P Require Import State.
From S2P Require Import Timestamp.
From S2P Require Import Hsync.
From S2P Require Import Context.
From S2P Require Import Events.
From S2P Require Import Isync.
From S2P Require Import Drawobj.
From S2P Require Import Frames.
From S2P Require Import Ring.
From S2P Require Import Dispatch.
From S2P Require Import Doorbell.

(** * Definitions *)

(** ** Parameters of the ioctls *)

Record hgsl_gpu_command := mk_gpu_command {
  gc_flags : Z;
  gc_cmdlist : Z; gc_cmdsize : Z; gc_numcmds : Z;
  gc_objlist : Z; gc_objsize : Z; gc_numobjs : Z;
  gc_synclist : Z; gc_syncsize : Z; gc_numsyncs : Z;
  gc_devhandle : Z; gc_context_id : Z; gc_timestamp : Z }.

Record hgsl_gpu_aux_command := mk_gpu_aux_command {
  ga_flags : Z;
  ga_cmdlist : Z; ga_cmdsize : Z; ga_numcmds : Z;
  ga_synclist : Z; ga_syncsize : Z; ga_numsyncs : Z;
  ga_devhandle : Z; ga_context_id : Z; ga_timestamp : Z }.

Record hgsl_ioctl_issueib_params := mk_issueib_params {
  ii_ibs : Z; ii_devhandle : Z; ii_ctxthandle : Z; ii_timestamp : Z;
  ii_num_ibs : Z; ii_channel_id : Z }.

Record hgsl_ioctl_issueib_with_alloc_list_params := mk_issueib_alloc_params {
  ia_ibs : Z; ia_allocations : Z; ia_be_data : Z;
  ia_devhandle : Z; ia_ctxthandle : Z; ia_timestamp : Z;
  ia_num_ibs : Z; ia_num_allocations : Z; ia_channel_id : Z }.

Record hgsl_wait_ts_info := mk_wait_ts_info {
  wt_context_id : Z; wt_timestamp : Z; wt_devhandle : Z; wt_channel_id : Z }.

(** struct hgsl_timeline_signal and struct hgsl_timeline_query *)
Record hgsl_timeline_list := mk_timeline_list {
  tt_timelines : Z; tt_count : Z; tt_timelines_size : Z }.

Record hgsl_hsync_fence_create_params := mk_hsync_fence_params {
  hc_timestamp : Z; hc_context_id : Z; hc_devhandle : Z }.

Definition GSL_IBDESC_PROFILING_BUFFER : Z := 2.
Definition TIMELINE_VAL_SIZE : Z := 16.       (* sizeof(struct hgsl_timeline_val) *)

(** ** The type of a command *)

Definition _get_command_type (flags numcmds numobjs numsyncs : Z) : Z :=
  if (ECP_MAX_NUM_IB1 <? numcmds) || (ECP_MAX_NUM_IB1 <? numobjs) ||
     (HGSL_MAX_SYNCPOINTS <? numsyncs) then 0
  else if has_flag flags HGSL_DRAWOBJ_MARKER then MARKEROBJ_TYPE
  else if has_flag flags HGSL_DRAWOBJ_SYNC then SYNCOBJ_TYPE
  else if negb (numsyncs =? 0) && negb (numcmds =? 0) then Z.lor SYNCOBJ_TYPE CMDOBJ_TYPE
  else if negb (numsyncs =? 0) then SYNCOBJ_TYPE
  else if negb (numcmds =? 0) then CMDOBJ_TYPE
  else MARKEROBJ_TYPE.

Section ioctl.
Context `{K : Kernel} `{I : IssueCmd}.

(** ** Hardware fences as files (hgsl_sync.c) *)

Definition _hsync_fence_event_cb (context : ptr) (timestamp : Z) : M world unit :=
  c ← load w_contexts context;
  hgsl_hsync_timeline_signal (c_timeline c) timestamp ;;
  hgsl_put_context (Some context).

Definition _add_fence_event (ctxt : ptr) (ts : Z) : M world Z :=
  ok ← ask k_alloc;
  if negb ok then mret (- ENOMEM)
  else
    got ← hgsl_context_get (Some ctxt);
    if negb got then mret (- ENOENT)
    else
      ret ← hgsl_add_event ctxt ts (Some (Fn_hsync_fence_event_cb ctxt ts));
      when (negb (ret =? 0)) (hgsl_put_context (Some ctxt)) ;;
      mret ret.

Definition hgsl_hsync_fence_create_fd (context : ptr) (ts : Z) : M world Z :=
  fence_fd ← ask k_unused_fd;
  if fence_fd <? 0 then mret fence_fd
  else
    fence ← hgsl_hsync_fence_create context ts;
    match fence with
    | None => emit (A_put_unused_fd fence_fd) ;; mret (- ENOMEM)
    | Some fence =>
        ret ← _add_fence_event context ts;
        if negb (ret =? 0) then emit (A_put_unused_fd fence_fd) ;; mret ret
        else emit (A_fd_install fence_fd (Hsync_fence fence)) ;; mret fence_fd
    end.

(** ** The worker of the events (hgsl_events.c) *)

(** event->func(...), event->priv being part of the function. *)
Definition run_event_func (f : event_func) : M world unit :=
  match f with
  | Fn_timestamp_signaled obj id => _timestamp_signaled obj id
  | Fn_timeline_signaled obj => _timeline_signaled obj
  | Fn_hsync_fence_event_cb ctxt ts => _hsync_fence_event_cb ctxt ts
  end.

Definition _hgsl_event_worker (event : hgsl_event) : M world unit :=
  run_event_func (he_func event) ;;
  hgsl_put_context (Some (he_context event)).

(** kthread_worker_fn on [hgsl->events_worker], [n] works. *)
Fixpoint events_worker (n : nat) : M world unit :=
  match n with
  | O => mret tt
  | S n =>
      q ← gets w_events;
      match q with
      | [] => mret tt
      | event :: rest =>
          modify (λ w, w <| w_events := rest |>) ;;
          _hgsl_event_worker event ;;
          events_worker n
      end
  end.

(** ** Submitting draw objects *)

(** What hgsl_ioctl_gpu_command and hgsl_ioctl_gpu_aux_command start with: the
    context with a reference, its dispatcher there; or the return code. *)
Definition get_dispatch_context (priv : ptr) (devhandle context_id : Z) : M world (Z + ptr) :=
  ctxt ← hgsl_get_context_owner priv devhandle context_id;
  match ctxt with
  | None => mret (inl (- EINVAL))
  | Some ctxt =>
      c ← load w_contexts ctxt;
      if negb (hgsl_ctxt_use_dbq c)
      then hgsl_put_context (Some ctxt) ;; mret (inl (- EPERM))
      else
        ret ← (match c_dispatch c with
               | Some _ => mret 0
               | None => hgsl_dispatch_ctxt_init ctxt
               end);
        if negb (ret =? 0) then hgsl_put_context (Some ctxt) ;; mret (inl ret)
        else mret (inr ctxt)
  end.

(** [drawobj] after the part that adds objects to it, and the return code. *)
Definition create_sync (priv ctxt : ptr) (synclist syncsize numsyncs : Z)
    (drawobj : list ptr) : M world (Z * list ptr) :=
  syncobj ← hgsl_drawobj_sync_create priv ctxt;
  match syncobj with
  | inl e => mret (e, drawobj)
  | inr syncobj =>
      ret ← hgsl_drawobj_sync_add_synclist priv syncobj synclist syncsize numsyncs;
      mret (ret, drawobj ++ [syncobj])
  end.

Definition create_cmd (priv ctxt : ptr) (type : Z) (param : hgsl_gpu_command)
    (drawobj : list ptr) : M world (Z * list ptr) :=
  cmdobj ← hgsl_drawobj_cmd_create priv ctxt (gc_flags param) type;
  match cmdobj with
  | inl e => mret (e, drawobj)
  | inr cmdobj =>
      let drawobj := drawobj ++ [cmdobj] in
      ret ← hgsl_drawobj_cmd_add_cmdlist cmdobj (gc_cmdlist param) (gc_cmdsize param)
              (gc_numcmds param);
      if negb (ret =? 0) then mret (ret, drawobj)
      else
        ret ← hgsl_drawobj_cmd_add_memlist priv cmdobj (gc_objlist param) (gc_objsize param)
                (gc_numobjs param);
        if negb (ret =? 0) then mret (ret, drawobj)
        else
          c ← CMDOBJ cmdobj;
          when (bool_decide (cmd_profiling c = None))
            (update w_drawobjs cmdobj (λ o,
               o <| o_flags ::= (λ f, Z.ldiff f HGSL_DRAWOBJ_PROFILING) |>)) ;;
          mret (0, drawobj)
  end.

(** The return code and the new [param->timestamp]. *)
Definition hgsl_ioctl_gpu_command (priv : ptr) (param : hgsl_gpu_command) :
  M world (Z * Z) :=
  let ts := gc_timestamp param in
  let type := _get_command_type (gc_flags param) (gc_numcmds param) (gc_numobjs param)
                (gc_numsyncs param) in
  if type =? 0 then mret (- EINVAL, ts)
  else
    ctxt ← get_dispatch_context priv (gc_devhandle param) (gc_context_id param);
    match ctxt with
    | inl e => mret (e, ts)
    | inr ctxt =>
        '(ret, drawobj) ←
          (if has_flag type SYNCOBJ_TYPE
           then create_sync priv ctxt (gc_synclist param) (gc_syncsize param)
                  (gc_numsyncs param) []
           else mret (0, []));
        '(ret, drawobj) ←
          (if (ret =? 0) && has_flag type (Z.lor CMDOBJ_TYPE MARKEROBJ_TYPE)
           then create_cmd priv ctxt type param drawobj
           else mret (ret, drawobj));
        '(ret, ts) ←
          (if ret =? 0 then hgsl_dispatch_queue_cmds (Some ctxt) drawobj ts
           else mret (ret, ts));
        when (negb (ret =? 0))
          (for_each (rev drawobj) (λ o, hgsl_drawobj_destroy (Some o))) ;;
        hgsl_put_context (Some ctxt) ;;
        mret (ret, ts)
    end.

(** The part of hgsl_ioctl_gpu_aux_command that creates the timeline object and the
    marker. *)
Definition create_timeline (priv ctxt : ptr) (cmdlist cmdsize : Z) (drawobjs : list ptr) :
  M world (Z * list ptr) :=
  generic ← ask (λ n, k_copy_aux_generic n cmdlist cmdsize);
  match generic with
  | None => mret (- EFAULT, drawobjs)
  | Some generic =>
      if negb (ag_type generic =? HGSL_GPU_AUX_COMMAND_TIMELINE)
      then mret (- EINVAL, drawobjs)
      else
        timelineobj ← hgsl_drawobj_timeline_create priv ctxt;
        match timelineobj with
        | inl e => mret (e, drawobjs)
        | inr timelineobj =>
            let drawobjs := drawobjs ++ [timelineobj] in
            ret ← hgsl_drawobj_add_timeline priv timelineobj cmdlist cmdsize;
            if negb (ret =? 0) then mret (ret, drawobjs)
            else
              markerobj ← hgsl_drawobj_cmd_create priv ctxt HGSL_DRAWOBJ_MARKER MARKEROBJ_TYPE;
              mret match markerobj with
                   | inl e => (e, drawobjs)
                   | inr markerobj => (0, drawobjs ++ [markerobj])
                   end
        end
  end.

Definition hgsl_ioctl_gpu_aux_command (priv : ptr) (param : hgsl_gpu_aux_command) :
  M world (Z * Z) :=
  let ts := ga_timestamp param in
  let sync := has_flag (ga_flags param) HGSL_GPU_AUX_COMMAND_SYNC in
  if negb (ga_numcmds param =? 1) then mret (- EINVAL, ts)
  else if negb (has_flag (ga_flags param) HGSL_GPU_AUX_COMMAND_TIMELINE)
  then mret (- EINVAL, ts)
  else if sync && (HGSL_MAX_SYNCPOINTS <? ga_numsyncs param) then mret (- EINVAL, ts)
  else
    ctxt ← get_dispatch_context priv (ga_devhandle param) (ga_context_id param);
    match ctxt with
    | inl e => mret (e, ts)
    | inr ctxt =>
        ok ← ask k_alloc;
        if negb ok then hgsl_put_context (Some ctxt) ;; mret (- ENOMEM, ts)
        else
          '(ret, drawobjs) ←
            (if sync
             then create_sync priv ctxt (ga_synclist param) (ga_syncsize param)
                    (ga_numsyncs param) []
             else mret (0, []));
          '(ret, drawobjs) ←
            (if ret =? 0
             then create_timeline priv ctxt (ga_cmdlist param) (ga_cmdsize param) drawobjs
             else mret (ret, drawobjs));
          '(ret, ts) ←
            (if ret =? 0 then hgsl_dispatch_queue_cmds (Some ctxt) drawobjs ts
             else mret (ret, ts));
          hgsl_put_context (Some ctxt) ;;
          when (negb (ret =? 0) && negb (ret =? - EPROTO))
            (for_each drawobjs (λ o, hgsl_drawobj_destroy (Some o))) ;;
          mret (ret, ts)
    end.

(** ** Submitting command buffers directly *)

Definition ib_desc_of (ib : hgsl_ibdesc) : hgsl_fw_ib_desc :=
  mk_ib_desc (id_gpuaddr ib) (u32 (Z.shiftl (id_sizedwords ib) 2)).

Definition hgsl_db_issueib (priv ctxt : ptr) (num_ibs : Z) (ibs : list hgsl_ibdesc)
    (timestamp : Z) : M world (Z * Z) :=
  c ← load w_contexts ctxt;
  if negb (hgsl_ctxt_use_dbq c) then mret (- EPERM, timestamp)
  else
    ok ← ask k_alloc;
    if negb ok then mret (- ENOMEM, timestamp)
    else hgsl_db_issue_cmd priv ctxt num_ibs CMDBATCH_NOTIFY timestamp (map ib_desc_of ibs)
           0 true.

(** The return code, [params->timestamp], and whether the hypervisor was asked. *)
Definition hgsl_ioctl_issueib (priv : ptr) (params : hgsl_ioctl_issueib_params) :
  M world (Z * Z) :=
  ctxt ← hgsl_get_context_owner priv (ii_devhandle params) (ii_ctxthandle params);
  let ts := ii_timestamp params in
  '(ret, ts) ←
    match ctxt with
    | None => mret (- EINVAL, ts)
    | Some ctxt =>
        if ii_num_ibs params =? 0 then mret (- EINVAL, ts)
        else
          '(remote, (ret, ts')) ←
            (if 0 <? ii_channel_id params then mret (true, (0, ts))
             else
               ok ← ask k_alloc;
               if negb ok then mret (false, (- ENOMEM, ts))
               else
                 ibs ← ask (λ n, k_copy_ibs n (ii_ibs params) (Z.to_nat (ii_num_ibs params)));
                 match ibs with
                 | None => mret (false, (- EFAULT, ts))
                 | Some ibs =>
                     '(ret, ts') ← hgsl_db_issueib priv ctxt (ii_num_ibs params) ibs ts;
                     mret (ret =? - EPERM, (ret, if ret =? 0 then ts' else ts))
                 end);
          if remote : bool then ret ← ask k_hyp_issueib; mret (ret, ts)
          else mret (ret, ts')
    end;
  hgsl_put_context ctxt ;;
  mret (ret, ts).

(** The descriptors of hgsl_db_issueib_with_alloc_list; shorter lists than the
    counts say are a fault. *)
Fixpoint alloc_list_descs (ibs : list gsl_command_buffer_object_t)
    (gpuaddrs offsets : list Z) : option (list hgsl_fw_ib_desc) :=
  match ibs, gpuaddrs, offsets with
  | [], _, _ => Some []
  | ib :: ibs, a :: gpuaddrs, o :: offsets =>
      l ← alloc_list_descs ibs gpuaddrs offsets;
      Some (mk_ib_desc (u64 (a + cb_offset ib + o)) (u32 (Z.shiftl (cb_sizedwords ib) 2)) :: l)
  | _, _, _ => None
  end.

(** The address of the first allocation flagged as a profiling buffer. *)
Fixpoint profiling_gpuaddr (allocations : list gsl_memory_object_t)
    (gpuaddrs offsets : list Z) : option (option Z) :=
  match allocations, gpuaddrs, offsets with
  | [], _, _ => Some None
  | al :: allocations, a :: gpuaddrs, o :: offsets =>
      if has_flag (gm_flags al) GSL_IBDESC_PROFILING_BUFFER
      then Some (Some (u64 (a + gm_offset al + o)))
      else profiling_gpuaddr allocations gpuaddrs offsets
  | _, _, _ => None
  end.

Definition hgsl_db_issueib_with_alloc_list (priv ctxt : ptr) (num_ibs : Z)
    (ib : list gsl_command_buffer_object_t) (allocations : list gsl_memory_object_t)
    (be_descs be_offsets : list Z) (timestamp : Z) : M world (Z * Z) :=
  c ← load w_contexts ctxt;
  if negb (hgsl_ctxt_use_dbq c) then mret (- EPERM, timestamp)
  else
    ok ← ask k_alloc;
    if negb ok then mret (- ENOMEM, timestamp)
    else
      ib_descs ← of_option (alloc_list_descs ib be_descs be_offsets);
      let n := Z.to_nat num_ibs in
      profile ← of_option (profiling_gpuaddr allocations (drop n be_descs) (drop n be_offsets));
      hgsl_db_issue_cmd priv ctxt num_ibs
        (match profile with
         | None => CMDBATCH_NOTIFY
         | Some _ => Z.lor CMDBATCH_NOTIFY HGSL_CMDBATCH_PROFILING
         end) timestamp ib_descs (default 0 profile) true.

(** The copies from user memory of hgsl_ioctl_issueib_with_alloc_list. *)
Definition copy_alloc_list (params : hgsl_ioctl_issueib_with_alloc_list_params) :
  M world (Z + list gsl_command_buffer_object_t * list gsl_memory_object_t * (list Z * list Z)) :=
  let num_ibs := ia_num_ibs params in
  let num_allocations := ia_num_allocations params in
  ok ← ask k_alloc;
  if negb ok then mret (inl (- ENOMEM))
  else
    ibs ← ask (λ n, k_copy_cb_objects n (ia_ibs params) (Z.to_nat num_ibs));
    match ibs with
    | None => mret (inl (- EFAULT))
    | Some ibs =>
        ok ← (if num_allocations =? 0 then mret true else ask k_alloc);
        if negb ok then mret (inl (- ENOMEM))
        else
          allocations ← (if num_allocations =? 0 then mret (Some [])
                         else ask (λ n, k_copy_memory_objects n (ia_allocations params)
                                          (Z.to_nat num_allocations)));
          match allocations with
          | None => mret (inl (- EFAULT))
          | Some allocations =>
              if UINT_MAX - num_allocations <? num_ibs then mret (inl (- ENOMEM))
              else
                ok ← ask k_alloc;
                if negb ok then mret (inl (- ENOMEM))
                else
                  be ← ask (λ n, k_copy_be_data n (ia_be_data params)
                                   (Z.to_nat (num_ibs + num_allocations)));
                  mret match be with
                       | None => inl (- EFAULT)
                       | Some be => inr (ibs, allocations, be)
                       end
          end
    end.

Definition hgsl_ioctl_issueib_with_alloc_list (priv : ptr)
    (params : hgsl_ioctl_issueib_with_alloc_list_params) : M world (Z * Z) :=
  ctxt ← hgsl_get_context_owner priv (ia_devhandle params) (ia_ctxthandle params);
  let ts := ia_timestamp params in
  '(ret, ts) ←
    match ctxt with
    | None => mret (- EINVAL, ts)
    | Some ctxt =>
        if ia_num_ibs params =? 0 then mret (- EINVAL, ts)
        else
          '(remote, (ret, ts')) ←
            (if 0 <? ia_channel_id params then mret (true, (0, ts))
             else
               args ← copy_alloc_list params;
               match args with
               | inl e => mret (false, (e, ts))
               | inr (ibs, allocations, (be_descs, be_offsets)) =>
                   '(ret, ts') ← hgsl_db_issueib_with_alloc_list priv ctxt (ia_num_ibs params)
                                   ibs allocations be_descs be_offsets ts;
                   mret (ret =? - EPERM, (ret, if ret =? 0 then ts' else ts))
               end);
          if remote : bool then ret ← ask k_hyp_issueib; mret (ret, ts)
          else mret (ret, ts')
    end;
  hgsl_put_context ctxt ;;
  mret (ret, ts).

(** ** Timestamps *)

Definition hgsl_ioctl_wait_timestamp (priv : ptr) (param : hgsl_wait_ts_info) : M world Z :=
  ctxt ← hgsl_get_context_owner priv (wt_devhandle param) (wt_context_id param);
  match ctxt with
  | None => mret (- EINVAL)
  | Some p =>
      '(remote_wait, ret) ←
        (if negb (wt_channel_id param =? 0) then mret (true, 0)
         else
           '(ret, expired) ← hgsl_check_shadow_timestamp p GSL_TIMESTAMP_RETIRED
                               (wt_timestamp param);
           if negb (ret =? 0) then mret (true, ret)
           else if default false expired then mret (false, ret)
           else
             ret ← hgsl_wait_timestamp p (wt_timestamp param);
             mret (ret =? - EPERM, ret));
      hgsl_put_context (Some p) ;;
      if remote_wait : bool then ask k_hyp_wait else mret ret
  end.

(** The return code and [param->timestamp], [old] before the call. *)
Definition hgsl_ioctl_read_timestamp (priv : ptr) (devhandle ctxthandle type old : Z) :
  M world (Z * Z) :=
  ctxt ← hgsl_get_context_owner priv devhandle ctxthandle;
  match ctxt with
  | None => mret (- EINVAL, old)
  | Some p =>
      '(ret, ts) ← get_context_shadow_ts p type;
      hgsl_put_context (Some p) ;;
      if negb (ret =? 0)
      then ask (λ n, k_hyp_read_ts n devhandle ctxthandle type)
      else mret (ret, ts)
  end.

(** The return code and [param->rval], [old] before the call. *)
Definition hgsl_ioctl_check_timestamp (priv : ptr)
    (devhandle ctxthandle type timestamp old : Z) : M world (Z * Z) :=
  ctxt ← hgsl_get_context_owner priv devhandle ctxthandle;
  match ctxt with
  | None => mret (- EINVAL, old)
  | Some p =>
      '(ret, expired) ← hgsl_check_shadow_timestamp p type timestamp;
      hgsl_put_context (Some p) ;;
      if negb (ret =? 0) then ask (λ n, k_hyp_check_ts n (u32 (-1)))
      else mret (ret, if default false expired then 1 else 0)
  end.

(** ** Timelines *)

(** The return code and [param->fence_fd], [old] before the call. *)
Definition hgsl_ioctl_hsync_fence_create (priv : ptr)
    (param : hgsl_hsync_fence_create_params) (old : Z) : M world (Z * Z) :=
  if k_db_off then mret (- EPERM, old)
  else
    let devhandle := if hc_devhandle param =? 0 then GSL_HANDLE_DEV0 else hc_devhandle param in
    ctxt ← hgsl_get_context_owner priv devhandle (u32 (hc_context_id param));
    '(ret, fd) ←
      match ctxt with
      | None => mret (- EINVAL, old)
      | Some p =>
          c ← load w_contexts p;
          match c_timeline c with
          | None => mret (- EINVAL, old)
          | Some _ =>
              fd ← hgsl_hsync_fence_create_fd p (hc_timestamp param);
              mret (if fd <? 0 then fd else 0, fd)
          end
      end;
    hgsl_put_context ctxt ;;
    mret (ret, fd).

(** The loops over the user's array; a size of 0 stands for the size of an entry. *)
Fixpoint timeline_signal_loop (priv : ptr) (timelines size : Z) (n : nat) : M world Z :=
  match n with
  | O => mret 0
  | S n =>
      val ← ask (λ k, k_copy_timeline_val k timelines size);
      match val with
      | None => mret (- EFAULT)
      | Some val =>
          if negb (tv_padding val =? 0) then mret (- EINVAL)
          else
            ret ← hgsl_isync_forward priv (tv_timeline_id val) (tv_timepoint val) false;
            if negb (ret =? 0) then mret ret
            else timeline_signal_loop priv (u64 (timelines + size)) size n
      end
  end.

Definition entry_size (param : hgsl_timeline_list) : Z :=
  if tt_timelines_size param =? 0 then TIMELINE_VAL_SIZE else tt_timelines_size param.

Definition hgsl_ioctl_timeline_signal (priv : ptr) (param : hgsl_timeline_list) : M world Z :=
  timeline_signal_loop priv (tt_timelines param) (entry_size param) (Z.to_nat (tt_count param)).

Fixpoint timeline_query_loop (priv : ptr) (timelines size : Z) (n : nat) : M world Z :=
  match n with
  | O => mret 0
  | S n =>
      val ← ask (λ k, k_copy_timeline_val k timelines size);
      match val with
      | None => mret (- EFAULT)
      | Some val =>
          if negb (tv_padding val =? 0) then mret (- EINVAL)
          else
            '(ret, timepoint) ← hgsl_isync_query priv (tv_timeline_id val);
            if negb (ret =? 0) then mret ret
            else
              emit (A_copy_timeline_val timelines
                (mk_timeline_val (default (tv_timepoint val) timepoint) (tv_timeline_id val) 0)) ;;
              timeline_query_loop priv (u64 (timelines + size)) size n
      end
  end.

Definition hgsl_ioctl_timeline_query (priv : ptr) (param : hgsl_timeline_list) : M world Z :=
  timeline_query_loop priv (tt_timelines param) (entry_size param) (Z.to_nat (tt_count param)).

Definition hgsl_ioctl_timeline_wait (priv : ptr) (param : hgsl_timeline_wait) : M world Z :=
  hgsl_isync_wait_multiple priv
    (if tw_timelines_size param =? 0
     then param <| tw_timelines_size := TIMELINE_VAL_SIZE |> else param).

Definition hgsl_ioctl_isync_timeline_create (priv : ptr) : M world (Z * option Z) :=
  hgsl_isync_timeline_create priv HGSL_ISYNC_32BITS_TIMELINE 0.

Definition hgsl_ioctl_timeline_create (priv : ptr) (initial_ts : Z) : M world (Z * option Z) :=
  hgsl_isync_timeline_create priv HGSL_ISYNC_64BITS_TIMELINE initial_ts.

Definition hgsl_ioctl_isync_timeline_destroy (priv : ptr) (id : Z) : M world Z :=
  hgsl_isync_timeline_destroy priv id.

Definition HGSL_ISYNC_FENCE_CREATE_USE_TS : Z := 1.

(** struct hgsl_isync_create_fence: the result is the return code and the fence's
    descriptor. *)
Definition hgsl_ioctl_isync_fence_create (priv : ptr) (timeline_id ts padding : Z) :
  M world (Z * option Z) :=
  hgsl_isync_fence_create priv timeline_id ts (padding =? HGSL_ISYNC_FENCE_CREATE_USE_TS).

Definition hgsl_ioctl_isync_fence_signal (priv : ptr) (timeline_id fence_id : Z) : M world Z :=
  hgsl_isync_fence_signal priv timeline_id fence_id.

Definition hgsl_ioctl_isync_forward (priv : ptr) (timeline_id ts : Z) : M world Z :=
  hgsl_isync_forward priv timeline_id (u64 ts) true.

End ioctl.

(** * Lemmas *)

Section lemmas.
Context `{K : Kernel}.

(** The worker runs the callback of a fence's event: the fences are signaled and both
    references on the context, the callback's and the event's, are given back. *)
Lemma fence_worker_run w p c t tl ts result :
  w_contexts w !! p = Some c → 2 < c_kref c → c_timeline c = Some t →
  w_hsync w !! t = Some tl → 0 < ht_kref tl →
  hfences_waiting t (w_hfences w) (ht_fence_list tl) →
  hgsl_ts32_ge (ht_last_ts tl) ts = false →
  _hgsl_event_worker (mk_event p ts (Fn_hsync_fence_event_cb p ts) result) w =
    Some (tt, with_context (hsync_signaled w t tl ts) p (c <| c_kref := c_kref c - 2 |>)).
Proof.
  intros Hc Hk Ht Htl Htk Ha Hts. unfold _hgsl_event_worker.
  cbn [he_func run_event_func he_context].
  set (w1 := hsync_signaled w t tl ts).
  assert (Hc1 : w_contexts w1 !! p = Some c) by done.
  set (c1 := c <| c_kref := c_kref c - 1 |>).
  rewrite (bind_run _ _ w tt (with_context w1 p c1)).
  - rewrite (put_context_run _ p c1); [|apply with_context_lookup|cbn; lia].
    rewrite with_context_twice. do 3 f_equal. unfold c1. cbn.
    by replace (c_kref c - 1 - 1) with (c_kref c - 2) by lia.
  - unfold _hsync_fence_event_cb. run_load Hc. rewrite Ht.
    rewrite (bind_run _ _ w tt w1).
    + by apply put_context_run; [|lia].
    + rewrite (hsync_signal_run t ts w tl Htl Htk Ha). by rewrite Hts.
Qed.

End lemmas.

(** * Properties *)

Section properties.
Context `{K : Kernel}.

(** C39. From the GPU to the fence: when the retired timestamp of a context reaches
    the one of a fence's event, a pass over the events and one turn of the worker
    signal the fence's point on the hardware timeline.  Every waiting fence it
    reaches is signaled afterwards, the group and the worker's queue are empty,
    and the two references on the context that the event and its callback held
    are given back. *)
Theorem hsync_fence_signals_after_retirement p w c s t tl ts :
  w_contexts w !! p = Some c → 2 < c_kref c → c_shadow_ts c = Some s →
  c_timeline c = Some t → w_hsync w !! t = Some tl → 0 < ht_kref tl →
  hfences_waiting t (w_hfences w) (ht_fence_list tl) → w_events w = [] →
  eg_events (c_event_group c) = [mk_event p ts (Fn_hsync_fence_event_cb p ts) 0] →
  hgsl_ts32_ge (eg_processed (c_event_group c)) (eop s) = false →
  hgsl_ts32_ge (eop s) ts = true → hgsl_ts32_ge (ht_last_ts tl) ts = false →
  ∃ w1 w2, _process_event_group p false w = Some (tt, w1) ∧
    events_worker 1 w1 = Some (tt, w2) ∧ w_events w2 = [] ∧
    (∀ x, x ∈ ht_fence_list tl → hreached ts (w_hfences w) x = true →
      ∃ f, w_hfences w2 !! x = Some f ∧ hf_signaled f = true) ∧
    w_contexts w2 !! p = Some (c <| c_kref := c_kref c - 2 |>
                                 <| c_event_group := mk_group [] (eop s) |>).
Proof.
  intros Hc Hk Hs Ht Htl Htk Ha He Hg Hp Hr Hl.
  pose proof (process_event_group_run p false w c s Hc ltac:(lia) Hs) as Hrun.
  rewrite Hp, Hg in Hrun. cbn [negb andb] in Hrun.
  set (e := mk_event p ts (Fn_hsync_fence_event_cb p ts) HGSL_EVENT_RETIRED).
  assert (El : leaving (event_outcome (eop s) false)
    [mk_event p ts (Fn_hsync_fence_event_cb p ts) 0] = [e])
    by (unfold leaving, event_outcome; cbn; by rewrite Hr).
  set (g := mk_group [] (eop s)).
  assert (Ep : passed (eop s) false (c_event_group c) = g).
  { unfold passed, staying, event_outcome. rewrite Hg. cbn. by rewrite Hr. }
  set (c1 := c <| c_event_group := g |>). rewrite El in Hrun.
  set (w1 := with_context (with_events (ticked w) [e]) p c1).
  exists w1. set (w1' := w1 <| w_events := [] |>).
  exists (with_context (hsync_signaled w1' t tl ts) p (c1 <| c_kref := c_kref c1 - 2 |>)).
  split; [|split; [|split; [done|split]]].
  - rewrite Hrun. unfold w1, c1. rewrite <- Ep. reflexivity.
  - cbn [events_worker]. rewrite (bind_run _ _ w1 [e] w1).
    2:{ unfold gets, w1. cbn. by rewrite He. }
    rewrite (bind_run _ _ w1 tt w1') by done.
    rewrite (bind_run _ _ w1' tt (with_context (hsync_signaled w1' t tl ts) p
      (c1 <| c_kref := c_kref c1 - 2 |>))); [done|].
    apply fence_worker_run; try done. apply lookup_insert_eq.
  - intros x Hx Hre. pose proof (proj2 Ha x Hx) as (f & Hf & _).
    change (w_hfences (with_context _ _ _)) with
      (alter_on (filter (λ p, hreached ts (w_hfences w) p = true) (ht_fence_list tl))
         (λ f, hdrop (hsignal f)) (w_hfences w)).
    exists (hdrop (hsignal f)). split; [|done].
    rewrite alter_on_lookup, decide_True, Hf; [done|].
    by apply list_elem_of_filter.
  - apply lookup_insert_eq.
Qed.

(** The timestamp ioctls on a context with shadow timestamps: reading returns the
    retired, consumed or last queued timestamp, checking compares it with the
    given one in the wrapping order, and waiting for a retired timestamp returns at
    once; for a context of another process they all return -EINVAL.  The state is
    left as it was: the reference the look-up took is given back. *)
Theorem timestamp_ioctls_exact priv dev id p c s w type timestamp old :
  w_table w !! (hgsl_hnd2id dev, id) = Some p →
  w_contexts w !! p = Some c → 0 < c_kref c → c_shadow_ts c = Some s →
  type ∈ [GSL_TIMESTAMP_RETIRED; GSL_TIMESTAMP_CONSUMED; GSL_TIMESTAMP_QUEUED] →
  let now := if type =? GSL_TIMESTAMP_RETIRED then eop s
             else if type =? GSL_TIMESTAMP_CONSUMED then sop s else c_queued_ts c in
  let own := owns priv dev id c in
  hgsl_ioctl_read_timestamp priv dev id type old w =
    Some (if own then (0, now) else (- EINVAL, old), w) ∧
  hgsl_ioctl_check_timestamp priv dev id type timestamp old w =
    Some (if own then (0, if hgsl_ts32_ge now timestamp then 1 else 0)
          else (- EINVAL, old), w) ∧
  (hgsl_ts32_ge (eop s) timestamp = true →
   hgsl_ioctl_wait_timestamp priv (mk_wait_ts_info id timestamp dev 0) w =
     Some (if own then 0 else - EINVAL, w)).
Proof.
  intros Ht Hc Hk Hs Hin now own.
  pose proof (get_context_owner_run priv dev id p c w Ht Hc Hk) as Ho. fold own in Ho.
  unfold hgsl_ioctl_read_timestamp, hgsl_ioctl_check_timestamp, hgsl_ioctl_wait_timestamp.
  cbn [wt_devhandle wt_context_id wt_channel_id wt_timestamp].
  destruct own; [|by rewrite !(bind_run _ _ _ _ _ Ho)].
  set (c1 := c <| c_kref := c_kref c + 1 |>) in *. set (w1 := with_context w p c1) in *.
  pose proof (get_put_id w p c Hc Hk) as Hput. fold c1 w1 in Hput.
  pose proof (λ type, get_shadow_run w1 p c1 s type (with_context_lookup w p c1) Hs) as Hr.
  assert (Hn : get_context_shadow_ts p type w1 = Some ((0, now), w1)).
  { rewrite Hr. unfold now. rewrite !elem_of_cons, elem_of_nil in Hin.
    by destruct Hin as [->|[->|[->|[]]]]. }
  assert (Hchk : ∀ type n, get_context_shadow_ts p type w1 = Some ((0, n), w1) →
    hgsl_check_shadow_timestamp p type timestamp w1 =
      Some ((0, Some (hgsl_ts32_ge n timestamp)), w1)).
  { intros ty n H. unfold hgsl_check_shadow_timestamp. by rewrite (bind_run _ _ _ _ _ H). }
  rewrite !(bind_run _ _ _ _ _ Ho). split_and!.
  - rewrite (bind_run _ _ _ _ _ Hn). by rewrite (bind_run _ _ _ _ _ Hput).
  - rewrite (bind_run _ _ _ _ _ (Hchk _ _ Hn)). by rewrite (bind_run _ _ _ _ _ Hput).
  - intros He. rewrite (bind_run _ _ w1 (false, 0) w1).
    { by rewrite (bind_run _ _ _ _ _ Hput). }
    change (negb (0 =? 0)) with false. cbv iota.
    rewrite (bind_run _ _ _ _ _ (Hchk _ _ (Hr GSL_TIMESTAMP_RETIRED))). by rewrite He.
Qed.

(** Refused command submissions leave no trace: with too many commands, objects
    or sync points, for a context of another process, or for one whose commands do
    not go through a doorbell queue, hgsl_ioctl_gpu_command returns -EINVAL or
    -EPERM, keeps the timestamp and changes nothing. *)
Theorem gpu_command_rejects priv param p c w :
  w_table w !! (hgsl_hnd2id (gc_devhandle param), gc_context_id param) = Some p →
  w_contexts w !! p = Some c → 0 < c_kref c →
  let fits := (gc_numcmds param <=? ECP_MAX_NUM_IB1) && (gc_numobjs param <=? ECP_MAX_NUM_IB1)
              && (gc_numsyncs param <=? HGSL_MAX_SYNCPOINTS) in
  let own := owns priv (gc_devhandle param) (gc_context_id param) c in
  fits && own && hgsl_ctxt_use_dbq c = false →
  hgsl_ioctl_gpu_command priv param w =
    Some ((if fits && own then - EPERM else - EINVAL, gc_timestamp param), w).
Proof.
  intros Ht Hc Hk fits own Hno. unfold hgsl_ioctl_gpu_command.
  assert (Hty : (_get_command_type (gc_flags param) (gc_numcmds param) (gc_numobjs param)
    (gc_numsyncs param) =? 0) = negb fits).
  { unfold _get_command_type, fits. rewrite !Z.leb_antisym, <- !negb_orb.
    rewrite negb_involutive. destruct (_ || _ || _); [done|]. by repeat case_match. }
  rewrite Hty. destruct fits; cbn [negb andb] in *; [|done].
  pose proof (get_context_owner_run priv _ _ p c w Ht Hc Hk) as Ho. fold own in Ho.
  destruct own; cbn [andb] in Hno.
  - rewrite (bind_run _ _ w (inl (- EPERM)) w); [done|].
    unfold get_dispatch_context. rewrite (bind_run _ _ _ _ _ Ho).
    run_load (with_context_lookup w p (c <| c_kref := c_kref c + 1 |>)).
    change (hgsl_ctxt_use_dbq (c <| _ := _ |>)) with (hgsl_ctxt_use_dbq c). rewrite Hno. cbn [negb].
    by rewrite (bind_run _ _ _ _ _ (get_put_id w p c Hc Hk)).
  - rewrite (bind_run _ _ w (inl (- EINVAL)) w); [done|].
    unfold get_dispatch_context. by rewrite (bind_run _ _ _ _ _ Ho).
Qed.

End properties.

Section witnesses.
#[local] Existing Instance quiet_kernel.

(** A context (2) of process 1 with id 7, retired up to 9 and an event for a hardware
    fence at 7; its timeline (3) has a fence (11) waiting for it. *)
#[local] Definition fence_context : hgsl_context :=
  (fresh_context 1 7 0 (Some (mk_shadow 9 9)))
    <| c_kref := 3 |> <| c_queued_ts := 20 |> <| c_timeline := Some 3%positive |>
    <| c_event_group := mk_group [mk_event 2 7 (Fn_hsync_fence_event_cb 2 7) 0] 0 |>.
#[local] Definition fence_world : world :=
  empty_world
    <| w_contexts := {[2%positive := fence_context]} |>
    <| w_table := {[(0, 7) := 2%positive]} |>
    <| w_hsync := {[3%positive := mk_hsync_timeline 2 [11%positive] 4]} |>
    <| w_hfences := {[11%positive := mk_hsync_fence 2 false (Some 3%positive) 7]} |>.

Lemma hsync_fence_signals_after_retirement_witness :
  ∃ w1 w2, _process_event_group 2 false fence_world = Some (tt, w1) ∧
    events_worker 1 w1 = Some (tt, w2) ∧
    ∃ f, w_hfences w2 !! 11%positive = Some f ∧ hf_signaled f = true.
Proof.
  destruct (hsync_fence_signals_after_retirement 2 fence_world fence_context (mk_shadow 9 9) 3
    (mk_hsync_timeline 2 [11%positive] 4) 7) as (w1 & w2 & H1 & H2 & _ & H3 & _);
    try done.
  { split; [apply NoDup_singleton|]. intros q ->%list_elem_of_singleton. by eexists. }
  exists w1, w2. split; [exact H1|]. split; [exact H2|].
  apply H3; [by apply list_elem_of_singleton|done].
Defined.

Lemma timestamp_ioctls_exact_witness :
  hgsl_ioctl_read_timestamp 1 GSL_HANDLE_DEV0 7 GSL_TIMESTAMP_QUEUED 0 fence_world =
    Some ((0, 20), fence_world).
Proof.
  apply (timestamp_ioctls_exact 1 GSL_HANDLE_DEV0 7 2 fence_context (mk_shadow 9 9)
    fence_world GSL_TIMESTAMP_QUEUED 0 0); try done. set_solver.
Defined.

Lemma gpu_command_rejects_witness :
  hgsl_ioctl_gpu_command 1 (mk_gpu_command 0 0 0 1 0 0 0 0 0 0 GSL_HANDLE_DEV0 7 21)
    fence_world = Some ((- EPERM, 21), fence_world).
Proof.
  by apply (gpu_command_rejects 1 (mk_gpu_command 0 0 0 1 0 0 0 0 0 0 GSL_HANDLE_DEV0 7 21)
    2 fence_context fence_world).
Defined.

End witnesses.
