(* ===== verification/IoctlTable.v ===== *)
(** The ioctls of the device (hgsl.c, include/uapi/linux/hgsl.h): the layout of their
    parameters, their numbers, the table of the functions behind them and hgsl_ioctl,
    which brings the parameters in and out. *)

From stdpp Require Import strings.
From S2P Require Import Prelude.
From S2P Require Import State.
From S2P Require Import Bytes.
From S2P Require Import Context.
From S2P Require Import Forward.
From S2P Require Import Isync.
From S2P Require Import Dispatch.
From S2P Require Import Ioctl.

Open Scope Z_scope.

(** * Layouts *)

(** A member of a structure of the uapi header, [f_count] integers of [f_width] bytes. *)
Record field := { f_name : string; f_width : Z; f_count : Z }.

#[export] Instance field_eq_dec : EqDecision field.
Proof. solve_decision. Defined.

Definition layout := list field.

Definition int_of (width : Z) (name : string) : field :=
  {| f_name := name; f_width := width; f_count := 1 |}.

Definition __u32 : string → field := int_of 4.
Definition __s32 : string → field := int_of 4.
Definition __u64 : string → field := int_of 8.
Definition __u32s (n : Z) (name : string) : field :=
  {| f_name := name; f_width := 4; f_count := n |}.
Definition __u64s (n : Z) (name : string) : field :=
  {| f_name := name; f_width := 8; f_count := n |}.

(** Members are aligned to their width; some 32-bit ABIs align 64-bit integers to [a8 = 4]
    bytes only. *)
Definition align_of (a8 : Z) (f : field) : Z := Z.min (f_width f) a8.

Definition f_size (f : field) : Z := f_width f * f_count f.

Fixpoint offsets (a8 off : Z) (l : layout) : list (field * Z) :=
  match l with
  | [] => []
  | f :: l =>
      let o := ALIGN off (align_of a8 f) in
      (f, o) :: offsets a8 (o + f_size f) l
  end.

Fixpoint end_of (a8 off : Z) (l : layout) : Z :=
  match l with
  | [] => off
  | f :: l => end_of a8 (ALIGN off (align_of a8 f) + f_size f) l
  end.

Definition sizeof (a8 : Z) (l : layout) : Z :=
  ALIGN (end_of a8 0 l) (foldr Z.max 1 (align_of a8 <$> l)).

(** On the 64-bit kernel. *)
Definition offset_of (name : string) (l : layout) : option (field * Z) :=
  snd <$> list_find (λ fo, f_name fo.1 = name) (offsets 8 0 l).

(** The member [name] in the bytes of the structure; signed when the C type is. *)
Definition get_field (name : string) (l : layout) (data : list Z) : option Z :=
  '(f, o) ← offset_of name l;
  le_value <$> peek data (Z.to_nat o) (Z.to_nat (f_width f)).

Definition set_field (name : string) (z : Z) (l : layout) (data : list Z) : option (list Z) :=
  '(f, o) ← offset_of name l;
  memcpy data (Z.to_nat o) (le_bytes (Z.to_nat (f_width f)) z).

(** ** The structures of the header *)

Definition hgsl_ioctl_issueib_params_layout : layout :=
  [__u64 "ibs"; __u32 "devhandle"; __u32 "ctxthandle"; __u32 "timestamp"; __u32 "flags";
   __u32 "num_ibs"; __u32 "rval"; __u32 "channel_id"; __u32 "padding"].

Definition hgsl_ioctl_ctxt_create_params_layout : layout :=
  [__u32 "devhandle"; __u32 "type"; __u32 "flags"; __u32 "ctxthandle"; __u32 "sync_type";
   __u32 "padding"].

Definition hgsl_ioctl_ctxt_destroy_params_layout : layout :=
  [__u32 "devhandle"; __u32 "ctxthandle"; __u32 "rval"; __u32 "padding"].

Definition hgsl_wait_ts_info_layout : layout :=
  [__u32 "context_id"; __u32 "timestamp"; __u32 "timeout"; __u32 "padding"; __u32 "devhandle";
   __u32 "channel_id"].

Definition hgsl_ioctl_read_ts_params_layout : layout :=
  [__u32 "devhandle"; __u32 "ctxthandle"; __u32 "type"; __u32 "timestamp"].

Definition hgsl_ioctl_check_ts_params_layout : layout :=
  [__u32 "devhandle"; __u32 "ctxthandle"; __u32 "type"; __u32 "timestamp"; __u32 "rval";
   __u32 "padding"].

Definition hgsl_ioctl_hyp_generic_transaction_params_layout : layout :=
  [__u64s HGSL_HYP_GENERAL_MAX_SEND_NUM "send_data";
   __u64s HGSL_HYP_GENERAL_MAX_REPLY_NUM "reply_data";
   __u32s HGSL_HYP_GENERAL_MAX_SEND_NUM "send_size";
   __u32s HGSL_HYP_GENERAL_MAX_REPLY_NUM "reply_size"; __u32 "send_num"; __u32 "reply_num";
   __u32 "cmd_id"; __u64 "ret_value"].

Definition hgsl_ioctl_get_shadowts_mem_params_layout : layout :=
  [__u64 "size"; __u32 "device_id"; __u32 "ctxthandle"; __u32 "flags"; __s32 "fd";
   __u32 "devhandle"; __u32 "padding"].

Definition hgsl_ioctl_put_shadowts_mem_params_layout : layout :=
  [__u32 "ctxthandle"; __u32 "padding"; __u32 "devhandle"; __u32 "padding_1"].

Definition hgsl_ioctl_mem_alloc_params_layout : layout :=
  [__u64 "memdesc"; __u32 "sizebytes"; __u32 "flags"; __s32 "fd"; __u32 "padding"].

Definition hgsl_ioctl_mem_free_params_layout : layout :=
  [__u64 "memdesc"].

Definition hgsl_ioctl_mem_map_smmu_params_layout : layout :=
  [__u64 "size"; __u64 "offset"; __u64 "uva"; __u64 "memdesc"; __s32 "fd"; __u32 "memtype";
   __u32 "flags"; __u32 "padding"].

Definition hgsl_ioctl_mem_unmap_smmu_params_layout : layout :=
  [__u64 "gpuaddr"; __u64 "size"; __u32 "memtype"; __u32 "padding"].

Definition hgsl_ioctl_mem_cache_operation_params_layout : layout :=
  [__u64 "offsetbytes"; __u64 "sizebytes"; __u64 "gpuaddr"; __u32 "operation"; __u32 "padding"].

Definition hgsl_ioctl_mem_get_fd_params_layout : layout :=
  [__u64 "memdesc"; __s32 "fd"].

Definition hgsl_ioctl_issueib_with_alloc_list_params_layout : layout :=
  [__u64 "rpc_syncobj"; __u64 "ibs"; __u64 "allocations"; __u64 "be_data"; __u32 "devhandle";
   __u32 "ctxthandle"; __u32 "timestamp"; __u32 "flags"; __u32 "num_ibs";
   __u32 "num_allocations"; __u32 "rval"; __u32 "channel_id"].

Definition hgsl_ioctl_syncobj_wait_multiple_params_layout : layout :=
  [__u64 "num_syncobjs"; __u64 "rpc_syncobj"; __u64 "status"; __u32 "timeout_ms";
   __u32 "result"].

Definition hgsl_ioctl_perfcounter_select_params_layout : layout :=
  [__u64 "groups"; __u64 "counter_ids"; __u64 "counter_val_regs"; __u64 "counter_val_hi_regs";
   __u32 "devhandle"; __u32 "ctxthandle"; __u32 "num_counters"; __u32 "rval"].

Definition hgsl_ioctl_perfcounter_deselect_params_layout : layout :=
  [__u64 "groups"; __u64 "counter_ids"; __u32 "devhandle"; __u32 "ctxthandle";
   __u32 "timestamp"; __u32 "num_counters"].

Definition hgsl_ioctl_perfcounter_query_selections_params_layout : layout :=
  [__u64 "selections"; __u32 "devhandle"; __u32 "ctxthandle"; __u32 "num_counters";
   __u32 "group"; __u32 "max_counters"; __u32 "padding"].

Definition hgsl_ioctl_perfcounter_read_params_layout : layout :=
  [__u64 "value"; __u32 "devhandle"; __u32 "group"; __u32 "counter"; __u32 "rval"].

Definition hgsl_ioctl_set_metainfo_params_layout : layout :=
  [__u64 "memdesc_priv"; __u64 "metainfo"; __u32 "flags"; __u32 "metainfo_len"].

Definition hgsl_hsync_fence_create_layout : layout :=
  [__u32 "timestamp"; __u32 "padding"; __s32 "context_id"; __s32 "fence_fd"; __u32 "devhandle";
   __u32 "padding_1"].

Definition hgsl_isync_create_fence_layout : layout :=
  [__u32 "timeline_id"; __s32 "fence_id"; __u32 "ts"; __u32 "padding"].

Definition hgsl_isync_signal_fence_layout : layout :=
  [__u32 "timeline_id"; __s32 "fence_id"].

Definition hgsl_isync_forward_layout : layout :=
  [__u32 "timeline_id"; __s32 "ts"].

Definition hgsl_timeline_create_layout : layout :=
  [__u64 "initial_ts"; __u32 "timeline_id"; __s32 "flags"].

Definition hgsl_timeline_signal_layout : layout :=
  [__u64 "timelines"; __u32 "count"; __u32 "timelines_size"].

Definition hgsl_timeline_query_layout : layout :=
  [__u64 "timelines"; __u32 "count"; __u32 "timelines_size"].

Definition hgsl_timeline_wait_layout : layout :=
  [__u64 "timeout_nanosec"; __u64 "timelines"; __u32 "count"; __u32 "timelines_size";
   __u32 "flags"; __u32 "padding"].

Definition hgsl_ioctl_gslprofiler_per_proc_gpu_busy_params_layout : layout :=
  [__u64 "busy"; __u32 "sampling_time"; __u32 "channel_id"].

Definition hgsl_ioctl_gslprofiler_per_proc_gpu_pmem_params_layout : layout :=
  [__u64 "pmem"; __u32 "channel_id"].

Definition hgsl_gpu_command_layout : layout :=
  [__u64 "flags"; __u64 "cmdlist"; __u32 "cmdsize"; __u32 "numcmds"; __u64 "objlist";
   __u32 "objsize"; __u32 "numobjs"; __u64 "synclist"; __u32 "syncsize"; __u32 "numsyncs";
   __u32 "devhandle"; __u32 "context_id"; __u32 "timestamp"; __u32 "padding"].

Definition hgsl_gpu_aux_command_layout : layout :=
  [__u64 "flags"; __u64 "cmdlist"; __u32 "cmdsize"; __u32 "numcmds"; __u64 "synclist";
   __u32 "syncsize"; __u32 "numsyncs"; __u32 "devhandle"; __u32 "context_id"; __u32 "timestamp";
   __u32 "padding"].

Definition hgsl_ioctl_device_open_params_layout : layout :=
  [__s32 "device_id"; __u32 "flags"; __u64 "ret_value"].

Definition hgsl_ioctl_activate_device_params_layout : layout :=
  [__u32 "devhandle"; __u32 "padding"].

(** ** The numbers *)

Definition HGSL_IOCTL_BASE : Z := 104.    (* 'h' *)

(** _IOC of the kernel: the direction, the size, the type and the number. *)
Definition IOC_IN : Z := 0x40000000.
Definition IOC_OUT : Z := 0x80000000.
Definition _IOC (dir type nr size : Z) : Z :=
  Z.lor dir (Z.lor (Z.shiftl size 16) (Z.lor (Z.shiftl type 8) nr)).
Definition _IOC_NR (cmd : Z) : Z := Z.land cmd 0xFF.
Definition _IOC_SIZE (cmd : Z) : Z := Z.land (Z.shiftr cmd 16) 0x3FFF.

(** A command of the header; its value depends on how the ABI lays its parameters out. *)
Record ioctl_cmd := { ic_dir : Z; ic_nr : Z; ic_layout : layout }.

Definition HGSL_IORW (n : Z) (t : layout) : ioctl_cmd :=
  {| ic_dir := Z.lor IOC_IN IOC_OUT; ic_nr := n; ic_layout := t |}.
Definition HGSL_IOW (n : Z) (t : layout) : ioctl_cmd :=
  {| ic_dir := IOC_IN; ic_nr := n; ic_layout := t |}.

Definition cmd_value (a8 : Z) (c : ioctl_cmd) : Z :=
  _IOC (ic_dir c) HGSL_IOCTL_BASE (ic_nr c) (sizeof a8 (ic_layout c)).

Definition HGSL_IOCTL_ISSUE_IB : ioctl_cmd := HGSL_IORW 0x20 hgsl_ioctl_issueib_params_layout.
Definition HGSL_IOCTL_CTXT_CREATE : ioctl_cmd :=
  HGSL_IORW 0x10 hgsl_ioctl_ctxt_create_params_layout.
Definition HGSL_IOCTL_CTXT_DESTROY : ioctl_cmd :=
  HGSL_IORW 0x11 hgsl_ioctl_ctxt_destroy_params_layout.
Definition HGSL_IOCTL_WAIT_TIMESTAMP : ioctl_cmd := HGSL_IORW 0x12 hgsl_wait_ts_info_layout.
Definition HGSL_IOCTL_READ_TIMESTAMP : ioctl_cmd :=
  HGSL_IORW 0x2A hgsl_ioctl_read_ts_params_layout.
Definition HGSL_IOCTL_CHECK_TIMESTAMP : ioctl_cmd :=
  HGSL_IORW 0x2B hgsl_ioctl_check_ts_params_layout.
Definition HGSL_IOCTL_HYP_GENERIC_TRANSACTION : ioctl_cmd :=
  HGSL_IORW 0x22 hgsl_ioctl_hyp_generic_transaction_params_layout.
Definition HGSL_IOCTL_GET_SHADOWTS_MEM : ioctl_cmd :=
  HGSL_IORW 0x23 hgsl_ioctl_get_shadowts_mem_params_layout.
Definition HGSL_IOCTL_PUT_SHADOWTS_MEM : ioctl_cmd :=
  HGSL_IOW 0x24 hgsl_ioctl_put_shadowts_mem_params_layout.
Definition HGSL_IOCTL_MEM_ALLOC : ioctl_cmd :=
  HGSL_IORW 0x25 hgsl_ioctl_mem_alloc_params_layout.
Definition HGSL_IOCTL_MEM_FREE : ioctl_cmd := HGSL_IORW 0x26 hgsl_ioctl_mem_free_params_layout.
Definition HGSL_IOCTL_MEM_MAP_SMMU : ioctl_cmd :=
  HGSL_IORW 0x27 hgsl_ioctl_mem_map_smmu_params_layout.
Definition HGSL_IOCTL_MEM_UNMAP_SMMU : ioctl_cmd :=
  HGSL_IOW 0x28 hgsl_ioctl_mem_unmap_smmu_params_layout.
Definition HGSL_IOCTL_MEM_CACHE_OPERATION : ioctl_cmd :=
  HGSL_IORW 0x29 hgsl_ioctl_mem_cache_operation_params_layout.
Definition HGSL_IOCTL_MEM_GET_FD : ioctl_cmd :=
  HGSL_IORW 0x1D hgsl_ioctl_mem_get_fd_params_layout.
Definition HGSL_IOCTL_ISSUIB_WITH_ALLOC_LIST : ioctl_cmd :=
  HGSL_IORW 0x21 hgsl_ioctl_issueib_with_alloc_list_params_layout.
Definition HGSL_IOCTL_GET_SYSTEM_TIME : ioctl_cmd := HGSL_IORW 0x2E [__u64 "value"].
Definition HGSL_IOCTL_SYNCOBJ_WAIT_MULTIPLE : ioctl_cmd :=
  HGSL_IORW 0x2C hgsl_ioctl_syncobj_wait_multiple_params_layout.
Definition HGSL_IOCTL_PERFCOUNTER_SELECT : ioctl_cmd :=
  HGSL_IORW 0x30 hgsl_ioctl_perfcounter_select_params_layout.
Definition HGSL_IOCTL_PERFCOUNTER_DESELECT : ioctl_cmd :=
  HGSL_IOW 0x31 hgsl_ioctl_perfcounter_deselect_params_layout.
Definition HGSL_IOCTL_PERFCOUNTER_QUERY_SELECTION : ioctl_cmd :=
  HGSL_IORW 0x32 hgsl_ioctl_perfcounter_query_selections_params_layout.
Definition HGSL_IOCTL_PERFCOUNTER_READ : ioctl_cmd :=
  HGSL_IORW 0x33 hgsl_ioctl_perfcounter_read_params_layout.
Definition HGSL_IOCTL_SET_METAINFO : ioctl_cmd :=
  HGSL_IORW 0x2D hgsl_ioctl_set_metainfo_params_layout.
Definition HGSL_IOCTL_HSYNC_FENCE_CREATE : ioctl_cmd :=
  HGSL_IORW 0x13 hgsl_hsync_fence_create_layout.
Definition HGSL_IOCTL_ISYNC_TIMELINE_CREATE : ioctl_cmd := HGSL_IORW 0x14 [__u32 "value"].
Definition HGSL_IOCTL_ISYNC_TIMELINE_DESTROY : ioctl_cmd := HGSL_IOW 0x15 [__u32 "value"].
Definition HGSL_IOCTL_ISYNC_FENCE_CREATE : ioctl_cmd :=
  HGSL_IORW 0x16 hgsl_isync_create_fence_layout.
Definition HGSL_IOCTL_ISYNC_FENCE_SIGNAL : ioctl_cmd :=
  HGSL_IOW 0x17 hgsl_isync_signal_fence_layout.
Definition HGSL_IOCTL_ISYNC_FORWARD : ioctl_cmd := HGSL_IOW 0x18 hgsl_isync_forward_layout.
Definition HGSL_IOCTL_TIMELINE_CREATE : ioctl_cmd := HGSL_IORW 0x19 hgsl_timeline_create_layout.
Definition HGSL_IOCTL_TIMELINE_SIGNAL : ioctl_cmd := HGSL_IOW 0x1B hgsl_timeline_signal_layout.
Definition HGSL_IOCTL_TIMELINE_QUERY : ioctl_cmd := HGSL_IORW 0x1A hgsl_timeline_query_layout.
Definition HGSL_IOCTL_TIMELINE_WAIT : ioctl_cmd := HGSL_IOW 0x1C hgsl_timeline_wait_layout.
Definition HGSL_IOCTL_GSLPROFILER_PER_PROC_GPU_BUSY : ioctl_cmd :=
  HGSL_IOW 0x40 hgsl_ioctl_gslprofiler_per_proc_gpu_busy_params_layout.
Definition HGSL_IOCTL_GSLPROFILER_PER_PROC_GPU_PMEM : ioctl_cmd :=
  HGSL_IOW 0x41 hgsl_ioctl_gslprofiler_per_proc_gpu_pmem_params_layout.
Definition HGSL_IOCTL_GPU_COMMAND : ioctl_cmd := HGSL_IORW 0x1E hgsl_gpu_command_layout.
Definition HGSL_IOCTL_GPU_AUX_COMMAND : ioctl_cmd := HGSL_IORW 0x1F hgsl_gpu_aux_command_layout.
Definition HGSL_IOCTL_DEVICE_OPEN : ioctl_cmd :=
  HGSL_IOW 0x06 hgsl_ioctl_device_open_params_layout.
Definition HGSL_IOCTL_ACTIVATE_DEVICE : ioctl_cmd :=
  HGSL_IOW 0x07 hgsl_ioctl_activate_device_params_layout.

(** * The table *)

(** The functions behind the commands, hgsl_ioctl_ before their names. *)
Inductive ioctl_func :=
  | F_issueib | F_ctxt_create | F_ctxt_destroy | F_wait_timestamp | F_read_timestamp
  | F_check_timestamp | F_hyp_generic_transaction | F_get_shadowts_mem | F_put_shadowts_mem
  | F_mem_alloc | F_mem_free | F_mem_map_smmu | F_mem_unmap_smmu | F_mem_cache_operation
  | F_mem_get_fd | F_issueib_with_alloc_list | F_get_system_time | F_syncobj_wait_multiple
  | F_perfcounter_select | F_perfcounter_deselect | F_perfcounter_query_selection
  | F_perfcounter_read | F_set_metainfo | F_hsync_fence_create | F_isync_timeline_create
  | F_isync_timeline_destroy | F_isync_fence_create | F_isync_fence_signal | F_isync_forward
  | F_timeline_create | F_timeline_signal | F_timeline_query | F_timeline_wait
  | F_gslprofiler_per_proc_gpu_busy | F_gslprofiler_per_proc_gpu_pmem | F_gpu_command
  | F_gpu_aux_command | F_device_open | F_activate_device.

Definition hgsl_ioctl_func_table : list (ioctl_cmd * ioctl_func) :=
  [(HGSL_IOCTL_ISSUE_IB, F_issueib);
   (HGSL_IOCTL_CTXT_CREATE, F_ctxt_create);
   (HGSL_IOCTL_CTXT_DESTROY, F_ctxt_destroy);
   (HGSL_IOCTL_WAIT_TIMESTAMP, F_wait_timestamp);
   (HGSL_IOCTL_READ_TIMESTAMP, F_read_timestamp);
   (HGSL_IOCTL_CHECK_TIMESTAMP, F_check_timestamp);
   (HGSL_IOCTL_HYP_GENERIC_TRANSACTION, F_hyp_generic_transaction);
   (HGSL_IOCTL_GET_SHADOWTS_MEM, F_get_shadowts_mem);
   (HGSL_IOCTL_PUT_SHADOWTS_MEM, F_put_shadowts_mem);
   (HGSL_IOCTL_MEM_ALLOC, F_mem_alloc);
   (HGSL_IOCTL_MEM_FREE, F_mem_free);
   (HGSL_IOCTL_MEM_MAP_SMMU, F_mem_map_smmu);
   (HGSL_IOCTL_MEM_UNMAP_SMMU, F_mem_unmap_smmu);
   (HGSL_IOCTL_MEM_CACHE_OPERATION, F_mem_cache_operation);
   (HGSL_IOCTL_MEM_GET_FD, F_mem_get_fd);
   (HGSL_IOCTL_ISSUIB_WITH_ALLOC_LIST, F_issueib_with_alloc_list);
   (HGSL_IOCTL_GET_SYSTEM_TIME, F_get_system_time);
   (HGSL_IOCTL_SYNCOBJ_WAIT_MULTIPLE, F_syncobj_wait_multiple);
   (HGSL_IOCTL_PERFCOUNTER_SELECT, F_perfcounter_select);
   (HGSL_IOCTL_PERFCOUNTER_DESELECT, F_perfcounter_deselect);
   (HGSL_IOCTL_PERFCOUNTER_QUERY_SELECTION, F_perfcounter_query_selection);
   (HGSL_IOCTL_PERFCOUNTER_READ, F_perfcounter_read);
   (HGSL_IOCTL_SET_METAINFO, F_set_metainfo);
   (HGSL_IOCTL_HSYNC_FENCE_CREATE, F_hsync_fence_create);
   (HGSL_IOCTL_ISYNC_TIMELINE_CREATE, F_isync_timeline_create);
   (HGSL_IOCTL_ISYNC_TIMELINE_DESTROY, F_isync_timeline_destroy);
   (HGSL_IOCTL_ISYNC_FENCE_CREATE, F_isync_fence_create);
   (HGSL_IOCTL_ISYNC_FENCE_SIGNAL, F_isync_fence_signal);
   (HGSL_IOCTL_ISYNC_FORWARD, F_isync_forward);
   (HGSL_IOCTL_TIMELINE_CREATE, F_timeline_create);
   (HGSL_IOCTL_TIMELINE_SIGNAL, F_timeline_signal);
   (HGSL_IOCTL_TIMELINE_QUERY, F_timeline_query);
   (HGSL_IOCTL_TIMELINE_WAIT, F_timeline_wait);
   (HGSL_IOCTL_GSLPROFILER_PER_PROC_GPU_BUSY, F_gslprofiler_per_proc_gpu_busy);
   (HGSL_IOCTL_GSLPROFILER_PER_PROC_GPU_PMEM, F_gslprofiler_per_proc_gpu_pmem);
   (HGSL_IOCTL_GPU_COMMAND, F_gpu_command);
   (HGSL_IOCTL_GPU_AUX_COMMAND, F_gpu_aux_command);
   (HGSL_IOCTL_DEVICE_OPEN, F_device_open);
   (HGSL_IOCTL_ACTIVATE_DEVICE, F_activate_device)].

Definition ENOIOCTLCMD : Z := 515.
Definition HGSL_MAX_IOC_SIZE : Z := 128.

(** ioctls[nr]; the entries are at the numbers of their commands. *)
Definition ioctls (nr : Z) : option (Z * ioctl_func) :=
  '(c, f) ← snd <$> list_find (λ e, ic_nr e.1 = nr) hgsl_ioctl_func_table;
  Some (cmd_value 8 c, f).

(** * Operations *)

(** The memory of the process, by bytes, and the rest. *)
Record ioctl_state (S : Type) := mk_ioctl { io_user : gmap Z Z; io_rest : S }.
Arguments mk_ioctl {S}.
Arguments io_user {S}.
Arguments io_rest {S}.

#[export] Instance ioctl_state_eta S : Eta (ioctl_state S) := λ r,
  {| io_user := io_user r; io_rest := io_rest r |}.

Fixpoint read_user (mem : gmap Z Z) (addr : Z) (n : nat) : option (list Z) :=
  match n with
  | O => Some []
  | S n => b ← mem !! addr; l ← read_user mem (addr + 1) n; Some (b :: l)
  end.

(** Whether all of it has been written; it stops where the process has no memory. *)
Fixpoint write_user (mem : gmap Z Z) (addr : Z) (data : list Z) : gmap Z Z * bool :=
  match data with
  | [] => (mem, true)
  | b :: data =>
      match mem !! addr with
      | Some _ => write_user (<[addr := b]> mem) (addr + 1) data
      | None => (mem, false)
      end
  end.

Section ioctl.
Context {S : Type} (func : ioctl_func → list Z → M (ioctl_state S) (Z * list Z)).

Abbreviation IM := (M (ioctl_state S)).

Definition copy_out (arg : Z) (data : list Z) : IM bool := λ s,
  let '(mem, ok) := write_user (io_user s) arg data in Some (ok, s <| io_user := mem |>).

(** The parameters go back to the process, when the command says so. *)
Definition give_back (icmd copy_size arg ret : Z) (data : list Z) : IM Z :=
  if negb (copy_size =? 0) && has_flag icmd IOC_OUT then
    ok ← copy_out arg (take (Z.to_nat copy_size) data);
    mret (if (ok : bool) then ret else if negb (ret =? 0) then ret else - EFAULT)
  else mret ret.

Definition run_func (f : ioctl_func) (icmd copy_size arg : Z) (bytes : list Z) : IM Z :=
  data ← of_option (memcpy (replicate (Z.to_nat HGSL_MAX_IOC_SIZE) 0) 0 bytes);
  '(ret, data) ← func f data;
  give_back icmd copy_size arg ret data.

Definition hgsl_ioctl (cmd arg : Z) : IM Z :=
  match ioctls (_IOC_NR cmd) with
  | None => mret (- ENOIOCTLCMD)
  | Some (icmd, f) =>
      let copy_size := Z.min (_IOC_SIZE icmd) (_IOC_SIZE cmd) in
      if HGSL_MAX_IOC_SIZE <? copy_size then mret (- EINVAL)
      else
        mem ← gets io_user;
        match (if negb (copy_size =? 0) && has_flag icmd IOC_IN
               then read_user mem arg (Z.to_nat copy_size) else Some []) with
        | None => mret (- EFAULT)
        | Some bytes => run_func f icmd copy_size arg bytes
        end
  end.

Definition hgsl_compat_ioctl (cmd arg : Z) : IM Z := hgsl_ioctl cmd arg.
End ioctl.

(** ** The functions on timestamps and timelines

    The functions of [Ioctl] whose parameters come out of the bytes alone, and whose
    results go back there; [other] are the rest. *)

Section world.
Context `{K : Kernel} `{I : IssueCmd} (priv : ptr).
Context (other : ioctl_func → list Z → M world (Z * list Z)).

Abbreviation WM := (M world).

Definition get_param (name : string) (l : layout) (data : list Z) : WM Z :=
  of_option (get_field name l data).

Definition set_param (name : string) (z : Z) (l : layout) (data : list Z) : WM (list Z) :=
  of_option (set_field name z l data).

Definition param32 : layout := [__u32 "value"].

Definition timeline_list (l : layout) (data : list Z) : WM hgsl_timeline_list :=
  timelines ← get_param "timelines" l data; count ← get_param "count" l data; size ← get_param "timelines_size" l data;
  mret (mk_timeline_list timelines count size).

(** The identifier of a new timeline is written when there is one. *)
Definition created (name : string) (l : layout) (data : list Z) (m : WM (Z * option Z)) :
    WM (Z * list Z) :=
  '(ret, id) ← m;
  data ← match id with Some id => set_param name id l data | None => mret data end;
  mret (ret, data).

Definition same_data (data : list Z) (m : WM Z) : WM (Z * list Z) := ret ← m; mret (ret, data).

Definition world_func (f : ioctl_func) (data : list Z) : WM (Z * list Z) :=
  match f with
  | F_read_timestamp =>
      let l := hgsl_ioctl_read_ts_params_layout in
      devhandle ← get_param "devhandle" l data; ctxthandle ← get_param "ctxthandle" l data;
      type ← get_param "type" l data; old ← get_param "timestamp" l data;
      '(ret, ts) ← hgsl_ioctl_read_timestamp priv devhandle ctxthandle type old;
      data ← set_param "timestamp" ts l data;
      mret (ret, data)
  | F_check_timestamp =>
      let l := hgsl_ioctl_check_ts_params_layout in
      devhandle ← get_param "devhandle" l data; ctxthandle ← get_param "ctxthandle" l data;
      type ← get_param "type" l data; ts ← get_param "timestamp" l data; old ← get_param "rval" l data;
      '(ret, rval) ← hgsl_ioctl_check_timestamp priv devhandle ctxthandle type ts old;
      data ← set_param "rval" rval l data;
      mret (ret, data)
  | F_hsync_fence_create =>
      let l := hgsl_hsync_fence_create_layout in
      ts ← get_param "timestamp" l data; id ← get_param "context_id" l data; old ← get_param "fence_fd" l data;
      devhandle ← get_param "devhandle" l data;
      '(ret, fd) ← hgsl_ioctl_hsync_fence_create priv (mk_hsync_fence_params ts (s32 id) devhandle) old;
      data ← set_param "fence_fd" fd l data;
      mret (ret, data)
  | F_isync_timeline_create =>
      created "value" param32 data (hgsl_ioctl_isync_timeline_create priv)
  | F_isync_timeline_destroy =>
      id ← get_param "value" param32 data;
      same_data data (hgsl_ioctl_isync_timeline_destroy priv id)
  | F_isync_fence_create =>
      let l := hgsl_isync_create_fence_layout in
      id ← get_param "timeline_id" l data; ts ← get_param "ts" l data; padding ← get_param "padding" l data;
      created "fence_id" l data (hgsl_ioctl_isync_fence_create priv id ts padding)
  | F_isync_fence_signal =>
      let l := hgsl_isync_signal_fence_layout in
      id ← get_param "timeline_id" l data; fd ← get_param "fence_id" l data;
      same_data data (hgsl_ioctl_isync_fence_signal priv id (s32 fd))
  | F_isync_forward =>
      let l := hgsl_isync_forward_layout in
      id ← get_param "timeline_id" l data; ts ← get_param "ts" l data;
      same_data data (hgsl_ioctl_isync_forward priv id (s32 ts))
  | F_timeline_create =>
      let l := hgsl_timeline_create_layout in
      ts ← get_param "initial_ts" l data;
      created "timeline_id" l data (hgsl_ioctl_timeline_create priv ts)
  | F_timeline_signal =>
      prm ← timeline_list hgsl_timeline_signal_layout data;
      ret ← hgsl_ioctl_timeline_signal priv prm;
      data ← set_param "timelines_size" (entry_size prm) hgsl_timeline_signal_layout data;
      mret (ret, data)
  | F_timeline_query =>
      prm ← timeline_list hgsl_timeline_query_layout data;
      ret ← hgsl_ioctl_timeline_query priv prm;
      data ← set_param "timelines_size" (entry_size prm) hgsl_timeline_query_layout data;
      mret (ret, data)
  | F_timeline_wait =>
      let l := hgsl_timeline_wait_layout in
      timeout ← get_param "timeout_nanosec" l data; prm ← timeline_list l data;
      flags ← get_param "flags" l data; padding ← get_param "padding" l data;
      ret ← hgsl_ioctl_timeline_wait priv (mk_timeline_wait timeout (tt_timelines prm) (tt_count prm)
              (tt_timelines_size prm) flags padding);
      data ← set_param "timelines_size" (entry_size prm) l data;
      mret (ret, data)
  | F_gpu_command =>
      let l := hgsl_gpu_command_layout in
      flags ← get_param "flags" l data;
      cmdlist ← get_param "cmdlist" l data; cmdsize ← get_param "cmdsize" l data; numcmds ← get_param "numcmds" l data;
      objlist ← get_param "objlist" l data; objsize ← get_param "objsize" l data; numobjs ← get_param "numobjs" l data;
      synclist ← get_param "synclist" l data; syncsize ← get_param "syncsize" l data;
      numsyncs ← get_param "numsyncs" l data; devhandle ← get_param "devhandle" l data;
      id ← get_param "context_id" l data; ts ← get_param "timestamp" l data;
      '(ret, ts) ← hgsl_ioctl_gpu_command priv (mk_gpu_command flags cmdlist cmdsize numcmds
                     objlist objsize numobjs synclist syncsize numsyncs devhandle id ts);
      data ← set_param "timestamp" ts l data;
      mret (ret, data)
  | F_gpu_aux_command =>
      let l := hgsl_gpu_aux_command_layout in
      flags ← get_param "flags" l data;
      cmdlist ← get_param "cmdlist" l data; cmdsize ← get_param "cmdsize" l data; numcmds ← get_param "numcmds" l data;
      synclist ← get_param "synclist" l data; syncsize ← get_param "syncsize" l data;
      numsyncs ← get_param "numsyncs" l data; devhandle ← get_param "devhandle" l data;
      id ← get_param "context_id" l data; ts ← get_param "timestamp" l data;
      '(ret, ts) ← hgsl_ioctl_gpu_aux_command priv (mk_gpu_aux_command flags cmdlist cmdsize numcmds
                     synclist syncsize numsyncs devhandle id ts);
      data ← set_param "timestamp" ts l data;
      mret (ret, data)
  | _ => other f data
  end.

(** The same on the state of a call. *)
Definition in_rest {A} (m : WM A) : M (ioctl_state world) A := λ s,
  '(a, w) ← m (io_rest s); Some (a, s <| io_rest := w |>).
End world.

(** * Lemmas *)

Lemma read_user_length mem addr n bytes : read_user mem addr n = Some bytes → length bytes = n.
Proof.
  revert addr bytes. induction n as [|n IH]; intros addr bytes E; cbn in E; [by simplify_eq|].
  destruct (mem !! addr), (read_user mem (addr + 1) n) eqn:E'; simplify_eq/=. f_equal. by eapply IH.
Qed.

Lemma read_user_lookup mem addr n bytes i :
  read_user mem addr n = Some bytes → (i < n)%nat → bytes !! i = mem !! (addr + Z.of_nat i).
Proof.
  revert addr bytes i. induction n as [|n IH]; intros addr bytes i E Hi; [lia|]. cbn in E.
  destruct (mem !! addr) as [b|] eqn:Eb, (read_user mem (addr + 1) n) eqn:E'; simplify_eq/=.
  destruct i as [|i]; [by rewrite Z.add_0_r|].
  change ((b :: l) !! S i) with (l !! i). rewrite (IH _ _ i E') by lia. f_equal. lia.
Qed.

Lemma read_user_eq mem addr n bytes :
  length bytes = n → (∀ i, (i < n)%nat → mem !! (addr + Z.of_nat i) = bytes !! i) →
  read_user mem addr n = Some bytes.
Proof.
  intros <-. revert addr. induction bytes as [|b bytes IH]; intros addr Hb; [done|]. cbn.
  pose proof (Hb 0%nat ltac:(cbn; lia)) as E. rewrite Z.add_0_r in E. rewrite E. cbn.
  rewrite IH; [done|]. intros i Hi. specialize (Hb (S i) ltac:(cbn; lia)).
  trans (mem !! (addr + Z.of_nat (S i))); [f_equal; lia|exact Hb].
Qed.

Lemma read_user_app mem addr n k :
  read_user mem addr (n + k) =
  (l1 ← read_user mem addr n; l2 ← read_user mem (addr + Z.of_nat n) k; Some (l1 ++ l2)).
Proof.
  revert addr. induction n as [|n IH]; intros addr; cbn.
  { rewrite Z.add_0_r. by destruct (read_user mem addr k). }
  destruct (mem !! addr) as [b|]; [|done]. cbn. rewrite IH.
  replace (addr + 1 + Z.of_nat n) with (addr + Z.of_nat (S n)) by lia.
  destruct (read_user mem (addr + 1) n); [|done]. cbn. by destruct (read_user mem _ k).
Qed.

Lemma read_user_part mem addr n bytes o k :
  read_user mem addr n = Some bytes → (o + k ≤ n)%nat →
  read_user mem (addr + Z.of_nat o) k = Some (take k (drop o bytes)).
Proof.
  intros E Hk. replace n with (o + (k + (n - o - k)))%nat in E by lia. rewrite read_user_app in E.
  destruct (read_user mem addr o) as [l1|] eqn:E1; [|done]. cbn in E. rewrite read_user_app in E.
  destruct (read_user mem (addr + Z.of_nat o) k) as [l2|] eqn:E2; [|done]. cbn in E.
  destruct (read_user mem (addr + Z.of_nat o + Z.of_nat k) _) as [l3|]; [|done]. injection E as <-.
  apply read_user_length in E1, E2. by rewrite <- E1, drop_app_length, <- E2, take_app_length.
Qed.

(** What [write_user] does: some of the bytes, from the first on, and all of them where the
    process has memory. *)
Lemma write_user_spec mem addr data mem' ok :
  write_user mem addr data = (mem', ok) →
  (∀ a, ¬ (addr ≤ a < addr + Z.of_nat (length data)) → mem' !! a = mem !! a) ∧
  (ok = true → ∀ i, (i < length data)%nat → mem' !! (addr + Z.of_nat i) = data !! i) ∧
  ((∀ i, (i < length data)%nat → is_Some (mem !! (addr + Z.of_nat i))) → ok = true).
Proof.
  revert addr mem. induction data as [|b data IH]; intros addr mem E; cbn in E.
  { simplify_eq. split_and!; [done|intros _ i Hi; cbn in Hi; lia|done]. }
  destruct (mem !! addr) as [b'|] eqn:Eb.
  - apply IH in E as (Hout & Hin & Hok). cbn [length]. split_and!.
    + intros a Ha. rewrite Hout, lookup_insert_ne by lia. done.
    + intros Ht [|i] Hi.
      * rewrite Z.add_0_r, Hout by lia. apply lookup_insert_eq.
      * change ((b :: data) !! S i) with (data !! i). rewrite <- (Hin Ht i) by lia. f_equal. lia.
    + intros Hall. apply Hok. intros i Hi. rewrite lookup_insert_ne by lia.
      replace (addr + 1 + Z.of_nat i) with (addr + Z.of_nat (S i)) by lia. apply Hall. lia.
  - simplify_eq. split_and!; [done..|]. intros Hall. destruct (Hall 0%nat) as [x Hx]; [cbn; lia|].
    rewrite Z.add_0_r in Hx. congruence.
Qed.

(** The entries of the table: their parameters come in, and fit. *)
Definition entry_ok (e : ioctl_cmd * ioctl_func) : bool :=
  let cmd := cmd_value 8 e.1 in
  has_flag cmd IOC_IN && (_IOC_NR cmd =? ic_nr e.1) && (0 <? _IOC_SIZE cmd) &&
  (_IOC_SIZE cmd <=? HGSL_MAX_IOC_SIZE).

Lemma table_ok : Forall (λ e, entry_ok e = true) hgsl_ioctl_func_table.
Proof. apply (bool_decide_unpack _). vm_compute. exact I. Qed.

Lemma ioctls_Some nr cmd f :
  ioctls nr = Some (cmd, f) →
  has_flag cmd IOC_IN = true ∧ _IOC_NR cmd = nr ∧ 0 < _IOC_SIZE cmd ≤ HGSL_MAX_IOC_SIZE ∧
  ∃ c, (c, f) ∈ hgsl_ioctl_func_table ∧ cmd = cmd_value 8 c.
Proof.
  unfold ioctls. destruct (list_find _ _) as [[i [c g]]|] eqn:E; [|done]. cbn. intros [= <- <-].
  apply list_find_Some in E as (Hi & <- & _).
  pose proof (proj1 (Forall_lookup _ _) table_ok _ _ Hi) as Hok. unfold entry_ok in Hok.
  rewrite !andb_true_iff, Z.eqb_eq, Z.ltb_lt, Z.leb_le in Hok. cbn [fst snd] in *. destruct_and!.
  split_and!; [done..|]. exists c. split; [|done]. by eapply list_elem_of_lookup_2.
Qed.

(** For each of the two ABIs: the entry is found by the number, each member is where the
    kernel looks for it, and inside the bytes that are copied. *)
Definition portable (a8 : Z) (e : ioctl_cmd * ioctl_func) : Prop :=
  ioctls (_IOC_NR (cmd_value a8 e.1)) = Some (cmd_value 8 e.1, e.2) ∧
  let n := Z.min (_IOC_SIZE (cmd_value 8 e.1)) (_IOC_SIZE (cmd_value a8 e.1)) in
  n ≤ 128 ∧
  Forall (λ fo, offset_of (f_name fo.1) (ic_layout e.1) = Some fo ∧ 0 ≤ fo.2 ∧
    0 ≤ f_width fo.1 ∧ fo.2 + f_width fo.1 ≤ n) (offsets a8 0 (ic_layout e.1)).

#[export] Instance ioctl_func_eq_dec : EqDecision ioctl_func.
Proof. solve_decision. Defined.

#[export] Instance portable_dec a8 e : Decision (portable a8 e).
Proof. unfold portable. apply _. Defined.

Lemma table_portable a8 : a8 = 4 ∨ a8 = 8 → Forall (portable a8) hgsl_ioctl_func_table.
Proof. intros [-> | ->]; apply (bool_decide_unpack _); vm_compute; exact I. Qed.

Lemma data_of_bytes (bytes : list Z) n :
  (length bytes ≤ n)%nat →
  memcpy (replicate n 0) 0 bytes = Some (bytes ++ replicate (n - length bytes) 0).
Proof.
  intros Hn. replace n with (length bytes + (n - length bytes))%nat at 1 by lia.
  rewrite replicate_add. apply (memcpy_app [] (replicate (length bytes) 0)). by rewrite length_replicate.
Qed.

Lemma IOC_SIZE_nonneg cmd : 0 ≤ _IOC_SIZE cmd.
Proof. unfold _IOC_SIZE. by apply Z.land_nonneg; right. Qed.

(** * Properties *)

(** C10. hgsl_compat_ioctl needs no translation: whether the ABI of a process aligns 64-bit
    integers to 4 or to 8 bytes, each of its commands has the entry that it has for the
    kernel, and each member of the parameters (of an array, its first element), read by the
    function where the kernel has it, has the value that the process has written where its
    own ABI has it, although the two may not agree on the size of the parameters. *)
Theorem compat_members_arrive c f a8 mem arg m o bytes :
  (c, f) ∈ hgsl_ioctl_func_table → a8 = 4 ∨ a8 = 8 → (m, o) ∈ offsets a8 0 (ic_layout c) →
  let n := Z.to_nat (Z.min (_IOC_SIZE (cmd_value 8 c)) (_IOC_SIZE (cmd_value a8 c))) in
  read_user mem arg n = Some bytes →
  ioctls (_IOC_NR (cmd_value a8 c)) = Some (cmd_value 8 c, f) ∧
  ∃ member, read_user mem (arg + o) (Z.to_nat (f_width m)) = Some member ∧
    get_field (f_name m) (ic_layout c) (bytes ++ replicate (128 - n) 0) = Some (le_value member).
Proof.
  intros Hin Ha Hm n Hr.
  destruct (proj1 (Forall_forall _ _) (table_portable a8 Ha) _ Hin) as (Hi & Hn & Hf).
  split; [exact Hi|]. destruct (proj1 (Forall_forall _ _) Hf _ Hm) as (Ho & H0 & Hw & Hle).
  cbn [fst snd] in *. pose proof (read_user_length _ _ _ _ Hr) as Hl.
  exists (take (Z.to_nat (f_width m)) (drop (Z.to_nat o) bytes)). split.
  - rewrite <- (Z2Nat.id o) at 1 by lia. eapply read_user_part; [exact Hr|lia].
  - unfold get_field. rewrite Ho. cbn [mbind option_bind]. unfold peek.
    rewrite (proj2 (Nat.leb_le _ _)) by (rewrite length_app, length_replicate; lia). cbn. f_equal. f_equal.
    rewrite drop_app_le by lia. apply take_app_le. rewrite length_drop. lia.
Qed.

(** What is left of the call when the function has returned [ret] and [data] in [s1]. *)
Record returns {S} (icmd arg : Z) (n : nat) (ret : Z) (data : list Z) (s1 : ioctl_state S)
    (ret' : Z) (s' : ioctl_state S) : Prop := {
  rt_rest : io_rest s' = io_rest s1;
  rt_outside : ∀ a, ¬ (arg ≤ a < arg + Z.of_nat n) → io_user s' !! a = io_user s1 !! a;
  rt_in_only : has_flag icmd IOC_OUT = false → ret' = ret ∧ s' = s1;
  rt_out : has_flag icmd IOC_OUT = true →
    (∀ i, (i < n)%nat → is_Some (io_user s1 !! (arg + Z.of_nat i))) →
    ret' = ret ∧ ∀ i, (i < n)%nat → io_user s' !! (arg + Z.of_nat i) = data !! i;
  rt_ret : ret' = ret ∨ ret = 0 ∧ ret' = - EFAULT }.

Lemma give_back_ioctl {S} icmd k arg ret data (s : ioctl_state S) :
  0 ≤ k ≤ 128 → length data = 128%nat →
  ∃ ret' s', give_back icmd k arg ret data s = Some (ret', s') ∧
    returns icmd arg (Z.to_nat k) ret data s ret' s'.
Proof.
  intros Hk Hlen. unfold give_back.
  destruct (Z.eqb_spec k 0) as [E0|Hk0]; cbn [negb andb].
  { exists ret, s. split; [done|]. subst k. split; try done; [|by left]. split; [done|]. intros i Hi. lia. }
  destruct (has_flag icmd IOC_OUT) eqn:Ho.
  2:{ exists ret, s. split; [done|]. split; try done; [|by left]. intros Ho2. congruence. }
  destruct (write_user (io_user s) arg (take (Z.to_nat k) data)) as [mem ok] eqn:Ew.
  assert (copy_out arg (take (Z.to_nat k) data) s = Some (ok, s <| io_user := mem |>)) as Ec
    by (unfold copy_out; by rewrite Ew).
  rewrite (bind_run _ _ _ _ _ Ec).
  assert (length (take (Z.to_nat k) data) = Z.to_nat k) as Hl by (rewrite length_take; lia).
  apply write_user_spec in Ew as (Hout & Hin & Hok). rewrite Hl in *.
  eexists _, _. split; [done|]. split; try done.
  - intros Ho2. congruence.
  - intros _ Hall. specialize (Hok Hall). rewrite Hok. split; [done|]. intros i Hi.
    cbn. rewrite Hin, lookup_take_lt by done. done.
  - destruct ok; [by left|]. destruct (Z.eqb_spec ret 0); [by right|by left].
Qed.

Section properties.
Context {S : Type} (func : ioctl_func → list Z → M (ioctl_state S) (Z * list Z)).

Lemma ioctl_run cmd arg s icmd f bytes ret data s1 :
  ioctls (_IOC_NR cmd) = Some (icmd, f) →
  let k := Z.min (_IOC_SIZE icmd) (_IOC_SIZE cmd) in
  read_user (io_user s) arg (Z.to_nat k) = Some bytes →
  func f (bytes ++ replicate (128 - Z.to_nat k) 0) s = Some ((ret, data), s1) →
  hgsl_ioctl func cmd arg s = give_back icmd k arg ret data s1.
Proof.
  intros Ei k Eb Ef. destruct (ioctls_Some _ _ _ Ei) as (Hin & _ & Hsz & _).
  pose proof (IOC_SIZE_nonneg cmd) as Hc. unfold hgsl_ioctl. rewrite Ei. fold k.
  unfold HGSL_MAX_IOC_SIZE in *. destruct (Z.ltb_spec 128 k); [lia|].
  rewrite (bind_run _ _ s (io_user s) s), Hin, andb_true_r by done.
  replace (if negb (k =? 0) then read_user (io_user s) arg (Z.to_nat k) else Some []) with (Some bytes).
  2:{ destruct (Z.eqb_spec k 0) as [E0|_]; [|by rewrite Eb]. by rewrite E0 in Eb. }
  unfold run_func. pose proof (read_user_length _ _ _ _ Eb) as Hbl.
  rewrite (bind_run _ _ s (bytes ++ replicate (128 - Z.to_nat k) 0) s); [by rewrite (bind_run _ _ _ _ _ Ef)|].
  change (Z.to_nat HGSL_MAX_IOC_SIZE) with 128%nat. by rewrite data_of_bytes, Hbl by lia.
Qed.

(** C9. A command that has no entry is refused.  For one that has, whatever the size that the
    caller's version of the parameters has, the function gets the bytes that both versions
    have, and zeros behind them; it is not run when the process does not have these bytes.
    Afterwards these bytes are what the function has left, when the command is one that
    returns its parameters, and no other byte has been written; the error of the function
    is returned, and otherwise an error only when they cannot be written. *)
Theorem ioctl_exact cmd arg s :
  (ioctls (_IOC_NR cmd) = None ∧ hgsl_ioctl func cmd arg s = Some (- ENOIOCTLCMD, s)) ∨
  ∃ icmd f n, ioctls (_IOC_NR cmd) = Some (icmd, f) ∧
    Z.of_nat n = Z.min (_IOC_SIZE icmd) (_IOC_SIZE cmd) ∧ (n ≤ 128)%nat ∧
    ((n ≠ 0%nat ∧ read_user (io_user s) arg n = None ∧
        hgsl_ioctl func cmd arg s = Some (- EFAULT, s)) ∨
     ∃ bytes, read_user (io_user s) arg n = Some bytes ∧
       ∀ ret data s1, func f (bytes ++ replicate (128 - n) 0) s = Some ((ret, data), s1) →
         length data = 128%nat →
         ∃ ret' s', hgsl_ioctl func cmd arg s = Some (ret', s') ∧
           returns icmd arg n ret data s1 ret' s').
Proof.
  destruct (ioctls (_IOC_NR cmd)) as [[icmd f]|] eqn:Ei; [right|left; split; [done|]].
  2:{ unfold hgsl_ioctl. by rewrite Ei. }
  destruct (ioctls_Some _ _ _ Ei) as (Hin & _ & Hsz & _). pose proof (IOC_SIZE_nonneg cmd) as Hc.
  set (k := Z.min (_IOC_SIZE icmd) (_IOC_SIZE cmd)) in *. exists icmd, f, (Z.to_nat k).
  unfold HGSL_MAX_IOC_SIZE in *. split; [done|]. split; [lia|]. split; [lia|].
  destruct (read_user (io_user s) arg (Z.to_nat k)) as [bytes|] eqn:Eb.
  2:{ left. split_and!; [by intros E0; rewrite E0 in Eb|done|]. unfold hgsl_ioctl. rewrite Ei. fold k.
      destruct (Z.ltb_spec HGSL_MAX_IOC_SIZE k); [unfold HGSL_MAX_IOC_SIZE in *; lia|].
      rewrite (bind_run _ _ s (io_user s) s), Hin, andb_true_r by done.
      destruct (Z.eqb_spec k 0) as [E0|_]; [by rewrite E0 in Eb|]. by rewrite Eb. }
  right. exists bytes. split; [done|]. intros ret data s1 Ef Hlen.
  destruct (give_back_ioctl icmd k arg ret data s1) as (ret' & s' & E & Hres); [lia|done|].
  exists ret', s'. split; [|done]. rewrite <- E. by eapply ioctl_run.
Qed.
End properties.

Section read_timestamp.
Context `{K : Kernel} `{I : IssueCmd} (priv : ptr).
Context (other : ioctl_func → list Z → M world (Z * list Z)).

(** struct hgsl_ioctl_read_ts_params as the process has it. *)
Definition read_ts_bytes (devhandle id type ts : Z) : list Z :=
  le_bytes 4 devhandle ++ le_bytes 4 id ++ le_bytes 4 type ++ le_bytes 4 ts.

(** What [type] of timestamp the context has. *)
Definition timestamp_of (type : Z) (sh : shadow_ts) (c : hgsl_context) : option Z :=
  if type =? GSL_TIMESTAMP_RETIRED then Some (eop sh)
  else if type =? GSL_TIMESTAMP_CONSUMED then Some (sop sh)
  else if type =? GSL_TIMESTAMP_QUEUED then Some (c_queued_ts c) else None.

Lemma read_timestamp_known w devhandle id type old p c sh ts :
  w_table w !! (hgsl_hnd2id devhandle, id) = Some p → w_contexts w !! p = Some c → 0 < c_kref c →
  owns priv devhandle id c = true → c_shadow_ts c = Some sh → timestamp_of type sh c = Some ts →
  hgsl_ioctl_read_timestamp priv devhandle id type old w = Some ((0, ts), w).
Proof.
  intros Ht Hc Hk Ho Hs Hts. unfold hgsl_ioctl_read_timestamp.
  pose proof (get_context_owner_run priv devhandle id p c w Ht Hc Hk) as E. rewrite Ho in E.
  rewrite (bind_run _ _ _ _ _ E). set (w1 := with_context _ _ _).
  assert (get_context_shadow_ts p type w1 = Some ((0, ts), w1)) as E1.
  { unfold get_context_shadow_ts. run_load (with_context_lookup w p (c <| c_kref := c_kref c + 1 |>)).
    assert (c_shadow_ts (c <| c_kref := c_kref c + 1 |>) = Some sh) as -> by exact Hs.
    change (c_queued_ts (c <| c_kref := c_kref c + 1 |>)) with (c_queued_ts c). unfold timestamp_of in Hts.
    repeat case_match; by simplify_eq. }
  rewrite (bind_run _ _ _ _ _ E1). by rewrite (bind_run _ _ _ _ _ (get_put_id w p c Hc Hk)).
Qed.
Lemma four_bytes z : ∃ a b c d, le_bytes 4 z = [a; b; c; d].
Proof. by eexists _, _, _, _. Qed.

(** The members of the parameters, and the timestamp written over the old one. *)
Lemma read_ts_fields devhandle id type old ts tail :
  is_u32 devhandle → is_u32 id → is_u32 type → is_u32 old →
  let l := hgsl_ioctl_read_ts_params_layout in
  let data := read_ts_bytes devhandle id type old ++ tail in
  get_field "devhandle" l data = Some devhandle ∧ get_field "ctxthandle" l data = Some id ∧
  get_field "type" l data = Some type ∧ get_field "timestamp" l data = Some old ∧
  set_field "timestamp" ts l data = Some (read_ts_bytes devhandle id type ts ++ tail).
Proof.
  intros Hd Hi Ht Ho l data. unfold data, read_ts_bytes.
  apply le_value_u32 in Hd, Hi, Ht, Ho.
  destruct (four_bytes devhandle) as (d0 & d1 & d2 & d3 & Ed), (four_bytes id) as (i0 & i1 & i2 & i3 & Ei),
    (four_bytes type) as (t0 & t1 & t2 & t3 & Et), (four_bytes old) as (o0 & o1 & o2 & o3 & Eo),
    (four_bytes ts) as (n0 & n1 & n2 & n3 & Ets).
  rewrite Ed in Hd. rewrite Ei in Hi. rewrite Et in Ht. rewrite Eo in Ho.
  rewrite Ed, Ei, Et, Eo, Ets, <- Hd, <- Hi, <- Ht, <- Ho. split_and!; try reflexivity.
  trans (memcpy ([d0; d1; d2; d3] ++ [i0; i1; i2; i3] ++ [t0; t1; t2; t3] ++ [o0; o1; o2; o3] ++ tail)
    12 (le_bytes 4 ts)); [reflexivity|]. by rewrite Ets.
Qed.

(** C11. A process that asks for a timestamp of its context finds it in its parameters, the rest
    of which is as it was; nothing else has changed, neither in its memory nor in the
    driver. *)
Theorem read_timestamp_ioctl_exact arg s devhandle id type old p c sh ts :
  is_u32 devhandle → is_u32 id → is_u32 type → is_u32 old →
  read_user (io_user s) arg 16 = Some (read_ts_bytes devhandle id type old) →
  w_table (io_rest s) !! (hgsl_hnd2id devhandle, id) = Some p →
  w_contexts (io_rest s) !! p = Some c → 0 < c_kref c → owns priv devhandle id c = true →
  c_shadow_ts c = Some sh → timestamp_of type sh c = Some ts →
  ∃ s', hgsl_ioctl (λ f data, in_rest (world_func priv other f data))
      (cmd_value 8 HGSL_IOCTL_READ_TIMESTAMP) arg s = Some (0, s') ∧
    io_rest s' = io_rest s ∧
    read_user (io_user s') arg 16 = Some (read_ts_bytes devhandle id type ts) ∧
    ∀ a, ¬ (arg ≤ a < arg + 16) → io_user s' !! a = io_user s !! a.
Proof.
  intros Hd Hi Ht Ho Hr Htab Hc Hk Hown Hsh Hts.
  pose proof (read_timestamp_known (io_rest s) devhandle id type old p c sh ts Htab Hc Hk Hown Hsh Hts) as E.
  destruct (read_ts_fields devhandle id type old ts (replicate 112 0) Hd Hi Ht Ho) as (E1 & E2 & E3 & E4 & E5).
  assert (in_rest (world_func priv other F_read_timestamp
    (read_ts_bytes devhandle id type old ++ replicate 112 0)) s =
    Some ((0, read_ts_bytes devhandle id type ts ++ replicate 112 0), s)) as Ef.
  { unfold in_rest, world_func, get_param, set_param. rewrite E1, E2, E3, E4.
    rewrite !(bind_run _ _ (io_rest s) _ (io_rest s)) by done.
    cbv iota beta. rewrite E5. by destruct s. }
  set (cmd := cmd_value 8 HGSL_IOCTL_READ_TIMESTAMP).
  assert (ioctls (_IOC_NR cmd) = Some (cmd, F_read_timestamp)) as Eio by (vm_compute; reflexivity).
  assert (_IOC_SIZE cmd = 16) as Esz by (vm_compute; reflexivity).
  assert (has_flag cmd IOC_OUT = true) as Eout by (vm_compute; reflexivity).
  clearbody cmd. set (data := read_ts_bytes devhandle id type ts ++ replicate 112 0) in *.
  destruct (give_back_ioctl cmd 16 arg 0 data s) as (ret & s' & Eg & [Hrest Hout _ Hback Hret]); [lia|done|].
  destruct Hback as [-> Hb]; [done| |].
  { intros i Hlt. rewrite <- (read_user_lookup _ _ _ _ _ Hr Hlt).
    apply lookup_lt_is_Some. by rewrite (read_user_length _ _ _ _ Hr). }
  exists s'. split; [|split_and!; [exact Hrest| |exact Hout]].
  - pose proof (ioctl_run (λ f data, in_rest (world_func priv other f data)) cmd arg s cmd
      F_read_timestamp (read_ts_bytes devhandle id type old) 0 data s Eio) as Hrun.
    cbv zeta in Hrun. rewrite Esz in Hrun. rewrite <- Eg. by apply Hrun.
  - apply read_user_eq; [done|]. intros i Hlt. rewrite Hb by done. unfold data.
    by rewrite lookup_app_l.
Qed.
End read_timestamp.

(** * Concrete runs *)

(** A process with some bytes at the address 4096. *)
Definition demo_user (bytes : list Z) : gmap Z Z :=
  list_to_map (zip (seqZ 4096 (Z.of_nat (length bytes))) bytes).

(** The 12 bytes of struct hgsl_ioctl_mem_get_fd_params where 64-bit integers have 4. *)
Lemma compat_members_arrive_witness :
  let mem := demo_user (le_bytes 8 5 ++ le_bytes 4 77) in
  ioctls (_IOC_NR (cmd_value 4 HGSL_IOCTL_MEM_GET_FD)) =
    Some (cmd_value 8 HGSL_IOCTL_MEM_GET_FD, F_mem_get_fd) ∧
  ∃ member, read_user mem (4096 + 8) 4 = Some member ∧
    get_field "fd" hgsl_ioctl_mem_get_fd_params_layout
      ((le_bytes 8 5 ++ le_bytes 4 77) ++ replicate 116 0) = Some (le_value member).
Proof.
  intros mem.
  apply (compat_members_arrive HGSL_IOCTL_MEM_GET_FD F_mem_get_fd 4 mem 4096 (__s32 "fd") 8
    (le_bytes 8 5 ++ le_bytes 4 77)).
  - by apply (list_elem_of_lookup_2 _ 14%nat).
  - by left.
  - by apply (list_elem_of_lookup_2 _ 1%nat).
  - vm_compute. reflexivity.
Defined.

Definition demo_ts_context : hgsl_context := fresh_context 9 4 0 (Some (mk_shadow 20 17)).

Lemma read_timestamp_ioctl_exact_witness :
  let _ := quiet_kernel in let _ := quiet_issue in
  let s := {| io_user := demo_user (read_ts_bytes 1 4 GSL_TIMESTAMP_RETIRED 0);
              io_rest := empty_world <| w_table := {[(0, 4) := 1%positive]} |>
                           <| w_contexts := {[1%positive := demo_ts_context]} |> |} in
  ∃ s', hgsl_ioctl (λ f data, in_rest (world_func 9 (λ _ data, mret (0, data)) f data))
      (cmd_value 8 HGSL_IOCTL_READ_TIMESTAMP) 4096 s = Some (0, s') ∧
    read_user (io_user s') 4096 16 = Some (read_ts_bytes 1 4 GSL_TIMESTAMP_RETIRED 17).
Proof.
  intros Kn Ki s.
  destruct (read_timestamp_ioctl_exact 9 (λ _ data, mret (0, data)) 4096 s 1 4 GSL_TIMESTAMP_RETIRED
    0 1 demo_ts_context (mk_shadow 20 17) 17) as (s' & E & _ & Hr & _);
    [by split..|vm_compute; reflexivity|reflexivity|reflexivity|done|reflexivity|reflexivity|reflexivity|].
  exists s'. split; [exact E|exact Hr].
Defined.
